(* ===== verification/_CoqProject ===== *)
-Q . S2P
Prelude.v
Money.v
Text.v
Json.v
PyTime.v
Accounts.v
Holds.v
HoldsFacts.v
Budgets.v
BudgetsFacts.v
ResetFacts.v
Reserve.v
ReserveFacts.v
MoneyTrace.v
JsonParse.v
PyText.v
Fences.v
AuditChain.v
AuditFacts.v
Outbox.v
OutboxFacts.v
Queue.v
KnowledgeJobs.v
KnowledgeFacts.v
MemoryJobs.v
MemoryFacts.v
ChatHistory.v
HistoryFacts.v
RowJobs.v
RowFacts.v
Summaries.v
SummariesFacts.v
SummariesTrace.v
SummariesProgress.v
Regex.v
Memories.v
MemoriesFacts.v
MemoriesTrace.v
Extractor.v
ExtractorFacts.v
Extraction.v
ExtractionFacts.v
ContextFit.v
ContextFacts.v
FreeTime.v
FreeTimeFacts.v
Worker.v
WorkerFacts.v
Capacity.v
CapacityFacts.v
Crypto.v
Browsers.v
BrowsersFacts.v
BrowsersTrace.v
Rbac.v
RbacFacts.v
Roles.v
RolesFacts.v
Access.v
AccessFacts.v
Retrieval.v
IndexFacts.v
RetrievalFacts.v
Pricing.v
PricingFacts.v
UsageLedger.v
LedgerFacts.v
UsageLogging.v
LoggingFacts.v
