(* ===== verification/Prelude.v ===== *)
(** * Alpharouter: a verification library for the backend's core services

    Alpharouter is a multi-user front end to language models.  Its backend
    (src/backend/app) is a FastAPI application over PostgreSQL, Redis and a set
    of worker processes.  This library models the services that keep its
    promises about money, about the audit trail, about background work, about
    what is remembered of a person, about who may read what and about what a
    model is sent, function by function, as executable definitions on explicit
    tables, and proves what those services promise.

    ** How the parts fit together

    A turn of a chat reserves money, is sent to a provider with the chat's
    history, and is settled.  What a turn stores puts background work in motion:
    the service that stores a change writes an outbox event with it; a relay
    publishes the event to a Redis stream; a worker claims the job under a
    lease, runs it and records the outcome.  The jobs modelled are the ingestion
    of documents, the extraction of memories, the running summary of a chat and
    the index of a chat for recall.  Governance calls append to a hash chain.
    A turn that runs code first takes a lease from a semaphore in Redis.

    ** How a program state is modelled

    A table is a map from ids to rows ([Prelude.table]); a service's state is a
    record of the tables it touches; an operation is a function
    [op S A = S -> res A * S], where [res] is a value or a Python exception and
    the state is what the session has written by then.  [HasTable] is the
    interface through which the services share tables: the outbox's functions
    are written once, against any state that has an outbox.  ORM objects that
    are loaded in one session and saved in another are rows passed by value and
    saved column by column ([Outbox.save]), so what another transaction changed
    meanwhile stays.  Instants are microseconds since 1970 ([PyTime]); money is
    rational, rounded where the code rounds ([Money]); text that is measured,
    sliced or hashed is a list of code points ([Text]), and JSON values are
    Python's ([Json], [JsonParse]).  The clock, fresh uuids, random nonces, rows
    locked by others, model answers and other processes' transactions are
    arguments of the operations that meet them.

    ** Foundations

    - [Prelude]: tables, sums, sorting, results and operations, with the lemmas
      and tactics the rest uses.
    - [Money]: rational dollars and [round(x, 8)].
    - [Text]: code points, UTF-8, digits, SHA-256 computed as in FIPS 180-4.
    - [Json]: values and [json.dumps] in the two forms the code uses;
      [JsonParse]: [json.loads], and that it reads back what is printed.
    - [PyTime]: calendar months and [isoformat]; [PyText]: string methods.
      Unicode's tables, [repr], [float()] and [int()] of a string are type classes
      ([PyStr], [PyFold], [PyRepr], [PyFloat], [PyFloatText], [PyInt], [PyNumber],
      [PyNFC], [PyRe], [PyCategory]), instantiated on ASCII for the witnesses.
    - [Crypto]: HMAC-SHA256 and base64, computed, checked on the RFCs' vectors.
    - [Regex]: the patterns of the [re] module as data, a search by continuations
      and, as its specification, the texts a pattern spans.

    ** Money

    - [Accounts]: the columns of users, keys, plans, holds, ledger and log that
      the budget code reads or writes.
    - [Holds] and [Reserve]: budget_reservation_service.py and
      alpha_router_api_key_service.py; [Budgets]: budget_service.py.
    - [HoldsFacts], [ReserveFacts], [BudgetsFacts], [ResetFacts]: each operation
      on each branch: settling charges once; an admitted hold keeps spent plus
      held within the limit; a refusal is justified by the true total; the
      rollover, the drift repair, and the two resolutions of a plan agree; the
      monthly reset ends and reaches every user once.
    - [MoneyTrace]: over any sequence of calls, committed or rolled back, a
      reserved counter is the sum of the open holds behind it.

    ** Usage, what it costs, and the ledger

    - [Pricing]: the first half of usage_accounting_service.py: a provider's
      answer as normalized usage, and a quote from the provider's own figure, the
      catalogue's rates, LiteLLM's price list (a parameter) or nothing.
      [PricingFacts]: the sources are tried in that order, and the quantities
      that the items of a calculated quote bill are exact.
    - [UsageLedger]: the second half: configured rates, holds for a call, the rows
      an operation leaves, and corrections by a provider's own figures.  A column
      of money holds twelve decimals ([numeric12]).
    - [UsageLogging]: usage_logging_service.py and [_persist_stream_usage] of
      turn_settlement.py: log, ledger and budget of one call, and its three
      attempts, each with what its commit answered ([commit]) and what other
      transactions did before it.
    - [LedgerFacts], [LoggingFacts]: over any sequence of calls the ledger says of
      an event what it cost, and an operation's total is the sum of its events,
      up to the rounding of the columns; whatever answers of commits are lost, and
      whatever others commit between the attempts short of undoing the call, a
      turn is recorded at most once; and what is recorded is charged once.

    ** Governance

    - [AuditChain], [AuditFacts]: agent_governance_service.py.  Appending keeps
      the chain verifiable; paged verification ends and is whole-table
      verification; two chains with the same head record the same history, or
      a record of each collide under SHA-256; secrets are redacted before they are hashed.

    ** Background work

    - [Outbox], [OutboxFacts]: outbox_service.py.  One event per key, leases that
      exclude, and every event of a relayed batch accounted for.
    - [Queue]: knowledge_queue.py; what is published decodes to the same event.
    - [KnowledgeJobs], [KnowledgeFacts]: knowledge_job_service.py.
    - [MemoryJobs], [MemoryFacts]: memory_job_service.py,
      project_memory_job_service.py and the operations of
      memory_job_admin_service.py, one definition for both scopes ([MemoryScope]).
    - [RowJobs], [RowFacts]: row_job_service.py and the job functions of
      chat_summary_service.py and chat_recall_service.py ([RowScope]).
    - [Worker], [WorkerFacts]: knowledge_worker_service.py.  A command to Redis
      is answered, or fails before it is carried out or after ([redis_answer]).
      A message is acknowledged once, and only when its handling ended, and a
      reported outcome is true of the tables.
    The facts say who may take a job, that a waiting job is woken, where a run
    starts and how far it reached, and when a job gives up.

    ** Chats

    - [ChatHistory], [HistoryFacts]: chat_history_service.py: the words of a
      stored message, and a turn's history made whole from the newest older
      messages that fit.
    - [Fences]: prompt_fences.py: untrusted text cannot close its fence; what
      the label and the source bring is counted.
    - [ContextFit], [ContextFacts]: context_fit_service.py: a prompt that is too
      long for its model is cut to what fits, the system messages and the newest
      turns kept.  A chat with tools is sent as it came.
    - [Summaries]: the parts of chat_summary_service.py; [SummariesFacts] and
      [SummariesTrace]: whatever others do between a run's reads and writes, a
      chat's parts never overlap and every count is true (rely-guarantee: [rely]
      is what others keep to, [holding] that a step keeps to it too), and a run
      that was overtaken writes nothing, as long as the clock moves on;
      [SummariesProgress]: left alone, runs bring the summary up to date, and a
      turn's history is cut where the summary ends.

    ** Memories

    - [Memories]: user_memory_service.py, [normalize_memory_text] of
      text_normalize.py, what memory_extraction_service.py does with an
      extractor's operations, and the upkeep of memory_maintenance_service.py.
    - [MemoriesFacts]: a stored text is its own normal form and keeps its hash;
      the steps an operation may take ([touch], by rules of the form [moves]).
      [MemoriesTrace]: what every sequence of steps keeps: a deleted memory stays
      deleted, other people's rows stay, the table stays well formed.
    - [Extractor], [ExtractorFacts]: the reading of a model's answer: what is
      accepted is the start of a text without a secret or an instruction, the
      whole of it when it is short, and an answer that was cut off keeps its
      whole operations.
    - [Extraction], [ExtractionFacts]: windows, parts and runs.  Windows tile a
      stretch of chat; a part's memories are written with the progress of its job
      or not at all, whatever other transactions commit while the model thinks.

    ** Connected browsers

    - [Browsers]: extension_tokens.py, and the callers that decide with it (the
      exchange of a code and the disconnection of extension_connect.py, the scope
      of an access token in deps.py).  Tokens are derived and hashed as the code
      does, so a presented text is looked up by its SHA-256.  One pass of a
      refresh has its clock readings and what other requests commit after its
      first query as arguments ([Pass]); its reads after that are at one moment.
    - [BrowsersFacts]: refreshing.  The tokens of a session never fork, a retry
      gets the same pair, and a spent token that comes back ends the session.
      [BrowsersTrace]: an ended session's tokens never work again, the purge, and
      codes that give only the person they were issued to, and work once unless an
      answer of redis is lost.  Where other sessions could share a hash, that they
      do not is a hypothesis.

    ** Administration

    - [Rbac], [RbacFacts]: rbac.py: the catalogue of roles, the menus each opens
      or writes, the actions of Agents & Knowledge.  What Python's [strip] and
      [lower] do to slugs is the class [RbacFacts.PySlugs].
    - [Roles], [RolesFacts]: user_role_service.py, user_lifecycle_service.py and
      the handlers of api/admin.py that change roles and accounts.  Whatever the
      sequence of calls, an active Super Admin is left, once no row names the
      retired administrator role; requests run one after
      another, and the order in which the database lists slugs is a parameter.

    ** Who may read what

    - [Access], [AccessFacts]: resource_access_service.py: the subject of a
      request, the grants and denials on agents, knowledge bases and documents,
      the decision on one resource and on lists of them, and the replacement of
      a resource's grants.  A subject is resolved on the accounts of [Roles].
      What Python does to a name is the class [AccessFacts.PyNames].
    - [Retrieval]: knowledge_retrieval_service.py with the reranker of
      knowledge_rerank_service.py and what knowledge_index_service.py writes on
      a point.  What the vector store finds, embeddings and decryption are
      parameters.  Scores are exact rationals.
    - [RetrievalFacts]: whatever the store answers, the evidence returned is of
      documents the subject may read now, and its size is bounded whatever a
      policy asks for.  [IndexFacts]: the filter is data ([Condition]), and a
      store that keeps [QdrantLaws] passes the points of exactly the documents
      the database lets the subject read: the index refines the access rules.

    ** Free times of a mailbox

    - [FreeTime], [FreeTimeFacts]: exchange_free_time.py: the times offered are
      the grid's free ones, in order, up to the limit; and a search whose window
      meets a repeated hour of the time zone can run for ever.

    ** Admission to the code interpreter

    - [Capacity], [CapacityFacts]: code_interpreter_capacity_service.py: its Lua
      scripts, every call with Redis failing, the administrator's policy.

    ** Loops, fuel and bounds

    Loops over lists are structural.  Loops that page through a table take a
    fuel argument and are proved to end within it: the monthly reset needs one
    round more than the users over the batch size ([ResetFacts]), the chain's
    verification one more than its events ([AuditFacts]), the reading of older
    messages one more than its limit ([HistoryFacts]).  A summary's run takes
    at most eight steps as the code does, and [SummariesProgress] bounds the
    runs.  The parser's fuel is the length of the text ([JsonParse]).  A
    search for free times ends after as many rounds as its step fits in the
    window, away from a repeated hour ([FreeTimeFacts]).  A part of a chat is
    read at most five times, since each reading halves its size
    ([ExtractionFacts.read_fuel_enough]); an answer's objects each consume a
    brace, so its length is fuel enough ([ExtractorFacts]).  The purge of ended
    sessions needs one batch more than they fill ([BrowsersTrace]).  Python's
    integers are unbounded, and so are the model's.

    ** What is not modelled

    - Isolation below a transaction: a transaction is one step unless the code
      leaves a window it is written for (a savepoint that may lose, a row loaded
      earlier, a pause around a model call), which is then an argument.
    - Floats: a counter's rounding error between two [round(x, 8)] is not
      represented, and the ratios by which context fitting scales an estimate
      are exact; so are the scores by which evidence is ranked.
    - HTTP routers, provider adapters, parsers of documents, the vector store,
      object storage, mail and Exchange, identity providers: input and output
      around libraries.
    - Models: the handlers of jobs are parameters of the worker, a model's answer
      is a parameter of a summary's run and of a part of a chat, and so are what
      the embedding model and the vector store say of a memory.
    - The retrieval and injection of memories, and a project's memories.
    - The other effects of the end of a turn (memories used, the run of an agent,
      notices); access to projects, guardrails, agents, rate limits, and what the
      browser extension may do besides connecting.

    ** Defects that modelling showed

    [BudgetsFacts.batch_budget_zero_group_plan] (the batch resolution passes over
    a group's plan without money), [KnowledgeFacts.manual_retry_strands_job] (a job
    retried by hand is not dispatched again),
    [RowFacts.delivery_lost_between_readings] (a lease that ends between two
    readings of the clock leaves a row without a delivery),
    [SummariesTrace.tie_goes_unnoticed] (a purge at the instant a summary was last
    written is not noticed), [MemoryFacts.fail_job_correct] and
    [MemoryFacts.recover_stale_jobs_correct] (a unique index refuses a job sent
    back; the sweep never counts attempts), [Fences.source_closes_fence] (a
    source's name is not neutralised), [CapacityFacts.late_heartbeat_exceeds_cap]
    (a late heartbeat takes a place back without counting),
    [FreeTimeFacts.free_slots_never_ends] (the search for a free time does not
    end in a repeated hour), [MemoriesTrace.supersede_by_known_text_loses_it] (a
    memory superseded by a text the person has, switched off, leaves neither),
    [ExtractorFacts.secret_through_the_cut] (a text is searched for secrets before
    it is cut, and its start may be one),
    [ExtractionFacts.follow_up_skips_rest] (the rest of a stretch longer than a
    run is lost when a message arrived meanwhile),
    [BrowsersTrace.lost_answer_allows_second_use] (a connect code is stored twice
    when redis's answer is lost, and works twice),
    [RolesFacts.legacy_admins_not_upgraded] (the start-up does not upgrade holders
    of a retired administrator role, whom the last-administrator guard counts),
    [RbacFacts.auditor_may_write] (a read-only role passes the write gate of its
    menu), [LoggingFacts.lost_answer_fails_rest] (after a commit whose answer is
    lost a turn with a hold is reported as leaked, though it was settled),
    [LoggingFacts.keyless_turn_charged_twice] (a turn without hold and events has
    no key, and a retry charges it again),
    [LoggingFacts.uncharged_call_moves_budget] (a correction charges a person for
    a call that was not to be charged), [PricingFacts.columns_bill_no_search] (a
    model priced by its columns is quoted in full without its searches). *)

From stdpp Require Export base numbers list strings gmap sorting option pretty.
From Stdlib Require Export ZArith Lia.

#[global] Open Scope Z_scope.
#[export] Set Default Goal Selector "!".

(** ** Errors and effects

    A handler is a function of the state it may read and write.  It ends
    normally with a value or raises; in both cases the state it leaves is the
    session's state at that point, which the caller commits or rolls back. *)

Inductive exn :=
  | HTTPException (status_code : Z) (detail : string)
  | ValueError (message : string)
  | LookupError (message : string)
  | OtherError (message : string).

Inductive res (A : Type) :=
  | Ok (a : A)
  | Raise (e : exn).
Arguments Ok {A} a.
Arguments Raise {A} e.

#[export] Instance exn_eq_dec : EqDecision exn.
Proof. solve_decision. Defined.

#[export] Instance res_eq_dec {A} `{EqDecision A} : EqDecision (res A).
Proof. solve_decision. Defined.

Lemma Ok_inj {A} (a b : A) : Ok a = Ok b -> a = b.
Proof. by intros [= ->]. Qed.

Definition op (S A : Type) : Type := S -> res A * S.

#[export] Instance op_ret S : MRet (op S) := fun A a s => (Ok a, s).

#[export] Instance op_bind S : MBind (op S) := fun A B k m s =>
  match m s with
  | (Ok a, s') => k a s'
  | (Raise e, s') => (Raise e, s')
  end.

#[export] Instance res_ret : MRet res := fun A a => Ok a.

#[export] Instance res_bind : MBind res := fun A B k r =>
  match r with Ok a => k a | Raise e => Raise e end.

(** A computation that reads and writes nothing, inside a handler. *)
Definition lift {S A} (r : res A) : op S A := fun s => (r, s).

Definition raise {S A} (e : exn) : op S A := fun s => (Raise e, s).
Definition gets {S A} (f : S -> A) : op S A := fun s => (Ok (f s), s).
Definition modify {S} (f : S -> S) : op S unit := fun s => (Ok tt, f s).

(** Run [body] for every element, in order, collecting the results. *)
Fixpoint for_each {S A B} (body : A -> op S B) (l : list A) : op S (list B) :=
  match l with
  | [] => mret []
  | a :: l => b ← body a; bs ← for_each body l; mret (b :: bs)
  end.

(** [try: ... commit() except Exception: rollback()]: a body that raises
    leaves the state it started from, and the handler runs on it. *)
Definition try_commit {S A} (body : op S A) (handler : exn -> op S A) : op S A :=
  fun s => match body s with (Ok a, s') => (Ok a, s') | (Raise e, _) => handler e s end.

Lemma op_bind_ok {S A B} (m : op S A) (k : A -> op S B) s a s' :
  m s = (Ok a, s') -> (m ≫= k) s = k a s'.
Proof. unfold mbind, op_bind. by intros ->. Qed.

Lemma op_bind_raise {S A B} (m : op S A) (k : A -> op S B) s e s' :
  m s = (Raise e, s') -> (m ≫= k) s = (Raise e, s').
Proof. unfold mbind, op_bind. by intros ->. Qed.

Lemma op_bind_inv {S A B} (m : op S A) (k : A -> op S B) s b s' :
  (m ≫= k) s = (Ok b, s') -> exists a s1, m s = (Ok a, s1) /\ k a s1 = (Ok b, s').
Proof.
  unfold mbind, op_bind. destruct (m s) as [[a|e] s1]; [|discriminate]. eauto.
Qed.

Lemma res_bind_inv {A B} (m : res A) (k : A -> res B) b : (m ≫= k) = Ok b -> exists a, m = Ok a /\ k a = Ok b.
Proof. unfold mbind, res_bind. destruct m as [a|]; [eauto|done]. Qed.

Lemma op_bind_assoc {S A B C} (m : op S A) (f : A -> op S B) (g : B -> op S C) s :
  ((m ≫= f) ≫= g) s = (m ≫= (fun a => f a ≫= g)) s.
Proof. unfold mbind, op_bind. by destruct (m s) as [[]]. Qed.

(** [preserves I m]: whatever [m] ends with, it leaves a state satisfying [I]
    when it starts from one. *)
Definition preserves {S A} (I : S -> Prop) (m : op S A) : Prop :=
  forall s, I s -> I (m s).2.

Create HintDb preserves.

Lemma preserves_ret {S A} (I : S -> Prop) (a : A) : preserves I (mret a).
Proof. by intros s. Qed.

Lemma preserves_raise {S A} (I : S -> Prop) e : preserves I (raise e : op S A).
Proof. by intros s. Qed.

Lemma preserves_gets {S A} (I : S -> Prop) (f : S -> A) : preserves I (gets f).
Proof. by intros s. Qed.

Lemma preserves_bind {S A B} (I : S -> Prop) (m : op S A) (k : A -> op S B) :
  preserves I m -> (forall a, preserves I (k a)) -> preserves I (m ≫= k).
Proof.
  intros Hm Hk s Hs. unfold mbind, op_bind. specialize (Hm s Hs).
  destruct (m s) as [[a|e] s']; simpl in *; [by apply Hk|done].
Qed.

Lemma preserves_modify {S} (I : S -> Prop) f :
  (forall s, I s -> I (f s)) -> preserves I (modify f).
Proof. by intros Hf s ?%Hf. Qed.

Lemma preserves_for_each {S A B} (I : S -> Prop) (body : A -> op S B) l :
  (forall a, preserves I (body a)) -> preserves I (for_each body l).
Proof.
  intros Hb. induction l as [|a l IH]; simpl; [apply preserves_ret|].
  apply preserves_bind; [done|]. intros b.
  apply preserves_bind; [done|]. intros bs. apply preserves_ret.
Qed.

Lemma preserves_try {S A} (I : S -> Prop) (body : op S A) handler :
  preserves I body -> (forall e, preserves I (handler e)) -> preserves I (try_commit body handler).
Proof.
  intros Hb Hh s Hs. unfold try_commit. specialize (Hb s Hs). destruct (body s) as [[a|e] s'].
  - exact Hb.
  - by apply Hh.
Qed.

#[export] Hint Resolve preserves_try preserves_ret preserves_raise preserves_gets preserves_bind
  preserves_modify preserves_for_each : preserves.

(** ** Time: datetimes and clocks are counts of microseconds *)

Definition seconds (n : Z) : Z := n * 1000000.
Definition minutes (n : Z) : Z := seconds (60 * n).
Definition days (n : Z) : Z := seconds (86400 * n).

(** ** Reachability *)

Definition reachable {S} (init : S -> Prop) (step : S -> S -> Prop) (s : S) : Prop :=
  exists s0, init s0 /\ rtc step s0 s.

Lemma rtc_invariant {S} (step : S -> S -> Prop) (I : S -> Prop) s s' :
  (forall x y, I x -> step x y -> I y) -> rtc step s s' -> I s -> I s'.
Proof. intros Hstep. induction 1; eauto. Qed.

Lemma reachable_invariant {S} (init : S -> Prop) (step : S -> S -> Prop) (I : S -> Prop) :
  (forall s, init s -> I s) ->
  (forall x y, I x -> step x y -> I y) ->
  forall s, reachable init step s -> I s.
Proof. intros H0 Hstep s (s0 & Hi & Hr). eapply rtc_invariant; eauto. Qed.

(** ** Tables *)

(** [UPDATE ... WHERE id = i]: changes the row when there is one. *)
Lemma alter_lookup {K V} `{Countable K} (f : V -> V) (m : gmap K V) i :
  alter f i m = match m !! i with Some x => <[i := f x]> m | None => m end.
Proof.
  destruct (m !! i) as [x|] eqn:Hi; apply map_eq; intros j; rewrite lookup_alter, ?lookup_insert;
    case_decide; subst; by rewrite ?Hi.
Qed.

(** A Python dict built by assigning in order: the last write of a key stays. *)
Definition dict_of {K V} `{Countable K} (rows : list (K * V)) : gmap K V :=
  foldl (fun m kv => <[kv.1 := kv.2]> m) ∅ rows.

Section dict_of.
Context {K V : Type} `{Countable K}.
Implicit Types (rows : list (K * V)) (m : gmap K V).

Lemma foldl_assign_Some rows m k v :
  foldl (fun m kv => <[kv.1 := kv.2]> m) m rows !! k = Some v -> (k, v) ∈ rows \/ m !! k = Some v.
Proof.
  revert m. induction rows as [|[k0 v0] rows IH]; intros m Hk; simpl in Hk; [by right|].
  apply IH in Hk as [Hk|Hk]; [left; by apply list_elem_of_further|].
  destruct (decide (k = k0)) as [->|Hne].
  - rewrite lookup_insert_eq in Hk. injection Hk as ->. left. apply list_elem_of_here.
  - rewrite lookup_insert_ne in Hk by done. by right.
Qed.

Lemma foldl_assign_is_Some rows m k :
  k ∈ rows.*1 \/ is_Some (m !! k) -> is_Some (foldl (fun m kv => <[kv.1 := kv.2]> m) m rows !! k).
Proof.
  revert m. induction rows as [|[k0 v0] rows IH]; intros m Hk; simpl in *.
  - destruct Hk as [Hk|Hk]; [by apply elem_of_nil in Hk|done].
  - apply IH. destruct Hk as [Hk|Hk].
    + apply elem_of_cons in Hk as [->|Hk]; [right; rewrite lookup_insert_eq; by eexists|by left].
    + right. rewrite lookup_insert. case_decide; [by eexists|done].
Qed.

Lemma dict_of_Some rows k v : dict_of rows !! k = Some v -> (k, v) ∈ rows.
Proof. intros [Hk|Hk]%foldl_assign_Some; [done|by rewrite lookup_empty in Hk]. Qed.

Lemma dict_of_is_Some rows k v : (k, v) ∈ rows -> is_Some (dict_of rows !! k).
Proof. intros Hk. apply foldl_assign_is_Some. left. by apply (list_elem_of_fmap_2 fst) in Hk. Qed.
End dict_of.

(** Sorting by an integer key: [ORDER BY key] and [sorted(_, key=key)] (stable). *)
Definition key_le {A} (key : A -> Z) (a b : A) : Prop := key a <= key b.

#[export] Instance key_le_dec {A} (key : A -> Z) : RelDecision (key_le key).
Proof. intros a b. unfold key_le. apply _. Defined.

#[export] Instance key_le_trans {A} (key : A -> Z) : Transitive (key_le key).
Proof. intros a b c. unfold key_le. lia. Qed.

#[export] Instance key_le_total {A} (key : A -> Z) : Total (key_le key).
Proof. intros a b. unfold key_le. lia. Qed.

Definition sort_by {A} (key : A -> Z) (l : list A) : list A := merge_sort (key_le key) l.

Lemma sort_by_perm {A} (key : A -> Z) l : sort_by key l ≡ₚ l.
Proof. apply merge_sort_Permutation. Qed.

Lemma sort_by_sorted {A} (key : A -> Z) l : Sorted (key_le key) (sort_by key l).
Proof. apply Sorted_merge_sort, _. Qed.

Lemma StronglySorted_filter {A} (R : A -> A -> Prop) (P : A -> Prop) `{!forall x, Decision (P x)} l :
  StronglySorted R l -> StronglySorted R (filter P l).
Proof.
  induction 1 as [|a l Hl IH Ha]; [constructor|]. rewrite filter_cons. case_decide; [|done].
  constructor; [done|]. rewrite Forall_forall in *. intros x [_ Hx]%list_elem_of_filter. by apply Ha.
Qed.

Lemma filter_whole {A} (P : A -> Prop) `{!forall x, Decision (P x)} l : Forall P l -> filter P l = l.
Proof. induction 1 as [|x l Hx _ IH]; [done|]. by rewrite filter_cons_True, IH. Qed.

Lemma filter_none {A} (P : A -> Prop) `{!forall x, Decision (P x)} l : Forall (fun x => ~ P x) l -> filter P l = [].
Proof. induction 1 as [|x l Hx _ IH]; [done|]. by rewrite filter_cons_False. Qed.

Lemma sort_by_unique {A} (key : A -> Z) l l' :
  NoDup (key <$> l) -> l' ≡ₚ l -> StronglySorted (key_le key) l' -> sort_by key l = l'.
Proof.
  intros Hnd Hp Hs. apply (StronglySorted_unique_strong (key_le key)).
  - intros x y Hx Hy Hxy Hyx. rewrite sort_by_perm in Hx. rewrite Hp in Hy.
    apply list_elem_of_lookup in Hx as [i Hi], Hy as [j Hj].
    assert (i = j) as ->; [|congruence].
    apply (NoDup_lookup (key <$> l) i j (key x)); [done|by rewrite list_lookup_fmap, Hi|].
    rewrite list_lookup_fmap, Hj. simpl. f_equal. unfold key_le in *. lia.
  - apply (StronglySorted_merge_sort (key_le key)).
  - done.
  - by rewrite Hp, sort_by_perm.
Qed.

Lemma sort_by_filter {A} (key : A -> Z) (P : A -> Prop) `{!forall x, Decision (P x)} l :
  NoDup (key <$> l) -> sort_by key (filter P l) = filter P (sort_by key l).
Proof.
  intros Hnd. apply sort_by_unique.
  - eapply sublist_NoDup; [exact Hnd|]. apply fmap_sublist, sublist_filter.
  - by rewrite sort_by_perm.
  - apply StronglySorted_filter, (StronglySorted_merge_sort (key_le key)).
Qed.

(** ** Tactics *)

(** Split every [match], [if] and boolean test left in the goal or a hypothesis. *)
Ltac case_all := repeat (case_match; simplify_eq/=; try done).

(** Open a hypothesis [(m ≫= k) s = (Ok b, s')] into its two halves. *)
Ltac bind_inv H :=
  let a := fresh "a" in let s := fresh "s" in let H1 := fresh "Hop" in
  apply op_bind_inv in H as (a & s & H1 & H).
