(* ===== verification/Money.v ===== *)
(** * Money: dollar amounts, rounding to eight decimals, and sums of rows

    The code keeps money in floats read from [Numeric(20, 12)] columns and
    writes every counter through [round(x, 8)].  An amount is modelled as an
    exact rational and [round(_, 8)] as rounding to the nearest multiple of
    1e-8, ties to even.  Equality of amounts is [==]; the operations below are
    proper for it. *)

From S2P Require Import Prelude.
From Stdlib Require Import QArith Qround Qminmax Qabs Lqa.

#[global] Open Scope Z_scope.

(** ** Rounding *)

Definition round_half_even (q : Q) : Z :=
  let f := Qfloor q in
  match Qcompare (q - inject_Z f)%Q (1 # 2) with
  | Lt => f
  | Gt => f + 1
  | Eq => if Z.even f then f else f + 1
  end.

(** [round_dec k q]: Python's [round(q, k)] where [scale = 10 ^ k]. *)
Definition round_dec (scale : positive) (q : Q) : Q :=
  round_half_even (q * inject_Z (Z.pos scale))%Q # scale.

Definition cents8 : positive := 100000000.
Definition round8 (q : Q) : Q := round_dec cents8 q.

(** An amount with at most eight decimals. *)
Definition is8 (q : Q) : Prop := exists n, (q == n # cents8)%Q.

(** Half of the smallest unit: the most a rounding moves an amount. *)
Definition half_unit : Q := 1 # 200000000.

#[export] Instance round_half_even_proper : Proper (Qeq ==> eq) round_half_even.
Proof.
  intros p q Hpq. unfold round_half_even. rewrite (Qfloor_comp _ _ Hpq).
  assert (Hc : (p - inject_Z (Qfloor q) == q - inject_Z (Qfloor q))%Q) by (by rewrite Hpq).
  by rewrite (Qcompare_comp _ _ Hc _ _ (Qeq_refl _)).
Qed.

#[export] Instance round8_proper : Proper (Qeq ==> eq) round8.
Proof. intros p q Hpq. unfold round8, round_dec. by rewrite Hpq. Qed.

#[export] Instance round8_proper_Qeq : Proper (Qeq ==> Qeq) round8.
Proof. intros p q Hpq. by rewrite (round8_proper p q Hpq). Qed.

Lemma round_half_even_bounds q :
  (inject_Z (round_half_even q) - (1 # 2) <= q <= inject_Z (round_half_even q) + (1 # 2))%Q.
Proof.
  unfold round_half_even. pose proof (Qfloor_le q) as Hlo. pose proof (Qlt_floor q) as Hhi.
  rewrite inject_Z_plus in Hhi. change (inject_Z 1) with (1 # 1)%Q in Hhi.
  destruct (Qcompare_spec (q - inject_Z (Qfloor q)) (1 # 2)); [case_match| |];
    rewrite ?inject_Z_plus; change (inject_Z 1) with (1 # 1)%Q; split; lra.
Qed.

Lemma round_half_even_int z : round_half_even (inject_Z z) = z.
Proof.
  unfold round_half_even. rewrite Qfloor_Z.
  destruct (Qcompare_spec (inject_Z z - inject_Z z) (1 # 2)); [case_match| |]; try done; exfalso; lra.
Qed.

Lemma round8_err q : (round8 q - half_unit <= q <= round8 q + half_unit)%Q.
Proof.
  unfold round8, round_dec, half_unit.
  pose proof (round_half_even_bounds (q * inject_Z (Z.pos cents8))) as [Hlo Hhi].
  set (n := round_half_even _) in *.
  assert (Hr : (n # cents8 == inject_Z n * (1 # 100000000))%Q) by (unfold Qeq, cents8; simpl; lia).
  change (inject_Z (Z.pos cents8)) with 100000000%Q in *.
  rewrite Hr. split; lra.
Qed.

Lemma is8_round8 q : is8 (round8 q).
Proof. by eexists. Qed.

Lemma round8_id q : is8 q -> (round8 q == q)%Q.
Proof.
  intros [n Hn]. rewrite Hn. unfold round8, round_dec.
  assert (Hi : ((n # cents8) * inject_Z (Z.pos cents8) == inject_Z n)%Q).
  { unfold Qeq, cents8; simpl. lia. }
  by rewrite Hi, round_half_even_int.
Qed.

Lemma is8_grid q r : is8 q -> is8 r -> (q - r < 1 # cents8 -> q <= r)%Q.
Proof.
  intros [n Hn] [m Hm]. rewrite Hn, Hm.
  unfold Qlt, Qle, cents8; simpl. lia.
Qed.

(** Rounding never crosses an eight-decimal amount. *)
Lemma round8_ge q r : is8 r -> (r <= q -> r <= round8 q)%Q.
Proof.
  intros Hr Hle. apply is8_grid; [done|apply is8_round8|].
  pose proof (round8_err q). unfold half_unit in *.
  change (1 # cents8)%Q with (1 # 100000000)%Q.
  destruct (Qlt_le_dec (r - round8 q) (1 # 100000000)); [done|exfalso; lra].
Qed.

Lemma round8_le q r : is8 r -> (q <= r -> round8 q <= r)%Q.
Proof.
  intros Hr Hle. apply is8_grid; [apply is8_round8|done|].
  pose proof (round8_err q). unfold half_unit in *.
  change (1 # cents8)%Q with (1 # 100000000)%Q.
  destruct (Qlt_le_dec (round8 q - r) (1 # 100000000)); [done|exfalso; lra].
Qed.

Lemma round8_mono p q : (p <= q -> round8 p <= round8 q)%Q.
Proof.
  intros Hpq. destruct (Qlt_le_dec (round8 q) (round8 p)) as [Hlt|]; [|done]. exfalso.
  destruct (Qlt_le_dec (round8 p - round8 q) (1 # cents8)) as [Hs|Hge].
  - pose proof (is8_grid _ _ (is8_round8 p) (is8_round8 q) Hs). lra.
  - pose proof (round8_err p). pose proof (round8_err q). unfold half_unit, cents8 in *.
    assert (Heq : (p == q)%Q) by lra. rewrite Heq in Hlt. lra.
Qed.

Lemma is8_plus q r : is8 q -> is8 r -> is8 (q + r).
Proof. intros [n Hn] [m Hm]. exists (n + m). rewrite Hn, Hm. unfold Qeq, cents8; simpl. lia. Qed.

Lemma is8_opp q : is8 q -> is8 (- q).
Proof. intros [n Hn]. exists (- n). rewrite Hn. unfold Qeq, cents8; simpl. lia. Qed.

Lemma is8_minus q r : is8 q -> is8 r -> is8 (q - r).
Proof. intros Hq Hr. apply is8_plus; [done|]. by apply is8_opp. Qed.

Lemma is8_0 : is8 0.
Proof. by exists 0. Qed.

#[export] Instance is8_proper : Proper (Qeq ==> iff) is8.
Proof. intros p q Hpq. split; intros [n Hn]; exists n; [by rewrite <- Hpq|by rewrite Hpq]. Qed.

Lemma is8_max q r : is8 q -> is8 r -> is8 (Qmax q r).
Proof. intros. destruct (Q.max_spec q r) as [[_ ->]|[_ ->]]; done. Qed.

Create HintDb money.
#[export] Hint Resolve is8_round8 is8_plus is8_minus is8_opp is8_0 is8_max round8_ge round8_le : money.

(** ** Boolean comparisons *)

Definition Qltb (p q : Q) : bool := negb (Qle_bool q p).

Lemma Qltb_lt p q : Qltb p q = true <-> (p < q)%Q.
Proof.
  unfold Qltb. rewrite negb_true_iff. split.
  - intros H. apply Qnot_le_lt. intros ?%Qle_bool_iff. congruence.
  - intros H. apply not_true_iff_false. intros ?%Qle_bool_iff. by apply (Qlt_not_le p q).
Qed.

Lemma Qltb_ge p q : Qltb p q = false <-> (q <= p)%Q.
Proof. unfold Qltb. rewrite negb_false_iff. apply Qle_bool_iff. Qed.

Lemma Qle_bool_false p q : Qle_bool p q = false <-> (q < p)%Q.
Proof. rewrite <- Qltb_lt. unfold Qltb. by rewrite negb_true_iff. Qed.

(** Turn the boolean tests of the code in the context into inequalities. *)
Ltac q_tests := repeat match goal with
  | H : Qle_bool _ _ = true |- _ => apply Qle_bool_iff in H
  | H : Qle_bool _ _ = false |- _ => apply Qle_bool_false in H
  | H : Qltb _ _ = true |- _ => apply Qltb_lt in H
  | H : Qltb _ _ = false |- _ => apply Qltb_ge in H
  end.

(** Case analysis on [Qmin] and [Qmax] terms, for [lra]. *)
Ltac q_minmax := repeat match goal with
  | |- context [Qmin ?a ?b] => destruct (Q.min_spec a b) as [[? ->]|[? ->]]
  | |- context [Qmax ?a ?b] => destruct (Q.max_spec a b) as [[? ->]|[? ->]]
  end.

(** ** Sums over the rows of a table *)

Definition Qsum (l : list Q) : Q := foldr Qplus 0%Q l.

#[export] Instance Qsum_proper_perm : Proper ((≡ₚ) ==> Qeq) Qsum.
Proof.
  induction 1 as [|x l k _ IH|x y l|l1 l2 l3 _ IH1 _ IH2]; simpl; [done|by rewrite IH|ring|].
  by rewrite IH1.
Qed.

Lemma Qsum_app l k : (Qsum (l ++ k) == Qsum l + Qsum k)%Q.
Proof. induction l as [|x l IH]; simpl; [ring|]. rewrite IH. ring. Qed.

Lemma Qsum_nonneg l : Forall (fun x => 0 <= x)%Q l -> (0 <= Qsum l)%Q.
Proof. induction 1; simpl; [done|lra]. Qed.

Lemma is8_Qsum l : Forall is8 l -> is8 (Qsum l).
Proof. induction 1; simpl; auto with money. Qed.

Section table_sums.
Context {K V : Type} `{Countable K}.
Implicit Types (f : V -> Q) (m : gmap K V).

(** [SELECT SUM(f)] over a table. *)
Definition Qsum_map f m : Q := Qsum ((fun kv => f kv.2) <$> map_to_list m).

Lemma Qsum_map_empty f : (Qsum_map f ∅ == 0)%Q.
Proof. unfold Qsum_map. by rewrite map_to_list_empty. Qed.

Lemma Qsum_map_insert_new f m k x :
  m !! k = None -> (Qsum_map f (<[k:=x]> m) == f x + Qsum_map f m)%Q.
Proof. intros Hk. unfold Qsum_map. by rewrite map_to_list_insert. Qed.

Lemma Qsum_map_delete f m k x :
  m !! k = Some x -> (Qsum_map f m == f x + Qsum_map f (delete k m))%Q.
Proof. intros Hk. unfold Qsum_map. by rewrite <- (map_to_list_delete m k x Hk). Qed.

Lemma Qsum_map_update f m k x y :
  m !! k = Some x -> (Qsum_map f (<[k:=y]> m) == Qsum_map f m - f x + f y)%Q.
Proof.
  intros Hk. rewrite <- insert_delete_eq, Qsum_map_insert_new by apply lookup_delete_eq.
  rewrite (Qsum_map_delete f m k x Hk). ring.
Qed.

Lemma Qsum_map_pred f m (P : Q -> Prop) :
  (forall k x, m !! k = Some x -> P (f x)) -> Forall P ((fun kv => f kv.2) <$> map_to_list m).
Proof.
  intros Hf. apply Forall_fmap, Forall_forall. intros [k x] Hin%elem_of_map_to_list. by apply (Hf k).
Qed.

Lemma Qsum_map_nonneg f m :
  (forall k x, m !! k = Some x -> 0 <= f x)%Q -> (0 <= Qsum_map f m)%Q.
Proof. intros Hf. apply Qsum_nonneg. by apply Qsum_map_pred. Qed.

Lemma is8_Qsum_map f m : (forall k x, m !! k = Some x -> is8 (f x)) -> is8 (Qsum_map f m).
Proof. intros Hf. apply is8_Qsum. by apply Qsum_map_pred. Qed.

Lemma Qsum_map_zero f m :
  (forall k x, m !! k = Some x -> f x == 0)%Q -> (Qsum_map f m == 0)%Q.
Proof.
  intros Hf. unfold Qsum_map.
  assert (Hz : Forall (fun x => x == 0)%Q ((fun kv => f kv.2) <$> map_to_list m)) by by apply Qsum_map_pred.
  induction Hz as [|x l Hx _ IH]; simpl; [done|]. by rewrite Hx, IH.
Qed.
End table_sums.
