(* ===== verification/Text.v ===== *)
(** * Python text: code points, UTF-8, decimal and hexadecimal digits, SHA-256

    A Python [str] that is sliced, measured or encoded is a list of code
    points ([text]); strings that are only compared stay Rocq [string]s.
    [utf8] is [str.encode("utf-8")] on Unicode scalar values and
    [sha256_hexdigest] is [hashlib.sha256(...).hexdigest()] (FIPS 180-4). *)

From S2P Require Import Prelude.

Abbreviation text := (list Z).

Definition of_string (s : string) : text :=
  (fun a => Z.of_nat (Ascii.nat_of_ascii a)) <$> String.list_ascii_of_string s.

(** The decimal digits of an integer, as [str(n)] and f-strings print it. *)
Definition of_int (n : Z) : text := of_string (pretty n).

(** ** UTF-8 *)

Definition utf8_char (c : Z) : list Z :=
  if c <? 128 then [c]
  else if c <? 2048 then [192 + c / 64; 128 + c mod 64]
  else if c <? 65536 then [224 + c / 4096; 128 + (c / 64) mod 64; 128 + c mod 64]
  else [240 + c / 262144; 128 + (c / 4096) mod 64; 128 + (c / 64) mod 64; 128 + c mod 64].

Definition utf8 (s : text) : list Z := s ≫= utf8_char.

Lemma utf8_app s t : utf8 (s ++ t) = utf8 s ++ utf8 t.
Proof. apply bind_app. Qed.

Lemma utf8_length_ge s : (length s <= length (utf8 s))%nat.
Proof.
  induction s as [|c s IH]; [done|].
  change (utf8 (c :: s)) with (utf8_char c ++ utf8 s). rewrite length_app; simpl.
  assert (1 <= length (utf8_char c))%nat by (unfold utf8_char; repeat case_match; simpl; lia).
  lia.
Qed.

(** ** SHA-256 *)

Module SHA256.

Definition w32 (x : Z) : Z := Z.land x 4294967295.
Definition add32 (x y : Z) : Z := w32 (x + y).
Definition rotr (n x : Z) : Z := w32 (Z.lor (Z.shiftr x n) (Z.shiftl x (32 - n))).
Definition ch (x y z : Z) : Z := Z.lxor (Z.land x y) (Z.land (Z.lxor x 4294967295) z).
Definition maj (x y z : Z) : Z := Z.lxor (Z.lxor (Z.land x y) (Z.land x z)) (Z.land y z).
Definition bsig0 (x : Z) : Z := Z.lxor (Z.lxor (rotr 2 x) (rotr 13 x)) (rotr 22 x).
Definition bsig1 (x : Z) : Z := Z.lxor (Z.lxor (rotr 6 x) (rotr 11 x)) (rotr 25 x).
Definition ssig0 (x : Z) : Z := Z.lxor (Z.lxor (rotr 7 x) (rotr 18 x)) (Z.shiftr x 3).
Definition ssig1 (x : Z) : Z := Z.lxor (Z.lxor (rotr 17 x) (rotr 19 x)) (Z.shiftr x 10).

Definition K : list Z :=
  [1116352408; 1899447441; 3049323471; 3921009573; 961987163; 1508970993; 2453635748; 2870763221;
   3624381080; 310598401; 607225278; 1426881987; 1925078388; 2162078206; 2614888103; 3248222580;
   3835390401; 4022224774; 264347078; 604807628; 770255983; 1249150122; 1555081692; 1996064986;
   2554220882; 2821834349; 2952996808; 3210313671; 3336571891; 3584528711; 113926993; 338241895;
   666307205; 773529912; 1294757372; 1396182291; 1695183700; 1986661051; 2177026350; 2456956037;
   2730485921; 2820302411; 3259730800; 3345764771; 3516065817; 3600352804; 4094571909; 275423344;
   430227734; 506948616; 659060556; 883997877; 958139571; 1322822218; 1537002063; 1747873779;
   1955562222; 2024104815; 2227730452; 2361852424; 2428436474; 2756734187; 3204031479; 3329325298].

Record state := St { sa : Z; sb : Z; sc : Z; sd : Z; se : Z; sf : Z; sg : Z; sh : Z }.

Definition init : state :=
  St 1779033703 3144134277 1013904242 2773480762 1359893119 2600822924 528734635 1541459225.

Definition round (s : state) (kw : Z * Z) : state :=
  let t1 := add32 (add32 (add32 (sh s) (bsig1 (se s))) (add32 (ch (se s) (sf s) (sg s)) kw.1)) kw.2 in
  let t2 := add32 (bsig0 (sa s)) (maj (sa s) (sb s) (sc s)) in
  St (add32 t1 t2) (sa s) (sb s) (sc s) (add32 (sd s) t1) (se s) (sf s) (sg s).

(** The message schedule, newest word first. *)
Fixpoint schedule (n : nat) (w : list Z) : list Z :=
  match n with
  | O => w
  | S n =>
      schedule n (add32 (add32 (ssig1 (nth 1 w 0)) (nth 6 w 0))
                        (add32 (ssig0 (nth 14 w 0)) (nth 15 w 0)) :: w)
  end.

Fixpoint words (bs : list Z) : list Z :=
  match bs with
  | a :: b :: c :: d :: bs => a * 16777216 + b * 65536 + c * 256 + d :: words bs
  | _ => []
  end.

Definition compress (s : state) (block : list Z) : state :=
  let w := rev (schedule 48 (rev (words block))) in
  let t := fold_left round (combine K w) s in
  St (add32 (sa s) (sa t)) (add32 (sb s) (sb t)) (add32 (sc s) (sc t)) (add32 (sd s) (sd t))
     (add32 (se s) (se t)) (add32 (sf s) (sf t)) (add32 (sg s) (sg t)) (add32 (sh s) (sh t)).

Definition pad (msg : list Z) : list Z :=
  let len := Z.of_nat (length msg) in
  let bits := 8 * len in
  msg ++ [128] ++ replicate (Z.to_nat ((55 - len) mod 64)) 0
      ++ ((fun i => Z.land (Z.shiftr bits i) 255) <$> [56; 48; 40; 32; 24; 16; 8; 0]).

Fixpoint blocks (fuel : nat) (s : state) (bs : list Z) : state :=
  match fuel, bs with
  | S fuel, _ :: _ => blocks fuel (compress s (take 64 bs)) (drop 64 bs)
  | _, _ => s
  end.

Definition digest (msg : list Z) : state :=
  let p := pad msg in blocks (length p) init p.

Definition hex_digit (d : Z) : Z := if d <? 10 then 48 + d else 87 + d.
Definition hex8 (w : Z) : text :=
  (fun i => hex_digit (Z.land (Z.shiftr w i) 15)) <$> [28; 24; 20; 16; 12; 8; 4; 0].

End SHA256.

Definition sha256_hexdigest (msg : list Z) : text :=
  let s := SHA256.digest msg in
  [SHA256.sa s; SHA256.sb s; SHA256.sc s; SHA256.sd s;
   SHA256.se s; SHA256.sf s; SHA256.sg s; SHA256.sh s] ≫= SHA256.hex8.

Lemma sha256_hexdigest_length msg : length (sha256_hexdigest msg) = 64%nat.
Proof. reflexivity. Qed.

Example sha256_empty :
  sha256_hexdigest [] =
  of_string "e3b0c44298fc1c149afbf4c8996fb92427ae41e4649b934ca495991b7852b855".
Proof. vm_compute. reflexivity. Qed.

Example sha256_abc :
  sha256_hexdigest (utf8 (of_string "abc")) =
  of_string "ba7816bf8f01cfea414140de5dae2223b00361a396177a9cb410ff61f20015ad".
Proof. vm_compute. reflexivity. Qed.

#[global] Opaque sha256_hexdigest.

(** ** Decimal digits *)

Lemma of_string_app s t : of_string (s +:+ t) = of_string s ++ of_string t.
Proof.
  induction s as [|c s IH]; [done|].
  change (of_string (String c s +:+ t)) with (Z.of_nat (Ascii.nat_of_ascii c) :: of_string (s +:+ t)). by rewrite IH.
Qed.

Lemma pretty_N_go_digits x s :
  Forall (fun c => 48 <= c <= 57) (of_string s) -> Forall (fun c => 48 <= c <= 57) (of_string (pretty_N_go x s)).
Proof.
  revert s. induction (N.lt_wf_0 x) as [x _ IH]; intros s Hs.
  assert (x = 0%N \/ (0 < x)%N) as [->|Hx] by lia; [by rewrite pretty_N_go_0|].
  rewrite pretty_N_go_step by done. apply IH; [by apply N.div_lt|].
  change (of_string (String ?c ?s)) with (Z.of_nat (Ascii.nat_of_ascii c) :: of_string s).
  apply Forall_cons. split; [|done]. clear. unfold pretty_N_char. repeat case_match; vm_compute; split; discriminate.
Qed.

Lemma pretty_N_go_length k x s :
  (x < 10 ^ N.of_nat k)%N -> (length (of_string (pretty_N_go x s)) <= k + length (of_string s))%nat.
Proof.
  revert x s. induction k as [|k IH]; intros x s Hx.
  - assert (x = 0%N) as -> by (simpl in Hx; lia). by rewrite pretty_N_go_0.
  - assert (x = 0%N \/ (0 < x)%N) as [->|H0] by lia; [rewrite pretty_N_go_0; lia|].
    rewrite pretty_N_go_step by done. etrans; [apply IH|].
    + apply N.Div0.div_lt_upper_bound. replace (N.of_nat (S k)) with (N.succ (N.of_nat k)) in Hx by lia.
      by rewrite N.pow_succ_r' in Hx.
    + change (of_string (String ?c ?s)) with (Z.of_nat (Ascii.nat_of_ascii c) :: of_string s). simpl. lia.
Qed.

Lemma of_int_pos p : of_int (Z.pos p) = of_string (pretty_N_go (N.pos p) "").
Proof. done. Qed.

Lemma of_int_digits n : 0 <= n -> Forall (fun c => 48 <= c <= 57) (of_int n).
Proof.
  intros Hn. destruct n as [|p|p]; [| |lia].
  - constructor; [vm_compute; split; discriminate|constructor].
  - rewrite of_int_pos. apply pretty_N_go_digits. constructor.
Qed.

Lemma of_int_length k n : 0 <= n < 10 ^ Z.of_nat k -> (0 < k)%nat -> (length (of_int n) <= k)%nat.
Proof.
  intros Hn Hk. destruct n as [|p|p]; [simpl; lia| |lia]. rewrite of_int_pos.
  etrans; [apply (pretty_N_go_length k)|simpl; lia].
  apply N2Z.inj_lt. rewrite N2Z.inj_pow, nat_N_Z. simpl. lia.
Qed.

Lemma of_string_inj s t : of_string s = of_string t -> s = t.
Proof.
  revert t. induction s as [|c s IH]; intros [|d t]; try done. unfold of_string; simpl. intros [= Hc Hs].
  f_equal; [|by apply IH]. rewrite <- (Ascii.ascii_nat_embedding c), <- (Ascii.ascii_nat_embedding d).
  f_equal. lia.
Qed.

Lemma of_int_inj m n : of_int m = of_int n -> m = n.
Proof. intros Heq%of_string_inj. by apply (inj pretty). Qed.

(** ** UTF-8 is injective on code points *)

Definition code_points (s : text) : Prop := Forall (fun c => 0 <= c < 1114112) s.

(** Reads one code point back. *)
Definition utf8_next (bs : list Z) : option (Z * list Z) :=
  match bs with
  | [] => None
  | b :: r =>
      if b <? 128 then Some (b, r)
      else if b <? 224 then match r with b1 :: r => Some ((b - 192) * 64 + (b1 - 128), r) | _ => None end
      else if b <? 240 then
        match r with b1 :: b2 :: r => Some ((b - 224) * 4096 + (b1 - 128) * 64 + (b2 - 128), r) | _ => None end
      else match r with
        | b1 :: b2 :: b3 :: r =>
            Some ((b - 240) * 262144 + (b1 - 128) * 4096 + (b2 - 128) * 64 + (b3 - 128), r)
        | _ => None
        end
  end.

Lemma utf8_next_char c r : 0 <= c < 1114112 -> utf8_next (utf8_char c ++ r) = Some (c, r).
Proof.
  intros Hc. unfold utf8_char.
  destruct (Z.ltb_spec c 128); [|destruct (Z.ltb_spec c 2048); [|destruct (Z.ltb_spec c 65536)]]; simpl.
  - by rewrite (proj2 (Z.ltb_lt c 128)).
  - rewrite (proj2 (Z.ltb_ge (192 + c / 64) 128)), (proj2 (Z.ltb_lt (192 + c / 64) 224))
      by (Z.to_euclidean_division_equations; lia). do 2 f_equal. Z.to_euclidean_division_equations; lia.
  - rewrite (proj2 (Z.ltb_ge (224 + c / 4096) 128)), (proj2 (Z.ltb_ge (224 + c / 4096) 224)),
      (proj2 (Z.ltb_lt (224 + c / 4096) 240)) by (Z.to_euclidean_division_equations; lia).
    do 2 f_equal. Z.to_euclidean_division_equations; lia.
  - rewrite (proj2 (Z.ltb_ge (240 + c / 262144) 128)), (proj2 (Z.ltb_ge (240 + c / 262144) 224)),
      (proj2 (Z.ltb_ge (240 + c / 262144) 240)) by (Z.to_euclidean_division_equations; lia).
    do 2 f_equal. Z.to_euclidean_division_equations; lia.
Qed.

Lemma utf8_cons c d s t :
  0 <= c < 1114112 -> 0 <= d < 1114112 -> utf8 (c :: s) = utf8 (d :: t) -> c = d /\ utf8 s = utf8 t.
Proof.
  intros Hc Hd Heq. change (utf8_char c ++ utf8 s = utf8_char d ++ utf8 t) in Heq.
  pose proof (utf8_next_char c (utf8 s) Hc) as H1. rewrite Heq, utf8_next_char in H1 by done. by injection H1.
Qed.

Lemma utf8_inj s t : code_points s -> code_points t -> utf8 s = utf8 t -> s = t.
Proof.
  intros Hs. revert t. induction Hs as [|c s Hc Hs IH]; intros t Ht Heq.
  - destruct Ht as [|d t Hd Ht]; [done|]. pose proof (utf8_length_ge (d :: t)) as Hl. rewrite <- Heq in Hl. simpl in Hl. lia.
  - destruct Ht as [|d t Hd Ht].
    + pose proof (utf8_length_ge (c :: s)) as Hl. rewrite Heq in Hl. simpl in Hl. lia.
    + apply utf8_cons in Heq as [-> Heq]; [|done..]. f_equal. by apply IH.
Qed.
