(* ===== verification/Json.v ===== *)
(** * JSON values and [json.dumps]

    The values the backend stores in JSON columns, and the text
    [json.dumps(value, ensure_ascii=False, sort_keys=True,
    separators=(",", ":"))] prints for them.  A Python float is represented by
    its [repr], which is what [json.dumps] prints. *)

From S2P Require Import Prelude Text.
From Stdlib Require Import ZifyBool.

Inductive json :=
  | JNull
  | JBool (b : bool)
  | JInt (n : Z)
  | JFloat (repr : text)
  | JStr (s : text)
  | JList (l : list json)
  | JObj (fields : list (text * json)).

Section json_ind.
Variable P : json -> Prop.
Hypotheses (Hnull : P JNull) (Hbool : forall b, P (JBool b)) (Hint : forall n, P (JInt n))
  (Hfloat : forall r, P (JFloat r)) (Hstr : forall s, P (JStr s))
  (Hlist : forall l, Forall P l -> P (JList l))
  (Hobj : forall fields, Forall (fun kv => P kv.2) fields -> P (JObj fields)).

Fixpoint json_nested_ind (v : json) : P v :=
  match v with
  | JNull => Hnull
  | JBool b => Hbool b
  | JInt n => Hint n
  | JFloat r => Hfloat r
  | JStr s => Hstr s
  | JList l => Hlist l ((fix go l := match l return Forall P l with
      | [] => Forall_nil_2 _
      | x :: l => Forall_cons_2 _ _ _ (json_nested_ind x) (go l)
      end) l)
  | JObj fields => Hobj fields ((fix go l := match l return Forall (fun kv : text * json => P kv.2) l with
      | [] => Forall_nil_2 _
      | kv :: l => Forall_cons_2 _ _ _ (json_nested_ind kv.2) (go l)
      end) fields)
  end.
End json_ind.

(** Equality of values is decidable. *)
Fixpoint json_eqb (v w : json) : bool :=
  match v, w with
  | JNull, JNull => true
  | JBool b, JBool c => Bool.eqb b c
  | JInt n, JInt m => n =? m
  | JFloat s, JFloat t | JStr s, JStr t => bool_decide (s = t)
  | JList l, JList k =>
      (fix go (l k : list json) : bool := match l, k with
       | [], [] => true | x :: l, y :: k => json_eqb x y && go l k | _, _ => false end) l k
  | JObj l, JObj k =>
      (fix go (l k : list (text * json)) : bool := match l, k with
       | [], [] => true
       | x :: l, y :: k => bool_decide (x.1 = y.1) && json_eqb x.2 y.2 && go l k
       | _, _ => false end) l k
  | _, _ => false
  end.

Lemma json_eqb_eq v : forall w, json_eqb v w = true <-> v = w.
Proof.
  induction v as [|b|n|s|s|l IH|l IH] using json_nested_ind; intros [|b'|n'|s'|s'|k|k]; simpl; try done.
  - rewrite Bool.eqb_true_iff. split; congruence.
  - rewrite Z.eqb_eq. split; congruence.
  - rewrite bool_decide_eq_true. split; congruence.
  - rewrite bool_decide_eq_true. split; congruence.
  - revert k. induction IH as [|x l Hx _ IH]; intros [|y k]; try done.
    rewrite andb_true_iff, Hx, IH. split; [intros [-> Hk]|intros Heq]; [by injection Hk as ->|by injection Heq as -> ->].
  - revert k. induction IH as [|x l Hx _ IH]; intros [|y k]; try done.
    rewrite !andb_true_iff, Hx, IH, bool_decide_eq_true. destruct x as [x1 x2], y as [y1 y2]; simpl.
    split; [intros [[-> ->] Hk]; by injection Hk as ->|intros Heq; by injection Heq as -> -> ->].
Qed.

#[export] Instance json_eq_dec : EqDecision json.
Proof.
  intros v w. destruct (json_eqb v w) eqn:E; [left; by apply json_eqb_eq|right].
  intros Heq%json_eqb_eq. congruence.
Defined.

(** ** Strings *)

Definition hex_digit (d : Z) : Z := if d <? 10 then 48 + d else 87 + d.

Definition escape_char (c : Z) : text :=
  if c =? 34 then [92; 34]
  else if c =? 92 then [92; 92]
  else if c =? 10 then [92; 110]
  else if c =? 13 then [92; 114]
  else if c =? 9 then [92; 116]
  else if c =? 12 then [92; 102]
  else if c =? 8 then [92; 98]
  else if c <? 32 then [92; 117; 48; 48; hex_digit (c / 16); hex_digit (c mod 16)]
  else [c].

Definition print_str (s : text) : text := 34 :: (s ≫= escape_char) ++ [34].

(** Reads one character of a string literal back; [None] at the closing quote. *)
Definition unhex (d : Z) : Z := if d <? 58 then d - 48 else d - 87.

Definition next_char (t : text) : option (Z * text) :=
  match t with
  | 92 :: 117 :: _ :: _ :: a :: b :: r => Some (unhex a * 16 + unhex b, r)
  | 92 :: e :: r =>
      Some ((if e =? 110 then 10 else if e =? 114 then 13 else if e =? 116 then 9
             else if e =? 102 then 12 else if e =? 98 then 8 else e), r)
  | 34 :: _ => None
  | c :: r => Some (c, r)
  | [] => None
  end.

Lemma unhex_hex d : 0 <= d < 16 -> unhex (hex_digit d) = d.
Proof. unfold unhex, hex_digit. intros Hd. destruct (Z.ltb_spec d 10); case_match; lia. Qed.

Lemma next_char_plain c r : c <> 34 -> c <> 92 -> next_char (c :: r) = Some (c, r).
Proof.
  intros H1 H2. unfold next_char. repeat (case_match; try done).
Qed.

Lemma next_char_escape c r : 0 <= c -> next_char (escape_char c ++ r) = Some (c, r).
Proof.
  intros Hc. unfold escape_char.
  repeat (match goal with |- context [c =? ?n] => destruct (Z.eqb_spec c n); [subst; done|] end).
  destruct (Z.ltb_spec c 32); [|by apply next_char_plain].
  simpl. rewrite !unhex_hex by (Z.to_euclidean_division_equations; lia). do 2 f_equal.
  pose proof (Z.div_mod c 16). lia.
Qed.

Lemma print_str_inj s s' r r' :
  code_points s -> code_points s' -> print_str s ++ r = print_str s' ++ r' -> s = s' /\ r = r'.
Proof.
  intros Hs Hs' Heq. unfold print_str in Heq. simpl in Heq. injection Heq as Heq. rewrite <- !app_assoc in Heq.
  revert s' Hs' Heq. induction Hs as [|c s Hc Hs IH]; intros s' Hs' Heq; destruct Hs' as [|c' s' Hc' Hs'].
  - simpl in Heq. by injection Heq.
  - exfalso. apply (f_equal next_char) in Heq. cbn [mbind list_bind] in Heq. rewrite <- app_assoc, next_char_escape in Heq by lia. done.
  - exfalso. apply (f_equal next_char) in Heq. cbn [mbind list_bind] in Heq. rewrite <- app_assoc, next_char_escape in Heq by lia. done.
  - apply (f_equal next_char) in Heq. cbn [mbind list_bind] in Heq. rewrite <- !app_assoc, !next_char_escape in Heq by lia.
    injection Heq as -> Heq. by destruct (IH s' Hs' Heq) as [-> ->].
Qed.

(** ** Values *)

Fixpoint sep_by (ts : list text) : text :=
  match ts with
  | [] => []
  | [t] => t
  | t :: ts => t ++ 44 :: sep_by ts
  end.

Fixpoint print (v : json) : text :=
  match v with
  | JNull => of_string "null"
  | JBool b => of_string (if b then "true" else "false")
  | JInt n => of_int n
  | JFloat r => r
  | JStr s => print_str s
  | JList l => 91 :: sep_by (map print l) ++ [93]
  | JObj fields => 123 :: sep_by (map (fun kv => print_str kv.1 ++ 58 :: print kv.2) fields) ++ [125]
  end.

(** ** Reading a printed value back *)

(** What follows a value: nothing, a comma or a closing bracket. *)
Definition delim (c : Z) : bool := (c =? 44) || (c =? 93) || (c =? 125).
Definition ends (r : text) : Prop := match r with [] => True | c :: _ => delim c = true end.

(** A bare token: null, a boolean or a number. *)
Definition token (t : text) : Prop :=
  Forall (fun c => delim c = false) t /\ match t with [] => False | c :: _ => c <> 34 /\ c <> 91 /\ c <> 123 end.

Definition digit (c : Z) : bool := (48 <=? c) && (c <=? 57).

(** [repr] of a float: a token that is no integer and no keyword. *)
Definition float_repr (t : text) : Prop :=
  token t /\ Exists (fun c => digit c = false /\ c <> 45) t /\
  t <> of_string "null" /\ t <> of_string "true" /\ t <> of_string "false" /\ code_points t.

Fixpoint printable (v : json) : Prop :=
  match v with
  | JFloat r => float_repr r
  | JStr s => code_points s
  | JList l => foldr (fun v P => printable v /\ P) True l
  | JObj fields => foldr (fun kv P => (code_points kv.1 /\ printable kv.2) /\ P) True fields
  | _ => True
  end.

Lemma printable_list l : printable (JList l) <-> Forall printable l.
Proof.
  simpl. induction l as [|v l IH]; simpl; [by split|]. rewrite Forall_cons, <- IH. done.
Qed.

Lemma printable_obj fields : printable (JObj fields) <-> Forall (fun kv => code_points kv.1 /\ printable kv.2) fields.
Proof.
  simpl. induction fields as [|v l IH]; simpl; [by split|]. rewrite Forall_cons, <- IH. done.
Qed.

Lemma token_split t t' r r' :
  token t -> token t' -> ends r -> ends r' -> t ++ r = t' ++ r' -> t = t' /\ r = r'.
Proof.
  intros [Ht _] [Ht' _]. revert t' Ht'. induction Ht as [|c t Hc Ht IH]; intros t' Ht' Hr Hr' Heq;
    destruct Ht' as [|c' t' Hc' Ht']; simpl in Heq.
  - done.
  - subst r. simpl in Hr. congruence.
  - subst r'. simpl in Hr'. congruence.
  - injection Heq as -> Heq. by destruct (IH t' Ht' Hr Hr' Heq) as [-> ->].
Qed.

Lemma of_int_chars n : Forall (fun c => digit c = true \/ c = 45) (of_int n).
Proof.
  assert (Hd : forall m, 0 <= m -> Forall (fun c => digit c = true \/ c = 45) (of_int m)).
  { intros m Hm. eapply Forall_impl; [by apply of_int_digits|]. intros c Hc. simpl in Hc. left. unfold digit. lia. }
  destruct n as [|p|p]; [by apply Hd..|].
  change (of_int (Z.neg p)) with (45 :: of_int (Z.pos p)). apply Forall_cons. split; [by right|by apply Hd].
Qed.

Lemma of_int_nonempty n : of_int n <> [].
Proof.
  destruct n as [|p|p]; [done| |done]. rewrite of_int_pos.
  rewrite pretty_N_go_step by lia. generalize (N.pos p `div` 10)%N. intros m.
  assert (Hl : forall x s, (length (of_string s) <= length (of_string (pretty_N_go x s)))%nat).
  { intros x. induction (N.lt_wf_0 x) as [x _ IH]. intros s. assert (x = 0%N \/ (0 < x)%N) as [->|Hx] by lia; [by rewrite pretty_N_go_0|].
    rewrite pretty_N_go_step by done. etrans; [|apply IH; by apply N.div_lt].
    change (of_string (String ?c ?s)) with (Z.of_nat (Ascii.nat_of_ascii c) :: of_string s). simpl. lia. }
  intros Heq. specialize (Hl m (String (pretty_N_char (N.pos p `mod` 10)) "")). rewrite Heq in Hl.
  change (of_string (String ?c ?s)) with (Z.of_nat (Ascii.nat_of_ascii c) :: of_string s) in Hl. simpl in Hl. lia.
Qed.

Lemma of_int_token n : token (of_int n).
Proof.
  pose proof (of_int_chars n) as Hc. split.
  - eapply Forall_impl; [exact Hc|]. unfold delim, digit. intros c [Hd| ->]; [|done]. lia.
  - destruct (of_int n) as [|c t] eqn:Heq; [by destruct (of_int_nonempty n)|].
    apply Forall_cons in Hc as [Hc _]. unfold digit in Hc. lia.
Qed.

(** Values printed as one token. *)
Definition scalar (v : json) : Prop :=
  match v with JNull | JBool _ | JInt _ | JFloat _ => True | _ => False end.

Lemma scalar_token v : printable v -> scalar v -> token (print v).
Proof.
  destruct v as [|[]| | | | |]; try done; intros Hp _.
  - split; [cbn; repeat (apply Forall_cons; split; [reflexivity|]); apply Forall_nil_2|vm_compute; repeat split; discriminate].
  - split; [cbn; repeat (apply Forall_cons; split; [reflexivity|]); apply Forall_nil_2|vm_compute; repeat split; discriminate].
  - split; [cbn; repeat (apply Forall_cons; split; [reflexivity|]); apply Forall_nil_2|vm_compute; repeat split; discriminate].
  - apply of_int_token.
  - apply Hp.
Qed.

Lemma scalar_inj v v' : printable v -> printable v' -> scalar v -> scalar v' -> print v = print v' -> v = v'.
Proof.
  assert (Hkey : forall n t, Exists (fun c => digit c = false /\ c <> 45) t -> of_int n <> t).
  { intros n t Hex Heq. apply Exists_exists in Hex as (c & Hin & Hd & Hn). pose proof (of_int_chars n) as Hc.
    rewrite Heq in Hc. rewrite Forall_forall in Hc. destruct (Hc c Hin); congruence. }
  assert (Hw : forall n (b : bool), of_int n <> of_string (if b then "true" else "false") /\ of_int n <> of_string "null").
  { intros n b. split; apply Hkey; [destruct b|]; vm_compute; constructor 1; split; discriminate || reflexivity. }
  destruct v as [|b|n|r| | |], v' as [|b'|n'|r'| | |]; simpl; try done; intros Hp Hp' _ _ Heq.
  - by destruct b'.
  - by destruct (Hw n' true) as [_ []].
  - destruct Hp' as (_ & _ & Hn & _). by destruct Hn.
  - by destruct b.
  - by destruct b, b'.
  - by destruct (Hw n' b) as [[] _].
  - destruct Hp' as (_ & _ & _ & Ht & Hf & _). by destruct b; [destruct Ht|destruct Hf].
  - by destruct (Hw n true) as [_ []].
  - by destruct (Hw n b') as [[] _].
  - f_equal. by apply of_int_inj.
  - destruct Hp' as (_ & Hex & _). by destruct (Hkey n r').
  - destruct Hp as (_ & _ & Hn & _). by destruct Hn.
  - destruct Hp as (_ & _ & _ & Ht & Hf & _). by destruct b'; [destruct Ht|destruct Hf].
  - destruct Hp as (_ & Hex & _). by destruct (Hkey n' r).
  - by subst.
Qed.

(** The first character of a printed value tells its shape, and is no delimiter. *)
Lemma print_head v : printable v ->
  exists c t, print v = c :: t /\ delim c = false /\
    match v with JStr _ => c = 34 | JList _ => c = 91 | JObj _ => c = 123 | _ => c <> 34 /\ c <> 91 /\ c <> 123 end.
Proof.
  intros Hp. destruct v as [| | | |s|l|fields]; try (eexists _, _; done).
  all: match goal with |- context [print ?v] => pose proof (scalar_token v Hp I) as [Hd Ht]; destruct (print v) as [|c t]; [done|] end.
  all: apply Forall_cons in Hd as [Hd _]; exists c, t; done.
Qed.

(** Items separated by commas up to a closing bracket [c]. *)
Lemma sep_by_inj {A} (item : A -> text) (good : A -> Prop) c (l l' : list A) r r' :
  delim c = true -> c <> 44 -> ends r -> ends r' ->
  Forall (fun a => good a /\ exists d t, item a = d :: t /\ delim d = false) l ->
  Forall (fun a => good a /\ exists d t, item a = d :: t /\ delim d = false) l' ->
  Forall (fun a => forall a' r r', good a' -> ends r -> ends r' -> item a ++ r = item a' ++ r' -> a = a' /\ r = r') l ->
  sep_by (map item l) ++ c :: r = sep_by (map item l') ++ c :: r' -> l = l' /\ r = r'.
Proof.
  intros Hc Hc44 Hr Hr' Hl. revert l'. induction Hl as [|a l [Ha (d & t & Hd & Hdel)] Hl IH]; intros l' Hl' Hinj Heq;
    destruct Hl' as [|a' l' [Ha' (d' & t' & Hd' & Hdel')] Hl'].
  - simpl in Heq. by injection Heq.
  - exfalso. assert (Hhd : exists t0, sep_by (map item (a' :: l')) ++ c :: r' = d' :: t0).
    { destruct l'; simpl; rewrite Hd'; eexists; done. }
    destruct Hhd as [t0 Ht0]. rewrite Ht0 in Heq. simpl in Heq. injection Heq as -> _. congruence.
  - exfalso. assert (Hhd : exists t0, sep_by (map item (a :: l)) ++ c :: r = d :: t0).
    { destruct l; simpl; rewrite Hd; eexists; done. }
    destruct Hhd as [t0 Ht0]. rewrite Ht0 in Heq. simpl in Heq. injection Heq as -> _. congruence.
  - apply Forall_cons in Hinj as [Hinj1 Hinj]. specialize (IH l' Hl' Hinj).
    destruct l as [|b l], l' as [|b' l'].
    + simpl in Heq. apply Hinj1 in Heq as [-> Heq]; [|done..]. by injection Heq.
    + simpl in Heq. rewrite <- app_assoc in Heq. apply Hinj1 in Heq as [-> Heq]; [|done..]. by injection Heq.
    + simpl in Heq. rewrite <- app_assoc in Heq. apply Hinj1 in Heq as [-> Heq]; [|done..]. by injection Heq.
    + cbn [map sep_by] in Heq. rewrite <- !app_assoc in Heq. apply Hinj1 in Heq as [-> Heq]; [|done..].
      injection Heq as Heq. destruct (IH Heq) as [-> ->]. done.
Qed.

Lemma print_inj v : forall v' r r', printable v -> printable v' -> ends r -> ends r' ->
  print v ++ r = print v' ++ r' -> v = v' /\ r = r'.
Proof.
  induction v as [|b|n|fr|s|l IH|fields IH] using json_nested_ind; intros v' r r' Hp Hp' Hr Hr' Heq.
  1-4: assert (Hs : scalar v') by (destruct (print_head v' Hp') as (c & t & Hc & _ & Hsh);
    match type of Heq with print ?v ++ _ = _ => destruct (print_head v Hp) as (d & u & Hd & _ & Hsh') end;
    rewrite Hc, Hd in Heq; injection Heq as -> _; destruct v'; try done; subst; naive_solver).
  1-4: apply token_split in Heq as [Heq ->]; [|by apply scalar_token..|done|done]; by apply scalar_inj in Heq as <-.
  - destruct (print_head v' Hp') as (c & t & Hc & _ & Hsh). assert (c = 34) as ->.
    { rewrite Hc in Heq. by injection Heq. }
    destruct v' as [| | | |s'| |]; try done; try (by destruct Hsh as (? & ? & ?)).
    apply print_str_inj in Heq as [-> ->]; done.
  - destruct (print_head v' Hp') as (c & t & Hc & _ & Hsh). assert (c = 91) as ->.
    { rewrite Hc in Heq. by injection Heq. }
    destruct v' as [| | | | |l'|]; try done; try (by destruct Hsh as (? & ? & ?)).
    cbn [print] in Heq. simpl in Heq. injection Heq as Heq. rewrite <- !app_assoc in Heq. simpl in Heq.
    apply printable_list in Hp, Hp'.
    assert (Hhead : forall l, Forall printable l -> Forall (fun a => printable a /\ exists d t, print a = d :: t /\ delim d = false) l).
    { intros k Hk. eapply Forall_impl; [exact Hk|]. intros a Ha. split; [done|].
      destruct (print_head a Ha) as (d & u & ? & ? & _). eauto. }
    apply (sep_by_inj print printable) in Heq as [-> ->]; try done; [by apply Hhead..|].
    clear Heq Hc. induction IH as [|a k Ha Hk IHk]; constructor; apply Forall_cons in Hp as [Hpa Hpk]; eauto.
  - destruct (print_head v' Hp') as (c & t & Hc & _ & Hsh). assert (c = 123) as ->.
    { rewrite Hc in Heq. by injection Heq. }
    destruct v' as [| | | | | |fields']; try done; try (by destruct Hsh as (? & ? & ?)).
    cbn [print] in Heq. simpl in Heq. injection Heq as Heq. rewrite <- !app_assoc in Heq. simpl in Heq.
    apply printable_obj in Hp, Hp'.
    set (item := fun kv : text * json => print_str kv.1 ++ 58 :: print kv.2) in *.
    assert (Hhead : forall l, Forall (fun kv : text * json => code_points kv.1 /\ printable kv.2) l ->
      Forall (fun kv => (code_points kv.1 /\ printable kv.2) /\ exists d t, item kv = d :: t /\ delim d = false) l).
    { intros k Hk. eapply Forall_impl; [exact Hk|]. intros [s v] Ha. split; [done|]. by eexists 34, _. }
    apply (sep_by_inj item (fun kv => code_points kv.1 /\ printable kv.2)) in Heq as [-> ->]; try done; [by apply Hhead..|].
    clear Heq Hc Hp'. induction IH as [|[s v] k Ha Hk IHk]; constructor; apply Forall_cons in Hp as [[Hps Hpv] Hpk]; [|eauto].
    intros [s' v'] q q' [Hps' Hpv'] Hq Hq' Heq. unfold item in Heq. cbn [fst snd] in *. rewrite <- (app_assoc (print_str s)), <- (app_assoc (print_str s')) in Heq.
    apply print_str_inj in Heq as [-> Heq]; [|done..]. injection Heq as Heq.
    by destruct (Ha v' q q' Hpv Hpv' Hq Hq' Heq) as [-> ->].
Qed.

(** ** Sorted keys *)

(** [s <= t] of Python strings: by code points. *)
Fixpoint text_leb (s t : text) : bool :=
  match s, t with
  | [], _ => true
  | _ :: _, [] => false
  | c :: s, d :: t => (c <? d) || ((c =? d) && text_leb s t)
  end.

Lemma text_leb_refl s : text_leb s s = true.
Proof. induction s as [|c s IH]; [done|]. simpl. rewrite IH. lia. Qed.

Lemma text_leb_total s t : text_leb s t = true \/ text_leb t s = true.
Proof.
  revert t. induction s as [|c s IH]; intros [|d t]; simpl; [by left..|by right|].
  destruct (IH t); destruct (Z.lt_total c d) as [|[|]]; lia.
Qed.

Lemma text_leb_trans s t u : text_leb s t = true -> text_leb t u = true -> text_leb s u = true.
Proof.
  revert t u. induction s as [|c s IH]; intros [|d t] [|e u]; simpl; try done. specialize (IH t u).
  destruct (text_leb s t), (text_leb t u), (text_leb s u); lia.
Qed.

Lemma text_leb_antisym s t : text_leb s t = true -> text_leb t s = true -> s = t.
Proof.
  revert t. induction s as [|c s IH]; intros [|d t]; simpl; try done. intros H1 H2.
  assert (c = d) as -> by lia. f_equal. apply IH; lia.
Qed.

Definition field_le {A} (x y : text * A) : Prop := text_leb x.1 y.1 = true.

#[export] Instance field_le_dec {A} : RelDecision (field_le (A := A)).
Proof. intros x y. unfold field_le. apply _. Defined.

#[export] Instance field_le_total {A} : Total (field_le (A := A)).
Proof. intros x y. apply text_leb_total. Qed.

#[export] Instance field_le_trans {A} : Transitive (field_le (A := A)).
Proof. intros x y z. apply text_leb_trans. Qed.

Definition sort_fields {A} (fields : list (text * A)) : list (text * A) := merge_sort field_le fields.

Lemma sort_fields_perm {A} (fields : list (text * A)) : sort_fields fields ≡ₚ fields.
Proof. apply merge_sort_Permutation. Qed.

(** The order in which a dict's keys were inserted does not matter. *)
Lemma sort_fields_unique {A} (fields fields' : list (text * A)) :
  NoDup fields.*1 -> fields ≡ₚ fields' -> sort_fields fields = sort_fields fields'.
Proof.
  intros Hnd Hp. apply (StronglySorted_unique_strong field_le).
  - intros x y Hx Hy Hxy Hyx. rewrite sort_fields_perm in Hx. rewrite sort_fields_perm, <- Hp in Hy.
    assert (Hk : x.1 = y.1) by by apply text_leb_antisym.
    clear Hp Hxy Hyx. induction fields as [|f fields IH]; [by apply elem_of_nil in Hx|].
    simpl in Hnd. apply NoDup_cons in Hnd as [Hf Hnd]. apply elem_of_cons in Hx as [->|Hx], Hy as [->|Hy]; [done| | |by apply IH].
    + destruct Hf. rewrite Hk. by apply list_elem_of_fmap_2.
    + destruct Hf. rewrite <- Hk. by apply list_elem_of_fmap_2.
  - apply (StronglySorted_merge_sort field_le).
  - apply (StronglySorted_merge_sort field_le).
  - by rewrite !sort_fields_perm.
Qed.

Fixpoint canon (v : json) : json :=
  match v with
  | JList l => JList (map canon l)
  | JObj fields => JObj (sort_fields (map (fun kv => (kv.1, canon kv.2)) fields))
  | _ => v
  end.

Lemma JObj_inj f f' : JObj f = JObj f' -> f = f'.
Proof. by intros [= ->]. Qed.

Lemma canon_obj f : canon (JObj f) = JObj (sort_fields (map (fun kv => (kv.1, canon kv.2)) f)).
Proof. done. Qed.

(** [json.dumps(v, ensure_ascii=False, sort_keys=True, separators=(",", ":"))] *)
Definition dumps (v : json) : text := print (canon v).

Lemma canon_printable v : printable v -> printable (canon v).
Proof.
  induction v as [| | | | |l IH|fields IH] using json_nested_ind; intros Hp; try done.
  - apply printable_list in Hp. apply printable_list. apply Forall_map.
    induction IH as [|v l Hv Hl IHl]; [done|]. apply Forall_cons in Hp as [Hp1 Hp2]. constructor; auto.
  - apply printable_obj in Hp. apply printable_obj. unfold sort_fields. rewrite merge_sort_Permutation. apply Forall_map.
    induction IH as [|v l Hv Hl IHl]; [done|]. apply Forall_cons in Hp as [[Hk Hp1] Hp2]. constructor; auto.
Qed.

Lemma dumps_inj v v' : printable v -> printable v' -> dumps v = dumps v' -> canon v = canon v'.
Proof.
  intros Hv Hv' Heq. apply (print_inj (canon v) (canon v') [] []); [by apply canon_printable..|done|done|].
  by rewrite !app_nil_r.
Qed.

(** What is printed is text again. *)
Lemma code_points_app s t : code_points (s ++ t) <-> code_points s /\ code_points t.
Proof. apply Forall_app. Qed.

Lemma code_points_ascii s : code_points (of_string s).
Proof.
  unfold of_string. apply Forall_map, Forall_forall. intros a _. pose proof (Ascii.nat_ascii_bounded a). simpl. lia.
Qed.

Lemma code_points_int n : code_points (of_int n).
Proof. unfold of_int. apply code_points_ascii. Qed.

Lemma code_points_sep ts : Forall code_points ts -> code_points (sep_by ts).
Proof.
  induction 1 as [|t ts Ht Hts IH]; [constructor|]. destruct ts as [|t' ts]; [exact Ht|].
  change (sep_by (t :: t' :: ts)) with (t ++ 44 :: sep_by (t' :: ts)). apply code_points_app. split; [exact Ht|].
  apply Forall_cons. split; [lia|exact IH].
Qed.

Lemma code_points_str s : code_points s -> code_points (print_str s).
Proof.
  intros Hs. unfold print_str. apply Forall_cons. split; [lia|]. apply code_points_app. split; [|repeat constructor; lia].
  induction Hs as [|c s Hc Hs IH]; [constructor|]. cbn [mbind list_bind]. apply code_points_app. split; [|exact IH].
  unfold escape_char. repeat case_match; repeat constructor; try lia;
    unfold hex_digit; destruct (Z.ltb_spec (c / 16) 10), (Z.ltb_spec (c mod 16) 10); Z.to_euclidean_division_equations; lia.
Qed.

Lemma print_code_points v : printable v -> code_points (print v).
Proof.
  induction v as [|b|n|fr|s|l IH|fields IH] using json_nested_ind; intros Hp; cbn [print].
  - apply code_points_ascii.
  - apply code_points_ascii.
  - apply code_points_int.
  - apply Hp.
  - by apply code_points_str.
  - apply printable_list in Hp. apply Forall_cons. split; [lia|]. apply code_points_app. split; [|repeat constructor; lia].
    apply code_points_sep, Forall_map. induction IH as [|v l Hv Hl IHl]; [constructor|].
    apply Forall_cons in Hp as [Hp1 Hp2]. constructor; [by apply Hv|by apply IHl].
  - apply printable_obj in Hp. apply Forall_cons. split; [lia|]. apply code_points_app. split; [|repeat constructor; lia].
    apply code_points_sep, Forall_map. induction IH as [|[k v] l Hv Hl IHl]; [constructor|].
    apply Forall_cons in Hp as [[Hk Hp1] Hp2]. constructor; [|by apply IHl]. simpl in *. change (code_points (print_str k ++ 58 :: print v)).
    apply code_points_app. split; [by apply code_points_str|]. apply Forall_cons. split; [lia|by apply Hv].
Qed.

Lemma dumps_code_points v : printable v -> code_points (dumps v).
Proof. intros Hv. by apply print_code_points, canon_printable. Qed.

(** Objects that print alike have the same value under each of their keys. *)
Lemma sort_fields_value {A} (f f' : list (text * A)) k v v' :
  NoDup f.*1 -> sort_fields f = sort_fields f' -> (k, v) ∈ f -> (k, v') ∈ f' -> v = v'.
Proof.
  intros Hnd Heq Hv Hv'. assert (Hp : f' ≡ₚ f) by by rewrite <- (sort_fields_perm f), Heq, sort_fields_perm.
  rewrite Hp in Hv'. clear Heq Hp. induction f as [|[k0 v0] f IH]; [by apply elem_of_nil in Hv|].
  simpl in Hnd. apply NoDup_cons in Hnd as [Hk Hnd].
  apply elem_of_cons in Hv as [Hv|Hv], Hv' as [Hv'|Hv']; simplify_eq; [done| | |by apply IH].
  all: destruct Hk; eapply (list_elem_of_fmap_2' fst _ (_, _)); [eassumption|done].
Qed.

Example dumps_example :
  dumps (JObj [(of_string "b", JList [JInt (-3); JNull]); (of_string "a", JStr [34; 10; 233])]) =
  of_string "{" ++ [34] ++ of_string "a" ++ [34; 58; 34; 92; 34; 92; 110; 233; 34; 44; 34; 98; 34; 58] ++
  of_string "[-3,null]}".
Proof. vm_compute. reflexivity. Qed.

(** ** Reading JSON values in Python *)

(** [int(x)] of a string and of a float given by its [repr]; [None] when it raises. *)
Class PyInt := { int_of_str : text -> option Z; int_of_float : text -> option Z }.

(** [bool(value)] *)
Definition truthy (v : json) : bool :=
  match v with
  | JNull | JBool false | JInt 0 | JStr [] | JList [] | JObj [] => false
  | JFloat r => negb (bool_decide (r = of_string "0.0") || bool_decide (r = of_string "-0.0"))
  | _ => true
  end.

(** [fields.get(k)] *)
Fixpoint field {A} (k : text) (fields : list (text * A)) : option A :=
  match fields with
  | [] => None
  | (k', v) :: fields => if decide (k = k') then Some v else field k fields
  end.

(** [fields[k] = v] *)
Fixpoint set_field {A} (k : text) (v : A) (fields : list (text * A)) : list (text * A) :=
  match fields with
  | [] => [(k, v)]
  | (k', v') :: fields => if decide (k = k') then (k, v) :: fields else (k', v') :: set_field k v fields
  end.

Lemma field_set {A} k (v : A) fields : field k (set_field k v fields) = Some v.
Proof.
  induction fields as [|[k' v'] fields IH]; simpl; [by rewrite decide_True|].
  case_decide as Hk; simpl; [by rewrite decide_True|by rewrite decide_False].
Qed.

(** [fields.get(k, True)], as a condition *)
Definition flag (k : string) (fields : list (text * json)) : bool :=
  match field (of_string k) fields with Some v => truthy v | None => true end.

(** [int(value)] *)
Definition int_of `{PyInt} (v : json) : res Z :=
  let parsed (n : option Z) := match n with Some n => Ok n | None => Raise (ValueError "invalid literal for int()") end in
  match v with
  | JBool b => Ok (if b then 1 else 0)
  | JInt n => Ok n
  | JStr s => parsed (int_of_str s)
  | JFloat r => parsed (int_of_float r)
  | JNull | JList _ | JObj _ => Raise (OtherError "int() argument must be a string or a number")
  end.

(** [int(value or default)] *)
Definition int_or `{PyInt} (default : Z) (value : option json) : res Z :=
  match value with
  | None => Ok default
  | Some v => if negb (truthy v) then Ok default else int_of v
  end.

Lemma int_or_int `{PyInt} m : int_or 0 (Some (JInt m)) = Ok m.
Proof. by destruct m. Qed.

(** [repr] of a list or dict; [str] of any JSON value. *)
Class PyRepr := { repr_container : json -> text }.

Definition py_str `{PyRepr} (v : json) : text :=
  match v with
  | JStr s => s
  | JInt n => of_int n
  | JFloat r => r
  | JBool b => of_string (if b then "True" else "False")
  | JNull => of_string "None"
  | JList _ | JObj _ => repr_container v
  end.

(** [str(fields.get(name) or "")] *)
Definition str_field `{PyRepr} (name : string) (fields : list (text * json)) : text :=
  match field (of_string name) fields with Some v => if truthy v then py_str v else [] | None => [] end.

(** The bytes of a string, as table keys are written in this library. *)
Definition key_of (t : text) : string :=
  foldr (fun b s => String (Ascii.ascii_of_nat (Z.to_nat b)) s) ""%string (utf8 t).

(** ** [json.dumps(value)]

    In its default form: ASCII, with [", "] and [": "]. *)
Definition hex_unit (u : Z) : text :=
  [92; 117; hex_digit (u / 4096); hex_digit ((u / 256) mod 16); hex_digit ((u / 16) mod 16); hex_digit (u mod 16)].

Definition escape_ascii (c : Z) : text :=
  if c <? 127 then escape_char c
  else if c <? 65536 then hex_unit c
  else hex_unit (55296 + (c - 65536) / 1024) ++ hex_unit (56320 + (c - 65536) mod 1024).

Fixpoint json_dumps (v : json) : text :=
  let fix sep (ts : list text) : text := match ts with [] => [] | [t] => t | t :: ts => t ++ of_string ", " ++ sep ts end in
  let str (s : text) := 34 :: (s ≫= escape_ascii) ++ [34] in
  match v with
  | JStr s => str s
  | JList l => 91 :: sep (map json_dumps l) ++ [93]
  | JObj fs => 123 :: sep (map (fun kv => str kv.1 ++ of_string ": " ++ json_dumps kv.2) fs) ++ [125]
  | _ => print v
  end.
