(* ===== verification/PyTime.v ===== *)
(** * Naive UTC datetimes

    [datetime.datetime] values are microseconds since 1970-01-01.  The
    calendar part needed by the budget code is the first instant of a month,
    [datetime.datetime(now.year, now.month, 1)]; [isoformat] prints an instant. *)

From S2P Require Import Prelude Text.

Definition us_per_day : Z := 86400000000.

(** Year, month and day of a day count (proleptic Gregorian calendar). *)
Definition civil_from_days (d : Z) : Z * Z * Z :=
  let z := d + 719468 in
  let era := z / 146097 in
  let doe := z mod 146097 in
  let yoe := (doe - doe / 1460 + doe / 36524 - doe / 146096) / 365 in
  let doy := doe - (365 * yoe + yoe / 4 - yoe / 100) in
  let mp := (5 * doy + 2) / 153 in
  let day := doy - (153 * mp + 2) / 5 + 1 in
  let month := if mp <? 10 then mp + 3 else mp - 9 in
  let year := yoe + era * 400 + (if month <=? 2 then 1 else 0) in
  (year, month, day).

Definition day_of_month (t : Z) : Z := (civil_from_days (t / us_per_day)).2.

(** [datetime.datetime(now.year, now.month, 1)] *)
Definition month_start (now : Z) : Z :=
  (now / us_per_day - (day_of_month now - 1)) * us_per_day.

Lemma day_of_month_pos t : 1 <= day_of_month t.
Proof.
  unfold day_of_month, civil_from_days; cbn [snd].
  set (doe := (t / us_per_day + 719468) mod 146097).
  assert (Hdoe : 0 <= doe < 146097) by (apply Z.mod_pos_bound; lia).
  set (yoe := (doe - doe / 1460 + doe / 36524 - doe / 146096) / 365).
  assert (Hy : 365 * yoe + yoe / 4 - yoe / 100 <= doe) by (subst yoe; Z.to_euclidean_division_equations; lia).
  set (doy := doe - (365 * yoe + yoe / 4 - yoe / 100)) in *.
  assert (0 <= doy) by lia. clearbody doy.
  Z.to_euclidean_division_equations; lia.
Qed.

Lemma month_start_le now : month_start now <= now.
Proof.
  pose proof (day_of_month_pos now). unfold month_start, us_per_day in *.
  pose proof (Z.mul_div_le now 86400000000 ltac:(lia)). nia.
Qed.

(** 2026-03-15 12:00:00 and 2026-03-01 00:00:00. *)
Example month_start_mid : month_start 1773576000000000 = 1772323200000000.
Proof. reflexivity. Qed.

(** A leap day. *)
Example month_start_leap : civil_from_days 19782 = (2024, 2, 29).
Proof. reflexivity. Qed.

(** ** [isoformat] *)

(** A number in a fixed number of decimal digits. *)
Fixpoint pad_digits (width : nat) (n : Z) : text :=
  match width with
  | O => []
  | S width => pad_digits width (n / 10) ++ [48 + n mod 10]
  end.

Lemma pad_digits_length width n : length (pad_digits width n) = width.
Proof. revert n. induction width as [|w IH]; intros n; [done|]. simpl. rewrite length_app, IH. simpl. lia. Qed.

Lemma pad_digits_inj width n m :
  0 <= n < 10 ^ Z.of_nat width -> 0 <= m < 10 ^ Z.of_nat width -> pad_digits width n = pad_digits width m -> n = m.
Proof.
  revert n m. induction width as [|w IH]; intros n m Hn Hm; [simpl in *; lia|].
  rewrite Nat2Z.inj_succ, Z.pow_succ_r in Hn, Hm by lia. simpl. intros Heq.
  apply app_inj_2 in Heq as [Heq [= Hd]]; [|done].
  apply IH in Heq; [|split; [apply Z.div_pos; lia|apply Z.div_lt_upper_bound; lia]..].
  pose proof (Z.div_mod n 10). pose proof (Z.div_mod m 10). lia.
Qed.

Lemma civil_bounds d y m day :
  civil_from_days d = (y, m, day) -> 1 <= m <= 12 /\ 1 <= day <= 31.
Proof.
  unfold civil_from_days. intros [= _ <- <-].
  set (doe := (d + 719468) mod 146097). assert (Hdoe : 0 <= doe < 146097) by (apply Z.mod_pos_bound; lia).
  set (yoe := (doe - doe / 1460 + doe / 36524 - doe / 146096) / 365).
  assert (Hlo : 365 * yoe + yoe / 4 - yoe / 100 <= doe) by (subst yoe; Z.to_euclidean_division_equations; lia).
  assert (Hhi : doe - (365 * yoe + yoe / 4 - yoe / 100) <= 365) by (subst yoe; Z.to_euclidean_division_equations; lia).
  set (doy := doe - (365 * yoe + yoe / 4 - yoe / 100)) in *.
  assert (0 <= doy) by lia. clearbody doy. clear -Hhi H.
  assert (Hmp : 0 <= (5 * doy + 2) / 153 <= 11) by (Z.to_euclidean_division_equations; lia).
  split; [destruct (Z.ltb_spec ((5 * doy + 2) / 153) 10); lia|].
  Z.to_euclidean_division_equations; lia.
Qed.

(** The day count of a year, month and day. *)
Definition days_from_civil (c : Z * Z * Z) : Z :=
  let '(y, m, day) := c in
  let y' := if m <=? 2 then y - 1 else y in
  let era := y' / 400 in let yoe := y' mod 400 in
  let mp := if m <=? 2 then m + 9 else m - 3 in
  era * 146097 + (365 * yoe + yoe / 4 - yoe / 100 + ((153 * mp + 2) / 5 + day - 1)) - 719468.

Lemma days_from_civil_from_days d : days_from_civil (civil_from_days d) = d.
Proof.
  unfold civil_from_days, days_from_civil.
  set (era := (d + 719468) / 146097). set (doe := (d + 719468) mod 146097).
  assert (Hd : d + 719468 = era * 146097 + doe) by (unfold era, doe; rewrite Z.mul_comm; apply Z.div_mod; lia).
  assert (Hdoe : 0 <= doe < 146097) by (apply Z.mod_pos_bound; lia). clearbody era doe.
  set (yoe := (doe - doe / 1460 + doe / 36524 - doe / 146096) / 365).
  assert (Hyoe : 0 <= yoe < 400) by (subst yoe; Z.to_euclidean_division_equations; lia).
  assert (Hlo : 365 * yoe + yoe / 4 - yoe / 100 <= doe) by (subst yoe; Z.to_euclidean_division_equations; lia).
  assert (Hhi : doe - (365 * yoe + yoe / 4 - yoe / 100) <= 365) by (subst yoe; Z.to_euclidean_division_equations; lia).
  clearbody yoe. set (doy := doe - (365 * yoe + yoe / 4 - yoe / 100)) in *.
  assert (Hdoy : 0 <= doy <= 365) by lia. set (mp := (5 * doy + 2) / 153).
  assert (Hmp : 0 <= mp <= 11) by (subst mp; Z.to_euclidean_division_equations; lia).
  assert (Hera : forall k, k = yoe + era * 400 -> k / 400 = era /\ k mod 400 = yoe).
  { intros k ->. rewrite Z.div_add, Z.mod_add by lia. rewrite Z.div_small, Z.mod_small by lia. lia. }
  destruct (Z.ltb_spec mp 10) as [Hm|Hm].
  - destruct (Z.leb_spec (mp + 3) 2); [lia|]. destruct (Hera (yoe + era * 400 + 0)) as [-> ->]; [lia|].
    replace (mp + 3 - 3) with mp by lia. lia.
  - destruct (Z.leb_spec (mp - 9) 2); [|lia]. destruct (Hera (yoe + era * 400 + 1 - 1)) as [-> ->]; [lia|].
    replace (mp - 9 + 9) with mp by lia. lia.
Qed.

Lemma civil_inj d d' : civil_from_days d = civil_from_days d' -> d = d'.
Proof. intros Heq. by rewrite <- (days_from_civil_from_days d), <- (days_from_civil_from_days d'), Heq. Qed.

(** Hours, minutes, seconds and microseconds of a day. *)
Lemma time_of_day u :
  u = ((u / 3600000000 * 60 + u / 60000000 mod 60) * 60 + u / 1000000 mod 60) * 1000000 + u mod 1000000.
Proof.
  assert (H1 : u / 60000000 = u / 3600000000 * 60 + u / 60000000 mod 60).
  { replace (u / 3600000000) with (u / 60000000 / 60) by (rewrite Z.div_div by lia; done). pose proof (Z.div_mod (u / 60000000) 60). lia. }
  assert (H2 : u / 1000000 = u / 60000000 * 60 + u / 1000000 mod 60).
  { replace (u / 60000000) with (u / 1000000 / 60) by (rewrite Z.div_div by lia; done). pose proof (Z.div_mod (u / 1000000) 60). lia. }
  rewrite <- H1, <- H2. pose proof (Z.div_mod u 1000000). lia.
Qed.

(** Python datetimes have years 1 to 9999. *)
Definition datetime (t : Z) : Prop := 1 <= (civil_from_days (t / us_per_day)).1.1 <= 9999.

(** [t.isoformat(timespec="microseconds")] *)
Definition isoformat (t : Z) : text :=
  let '(y, m, d) := civil_from_days (t / us_per_day) in
  let us := t mod us_per_day in
  pad_digits 4 y ++ [45] ++ pad_digits 2 m ++ [45] ++ pad_digits 2 d ++ [84] ++
  pad_digits 2 (us / 3600000000) ++ [58] ++ pad_digits 2 (us / 60000000 mod 60) ++ [58] ++
  pad_digits 2 (us / 1000000 mod 60) ++ [46] ++ pad_digits 6 (us mod 1000000).

Lemma isoformat_inj t t' : datetime t -> datetime t' -> isoformat t = isoformat t' -> t = t'.
Proof.
  unfold datetime, isoformat. pose proof (civil_bounds (t / us_per_day)) as Hb. pose proof (civil_bounds (t' / us_per_day)) as Hb'.
  destruct (civil_from_days (t / us_per_day)) as [[y m] d] eqn:Hc, (civil_from_days (t' / us_per_day)) as [[y' m'] d'] eqn:Hc'.
  intros Hy Hy' Heq. destruct (Hb y m d eq_refl) as [Hm Hd], (Hb' y' m' d' eq_refl) as [Hm' Hd']. cbn [fst] in *.
  assert (Hus : forall x, 0 <= x mod us_per_day < 86400000000) by (intros x; apply Z.mod_pos_bound; done).
  pose proof (Hus t) as Ht. pose proof (Hus t') as Ht'.
  set (u := t mod us_per_day) in *. set (u' := t' mod us_per_day) in *.
  do 12 (apply app_inj_1 in Heq as [? Heq]; [|by rewrite ?pad_digits_length]).
  repeat match goal with H : pad_digits _ _ = pad_digits _ _ |- _ => apply pad_digits_inj in H; [|simpl; Z.to_euclidean_division_equations; lia..] end.
  assert (Hday : t / us_per_day = t' / us_per_day) by (apply civil_inj; congruence).
  assert (Huu : u = u').
  { pose proof (time_of_day u). pose proof (time_of_day u'). congruence. }
  rewrite (Z.div_mod t us_per_day), (Z.div_mod t' us_per_day), Hday by done. fold u u'. by rewrite Huu.
Qed.

Example isoformat_example : isoformat 1773576000000042 = of_string "2026-03-15T12:00:00.000042".
Proof. vm_compute. reflexivity. Qed.
