(* ===== verification/Accounts.v ===== *)
(** * The tables the budget code reads and writes

    One [DB] value is what a session sees: its own flushed writes on top of
    the committed rows.  Every operation that follows takes the subject's row
    lock first, so operations on one subject are serialised and each is one
    transition of this state.  A NULL money column is read through
    [float(x or 0)] everywhere in the code; it is the amount 0 here. *)

From S2P Require Import Prelude Text Money.
From Stdlib Require Import QArith.
#[global] Open Scope Z_scope.

(** ** Rows *)

Record User := MkUser {
  user_is_active : bool;
  user_department : option string;
  monthly_budget_usd : Q;
  budget_used_usd : Q;
  budget_reserved_usd : Q;
  budget_period_start : option Z
}.

Record AlphaRouterApiKey := MkKey {
  key_is_active : bool;
  credit_limit_usd : Q;
  unlimited_budget : bool;
  reset_period : string;
  expires_at : option Z;
  period_used_usd : Q;
  period_reserved_usd : Q;
  total_used_usd : Q;
  period_started_at : option Z;
  last_used_at : option Z
}.

Inductive hold_status := STATUS_HELD | STATUS_SETTLED | STATUS_RELEASED | STATUS_EXPIRED.

#[export] Instance hold_status_eq_dec : EqDecision hold_status.
Proof. solve_decision. Defined.

Record BudgetReservation := MkReservation {
  subject_type : string;
  subject_id : Z;
  idempotency_key : text;
  operation : string;
  model_id : string;
  reserved_usd : Q;
  actual_usd : option Q;
  status : hold_status;
  request_log_id : option Z;
  created_at : Z;
  row_expires_at : Z;
  settled_at : option Z
}.

Record BudgetPlan := MkPlan { plan_name : string; plan_monthly_budget_usd : Q }.

Record PlanAssignment := MkAssignment {
  pa_plan_id : option Z;
  pa_user_id : option Z;
  pa_group_id : option Z;
  pa_department : option string
}.

Record LedgerEntry := MkLedger {
  le_subject_type : string;
  le_subject_id : Z;
  le_amount_usd : Q;
  le_effective_at : Z
}.

Record RequestLog := MkLog {
  rl_user_id : option Z;
  rl_request_time : Z;
  rl_total_cost_usd : Q;
  rl_usage_operation_id : option string
}.

Definition SUBJECT_USER : string := "user".
Definition SUBJECT_ALPHA_ROUTER_KEY : string := "alpha_router_key".

(** ** The session's view of the database *)

Record DB := MkDB {
  users : gmap Z User;
  api_keys : gmap Z AlphaRouterApiKey;
  reservations : gmap string BudgetReservation;
  plans : gmap Z BudgetPlan;
  assignments : list PlanAssignment;
  user_group_members : list (Z * Z);
  ledger_entries : list LedgerEntry;
  request_logs : list RequestLog
}.

Definition with_users (f : gmap Z User -> gmap Z User) (db : DB) : DB :=
  MkDB (f (users db)) (api_keys db) (reservations db) (plans db) (assignments db)
       (user_group_members db) (ledger_entries db) (request_logs db).
Definition with_api_keys (f : gmap Z AlphaRouterApiKey -> gmap Z AlphaRouterApiKey) (db : DB) : DB :=
  MkDB (users db) (f (api_keys db)) (reservations db) (plans db) (assignments db)
       (user_group_members db) (ledger_entries db) (request_logs db).
Definition with_reservations (f : gmap string BudgetReservation -> gmap string BudgetReservation) (db : DB) : DB :=
  MkDB (users db) (api_keys db) (f (reservations db)) (plans db) (assignments db)
       (user_group_members db) (ledger_entries db) (request_logs db).

Definition set_user_reserved (held : Q) (u : User) : User :=
  MkUser (user_is_active u) (user_department u) (monthly_budget_usd u) (budget_used_usd u) held
         (budget_period_start u).
Definition set_user_used (used : Q) (u : User) : User :=
  MkUser (user_is_active u) (user_department u) (monthly_budget_usd u) used (budget_reserved_usd u)
         (budget_period_start u).
Definition set_user_budget (budget : Q) (u : User) : User :=
  MkUser (user_is_active u) (user_department u) budget (budget_used_usd u) (budget_reserved_usd u)
         (budget_period_start u).
Definition set_user_period (start : Z) (u : User) : User :=
  MkUser (user_is_active u) (user_department u) (monthly_budget_usd u) (budget_used_usd u)
         (budget_reserved_usd u) (Some start).

Definition set_key_reserved (held : Q) (k : AlphaRouterApiKey) : AlphaRouterApiKey :=
  MkKey (key_is_active k) (credit_limit_usd k) (unlimited_budget k) (reset_period k) (expires_at k)
        (period_used_usd k) held (total_used_usd k) (period_started_at k) (last_used_at k).
Definition set_key_period (start : Z) (k : AlphaRouterApiKey) : AlphaRouterApiKey :=
  MkKey (key_is_active k) (credit_limit_usd k) (unlimited_budget k) (reset_period k) (expires_at k)
        0 0 (total_used_usd k) (Some start) (last_used_at k).
Definition set_key_active (b : bool) (k : AlphaRouterApiKey) : AlphaRouterApiKey :=
  MkKey b (credit_limit_usd k) (unlimited_budget k) (reset_period k) (expires_at k)
        (period_used_usd k) (period_reserved_usd k) (total_used_usd k) (period_started_at k) (last_used_at k).
(** A settlement: the cost is added to both usage totals and the key was used now. *)
Definition charge_key (used total : Q) (now : Z) (k : AlphaRouterApiKey) : AlphaRouterApiKey :=
  MkKey (key_is_active k) (credit_limit_usd k) (unlimited_budget k) (reset_period k) (expires_at k)
        used (period_reserved_usd k) total (period_started_at k) (Some now).

Definition set_row_reserved (amount : Q) (r : BudgetReservation) : BudgetReservation :=
  MkReservation (subject_type r) (subject_id r) (idempotency_key r) (operation r) (model_id r) amount
    (actual_usd r) (status r) (request_log_id r) (created_at r) (row_expires_at r) (settled_at r).
(** The row of a hold that was closed at [now]. *)
Definition close_row (st : hold_status) (actual : option Q) (log : option Z) (now : Z)
    (r : BudgetReservation) : BudgetReservation :=
  MkReservation (subject_type r) (subject_id r) (idempotency_key r) (operation r) (model_id r)
    (reserved_usd r) actual st log (created_at r) (row_expires_at r) (Some now).

(** ** Subjects and their open holds *)

Definition is_held (st : string) (sid : Z) (r : BudgetReservation) : Prop :=
  subject_type r = st /\ subject_id r = sid /\ status r = STATUS_HELD.

#[export] Instance is_held_dec st sid r : Decision (is_held st sid r).
Proof. unfold is_held. apply _. Defined.

(** A row's share of its subject's held total. *)
Definition held_amount (st : string) (sid : Z) (r : BudgetReservation) : Q :=
  if decide (is_held st sid r) then reserved_usd r else 0.

(** [SELECT coalesce(sum(reserved_usd), 0) ... WHERE subject = ... AND status = 'held'] *)
Definition held_sum (st : string) (sid : Z) (db : DB) : Q :=
  Qsum_map (held_amount st sid) (reservations db).

(** The reserved counter kept on the subject's own row, when the row exists. *)
Definition reserved_counter (st : string) (sid : Z) (db : DB) : option Q :=
  if decide (st = SUBJECT_USER) then budget_reserved_usd <$> users db !! sid
  else if decide (st = SUBJECT_ALPHA_ROUTER_KEY) then period_reserved_usd <$> api_keys db !! sid
  else None.

(** Row of a user or of an API key. *)
Inductive Subject := SubjectUser (u : User) | SubjectKey (k : AlphaRouterApiKey).
