(* ===== verification/Holds.v ===== *)
(** * Open holds: settle, release, expire, extend and reconcile

    [budget_reservation_service.py] without admission (see [Reserve.v]).
    [now] is the value of [_now()] during the call. *)

From S2P Require Import Prelude Text Money Accounts.
From Stdlib Require Import QArith Qminmax Lqa.
#[global] Open Scope Z_scope.

(** ** Row locks *)

Definition _locked_subject (st : string) (sid : Z) : op DB (option Subject) :=
  gets (fun db =>
    if decide (st = SUBJECT_USER) then SubjectUser <$> users db !! sid
    else if decide (st = SUBJECT_ALPHA_ROUTER_KEY) then SubjectKey <$> api_keys db !! sid
    else None).

Definition _lock_subject (st : string) (sid : Z) : op DB bool :=
  s ← _locked_subject st sid;
  mret (bool_decide (is_Some s)).

Definition _lock_reservation (reservation_id : string) : op DB (option BudgetReservation) :=
  gets (fun db => reservations db !! reservation_id).

Definition _lock_subject_then_reservation (reservation_id : string) : op DB (option BudgetReservation) :=
  probe ← gets (fun db => reservations db !! reservation_id);
  match probe with
  | None => mret None
  | Some p =>
      ok ← _lock_subject (subject_type p) (subject_id p);
      if (ok : bool) then _lock_reservation reservation_id else mret None
  end.

(** ** Closing a hold *)

Definition _apply_release_to_subject (row : BudgetReservation) (actual_usd : option Q) (now : Z) : op DB unit :=
  let reserved := Qmax 0 (reserved_usd row) in
  let actual := Qmax 0 (default 0%Q actual_usd) in
  if decide (subject_type row = SUBJECT_USER) then
    user ← gets (fun db => users db !! subject_id row);
    match user with
    | None => mret tt
    | Some user =>
        let user := set_user_reserved (round8 (Qmax 0 (budget_reserved_usd user - reserved))) user in
        let user := match actual_usd with
          | None => user
          | Some _ => set_user_used (round8 (budget_used_usd user + actual)) user
          end in
        modify (with_users (<[subject_id row := user]>))
    end
  else if decide (subject_type row = SUBJECT_ALPHA_ROUTER_KEY) then
    key ← gets (fun db => api_keys db !! subject_id row);
    match key with
    | None => mret tt
    | Some key =>
        let key := set_key_reserved (round8 (Qmax 0 (period_reserved_usd key - reserved))) key in
        let key := match actual_usd with
          | None => key
          | Some _ => charge_key (round8 (period_used_usd key + actual))
                                 (round8 (total_used_usd key + actual)) now key
          end in
        modify (with_api_keys (<[subject_id row := key]>))
    end
  else mret tt.

Definition settle (reservation_id : string) (actual_usd : Q) (log : option Z) (now : Z) : op DB bool :=
  row ← _lock_subject_then_reservation reservation_id;
  match row with
  | None => mret false
  | Some row =>
      if decide (status row ≠ STATUS_HELD) then mret false else
      let actual := Qmax 0 actual_usd in
      _ ← _apply_release_to_subject row (Some actual) now;
      _ ← modify (with_reservations
            (<[reservation_id := close_row STATUS_SETTLED (Some actual) log now row]>));
      mret true
  end.

Definition release (reservation_id : string) (expired : bool) (now : Z) : op DB bool :=
  row ← _lock_subject_then_reservation reservation_id;
  match row with
  | None => mret false
  | Some row =>
      if decide (status row ≠ STATUS_HELD) then mret false else
      _ ← _apply_release_to_subject row None now;
      _ ← modify (with_reservations
            (<[reservation_id := close_row (if expired then STATUS_EXPIRED else STATUS_RELEASED)
                                   (actual_usd row) (request_log_id row) now row]>));
      mret true
  end.

(** [expired += 1] for every call that answered [True]. *)
Definition count_true (l : list bool) : Z := Z.of_nat (length (filter (fun b => b = true) l)).

Definition expire_stale_reservations (now : Z) : op DB Z :=
  ids ← gets (fun db =>
    (filter (fun kv => status kv.2 = STATUS_HELD /\ row_expires_at kv.2 < now)
       (map_to_list (reservations db))).*1);
  done ← for_each (fun id => release id true now) ids;
  mret (count_true done).

(** ** Reconciling the reserved counters *)

Definition _subject_balance (s : Subject) : Q * Q * Q :=
  match s with
  | SubjectUser u => (monthly_budget_usd u, budget_used_usd u, budget_reserved_usd u)
  | SubjectKey k => (credit_limit_usd k, period_used_usd k, period_reserved_usd k)
  end.

Definition _set_subject_reserved (st : string) (sid : Z) (held : Q) : op DB unit :=
  modify (fun db =>
    if decide (st = SUBJECT_USER) then with_users (alter (set_user_reserved held) sid) db
    else with_api_keys (alter (set_key_reserved held) sid) db).

Definition reconcile_subject_reserved (st : string) (sid : Z) : op DB Q :=
  subject ← _locked_subject st sid;
  held ← gets (held_sum st sid);
  let held := round8 (Qmax 0 held) in
  match subject with
  | None => mret held
  | Some _ => _ ← _set_subject_reserved st sid held; mret held
  end.

Definition drift_tolerance : Q := 1 # 1000000.

Definition _drifted_subject_ids (st : string) : op DB (list (Z * Q)) :=
  gets (fun db =>
    let counters : list (Z * Q) :=
      if decide (st = SUBJECT_USER)
      then (fun kv => (kv.1, budget_reserved_usd kv.2)) <$> map_to_list (users db)
      else (fun kv => (kv.1, period_reserved_usd kv.2)) <$> map_to_list (api_keys db) in
    let rows := filter (fun kv => Qltb drift_tolerance kv.2 = true) counters in
    filter (fun kv => Qltb drift_tolerance kv.2 = true)
      ((fun kv => (kv.1, (kv.2 - held_sum st kv.1 db)%Q)) <$> rows)).

(** Returns the subjects repaired and the drift reported to the dashboard;
    [lock] is whether the advisory lock was obtained. *)
Definition reconcile_drifted_reserved_counters (lock : bool) : op DB (Z * Q) :=
  if negb lock then mret (0, 0%Q) else
  drifted_users ← _drifted_subject_ids SUBJECT_USER;
  _ ← for_each (fun kv => reconcile_subject_reserved SUBJECT_USER kv.1) drifted_users;
  drifted_keys ← _drifted_subject_ids SUBJECT_ALPHA_ROUTER_KEY;
  _ ← for_each (fun kv => reconcile_subject_reserved SUBJECT_ALPHA_ROUTER_KEY kv.1) drifted_keys;
  mret (Z.of_nat (length drifted_users + length drifted_keys),
        Qsum (drifted_users.*2 ++ drifted_keys.*2)).

Definition release_open_holds_for_subject (st : string) (sid : Z) (now : Z) : op DB Z :=
  _ ← _lock_subject st sid;
  rows ← gets (fun db => (filter (fun kv => is_held st sid kv.2) (map_to_list (reservations db))).*1);
  done ← for_each (fun id => release id true now) rows;
  _ ← reconcile_subject_reserved st sid;
  mret (count_true done).

(** ** Growing a running chat turn's hold *)

(** A float argument: [math.isfinite] tells the two apart. *)
Inductive pyfloat := Finite (q : Q) | NotFinite.

(** [headroom]: the free balance, [None] for [math.inf]. *)
Definition headroom_lt (headroom : option Q) (x : Q) : bool :=
  match headroom with None => false | Some h => Qltb h x end.

Definition grown_hold (needed reserved : Q) (headroom : option Q) : Q :=
  let want := Qmax needed (2 * reserved) in
  round8 (match headroom with None => want | Some h => Qmin want (reserved + h) end).

Definition grow_hold (reservation_id : string) (row : BudgetReservation)
    (needed reserved held : Q) (headroom : option Q) : op DB (option Q) :=
  let grown := grown_hold needed reserved headroom in
  _ ← modify (with_reservations (<[reservation_id := set_row_reserved grown row]>));
  _ ← _set_subject_reserved (subject_type row) (subject_id row) (round8 (held + grown - reserved));
  mret (Some grown).

Definition extend_hold (reservation_id : option string) (needed_usd : pyfloat) : op DB (option Q) :=
  match reservation_id, needed_usd with
  | None, _ | Some "", _ | _, NotFinite => mret None
  | Some reservation_id, Finite needed =>
      let needed := round8 needed in
      row ← _lock_subject_then_reservation reservation_id;
      match row with
      | None => mret None
      | Some row =>
          if decide (status row ≠ STATUS_HELD) then mret None else
          let reserved := round8 (reserved_usd row) in
          if Qle_bool needed reserved then mret (Some reserved) else
          let st := subject_type row in
          let sid := subject_id row in
          subject ← _locked_subject st sid;
          match subject with
          | None => mret None
          | Some subject =>
              let '(limit, used, held) := _subject_balance subject in
              let extra := round8 (needed - reserved) in
              let unlimited := match subject with SubjectKey _ => Qle_bool limit 0 | _ => false end in
              let headroom := if unlimited then None else Some (round8 (limit - used - held)) in
              if headroom_lt headroom extra then
                held ← reconcile_subject_reserved st sid;
                let headroom := round8 (limit - used - held) in
                if Qltb headroom extra then mret None
                else grow_hold reservation_id row needed reserved held (Some headroom)
              else grow_hold reservation_id row needed reserved held headroom
          end
      end
  end.
