(* ===== verification/HoldsFacts.v ===== *)
(** * Facts about the hold operations

    [settle] and [release] as functions of the state, the invariant that ties
    every reserved counter to the open holds behind it, and what the
    reconciliation and the growth of a hold guarantee. *)

From S2P Require Import Prelude Text Money Accounts Holds.
From Stdlib Require Import QArith Qminmax Lqa.
#[global] Open Scope Z_scope.

(** ** What the operations do, as functions of the state *)

Definition subject_exists (st : string) (sid : Z) (db : DB) : bool :=
  bool_decide (is_Some (reserved_counter st sid db)).

(** The spent total kept on the subject's row. *)
Definition used_counter (st : string) (sid : Z) (db : DB) : option Q :=
  if decide (st = SUBJECT_USER) then budget_used_usd <$> users db !! sid
  else if decide (st = SUBJECT_ALPHA_ROUTER_KEY) then period_used_usd <$> api_keys db !! sid
  else None.

(** The hold a caller of [settle] or [release] can still close. *)
Definition open_hold (id : string) (db : DB) : option BudgetReservation :=
  r ← reservations db !! id;
  if subject_exists (subject_type r) (subject_id r) db && bool_decide (status r = STATUS_HELD)
  then Some r else None.

Lemma users_ne_keys : SUBJECT_ALPHA_ROUTER_KEY ≠ SUBJECT_USER.
Proof. done. Qed.

Lemma lock_subject_spec st sid db :
  _lock_subject st sid db = (Ok (subject_exists st sid db), db).
Proof.
  unfold _lock_subject, _locked_subject, gets, mbind, op_bind, mret, op_ret, subject_exists, reserved_counter.
  do 2 f_equal. apply bool_decide_ext.
  repeat case_decide; [destruct (users db !! sid)|destruct (api_keys db !! sid)|]; simpl;
    split; intros [? ?]; try done; by eexists.
Qed.

Lemma lock_then_reservation_spec id db :
  _lock_subject_then_reservation id db =
  (Ok (r ← reservations db !! id;
       if subject_exists (subject_type r) (subject_id r) db then Some r else None), db).
Proof.
  unfold _lock_subject_then_reservation, _lock_reservation.
  rewrite (op_bind_ok _ _ db (reservations db !! id) db) by done.
  destruct (reservations db !! id) as [r|] eqn:Hr; [|done]. simpl.
  rewrite (op_bind_ok _ _ db _ db (lock_subject_spec _ _ _)).
  destruct (subject_exists _ _ db); [|done]. unfold gets. by rewrite Hr.
Qed.

(** The state after the subject's counters took in the end of hold [row]. *)
Definition released (row : BudgetReservation) (actual : option Q) (now : Z) (db : DB) : DB :=
  (_apply_release_to_subject row actual now db).2.

Lemma apply_release_ok row actual now db :
  _apply_release_to_subject row actual now db = (Ok tt, released row actual now db).
Proof.
  unfold released, _apply_release_to_subject, gets, modify, mbind, op_bind, mret, op_ret.
  repeat case_decide; [destruct (users db !! _)|destruct (api_keys db !! _)|]; done.
Qed.

Lemma settle_spec id actual log now db :
  settle id actual log now db =
  match open_hold id db with
  | None => (Ok false, db)
  | Some r =>
      (Ok true, with_reservations (<[id := close_row STATUS_SETTLED (Some (Qmax 0 actual)) log now r]>)
                  (released r (Some (Qmax 0 actual)) now db))
  end.
Proof.
  unfold settle, open_hold. rewrite (op_bind_ok _ _ db _ db (lock_then_reservation_spec _ _)).
  destruct (reservations db !! id) as [r|]; [|done]. simpl.
  destruct (subject_exists _ _ db); [|done]. simpl.
  case_bool_decide; [rewrite decide_False by (by intros [])|by rewrite decide_True].
  by rewrite (op_bind_ok _ _ _ _ _ (apply_release_ok _ _ _ _)).
Qed.

Lemma release_spec id expired now db :
  release id expired now db =
  match open_hold id db with
  | None => (Ok false, db)
  | Some r =>
      (Ok true, with_reservations
        (<[id := close_row (if expired then STATUS_EXPIRED else STATUS_RELEASED)
                   (actual_usd r) (request_log_id r) now r]>) (released r None now db))
  end.
Proof.
  unfold release, open_hold. rewrite (op_bind_ok _ _ db _ db (lock_then_reservation_spec _ _)).
  destruct (reservations db !! id) as [r|]; [|done]. simpl.
  destruct (subject_exists _ _ db); [|done]. simpl.
  case_bool_decide; [rewrite decide_False by (by intros [])|by rewrite decide_True].
  by rewrite (op_bind_ok _ _ _ _ _ (apply_release_ok _ _ _ _)).
Qed.

Lemma open_hold_Some id db r :
  open_hold id db = Some r ->
  reservations db !! id = Some r /\ status r = STATUS_HELD /\
  is_Some (reserved_counter (subject_type r) (subject_id r) db).
Proof.
  unfold open_hold, subject_exists. destruct (reservations db !! id) as [r'|]; [|done]. simpl.
  case_bool_decide; [|done]. case_bool_decide; [|done]. simpl. intros [= ->]. done.
Qed.

(** Reading a counter after one row of one table changed. *)
Lemma reserved_counter_users st sid f uid db :
  reserved_counter st sid (with_users (alter f uid) db) =
  if decide (st = SUBJECT_USER /\ sid = uid)
  then (fun u => budget_reserved_usd (f u)) <$> users db !! uid
  else reserved_counter st sid db.
Proof.
  destruct (decide (st = SUBJECT_USER /\ sid = uid)) as [[-> ->]|Hn]; unfold reserved_counter; simpl.
  - rewrite lookup_alter_eq. by destruct (users db !! _).
  - repeat case_decide; try done; subst; by rewrite lookup_alter_ne by naive_solver.
Qed.

Lemma reserved_counter_keys st sid f kid db :
  reserved_counter st sid (with_api_keys (alter f kid) db) =
  if decide (st = SUBJECT_ALPHA_ROUTER_KEY /\ sid = kid)
  then (fun k => period_reserved_usd (f k)) <$> api_keys db !! kid
  else reserved_counter st sid db.
Proof.
  destruct (decide (st = SUBJECT_ALPHA_ROUTER_KEY /\ sid = kid)) as [[-> ->]|Hn]; unfold reserved_counter; simpl.
  - rewrite lookup_alter_eq. by destruct (api_keys db !! _).
  - repeat case_decide; try done; subst; by rewrite lookup_alter_ne by naive_solver.
Qed.

Lemma used_counter_users st sid f uid db :
  used_counter st sid (with_users (alter f uid) db) =
  if decide (st = SUBJECT_USER /\ sid = uid)
  then (fun u => budget_used_usd (f u)) <$> users db !! uid
  else used_counter st sid db.
Proof.
  destruct (decide (st = SUBJECT_USER /\ sid = uid)) as [[-> ->]|Hn]; unfold used_counter; simpl.
  - rewrite lookup_alter_eq. by destruct (users db !! _).
  - repeat case_decide; try done; subst; by rewrite lookup_alter_ne by naive_solver.
Qed.

Lemma used_counter_keys st sid f kid db :
  used_counter st sid (with_api_keys (alter f kid) db) =
  if decide (st = SUBJECT_ALPHA_ROUTER_KEY /\ sid = kid)
  then (fun k => period_used_usd (f k)) <$> api_keys db !! kid
  else used_counter st sid db.
Proof.
  destruct (decide (st = SUBJECT_ALPHA_ROUTER_KEY /\ sid = kid)) as [[-> ->]|Hn]; unfold used_counter; simpl.
  - rewrite lookup_alter_eq. by destruct (api_keys db !! _).
  - repeat case_decide; try done; subst; by rewrite lookup_alter_ne by naive_solver.
Qed.

(** What the end of a hold does to the row of its subject. *)
Definition close_user (row : BudgetReservation) (actual : option Q) (u : User) : User :=
  let u := set_user_reserved (round8 (Qmax 0 (budget_reserved_usd u - Qmax 0 (reserved_usd row)))) u in
  match actual with
  | None => u
  | Some a => set_user_used (round8 (budget_used_usd u + Qmax 0 a)) u
  end.

Definition close_key (row : BudgetReservation) (actual : option Q) (now : Z) (k : AlphaRouterApiKey) : AlphaRouterApiKey :=
  let k := set_key_reserved (round8 (Qmax 0 (period_reserved_usd k - Qmax 0 (reserved_usd row)))) k in
  match actual with
  | None => k
  | Some a => charge_key (round8 (period_used_usd k + Qmax 0 a)) (round8 (total_used_usd k + Qmax 0 a)) now k
  end.

Lemma released_eq row actual now db :
  released row actual now db =
  if decide (subject_type row = SUBJECT_USER) then with_users (alter (close_user row actual) (subject_id row)) db
  else if decide (subject_type row = SUBJECT_ALPHA_ROUTER_KEY)
  then with_api_keys (alter (close_key row actual now) (subject_id row)) db
  else db.
Proof.
  unfold released, _apply_release_to_subject, gets, modify, mbind, op_bind, mret, op_ret.
  destruct db as [us ks rs ps asg mem le rl]; unfold with_users, with_api_keys; simpl.
  rewrite !alter_lookup. repeat case_decide; simpl; [| |done].
  - destruct (us !! subject_id row); [by destruct actual|done].
  - destruct (ks !! subject_id row); [by destruct actual|done].
Qed.

Lemma reservations_released row actual now db :
  reservations (released row actual now db) = reservations db.
Proof. rewrite released_eq. repeat case_decide; done. Qed.

(** The subject of a row. *)
Definition subject_of (r : BudgetReservation) : string * Z := (subject_type r, subject_id r).

Lemma reserved_counter_released row actual now db st sid :
  reserved_counter st sid (released row actual now db) =
  if decide ((st, sid) = subject_of row)
  then (fun c => round8 (Qmax 0 (c - Qmax 0 (reserved_usd row)))) <$> reserved_counter st sid db
  else reserved_counter st sid db.
Proof.
  rewrite released_eq. unfold subject_of.
  destruct (decide (subject_type row = SUBJECT_USER)) as [Hu|Hu];
    [|destruct (decide (subject_type row = SUBJECT_ALPHA_ROUTER_KEY)) as [Hk|Hk]].
  - rewrite reserved_counter_users, Hu. case_decide as Hd; [|rewrite decide_False by naive_solver; done].
    destruct Hd as [-> ->]. rewrite decide_True by done.
    unfold reserved_counter. rewrite decide_True by done. destruct (users db !! _); [|done]. by destruct actual.
  - rewrite reserved_counter_keys, Hk. case_decide as Hd; [|rewrite decide_False by naive_solver; done].
    destruct Hd as [-> ->]. rewrite decide_True by done.
    unfold reserved_counter; simpl. destruct (api_keys db !! _); [|done]. by destruct actual.
  - case_decide as Hd; [|done]. simplify_eq. unfold reserved_counter. by rewrite !decide_False.
Qed.

Lemma used_counter_released row actual now db st sid :
  used_counter st sid (released row actual now db) =
  match actual with
  | Some a => if decide ((st, sid) = subject_of row) then (fun u => round8 (u + Qmax 0 a)) <$> used_counter st sid db
              else used_counter st sid db
  | None => used_counter st sid db
  end.
Proof.
  rewrite released_eq. unfold subject_of.
  destruct (decide (subject_type row = SUBJECT_USER)) as [Hu|Hu];
    [|destruct (decide (subject_type row = SUBJECT_ALPHA_ROUTER_KEY)) as [Hk|Hk]].
  - rewrite used_counter_users, Hu. case_decide as Hd;
      [|destruct actual; [rewrite decide_False by naive_solver|]; done].
    destruct Hd as [-> ->]. unfold used_counter; simpl. destruct actual; [rewrite decide_True by done|];
    by destruct (users db !! _).
  - rewrite used_counter_keys, Hk. case_decide as Hd;
      [|destruct actual; [rewrite decide_False by naive_solver|]; done].
    destruct Hd as [-> ->]. unfold used_counter; simpl. destruct actual; [rewrite decide_True by done|];
    by destruct (api_keys db !! _).
  - destruct actual; [|done]. case_decide as Hd; [|done]. simplify_eq. unfold used_counter. by rewrite !decide_False.
Qed.

(** ** The invariant: every counter is the sum of its subject's open holds *)

Definition rows_wf (db : DB) : Prop :=
  forall id r, reservations db !! id = Some r -> is8 (reserved_usd r) /\ (0 <= reserved_usd r)%Q.

Record holds_ok (db : DB) : Prop := {
  rows_ok : rows_wf db;
  counters_exact : forall st sid c, reserved_counter st sid db = Some c -> (c == held_sum st sid db)%Q
}.

Lemma held_amount_held st sid r : is_held st sid r -> held_amount st sid r = reserved_usd r.
Proof. intros. unfold held_amount. by rewrite decide_True. Qed.

Lemma held_amount_not st sid r : ~ is_held st sid r -> held_amount st sid r = 0%Q.
Proof. intros. unfold held_amount. by rewrite decide_False. Qed.

Lemma held_amount_ok db st sid id r :
  rows_wf db -> reservations db !! id = Some r ->
  is8 (held_amount st sid r) /\ (0 <= held_amount st sid r)%Q.
Proof. intros Hok [? ?]%Hok. unfold held_amount. case_decide; [done|]. split; [apply is8_0|done]. Qed.

Lemma held_sum_is8 db st sid : rows_wf db -> is8 (held_sum st sid db).
Proof. intros Hok. apply is8_Qsum_map. intros k x Hk. by apply (held_amount_ok db st sid k x). Qed.

Lemma held_sum_nonneg db st sid : rows_wf db -> (0 <= held_sum st sid db)%Q.
Proof. intros Hok. apply Qsum_map_nonneg. intros k x Hk. by apply (held_amount_ok db st sid k x). Qed.

Lemma held_sum_ge db st sid id r :
  rows_wf db -> reservations db !! id = Some r -> (held_amount st sid r <= held_sum st sid db)%Q.
Proof.
  intros Hok Hr. unfold held_sum. rewrite (Qsum_map_delete _ _ _ _ Hr).
  assert (0 <= Qsum_map (held_amount st sid) (delete id (reservations db)))%Q; [|lra].
  apply Qsum_map_nonneg. intros k x [_ Hk]%lookup_delete_Some. by apply (held_amount_ok db st sid k x).
Qed.

Lemma held_sum_update db db' st sid id r r' :
  reservations db !! id = Some r -> reservations db' = <[id := r']> (reservations db) ->
  (held_sum st sid db' == held_sum st sid db - held_amount st sid r + held_amount st sid r')%Q.
Proof. intros Hr Hdb. unfold held_sum. rewrite Hdb. by apply Qsum_map_update. Qed.

Lemma is_held_subject st sid r :
  status r = STATUS_HELD -> is_held st sid r <-> (st, sid) = subject_of r.
Proof. unfold is_held, subject_of. naive_solver. Qed.

Lemma close_row_not_held st sid st' actual log now r :
  st' ≠ STATUS_HELD -> ~ is_held st sid (close_row st' actual log now r).
Proof. unfold is_held. simpl. naive_solver. Qed.

(** Closing an open hold keeps the counters exact. *)
Lemma close_hold_ok id db r st' actual actual' log now :
  holds_ok db -> open_hold id db = Some r -> st' ≠ STATUS_HELD ->
  holds_ok (with_reservations (<[id := close_row st' actual' log now r]>) (released r actual now db)).
Proof.
  intros Hok (Hr & Hheld & _)%open_hold_Some Hst'. constructor.
  - intros id' r'. simpl. rewrite reservations_released, lookup_insert.
    case_decide; [intros [= <-]; by eapply (rows_ok db Hok id r)|by apply rows_ok].
  - intros st sid c Hc.
    change (reserved_counter st sid (released r actual now db) = Some c) in Hc.
    rewrite (held_sum_update db _ st sid id r (close_row st' actual' log now r) Hr)
      by (simpl; by rewrite reservations_released).
    rewrite (held_amount_not st sid (close_row _ _ _ _ _)) by by apply close_row_not_held.
    rewrite reserved_counter_released in Hc. destruct (rows_ok db Hok id r Hr) as [Hr8 Hr0].
    case_decide as Hd.
    + apply fmap_Some in Hc as (c0 & Hc0 & ->). apply (counters_exact db Hok) in Hc0 as Hc0'.
      pose proof (held_sum_ge db st sid id r (rows_ok db Hok) Hr) as Hge.
      rewrite held_amount_held in Hge |- * by by apply is_held_subject.
      rewrite Q.max_r, Hc0', Q.max_r by (rewrite ?Q.max_r, ?Hc0'; lra || done).
      rewrite round8_id; [ring|]. apply is8_minus; [apply held_sum_is8, Hok|done].
    + rewrite held_amount_not by by rewrite is_held_subject.
      rewrite (counters_exact db Hok _ _ _ Hc). ring.
Qed.

Lemma settle_preserves id actual log now : preserves holds_ok (settle id actual log now).
Proof.
  intros db Hok. rewrite settle_spec. destruct (open_hold id db) as [r|] eqn:Ho; simpl; [|done].
  by apply close_hold_ok.
Qed.

Lemma release_preserves id expired now : preserves holds_ok (release id expired now).
Proof.
  intros db Hok. rewrite release_spec. destruct (open_hold id db) as [r|] eqn:Ho; simpl; [|done].
  apply close_hold_ok; try done. by destruct expired.
Qed.
#[export] Hint Resolve settle_preserves release_preserves : preserves.

Lemma expire_stale_preserves now : preserves holds_ok (expire_stale_reservations now).
Proof. unfold expire_stale_reservations. auto with preserves. Qed.

(** ** Reconciliation *)

Lemma set_subject_reserved_spec st sid held db :
  _set_subject_reserved st sid held db =
  (Ok tt, if decide (st = SUBJECT_USER) then with_users (alter (set_user_reserved held) sid) db
          else with_api_keys (alter (set_key_reserved held) sid) db).
Proof. done. Qed.

(** Writing the counter of an existing subject changes that counter only. *)
Lemma set_subject_reserved_counter st sid held db st' sid' :
  is_Some (reserved_counter st sid db) ->
  reserved_counter st' sid' (_set_subject_reserved st sid held db).2 =
  if decide ((st', sid') = (st, sid)) then Some held else reserved_counter st' sid' db.
Proof.
  intros Hex. rewrite set_subject_reserved_spec; simpl.
  assert (Hsome : is_Some (reserved_counter st sid db)) by done.
  unfold reserved_counter in Hsome.
  destruct (decide (st = SUBJECT_USER)) as [->|Hu].
  - apply fmap_is_Some in Hsome as [u Hu]. rewrite reserved_counter_users, Hu; simpl.
    by repeat case_decide; simplify_eq; try (exfalso; naive_solver).
  - destruct (decide (st = SUBJECT_ALPHA_ROUTER_KEY)) as [->|]; [|by destruct Hsome].
    apply fmap_is_Some in Hsome as [k Hk]. rewrite reserved_counter_keys, Hk; simpl.
    by repeat case_decide; simplify_eq; try (exfalso; naive_solver).
Qed.

Lemma set_subject_reserved_reservations st sid held db :
  reservations (_set_subject_reserved st sid held db).2 = reservations db.
Proof. rewrite set_subject_reserved_spec; simpl. by case_decide. Qed.

Lemma set_subject_reserved_used st sid held db st' sid' :
  used_counter st' sid' (_set_subject_reserved st sid held db).2 = used_counter st' sid' db.
Proof.
  rewrite set_subject_reserved_spec; simpl. case_decide as Hu.
  - rewrite used_counter_users. case_decide as Hd; [|done]. destruct Hd as [-> ->].
    unfold used_counter; simpl. by destruct (users db !! _).
  - rewrite used_counter_keys. case_decide as Hd; [|done]. destruct Hd as [-> ->].
    unfold used_counter; simpl. by destruct (api_keys db !! _).
Qed.

Definition reconciled (st : string) (sid : Z) (db : DB) : DB := (reconcile_subject_reserved st sid db).2.

Lemma reconcile_spec st sid db :
  reconcile_subject_reserved st sid db =
  (Ok (round8 (Qmax 0 (held_sum st sid db))),
   if subject_exists st sid db
   then (_set_subject_reserved st sid (round8 (Qmax 0 (held_sum st sid db))) db).2 else db).
Proof.
  unfold reconcile_subject_reserved, _locked_subject, gets, mbind, op_bind, mret, op_ret,
    subject_exists, reserved_counter.
  repeat case_decide; [destruct (users db !! _)|destruct (api_keys db !! _)|]; done.
Qed.

Lemma rounded_sum db st sid :
  rows_wf db -> (round8 (Qmax 0 (held_sum st sid db)) == held_sum st sid db)%Q.
Proof.
  intros Hok. rewrite Q.max_r by by apply held_sum_nonneg. by apply round8_id, held_sum_is8.
Qed.

Lemma held_sum_reservations st sid db db' :
  reservations db' = reservations db -> held_sum st sid db' = held_sum st sid db.
Proof. unfold held_sum. by intros ->. Qed.

Lemma reconciled_reservations st sid db : reservations (reconciled st sid db) = reservations db.
Proof.
  unfold reconciled. rewrite reconcile_spec; cbn [snd].
  destruct (subject_exists _ _ db); [apply set_subject_reserved_reservations|done].
Qed.

Lemma reconciled_counter st sid db st' sid' :
  reserved_counter st' sid' (reconciled st sid db) =
  if decide ((st', sid') = (st, sid))
  then (fun _ => round8 (Qmax 0 (held_sum st sid db))) <$> reserved_counter st' sid' db
  else reserved_counter st' sid' db.
Proof.
  unfold reconciled. rewrite reconcile_spec; unfold subject_exists; cbn [snd].
  case_bool_decide as Hex.
  - rewrite set_subject_reserved_counter by done. case_decide as Hd; [|done].
    simplify_eq. by destruct Hex as [c ->].
  - case_decide as Hd; [simplify_eq|done]. apply eq_None_not_Some in Hex. by rewrite Hex.
Qed.

Lemma reconciled_used st sid db st' sid' :
  used_counter st' sid' (reconciled st sid db) = used_counter st' sid' db.
Proof.
  unfold reconciled. rewrite reconcile_spec; cbn [snd].
  destruct (subject_exists _ _ db); [apply set_subject_reserved_used|done].
Qed.

(** After a reconciliation the subject's counter is exact, whatever it was. *)
Lemma reconciled_exact st sid db c :
  rows_wf db -> reserved_counter st sid (reconciled st sid db) = Some c ->
  (c == held_sum st sid (reconciled st sid db))%Q.
Proof.
  intros Hok Hc. rewrite reconciled_counter, decide_True in Hc by done.
  apply fmap_Some in Hc as (c0 & _ & ->).
  rewrite (held_sum_reservations _ _ _ _ (reconciled_reservations st sid db)). by apply rounded_sum.
Qed.

Lemma reconcile_preserves st sid : preserves holds_ok (reconcile_subject_reserved st sid).
Proof.
  intros db Hok. fold (reconciled st sid db). constructor.
  - intros id r. rewrite reconciled_reservations. by apply rows_ok.
  - intros st' sid' c Hc. destruct (decide ((st', sid') = (st, sid))) as [Heq|Hne].
    + injection Heq as -> ->. by apply reconciled_exact; [apply Hok|].
    + rewrite reconciled_counter, decide_False in Hc by done.
      rewrite (held_sum_reservations _ _ _ _ (reconciled_reservations st sid db)). by apply counters_exact.
Qed.

Lemma lock_subject_preserves (I : DB -> Prop) st sid : preserves I (_lock_subject st sid).
Proof. intros db. by rewrite lock_subject_spec. Qed.
#[export] Hint Resolve reconcile_preserves lock_subject_preserves : preserves.

Lemma release_open_holds_preserves st sid now :
  preserves holds_ok (release_open_holds_for_subject st sid now).
Proof. unfold release_open_holds_for_subject. auto 10 with preserves. Qed.

Lemma reconcile_drifted_preserves lock : preserves holds_ok (reconcile_drifted_reserved_counters lock).
Proof.
  unfold reconcile_drifted_reserved_counters, _drifted_subject_ids.
  destruct lock; simpl; auto 12 with preserves.
Qed.
#[export] Hint Resolve expire_stale_preserves release_open_holds_preserves reconcile_drifted_preserves : preserves.

(** ** Growing a hold *)

(** The balance [extend_hold] and [reserve] read: limit, spent, counter, and
    whether a limit applies at all. *)
Definition balance_of (st : string) (sid : Z) (db : DB) : option (Q * Q * Q * bool) :=
  match (_locked_subject st sid db).1 with
  | Ok (Some s) =>
      let '(limit, used, held) := _subject_balance s in
      Some (limit, used, held, match s with SubjectKey _ => Qle_bool limit 0 | _ => false end)
  | _ => None
  end.

Lemma balance_of_counters st sid db limit used held unlimited :
  balance_of st sid db = Some (limit, used, held, unlimited) ->
  reserved_counter st sid db = Some held /\ used_counter st sid db = Some used.
Proof.
  unfold balance_of, _locked_subject, gets, reserved_counter, used_counter; simpl.
  repeat case_decide; [destruct (users db !! _)|destruct (api_keys db !! _)|]; simpl; naive_solver.
Qed.

Lemma open_hold_balance id db r :
  open_hold id db = Some r ->
  exists limit used held unlimited,
    balance_of (subject_type r) (subject_id r) db = Some (limit, used, held, unlimited).
Proof.
  intros (_ & _ & [c Hc])%open_hold_Some. revert Hc.
  unfold balance_of, _locked_subject, gets, reserved_counter; simpl.
  repeat case_decide; [destruct (users db !! _)|destruct (api_keys db !! _)|]; simpl; naive_solver.
Qed.

Lemma extend_hold_closed id needed db :
  open_hold id db = None -> extend_hold (Some id) needed db = (Ok None, db).
Proof.
  intros Ho. unfold extend_hold. destruct needed; [|by destruct id].
  destruct id as [|c id]; [done|]. revert Ho. unfold open_hold.
  rewrite (op_bind_ok _ _ db _ db (lock_then_reservation_spec _ _)).
  destruct (reservations db !! _) as [r|]; [|done]. simpl.
  destruct (subject_exists _ _ db); [|done]. simpl.
  case_bool_decide; [done|]. by rewrite decide_True.
Qed.

(** [extend_hold] on an open hold, step by step. *)
Lemma extend_hold_spec id needed db r limit used held unlimited :
  id ≠ EmptyString -> open_hold id db = Some r ->
  let st := subject_type r in let sid := subject_id r in
  balance_of st sid db = Some (limit, used, held, unlimited) ->
  let n := round8 needed in let reserved := round8 (reserved_usd r) in
  let extra := round8 (n - reserved) in
  let headroom := if unlimited then None else Some (round8 (limit - used - held)) in
  let sum := round8 (Qmax 0 (held_sum st sid db)) in
  let headroom' := round8 (limit - used - sum) in
  extend_hold (Some id) (Finite needed) db =
  if Qle_bool n reserved then (Ok (Some reserved), db)
  else if headroom_lt headroom extra then
    if Qltb headroom' extra then (Ok None, reconciled st sid db)
    else grow_hold id r n reserved sum (Some headroom') (reconciled st sid db)
  else grow_hold id r n reserved held headroom db.
Proof.
  intros Hid Ho st sid Hb n reserved extra headroom sum headroom'.
  apply open_hold_Some in Ho as Hr. destruct Hr as (Hr & Hs & Hex).
  unfold extend_hold. destruct id as [|c id]; [done|].
  rewrite (op_bind_ok _ _ db _ db (lock_then_reservation_spec _ _)).
  unfold subject_exists. rewrite Hr; simpl. rewrite bool_decide_eq_true_2 by done.
  rewrite decide_False by (by intros []). fold n reserved st sid.
  destruct (Qle_bool n reserved); [done|].
  revert Hb. unfold balance_of.
  destruct (_locked_subject st sid db) as [[[s|]|] s'] eqn:Hl; simpl; try done.
  assert (s' = db) as -> by by injection Hl.
  rewrite (op_bind_ok _ _ db _ db Hl).
  destruct (_subject_balance s) as [[l u] h]. intros [= -> -> -> <-].
  fold extra headroom. destruct (headroom_lt headroom extra); [|done].
  rewrite (op_bind_ok _ _ db sum (reconciled st sid db)).
  - fold headroom'. by destruct (Qltb headroom' extra).
  - unfold reconciled. by rewrite reconcile_spec.
Qed.

(** The state [grow_hold] leaves. *)
Definition grown (id : string) (r : BudgetReservation) (g held reserved : Q) (db : DB) : DB :=
  (_set_subject_reserved (subject_type r) (subject_id r) (round8 (held + g - reserved))
     (with_reservations (<[id := set_row_reserved g r]>) db)).2.

Lemma grow_hold_spec id r n reserved held headroom db :
  grow_hold id r n reserved held headroom db =
  let g := grown_hold n reserved headroom in (Ok (Some g), grown id r g held reserved db).
Proof. done. Qed.

Lemma grown_reservations id r g held reserved db :
  reservations (grown id r g held reserved db) = <[id := set_row_reserved g r]> (reservations db).
Proof. unfold grown. by rewrite set_subject_reserved_reservations. Qed.

Lemma grown_counter id r g held reserved db st sid :
  is_Some (reserved_counter (subject_type r) (subject_id r) db) ->
  reserved_counter st sid (grown id r g held reserved db) =
  if decide ((st, sid) = subject_of r) then Some (round8 (held + g - reserved))
  else reserved_counter st sid db.
Proof. intros Hex. unfold grown. by rewrite set_subject_reserved_counter. Qed.

Lemma grown_used id r g held reserved db st sid :
  used_counter st sid (grown id r g held reserved db) = used_counter st sid db.
Proof. unfold grown. by rewrite set_subject_reserved_used. Qed.

(** A hold that grows holds at least what it was asked for, and at most what was free. *)
Lemma grown_hold_bounds n reserved headroom :
  is8 n -> is8 reserved -> (0 <= reserved)%Q -> (reserved < n)%Q ->
  headroom_lt headroom (round8 (n - reserved)) = false ->
  let g := grown_hold n reserved headroom in
  is8 g /\ (n <= g)%Q /\
  forall h, headroom = Some h -> is8 h -> (g <= reserved + h)%Q.
Proof.
  intros Hn Hr Hr0 Hlt Hh g. split; [apply is8_round8|]. split.
  - apply round8_ge; [done|]. destruct headroom as [h|]; unfold headroom_lt in Hh.
    + q_tests. rewrite round8_id in Hh by auto with money. q_minmax; lra.
    + q_minmax; lra.
  - intros h -> Hh8. apply round8_le; [auto with money|]. apply Q.le_min_r.
Qed.

(** Growing a hold keeps the counters exact, when [held] is the subject's open total. *)
Lemma grown_ok id r g held db :
  holds_ok db -> open_hold id db = Some r -> is8 g -> (0 <= g)%Q ->
  (held == held_sum (subject_type r) (subject_id r) db)%Q ->
  holds_ok (grown id r g held (round8 (reserved_usd r)) db).
Proof.
  intros Hok (Hr & Hs & Hex)%open_hold_Some Hg8 Hg0 Hheld. constructor.
  - intros id' r'. rewrite grown_reservations, lookup_insert.
    case_decide; [by intros [= <-]|by apply rows_ok].
  - intros st sid c. rewrite grown_counter by done. destruct (rows_ok db Hok id r Hr) as [Hr8 Hr0].
    rewrite (held_sum_update db _ st sid id r _ Hr (grown_reservations _ _ _ _ _ _)).
    case_decide as Hd.
    + intros [= <-]. injection Hd as -> ->.
      rewrite !held_amount_held by (by apply is_held_subject). simpl.
      rewrite (round8_id (reserved_usd r)) by done.
      rewrite round8_id; [rewrite Hheld; ring|].
      rewrite Hheld. auto using held_sum_is8, rows_ok with money.
    + intros Hc. rewrite !held_amount_not by by rewrite is_held_subject.
      rewrite (counters_exact db Hok _ _ _ Hc). ring.
Qed.

Lemma open_hold_reconciled id db r st sid :
  open_hold id db = Some r -> open_hold id (reconciled st sid db) = Some r.
Proof.
  intros (Hr & Hs & Hex)%open_hold_Some. unfold open_hold, subject_exists.
  rewrite reconciled_reservations, Hr; simpl. rewrite !bool_decide_eq_true_2; [done..|].
  rewrite reconciled_counter. case_decide; [by apply fmap_is_Some|done].
Qed.

Lemma extend_preserves id needed : preserves holds_ok (extend_hold id needed).
Proof.
  intros db Hok. destruct id as [id|]; [|done].
  destruct (decide (id = EmptyString)) as [->|Hid]; [by destruct needed|].
  destruct needed as [needed|]; [|by destruct id].
  destruct (open_hold id db) as [r|] eqn:Ho; [|by rewrite extend_hold_closed].
  destruct (open_hold_balance id db r Ho) as (limit & used & held & unlimited & Hb).
  rewrite (extend_hold_spec id needed db r limit used held unlimited Hid Ho Hb).
  apply balance_of_counters in Hb as [Hc _]. pose proof (counters_exact db Hok _ _ _ Hc) as Hheld.
  apply open_hold_Some in Ho as Hr. destruct Hr as (Hr & _). apply (rows_ok db Hok) in Hr as [Hr8 Hr0].
  assert (Hres : (0 <= round8 (reserved_usd r))%Q) by (by rewrite round8_id).
  destruct (Qle_bool _ _) eqn:Hle; [done|]. q_tests.
  destruct (headroom_lt _ _) eqn:Hh; [destruct (Qltb _ _) eqn:Hh2|].
  - by apply reconcile_preserves.
  - rewrite grow_hold_spec; simpl.
    destruct (grown_hold_bounds (round8 needed) (round8 (reserved_usd r)) (Some (round8
      (limit - used - round8 (Qmax 0 (held_sum (subject_type r) (subject_id r) db))))))
      as (Hg8 & Hge & _); auto with money.
    apply grown_ok; [by apply reconcile_preserves|by apply open_hold_reconciled|done|lra|].
    rewrite (held_sum_reservations _ _ _ _ (reconciled_reservations _ _ db)). apply rounded_sum, Hok.
  - rewrite grow_hold_spec; simpl.
    match goal with |- holds_ok (grown _ _ (grown_hold ?n ?res ?h) _ _ _) =>
      destruct (grown_hold_bounds n res h) as (Hg8 & Hge & _); auto with money end.
    apply grown_ok; try done. lra.
Qed.
#[export] Hint Resolve extend_preserves : preserves.

(** ** Properties *)

Lemma closed_stays_closed id db :
  (forall r, reservations db !! id = Some r -> status r ≠ STATUS_HELD) -> open_hold id db = None.
Proof.
  intros Hc. unfold open_hold. destruct (reservations db !! id) as [r|] eqn:Hr; [|done]. simpl.
  rewrite (bool_decide_eq_false_2 (status r = _)) by by apply Hc. by rewrite andb_false_r.
Qed.

(** A hold is charged at most once.  Settling an open hold adds the actual
    cost to its subject's spent total, takes the hold out of the reserved
    counter and touches no other subject; from then on neither [settle] nor
    [release] does anything to that reservation, whatever happened to the
    rest of the database in between. *)
Theorem settle_charges_once id actual log now db r :
  holds_ok db -> open_hold id db = Some r ->
  let st := subject_type r in let sid := subject_id r in
  exists db', settle id actual log now db = (Ok true, db') /\
    (forall used, used_counter st sid db = Some used ->
       used_counter st sid db' = Some (round8 (used + Qmax 0 actual))) /\
    (forall c, reserved_counter st sid db = Some c ->
       exists c', reserved_counter st sid db' = Some c' /\ (c' == c - reserved_usd r)%Q) /\
    (forall st' sid', (st', sid') ≠ (st, sid) ->
       reserved_counter st' sid' db' = reserved_counter st' sid' db /\
       used_counter st' sid' db' = used_counter st' sid' db) /\
    (forall db2, reservations db2 !! id = reservations db' !! id ->
       (forall actual2 log2 now2, settle id actual2 log2 now2 db2 = (Ok false, db2)) /\
       (forall expired now2, release id expired now2 db2 = (Ok false, db2))).
Proof.
  intros Hok Ho st sid. rewrite settle_spec, Ho. eexists; split; [done|].
  apply open_hold_Some in Ho as Hr. destruct Hr as (Hr & Hs & Hex).
  pose proof (close_hold_ok id db r STATUS_SETTLED (Some (Qmax 0 actual)) (Some (Qmax 0 actual)) log now
    Hok Ho ltac:(done)) as Hok'.
  set (db1 := released r (Some (Qmax 0 actual)) now db) in *.
  set (row := close_row STATUS_SETTLED _ log now r) in *.
  split; [|split; [|split]].
  - intros used Hu. change (used_counter st sid db1 = Some (round8 (used + Qmax 0 actual))).
    subst db1. rewrite used_counter_released, decide_True, Hu by done. simpl.
    by rewrite (Q.max_r 0 (Qmax 0 actual)) by apply Q.le_max_l.
  - intros c Hc. destruct (reserved_counter st sid db1) as [c'|] eqn:Hc'.
    + exists c'. split; [done|].
      rewrite (counters_exact _ Hok' st sid c' Hc'), (counters_exact _ Hok _ _ _ Hc).
      rewrite (held_sum_update db (with_reservations (<[id := row]>) db1) st sid id r row Hr)
        by (subst db1; simpl; by rewrite reservations_released).
      rewrite held_amount_held, held_amount_not by (by apply is_held_subject || by apply close_row_not_held).
      ring.
    + subst db1. rewrite reserved_counter_released, decide_True, Hc in Hc' by done. done.
  - intros st' sid' Hne. split;
      [change (reserved_counter st' sid' db1 = reserved_counter st' sid' db)
      |change (used_counter st' sid' db1 = used_counter st' sid' db)]; subst db1.
    + by rewrite reserved_counter_released, decide_False.
    + by rewrite used_counter_released, decide_False.
  - intros db2 Hrow. assert (Hnone : open_hold id db2 = None).
    { apply closed_stays_closed. intros r'. rewrite Hrow. simpl. rewrite lookup_insert_eq.
      by intros [= <-]. }
    split; intros; by rewrite ?settle_spec, ?release_spec, Hnone.
Qed.

(** A granted growth is real and paid for.  When [extend_hold] returns an
    amount for an open hold, it covers what was asked, the reservation row
    holds exactly that amount, and a limited subject's spent and reserved
    money stay within its limit (to 1e-8), unless they were past it before
    and the hold was already large enough. *)
Theorem extend_hold_granted id needed db db' r g limit used held unlimited :
  rows_wf db -> id ≠ EmptyString -> open_hold id db = Some r ->
  balance_of (subject_type r) (subject_id r) db = Some (limit, used, held, unlimited) ->
  extend_hold (Some id) (Finite needed) db = (Ok (Some g), db') ->
  (round8 needed <= g)%Q /\
  (exists r', open_hold id db' = Some r' /\ (reserved_usd r' == g)%Q) /\
  (unlimited = false -> exists c',
     reserved_counter (subject_type r) (subject_id r) db' = Some c' /\
     (used + c' <= Qmax (used + held) (limit + (1 # cents8)))%Q).
Proof.
  intros Hok Hid Ho Hb. rewrite (extend_hold_spec id needed db r limit used held unlimited Hid Ho Hb).
  apply open_hold_Some in Ho as Hr. destruct Hr as (Hr & Hs & Hex).
  apply Hok in Hr as Hr8. destruct Hr8 as [Hr8 Hr0].
  apply balance_of_counters in Hb as [Hc _].
  assert (Hres : (0 <= round8 (reserved_usd r))%Q) by (by rewrite round8_id).
  set (sum := round8 (Qmax 0 (held_sum (subject_type r) (subject_id r) db))).
  assert (Hgrant : forall h db1, rows_wf db1 -> open_hold id db1 = Some r ->
    let hr := if unlimited then None else Some (round8 (limit - used - h)) in
    headroom_lt hr (round8 (round8 needed - round8 (reserved_usd r))) = false ->
    (round8 (reserved_usd r) < round8 needed)%Q ->
    grow_hold id r (round8 needed) (round8 (reserved_usd r)) h hr db1 = (Ok (Some g), db') ->
    (round8 needed <= g)%Q /\ (exists r', open_hold id db' = Some r' /\ (reserved_usd r' == g)%Q) /\
    (unlimited = false -> exists c', reserved_counter (subject_type r) (subject_id r) db' = Some c' /\
       (used + c' <= limit + (1 # cents8)))%Q).
  { intros h db1 Hok1 Ho1 hr Hh Hlt. rewrite grow_hold_spec.
    destruct (grown_hold_bounds _ _ hr (is8_round8 needed) (is8_round8 _) Hres Hlt Hh) as (Hg8 & Hge & Hle).
    set (g' := grown_hold _ _ _) in *. intros [= <- <-].
    apply open_hold_Some in Ho1 as (Hr1 & _ & Hex1). split; [done|split].
    - exists (set_row_reserved g' r). split; [|done]. unfold open_hold, subject_exists.
      rewrite grown_reservations, lookup_insert_eq; simpl. rewrite !bool_decide_eq_true_2; [done..|].
      by rewrite grown_counter, decide_True by done.
    - intros ->. eexists. rewrite grown_counter, decide_True by done. split; [done|].
      specialize (Hle _ eq_refl (is8_round8 _)).
      pose proof (round8_err (limit - used - h)). pose proof (round8_err (h + g' - round8 (reserved_usd r))).
      unfold half_unit, cents8 in *. lra. }
  destruct (Qle_bool _ _) eqn:Hle; [|q_tests].
  - intros [= <- <-]. q_tests. split; [done|]. split.
    + exists r. split; [done|]. by rewrite round8_id.
    + intros _. exists held. split; [done|]. apply Q.le_max_l.
  - destruct (headroom_lt _ _) eqn:Hh; [destruct (Qltb _ _) eqn:Hh2; [done|]|]; intros Hg.
    + assert (unlimited = false) as -> by by destruct unlimited.
      destruct (Hgrant sum (reconciled (subject_type r) (subject_id r) db)) as (H1 & H2 & H3); try done.
      * intros id' r'. rewrite reconciled_reservations. by apply Hok.
      * by apply open_hold_reconciled.
      * split; [done|]. split; [done|]. intros Hu. destruct (H3 Hu) as (c' & ? & ?).
        exists c'. split; [done|]. eapply Qle_trans; [done|apply Q.le_max_r].
    + destruct (Hgrant held db) as (H1 & H2 & H3); try done.
      split; [done|]. split; [done|]. intros Hu. destruct (H3 Hu) as (c' & ? & ?).
      exists c'. split; [done|]. eapply Qle_trans; [done|apply Q.le_max_r].
Qed.

(** [extend_hold] refuses an open hold only when the money is not there.
    However far the reserved counter had drifted, a refusal means a limit
    applies and what is left of it after the spent total and the open holds
    themselves is less than the growth asked for. *)
Theorem extend_hold_refused id needed db db' r limit used held unlimited :
  rows_wf db -> id ≠ EmptyString -> open_hold id db = Some r ->
  balance_of (subject_type r) (subject_id r) db = Some (limit, used, held, unlimited) ->
  extend_hold (Some id) (Finite needed) db = (Ok None, db') ->
  unlimited = false /\
  (limit - used - held_sum (subject_type r) (subject_id r) db
     < round8 needed - reserved_usd r + half_unit)%Q.
Proof.
  intros Hok Hid Ho Hb. rewrite (extend_hold_spec id needed db r limit used held unlimited Hid Ho Hb).
  apply open_hold_Some in Ho as (Hr & _ & _). apply Hok in Hr as [Hr8 Hr0].
  destruct (Qle_bool _ _) eqn:Hle; [done|].
  destruct (headroom_lt _ _) eqn:Hh; [|by rewrite grow_hold_spec].
  destruct (Qltb _ _) eqn:Hh2; [|by rewrite grow_hold_spec]. intros _.
  assert (unlimited = false) as -> by by destruct unlimited. split; [done|].
  q_tests. pose proof (round8_id (round8 needed - round8 (reserved_usd r)) ltac:(auto with money)) as He.
  pose proof (round8_id (reserved_usd r) Hr8) as Hr8'.
  pose proof (rounded_sum db (subject_type r) (subject_id r) Hok) as Hsum.
  pose proof (round8_err (limit - used - round8 (Qmax 0 (held_sum (subject_type r) (subject_id r) db)))).
  unfold half_unit in *. lra.
Qed.

(** ** Closing and reconciling many *)

Lemma subject_exists_close id db r st' actual actual' log now st sid :
  subject_exists st sid (with_reservations (<[id := close_row st' actual' log now r]>) (released r actual now db))
  = subject_exists st sid db.
Proof.
  unfold subject_exists. apply bool_decide_ext.
  change (is_Some (reserved_counter st sid (released r actual now db)) <-> is_Some (reserved_counter st sid db)).
  rewrite reserved_counter_released. case_decide; [by rewrite fmap_is_Some|done].
Qed.

(** What [release(expired=True)] leaves of a row. *)
Definition expired_row (now : Z) (db : DB) (id : string) : option BudgetReservation :=
  match open_hold id db with
  | Some r => Some (close_row STATUS_EXPIRED (actual_usd r) (request_log_id r) now r)
  | None => reservations db !! id
  end.

Lemma release_open_hold_other id id' db now :
  id ≠ id' -> open_hold id' (release id true now db).2 = open_hold id' db.
Proof.
  intros Hne. rewrite release_spec. destruct (open_hold id db) as [r|] eqn:Ho; [|done]. cbn [snd].
  unfold open_hold. simpl. rewrite lookup_insert_ne, reservations_released by done.
  destruct (reservations db !! id') as [r'|]; [|done]. simpl.
  by rewrite subject_exists_close.
Qed.

Lemma release_all_spec ids now db :
  NoDup ids ->
  exists db', for_each (fun id => release id true now) ids db =
      (Ok ((fun id => bool_decide (is_Some (open_hold id db))) <$> ids), db') /\
    (forall id, reservations db' !! id = if decide (id ∈ ids) then expired_row now db id else reservations db !! id) /\
    (forall st sid, subject_exists st sid db' = subject_exists st sid db).
Proof.
  revert db. induction ids as [|id ids IH]; intros db Hnd; [by exists db|].
  apply NoDup_cons in Hnd as [Hid Hnd]. cbn [for_each].
  set (db1 := (release id true now db).2).
  assert (Hrel : release id true now db = (Ok (bool_decide (is_Some (open_hold id db))), db1)).
  { subst db1. rewrite release_spec. by destruct (open_hold id db). }
  rewrite (op_bind_ok _ _ _ _ _ Hrel).
  destruct (IH db1 Hnd) as (db' & Hrun & Hrows & Hsub). rewrite (op_bind_ok _ _ _ _ _ Hrun).
  assert (Hother : forall id', id' ≠ id -> open_hold id' db1 = open_hold id' db /\
                                          reservations db1 !! id' = reservations db !! id').
  { intros id' Hne. split; [by apply release_open_hold_other|]. subst db1. rewrite release_spec.
    destruct (open_hold id db); [|done]. simpl. by rewrite lookup_insert_ne, reservations_released. }
  exists db'. split; [|split].
  - unfold mret, op_ret. do 3 f_equal. simpl. f_equal. apply list_fmap_ext. intros i x Hx.
    assert (Hne : x ≠ id) by (intros ->; apply Hid; by apply list_elem_of_lookup_2 in Hx).
    by rewrite (proj1 (Hother x Hne)).
  - intros id'. rewrite Hrows. destruct (decide (id' = id)) as [->|Hne].
    + rewrite decide_False, decide_True by (done || by left). subst db1. unfold expired_row. rewrite release_spec.
      destruct (open_hold id db); [|done]. simpl. by rewrite lookup_insert_eq.
    + unfold expired_row. rewrite (proj1 (Hother id' Hne)), (proj2 (Hother id' Hne)).
      assert (id' ∈ ids <-> id' ∈ id :: ids) as Hin by (rewrite elem_of_cons; naive_solver).
      by rewrite (decide_ext _ _ _ _ Hin).
  - intros st sid. rewrite Hsub. subst db1. rewrite release_spec. destruct (open_hold id db); [|done].
    apply subject_exists_close.
Qed.

Lemma NoDup_table_ids {V} (m : gmap string V) (P : string * V -> Prop) `{forall x, Decision (P x)} :
  NoDup (filter P (map_to_list m)).*1.
Proof.
  eapply sublist_NoDup; [apply (NoDup_fst_map_to_list m)|]. by apply fmap_sublist, sublist_filter.
Qed.

Lemma elem_of_table_ids {V} (m : gmap string V) (P : string * V -> Prop) `{forall x, Decision (P x)} id :
  id ∈ (filter P (map_to_list m)).*1 <-> exists x, m !! id = Some x /\ P (id, x).
Proof.
  rewrite list_elem_of_fmap. split.
  - intros ([k x] & -> & [Hp Hin]%list_elem_of_filter). exists x. by apply elem_of_map_to_list in Hin.
  - intros (x & Hx & Hp). exists (id, x). rewrite list_elem_of_filter, elem_of_map_to_list. done.
Qed.

(** expiry reclaims exactly the lapsed holds.  [expire_stale_reservations]
    marks expired every held row whose lease ended before [now] and whose
    subject still has a row, leaves every other reservation as it was, and
    returns how many it closed; only a hold whose subject is gone stays held. *)
Theorem expire_stale_correct now db :
  exists db' n, expire_stale_reservations now db = (Ok n, db') /\
    (forall id, reservations db' !! id =
       match reservations db !! id with
       | Some r =>
           if decide (status r = STATUS_HELD /\ row_expires_at r < now) then expired_row now db id else Some r
       | None => None
       end) /\
    (forall id r, reservations db' !! id = Some r -> status r = STATUS_HELD -> row_expires_at r < now ->
       subject_exists (subject_type r) (subject_id r) db = false).
Proof.
  unfold expire_stale_reservations.
  set (P := fun kv : string * BudgetReservation => status kv.2 = STATUS_HELD /\ row_expires_at kv.2 < now).
  rewrite (op_bind_ok _ _ db (filter P (map_to_list (reservations db))).*1 db) by done.
  destruct (release_all_spec _ now db (NoDup_table_ids (reservations db) P)) as (db' & Hrun & Hrows & _).
  rewrite (op_bind_ok _ _ _ _ _ Hrun). eexists db', _. split; [done|].
  assert (Hall : forall id, reservations db' !! id =
       match reservations db !! id with
       | Some r => if decide (status r = STATUS_HELD /\ row_expires_at r < now) then expired_row now db id else Some r
       | None => None
       end).
  { intros id. rewrite Hrows. destruct (reservations db !! id) as [r|] eqn:Hr.
    - apply decide_ext. rewrite elem_of_table_ids. unfold P. rewrite Hr. naive_solver.
    - rewrite decide_False; [done|]. rewrite elem_of_table_ids. naive_solver. }
  split; [done|]. intros id r. rewrite Hall. destruct (reservations db !! id) as [r0|] eqn:Hr; [|done].
  case_decide as Hd; [|naive_solver]. unfold expired_row, open_hold. rewrite Hr. simpl.
  destruct (subject_exists (subject_type r0) (subject_id r0) db) eqn:Hex; simpl; [|by intros [= <-]].
  rewrite bool_decide_eq_true_2 by apply Hd. by intros [= <-].
Qed.

Lemma reconcile_all_spec st ids db :
  exists db' qs, for_each (fun kv : Z * Q => reconcile_subject_reserved st kv.1) ids db = (Ok qs, db') /\
    reservations db' = reservations db /\
    (forall st' sid', reserved_counter st' sid' db' =
       if decide (st' = st /\ sid' ∈ ids.*1)
       then (fun _ => round8 (Qmax 0 (held_sum st sid' db))) <$> reserved_counter st' sid' db
       else reserved_counter st' sid' db).
Proof.
  revert db. induction ids as [|[sid d] ids IH]; intros db.
  - exists db, []. split; [done|]. split; [done|]. intros st' sid'. rewrite decide_False; [done|].
    intros [_ Hin]. by apply not_elem_of_nil in Hin.
  - cbn [for_each fst].
    assert (Hrec : exists q, reconcile_subject_reserved st sid db = (Ok q, reconciled st sid db))
      by (unfold reconciled; rewrite reconcile_spec; eauto).
    destruct Hrec as [q Hrec]. rewrite (op_bind_ok _ _ _ _ _ Hrec).
    destruct (IH (reconciled st sid db)) as (db' & qs & Hrun & Hres & Hc).
    rewrite (op_bind_ok _ _ _ _ _ Hrun). exists db', (q :: qs). split; [done|].
    rewrite Hres, reconciled_reservations. split; [done|]. intros st' sid'.
    rewrite Hc, reconciled_counter, (held_sum_reservations st sid' _ _ (reconciled_reservations st sid db)).
    change (((sid, d) :: ids).*1) with (sid :: ids.*1).
    destruct (decide (st' = st /\ sid' ∈ ids.*1)) as [[-> Hin]|Hn].
    + rewrite (decide_True (P := st = st /\ _)) by (split; [done|by right]).
      case_decide as Hd; [injection Hd as ->|done]. by destruct (reserved_counter _ _ db).
    + destruct (decide ((st', sid') = (st, sid))) as [Heq|Hne].
      * injection Heq as -> ->. rewrite decide_True by (split; [done|by left]). done.
      * rewrite decide_False; [done|]. intros [-> [->|Hin]%elem_of_cons]; naive_solver.
Qed.

(** The subjects the drift query reports are all those out of tolerance. *)
Lemma drifted_spec st db :
  st = SUBJECT_USER \/ st = SUBJECT_ALPHA_ROUTER_KEY -> rows_wf db ->
  exists l, _drifted_subject_ids st db = (Ok l, db) /\
    forall sid c, reserved_counter st sid db = Some c -> sid ∉ l.*1 ->
      (c - held_sum st sid db <= drift_tolerance)%Q.
Proof.
  intros Hst Hok. eexists. split; [done|]. intros sid c Hc Hnot.
  pose proof (held_sum_nonneg db st sid Hok) as Hsum.
  destruct (Qltb drift_tolerance c) eqn:H1; [|q_tests; lra].
  destruct (Qltb drift_tolerance (c - held_sum st sid db)) eqn:H2; [|by q_tests].
  exfalso. apply Hnot. apply list_elem_of_fmap. exists (sid, (c - held_sum st sid db)%Q). split; [done|].
  apply list_elem_of_filter. split; [done|]. apply list_elem_of_fmap. exists (sid, c). split; [done|].
  apply list_elem_of_filter. split; [done|]. revert Hc. unfold reserved_counter.
  case_decide; [|rewrite decide_True by naive_solver]; intros (x & Hx & ->)%fmap_Some;
    apply list_elem_of_fmap; exists (sid, x); by rewrite elem_of_map_to_list.
Qed.

Lemma reserved_counter_subject st sid db c :
  reserved_counter st sid db = Some c -> st = SUBJECT_USER \/ st = SUBJECT_ALPHA_ROUTER_KEY.
Proof. unfold reserved_counter. repeat case_decide; naive_solver. Qed.

Lemma reconciled_within_tolerance st sid db :
  rows_wf db -> (round8 (Qmax 0 (held_sum st sid db)) - held_sum st sid db <= drift_tolerance)%Q.
Proof. intros Hok. rewrite rounded_sum by done. unfold drift_tolerance. lra. Qed.

(** The counter repair leaves nothing over-reserved.  When
    [reconcile_drifted_reserved_counters] holds its lock, afterwards no user's
    and no key's reserved counter exceeds the sum of its open holds by more
    than the tolerance, whatever the counters were; no hold is touched. *)
Theorem reconcile_drifted_repairs db :
  rows_wf db ->
  exists db' out, reconcile_drifted_reserved_counters true db = (Ok out, db') /\
    reservations db' = reservations db /\
    forall st sid c, reserved_counter st sid db' = Some c ->
      (c - held_sum st sid db' <= drift_tolerance)%Q.
Proof.
  intros Hok. unfold reconcile_drifted_reserved_counters; cbn [negb].
  destruct (drifted_spec SUBJECT_USER db) as (us & Hus & Hu); [by left|done|].
  rewrite (op_bind_ok _ _ _ _ _ Hus).
  destruct (reconcile_all_spec SUBJECT_USER us db) as (db1 & qs1 & Hrun1 & Hres1 & Hc1).
  rewrite (op_bind_ok _ _ _ _ _ Hrun1).
  assert (Hok1 : rows_wf db1) by (intros id r; rewrite Hres1; apply Hok).
  destruct (drifted_spec SUBJECT_ALPHA_ROUTER_KEY db1) as (ks & Hks & Hk); [by right|done|].
  rewrite (op_bind_ok _ _ _ _ _ Hks).
  destruct (reconcile_all_spec SUBJECT_ALPHA_ROUTER_KEY ks db1) as (db2 & qs2 & Hrun2 & Hres2 & Hc2).
  rewrite (op_bind_ok _ _ _ _ _ Hrun2). eexists db2, _. split; [done|]. split; [congruence|].
  intros st sid c. rewrite Hc2, (held_sum_reservations _ _ _ _ Hres2). case_decide as Hd.
  - destruct Hd as [-> _]. intros (c0 & _ & ->)%fmap_Some. by apply reconciled_within_tolerance.
  - intros Hc. rewrite Hc1 in Hc. rewrite (held_sum_reservations _ _ _ _ Hres1).
    case_decide as Hd1; [destruct Hd1 as [-> _]; apply fmap_Some in Hc as (c0 & _ & ->);
      by apply reconciled_within_tolerance|].
    destruct (reserved_counter_subject st sid db c Hc) as [->| ->].
    + apply (Hu sid c Hc). naive_solver.
    + rewrite <- (held_sum_reservations _ _ _ _ Hres1). apply (Hk sid c); [|naive_solver].
      rewrite Hc1. by rewrite decide_False by naive_solver.
Qed.

(** ** A concrete database: one user with 10 USD a month, 2 spent, and one
    1 USD hold open *)

Definition sample_user : User := MkUser true (Some "IT") 10 2 1 (Some 0).
Definition sample_hold : BudgetReservation :=
  MkReservation SUBJECT_USER 1 [] "chat" "m" 1 None STATUS_HELD None 0 7200 None.
Definition sample_db : DB := MkDB {[1 := sample_user]} ∅ {["h1" := sample_hold]} ∅ [] [] [] [].

Lemma sample_rows_wf : rows_wf sample_db.
Proof.
  intros id r Hr. apply (lookup_singleton_Some "h1" id sample_hold r) in Hr as [_ <-].
  split; [by exists 100000000|done]. Qed.

Lemma sample_ok : holds_ok sample_db.
Proof.
  split; [apply sample_rows_wf|]. intros st sid c. unfold reserved_counter.
  repeat case_decide; [|done..].
  intros (u & Hu & ->)%fmap_Some. apply (lookup_singleton_Some 1 sid sample_user u) in Hu as [<- <-].
  subst. by vm_compute.
Qed.

Lemma settle_charges_once_witness :
  exists db', settle "h1" (1 # 2) None 5 sample_db = (Ok true, db') /\
    settle "h1" (1 # 2) None 6 db' = (Ok false, db').
Proof.
  destruct (settle_charges_once "h1" (1 # 2) None 5 sample_db sample_hold sample_ok eq_refl)
    as (db' & Hrun & _ & _ & _ & Hagain).
  exists db'. split; [exact Hrun|]. exact (proj1 (Hagain db' eq_refl) _ _ _).
Defined.

Lemma extend_hold_granted_witness :
  exists g db', extend_hold (Some "h1") (Finite 3) sample_db = (Ok (Some g), db') /\ (round8 3 <= g)%Q.
Proof.
  eexists _, _. split; [vm_compute; reflexivity|].
  refine (proj1 (extend_hold_granted "h1" 3 sample_db _ sample_hold _ 10 2 1 false
            sample_rows_wf _ eq_refl eq_refl _)); [discriminate|vm_compute; reflexivity].
Defined.

Lemma extend_hold_refused_witness :
  exists db', extend_hold (Some "h1") (Finite 12) sample_db = (Ok None, db') /\
    (10 - 2 - held_sum SUBJECT_USER 1 sample_db < round8 12 - 1 + half_unit)%Q.
Proof.
  eexists. split; [vm_compute; reflexivity|].
  refine (proj2 (extend_hold_refused "h1" 12 sample_db _ sample_hold 10 2 1 false
            sample_rows_wf _ eq_refl eq_refl _)); [discriminate|vm_compute; reflexivity].
Defined.

(** A counter that drifted to 5 USD above the one open hold. *)
Definition drifted_db : DB := with_users (alter (set_user_reserved 6) 1) sample_db.

Lemma reconcile_drifted_repairs_witness :
  exists db' out, reconcile_drifted_reserved_counters true drifted_db = (Ok out, db') /\
    (1 <= out.1)%Z.
Proof.
  destruct (reconcile_drifted_repairs drifted_db sample_rows_wf) as (db' & out & Hrun & _).
  exists db', out. split; [exact Hrun|]. revert Hrun. vm_compute. intros [= <- _]. discriminate.
Defined.
