(* ===== verification/Budgets.v ===== *)
(** * Monthly budgets: plan resolution, the budget period and its reset

    [budget_service.py].  [now] is [datetime.datetime.utcnow()] during the
    call.  A query without ORDER BY returns rows in the order of the table. *)

From S2P Require Import Prelude Text Money PyTime Accounts Holds.
From Stdlib Require Import QArith Qminmax.
#[global] Open Scope Z_scope.

Definition NO_PLAN_BUDGET_DETAIL : string :=
  "No budget plan is assigned to your account. Ask an administrator to assign a plan before you can use Alpharouter features.".
Definition BUDGET_EXCEEDED_DETAIL : string := "Monthly budget exceeded".

(** ** Which plan applies to a user *)

Definition get_user_direct_assignment (user_id : Z) (db : DB) : option PlanAssignment :=
  head (filter (fun a => pa_user_id a = Some user_id) (assignments db)).

(** [await db.get(BudgetPlan, plan_id)] *)
Definition get_plan (plan_id : option Z) (db : DB) : option BudgetPlan :=
  p ← plan_id; plans db !! p.

Definition group_ids_of (user_id : Z) (rows : list (Z * Z)) : list Z :=
  (filter (fun m => m.1 = user_id) rows).*2.

Definition in_groups (gids : list Z) (a : PlanAssignment) : bool :=
  match pa_group_id a with Some g => bool_decide (g ∈ gids) | None => false end.

(** A non-empty string, as Python's [if x:] tests it. *)
Definition truthy_str (s : option string) : option string :=
  match s with Some EmptyString => None | _ => s end.

Definition resolve_monthly_budget (user_id : Z) (user : User) (db : DB) : Q :=
  match get_user_direct_assignment user_id db with
  | Some direct =>
      match pa_plan_id direct with
      | None => 0
      | Some _ => match get_plan (pa_plan_id direct) db with
                  | Some plan => plan_monthly_budget_usd plan
                  | None => 0
                  end
      end
  | None =>
      let group_ids := group_ids_of user_id (user_group_members db) in
      let group_assign := head (List.filter (in_groups group_ids) (assignments db)) in
      match group_assign ≫= (fun a => get_plan (pa_plan_id a) db) with
      | Some plan => plan_monthly_budget_usd plan
      | None =>
          match truthy_str (user_department user) with
          | None => 0
          | Some department =>
              let dept_assign := head (filter (fun a => pa_department a = Some department) (assignments db)) in
              match dept_assign ≫= (fun a => get_plan (pa_plan_id a) db) with
              | Some plan => plan_monthly_budget_usd plan
              | None => 0
              end
          end
      end
  end.

(** ** The batch version used by admin lists and by the monthly reset *)

Record batch_acc := MkAcc {
  acc_budgets : gmap Z Q;
  explicit_none_ids : gset Z;
  assigned_direct_ids : gset Z
}.

(** A row of the outer join of assignments and plans: user, plan id, amount. *)
Definition direct_row : Type := Z * option Z * option Q.

Definition direct_rows (user_ids : list Z) (db : DB) : list direct_row :=
  omap (fun a => match pa_user_id a with
    | Some u => if decide (u ∈ user_ids)
                then Some (u, pa_plan_id a, plan_monthly_budget_usd <$> get_plan (pa_plan_id a) db) else None
    | None => None
    end) (assignments db).

Definition direct_step (acc : batch_acc) (row : direct_row) : batch_acc :=
  let '(uid, plan_id, amount) := row in
  match plan_id, amount with
  | None, _ => MkAcc (<[uid := 0%Q]> (acc_budgets acc)) ({[uid]} ∪ explicit_none_ids acc) (assigned_direct_ids acc)
  | Some _, Some amount =>
      MkAcc (<[uid := amount]> (acc_budgets acc)) (explicit_none_ids acc) ({[uid]} ∪ assigned_direct_ids acc)
  | Some _, None => acc
  end.

(** Inner join of the assignments selected by [key] with their plans. *)
Definition joined {K} (key : PlanAssignment -> option K) (db : DB) : list (K * Q) :=
  omap (fun a => (k ← key a; plan ← get_plan (pa_plan_id a) db; Some (k, plan_monthly_budget_usd plan)))
       (assignments db).

(** [for k in keys: if k in table: out = table[k]; break] *)
Fixpoint first_in {K} `{Countable K} (table : gmap K Q) (keys : list K) : option Q :=
  match keys with
  | [] => None
  | k :: keys => match table !! k with Some x => Some x | None => first_in table keys end
  end.

Definition assign_found (pick : Z -> option Q) (budgets : gmap Z Q) (uid : Z) : gmap Z Q :=
  match pick uid with Some x => <[uid := x]> budgets | None => budgets end.

Definition resolve_monthly_budgets_batch (us : list (Z * User)) (db : DB) : gmap Z Q :=
  let user_ids := us.*1 in
  let acc := foldl direct_step (MkAcc (dict_of ((fun u => (u.1, 0%Q)) <$> us)) ∅ ∅) (direct_rows user_ids db) in
  let unresolved_ids :=
    filter (fun uid => (uid ∉ explicit_none_ids acc) /\ (uid ∉ assigned_direct_ids acc)) user_ids in
  let member_rows := filter (fun m => m.1 ∈ unresolved_ids) (user_group_members db) in
  let group_ids := member_rows.*2 in
  let group_budgets :=
    dict_of (joined (fun a => if in_groups group_ids a then pa_group_id a else None) db) in
  let budgets := foldl (assign_found (fun uid => first_in group_budgets (group_ids_of uid member_rows)))
                       (acc_budgets acc) unresolved_ids in
  let dept_users := filter (fun u => u.1 ∈ unresolved_ids /\
    Qle_bool (default 0%Q (budgets !! u.1)) 0 = true /\ is_Some (truthy_str (user_department u.2))) us in
  let departments := omap (fun u => truthy_str (user_department u.2)) dept_users in
  let dept_budgets := dict_of (joined (fun a =>
    (d ← truthy_str (pa_department a); if decide (d ∈ departments) then Some d else None)) db) in
  foldl (fun budgets u => match user_department u.2 ≫= (fun d => dept_budgets !! d) with
    | Some x => <[u.1 := x]> budgets
    | None => budgets
    end) budgets dept_users.

(** ** Spend gates *)

(** [None] when spending may go on, else the detail of the refusal. *)
Definition budget_request_blocked (budget usage : Q) : option string :=
  if Qle_bool budget 0 then Some NO_PLAN_BUDGET_DETAIL
  else if Qle_bool budget usage then Some BUDGET_EXCEEDED_DETAIL
  else None.

(** ** The budget period *)

(** [not start or start < month_start] *)
Definition period_stale (start : option Z) (month : Z) : bool :=
  match start with None => true | Some s => s <? month end.

Definition get_month_usage (user_id now : Z) (db : DB) : Q :=
  let month := month_start now in
  let start := match users db !! user_id ≫= budget_period_start with
    | Some s => if month <? s then s else month
    | None => month
    end in
  let ledger_total := Qsum ((fun e => le_amount_usd e) <$>
    filter (fun e => le_subject_type e = "user" /\ le_subject_id e = user_id /\ start <= le_effective_at e)
           (ledger_entries db)) in
  let legacy_total := Qsum ((fun l => rl_total_cost_usd l) <$>
    filter (fun l => rl_user_id l = Some user_id /\ start <= rl_request_time l /\ rl_usage_operation_id l = None)
           (request_logs db)) in
  Qmax 0 (ledger_total + legacy_total).

Definition update_user (user_id : Z) (f : User -> User) : op DB unit :=
  modify (with_users (alter f user_id)).

(** [snapshot] is the period start of the instance the caller passes, which
    may be older than the row. *)
Definition ensure_budget_period (user_id : Z) (snapshot : option Z) (now : Z) : op DB unit :=
  let month := month_start now in
  let sync :=
    user ← gets (fun db => users db !! user_id);
    match user with
    | None => mret tt
    | Some user =>
        budget ← gets (resolve_monthly_budget user_id user);
        update_user user_id (set_user_budget budget)
    end in
  if period_stale snapshot month then
    locked ← gets (fun db => users db !! user_id);
    match locked with
    | None => mret tt
    | Some user =>
        if period_stale (budget_period_start user) month then
          _ ← release_open_holds_for_subject SUBJECT_USER user_id now;
          _ ← update_user user_id (set_user_period month);
          usage ← gets (get_month_usage user_id now);
          _ ← update_user user_id (set_user_used usage);
          _ ← update_user user_id (set_user_reserved 0);
          sync
        else sync
    end
  else sync.

(** [loaded] is the instance the caller passes.  The session keeps one instance
    per row, so it holds what the row holds once it was locked or written; when
    the row is gone, a period that is over leaves it as it was loaded, and one
    that is not fails when the new budget is flushed. *)
Definition get_user_budget_state (user_id : Z) (loaded : User) (now : Z) : op DB (Q * Q) :=
  _ ← ensure_budget_period user_id (budget_period_start loaded) now;
  row ← gets (fun db => users db !! user_id);
  let answer (user : User) :=
    budget ← gets (resolve_monthly_budget user_id user);
    mret (budget, budget_used_usd user + budget_reserved_usd user)%Q in
  match row with
  | Some user => answer user
  | None =>
      if period_stale (budget_period_start loaded) (month_start now) then answer loaded
      else raise (OtherError "StaleDataError")
  end.

(** ** The monthly reset *)

Definition MONTHLY_RESET_BATCH_SIZE : nat := 500.

Definition _apply_period_reset (period_start : Z) (monthly_budget : Q) (u : User) : User :=
  MkUser (user_is_active u) (user_department u) monthly_budget 0 0 (Some period_start).

Section reset.
(** Whether processing a user raises (a row the database rejects). *)
Variable fails : Z -> bool.

Definition may_fail (user_id : Z) : op DB unit :=
  if fails user_id then raise (OtherError "bad row") else mret tt.

Definition _reset_batch_individually (user_ids : list Z) (period_start now : Z) : op DB Z :=
  done ← for_each (fun user_id =>
    user ← gets (fun db => users db !! user_id);
    match user with
    | None => mret false
    | Some user =>
        try_commit
          (_ ← release_open_holds_for_subject SUBJECT_USER user_id now;
           _ ← may_fail user_id;
           budget ← gets (resolve_monthly_budget user_id user);
           _ ← update_user user_id (_apply_period_reset period_start budget);
           mret true)
          (fun _ => mret false)
    end) user_ids;
  mret (count_true done).

Definition reset_batch (batch : list (Z * User)) (period_start now : Z) : op DB Z :=
  budgets ← gets (resolve_monthly_budgets_batch batch);
  _ ← for_each (fun u : Z * User =>
    _ ← release_open_holds_for_subject SUBJECT_USER u.1 now;
    _ ← may_fail u.1;
    update_user u.1 (_apply_period_reset period_start (default 0%Q (budgets !! u.1)))) batch;
  mret (Z.of_nat (length batch)).

(** [select(User).where(User.id > last_id).order_by(User.id).limit(500)] *)
Definition next_batch (last_id : Z) (db : DB) : list (Z * User) :=
  take MONTHLY_RESET_BATCH_SIZE
    (sort_by fst (filter (fun kv => last_id < kv.1) (map_to_list (users db)))).

(** [None] when the fuel runs out. *)
Fixpoint reset_loop (fuel : nat) (last_id count now : Z) : op DB (option Z) :=
  match fuel with
  | O => mret None
  | S fuel =>
      batch ← gets (next_batch last_id);
      match last batch with
      | None => mret (Some count)
      | Some (last_id, _) =>
          n ← try_commit (reset_batch batch (month_start now) now)
                (fun _ => _reset_batch_individually batch.*1 (month_start now) now);
          if decide (length batch < MONTHLY_RESET_BATCH_SIZE)%nat then mret (Some (count + n))
          else reset_loop fuel last_id (count + n) now
      end
  end.

Definition reset_all_monthly_budgets (fuel : nat) (now : Z) : op DB (option Z) :=
  reset_loop fuel 0 0 now.
End reset.
