(* ===== verification/BudgetsFacts.v ===== *)
(** * Facts about monthly budgets

    What closing a subject's holds leaves alone, the rollover of a budget
    period, the monthly reset, and the agreement of the two ways a user's
    plan is resolved. *)

From S2P Require Import Prelude Text Money PyTime Accounts Holds HoldsFacts Budgets.
From Stdlib Require Import QArith Qminmax Lqa.
#[global] Open Scope Z_scope.

(** ** The frame of the hold operations on one subject *)

(** Everything [release] and [reconcile] on a subject's holds leave as it was:
    all tables but the reservations, up to that subject's reserved counter. *)
Record hold_frame (st : string) (sid : Z) (db db' : DB) : Prop := {
  fr_plans : plans db' = plans db;
  fr_assignments : assignments db' = assignments db;
  fr_members : user_group_members db' = user_group_members db;
  fr_ledger : ledger_entries db' = ledger_entries db;
  fr_logs : request_logs db' = request_logs db;
  fr_users : forall u, exists f, users db' !! u = f <$> users db !! u /\
    (f = id \/ (st = SUBJECT_USER /\ u = sid /\ exists c, f = set_user_reserved c));
  fr_keys : forall k, exists f, api_keys db' !! k = f <$> api_keys db !! k /\
    (f = id \/ (st = SUBJECT_ALPHA_ROUTER_KEY /\ k = sid /\ exists c, f = set_key_reserved c))
}.

Lemma hold_frame_refl st sid db : hold_frame st sid db db.
Proof.
  constructor; try done; intros i; exists id; (split; [by rewrite option_fmap_id|by left]).
Qed.

Lemma hold_frame_trans st sid db1 db2 db3 :
  hold_frame st sid db1 db2 -> hold_frame st sid db2 db3 -> hold_frame st sid db1 db3.
Proof.
  intros [] []; constructor; try congruence; intros i.
  - destruct (fr_users0 i) as (f & Hf & Hf'), (fr_users1 i) as (g & Hg & Hg').
    exists (g ∘ f). split; [by rewrite Hg, Hf, option_fmap_compose|].
    destruct Hf' as [->|(-> & -> & c & ->)], Hg' as [->|(Ha & Hb & c' & ->)]; [by left|right..]; eauto.
  - destruct (fr_keys0 i) as (f & Hf & Hf'), (fr_keys1 i) as (g & Hg & Hg').
    exists (g ∘ f). split; [by rewrite Hg, Hf, option_fmap_compose|].
    destruct Hf' as [->|(-> & -> & c & ->)], Hg' as [->|(Ha & Hb & c' & ->)]; [by left|right..]; eauto.
Qed.

Lemma hold_frame_reservations st sid f db : hold_frame st sid db (with_reservations f db).
Proof.
  constructor; try done; intros i; exists id; (split; [by rewrite option_fmap_id|by left]).
Qed.

Lemma hold_frame_user sid c db :
  hold_frame SUBJECT_USER sid db (with_users (alter (set_user_reserved c) sid) db).
Proof.
  constructor; try done; intros i; simpl.
  - rewrite lookup_alter. case_decide; [subst|exists id; split; [by rewrite option_fmap_id|by left]].
    eexists; split; [done|]. right. eauto.
  - exists id. split; [by rewrite option_fmap_id|by left].
Qed.

Lemma hold_frame_key sid c db :
  hold_frame SUBJECT_ALPHA_ROUTER_KEY sid db (with_api_keys (alter (set_key_reserved c) sid) db).
Proof.
  constructor; try done; intros i; simpl.
  - exists id. split; [by rewrite option_fmap_id|by left].
  - rewrite lookup_alter. case_decide; [subst|exists id; split; [by rewrite option_fmap_id|by left]].
    eexists; split; [done|]. right. eauto.
Qed.

(** A user whose row changes by a function of its own reserved counter. *)
Lemma hold_frame_released row now db :
  hold_frame (subject_type row) (subject_id row) db (released row None now db).
Proof.
  rewrite released_eq. case_decide as Hu; [|case_decide as Hk; [|apply hold_frame_refl]].
  - rewrite Hu. constructor; try done; intros i; simpl; [|exists id; split; [by rewrite option_fmap_id|by left]].
    rewrite lookup_alter. case_decide; [subst|exists id; split; [by rewrite option_fmap_id|by left]].
    destruct (users db !! subject_id row) as [u|] eqn:Hx; simpl.
    + exists (set_user_reserved (round8 (Qmax 0 (budget_reserved_usd u - Qmax 0 (reserved_usd row))))).
      split; [done|]. right. eauto.
    + exists id. split; [done|by left].
  - rewrite Hk. constructor; try done; intros i; simpl; [exists id; split; [by rewrite option_fmap_id|by left]|].
    rewrite lookup_alter. case_decide; [subst|exists id; split; [by rewrite option_fmap_id|by left]].
    destruct (api_keys db !! subject_id row) as [k|] eqn:Hx; simpl.
    + exists (set_key_reserved (round8 (Qmax 0 (period_reserved_usd k - Qmax 0 (reserved_usd row))))).
      split; [done|]. right. eauto.
    + exists id. split; [done|by left].
Qed.

Lemma hold_frame_reconciled st sid db : hold_frame st sid db (reconciled st sid db).
Proof.
  unfold reconciled. rewrite reconcile_spec; cbn [snd]. destruct (subject_exists st sid db) eqn:Hex; [|apply hold_frame_refl].
  rewrite set_subject_reserved_spec; cbn [snd]. apply bool_decide_eq_true in Hex.
  case_decide as Hu; [rewrite Hu; apply hold_frame_user|].
  destruct Hex as [c [->|Hk]%reserved_counter_subject]; [done|]. rewrite Hk. apply hold_frame_key.
Qed.

Lemma hold_frame_release id now db r st sid :
  reservations db !! id = Some r -> subject_type r = st -> subject_id r = sid ->
  hold_frame st sid db (release id true now db).2.
Proof.
  intros Hr <- <-. rewrite release_spec. destruct (open_hold id db) as [r'|] eqn:Ho; [|apply hold_frame_refl].
  apply open_hold_Some in Ho as (Hr' & _). rewrite Hr in Hr'. injection Hr' as <-. cbn [snd].
  eapply hold_frame_trans; [apply hold_frame_released|apply hold_frame_reservations].
Qed.

Lemma hold_frame_release_all st sid now ids db :
  Forall (fun id => exists r, reservations db !! id = Some r /\ subject_of r = (st, sid)) ids ->
  hold_frame st sid db (for_each (fun id => release id true now) ids db).2.
Proof.
  revert db. induction ids as [|id ids IH]; intros db Hids; [apply hold_frame_refl|].
  apply Forall_cons in Hids as [(r & Hr & [= Hs1 Hs2]) Hids]. cbn [for_each].
  assert (Hrel : exists b, release id true now db = (Ok b, (release id true now db).2)).
  { rewrite release_spec. destruct (open_hold id db); eauto. }
  destruct Hrel as [b Hrel]. pose proof (hold_frame_release id now db r st sid Hr Hs1 Hs2) as Hf.
  rewrite (op_bind_ok _ _ _ _ _ Hrel). set (db1 := (release id true now db).2) in *.
  assert (Hids1 : Forall (fun id => exists r, reservations db1 !! id = Some r /\ subject_of r = (st, sid)) ids).
  { eapply Forall_impl; [exact Hids|]. intros id' (r' & Hr' & Hs'). subst db1.
    rewrite release_spec. destruct (open_hold id db) as [r0|] eqn:Ho; [|by exists r']. cbn [snd]. simpl.
    rewrite reservations_released. destruct (decide (id' = id)) as [->|].
    - rewrite lookup_insert_eq. eexists; split; [done|]. apply open_hold_Some in Ho as (Hr0 & _).
      rewrite Hr in Hr0. injection Hr0 as <-. unfold subject_of; simpl. congruence.
    - rewrite lookup_insert_ne by done. by exists r'. }
  specialize (IH db1 Hids1). eapply hold_frame_trans; [exact Hf|].
  unfold mbind, op_bind. destruct (for_each _ ids db1) as [[bs|e] db2]; exact IH.
Qed.

Lemma release_all_rows_wf ids now : preserves rows_wf (for_each (fun id => release id true now) ids).
Proof.
  apply preserves_for_each. intros id db Hok. rewrite release_spec.
  destruct (open_hold id db) as [r|] eqn:Ho; [|done]. cbn [snd]. intros id' r'. simpl.
  rewrite reservations_released, lookup_insert. apply open_hold_Some in Ho as (Hr & _).
  case_decide; [intros [= <-]; apply (Hok id r Hr)|by apply Hok].
Qed.

(** Closing all of a subject's holds always ends normally, and writes that
    subject's rows and counter only. *)
Lemma release_open_holds_run st sid now db :
  exists n db1, release_open_holds_for_subject st sid now db = (Ok n, reconciled st sid db1) /\
    hold_frame st sid db (reconciled st sid db1) /\
    (rows_wf db -> rows_wf (reconciled st sid db1)) /\
    (forall id, reservations (reconciled st sid db1) !! id =
       match reservations db !! id with
       | Some r => if decide (is_held st sid r) then expired_row now db id else Some r
       | None => None
       end).
Proof.
  unfold release_open_holds_for_subject. rewrite (op_bind_ok _ _ _ _ _ (lock_subject_spec st sid db)).
  set (P := fun kv : string * BudgetReservation => is_held st sid kv.2).
  set (ids := (filter P (map_to_list (reservations db))).*1).
  rewrite (op_bind_ok _ _ db ids db) by done.
  destruct (release_all_spec ids now db (NoDup_table_ids _ P)) as (db1 & Hrun & Hrows & _).
  rewrite (op_bind_ok _ _ _ _ _ Hrun).
  assert (Hrec : exists q, reconcile_subject_reserved st sid db1 = (Ok q, reconciled st sid db1))
    by (unfold reconciled; rewrite reconcile_spec; eauto).
  destruct Hrec as [q Hrec]. rewrite (op_bind_ok _ _ _ _ _ Hrec). eexists _, db1. split; [done|].
  assert (Hdb1 : db1 = (for_each (fun id => release id true now) ids db).2) by by rewrite Hrun.
  split; [|split].
  - eapply hold_frame_trans; [|apply hold_frame_reconciled]. rewrite Hdb1.
    apply hold_frame_release_all, Forall_forall. unfold ids. intros id (r & Hr & [Hst [Hsid _]])%elem_of_table_ids.
    exists r. split; [done|]. unfold subject_of. by rewrite <- Hst, <- Hsid.
  - intros Hok id r. rewrite reconciled_reservations, Hdb1. by apply release_all_rows_wf.
  - intros id. rewrite reconciled_reservations, Hrows. destruct (reservations db !! id) as [r|] eqn:Hr.
    + apply decide_ext. unfold ids. rewrite elem_of_table_ids. unfold P. rewrite Hr. naive_solver.
    + rewrite decide_False; [done|]. unfold ids. rewrite elem_of_table_ids. naive_solver.
Qed.

Lemma held_row_none st sid db db' now :
  (forall id, reservations db' !! id =
     match reservations db !! id with
     | Some r => if decide (is_held st sid r) then expired_row now db id else Some r
     | None => None
     end) ->
  subject_exists st sid db = true ->
  forall id r, reservations db' !! id = Some r -> ~ is_held st sid r.
Proof.
  intros Hrows Hex id r. rewrite Hrows. destruct (reservations db !! id) as [r0|] eqn:Hr; [|done].
  case_decide as Hd; [|by intros [= <-]].
  unfold expired_row, open_hold. rewrite Hr. simpl. destruct Hd as (<- & <- & Hs). rewrite Hex, Hs. simpl.
  intros [= <-]. by apply close_row_not_held.
Qed.

Lemma held_sum_no_rows st sid db :
  (forall id r, reservations db !! id = Some r -> ~ is_held st sid r) -> (held_sum st sid db == 0)%Q.
Proof. intros Hn. apply Qsum_map_zero. intros id r Hr. by rewrite held_amount_not by by eapply Hn. Qed.

(** When the subject exists, none of its rows stays held. *)
Lemma release_open_holds_spec st sid now db :
  subject_exists st sid db = true -> rows_wf db ->
  exists n db', release_open_holds_for_subject st sid now db = (Ok n, db') /\
    hold_frame st sid db db' /\ rows_wf db' /\
    (forall id, reservations db' !! id =
       match reservations db !! id with
       | Some r => if decide (is_held st sid r) then expired_row now db id else Some r
       | None => None
       end) /\
    (held_sum st sid db' == 0)%Q.
Proof.
  intros Hex Hok. destruct (release_open_holds_run st sid now db) as (n & db1 & Hrun & Hfr & Hwf & Hrows).
  exists n, (reconciled st sid db1). repeat (split; [by auto|]). apply held_sum_no_rows. by eapply held_row_none.
Qed.

(** ** The budget period *)

Lemma update_user_spec uid f db : update_user uid f db = (Ok tt, with_users (alter f uid) db).
Proof. done. Qed.

Lemma reserved_counter_update_same uid f db st sid :
  (forall u, budget_reserved_usd (f u) = budget_reserved_usd u) ->
  reserved_counter st sid (with_users (alter f uid) db) = reserved_counter st sid db.
Proof.
  intros Hf. rewrite reserved_counter_users. case_decide as Hd; [|done]. destruct Hd as [-> ->].
  unfold reserved_counter; simpl. destruct (users db !! uid); simpl; [by rewrite Hf|done].
Qed.

(** A change of a user's row that keeps its reserved counter. *)
Lemma update_user_ok uid f db :
  (forall u, budget_reserved_usd (f u) = budget_reserved_usd u) -> holds_ok db ->
  holds_ok (with_users (alter f uid) db).
Proof.
  intros Hf Hok. split; [apply Hok|]. intros st sid c. rewrite reserved_counter_update_same by done.
  apply (counters_exact db Hok).
Qed.

(** The plan of a user depends on its department and on the plan tables only. *)
Lemma resolve_monthly_budget_ext uid u u' db db' :
  user_department u' = user_department u -> plans db' = plans db -> assignments db' = assignments db ->
  user_group_members db' = user_group_members db ->
  resolve_monthly_budget uid u' db' = resolve_monthly_budget uid u db.
Proof.
  intros Hd Hp Ha Hm. unfold resolve_monthly_budget, get_user_direct_assignment, get_plan.
  by rewrite Hd, Hp, Ha, Hm.
Qed.

Lemma get_month_usage_ext uid now db db' :
  (budget_period_start <$> users db' !! uid) = (budget_period_start <$> users db !! uid) ->
  ledger_entries db' = ledger_entries db -> request_logs db' = request_logs db ->
  get_month_usage uid now db' = get_month_usage uid now db.
Proof.
  intros Hu Hl Hr. unfold get_month_usage. rewrite Hl, Hr.
  replace (users db' !! uid ≫= budget_period_start) with (users db !! uid ≫= budget_period_start); [done|].
  by destruct (users db !! uid), (users db' !! uid); simplify_eq/=.
Qed.

(** crossing a month boundary starts a clean budget period.  When the
    caller's snapshot and the user's row are both older than this month,
    [ensure_budget_period] ends normally; the user's row then starts this
    month, holds nothing, carries as usage exactly what the ledger and the
    legacy logs record since the period's start, and as budget what the plans
    resolve to; no hold of the user stays open, the held rows that were open
    are marked expired, and no other user, API key or reservation changes. *)
Theorem ensure_budget_period_rolls_over uid snapshot now db u :
  rows_wf db -> users db !! uid = Some u ->
  period_stale snapshot (month_start now) = true ->
  period_stale (budget_period_start u) (month_start now) = true ->
  exists db' u', ensure_budget_period uid snapshot now db = (Ok tt, db') /\
    users db' !! uid = Some u' /\
    budget_period_start u' = Some (month_start now) /\
    budget_reserved_usd u' = 0%Q /\
    budget_used_usd u' = get_month_usage uid now db' /\
    monthly_budget_usd u' = resolve_monthly_budget uid u db /\
    (held_sum SUBJECT_USER uid db' == 0)%Q /\
    (forall id r, reservations db' !! id = Some r -> ~ is_held SUBJECT_USER uid r) /\
    (forall id r, reservations db !! id = Some r -> ~ is_held SUBJECT_USER uid r ->
       reservations db' !! id = Some r) /\
    (forall v, v <> uid -> users db' !! v = users db !! v) /\
    api_keys db' = api_keys db.
Proof.
  intros Hwf Hu Hsnap Hrow. unfold ensure_budget_period. rewrite Hsnap.
  rewrite (op_bind_ok _ _ db (Some u) db) by (unfold gets; by rewrite Hu). rewrite Hrow.
  assert (Hex : subject_exists SUBJECT_USER uid db = true).
  { apply bool_decide_eq_true_2. unfold reserved_counter. rewrite decide_True by done. rewrite Hu. by eexists. }
  destruct (release_open_holds_spec _ _ now db Hex Hwf) as (n & db1 & Hrun & Hfr & Hwf1 & Hrows & Hsum).
  rewrite (op_bind_ok _ _ _ _ _ Hrun).
  destruct (fr_users _ _ _ _ Hfr uid) as (f & Hf & Hf'). rewrite Hu in Hf. simpl in Hf.
  assert (Hdep : user_department (f u) = user_department u) by by destruct Hf' as [->|(_ & _ & c & ->)].
  set (u1 := f u) in *.
  rewrite (op_bind_ok _ _ _ _ _ (update_user_spec uid _ db1)).
  rewrite (op_bind_ok _ _ _ (get_month_usage uid now (with_users (alter (set_user_period (month_start now)) uid) db1)) _) by done.
  set (usage := get_month_usage _ _ _).
  rewrite (op_bind_ok _ _ _ _ _ (update_user_spec uid _ _)), (op_bind_ok _ _ _ _ _ (update_user_spec uid _ _)).
  set (u2 := set_user_reserved 0 (set_user_used usage (set_user_period (month_start now) u1))).
  set (db2 := with_users _ _). assert (Hu2 : users db2 !! uid = Some u2).
  { subst db2. simpl. rewrite !lookup_alter_eq, Hf. done. }
  rewrite (op_bind_ok _ _ db2 (Some u2) db2) by (unfold gets; by rewrite Hu2).
  rewrite (op_bind_ok _ _ db2 (resolve_monthly_budget uid u2 db2) db2) by done.
  rewrite update_user_spec. eexists _, (set_user_budget (resolve_monthly_budget uid u2 db2) u2).
  split; [done|]. split; [simpl; rewrite lookup_alter_eq, !lookup_alter_eq, Hf; done|].
  split; [done|]. split; [done|]. split; [|split; [|split; [|split; [|split; [|split]]]]].
  - subst u2. simpl. unfold usage. apply get_month_usage_ext; try done.
    simpl. rewrite !lookup_alter_eq, Hf. done.
  - simpl. apply resolve_monthly_budget_ext; try done; subst db2; simpl; by destruct Hfr.
  - rewrite <- Hsum. by rewrite (held_sum_reservations _ _ db1).
  - simpl. by eapply held_row_none.
  - intros id r Hr Hn. simpl. rewrite Hrows, Hr, decide_False; done.
  - intros v Hv. simpl. rewrite !lookup_alter_ne by done.
    destruct (fr_users _ _ _ _ Hfr v) as (g & Hg & [->|(_ & -> & _)]); [|done]. rewrite Hg. by rewrite option_fmap_id.
  - simpl. apply map_eq. intros k.
    destruct (fr_keys _ _ _ _ Hfr k) as (g & Hg & [->|(Hbad & _)]); [|done]. rewrite Hg. by rewrite option_fmap_id.
Qed.

(** ** The two ways a plan is resolved agree *)

Section at_most_one.
Context {A : Type} (P : A -> Prop) `{!forall a, Decision (P a)}.

Lemma filter_at_most_one l a :
  (length (filter P l) <= 1)%nat -> a ∈ l -> P a -> filter P l = [a].
Proof.
  intros Hl Ha HP. assert (Hin : a ∈ filter P l) by by apply list_elem_of_filter.
  destruct (filter P l) as [|x [|y r]]; simpl in Hl; [by apply elem_of_nil in Hin| |lia].
  by apply list_elem_of_singleton in Hin as ->.
Qed.

Lemma filter_empty_iff l : filter P l = [] <-> forall a, a ∈ l -> ~ P a.
Proof.
  split.
  - intros Hf a Ha HP. assert (Hin : a ∈ filter P l) by by apply list_elem_of_filter.
    rewrite Hf in Hin. by apply elem_of_nil in Hin.
  - intros Hn. destruct (filter P l) as [|a r] eqn:Hf; [done|].
    assert (Hin : a ∈ filter P l) by (rewrite Hf; apply list_elem_of_here).
    apply list_elem_of_filter in Hin as [HP Ha]. by destruct (Hn a Ha).
Qed.
End at_most_one.

Lemma first_in_None {K} `{Countable K} (table : gmap K Q) keys :
  (forall k, k ∈ keys -> table !! k = None) -> first_in table keys = None.
Proof.
  induction keys as [|k keys IH]; intros Hn; [done|]. simpl. rewrite Hn by apply list_elem_of_here.
  apply IH. intros k' Hk'. apply Hn. by apply list_elem_of_further.
Qed.

Lemma first_in_Some {K} `{Countable K} (table : gmap K Q) keys k x :
  k ∈ keys -> table !! k = Some x -> (forall k' y, k' ∈ keys -> table !! k' = Some y -> y = x) ->
  first_in table keys = Some x.
Proof.
  intros Hk Hx Hu. induction keys as [|k0 keys IH]; [by apply elem_of_nil in Hk|]. simpl.
  destruct (table !! k0) as [y|] eqn:Hy.
  - f_equal. apply (Hu k0); [apply list_elem_of_here|done].
  - apply IH; [apply elem_of_cons in Hk as [->|]; [congruence|done]|].
    intros k' y Hk'. apply Hu. by apply list_elem_of_further.
Qed.

Lemma elem_of_joined {K} (key : PlanAssignment -> option K) db k x :
  (k, x) ∈ joined key db <->
  exists a plan, a ∈ assignments db /\ key a = Some k /\ get_plan (pa_plan_id a) db = Some plan /\
    x = plan_monthly_budget_usd plan.
Proof.
  unfold joined. rewrite list_elem_of_omap. split.
  - intros (a & Ha & Hk). destruct (key a) as [k'|] eqn:Hka; [|done]. simpl in Hk.
    destruct (get_plan _ db) as [plan|] eqn:Hp; simplify_eq/=. eauto 10.
  - intros (a & plan & Ha & Hka & Hp & ->). exists a. split; [done|]. by rewrite Hka; simpl; rewrite Hp.
Qed.

Lemma dict_of_joined_Some {K} `{Countable K} (key : PlanAssignment -> option K) db k x :
  dict_of (joined key db) !! k = Some x ->
  exists a plan, a ∈ assignments db /\ key a = Some k /\ get_plan (pa_plan_id a) db = Some plan /\
    x = plan_monthly_budget_usd plan.
Proof. intros Hx. apply elem_of_joined. by apply dict_of_Some. Qed.

Lemma dict_of_joined_is_Some {K} `{Countable K} (key : PlanAssignment -> option K) db k a plan :
  a ∈ assignments db -> key a = Some k -> get_plan (pa_plan_id a) db = Some plan ->
  is_Some (dict_of (joined key db) !! k).
Proof. intros. eapply dict_of_is_Some, elem_of_joined. eauto 10. Qed.

(** What a step of the first loop does to one user. *)
Definition acc_view (acc : batch_acc) (uid : Z) : option Q * bool :=
  (acc_budgets acc !! uid, bool_decide (uid ∈ explicit_none_ids acc \/ uid ∈ assigned_direct_ids acc)).

Definition view_step (uid : Z) (v : option Q * bool) (row : direct_row) : option Q * bool :=
  match row with
  | (_, None, _) => (Some 0%Q, true)
  | (_, Some _, Some amount) => (Some amount, true)
  | (_, Some _, None) => v
  end.

Lemma acc_view_step acc uid row :
  acc_view (direct_step acc row) uid =
  if decide (row.1.1 = uid) then view_step uid (acc_view acc uid) row else acc_view acc uid.
Proof.
  destruct row as [[u p] a]; simpl. unfold acc_view, direct_step, view_step.
  case_decide as Hu; [subst|]; destruct p as [p|], a as [a|]; simpl; try done;
    rewrite ?lookup_insert_eq, ?lookup_insert_ne by done; f_equal; apply bool_decide_ext || apply bool_decide_eq_true_2;
    set_solver.
Qed.

Lemma acc_view_foldl rows acc uid :
  acc_view (foldl direct_step acc rows) uid =
  foldl (view_step uid) (acc_view acc uid) (filter (fun row : direct_row => row.1.1 = uid) rows).
Proof.
  revert acc. induction rows as [|row rows IH]; intros acc; simpl; [done|].
  rewrite IH, acc_view_step, filter_cons. by case_decide.
Qed.

Lemma direct_rows_of_user uid user_ids db :
  uid ∈ user_ids ->
  filter (fun row : direct_row => row.1.1 = uid) (direct_rows user_ids db) =
  (fun a => (uid, pa_plan_id a, plan_monthly_budget_usd <$> get_plan (pa_plan_id a) db)) <$>
    filter (fun a => pa_user_id a = Some uid) (assignments db).
Proof.
  intros Hin. unfold direct_rows. induction (assignments db) as [|a l IH]; [done|]. simpl.
  rewrite (filter_cons _ a). destruct (pa_user_id a) as [u|] eqn:Hu.
  - destruct (decide (u = uid)) as [->|Hne].
    + rewrite !decide_True by done. rewrite filter_cons, decide_True by done. simpl. by f_equal.
    + rewrite (decide_False (P := Some u = Some uid)) by congruence.
      case_decide; [rewrite filter_cons, decide_False by done|]; exact IH.
  - rewrite decide_False by done. exact IH.
Qed.

Lemma lookup_assign_found pick ids m uid :
  foldl (assign_found pick) m ids !! uid =
  if decide (uid ∈ ids) then match pick uid with Some x => Some x | None => m !! uid end else m !! uid.
Proof.
  revert m. induction ids as [|i ids IH]; intros m; [by rewrite decide_False by apply not_elem_of_nil|].
  cbn [foldl]. rewrite IH. unfold assign_found. destruct (decide (uid = i)) as [->|Hne].
  - rewrite (decide_True (P := i ∈ i :: ids)) by apply list_elem_of_here.
    case_decide; destruct (pick i); by rewrite ?lookup_insert_eq.
  - rewrite (decide_ext (uid ∈ i :: ids) (uid ∈ ids)) by set_solver.
    by destruct (pick i); rewrite ?lookup_insert_ne by done.
Qed.

Lemma lookup_insert_picked {A} (f : Z * A -> option Q) (l : list (Z * A)) (m : gmap Z Q) (k : Z) :
  NoDup l.*1 ->
  foldl (fun m u => match f u with Some x => <[u.1 := x]> m | None => m end) m l !! k =
  match list_find (fun u => u.1 = k) l with
  | Some (_, u) => match f u with Some x => Some x | None => m !! k end
  | None => m !! k
  end.
Proof.
  revert m. induction l as [|[i a] l IH]; intros m Hnd; [done|]. simpl in *. apply NoDup_cons in Hnd as [Hi Hnd].
  rewrite IH by done. case_decide as Hk; [subst|].
  - assert (list_find (fun u : Z * A => u.1 = k) l = None) as ->.
    { apply list_find_None, Forall_forall. intros [j b] Hj Heq. simpl in Heq. subst. destruct Hi. by apply (list_elem_of_fmap_2 fst) in Hj. }
    destruct (f (k, a)); by rewrite ?lookup_insert_eq.
  - destruct (list_find _ l) as [[n u]|] eqn:Hf; simpl.
    + destruct (f u); [done|]. destruct (f (i, a)); by rewrite ?lookup_insert_ne by done.
    + destruct (f (i, a)); by rewrite ?lookup_insert_ne by done.
Qed.

(** At most one plan is assigned to a user, to its groups together and to its
    department, and the plans assigned to it exist. *)
Record plans_unambiguous (uid : Z) (u : User) (db : DB) : Prop := {
  direct_unique : (length (filter (fun a => pa_user_id a = Some uid) (assignments db)) <= 1)%nat;
  group_unique : (length (filter (fun a => in_groups (group_ids_of uid (user_group_members db)) a = true)
                            (assignments db)) <= 1)%nat;
  department_unique : forall d, user_department u = Some d ->
    (length (filter (fun a => pa_department a = Some d) (assignments db)) <= 1)%nat;
  direct_plans_exist : forall a p, a ∈ assignments db -> pa_user_id a = Some uid -> pa_plan_id a = Some p ->
    is_Some (plans db !! p)
}.

(** What the tables need for the two resolutions to agree on one user. *)
Record plans_clear (uid : Z) (u : User) (db : DB) : Prop := {
  clear_plans : plans_unambiguous uid u db;
  group_plans_positive : forall a plan, a ∈ assignments db ->
    in_groups (group_ids_of uid (user_group_members db)) a = true ->
    get_plan (pa_plan_id a) db = Some plan -> (0 < plan_monthly_budget_usd plan)%Q
}.

(** The group step of both resolutions. *)
Definition group_budget (uid : Z) (db : DB) : option Q :=
  let group_ids := group_ids_of uid (user_group_members db) in
  plan_monthly_budget_usd <$>
    (head (List.filter (in_groups group_ids) (assignments db)) ≫= (fun a => get_plan (pa_plan_id a) db)).

Definition department_budget (u : User) (db : DB) : option Q :=
  d ← truthy_str (user_department u);
  plan_monthly_budget_usd <$>
    (head (filter (fun a => pa_department a = Some d) (assignments db)) ≫= (fun a => get_plan (pa_plan_id a) db)).

Lemma list_filter_bool {A} (P : A -> bool) (l : list A) : List.filter P l = filter (fun a => P a = true) l.
Proof.
  induction l as [|a l IH]; [done|]. simpl. rewrite filter_cons, IH.
  destruct (P a); [by rewrite decide_True|by rewrite decide_False].
Qed.

Lemma resolve_unassigned uid u db :
  get_user_direct_assignment uid db = None ->
  resolve_monthly_budget uid u db =
  default 0%Q (match group_budget uid db with Some x => Some x | None => department_budget u db end).
Proof.
  intros Hd. unfold resolve_monthly_budget, group_budget, department_budget. rewrite Hd.
  destruct (head (List.filter _ _) ≫= _) as [plan|]; [done|]. simpl.
  destruct (truthy_str (user_department u)) as [d|]; [simpl|done].
  by destruct (head (filter _ _) ≫= _).
Qed.

Lemma group_ids_of_members uid (ids : list Z) rows :
  uid ∈ ids -> group_ids_of uid (filter (fun m => m.1 ∈ ids) rows) = group_ids_of uid rows.
Proof.
  intros Hin. unfold group_ids_of. f_equal. rewrite list_filter_filter. apply list_filter_iff.
  intros [a b]; simpl. naive_solver.
Qed.

Lemma elem_of_group_ids uid rows g : g ∈ group_ids_of uid rows <-> (uid, g) ∈ rows.
Proof.
  unfold group_ids_of. rewrite list_elem_of_fmap. split.
  - intros ([a b] & -> & [Ha Hb]%list_elem_of_filter). simpl in *. by subst.
  - intros Hin. exists (uid, g). split; [done|]. by apply list_elem_of_filter.
Qed.

Lemma batch_group_budget uid u (ids : list Z) db :
  plans_unambiguous uid u db -> uid ∈ ids ->
  let member_rows := filter (fun m => m.1 ∈ ids) (user_group_members db) in
  first_in (dict_of (joined (fun a => if in_groups member_rows.*2 a then pa_group_id a else None) db))
           (group_ids_of uid member_rows) = group_budget uid db.
Proof.
  intros Hc Hin rows. unfold rows. rewrite group_ids_of_members by done. fold rows.
  set (gids := group_ids_of uid (user_group_members db)). set (key := fun a => if in_groups rows.*2 a then pa_group_id a else None).
  unfold group_budget. fold gids. rewrite list_filter_bool.
  assert (Hkey : forall a g, g ∈ gids -> key a = Some g <-> pa_group_id a = Some g).
  { intros a g Hg. unfold key, in_groups. destruct (pa_group_id a) as [g'|] eqn:Hga; [|done].
    case_bool_decide as Hr; [done|]. split; [done|]. intros [= ->]. destruct Hr.
    apply (list_elem_of_fmap_2' snd _ (uid, g)); [|done]. apply list_elem_of_filter. split; [done|].
    by apply elem_of_group_ids. }
  assert (Hgr : forall a g, pa_group_id a = Some g -> g ∈ gids -> in_groups gids a = true).
  { intros a g Hg Hgi. unfold in_groups. rewrite Hg. by apply bool_decide_eq_true_2. }
  assert (Hsome : forall g x, g ∈ gids -> dict_of (joined key db) !! g = Some x ->
    exists a plan, filter (fun a => in_groups gids a = true) (assignments db) = [a] /\
      get_plan (pa_plan_id a) db = Some plan /\ x = plan_monthly_budget_usd plan).
  { intros g x Hg (a & plan & Ha & Hk & Hp & ->)%dict_of_joined_Some. apply Hkey in Hk; [|done].
    exists a, plan. split; [|done]. apply filter_at_most_one; [apply Hc|done|by eapply Hgr]. }
  destruct (filter (fun a => in_groups gids a = true) (assignments db)) as [|a r] eqn:Hf.
  - apply first_in_None. intros g Hg. destruct (_ !! g) as [x|] eqn:Hx; [|done].
    apply Hsome in Hx as (a & plan & ? & _); done.
  - assert (Ha : a ∈ filter (fun a => in_groups gids a = true) (assignments db)) by (rewrite Hf; apply list_elem_of_here).
    apply list_elem_of_filter in Ha as [Hg Ha]. simpl.
    destruct (get_plan (pa_plan_id a) db) as [plan|] eqn:Hp; simpl.
    + unfold in_groups in Hg. destruct (pa_group_id a) as [g|] eqn:Hga; [|done]. apply bool_decide_eq_true in Hg.
      destruct (dict_of_joined_is_Some key db g a plan) as [x Hx]; [done|by apply Hkey|done|].
      assert (Hu : forall g' y, g' ∈ gids -> dict_of (joined key db) !! g' = Some y -> y = plan_monthly_budget_usd plan).
      { intros g' y Hg' (a' & plan' & [= <- _] & Hp' & ->)%Hsome; [|done]. congruence. }
      rewrite (Hu g x Hg Hx) in Hx. by eapply first_in_Some.
    + apply first_in_None. intros g' Hg'. destruct (_ !! g') as [x|] eqn:Hx; [|done].
      apply Hsome in Hx as (a' & plan' & [= <- _] & Hp' & _); [congruence|done].
Qed.

Lemma truthy_str_Some s d : truthy_str s = Some d <-> s = Some d /\ d <> EmptyString.
Proof. destruct s as [[|c s]|]; simpl; naive_solver. Qed.

Lemma batch_department_budget uid u (departments : list string) db d :
  plans_unambiguous uid u db -> truthy_str (user_department u) = Some d -> d ∈ departments ->
  dict_of (joined (fun a =>
    (d ← truthy_str (pa_department a); if decide (d ∈ departments) then Some d else None)) db) !! d =
  department_budget u db.
Proof.
  intros Hc Hd Hin. unfold department_budget. rewrite Hd. simpl.
  pose proof Hd as [Hud Hne]%truthy_str_Some.
  set (key := fun a => _ ← truthy_str (pa_department a); _).
  assert (Hkey : forall a, key a = Some d <-> pa_department a = Some d).
  { intros a. unfold key. destruct (truthy_str (pa_department a)) as [d'|] eqn:Ht; simpl.
    - apply truthy_str_Some in Ht as [-> Hne']. case_decide; naive_solver.
    - split; [done|]. intros Ha. rewrite (proj2 (truthy_str_Some _ d)) in Ht; [done|]. by rewrite Ha. }
  destruct (dict_of (joined key db) !! d) as [x|] eqn:Hx.
  - apply dict_of_joined_Some in Hx as (a & plan & Ha & Hk & Hp & ->).
    rewrite (filter_at_most_one _ _ a); [|by apply Hc|done|by apply Hkey]. simpl. by rewrite Hp.
  - destruct (filter _ _) as [|a r] eqn:Hf; [done|]. simpl.
    assert (Ha : a ∈ filter (fun a => pa_department a = Some d) (assignments db)) by (rewrite Hf; apply list_elem_of_here).
    apply list_elem_of_filter in Ha as [Hk Ha]. destruct (get_plan (pa_plan_id a) db) as [plan|] eqn:Hp; [|done].
    destruct (dict_of_joined_is_Some key db d a plan) as [x Hx']; [done|by apply Hkey|done|]. congruence.
Qed.

Lemma direct_head uid db :
  get_user_direct_assignment uid db = head (filter (fun a => pa_user_id a = Some uid) (assignments db)).
Proof. done. Qed.

Definition first_acc (us : list (Z * User)) (db : DB) : batch_acc :=
  foldl direct_step (MkAcc (dict_of ((fun u => (u.1, 0%Q)) <$> us)) ∅ ∅) (direct_rows us.*1 db).

Lemma first_acc_view us db uid u :
  (uid, u) ∈ us -> plans_unambiguous uid u db ->
  acc_view (first_acc us db) uid =
  match get_user_direct_assignment uid db with
  | Some _ => (Some (resolve_monthly_budget uid u db), true)
  | None => (Some 0%Q, false)
  end.
Proof.
  intros Hin Hc. unfold first_acc. rewrite acc_view_foldl, direct_rows_of_user by by apply (list_elem_of_fmap_2' fst _ (uid, u)).
  assert (H0 : acc_view (MkAcc (dict_of ((fun u => (u.1, 0%Q)) <$> us)) ∅ ∅) uid = (Some 0%Q, false)).
  { unfold acc_view. f_equal. cbn [acc_budgets].
    destruct (dict_of_is_Some ((fun u : Z * User => (u.1, 0%Q)) <$> us) uid 0%Q) as [x Hx].
      { by apply (list_elem_of_fmap_2' (fun u : Z * User => (u.1, 0%Q)) _ (uid, u)). }
      rewrite Hx. apply dict_of_Some, list_elem_of_fmap in Hx as (y & [= _ ->] & _). done. }
  rewrite H0, direct_head. unfold resolve_monthly_budget. rewrite direct_head.
  pose proof (direct_unique _ _ _ Hc) as Hl. pose proof (direct_plans_exist _ _ _ Hc) as Hfk.
  destruct (filter _ (assignments db)) as [|a [|b r]] eqn:Hf; simpl in Hl; [done| |lia].
  assert (Ha : a ∈ filter (fun a => pa_user_id a = Some uid) (assignments db)) by (rewrite Hf; apply list_elem_of_here).
  apply list_elem_of_filter in Ha as [Hu Ha]. simpl. destruct (pa_plan_id a) as [p|] eqn:Hp; [|done].
  destruct (Hfk a p Ha Hu Hp) as [plan Hpl]. simpl. by rewrite Hpl.
Qed.

Lemma list_find_elem_NoDup {A} (l : list (Z * A)) k a :
  NoDup l.*1 -> (k, a) ∈ l -> exists n, list_find (fun u => u.1 = k) l = Some (n, (k, a)).
Proof.
  induction l as [|[i b] l IH]; intros Hnd Hin; [by apply elem_of_nil in Hin|].
  simpl in *. apply NoDup_cons in Hnd as [Hi Hnd]. case_decide as Hk.
  - subst. apply elem_of_cons in Hin as [[= ->]|Hin]; [by exists 0%nat|].
    destruct Hi. by apply (list_elem_of_fmap_2' fst _ (k, a)).
  - apply elem_of_cons in Hin as [[= -> ->]|Hin]; [done|]. destruct (IH Hnd Hin) as [n ->]. by exists (S n).
Qed.

Lemma list_find_not_elem {A} (l : list (Z * A)) k :
  (forall a, (k, a) ∉ l) -> list_find (fun u => u.1 = k) l = None.
Proof.
  intros Hn. apply list_find_None, Forall_forall. intros [i a] Hia Hk. simpl in Hk. subst. by apply (Hn a).
Qed.

Lemma NoDup_keys_filter {A} (l : list (Z * A)) (P : Z * A -> Prop) `{forall x, Decision (P x)} :
  NoDup l.*1 -> NoDup (filter P l).*1.
Proof. intros Hnd. eapply sublist_NoDup; [exact Hnd|]. by apply fmap_sublist, sublist_filter. Qed.

Lemma NoDup_keys_inj {A} (l : list (Z * A)) k a b : NoDup l.*1 -> (k, a) ∈ l -> (k, b) ∈ l -> a = b.
Proof.
  intros Hnd Ha Hb. destruct (list_find_elem_NoDup l k a Hnd Ha) as [n Hn], (list_find_elem_NoDup l k b Hnd Hb) as [m Hm].
  rewrite Hn in Hm. by injection Hm.
Qed.

(** The last loop: users still at zero take their department's budget. *)
Definition dept_loop (dept_users : list (Z * User)) (db : DB) (budgets : gmap Z Q) : gmap Z Q :=
  let departments := omap (fun u => truthy_str (user_department u.2)) dept_users in
  let dept_budgets := dict_of (joined (fun a =>
    (d ← truthy_str (pa_department a); if decide (d ∈ departments) then Some d else None)) db) in
  foldl (fun budgets u => match user_department u.2 ≫= (fun d => dept_budgets !! d) with
    | Some x => <[u.1 := x]> budgets
    | None => budgets
    end) budgets dept_users.

Lemma dept_loop_out dept_users db budgets uid :
  NoDup dept_users.*1 -> (forall u, (uid, u) ∉ dept_users) ->
  dept_loop dept_users db budgets !! uid = budgets !! uid.
Proof.
  intros Hnd Hn. unfold dept_loop.
  rewrite (lookup_insert_picked (fun u => user_department u.2 ≫= (fun d => dict_of _ !! d))) by done.
  by rewrite list_find_not_elem.
Qed.

Lemma dept_loop_in dept_users db budgets uid u d :
  NoDup dept_users.*1 -> (uid, u) ∈ dept_users -> plans_unambiguous uid u db ->
  truthy_str (user_department u) = Some d ->
  dept_loop dept_users db budgets !! uid =
  match department_budget u db with Some x => Some x | None => budgets !! uid end.
Proof.
  intros Hnd Hin Hc Ht. unfold dept_loop.
  rewrite (lookup_insert_picked (fun u => user_department u.2 ≫= (fun d => dict_of _ !! d))) by done.
  destruct (list_find_elem_NoDup dept_users uid u Hnd Hin) as [n ->]. pose proof Ht as [Hud _]%truthy_str_Some.
  cbn [snd]. rewrite Hud. cbn [mbind option_bind].
  rewrite (batch_department_budget uid u _ db d Hc Ht); [done|]. apply list_elem_of_omap. by exists (uid, u).
Qed.

Lemma group_budget_positive uid u db x : plans_clear uid u db -> group_budget uid db = Some x -> (0 < x)%Q.
Proof.
  intros Hc Hg. unfold group_budget in Hg. rewrite list_filter_bool in Hg.
  destruct (filter _ (assignments db)) as [|a r] eqn:Hf; [done|]. simpl in Hg.
  assert (Ha : a ∈ filter (fun a => in_groups (group_ids_of uid (user_group_members db)) a = true) (assignments db))
    by (rewrite Hf; apply list_elem_of_here).
  apply list_elem_of_filter in Ha as [Hga Ha].
  destruct (get_plan (pa_plan_id a) db) as [plan|] eqn:Hp; simplify_eq/=. by apply (group_plans_positive _ _ _ Hc a plan).
Qed.

(** What the batch makes of a user: a group plan without money is passed over
    for the department's plan. *)
Definition batch_budget (uid : Z) (u : User) (db : DB) : Q :=
  match get_user_direct_assignment uid db, group_budget uid db with
  | None, Some x => if Qle_bool x 0 then default x (department_budget u db) else x
  | _, _ => resolve_monthly_budget uid u db
  end.

(** The batch entry of a user whose plan is unambiguous. *)
Lemma batch_budget_entry us db uid u :
  NoDup us.*1 -> (uid, u) ∈ us -> plans_unambiguous uid u db ->
  resolve_monthly_budgets_batch us db !! uid = Some (batch_budget uid u db).
Proof.
  intros Hnd Hin Hc. unfold resolve_monthly_budgets_batch, batch_budget. fold (first_acc us db).
  pose proof (first_acc_view us db uid u Hin Hc) as Hv. set (acc := first_acc us db) in *.
  assert (Huid : uid ∈ us.*1) by by apply (list_elem_of_fmap_2' fst _ (uid, u)).
  set (ids := filter _ us.*1). set (budgets := foldl (assign_found _) _ ids). set (dept_users := filter _ us).
  fold (dept_loop dept_users db budgets).
  assert (Hndd : NoDup dept_users.*1) by by apply NoDup_keys_filter.
  destruct (get_user_direct_assignment uid db) as [a|] eqn:Hd; injection Hv as Hb Hx.
  - apply bool_decide_eq_true in Hx.
    assert (Hni : uid ∉ ids) by (unfold ids; rewrite list_elem_of_filter; naive_solver).
    rewrite dept_loop_out; [by unfold budgets; rewrite lookup_assign_found, decide_False|done|].
    intros u'. unfold dept_users. rewrite list_elem_of_filter. naive_solver.
  - apply bool_decide_eq_false in Hx. assert (Hni : uid ∈ ids) by (apply list_elem_of_filter; naive_solver).
    assert (Hbu : budgets !! uid = Some (default 0%Q (group_budget uid db))).
    { unfold budgets. rewrite lookup_assign_found, decide_True by done.
      rewrite (batch_group_budget uid u ids db Hc Hni). by destruct (group_budget uid db). }
    assert (Hloop : dept_loop dept_users db budgets !! uid =
      Some (if Qle_bool (default 0%Q (group_budget uid db)) 0
            then default (default 0%Q (group_budget uid db)) (department_budget u db) else default 0%Q (group_budget uid db))).
    { destruct (Qle_bool _ 0) eqn:Hle.
      - destruct (truthy_str (user_department u)) as [d|] eqn:Ht.
        + rewrite (dept_loop_in dept_users db budgets uid u d), Hbu; [by destruct (department_budget u db)|done| |done..].
          apply list_elem_of_filter. simpl. rewrite Hbu, Ht. repeat split; try done; by eexists.
        + rewrite dept_loop_out, Hbu; [by unfold department_budget; rewrite Ht|done|].
          intros u'. unfold dept_users. rewrite list_elem_of_filter. simpl. intros [(_ & _ & Hs) Hin'].
          rewrite <- (NoDup_keys_inj us uid u u' Hnd Hin Hin'), Ht in Hs. by destruct Hs.
      - rewrite dept_loop_out, Hbu; [done..|]. intros u'. unfold dept_users. rewrite list_elem_of_filter. simpl.
        rewrite Hbu. simpl. rewrite Hle. naive_solver. }
    rewrite Hloop. destruct (group_budget uid db) as [x|] eqn:Hg; [done|].
    rewrite (resolve_unassigned uid u db Hd), Hg. simpl. by destruct (department_budget u db).
Qed.

Lemma batch_budget_resolved us db uid u :
  NoDup us.*1 -> (uid, u) ∈ us -> plans_clear uid u db ->
  resolve_monthly_budgets_batch us db !! uid = Some (resolve_monthly_budget uid u db).
Proof.
  intros Hnd Hin Hc. rewrite (batch_budget_entry us db uid u Hnd Hin (clear_plans _ _ _ Hc)). f_equal. unfold batch_budget.
  destruct (get_user_direct_assignment uid db) as [|] eqn:Hd; [done|].
  destruct (group_budget uid db) as [x|] eqn:Hg; [|done]. rewrite (resolve_unassigned uid u db Hd), Hg. simpl.
  destruct (Qle_bool x 0) eqn:Hle; [|done]. apply Qle_bool_iff in Hle. pose proof (group_budget_positive uid u db x Hc Hg). lra.
Qed.

(** C4: what the batch resolution used by admin lists and by the monthly reset
    computes, for every user of the batch with at most one direct assignment,
    at most one for its groups together and one for its department.  It is what
    [resolve_monthly_budget] returns, whatever the user has, but in one case:
    when the user has no assignment of its own and its group's plan has no money,
    the single resolution stops at that plan and the batch goes on to the plan of
    the department, if there is one. *)
Theorem batch_budget_agrees us db uid u :
  NoDup us.*1 -> (uid, u) ∈ us -> plans_unambiguous uid u db ->
  let passed_over x := get_user_direct_assignment uid db = None /\ group_budget uid db = Some x /\ (x <= 0)%Q in
  ((~ exists x, passed_over x) -> resolve_monthly_budgets_batch us db !! uid = Some (resolve_monthly_budget uid u db)) /\
  (forall x, passed_over x ->
     resolve_monthly_budget uid u db = x /\
     resolve_monthly_budgets_batch us db !! uid = Some (default x (department_budget u db))).
Proof.
  intros Hnd Hin Hc passed_over. rewrite (batch_budget_entry us db uid u Hnd Hin Hc). unfold batch_budget. split.
  - intros Hn. f_equal. destruct (get_user_direct_assignment uid db) as [|] eqn:Hd; [done|].
    destruct (group_budget uid db) as [x|] eqn:Hg; [|done]. rewrite (resolve_unassigned uid u db Hd), Hg. simpl.
    destruct (Qle_bool x 0) eqn:Hle; [|done]. apply Qle_bool_iff in Hle. destruct Hn. by exists x.
  - intros x (Hd & Hg & Hle). rewrite (resolve_unassigned uid u db Hd), Hd, Hg. split; [done|].
    by apply Qle_bool_iff in Hle as ->.
Qed.

Definition it_user : User := MkUser true (Some "IT") 0 0 0 None.
Definition tables_with (group_budget department_budget : Q) : DB :=
  MkDB {[ 7 := it_user ]} ∅ ∅ {[ 1 := MkPlan "group" group_budget; 2 := MkPlan "IT" department_budget ]}
    [MkAssignment (Some 1) None (Some 3) None; MkAssignment (Some 2) None None (Some "IT")] [(7, 3)] [] [].

Lemma tables_unambiguous g d : plans_unambiguous 7 it_user (tables_with g d).
Proof.
  split; simpl; try (vm_compute; lia).
  - intros e [= <-]. vm_compute. lia.
  - intros a p Ha. repeat (apply elem_of_cons in Ha as [->|Ha]; [done|]). by apply elem_of_nil in Ha.
Defined.

Lemma batch_budget_agrees_witness :
  resolve_monthly_budgets_batch [(7, it_user)] (tables_with 20 100) !! 7 = Some 20%Q /\
  resolve_monthly_budget 7 it_user (tables_with 0 100) = 0%Q /\
  resolve_monthly_budgets_batch [(7, it_user)] (tables_with 0 100) !! 7 = Some 100%Q.
Proof.
  split.
  - refine (eq_trans (proj1 (batch_budget_agrees [(7, it_user)] (tables_with 20 100) 7 it_user _ _ (tables_unambiguous 20 100)) _) _).
    + apply NoDup_singleton.
    + apply list_elem_of_singleton. reflexivity.
    + intros (x & _ & Hx & Hle). vm_compute in Hx. injection Hx as <-. vm_compute in Hle. by apply Hle.
    + vm_compute. reflexivity.
  - destruct (proj2 (batch_budget_agrees [(7, it_user)] (tables_with 0 100) 7 it_user
      (NoDup_singleton _) (proj2 (list_elem_of_singleton _ _) eq_refl) (tables_unambiguous 0 100)) 0%Q) as [H1 H2].
    + split_and!; [reflexivity|reflexivity|apply Qle_refl].
    + split; [exact H1|]. rewrite H2. vm_compute. reflexivity.
Defined.

(** the two resolutions differ on a group plan of zero dollars: the single
    one stops at the group and answers 0, the batch one goes on to the
    department's plan, so the admin list and the monthly reset show a budget
    that a request of the same user does not have. *)
Theorem batch_budget_zero_group_plan :
  let db := tables_with 0 100 in
  users db !! 7 = Some it_user /\
  resolve_monthly_budget 7 it_user db = 0%Q /\
  resolve_monthly_budgets_batch [(7, it_user)] db !! 7 = Some 100%Q.
Proof. vm_compute. repeat split. Qed.

(** A user of last month with an open hold. *)
Definition stale_user : DB :=
  MkDB {[ 1 := MkUser true None 10 4 1 None ]} ∅
    {[ "h"%string := MkReservation SUBJECT_USER 1 [] "chat" "m" 1 None STATUS_HELD None 0 0 None ]}
    {[ 1 := MkPlan "p" 25 ]} [MkAssignment (Some 1) (Some 1) None None] []
    [MkLedger "user" 1 3 (days 400)] [].

Lemma ensure_budget_period_rolls_over_witness :
  exists db' u', ensure_budget_period 1 None (days 401) stale_user = (Ok tt, db') /\
    users db' !! 1 = Some u' /\ budget_reserved_usd u' = 0%Q /\ (monthly_budget_usd u' == 25)%Q.
Proof.
  destruct (ensure_budget_period_rolls_over 1 None (days 401) stale_user (MkUser true None 10 4 1 None))
    as (db' & u' & Hrun & Hu & _ & Hres & _ & Hbud & _).
  - intros id r Hr. unfold stale_user in Hr; simpl in Hr. apply lookup_singleton_Some in Hr as [_ <-].
    split; [by exists 100000000|discriminate].
  - reflexivity.
  - reflexivity.
  - reflexivity.
  - exists db', u'. repeat (split; [assumption|]). rewrite Hbud. vm_compute. reflexivity.
Defined.
