(* ===== verification/ResetFacts.v ===== *)
(** * The monthly reset

    [reset_all_monthly_budgets] walks the users in batches of 500, rolls a
    batch back when one of its rows fails and then retries it row by row.  The
    facts here reduce the loop to one declarative update of the tables. *)

From S2P Require Import Prelude Text Money PyTime Accounts Holds HoldsFacts Budgets BudgetsFacts.
From Stdlib Require Import QArith Qminmax Lqa.
#[global] Open Scope Z_scope.

(** ** What resetting a set of users means *)

Definition in_reset (ids : gset Z) (r : BudgetReservation) : Prop :=
  subject_type r = SUBJECT_USER /\ subject_id r ∈ ids /\ status r = STATUS_HELD.

#[export] Instance in_reset_dec ids r : Decision (in_reset ids r).
Proof. unfold in_reset. apply _. Defined.

Definition reset_row (ids : gset Z) (now : Z) (r : BudgetReservation) : BudgetReservation :=
  if decide (in_reset ids r) then close_row STATUS_EXPIRED (actual_usd r) (request_log_id r) now r else r.

Definition reset_user (ids : gset Z) (period : Z) (budget : Z -> Q) (uid : Z) (u : User) : User :=
  if decide (uid ∈ ids) then _apply_period_reset period (budget uid) u else u.

(** The tables after the period of every user of [ids] was reset. *)
Definition reset_set (ids : gset Z) (budget : Z -> Q) (now : Z) (db : DB) : DB :=
  MkDB (map_imap (fun uid u => Some (reset_user ids (month_start now) budget uid u)) (users db))
       (api_keys db) (reset_row ids now <$> reservations db) (plans db) (assignments db)
       (user_group_members db) (ledger_entries db) (request_logs db).

Lemma reset_set_users ids budget now db uid :
  users (reset_set ids budget now db) !! uid = reset_user ids (month_start now) budget uid <$> users db !! uid.
Proof. simpl. rewrite map_lookup_imap. by destruct (users db !! uid). Qed.

Lemma reset_set_reservations ids budget now db id :
  reservations (reset_set ids budget now db) !! id = reset_row ids now <$> reservations db !! id.
Proof. simpl. by rewrite lookup_fmap. Qed.

Lemma db_eq db db' :
  (forall i, users db !! i = users db' !! i) -> (forall i, api_keys db !! i = api_keys db' !! i) ->
  (forall i, reservations db !! i = reservations db' !! i) -> plans db = plans db' ->
  assignments db = assignments db' -> user_group_members db = user_group_members db' ->
  ledger_entries db = ledger_entries db' -> request_logs db = request_logs db' -> db = db'.
Proof.
  intros Hu%map_eq Hk%map_eq Hr%map_eq. destruct db, db'; simpl in *. intros. by subst.
Qed.

Lemma reset_set_compose S T budget now db :
  reset_set T budget now (reset_set S budget now db) = reset_set (S ∪ T) budget now db.
Proof.
  apply db_eq; intros; try done.
  - rewrite !reset_set_users. destruct (users db !! i) as [u|]; [|done]. simpl. f_equal. unfold reset_user.
    destruct (decide (i ∈ S)), (decide (i ∈ T)), (decide (i ∈ S ∪ T)); set_solver.
  - rewrite !reset_set_reservations. destruct (reservations db !! i) as [r|]; [|done]. simpl. f_equal.
    unfold reset_row, in_reset. repeat case_decide; simpl in *; try done; set_solver.
Qed.

Lemma reset_set_empty budget now db : reset_set ∅ budget now db = db.
Proof.
  apply db_eq; intros; try done.
  - rewrite reset_set_users. destruct (users db !! i) as [u|]; [|done]. simpl. unfold reset_user.
    by rewrite decide_False by set_solver.
  - rewrite reset_set_reservations. destruct (reservations db !! i) as [r|]; [|done]. simpl.
    unfold reset_row, in_reset. by rewrite decide_False by set_solver.
Qed.

Lemma reset_set_rows_wf ids budget now db : rows_wf db -> rows_wf (reset_set ids budget now db).
Proof.
  intros Hwf id r. rewrite reset_set_reservations. destruct (reservations db !! id) as [r0|] eqn:Hr; [|done].
  simpl. intros [= <-]. unfold reset_row. case_decide; apply (Hwf id r0 Hr).
Qed.

Lemma reset_set_dom ids budget now db : dom (users (reset_set ids budget now db)) = dom (users db).
Proof.
  apply set_eq. intros uid. rewrite !elem_of_dom, reset_set_users. by rewrite fmap_is_Some.
Qed.

(** The budget the plans give to the user row with that id. *)
Definition budget_of (db : DB) (uid : Z) : Q :=
  match users db !! uid with Some u => resolve_monthly_budget uid u db | None => 0%Q end.

Lemma budget_of_reset ids budget now db uid : budget_of (reset_set ids budget now db) uid = budget_of db uid.
Proof.
  unfold budget_of. rewrite reset_set_users. destruct (users db !! uid) as [u|]; [|done]. simpl.
  apply resolve_monthly_budget_ext; try done. unfold reset_user. by case_decide.
Qed.

(** [plans_clear] for every user of the table. *)
Definition all_clear (db : DB) : Prop := forall uid u, users db !! uid = Some u -> plans_clear uid u db.

Lemma plans_clear_ext uid u u' db db' :
  user_department u' = user_department u -> plans db' = plans db -> assignments db' = assignments db ->
  user_group_members db' = user_group_members db -> plans_clear uid u db -> plans_clear uid u' db'.
Proof.
  intros Hd Hp Ha Hm [[] ?].
  split; [split|]; rewrite ?Hd, ?Hp, ?Ha, ?Hm; unfold get_plan in *; rewrite ?Hp; done.
Qed.

Lemma all_clear_reset ids budget now db : all_clear db -> all_clear (reset_set ids budget now db).
Proof.
  intros Hc uid u. rewrite reset_set_users. destruct (users db !! uid) as [u0|] eqn:Hu; [|done].
  simpl. intros [= <-]. eapply (plans_clear_ext uid u0 _ db); try done; [|by apply Hc].
  unfold reset_user. by case_decide.
Qed.

(** ** One user *)

(** Closing a user's holds and resetting its row is [reset_set] on that user. *)
Lemma reset_one_spec uid x now db u :
  users db !! uid = Some u -> rows_wf db ->
  exists n db1, release_open_holds_for_subject SUBJECT_USER uid now db = (Ok n, db1) /\
    users db1 !! uid <> None /\
    update_user uid (_apply_period_reset (month_start now) x) db1 =
      (Ok tt, reset_set {[uid]} (fun _ => x) now db).
Proof.
  intros Hu Hwf.
  assert (Hex : subject_exists SUBJECT_USER uid db = true).
  { apply bool_decide_eq_true_2. unfold reserved_counter. rewrite decide_True by done. rewrite Hu. by eexists. }
  destruct (release_open_holds_spec _ _ now db Hex Hwf) as (n & db1 & Hrun & Hfr & _ & Hrows & _).
  exists n, db1. split; [done|]. destruct Hfr as [? ? ? ? ? Hus Hks]. split.
  { destruct (Hus uid) as (f & -> & _). by rewrite Hu. }
  rewrite update_user_spec. f_equal. apply db_eq; try done; intros i.
  - rewrite reset_set_users. simpl. unfold reset_user. destruct (Hus i) as (f & Hf & Hff).
    destruct (decide (i = uid)) as [->|Hne].
    + rewrite lookup_alter_eq, Hf, Hu. simpl. rewrite decide_True by set_solver. f_equal.
      by destruct Hff as [->|(_ & _ & c & ->)].
    + rewrite lookup_alter_ne by done. destruct Hff as [->|(_ & -> & _)]; [|done].
      rewrite Hf, option_fmap_id. destruct (users db !! i); [|done]. simpl. by rewrite decide_False by set_solver.
  - simpl. destruct (Hks i) as (f & Hf & [->|(Hbad & _)]); [|done]. by rewrite Hf, option_fmap_id.
  - rewrite reset_set_reservations. simpl. rewrite Hrows. destruct (reservations db !! i) as [r|] eqn:Hr; [|done].
    simpl. unfold reset_row. rewrite (decide_ext (is_held SUBJECT_USER uid r) (in_reset {[uid]} r)).
    2:{ unfold is_held, in_reset. set_solver. }
    case_decide as Hd; [|done]. destruct Hd as (Hst & Hsid & Hs). apply elem_of_singleton in Hsid.
    unfold expired_row, open_hold. rewrite Hr. simpl. by rewrite Hst, Hsid, Hex, Hs.
Qed.

Lemma reset_set_budget_ext ids b b' now db :
  (forall uid, uid ∈ ids -> b uid = b' uid) -> reset_set ids b now db = reset_set ids b' now db.
Proof.
  intros Hb. apply db_eq; try done. intros uid. rewrite !reset_set_users. destruct (users db !! uid); [|done].
  simpl. unfold reset_user. case_decide; [by rewrite Hb|done].
Qed.

(** ** One batch *)

Section batch.
Context (fails : Z -> bool) (now : Z).

Definition good (ids : list Z) : gset Z := list_to_set (filter (fun uid => fails uid = false) ids).

Lemma good_app l k : good (l ++ k) = good l ∪ good k.
Proof. unfold good. by rewrite filter_app, list_to_set_app_L. Qed.

Lemma good_cons uid l :
  good (uid :: l) = (if fails uid then ∅ else {[uid]}) ∪ good l.
Proof.
  unfold good. rewrite filter_cons. destruct (fails uid) eqn:Hf; [|by rewrite decide_True].
  rewrite decide_False by done. set_solver.
Qed.

(** The happy path: nobody fails, every row of the batch is reset. *)
Lemma reset_batch_ok (b : Z -> Q) l db :
  rows_wf db -> Forall (fun uid => is_Some (users db !! uid) /\ fails uid = false) l ->
  exists us, for_each (fun uid =>
      _ ← release_open_holds_for_subject SUBJECT_USER uid now;
      _ ← may_fail fails uid;
      update_user uid (_apply_period_reset (month_start now) (b uid))) l db
    = (Ok us, reset_set (list_to_set l) b now db).
Proof.
  revert db. induction l as [|uid l IH]; intros db Hwf Hl; [by exists []; simpl; rewrite reset_set_empty|].
  apply Forall_cons in Hl as [([u Hu] & Hf) Hl]. cbn [for_each].
  destruct (reset_one_spec uid (b uid) now db u Hu Hwf) as (n & db1 & Hrel & _ & Hupd).
  rewrite (op_bind_ok _ _ db tt (reset_set {[uid]} (fun _ => b uid) now db)).
  2:{ rewrite (op_bind_ok _ _ _ _ _ Hrel). unfold may_fail. rewrite Hf. by rewrite (op_bind_ok _ _ _ tt db1). }
  destruct (IH (reset_set {[uid]} (fun _ => b uid) now db)) as [us Hus].
  { by apply reset_set_rows_wf. }
  { eapply Forall_impl; [exact Hl|]. intros v [Hv Hfv]. split; [|done].
    rewrite reset_set_users. by apply fmap_is_Some. }
  rewrite (op_bind_ok _ _ _ _ _ Hus). exists (tt :: us). unfold mret, op_ret. f_equal.
  rewrite (reset_set_budget_ext {[uid]} _ b) by set_solver. by rewrite reset_set_compose.
Qed.

(** A failing row aborts the batch. *)
Lemma reset_batch_raises (b : Z -> Q) l db :
  rows_wf db -> Forall (fun uid => is_Some (users db !! uid)) l -> Exists (fun uid => fails uid = true) l ->
  exists e db', for_each (fun uid =>
      _ ← release_open_holds_for_subject SUBJECT_USER uid now;
      _ ← may_fail fails uid;
      update_user uid (_apply_period_reset (month_start now) (b uid))) l db
    = (Raise e, db').
Proof.
  revert db. induction l as [|uid l IH]; intros db Hwf Hl Hex; [by inversion Hex|].
  apply Forall_cons in Hl as [[u Hu] Hl]. cbn [for_each].
  destruct (reset_one_spec uid (b uid) now db u Hu Hwf) as (n & db1 & Hrel & _ & Hupd).
  destruct (fails uid) eqn:Hf.
  - eexists _, _. apply op_bind_raise. rewrite (op_bind_ok _ _ _ _ _ Hrel). unfold may_fail. rewrite Hf.
    by apply op_bind_raise.
  - rewrite (op_bind_ok _ _ db tt (reset_set {[uid]} (fun _ => b uid) now db)).
    2:{ rewrite (op_bind_ok _ _ _ _ _ Hrel). unfold may_fail. rewrite Hf. by rewrite (op_bind_ok _ _ _ tt db1). }
    destruct (IH (reset_set {[uid]} (fun _ => b uid) now db)) as (e & db' & Hrun).
    { by apply reset_set_rows_wf. }
    { eapply Forall_impl; [exact Hl|]. intros v Hv. rewrite reset_set_users. by apply fmap_is_Some. }
    { apply Exists_cons in Hex as [Hbad|]; [congruence|done]. }
    eexists _, _. by apply op_bind_raise.
Qed.

(** One retry: a failing row is rolled back, another one is reset. *)
Lemma retry_one uid db :
  rows_wf db -> is_Some (users db !! uid) ->
  (user ← gets (fun db => users db !! uid);
   match user with
   | None => mret false
   | Some user =>
       try_commit
         (_ ← release_open_holds_for_subject SUBJECT_USER uid now;
          _ ← may_fail fails uid;
          budget ← gets (resolve_monthly_budget uid user);
          _ ← update_user uid (_apply_period_reset (month_start now) budget);
          mret true)
         (fun _ => mret false)
   end) db
  = (Ok (negb (fails uid)), reset_set (good [uid]) (budget_of db) now db).
Proof.
  intros Hwf [u Hu]. rewrite (op_bind_ok _ _ db (Some u) db) by (unfold gets; by rewrite Hu).
  rewrite good_cons. unfold try_commit.
  destruct (reset_one_spec uid (budget_of db uid) now db u Hu Hwf) as (n & db1 & Hrel & _ & Hupd).
  rewrite (op_bind_ok _ _ _ _ _ Hrel). unfold may_fail. destruct (fails uid) eqn:Hf.
  - rewrite (op_bind_raise _ _ _ (OtherError "bad row") db1) by done.
    replace (∅ ∪ good []) with (∅ : gset Z) by set_solver. by rewrite reset_set_empty.
  - rewrite (op_bind_ok _ _ _ tt db1) by done.
    rewrite (op_bind_ok _ _ db1 (resolve_monthly_budget uid u db1) db1) by done.
    replace (resolve_monthly_budget uid u db1) with (budget_of db uid).
    2:{ unfold budget_of. rewrite Hu. symmetry. apply resolve_monthly_budget_ext; try done.
        all: assert (Hex : subject_exists SUBJECT_USER uid db = true) by
          (apply bool_decide_eq_true_2; unfold reserved_counter; rewrite decide_True by done; rewrite Hu; by eexists).
        all: destruct (release_open_holds_spec _ _ now db Hex Hwf) as (n' & db1' & Hrun & [] & _);
          rewrite Hrel in Hrun; injection Hrun as <- <-; done. }
    rewrite (op_bind_ok _ _ _ _ _ Hupd). unfold mret, op_ret. f_equal.
    replace ({[uid]} ∪ good []) with ({[uid]} : gset Z) by set_solver.
    apply reset_set_budget_ext. set_solver.
Qed.
Lemma retry_all_spec l db :
  rows_wf db -> NoDup l -> Forall (fun uid => is_Some (users db !! uid)) l ->
  _reset_batch_individually fails l (month_start now) now db =
  (Ok (Z.of_nat (size (good l))), reset_set (good l) (budget_of db) now db).
Proof.
  intros Hwf Hnd Hl. unfold _reset_batch_individually.
  match goal with |- (for_each ?B _ ≫= _) _ = _ => set (body := B) end.
  assert (Hall : for_each body l db =
    (Ok ((fun uid => negb (fails uid)) <$> l), reset_set (good l) (budget_of db) now db)).
  { clear Hnd. revert db Hwf Hl. induction l as [|uid l IH]; intros db Hwf Hl.
    { simpl. by rewrite reset_set_empty. }
    apply Forall_cons in Hl as [Hu Hl]. cbn [for_each].
    rewrite (op_bind_ok _ _ _ _ _ (retry_one uid db Hwf Hu)).
    rewrite (op_bind_ok _ _ _ _ _ (IH (reset_set (good [uid]) (budget_of db) now db) (reset_set_rows_wf _ _ _ _ Hwf)
      (Forall_impl _ _ _ Hl (fun v Hv => eq_ind_r is_Some (proj2 (fmap_is_Some _ _) Hv) (reset_set_users _ _ _ _ v))))).
    unfold mret, op_ret. f_equal. rewrite (reset_set_budget_ext (good l) _ (budget_of db)) by
      (intros; apply budget_of_reset).
    rewrite reset_set_compose. by rewrite <- good_app. }
  rewrite (op_bind_ok _ _ _ _ _ Hall). unfold mret, op_ret. do 2 f_equal. unfold count_true. f_equal.
  unfold good. rewrite size_list_to_set by by apply NoDup_filter.
  clear. induction l as [|uid l IH]; [done|]. cbn [fmap list_fmap]. rewrite !filter_cons.
  destruct (fails uid); simpl; [exact IH|f_equal; exact IH].
Qed.
End batch.

Lemma for_each_fmap {S A B C} (f : A -> B) (body : B -> op S C) (l : list A) s :
  for_each body (f <$> l) s = for_each (fun a => body (f a)) l s.
Proof.
  revert s. induction l as [|a l IH]; intros s; [done|]. cbn [fmap list_fmap for_each].
  unfold mbind, op_bind. destruct (body (f a) s) as [[c|e] s']; [|done]. by rewrite IH.
Qed.

Lemma for_each_ext {S A C} (body body' : A -> op S C) (l : list A) s :
  (forall a, a ∈ l -> body a = body' a) -> for_each body l s = for_each body' l s.
Proof.
  revert s. induction l as [|a l IH]; intros s Hb; [done|]. cbn [for_each].
  rewrite (Hb a) by apply list_elem_of_here. unfold mbind, op_bind.
  destruct (body' a s) as [[c|e] s']; [|done]. rewrite IH; [done|]. intros b Hin. by apply Hb, list_elem_of_further.
Qed.

(** Rows read from the users table. *)
Definition table_rows (batch : list (Z * User)) (db : DB) : Prop :=
  NoDup batch.*1 /\ Forall (fun kv => users db !! kv.1 = Some kv.2) batch.

Lemma batch_step fails now batch db :
  rows_wf db -> all_clear db -> table_rows batch db ->
  try_commit (reset_batch fails batch (month_start now) now)
    (fun _ => _reset_batch_individually fails batch.*1 (month_start now) now) db =
  (Ok (Z.of_nat (size (good fails batch.*1))), reset_set (good fails batch.*1) (budget_of db) now db).
Proof.
  intros Hwf Hc [Hnd Hrows]. unfold try_commit, reset_batch.
  rewrite (op_bind_ok _ _ db (resolve_monthly_budgets_batch batch db) db) by done.
  assert (Hex : Forall (fun uid => is_Some (users db !! uid)) batch.*1).
  { apply Forall_fmap. eapply Forall_impl; [exact Hrows|]. intros [k u] Hk. simpl in *. rewrite Hk. by eexists. }
  set (body := fun uid => _ ← release_open_holds_for_subject SUBJECT_USER uid now; _ ← may_fail fails uid;
    update_user uid (_apply_period_reset (month_start now) (budget_of db uid))).
  match goal with |- context [(for_each ?B batch ≫= _) db] =>
    assert (Hbody : forall s, for_each B batch s = for_each body batch.*1 s) end.
  { intros s. rewrite for_each_fmap. apply for_each_ext. intros [k u] Hin. unfold body. simpl.
    rewrite Forall_forall in Hrows. pose proof (Hrows _ Hin) as Hu. simpl in Hu.
    rewrite (batch_budget_resolved batch db k u Hnd Hin (Hc k u Hu)). simpl. unfold budget_of. by rewrite Hu. }
  destruct (decide (Exists (fun uid => fails uid = true) batch.*1)) as [Hbad|Hok].
  - destruct (reset_batch_raises fails now (budget_of db) batch.*1 db Hwf Hex Hbad) as (e & db' & Hrun).
    rewrite (op_bind_raise _ _ _ e db') by by rewrite Hbody. by apply retry_all_spec.
  - assert (Hgood : Forall (fun uid => fails uid = false) batch.*1).
    { apply not_Exists_Forall in Hok; [|apply _]. eapply Forall_impl; [exact Hok|]. intros uid Hn. simpl in Hn. by destruct (fails uid). }
    destruct (reset_batch_ok fails now (budget_of db) batch.*1 db Hwf) as [us Hrun]; [by apply Forall_and|].
    rewrite (op_bind_ok _ _ db us (reset_set (list_to_set batch.*1) (budget_of db) now db)) by by rewrite Hbody.
    assert (Hg : good fails batch.*1 = list_to_set batch.*1).
    { unfold good. f_equal. clear -Hgood. induction Hgood as [|a l Ha Hl IH]; [done|]. by rewrite filter_cons, decide_True, IH. }
    rewrite Hg, size_list_to_set by done. by rewrite length_fmap.
Qed.

(** ** The batches in order *)

(** Users the loop still has to visit after [last_id], failing ones aside. *)
Definition pending (fails : Z -> bool) (last_id : Z) (db : DB) : gset Z :=
  filter (fun uid => last_id < uid /\ fails uid = false) (dom (users db)).

Definition sorted_rows (last_id : Z) (db : DB) : list (Z * User) :=
  sort_by fst (filter (fun kv => last_id < kv.1) (map_to_list (users db))).

Lemma elem_of_sorted_rows last_id db k u :
  (k, u) ∈ sorted_rows last_id db <-> last_id < k /\ users db !! k = Some u.
Proof. unfold sorted_rows. rewrite sort_by_perm, list_elem_of_filter, elem_of_map_to_list. done. Qed.

Lemma NoDup_sorted_rows last_id db : NoDup (sorted_rows last_id db).*1.
Proof. unfold sorted_rows. rewrite sort_by_perm. apply NoDup_keys_filter, NoDup_fst_map_to_list. Qed.

Lemma sorted_rows_split last_id db l k :
  sorted_rows last_id db = l ++ k -> forall x y, x ∈ l -> y ∈ k -> x.1 < y.1.
Proof.
  intros Hs x y Hx Hy.
  assert (Hle : x.1 <= y.1).
  { pose proof (sort_by_sorted fst (filter (fun kv : Z * User => last_id < kv.1) (map_to_list (users db)))) as Hsort.
    fold (sorted_rows last_id db) in Hsort. rewrite Hs in Hsort. apply Sorted_StronglySorted in Hsort.
    - by apply (StronglySorted_app_1_elem_of (key_le fst) l k x y) in Hsort.
    - intros a b c. unfold key_le. lia. }
  pose proof (NoDup_sorted_rows last_id db) as Hnd. rewrite Hs, fmap_app, NoDup_app in Hnd.
  destruct Hnd as (_ & Hdis & _). assert (x.1 <> y.1); [|lia]. intros Heq.
  apply (Hdis x.1); [by apply list_elem_of_fmap_2|]. rewrite Heq. by apply list_elem_of_fmap_2.
Qed.

Lemma elem_of_good fails ids uid : uid ∈ good fails ids <-> uid ∈ ids /\ fails uid = false.
Proof. unfold good. rewrite elem_of_list_to_set, list_elem_of_filter. naive_solver. Qed.

Lemma elem_of_pending fails last_id db uid :
  uid ∈ pending fails last_id db <-> last_id < uid /\ fails uid = false /\ is_Some (users db !! uid).
Proof. unfold pending. rewrite elem_of_filter, elem_of_dom. naive_solver. Qed.

Lemma elem_of_sorted_keys last_id db uid :
  uid ∈ (sorted_rows last_id db).*1 <-> last_id < uid /\ is_Some (users db !! uid).
Proof.
  rewrite list_elem_of_fmap. split.
  - intros ([k u] & -> & [Hlt Hu]%elem_of_sorted_rows). split; [done|]. by eexists.
  - intros [Hlt [u Hu]]. exists (uid, u). split; [done|]. by apply elem_of_sorted_rows.
Qed.

(** The batch the query returns: its rows, and which users come after it. *)
Lemma next_batch_spec last_id db lid lu :
  last (next_batch last_id db) = Some (lid, lu) ->
  table_rows (next_batch last_id db) db /\ last_id < lid /\ is_Some (users db !! lid) /\
  forall uid, is_Some (users db !! uid) ->
    (uid ∈ (next_batch last_id db).*1 <-> last_id < uid <= lid).
Proof.
  intros Hl. change (next_batch last_id db) with (take MONTHLY_RESET_BATCH_SIZE (sorted_rows last_id db)) in *.
  set (batch := take _ _) in *. set (rest := drop MONTHLY_RESET_BATCH_SIZE (sorted_rows last_id db)).
  assert (Hsplit : sorted_rows last_id db = batch ++ rest) by (symmetry; apply take_drop).
  assert (Hin : (lid, lu) ∈ batch) by (apply last_Some in Hl as [b' ->]; apply elem_of_app; right; apply list_elem_of_here).
  assert (Hsub : forall x, x ∈ batch -> x ∈ sorted_rows last_id db) by (intros x Hx; rewrite Hsplit; apply elem_of_app; by left).
  pose proof (proj1 (elem_of_sorted_rows _ _ _ _) (Hsub _ Hin)) as [Hlt Hlu].
  split; [split|split; [done|split; [by eexists|]]].
  - pose proof (NoDup_sorted_rows last_id db) as Hnd. rewrite Hsplit, fmap_app, NoDup_app in Hnd. apply Hnd.
  - apply Forall_forall. intros [k u] Hk. by apply Hsub, elem_of_sorted_rows in Hk as [_ Hk].
  - intros uid Huid. split.
    + intros ([k u] & -> & Hk)%list_elem_of_fmap. simpl. pose proof (proj1 (elem_of_sorted_rows _ _ _ _) (Hsub _ Hk)) as [Hlt' _].
      split; [done|]. apply last_Some in Hl as [b' Hb]. rewrite Hb, elem_of_app, list_elem_of_singleton in Hk.
      destruct Hk as [Hk|[= -> ->]]; [|lia].
      assert (k < lid); [|lia]. apply (sorted_rows_split last_id db b' ((lid, lu) :: rest) ltac:(rewrite Hsplit, Hb; by rewrite <- app_assoc)
        (k, u) (lid, lu)); [done|apply list_elem_of_here].
    + intros [Hgt Hle]. assert (Hs : uid ∈ (sorted_rows last_id db).*1) by by apply elem_of_sorted_keys.
      rewrite Hsplit, fmap_app in Hs. apply elem_of_app in Hs as [|Hs]; [done|].
      apply list_elem_of_fmap in Hs as ([k u] & -> & Hk). simpl in *.
      pose proof (sorted_rows_split last_id db batch rest Hsplit (lid, lu) (k, u) Hin Hk). simpl in *. lia.
Qed.

Lemma next_batch_short last_id db uid :
  (length (next_batch last_id db) < MONTHLY_RESET_BATCH_SIZE)%nat -> is_Some (users db !! uid) ->
  last_id < uid -> uid ∈ (next_batch last_id db).*1.
Proof.
  intros Hlen Hu Hlt. change (next_batch last_id db) with (take MONTHLY_RESET_BATCH_SIZE (sorted_rows last_id db)) in *.
  rewrite length_take in Hlen. rewrite take_ge by lia. by apply elem_of_sorted_keys.
Qed.

(** The users the loop has not passed: its measure. *)
Definition remaining (last_id : Z) (db : DB) : gset Z := filter (fun uid => last_id < uid) (dom (users db)).

Lemma reset_loop_spec fails now fuel : forall last_id count db,
  rows_wf db -> all_clear db -> (size (remaining last_id db) < fuel)%nat ->
  reset_loop fails fuel last_id count now db =
  (Ok (Some (count + Z.of_nat (size (pending fails last_id db)))),
   reset_set (pending fails last_id db) (budget_of db) now db).
Proof.
  induction fuel as [|fuel IH]; intros last_id count db Hwf Hc Hfuel; [lia|]. cbn [reset_loop].
  rewrite (op_bind_ok _ _ db (next_batch last_id db) db) by done.
  destruct (last (next_batch last_id db)) as [[lid lu]|] eqn:Hl.
  2:{ apply last_None in Hl. assert (Hp : pending fails last_id db = ∅).
      { apply set_eq. intros uid. rewrite elem_of_pending. split; [|set_solver]. intros (Hlt & _ & Hu).
        assert (Hin : uid ∈ (next_batch last_id db).*1) by (apply next_batch_short; [rewrite Hl; simpl; unfold MONTHLY_RESET_BATCH_SIZE; lia|done..]).
        rewrite Hl in Hin. by apply elem_of_nil in Hin. }
      rewrite Hp, reset_set_empty, size_empty. unfold mret, op_ret. by rewrite Z.add_0_r. }
  destruct (next_batch_spec last_id db lid lu Hl) as (Hrows & Hlt & Hlid & Hbatch).
  rewrite (op_bind_ok _ _ _ _ _ (batch_step fails now (next_batch last_id db) db Hwf Hc Hrows)).
  set (G := good fails (next_batch last_id db).*1) in *.
  assert (HG : forall uid, uid ∈ G <-> is_Some (users db !! uid) /\ last_id < uid <= lid /\ fails uid = false).
  { intros uid. unfold G. rewrite elem_of_good. destruct Hrows as [_ Hr]. rewrite Forall_forall in Hr. split.
    - intros [Hin Hf]. assert (Hu : is_Some (users db !! uid)).
      { apply list_elem_of_fmap in Hin as ([k u] & -> & Hk). eexists. apply (Hr _ Hk). }
      split; [done|]. split; [by apply Hbatch|done].
    - intros (Hu & Hi & Hf). split; [by apply Hbatch|done]. }
  case_decide as Hlen.
  - assert (HP : pending fails last_id db = G).
    { apply set_eq. intros uid. rewrite elem_of_pending, HG. split; [|naive_solver]. intros (Hlt' & Hf & Hu).
      pose proof (proj1 (Hbatch uid Hu) (next_batch_short last_id db uid Hlen Hu Hlt')). naive_solver. }
    by rewrite HP.
  - set (db1 := reset_set G (budget_of db) now db).
    assert (Hdom : forall uid, is_Some (users db1 !! uid) <-> is_Some (users db !! uid))
      by (intros uid; unfold db1; rewrite reset_set_users; apply fmap_is_Some).
    rewrite IH; [|by apply reset_set_rows_wf|by apply all_clear_reset|].
    2:{ assert (Hsub : remaining lid db1 ⊂ remaining last_id db).
        { split.
          - intros uid. unfold remaining. rewrite !elem_of_filter, !elem_of_dom, Hdom. intros []. split; [lia|done].
          - intros Hs. assert (Hin : lid ∈ remaining lid db1)
              by (apply Hs; unfold remaining; rewrite elem_of_filter, elem_of_dom; done).
            unfold remaining in Hin. rewrite elem_of_filter in Hin. lia. }
        apply subset_size in Hsub. lia. }
    assert (HP : pending fails last_id db = G ∪ pending fails lid db1).
    { apply set_eq. intros uid. rewrite elem_of_union, HG, !elem_of_pending, Hdom.
      destruct (decide (uid <= lid)); naive_solver lia. }
    assert (Hdis : G ## pending fails lid db1).
    { intros uid Hu Hp. apply HG in Hu. apply elem_of_pending in Hp. lia. }
    rewrite HP, size_union by done. rewrite (reset_set_budget_ext (pending fails lid db1) _ (budget_of db)) by
      (intros; apply budget_of_reset).
    unfold db1 at 3. rewrite reset_set_compose. do 3 f_equal. lia.
Qed.

(** C3: the monthly reset reaches every user exactly once, and a bad row costs
    that user alone.  With fuel for more batches than there are users the loop
    ends, answering the number of users it reset.  A user whose row does not
    fail starts this month with nothing used, nothing reserved, the budget its
    plans give and no open hold; a user whose row fails keeps its row and its
    holds; API keys and their holds are untouched.  (Ids are positive and the
    plan tables unambiguous.) *)
Theorem monthly_reset_correct fails fuel now db :
  rows_wf db -> all_clear db -> (forall uid, is_Some (users db !! uid) -> 0 < uid) ->
  (size (dom (users db)) < fuel)%nat ->
  exists db', reset_all_monthly_budgets fails fuel now db =
      (Ok (Some (Z.of_nat (size (filter (fun uid => fails uid = false) (dom (users db)))))), db') /\
    (forall uid, users db' !! uid =
       match users db !! uid with
       | Some u => Some (if fails uid then u
                         else _apply_period_reset (month_start now) (resolve_monthly_budget uid u db) u)
       | None => None
       end) /\
    (forall id r, reservations db !! id = Some r ->
       let reset := subject_type r = SUBJECT_USER /\ is_Some (users db !! subject_id r) /\
                    fails (subject_id r) = false in
       (reset -> exists r', reservations db' !! id = Some r' /\ status r' <> STATUS_HELD) /\
       (~ reset -> reservations db' !! id = Some r)) /\
    api_keys db' = api_keys db.
Proof.
  intros Hwf Hc Hpos Hfuel. unfold reset_all_monthly_budgets.
  assert (Hrem : remaining 0 db = dom (users db)).
  { apply set_eq. intros uid. unfold remaining. rewrite elem_of_filter, elem_of_dom. naive_solver. }
  rewrite reset_loop_spec by (try rewrite Hrem; done).
  assert (Hpend : pending fails 0 db = filter (fun uid => fails uid = false) (dom (users db))).
  { apply set_eq. intros uid. rewrite elem_of_pending, elem_of_filter, elem_of_dom. naive_solver. }
  exists (reset_set (pending fails 0 db) (budget_of db) now db). split; [by rewrite <- Hpend|]. split; [|split; [|done]].
  - intros uid. rewrite reset_set_users. destruct (users db !! uid) as [u|] eqn:Hu; [|done]. cbn [fmap option_fmap option_map]. f_equal.
    unfold reset_user, budget_of. rewrite Hu. destruct (fails uid) eqn:Hf.
    + rewrite decide_False; [done|]. rewrite elem_of_pending. intros (_ & ? & _). congruence.
    + rewrite decide_True; [done|]. apply elem_of_pending. split; [apply Hpos; by rewrite Hu|by rewrite Hu].
  - intros id r Hr. cbv zeta. rewrite reset_set_reservations, Hr. cbn [fmap option_fmap option_map]. unfold reset_row, in_reset.
    assert (Hin : subject_id r ∈ pending fails 0 db <-> is_Some (users db !! subject_id r) /\ fails (subject_id r) = false).
    { rewrite elem_of_pending. naive_solver. }
    split; intros Hreset.
    + case_decide as Hd; eexists; (split; [done|]); [done|]. intros Hs. apply Hd. naive_solver.
    + rewrite decide_False; [done|]. naive_solver.
Qed.

Definition two_users : DB := MkDB
  {[ 1 := MkUser true None 0 5 0 None; 2 := MkUser true None 0 7 0 None ]} ∅ ∅ {[ 1 := MkPlan "p" 30 ]}
  [MkAssignment (Some 1) (Some 1) None None] [] [] [].

Lemma monthly_reset_correct_witness :
  exists db', reset_all_monthly_budgets (fun uid => bool_decide (uid = 2)) 3 0 two_users = (Ok (Some 1), db') /\
    users db' !! 1 = Some (MkUser true None 30 0 0 (Some 0)) /\ users db' !! 2 = Some (MkUser true None 0 7 0 None).
Proof.
  destruct (monthly_reset_correct (fun uid => bool_decide (uid = 2)) 3 0 two_users) as (db' & Hrun & Hu & _).
  - intros id r. vm_compute. discriminate.
  - intros uid u Hu. split; [split|].
    + destruct (decide (uid = 1)) as [->|Hne]; [vm_compute; lia|].
      simpl. rewrite filter_cons, decide_False by (simpl; congruence). vm_compute. lia.
    + vm_compute. lia.
    + intros d _. vm_compute. lia.
    + intros a p Ha _ Hp. apply list_elem_of_singleton in Ha as ->. injection Hp as <-. vm_compute. by eexists.
    + intros a plan Ha Hg. apply list_elem_of_singleton in Ha as ->. discriminate Hg.
  - intros uid [u Hu]. unfold two_users in Hu. simpl in Hu.
    apply lookup_insert_Some in Hu as [[<- _]|[_ [<- _]%lookup_singleton_Some]]; lia.
  - vm_compute. lia.
  - exists db'. split; [rewrite Hrun; vm_compute; reflexivity|]. rewrite !Hu. split; vm_compute; reflexivity.
Defined.
