(* ===== verification/Reserve.v ===== *)
(** * Admission: taking a hold against a budget or a key's credit

    [budget_reservation_service.reserve] with the API-key checks of
    [alpha_router_api_key_service.py].  [new_id] is the fresh uuid of the row,
    [now] the clock during the call. *)

From S2P Require Import Prelude Text Money PyTime Accounts Holds Budgets.
From Stdlib Require Import QArith Qminmax.
#[global] Open Scope Z_scope.

Record Settings := MkSettings {
  budget_soft_overshoot_usd : Q;
  budget_reservation_ttl_seconds : Z
}.

(** ** Idempotency keys *)

Definition _SCOPED_KEY_MAX : Z := 160.

Definition scope_prefix (st : string) (sid : Z) : text :=
  of_string st ++ of_string ":" ++ of_int sid ++ of_string ":".

(** [s[:n]] for a bound that is not negative. *)
Definition slice (n : Z) (s : text) : text := take (Z.to_nat n) s.

Definition _scoped_idempotency_key (st : string) (sid : Z) (key : text) : text :=
  let scoped := scope_prefix st sid ++ key in
  if Z.of_nat (length scoped) <=? _SCOPED_KEY_MAX then scoped
  else
    let digest := sha256_hexdigest (utf8 scoped) in
    let prefix := scope_prefix st sid in
    let room := _SCOPED_KEY_MAX - Z.of_nat (length prefix) - Z.of_nat (length digest) - 1 in
    let head := if 0 <? room then slice room key else [] in
    slice _SCOPED_KEY_MAX (prefix ++ head ++ of_string "~" ++ digest).

Definition _existing_reservation (key : text) (db : DB) : bool :=
  existsb (fun kv => bool_decide (idempotency_key kv.2 = key)) (map_to_list (reservations db)).

(** ** API keys *)

Definition _period_delta (period : string) : Z :=
  if decide (period = "daily"%string) then days 1
  else if decide (period = "weekly"%string) then days 7
  else days 30.

(** [key.reset_period or "monthly"] *)
Definition period_or_monthly (period : string) : string :=
  match period with EmptyString => "monthly"%string | _ => period end.

Definition update_key (kid : Z) (f : AlphaRouterApiKey -> AlphaRouterApiKey) : op DB unit :=
  modify (with_api_keys (alter f kid)).

Definition maybe_reset_key_period (kid now : Z) : op DB unit :=
  key ← gets (fun db => api_keys db !! kid);
  match key with
  | None => mret tt
  | Some key =>
      match period_started_at key with
      | None => update_key kid (set_key_period now)
      | Some start =>
          if _period_delta (period_or_monthly (reset_period key)) <=? now - start then
            _ ← release_open_holds_for_subject SUBJECT_ALPHA_ROUTER_KEY kid now;
            update_key kid (set_key_period now)
          else mret tt
      end
  end.

(** [False] when the key is unusable; an expired key is deactivated. *)
Definition apply_expiration (kid now : Z) : op DB bool :=
  key ← gets (fun db => api_keys db !! kid);
  match key with
  | None => mret false
  | Some key =>
      match expires_at key with
      | Some e => if e <=? now then _ ← update_key kid (set_key_active false); mret false
                  else mret (key_is_active key)
      | None => mret (key_is_active key)
      end
  end.

Definition key_is_unlimited (key : AlphaRouterApiKey) : bool := unlimited_budget key.

Definition ensure_key_usable (kid now : Z) : op DB unit :=
  ok ← apply_expiration kid now;
  if negb ok then raise (HTTPException 403 "API key has expired") else
  active ← gets (fun db => from_option key_is_active false (api_keys db !! kid));
  if negb active then raise (HTTPException 403 "API key is disabled") else
  _ ← maybe_reset_key_period kid now;
  key ← gets (fun db => api_keys db !! kid);
  match key with
  | None => mret tt
  | Some key =>
      let limit := credit_limit_usd key in
      if Qle_bool limit 0 && negb (key_is_unlimited key) then
        raise (HTTPException 402 "API key has no credit limit configured; ask an administrator to set one")
      else if Qltb 0 limit && Qle_bool limit (period_used_usd key) then
        raise (HTTPException 402 "API key credit limit exceeded for this period")
      else mret tt
  end.

(** [UPDATE ... SET period_used = period_used + cost, total_used = total_used + cost] *)
Definition record_key_usage (kid : Z) (cost_usd : Q) (now : Z) : op DB unit :=
  if Qle_bool cost_usd 0 then mret tt else
  _ ← maybe_reset_key_period kid now;
  update_key kid (fun k => charge_key (period_used_usd k + cost_usd) (total_used_usd k + cost_usd) now k).

(** ** Admission *)

Section admission.
Variable settings : Settings.

Definition _hold_fits_balance (amount limit used held : Q) : bool :=
  Qle_bool amount (round8 (limit - used - held)).

Definition _soft_overshoot_tolerance : Q := Qmax 0 (budget_soft_overshoot_usd settings).

(** The hold to take, or [None] to refuse. *)
Definition _soft_hold_allowance (amount limit used held : Q) : option Q :=
  let headroom := round8 (limit - used - held) in
  if Qle_bool headroom 0 then None else
  let shortfall := round8 (amount - headroom) in
  if Qle_bool shortfall 0 then Some amount
  else if Qltb _soft_overshoot_tolerance shortfall then None
  else Some headroom.

(** ["{x:.4f}"] *)
Definition format4 (q : Q) : string :=
  let n := round_half_even (q * 10000) in
  let frac := pretty (Z.abs n mod 10000) in
  String.append (if n <? 0 then "-" else "")
    (String.append (pretty (Z.abs n / 10000))
      (String.append "." (String.append (String.substring 0 (4 - String.length frac) "000") frac))).

Definition _exhausted_detail (amount limit used held : Q) (base_detail scope_label : string) : string :=
  let headroom := round8 (limit - used - held) in
  if Qle_bool headroom 0 then base_detail
  else (base_detail +:+ " This request is estimated at $" +:+ format4 amount +:+ " but only $"
        +:+ format4 headroom +:+ " of " +:+ scope_label +:+ " remains.")%string.

(** The decision on one reading of the held total. *)
Definition evaluate (cost_is_estimated : bool) (amount limit used current_held : Q) : option Q :=
  if cost_is_estimated then _soft_hold_allowance amount limit used current_held
  else if _hold_fits_balance amount limit used current_held then Some amount else None.

(** The held total, repaired if it had drifted, and the hold to take. *)
Definition _admit_hold (st : string) (sid : Z) (amount limit used held : Q)
    (cost_is_estimated : bool) (base_detail scope_label : string) : op DB (Q * Q) :=
  let allowed := evaluate cost_is_estimated amount limit used held in
  decision ←
    match allowed with
    | None =>
        if Qltb 0 held then
          repaired ← reconcile_subject_reserved st sid;
          if Qltb repaired held
          then mret (repaired, evaluate cost_is_estimated amount limit used repaired)
          else mret (held, allowed)
        else mret (held, allowed)
    | Some _ => mret (held, allowed)
    end;
  match decision.2 with
  | None => raise (HTTPException 402 (_exhausted_detail amount limit used decision.1 base_detail scope_label))
  | Some a => mret (decision.1, round8 a)
  end.

(** [max(900, min(86400, int(ttl or 7200)))] *)
Definition reservation_ttl : Z :=
  let ttl := budget_reservation_ttl_seconds settings in
  Z.max 900 (Z.min 86400 (if ttl =? 0 then 7200 else ttl)).

Definition requested_hold (amount_usd : Q) : Q := round8 (Qmax (1 # 10000) amount_usd).

Definition insert_hold (new_id st : string) (sid : Z) (key : text) (operation model : string)
    (amount : Q) (now : Z) : op DB string :=
  _ ← modify (with_reservations (<[new_id :=
    MkReservation st sid key operation model amount None STATUS_HELD None now
      (now + seconds reservation_ttl) None]>));
  mret new_id.

Definition reserve_key (new_id : string) (kid : Z) (amount : Q) (operation model : string)
    (scoped_key : text) (cost_is_estimated : bool) (now : Z) : op DB string :=
  key ← gets (fun db => api_keys db !! kid);
  match key with
  | None => raise (HTTPException 401 "Invalid API key")
  | Some _ =>
      _ ← ensure_key_usable kid now;
      dup ← gets (_existing_reservation scoped_key);
      if (dup : bool) then raise (HTTPException 409 "Duplicate request idempotency key") else
      balance ← gets (fun db => match api_keys db !! kid with
        | Some k => _subject_balance (SubjectKey k) | None => (0, 0, 0)%Q end);
      let '(limit, used, held) := balance in
      admitted ←
        (if Qltb 0 limit then
           _admit_hold SUBJECT_ALPHA_ROUTER_KEY kid amount limit used held cost_is_estimated
             "API key credit limit exceeded for this period." "key credit"
         else mret (held, amount));
      _ ← update_key kid (set_key_reserved (round8 (admitted.1 + admitted.2)));
      insert_hold new_id SUBJECT_ALPHA_ROUTER_KEY kid scoped_key operation model admitted.2 now
  end.

Definition reserve_user (new_id : string) (uid : Z) (amount : Q) (operation model : string)
    (scoped_key : text) (cost_is_estimated : bool) (now : Z) : op DB string :=
  user ← gets (fun db => users db !! uid);
  match user with
  | None => raise (HTTPException 403 "Account disabled")
  | Some user =>
      if negb (user_is_active user) then raise (HTTPException 403 "Account disabled") else
      _ ← ensure_budget_period uid (budget_period_start user) now;
      dup ← gets (_existing_reservation scoped_key);
      if (dup : bool) then raise (HTTPException 409 "Duplicate request idempotency key") else
      balance ← gets (fun db => match users db !! uid with
        | Some u => _subject_balance (SubjectUser u) | None => (0, 0, 0)%Q end);
      let '(limit, used, held) := balance in
      if Qle_bool limit 0 then raise (HTTPException 402 NO_PLAN_BUDGET_DETAIL) else
      admitted ← _admit_hold SUBJECT_USER uid amount limit used held cost_is_estimated
                   (BUDGET_EXCEEDED_DETAIL +:+ ".") "monthly budget";
      _ ← update_user uid (set_user_reserved (round8 (admitted.1 + admitted.2)));
      insert_hold new_id SUBJECT_USER uid scoped_key operation model admitted.2 now
  end.

(** The id of the new row; [None] when there is nobody to hold against. *)
Definition reserve (new_id : string) (user_id api_key_id : option Z) (amount_usd : Q)
    (operation model : string) (key : text) (cost_is_estimated : bool) (now : Z) : op DB (option string) :=
  let amount := requested_hold amount_usd in
  match api_key_id, user_id with
  | Some kid, _ =>
      id ← reserve_key new_id kid amount operation model
             (_scoped_idempotency_key SUBJECT_ALPHA_ROUTER_KEY kid key) cost_is_estimated now;
      mret (Some id)
  | None, Some uid =>
      id ← reserve_user new_id uid amount operation model
             (_scoped_idempotency_key SUBJECT_USER uid key) cost_is_estimated now;
      mret (Some id)
  | None, None => mret None
  end.

(** The hold a running chat turn watches its cost against. *)
Definition bounded_hold_usd (hold : option BudgetReservation) (db : DB) : option Q :=
  match hold with
  | None => None
  | Some hold =>
      if decide (subject_type hold = SUBJECT_ALPHA_ROUTER_KEY) then
        match api_keys db !! subject_id hold with
        | Some key => if Qle_bool (credit_limit_usd key) 0 then None else Some (reserved_usd hold)
        | None => Some (reserved_usd hold)
        end
      else Some (reserved_usd hold)
  end.
End admission.
