(* ===== verification/ReserveFacts.v ===== *)
(** * Facts about admission

    The two admission policies, the second look a refusal takes at the true
    held total, idempotency keys, and API-key checks. *)

From S2P Require Import Prelude Text Money PyTime Accounts Holds HoldsFacts Budgets BudgetsFacts Reserve.
From Stdlib Require Import QArith Qminmax Lqa.
#[global] Open Scope Z_scope.

(** ** The decision *)

Section evaluate.
Context (settings : Settings).
Implicit Types (amount limit used held : Q).

(** A granted hold fits the headroom it was decided on. *)
Lemma evaluate_Some est amount limit used held a :
  is8 amount -> evaluate settings est amount limit used held = Some a -> (0 < amount)%Q ->
  is8 a /\ (0 < a)%Q /\ (a <= amount)%Q /\ (a <= round8 (limit - used - held))%Q /\ (est = false -> a = amount).
Proof.
  unfold evaluate, _hold_fits_balance, _soft_hold_allowance. intros H8 He Ha.
  set (headroom := round8 (limit - used - held)) in *.
  assert (Hh8 : is8 headroom) by apply is8_round8.
  assert (Hs : (round8 (amount - headroom) == amount - headroom)%Q) by by apply round8_id, is8_minus.
  destruct est.
  - destruct (Qle_bool headroom 0) eqn:H0; [done|].
    destruct (Qle_bool (round8 (amount - headroom)) 0) eqn:H1; [injection He as <-|].
    + q_tests. repeat split; try done; lra.
    + destruct (Qltb _ _); [done|]. injection He as <-. q_tests. repeat split; try done; lra.
  - destruct (Qle_bool amount headroom) eqn:H0; [|done]. injection He as <-. q_tests. repeat split; done || lra.
Qed.

(** Less held, more granted: a refusal at one held total is a refusal at any larger one. *)
Lemma evaluate_None_mono est amount limit used held held' :
  is8 amount -> (held <= held')%Q ->
  evaluate settings est amount limit used held = None -> evaluate settings est amount limit used held' = None.
Proof.
  unfold evaluate, _hold_fits_balance, _soft_hold_allowance. intros H8 Hle.
  assert (Hm : (round8 (limit - used - held') <= round8 (limit - used - held))%Q) by (apply round8_mono; lra).
  set (h := round8 (limit - used - held)) in *. set (h' := round8 (limit - used - held')) in *.
  assert (Hm2 : (round8 (amount - h) <= round8 (amount - h'))%Q) by (apply round8_mono; lra).
  destruct est.
  - destruct (Qle_bool h' 0) eqn:H0; [done|]. destruct (Qle_bool h 0) eqn:H1; [q_tests; lra|].
    destruct (Qle_bool (round8 (amount - h)) 0) eqn:H2; [done|].
    destruct (Qle_bool (round8 (amount - h')) 0) eqn:H3; [q_tests; lra|].
    destruct (Qltb _ (round8 (amount - h))) eqn:H4; [|done].
    destruct (Qltb _ (round8 (amount - h'))) eqn:H5; [done|q_tests; lra].
  - destruct (Qle_bool amount h) eqn:H0; [done|]. destruct (Qle_bool amount h') eqn:H1; [q_tests; lra|done].
Qed.

(** The three outcomes of an admission. *)
Lemma admit_hold_spec st sid amount limit used held est base label db :
  rows_wf db -> is8 amount -> (0 < amount)%Q ->
  let repaired := round8 (Qmax 0 (held_sum st sid db)) in
  match _admit_hold settings st sid amount limit used held est base label db with
  | (Ok (h, a), db') =>
      is8 a /\ (0 < a)%Q /\ (a <= amount)%Q /\ (a <= round8 (limit - used - h))%Q /\ (est = false -> a == amount)%Q /\
      ((h = held /\ (db' = db \/ db' = reconciled st sid db)) \/
       (h = repaired /\ (repaired < held)%Q /\ db' = reconciled st sid db))
  | (Raise e, db') =>
      (exists h, e = HTTPException 402 (_exhausted_detail amount limit used h base label) /\ (h = held \/ h = repaired)) /\
      (db' = db \/ db' = reconciled st sid db) /\
      evaluate settings est amount limit used held = None /\
      evaluate settings est amount limit used repaired = None
  end.
Proof.
  intros Hwf H8 Ha repaired. unfold _admit_hold.
  assert (Hrec : reconcile_subject_reserved st sid db = (Ok repaired, reconciled st sid db))
    by (unfold reconciled; by rewrite reconcile_spec).
  assert (H0 : (0 <= repaired)%Q) by (apply round8_ge; [apply is8_0|apply Q.le_max_l]).
  assert (Hgr : forall h a, evaluate settings est amount limit used h = Some a ->
    is8 (round8 a) /\ (0 < round8 a)%Q /\ (round8 a <= amount)%Q /\ (round8 a <= round8 (limit - used - h))%Q /\ (est = false -> round8 a == amount)%Q).
  { intros h a Hev. destruct (evaluate_Some est amount limit used h a H8 Hev Ha) as (Ha8 & Hp & Hle & Hfit & Hst).
    split; [apply is8_round8|]. rewrite (round8_id a Ha8). repeat split; try done. intros Hest. rewrite (Hst Hest). reflexivity. }
  destruct (evaluate settings est amount limit used held) as [a|] eqn:Hev.
  { cbn. destruct (Hgr held a Hev) as (? & ? & ? & ? & ?). repeat split; try done. left. split; [done|by left]. }
  destruct (Qltb 0 held) eqn:Hh.
  - rewrite op_bind_assoc, (op_bind_ok _ _ _ _ _ Hrec).
    destruct (Qltb repaired held) eqn:Hlt.
    all: cbn.
    + destruct (evaluate settings est amount limit used repaired) as [a|] eqn:Hev'; cbn.
      * destruct (Hgr repaired a Hev') as (? & ? & ? & ? & ?). repeat split; try done. right. q_tests. done.
      * split; [by exists repaired; split; [|right]|]. split; [by right|done].
    + split; [by exists held; split; [|left]|]. split; [by right|]. split; [done|].
      q_tests. by apply (evaluate_None_mono _ _ _ _ held repaired).
  - split; [by exists held; split; [|left]|]. split; [by left|]. split; [done|].
    q_tests. apply (evaluate_None_mono _ _ _ _ held repaired); [done|lra|done].
Qed.
End evaluate.

(** ** Scoped idempotency keys *)

(** A 64-bit row id. *)
Definition row_id (sid : Z) : Prop := 0 <= sid < 10 ^ 20.

Definition known_subject (st : string) : Prop := st = SUBJECT_USER \/ st = SUBJECT_ALPHA_ROUTER_KEY.

Lemma scope_prefix_length st sid :
  known_subject st -> row_id sid -> (length (scope_prefix st sid) <= 38)%nat.
Proof.
  intros Hst Hsid. unfold scope_prefix. rewrite !length_app.
  pose proof (of_int_length 20 sid Hsid ltac:(lia)). destruct Hst as [-> | ->]; simpl; lia.
Qed.

(** The prefix can be read back from a key: no digit is a colon. *)
Lemma split_at_colon (d d' r r' : text) :
  Forall (fun c => 48 <= c <= 57) d -> Forall (fun c => 48 <= c <= 57) d' ->
  d ++ 58 :: r = d' ++ 58 :: r' -> d = d' /\ r = r'.
Proof.
  intros Hd. revert d'. induction Hd as [|c d Hc Hd IH]; intros d' Hd' Heq; destruct Hd' as [|c' d' Hc' Hd']; simpl in Heq.
  - by injection Heq.
  - injection Heq. lia.
  - injection Heq. lia.
  - injection Heq as -> Heq. by destruct (IH d' Hd' Heq) as [-> ->].
Qed.

Lemma scope_prefix_inj st st' sid sid' r r' :
  known_subject st -> known_subject st' -> row_id sid -> row_id sid' ->
  scope_prefix st sid ++ r = scope_prefix st' sid' ++ r' -> st = st' /\ sid = sid' /\ r = r'.
Proof.
  intros Hst Hst' [Hs _] [Hs' _]. unfold scope_prefix. rewrite <- !app_assoc.
  assert (Hinj : forall d d' : Z, 0 <= d -> 0 <= d' -> of_int d ++ of_string ":" ++ r = of_int d' ++ of_string ":" ++ r' ->
    d = d' /\ r = r').
  { intros d d' Hd Hd' Heq. apply split_at_colon in Heq as [Heq ->]; [|by apply of_int_digits..].
    split; [by apply of_int_inj|done]. }
  destruct Hst as [-> | ->], Hst' as [-> | ->].
  - intros Heq. apply app_inv_head, app_inv_head in Heq. by destruct (Hinj _ _ Hs Hs' Heq).
  - intros Heq. exfalso. by injection Heq.
  - intros Heq. exfalso. by injection Heq.
  - intros Heq. apply app_inv_head, app_inv_head in Heq. by destruct (Hinj _ _ Hs Hs' Heq).
Qed.

(** The two forms of a scoped key. *)
Definition scoped_fits (st : string) (sid : Z) (key : text) : Prop :=
  Z.of_nat (length (scope_prefix st sid ++ key)) <= _SCOPED_KEY_MAX.

Definition scoped_digest (st : string) (sid : Z) (key : text) : text :=
  sha256_hexdigest (utf8 (scope_prefix st sid ++ key)).

Lemma scoped_short st sid key :
  scoped_fits st sid key -> _scoped_idempotency_key st sid key = scope_prefix st sid ++ key.
Proof. intros Hf. unfold _scoped_idempotency_key. by rewrite (proj2 (Z.leb_le _ _) Hf). Qed.

Lemma scoped_long st sid key :
  known_subject st -> row_id sid -> ~ scoped_fits st sid key ->
  exists head, (length (scope_prefix st sid) + length head = 95)%nat /\
    _scoped_idempotency_key st sid key = scope_prefix st sid ++ head ++ of_string "~" ++ scoped_digest st sid key.
Proof.
  intros Hst Hsid Hf. unfold _scoped_idempotency_key. rewrite (proj2 (Z.leb_gt _ _)) by (unfold scoped_fits in Hf; lia).
  fold (scoped_digest st sid key). pose proof (scope_prefix_length st sid Hst Hsid) as Hp.
  assert (Hdig : length (scoped_digest st sid key) = 64%nat) by apply sha256_hexdigest_length.
  rewrite Hdig. unfold _SCOPED_KEY_MAX. set (n := length (scope_prefix st sid)) in *.
  rewrite (proj2 (Z.ltb_lt 0 _)) by lia. unfold scoped_fits, _SCOPED_KEY_MAX in Hf. rewrite length_app in Hf. fold n in Hf.
  eexists. split; [|unfold slice at 1; rewrite take_ge; [done|]].
  - unfold slice. rewrite length_take. lia.
  - rewrite !length_app, Hdig. unfold slice. rewrite length_take. simpl. fold n. lia.
Qed.

(** the stored idempotency key always fits its column of 160 characters,
    and it is the caller's key verbatim, after the subject, when that fits. *)
Theorem scoped_key_bounded st sid key :
  known_subject st -> row_id sid ->
  (length (_scoped_idempotency_key st sid key) <= 160)%nat /\
  (scoped_fits st sid key -> _scoped_idempotency_key st sid key = scope_prefix st sid ++ key).
Proof.
  intros Hst Hsid. split; [|apply scoped_short].
  destruct (decide (Z.of_nat (length (scope_prefix st sid ++ key)) <= _SCOPED_KEY_MAX)) as [Hf|Hf].
  - rewrite scoped_short by done. unfold _SCOPED_KEY_MAX in Hf. lia.
  - destruct (scoped_long st sid key Hst Hsid Hf) as (head & Hlen & ->). rewrite !length_app.
    unfold scoped_digest. rewrite sha256_hexdigest_length. simpl. lia.
Qed.

Lemma scoped_key_bounded_witness :
  (length (_scoped_idempotency_key SUBJECT_USER 12 (replicate 200 97%Z)) <= 160)%nat.
Proof.
  refine (proj1 (scoped_key_bounded SUBJECT_USER 12 (replicate 200 97) _ _)); [left; reflexivity|].
  split; [discriminate|reflexivity].
Defined.

(** two stored keys are never equal across subjects, and for one subject
    they are equal only for the same caller key, up to a collision of SHA-256
    or a short key that already spells out the other's digest form. *)
Theorem scoped_key_separates st sid key st' sid' key' :
  known_subject st -> known_subject st' -> row_id sid -> row_id sid' -> code_points key -> code_points key' ->
  _scoped_idempotency_key st sid key = _scoped_idempotency_key st' sid' key' ->
  st = st' /\ sid = sid' /\
  (key = key' \/
   (exists b b', b <> b' /\ sha256_hexdigest b = sha256_hexdigest b') \/
   (exists head, key = head ++ of_string "~" ++ scoped_digest st sid key') \/
   (exists head, key' = head ++ of_string "~" ++ scoped_digest st sid key)).
Proof.
  intros Hst Hst' Hsid Hsid' Hcp Hcp' Heq.
  destruct (decide (Z.of_nat (length (scope_prefix st sid ++ key)) <= _SCOPED_KEY_MAX)) as [Hf|Hf];
    destruct (decide (Z.of_nat (length (scope_prefix st' sid' ++ key')) <= _SCOPED_KEY_MAX)) as [Hf'|Hf'].
  - rewrite !scoped_short in Heq by done. apply scope_prefix_inj in Heq as (-> & -> & ->); try done. naive_solver.
  - destruct (scoped_long st' sid' key' Hst' Hsid' Hf') as (head & _ & Hl). rewrite scoped_short, Hl in Heq by done.
    apply scope_prefix_inj in Heq as (-> & -> & ->); try done. naive_solver.
  - destruct (scoped_long st sid key Hst Hsid Hf) as (head & _ & Hl). rewrite (scoped_short st' sid'), Hl in Heq by done.
    apply scope_prefix_inj in Heq as (-> & -> & <-); try done. naive_solver.
  - destruct (scoped_long st sid key Hst Hsid Hf) as (head & Hn & Hl), (scoped_long st' sid' key' Hst' Hsid' Hf') as (head' & Hn' & Hl').
    rewrite Hl, Hl' in Heq. apply scope_prefix_inj in Heq as (<- & <- & Heq); try done.
    apply app_inj_1 in Heq as [_ Heq]; [|lia]. apply app_inv_head in Heq. do 2 (split; [done|]).
    destruct (decide (utf8 (scope_prefix st sid ++ key) = utf8 (scope_prefix st sid ++ key'))) as [Hu|Hu].
    + left. rewrite !utf8_app in Hu. apply app_inv_head in Hu. by apply utf8_inj.
    + right. left. eexists _, _. split; [exact Hu|exact Heq].
Qed.

Lemma scoped_key_separates_witness :
  let key := replicate 3 97 in
  SUBJECT_USER = SUBJECT_USER /\ 12 = 12 /\
  (key = key \/
   (exists b b', b <> b' /\ sha256_hexdigest b = sha256_hexdigest b') \/
   (exists head, key = head ++ of_string "~" ++ scoped_digest SUBJECT_USER 12 key) \/
   (exists head, key = head ++ of_string "~" ++ scoped_digest SUBJECT_USER 12 key)).
Proof.
  intros key. refine (scoped_key_separates SUBJECT_USER 12 key SUBJECT_USER 12 key _ _ _ _ _ _ eq_refl).
  - left; reflexivity.
  - left; reflexivity.
  - split; [discriminate|reflexivity].
  - split; [discriminate|reflexivity].
  - repeat constructor; discriminate.
  - repeat constructor; discriminate.
Defined.

(** ** Properties of admission *)

(** C5: a refusal is always justified by the open holds themselves.  Whatever
    the reserved counter said, when [_admit_hold] refuses, the answer is a 402,
    and the true total of the subject's open holds leaves less than the amount
    (strict policy), or nothing, or a shortfall above the soft tolerance (chat
    policy); no reservation is touched and the counter is at most repaired. *)
Theorem admission_refusal_justified settings st sid amount limit used held est base label db e db' :
  rows_wf db -> is8 amount -> (0 < amount)%Q ->
  _admit_hold settings st sid amount limit used held est base label db = (Raise e, db') ->
  let headroom := round8 (limit - used - held_sum st sid db) in
  (exists detail, e = HTTPException 402 detail) /\
  (if est then (headroom <= 0)%Q \/ (Qmax 0 (budget_soft_overshoot_usd settings) < amount - headroom)%Q
   else (headroom < amount)%Q) /\
  reservations db' = reservations db /\ (db' = db \/ db' = reconciled st sid db).
Proof.
  intros Hwf H8 H0 Hrun headroom.
  pose proof (admit_hold_spec settings st sid amount limit used held est base label db Hwf H8 H0) as Hs.
  cbv zeta in Hs. rewrite Hrun in Hs. destruct Hs as ((h & -> & _) & Hdb & _ & Hev).
  split; [by eexists|]. split; [|split; [destruct Hdb as [-> | ->]; [done|apply reconciled_reservations]|done]].
  assert (Hr : headroom = round8 (limit - used - round8 (Qmax 0 (held_sum st sid db)))).
  { unfold headroom. apply round8_proper. by rewrite (rounded_sum db st sid Hwf). }
  revert Hev. unfold evaluate, _soft_hold_allowance, _hold_fits_balance, _soft_overshoot_tolerance. rewrite <- Hr.
  assert (Hs : (round8 (amount - headroom) == amount - headroom)%Q) by (apply round8_id, is8_minus; [done|apply is8_round8]).
  destruct est.
  - destruct (Qle_bool headroom 0) eqn:H1; [intros _; left; by q_tests|].
    destruct (Qle_bool (round8 (amount - headroom)) 0) eqn:H2; [done|].
    destruct (Qltb _ (round8 (amount - headroom))) eqn:H3; [|done]. intros _. right. q_tests. lra.
  - destruct (Qle_bool amount headroom) eqn:H1; [done|]. intros _. by q_tests.
Qed.

(** The counter says $9 held of $10, the rows say $1. *)
Definition drifted_user : DB :=
  MkDB {[ 1 := MkUser true None 10 0 9 None ]} ∅
    {[ "h"%string := MkReservation SUBJECT_USER 1 [] "chat" "m" 1 None STATUS_HELD None 0 0 None ]} ∅ [] [] [] [].

Lemma admission_refusal_justified_witness :
  let r := _admit_hold (MkSettings 0 7200) SUBJECT_USER 1 20 10 0 9 false "Monthly budget exceeded." "monthly budget" drifted_user in
  exists e, r.1 = Raise e /\ (round8 (10 - 0 - held_sum SUBJECT_USER 1 drifted_user) < 20)%Q.
Proof.
  intros r. destruct r as [[x|e] db'] eqn:Hr; [vm_compute in Hr; discriminate|]. exists e. split; [reflexivity|].
  refine (proj1 (proj2 (admission_refusal_justified (MkSettings 0 7200) SUBJECT_USER 1 20 10 0 9 false _ _ drifted_user e db' _ _ _ Hr))).
  - intros id row Hrow. unfold drifted_user in Hrow; simpl in Hrow. apply lookup_singleton_Some in Hrow as [_ <-]. split; [by exists 100000000|discriminate].
  - by exists 2000000000.
  - reflexivity.
Defined.

(** the answer "API key is disabled" does not exist: a key an
    administrator disabled is always reported as expired. *)
Theorem disabled_key_reported_expired kid now db :
  (ensure_key_usable kid now db).1 <> Raise (HTTPException 403 "API key is disabled") /\
  (forall k, api_keys db !! kid = Some k -> key_is_active k = false ->
     (ensure_key_usable kid now db).1 = Raise (HTTPException 403 "API key has expired")).
Proof.
  unfold ensure_key_usable.
  destruct (apply_expiration kid now db) as [[ok|e] s] eqn:He.
  - rewrite (op_bind_ok _ _ _ _ _ He).
    assert (Hk : ok = true -> s = db /\ exists k, api_keys db !! kid = Some k /\ key_is_active k = true).
    { revert He. unfold apply_expiration, gets, mbind, op_bind, mret, op_ret.
      destruct (api_keys db !! kid) as [k|]; [|naive_solver]. destruct (expires_at k); [destruct (_ <=? _)|]; naive_solver. }
    destruct ok; simpl; [|done]. destruct (Hk eq_refl) as (-> & k & Hkk & Hact). split.
    + rewrite (op_bind_ok _ _ db true db) by (unfold gets; by rewrite Hkk; simpl; rewrite Hact). simpl.
      destruct (maybe_reset_key_period kid now db) as [[[]|e] s1] eqn:Hm.
      * rewrite (op_bind_ok _ _ _ _ _ Hm). unfold gets, mbind, op_bind. destruct (api_keys s1 !! kid); [|done].
        destruct (_ && _); [done|]. by destruct (_ && _).
      * exfalso. revert Hm. unfold maybe_reset_key_period. rewrite (op_bind_ok _ _ db (Some k) db) by (unfold gets; by rewrite Hkk).
        destruct (period_started_at k); [|done]. destruct (_ <=? _); [|done].
        destruct (release_open_holds_run SUBJECT_ALPHA_ROUTER_KEY kid now db) as (n & db1 & Hrun & _).
        by rewrite (op_bind_ok _ _ _ _ _ Hrun).
    + intros k' Hk' Hoff. rewrite Hkk in Hk'. injection Hk' as <-. congruence.
  - exfalso. revert He. unfold apply_expiration, gets, mbind, op_bind, mret, op_ret.
    destruct (api_keys db !! kid) as [k|]; [|done]. destruct (expires_at k); [destruct (_ <=? _)|]; done.
Qed.

Lemma disabled_key_reported_expired_witness :
  let key := MkKey false 10 false "monthly" None 0 0 0 None None in
  let db := MkDB ∅ {[ 1 := key ]} ∅ ∅ [] [] [] [] in
  (ensure_key_usable 1 0 db).1 = Raise (HTTPException 403 "API key has expired").
Proof.
  intros key db. refine (proj2 (disabled_key_reported_expired 1 0 db) key _ _); reflexivity.
Defined.
