(* ===== verification/MoneyTrace.v ===== *)
(** * The budget over any sequence of calls

    What every call of the money code keeps of the tables ([kept]), the
    invariant of the money tables, and the transition system whose steps are
    the calls, each committed or rolled back. *)

From S2P Require Import Prelude Text Money PyTime Accounts Holds HoldsFacts Budgets BudgetsFacts Reserve ReserveFacts.
From Stdlib Require Import QArith Qminmax Lqa.
#[global] Open Scope Z_scope.

(** ** What no call ever changes *)

(** A row stays its subject's, keeps its idempotency key, and once closed it
    never changes again. *)
Definition row_kept (r r' : BudgetReservation) : Prop :=
  subject_of r' = subject_of r /\ idempotency_key r' = idempotency_key r /\
  (status r <> STATUS_HELD -> r' = r).

Lemma row_kept_refl r : row_kept r r.
Proof. done. Qed.

Lemma row_kept_trans r1 r2 r3 : row_kept r1 r2 -> row_kept r2 r3 -> row_kept r1 r3.
Proof.
  intros (H1 & H2 & H3) (H4 & H5 & H6). split; [congruence|split; [congruence|]]. intros Hs.
  specialize (H3 Hs). subst. by apply H6.
Qed.

Record kept (db db' : DB) : Prop := {
  kept_rows : forall id r, reservations db !! id = Some r ->
    exists r', reservations db' !! id = Some r' /\ row_kept r r';
  kept_new : forall id, reservations db !! id = None -> reservations db' !! id = None;
  kept_keys : forall kid k', api_keys db' !! kid = Some k' ->
    exists k, api_keys db !! kid = Some k /\ (period_started_at k' = None -> period_started_at k = None)
}.

Lemma kept_refl db : kept db db.
Proof. split; eauto using row_kept_refl. Qed.

Lemma kept_trans db1 db2 db3 : kept db1 db2 -> kept db2 db3 -> kept db1 db3.
Proof.
  intros [Hr Hn Hk] [Hr' Hn' Hk']. split; [|by auto|].
  - intros id r (r' & H1 & H2)%Hr. apply Hr' in H1 as (r'' & H3 & H4). exists r''. eauto using row_kept_trans.
  - intros kid k (k' & H1 & H2)%Hk'. apply Hk in H1 as (k0 & H3 & H4). exists k0. auto.
Qed.

(** [keeps m]: [m] is [kept]-related to where it starts. *)
Definition keeps {A} (m : op DB A) : Prop := forall db, kept db (m db).2.

Lemma keeps_preserves {A} (m : op DB A) db0 : keeps m -> preserves (kept db0) m.
Proof. intros Hm db Hk. eapply kept_trans; [exact Hk|apply Hm]. Qed.

Lemma preserves_keeps {A} (m : op DB A) : (forall db0, preserves (kept db0) m) -> keeps m.
Proof. intros Hm db. apply Hm, kept_refl. Qed.

Lemma kept_users f db : kept db (with_users f db).
Proof. split; simpl; eauto using row_kept_refl. Qed.

Lemma kept_key kid f db :
  (forall k, period_started_at (f k) = None -> period_started_at k = None) ->
  kept db (with_api_keys (alter f kid) db).
Proof.
  intros Hf. split; simpl; eauto using row_kept_refl. intros kid' k'. rewrite lookup_alter.
  case_decide; [subst|eauto]. intros (k & -> & Hk)%fmap_Some. exists k. split; [done|]. rewrite Hk. apply Hf.
Qed.

Lemma kept_row id r r' db :
  reservations db !! id = Some r -> row_kept r r' -> kept db (with_reservations (<[id := r']>) db).
Proof.
  intros Hr Hk. split; simpl; [| |eauto].
  - intros id' r0 Hr0. rewrite lookup_insert. case_decide; [subst|eauto using row_kept_refl]. simplify_eq. eauto.
  - intros id' Hn. rewrite lookup_insert_ne; [done|]. congruence.
Qed.

Lemma kept_released row actual now db : kept db (released row actual now db).
Proof.
  rewrite released_eq. repeat case_decide; [apply kept_users| |apply kept_refl].
  apply kept_key. intros k. unfold close_key. by destruct actual.
Qed.

Lemma kept_closed id db r st' actual actual' log now :
  open_hold id db = Some r ->
  kept db (with_reservations (<[id := close_row st' actual' log now r]>) (released r actual now db)).
Proof.
  intros (Hr & Hs & _)%open_hold_Some. eapply kept_trans; [apply kept_released|].
  apply (kept_row id r); [by rewrite reservations_released|]. split; [done|]. split; [done|]. by rewrite Hs.
Qed.

Lemma keeps_settle id actual log now db0 : preserves (kept db0) (settle id actual log now).
Proof.
  apply keeps_preserves. intros db. rewrite settle_spec.
  destruct (open_hold id db) eqn:Ho; [by apply kept_closed|apply kept_refl].
Qed.

Lemma keeps_release id expired now db0 : preserves (kept db0) (release id expired now).
Proof.
  apply keeps_preserves. intros db. rewrite release_spec.
  destruct (open_hold id db) eqn:Ho; [by apply kept_closed|apply kept_refl].
Qed.

Lemma kept_set_subject_reserved st sid held db : kept db (_set_subject_reserved st sid held db).2.
Proof. rewrite set_subject_reserved_spec; cbn [snd]. case_decide; [apply kept_users|by apply kept_key]. Qed.

Lemma keeps_set_subject_reserved st sid held db0 : preserves (kept db0) (_set_subject_reserved st sid held).
Proof. apply keeps_preserves. intros db. apply kept_set_subject_reserved. Qed.

Lemma keeps_update_user uid f db0 : preserves (kept db0) (update_user uid f).
Proof. apply keeps_preserves. intros db. apply kept_users. Qed.

Lemma keeps_update_key kid f db0 :
  (forall k, period_started_at (f k) = None -> period_started_at k = None) ->
  preserves (kept db0) (update_key kid f).
Proof. intros Hf. apply keeps_preserves. intros db. by apply kept_key. Qed.

Lemma keeps_reconcile st sid db0 : preserves (kept db0) (reconcile_subject_reserved st sid).
Proof.
  apply keeps_preserves. intros db. rewrite reconcile_spec; cbn [snd].
  destruct (subject_exists _ _ _); [apply kept_set_subject_reserved|apply kept_refl].
Qed.

#[export] Hint Resolve keeps_settle keeps_release keeps_set_subject_reserved keeps_update_user
  keeps_update_key keeps_reconcile : preserves.

Lemma keeps_expire now db0 : preserves (kept db0) (expire_stale_reservations now).
Proof. unfold expire_stale_reservations. auto 10 with preserves. Qed.

Lemma keeps_release_open st sid now db0 : preserves (kept db0) (release_open_holds_for_subject st sid now).
Proof. unfold release_open_holds_for_subject. auto 10 with preserves. Qed.
#[export] Hint Resolve keeps_expire keeps_release_open : preserves.

Lemma keeps_drift lock db0 : preserves (kept db0) (reconcile_drifted_reserved_counters lock).
Proof.
  unfold reconcile_drifted_reserved_counters, _drifted_subject_ids. destruct lock; simpl; auto 15 with preserves.
Qed.

Lemma kept_grown id r g held reserved db : open_hold id db = Some r -> kept db (grown id r g held reserved db).
Proof.
  intros (Hr & Hs & _)%open_hold_Some. unfold grown. eapply kept_trans; [|apply kept_set_subject_reserved].
  apply (kept_row id r); [done|]. split; [done|]. split; [done|]. by rewrite Hs.
Qed.

Lemma keeps_extend id needed db0 : preserves (kept db0) (extend_hold id needed).
Proof.
  apply keeps_preserves. intros db. destruct id as [id|]; [|apply kept_refl].
  destruct (decide (id = EmptyString)) as [->|Hid]; [destruct needed; apply kept_refl|].
  destruct needed as [needed|]; [|destruct id; apply kept_refl].
  destruct (open_hold id db) as [r|] eqn:Ho; [|rewrite extend_hold_closed by done; apply kept_refl].
  destruct (open_hold_balance id db r Ho) as (limit & used & held & unlimited & Hb).
  rewrite (extend_hold_spec id needed db r limit used held unlimited Hid Ho Hb).
  destruct (Qle_bool _ _); [apply kept_refl|]. destruct (headroom_lt _ _); [destruct (Qltb _ _)|].
  - apply (keeps_reconcile _ _ db); apply kept_refl.
  - rewrite grow_hold_spec; cbn [snd]. eapply kept_trans; [apply (keeps_reconcile (subject_type r) (subject_id r) db); apply kept_refl|].
    by apply kept_grown, open_hold_reconciled.
  - rewrite grow_hold_spec; cbn [snd]. by apply kept_grown.
Qed.
#[export] Hint Resolve keeps_drift keeps_extend : preserves.

Lemma keeps_ensure_budget_period uid snapshot now db0 :
  preserves (kept db0) (ensure_budget_period uid snapshot now).
Proof.
  assert (Hsync : preserves (kept db0) (user ← gets (fun db => users db !! uid);
    match user with
    | None => mret tt
    | Some user => budget ← gets (resolve_monthly_budget uid user); update_user uid (set_user_budget budget)
    end)).
  { apply preserves_bind; [auto with preserves|]. intros [u|]; auto with preserves. }
  unfold ensure_budget_period. destruct (period_stale snapshot _); [|exact Hsync].
  apply preserves_bind; [auto with preserves|]. intros [u|]; [|auto with preserves].
  destruct (period_stale _ _); [|exact Hsync]. do 5 (apply preserves_bind; [auto with preserves|intros ?]). exact Hsync.
Qed.

Lemma keeps_maybe_reset kid now db0 : preserves (kept db0) (maybe_reset_key_period kid now).
Proof.
  unfold maybe_reset_key_period. apply preserves_bind; [auto with preserves|]. intros [k|]; [|auto with preserves].
  destruct (period_started_at k); [|apply keeps_update_key; done].
  destruct (_ <=? _); [|auto with preserves]. apply preserves_bind; [auto with preserves|]. intros _. by apply keeps_update_key.
Qed.

Lemma keeps_apply_expiration kid now db0 : preserves (kept db0) (apply_expiration kid now).
Proof.
  unfold apply_expiration. apply preserves_bind; [auto with preserves|]. intros [k|]; [|auto with preserves].
  destruct (expires_at k); [|auto with preserves]. destruct (_ <=? _); [|auto with preserves].
  apply preserves_bind; [by apply keeps_update_key|auto with preserves].
Qed.
#[export] Hint Resolve keeps_ensure_budget_period keeps_maybe_reset keeps_apply_expiration : preserves.

Lemma keeps_ensure_key_usable kid now db0 : preserves (kept db0) (ensure_key_usable kid now).
Proof.
  unfold ensure_key_usable. apply preserves_bind; [auto with preserves|]. intros []; simpl; [|auto with preserves].
  apply preserves_bind; [auto with preserves|]. intros []; simpl; [|auto with preserves].
  apply preserves_bind; [auto with preserves|]. intros _. apply preserves_bind; [auto with preserves|]. intros [k|]; [|auto with preserves].
  destruct (_ && _); [auto with preserves|]. destruct (_ && _); auto with preserves.
Qed.

Lemma keeps_record_usage kid cost now db0 : preserves (kept db0) (record_key_usage kid cost now).
Proof.
  unfold record_key_usage. destruct (Qle_bool _ _); [auto with preserves|].
  apply preserves_bind; [auto with preserves|]. intros _. by apply keeps_update_key.
Qed.

Lemma keeps_admit settings st sid amount limit used held est base label db0 :
  preserves (kept db0) (_admit_hold settings st sid amount limit used held est base label).
Proof.
  unfold _admit_hold. apply preserves_bind.
  - destruct (evaluate _ _ _ _ _ held); [auto with preserves|]. destruct (Qltb 0 held); [|auto with preserves].
    apply preserves_bind; [auto with preserves|]. intros q. destruct (Qltb _ _); auto with preserves.
  - intros [h [a|]]; simpl; auto with preserves.
Qed.
#[export] Hint Resolve keeps_ensure_key_usable keeps_record_usage keeps_admit : preserves.

Lemma keeps_reset_all fails fuel now db0 : preserves (kept db0) (reset_all_monthly_budgets fails fuel now).
Proof.
  assert (Hf : forall uid, preserves (kept db0) (may_fail fails uid)).
  { intros uid. unfold may_fail. destruct (fails uid); auto with preserves. }
  assert (Hind : forall ids period, preserves (kept db0) (_reset_batch_individually fails ids period now)).
  { intros ids period. unfold _reset_batch_individually. apply preserves_bind; [|auto with preserves].
    apply preserves_for_each. intros uid. apply preserves_bind; [auto with preserves|].
    intros [u|]; [|auto with preserves]. apply preserves_try; [|auto with preserves].
    repeat (apply preserves_bind; [auto with preserves|intros ?]). auto with preserves. }
  assert (Hbatch : forall batch period, preserves (kept db0) (reset_batch fails batch period now)).
  { intros batch period. unfold reset_batch. apply preserves_bind; [auto with preserves|]. intros m.
    apply preserves_bind; [|auto with preserves]. apply preserves_for_each. intros uid.
    repeat (apply preserves_bind; [auto with preserves|intros ?]). auto with preserves. }
  unfold reset_all_monthly_budgets. generalize 0 at 1, 0 at 1. induction fuel as [|fuel IH]; intros l c; simpl; [auto with preserves|].
  apply preserves_bind; [auto with preserves|]. intros batch. destruct (last batch) as [[lid u]|]; [|auto with preserves].
  apply preserves_bind; [auto with preserves|]. intros n. case_decide; [auto with preserves|apply IH].
Qed.
#[export] Hint Resolve keeps_reset_all : preserves.

(** ** The counters stay exact *)

Lemma update_user_preserves uid f :
  (forall u, budget_reserved_usd (f u) = budget_reserved_usd u) -> preserves holds_ok (update_user uid f).
Proof. intros Hf db Hok. by apply update_user_ok. Qed.

Lemma update_key_ok kid f db :
  (forall k, period_reserved_usd (f k) = period_reserved_usd k) -> holds_ok db ->
  holds_ok (with_api_keys (alter f kid) db).
Proof.
  intros Hf Hok. split; [apply Hok|]. intros st sid c. rewrite reserved_counter_keys. case_decide as Hd.
  - destruct Hd as [-> ->]. intros Hc. apply (counters_exact db Hok). unfold reserved_counter; simpl.
    rewrite <- Hc. destruct (api_keys db !! kid); simpl; [by rewrite Hf|done].
  - apply (counters_exact db Hok).
Qed.

Lemma update_key_preserves kid f :
  (forall k, period_reserved_usd (f k) = period_reserved_usd k) -> preserves holds_ok (update_key kid f).
Proof. intros Hf db Hok. by apply update_key_ok. Qed.

(** Zeroing the counter of a subject that holds nothing. *)
Lemma zero_user_ok uid f db :
  (forall u, budget_reserved_usd (f u) = 0%Q) -> holds_ok db ->
  (is_Some (users db !! uid) -> held_sum SUBJECT_USER uid db == 0)%Q -> holds_ok (with_users (alter f uid) db).
Proof.
  intros Hf Hok Hz. split; [apply Hok|]. intros st sid c. rewrite reserved_counter_users.
  case_decide as Hd; [|apply (counters_exact db Hok)]. destruct Hd as [-> ->].
  intros (u & Hu & ->)%fmap_Some. rewrite Hf. change (0 == held_sum SUBJECT_USER uid db)%Q.
  rewrite Hz by (rewrite Hu; by eexists). reflexivity.
Qed.

Lemma zero_key_ok kid f db :
  (forall k, period_reserved_usd (f k) = 0%Q) -> holds_ok db ->
  (is_Some (api_keys db !! kid) -> held_sum SUBJECT_ALPHA_ROUTER_KEY kid db == 0)%Q ->
  holds_ok (with_api_keys (alter f kid) db).
Proof.
  intros Hf Hok Hz. split; [apply Hok|]. intros st sid c. rewrite reserved_counter_keys.
  case_decide as Hd; [|apply (counters_exact db Hok)]. destruct Hd as [-> ->].
  intros (k & Hk & ->)%fmap_Some. rewrite Hf. change (0 == held_sum SUBJECT_ALPHA_ROUTER_KEY kid db)%Q.
  rewrite Hz by (rewrite Hk; by eexists). reflexivity.
Qed.

Lemma user_exists uid db : is_Some (users db !! uid) -> subject_exists SUBJECT_USER uid db = true.
Proof.
  intros [u Hu]. apply bool_decide_eq_true_2. unfold reserved_counter. rewrite decide_True by done. rewrite Hu. by eexists.
Qed.

Lemma key_exists kid db : is_Some (api_keys db !! kid) -> subject_exists SUBJECT_ALPHA_ROUTER_KEY kid db = true.
Proof.
  intros [k Hk]. apply bool_decide_eq_true_2. unfold reserved_counter.
  rewrite decide_False, decide_True by done. rewrite Hk. by eexists.
Qed.

(** Closing the holds of a subject, then zeroing its counter. *)
Lemma release_zero_user uid now db :
  holds_ok db ->
  exists n db1, release_open_holds_for_subject SUBJECT_USER uid now db = (Ok n, db1) /\ holds_ok db1 /\
    hold_frame SUBJECT_USER uid db db1 /\ (is_Some (users db1 !! uid) -> held_sum SUBJECT_USER uid db1 == 0)%Q.
Proof.
  intros Hok.
  pose proof (release_open_holds_preserves SUBJECT_USER uid now db Hok) as Hok1.
  destruct (release_open_holds_run SUBJECT_USER uid now db) as (n & db1 & Hrun & Hfr & _ & Hrows).
  rewrite Hrun in *. exists n, (reconciled SUBJECT_USER uid db1). do 3 (split; [done|]).
  intros Hu. apply held_sum_no_rows. eapply held_row_none; [exact Hrows|]. apply user_exists.
  destruct (fr_users _ _ _ _ Hfr uid) as (g & Hg & _). rewrite Hg in Hu. by apply fmap_is_Some in Hu.
Qed.

Lemma release_zero_key kid now db :
  holds_ok db ->
  exists n db1, release_open_holds_for_subject SUBJECT_ALPHA_ROUTER_KEY kid now db = (Ok n, db1) /\ holds_ok db1 /\
    hold_frame SUBJECT_ALPHA_ROUTER_KEY kid db db1 /\
    (is_Some (api_keys db1 !! kid) -> held_sum SUBJECT_ALPHA_ROUTER_KEY kid db1 == 0)%Q.
Proof.
  intros Hok. pose proof (release_open_holds_preserves SUBJECT_ALPHA_ROUTER_KEY kid now db Hok) as Hok1.
  destruct (release_open_holds_run SUBJECT_ALPHA_ROUTER_KEY kid now db) as (n & db1 & Hrun & Hfr & _ & Hrows).
  rewrite Hrun in *. exists n, (reconciled SUBJECT_ALPHA_ROUTER_KEY kid db1). do 3 (split; [done|]).
  intros Hk. apply held_sum_no_rows. eapply held_row_none; [exact Hrows|]. apply key_exists.
  destruct (fr_keys _ _ _ _ Hfr kid) as (g & Hg & _). rewrite Hg in Hk. by apply fmap_is_Some in Hk.
Qed.

(** [release]; [check]; then a write of the user's row that zeroes its counter. *)
Lemma release_check_zero_preserves {A} uid now (check : op DB A) f :
  (forall a u, budget_reserved_usd (f a u) = 0%Q) -> (forall db, (check db).2 = db) ->
  preserves holds_ok (_ ← release_open_holds_for_subject SUBJECT_USER uid now;
                      a ← check; update_user uid (f a)).
Proof.
  intros Hf Hcheck db Hok. destruct (release_zero_user uid now db Hok) as (n & db1 & Hrun & Hok1 & _ & Hz).
  rewrite (op_bind_ok _ _ _ _ _ Hrun). specialize (Hcheck db1). unfold mbind, op_bind.
  destruct (check db1) as [[a|e] db2]; cbn [snd] in Hcheck; subst db2; [|done]. by apply zero_user_ok.
Qed.

Lemma reset_all_preserves fails fuel now : preserves holds_ok (reset_all_monthly_budgets fails fuel now).
Proof.
  assert (Hind : forall ids period, preserves holds_ok (_reset_batch_individually fails ids period now)).
  { intros ids period. unfold _reset_batch_individually. apply preserves_bind; [|auto with preserves].
    apply preserves_for_each. intros uid. apply preserves_bind; [auto with preserves|].
    intros [u|]; [|auto with preserves]. apply preserves_try; [|auto with preserves]. intros db Hok.
    pose proof (release_check_zero_preserves uid now (_ ← may_fail fails uid; gets (resolve_monthly_budget uid u))
      (_apply_period_reset period) (fun _ _ => eq_refl)) as Hp. 
    assert (Hc : forall db, ((_ ← may_fail fails uid; gets (resolve_monthly_budget uid u)) db).2 = db).
    { intros db0. unfold may_fail. by destruct (fails uid). }
    specialize (Hp Hc db Hok). revert Hp. unfold may_fail.
    destruct (release_zero_user uid now db Hok) as (n & db1 & Hrun & _).
    rewrite !(op_bind_ok _ _ _ _ _ Hrun). by destruct (fails uid). }
  assert (Hbatch : forall batch period, preserves holds_ok (reset_batch fails batch period now)).
  { intros batch period. unfold reset_batch. apply preserves_bind; [auto with preserves|]. intros m.
    apply preserves_bind; [|auto with preserves]. apply preserves_for_each. intros uid.
    apply (release_check_zero_preserves uid.1 now (may_fail fails uid.1) (fun _ => _apply_period_reset period (default 0%Q (m !! uid.1)))); [done|].
    intros db. unfold may_fail. by destruct (fails uid.1). }
  unfold reset_all_monthly_budgets. generalize 0 at 1, 0 at 1. induction fuel as [|fuel IH]; intros l c; simpl; [auto with preserves|].
  apply preserves_bind; [auto with preserves|]. intros batch. destruct (last batch) as [[lid u]|]; [|auto with preserves].
  apply preserves_bind; [auto with preserves|]. intros n. case_decide; [auto with preserves|apply IH].
Qed.

Lemma ensure_budget_period_preserves uid snapshot now : preserves holds_ok (ensure_budget_period uid snapshot now).
Proof.
  set (sync := user ← gets (fun db => users db !! uid);
    match user with
    | None => mret tt
    | Some user => budget ← gets (resolve_monthly_budget uid user); update_user uid (set_user_budget budget)
    end).
  assert (Hsync : preserves holds_ok sync).
  { apply preserves_bind; [auto with preserves|]. intros [u|]; [|auto with preserves].
    apply preserves_bind; [auto with preserves|]. intros b. by apply update_user_preserves. }
  unfold ensure_budget_period. fold sync. destruct (period_stale snapshot _); [|exact Hsync].
  apply preserves_bind; [auto with preserves|]. intros [u|]; [|auto with preserves].
  destruct (period_stale _ _); [|exact Hsync]. intros db Hok.
  destruct (release_zero_user uid now db Hok) as (n & db1 & Hrun & Hok1 & _ & Hz). rewrite (op_bind_ok _ _ _ _ _ Hrun).
  rewrite !(op_bind_ok (update_user _ _) _ _ _ _ (update_user_spec _ _ _)).
  rewrite (op_bind_ok (gets _) _ _ _ _ eq_refl). rewrite !(op_bind_ok (update_user _ _) _ _ _ _ (update_user_spec _ _ _)).
  apply Hsync, zero_user_ok; [done|do 2 (apply update_user_ok; [done|]); done|].
  simpl. rewrite !lookup_alter_eq. intros Hu. rewrite (held_sum_reservations _ _ db1) by done. apply Hz.
  by rewrite !fmap_is_Some in Hu.
Qed.

(** ** The invariant of the money tables *)

(** Only a key whose period has started can hold anything. *)
Definition keys_started (db : DB) : Prop :=
  forall id r k, reservations db !! id = Some r -> status r = STATUS_HELD ->
    subject_type r = SUBJECT_ALPHA_ROUTER_KEY -> api_keys db !! subject_id r = Some k ->
    period_started_at k <> None.

Definition keys_unique (db : DB) : Prop :=
  forall id id' r r', reservations db !! id = Some r -> reservations db !! id' = Some r' ->
    idempotency_key r = idempotency_key r' -> id = id'.

Record money_ok (db : DB) : Prop := {
  money_holds : holds_ok db;
  money_started : keys_started db;
  money_unique : keys_unique db
}.

Lemma kept_back db db' id r' :
  kept db db' -> reservations db' !! id = Some r' -> exists r, reservations db !! id = Some r /\ row_kept r r'.
Proof.
  intros Hk Hr'. destruct (reservations db !! id) as [r|] eqn:Hr.
  - apply (kept_rows _ _ Hk) in Hr as (r0 & Hr0 & Hrk). simplify_eq. eauto.
  - apply (kept_new _ _ Hk) in Hr. congruence.
Qed.

Lemma row_kept_held r r' : row_kept r r' -> status r' = STATUS_HELD -> status r = STATUS_HELD.
Proof.
  intros (_ & _ & Hc) Hs. destruct (decide (status r = STATUS_HELD)) as [|Hn]; [done|].
  rewrite (Hc Hn) in Hs. done.
Qed.

Lemma kept_started db db' : kept db db' -> keys_started db -> keys_started db'.
Proof.
  intros Hk Hst id r' k' Hr' Hs Ht Hk' Hnone.
  destruct (kept_back _ _ _ _ Hk Hr') as (r & Hr & Hrk). pose proof (row_kept_held _ _ Hrk Hs) as Hs0.
  destruct Hrk as ([= H1 H2] & _ & _). rewrite H2 in Hk'.
  destruct (kept_keys _ _ Hk _ _ Hk') as (k & Hk0 & Hn). apply (Hst id r k Hr Hs0); [congruence|done|by apply Hn].
Qed.

Lemma kept_unique db db' : kept db db' -> keys_unique db -> keys_unique db'.
Proof.
  intros Hk Hu id id' r r' Hr Hr' Heq.
  destruct (kept_back _ _ _ _ Hk Hr) as (r0 & Hr0 & _ & Hi & _), (kept_back _ _ _ _ Hk Hr') as (r1 & Hr1 & _ & Hi' & _).
  apply (Hu id id' r0 r1); congruence.
Qed.

(** A call that keeps the rows and the counters keeps the invariant. *)
Lemma money_ok_preserves {A} (m : op DB A) :
  preserves holds_ok m -> keeps m -> preserves money_ok m.
Proof.
  intros Hh Hk db []. split; [by apply Hh|eapply kept_started; [apply Hk|done]|eapply kept_unique; [apply Hk|done]].
Qed.

(** Starting or rolling over a key's period. *)
Lemma maybe_reset_money_ok kid now : preserves money_ok (maybe_reset_key_period kid now).
Proof.
  intros db Hok. split; [|eapply kept_started; [apply preserves_keeps; apply keeps_maybe_reset|apply Hok]|
    eapply kept_unique; [apply preserves_keeps; apply keeps_maybe_reset|apply Hok]].
  unfold maybe_reset_key_period. rewrite (op_bind_ok _ _ db (api_keys db !! kid) db) by done.
  destruct (api_keys db !! kid) as [k|] eqn:Hk; [|apply Hok]. destruct (period_started_at k) as [start|] eqn:Hst.
  - destruct (_ <=? _); [|apply Hok]. destruct (release_zero_key kid now db (money_holds _ Hok)) as (n & db1 & Hrun & Hok1 & _ & Hz).
    rewrite (op_bind_ok _ _ _ _ _ Hrun). by apply zero_key_ok.
  - apply zero_key_ok; [done|apply Hok|]. intros _. apply held_sum_no_rows. intros id r Hr (Ht & Hsid & Hs).
    subst. by apply (money_started _ Hok id r k Hr Hs Ht).
Qed.

Lemma apply_expiration_preserves kid now : preserves holds_ok (apply_expiration kid now).
Proof.
  unfold apply_expiration. apply preserves_bind; [auto with preserves|]. intros [k|]; [|auto with preserves].
  destruct (expires_at k); [|auto with preserves]. destruct (_ <=? _); [|auto with preserves].
  apply preserves_bind; [by apply update_key_preserves|auto with preserves].
Qed.

Lemma apply_expiration_money_ok kid now : preserves money_ok (apply_expiration kid now).
Proof. apply money_ok_preserves; [apply apply_expiration_preserves|apply preserves_keeps; auto with preserves]. Qed.

Lemma ensure_key_usable_money_ok kid now : preserves money_ok (ensure_key_usable kid now).
Proof.
  unfold ensure_key_usable. apply preserves_bind; [apply apply_expiration_money_ok|]. intros []; simpl; [|auto with preserves].
  apply preserves_bind; [auto with preserves|]. intros []; simpl; [|auto with preserves].
  apply preserves_bind; [apply maybe_reset_money_ok|]. intros _. apply preserves_bind; [auto with preserves|]. intros [k|]; [|auto with preserves].
  destruct (_ && _); [auto with preserves|]. destruct (_ && _); auto with preserves.
Qed.

Lemma record_usage_money_ok kid cost now : preserves money_ok (record_key_usage kid cost now).
Proof.
  unfold record_key_usage. destruct (Qle_bool _ _); [auto with preserves|].
  apply preserves_bind; [apply maybe_reset_money_ok|]. intros _. apply money_ok_preserves; [by apply update_key_preserves|].
  apply preserves_keeps. intros db0. by apply keeps_update_key.
Qed.

(** ** Taking a hold *)

Definition new_row (settings : Settings) (st : string) (sid : Z) (key : text) (operation model : string)
    (amount : Q) (now : Z) : BudgetReservation :=
  MkReservation st sid key operation model amount None STATUS_HELD None now
    (now + seconds (reservation_ttl settings)) None.

(** The tables after a hold of [a] on top of the held total [h]. *)
Definition hold_taken (new_id : string) (row : BudgetReservation) (h : Q) (db : DB) : DB :=
  with_reservations (<[new_id := row]>)
    (_set_subject_reserved (subject_type row) (subject_id row) (round8 (h + reserved_usd row)) db).2.

Lemma hold_taken_reservations new_id row h db :
  reservations (hold_taken new_id row h db) = <[new_id := row]> (reservations db).
Proof. unfold hold_taken. cbn [with_reservations reservations]. by rewrite set_subject_reserved_reservations. Qed.

Lemma hold_taken_ok new_id row h db :
  holds_ok db -> reservations db !! new_id = None -> status row = STATUS_HELD ->
  is_Some (reserved_counter (subject_type row) (subject_id row) db) ->
  is8 (reserved_usd row) -> (0 <= reserved_usd row)%Q ->
  (h == held_sum (subject_type row) (subject_id row) db)%Q -> holds_ok (hold_taken new_id row h db).
Proof.
  intros Hok Hnew Hs Hex H8 H0 Hh. split.
  - intros id r. rewrite hold_taken_reservations, lookup_insert.
    case_decide; [by intros [= <-]|by apply (rows_ok db Hok)].
  - intros st sid c. unfold hold_taken. change (reserved_counter st sid (_set_subject_reserved (subject_type row)
      (subject_id row) (round8 (h + reserved_usd row)) db).2 = Some c -> (c == held_sum st sid (hold_taken new_id row h db))%Q).
    rewrite set_subject_reserved_counter by done.
    assert (Hsum : (held_sum st sid (hold_taken new_id row h db) == held_amount st sid row + held_sum st sid db)%Q).
    { unfold held_sum. rewrite hold_taken_reservations. by apply Qsum_map_insert_new. }
    rewrite Hsum. case_decide as Hd.
    + intros [= <-]. injection Hd as -> ->. rewrite held_amount_held by done. rewrite round8_id; [rewrite Hh; ring|].
      rewrite Hh. auto using held_sum_is8, rows_ok with money.
    + intros Hc. rewrite held_amount_not, (counters_exact db Hok st sid c Hc); [ring|].
      intros (H1 & H2 & _). apply Hd. by rewrite H1, H2.
Qed.

Lemma hold_taken_money_ok new_id row h db :
  money_ok db -> reservations db !! new_id = None -> status row = STATUS_HELD ->
  is_Some (reserved_counter (subject_type row) (subject_id row) db) ->
  is8 (reserved_usd row) -> (0 <= reserved_usd row)%Q ->
  (h == held_sum (subject_type row) (subject_id row) db)%Q ->
  (forall k, subject_type row = SUBJECT_ALPHA_ROUTER_KEY -> api_keys db !! subject_id row = Some k ->
     period_started_at k <> None) ->
  _existing_reservation (idempotency_key row) db = false ->
  money_ok (hold_taken new_id row h db).
Proof.
  intros Hok Hnew Hs Hex H8 H0 Hh Hst Hdup.
  set (db1 := (_set_subject_reserved (subject_type row) (subject_id row) (round8 (h + reserved_usd row)) db).2).
  assert (Hk1 : kept db db1) by apply kept_set_subject_reserved.
  assert (Hnodup : forall id r, reservations db !! id = Some r -> idempotency_key r <> idempotency_key row).
  { intros id r Hr Heq. unfold _existing_reservation in Hdup. apply not_true_iff_false in Hdup. apply Hdup.
    apply existsb_exists. exists (id, r). split; [by apply list_elem_of_In, elem_of_map_to_list|].
    by apply bool_decide_eq_true_2. }
  split; [apply hold_taken_ok; try done; apply Hok| |].
  - intros id r k. rewrite hold_taken_reservations, lookup_insert. case_decide as Hd.
    + intros [= <-] _ Ht Hk Hn. destruct (kept_keys _ _ Hk1 _ _ Hk) as (k0 & Hk0 & Hn0). by apply (Hst k0 Ht Hk0), Hn0.
    + intros Hr Hheld Ht Hk Hn. destruct (kept_keys _ _ Hk1 _ _ Hk) as (k0 & Hk0 & Hn0).
      by apply (money_started _ Hok id r k0 Hr Hheld Ht Hk0), Hn0.
  - intros id id' r r'. rewrite hold_taken_reservations, !lookup_insert.
    repeat case_decide; subst; try done.
    + intros [= <-] Hr' Heq. by destruct (Hnodup id' r' Hr').
    + intros Hr [= <-] Heq. by destruct (Hnodup id r Hr).
    + apply (money_unique _ Hok).
Qed.

(** ** What a successful [reserve] did *)

(** The key row an accepted request finds. *)
Lemma ensure_key_usable_ok kid now db db' :
  ensure_key_usable kid now db = (Ok tt, db') -> holds_ok db ->
  exists k, api_keys db' !! kid = Some k /\ key_is_active k = true /\ period_started_at k <> None /\
    ((credit_limit_usd k <= 0)%Q -> unlimited_budget k = true) /\
    ((0 < credit_limit_usd k)%Q -> (period_used_usd k < credit_limit_usd k)%Q).
Proof.
  unfold ensure_key_usable. intros He Hok. apply op_bind_inv in He as (usable & s & Hop & He).
  destruct usable; simpl in He; [|done]. apply op_bind_inv in He as (active & s' & Hg & He). injection Hg as <- <-.
  destruct (from_option key_is_active false (api_keys s !! kid)) eqn:Hact; simpl in He; [|done].
  apply op_bind_inv in He as ([] & s1 & Hop0 & He). apply op_bind_inv in He as (row & s2 & Hg & He). injection Hg as <- <-.
  assert (Hs : s = db).
  { unfold apply_expiration, gets, mbind, op_bind, mret, op_ret in Hop.
    destruct (api_keys db !! kid) as [k|]; [|done]. destruct (expires_at k); [destruct (_ <=? _)|]; naive_solver. }
  subst s. destruct (api_keys db !! kid) as [k|] eqn:Hk; [|done]. simpl in Hact.
  assert (Hk' : exists k', api_keys s1 !! kid = Some k' /\ key_is_active k' = true /\ period_started_at k' <> None).
  { revert Hop0. unfold maybe_reset_key_period. rewrite (op_bind_ok _ _ db (Some k) db) by (unfold gets; by rewrite Hk).
    destruct (period_started_at k) as [start|] eqn:Hst.
    - destruct (_ <=? _).
      + destruct (release_zero_key kid now db Hok) as (n & db1 & Hrun & _ & Hfr & _). rewrite (op_bind_ok _ _ _ _ _ Hrun).
        intros [= <-]. simpl. rewrite lookup_alter_eq. destruct (fr_keys _ _ _ _ Hfr kid) as (f & -> & Hf).
        rewrite Hk. simpl. eexists; split; [done|]. split; [|done]. simpl. by destruct Hf as [->|(_ & _ & c & ->)].
      + intros [= <-]. exists k. split; [done|]. by rewrite Hst.
    - intros [= <-]. simpl. rewrite lookup_alter_eq, Hk. simpl. by eexists. }
  destruct Hk' as (k' & Hk' & Ha & Hst). rewrite Hk' in He.
  destruct (Qle_bool (credit_limit_usd k') 0 && negb (key_is_unlimited k')) eqn:H1; [done|].
  destruct (Qltb 0 (credit_limit_usd k') && Qle_bool (credit_limit_usd k') (period_used_usd k')) eqn:H2; [done|].
  injection He as <-. exists k'. repeat (split; [done|]). apply andb_false_iff in H1, H2. split; intros Hl.
  - destruct H1 as [H1|H1]; [q_tests; lra|]. by apply negb_false_iff in H1.
  - destruct H2 as [H2|H2]; q_tests; lra.
Qed.

Lemma balance_of_reconciled st sid db limit used held unlimited :
  balance_of st sid db = Some (limit, used, held, unlimited) ->
  exists held', balance_of st sid (reconciled st sid db) = Some (limit, used, held', unlimited).
Proof.
  intros Hb. pose proof (balance_of_counters _ _ _ _ _ _ _ Hb) as [Hc _].
  unfold reconciled. rewrite reconcile_spec; cbn [snd]. unfold subject_exists.
  rewrite bool_decide_eq_true_2 by by eexists. rewrite set_subject_reserved_spec; cbn [snd].
  revert Hb. unfold balance_of, _locked_subject, gets. cbn [fst]. clear Hc. repeat case_decide; try done; subst.
  - destruct (users db !! sid) as [u|] eqn:Hu; [|done]. simpl. intros [= <- <- <- <-].
    rewrite lookup_alter_eq, Hu. simpl. by eexists.
  - destruct (api_keys db !! sid) as [k|] eqn:Hk; [|done]. simpl. intros [= <- <- <- <-].
    rewrite lookup_alter_eq, Hk. simpl. by eexists.
Qed.

(** A hold of [a] was taken in [db2], which the checks left [db] in. *)
Definition admitted (settings : Settings) (st : string) (sid : Z) (scoped : text) (operation model : string)
    (amount : Q) (est : bool) (now : Z) (new_id : string) (db db' : DB) : Prop :=
  exists db2 limit used held unlimited h a,
    kept db db2 /\ money_ok db2 /\ balance_of st sid db2 = Some (limit, used, held, unlimited) /\
    is8 a /\ (0 < a)%Q /\ (a <= amount)%Q /\ (est = false -> a == amount)%Q /\
    (h == held_sum st sid db2)%Q /\
    (unlimited = false -> used + h + a <= limit + half_unit)%Q /\
    _existing_reservation scoped db2 = false /\
    (forall k, st = SUBJECT_ALPHA_ROUTER_KEY -> api_keys db2 !! sid = Some k -> period_started_at k <> None) /\
    db' = hold_taken new_id (new_row settings st sid scoped operation model a now) h db2.

(** The decision on exact counters: the hold fits what is free. *)
Lemma admit_exact settings st sid amount limit used held unlimited est base label db h a db2 :
  money_ok db -> is8 amount -> (0 < amount)%Q -> balance_of st sid db = Some (limit, used, held, unlimited) ->
  _admit_hold settings st sid amount limit used held est base label db = (Ok (h, a), db2) ->
  money_ok db2 /\ kept db db2 /\ (exists held', balance_of st sid db2 = Some (limit, used, held', unlimited)) /\
  reservations db2 = reservations db /\
  is8 a /\ (0 < a)%Q /\ (a <= amount)%Q /\ (est = false -> a == amount)%Q /\ (h == held_sum st sid db2)%Q /\
  (used + h + a <= limit + half_unit)%Q.
Proof.
  intros Hok H8 H0 Hb Hrun.
  pose proof (admit_hold_spec settings st sid amount limit used held est base label db (rows_ok _ (money_holds _ Hok)) H8 H0) as Hs.
  cbv zeta in Hs. rewrite Hrun in Hs. destruct Hs as (Ha8 & Ha0 & Hle & Hfit & Hest & Hcase).
  pose proof (balance_of_counters _ _ _ _ _ _ _ Hb) as [Hc _].
  pose proof (counters_exact _ (money_holds _ Hok) _ _ _ Hc) as Hheld.
  assert (Hh : h = held /\ (db2 = db \/ db2 = reconciled st sid db)).
  { destruct Hcase as [Hcase|(_ & Hlt & _)]; [done|]. exfalso.
    rewrite rounded_sum in Hlt by apply Hok. lra. }
  destruct Hh as [-> Hdb]. clear Hcase.
  assert (Hrec : money_ok (reconciled st sid db)).
  { apply (money_ok_preserves (reconcile_subject_reserved st sid)); [auto with preserves|apply preserves_keeps; auto with preserves|done]. }
  assert (Hrk : kept db (reconciled st sid db)) by (apply (keeps_reconcile st sid db); apply kept_refl).
  assert (Hrows : reservations db2 = reservations db) by (destruct Hdb as [->| ->]; [done|apply reconciled_reservations]).
  split; [by destruct Hdb as [->| ->]|]. split; [destruct Hdb as [->| ->]; auto using kept_refl|].
  split; [destruct Hdb as [->| ->]; [by eexists|by eapply balance_of_reconciled]|].
  repeat (split; [done|]). split; [by rewrite (held_sum_reservations _ _ _ _ Hrows)|].
  pose proof (round8_err (limit - used - held)). lra.
Qed.

Lemma requested_hold_ok amount : is8 (requested_hold amount) /\ (0 < requested_hold amount)%Q.
Proof.
  split; [apply is8_round8|]. unfold requested_hold.
  assert ((1 # 10000) <= round8 (Qmax (1 # 10000) amount))%Q; [|lra].
  apply round8_ge; [by exists 10000|apply Q.le_max_l].
Qed.

Lemma reserve_key_admitted settings new_id kid amount operation model scoped est now db id db' :
  money_ok db -> is8 amount -> (0 < amount)%Q ->
  reserve_key settings new_id kid amount operation model scoped est now db = (Ok id, db') ->
  id = new_id /\
  admitted settings SUBJECT_ALPHA_ROUTER_KEY kid scoped operation model amount est now new_id db db'.
Proof.
  intros Hok H8 H0 Hrun. unfold reserve_key in Hrun.
  apply op_bind_inv in Hrun as (k0 & s & Hg & Hrun). injection Hg as <- <-.
  destruct (api_keys db !! kid) as [k0|] eqn:Hk0; [|done].
  apply op_bind_inv in Hrun as ([] & db1 & Huse & Hrun).
  pose proof (ensure_key_usable_money_ok kid now db Hok) as Hok1. rewrite Huse in Hok1. cbn [snd] in Hok1.
  pose proof (keeps_ensure_key_usable kid now db db (kept_refl db)) as Hk1. rewrite Huse in Hk1. cbn [snd] in Hk1.
  destruct (ensure_key_usable_ok kid now db db1 Huse (money_holds _ Hok)) as (k & Hk & Hact & Hst & Hunl & Hlim).
  apply op_bind_inv in Hrun as (dup & s & Hg & Hrun). injection Hg as <- <-.
  destruct (_existing_reservation scoped db1) eqn:Hdup; [done|].
  apply op_bind_inv in Hrun as (bal & s & Hg & Hrun). injection Hg as <- <-. rewrite Hk in Hrun. simpl in Hrun.
  assert (Hb : balance_of SUBJECT_ALPHA_ROUTER_KEY kid db1 =
    Some (credit_limit_usd k, period_used_usd k, period_reserved_usd k, Qle_bool (credit_limit_usd k) 0)).
  { unfold balance_of, _locked_subject, gets. cbn [fst]. rewrite decide_False, decide_True by done. by rewrite Hk. }
  apply op_bind_inv in Hrun as ([h a] & db2 & Hadm & Hrun).
  apply op_bind_inv in Hrun as ([] & db3 & Hupd & Hrun). injection Hupd as <-.
  apply op_bind_inv in Hrun as ([] & db4 & Hins & Hrun). injection Hins as <-. injection Hrun as <- <-.
  split; [done|]. destruct (Qltb 0 (credit_limit_usd k)) eqn:Hpos.
  - destruct (admit_exact _ _ _ _ _ _ _ _ _ _ _ _ _ _ _ Hok1 H8 H0 Hb Hadm) as
      (Hok2 & Hk2 & [held' Hb2] & Hrows & Ha8 & Ha0 & Hle & Hest & Hh & Hfit).
    exists db2, (credit_limit_usd k), (period_used_usd k), held', (Qle_bool (credit_limit_usd k) 0), h, a.
    split_and!; try done; [by eapply kept_trans|unfold _existing_reservation in *; by rewrite Hrows|].
    intros k2 _ Hk2' Hn. destruct (kept_keys _ _ Hk2 _ _ Hk2') as (k1 & Hk1' & Hn1). simplify_eq. auto.
  - injection Hadm as <- <- <-. apply Qltb_ge in Hpos.
    exists db1, (credit_limit_usd k), (period_used_usd k), (period_reserved_usd k), (Qle_bool (credit_limit_usd k) 0),
      (period_reserved_usd k), amount.
    pose proof (balance_of_counters _ _ _ _ _ _ _ Hb) as [Hc _].
    split_and!; try done; [lra|apply (counters_exact _ (money_holds _ Hok1) _ _ _ Hc)| |intros; by simplify_eq].
    intros Hu. apply Qle_bool_false in Hu. lra.
Qed.

Lemma reserve_user_admitted settings new_id uid amount operation model scoped est now db id db' :
  money_ok db -> is8 amount -> (0 < amount)%Q ->
  reserve_user settings new_id uid amount operation model scoped est now db = (Ok id, db') ->
  id = new_id /\ admitted settings SUBJECT_USER uid scoped operation model amount est now new_id db db'.
Proof.
  intros Hok H8 H0 Hrun. unfold reserve_user in Hrun.
  apply op_bind_inv in Hrun as (u0 & s & Hg & Hrun). injection Hg as <- <-.
  destruct (users db !! uid) as [u0|] eqn:Hu0; [|done]. destruct (user_is_active u0); simpl in Hrun; [|done].
  apply op_bind_inv in Hrun as ([] & db1 & Huse & Hrun).
  pose proof (keeps_ensure_budget_period uid (budget_period_start u0) now db db (kept_refl db)) as Hk1.
  pose proof (money_ok_preserves _ (ensure_budget_period_preserves uid (budget_period_start u0) now)
    (preserves_keeps _ (keeps_ensure_budget_period _ _ _)) db Hok) as Hok1.
  rewrite Huse in Hok1, Hk1. cbn [snd] in Hok1, Hk1.
  apply op_bind_inv in Hrun as (dup & s & Hg & Hrun). injection Hg as <- <-.
  destruct (_existing_reservation scoped db1) eqn:Hdup; [done|].
  apply op_bind_inv in Hrun as (bal & s & Hg & Hrun). injection Hg as <- <-.
  destruct (users db1 !! uid) as [u|] eqn:Hu; [|done]. simpl in Hrun.
  assert (Hb : balance_of SUBJECT_USER uid db1 = Some (monthly_budget_usd u, budget_used_usd u, budget_reserved_usd u, false)).
  { unfold balance_of, _locked_subject, gets. cbn [fst]. rewrite decide_True by done. by rewrite Hu. }
  destruct (Qle_bool (monthly_budget_usd u) 0); [done|].
  apply op_bind_inv in Hrun as ([h a] & db2 & Hadm & Hrun).
  apply op_bind_inv in Hrun as ([] & db3 & Hupd & Hrun). injection Hupd as <-.
  apply op_bind_inv in Hrun as ([] & db4 & Hins & Hrun). injection Hins as <-. injection Hrun as <- <-.
  split; [done|].
  destruct (admit_exact _ _ _ _ _ _ _ _ _ _ _ _ _ _ _ Hok1 H8 H0 Hb Hadm) as
    (Hok2 & Hk2 & [held' Hb2] & Hrows & Ha8 & Ha0 & Hle & Hest & Hh & Hfit).
  exists db2, (monthly_budget_usd u), (budget_used_usd u), held', false, h, a.
  split_and!; try done; [by eapply kept_trans|unfold _existing_reservation in *; by rewrite Hrows].
Qed.

(** The subject a request is held against, and its scoped key. *)
Definition subject_for (user_id api_key_id : option Z) : option (string * Z) :=
  match api_key_id, user_id with
  | Some kid, _ => Some (SUBJECT_ALPHA_ROUTER_KEY, kid)
  | None, Some uid => Some (SUBJECT_USER, uid)
  | None, None => None
  end.

Lemma reserve_admitted settings new_id user_id api_key_id amount operation model key est now db id db' :
  money_ok db -> reserve settings new_id user_id api_key_id amount operation model key est now db = (Ok (Some id), db') ->
  exists st sid, subject_for user_id api_key_id = Some (st, sid) /\ id = new_id /\
    admitted settings st sid (_scoped_idempotency_key st sid key) operation model (requested_hold amount) est now new_id db db'.
Proof.
  intros Hok Hrun. destruct (requested_hold_ok amount) as [H8 H0]. unfold reserve in Hrun.
  destruct api_key_id as [kid|]; [|destruct user_id as [uid|]; [|done]];
    apply op_bind_inv in Hrun as (id' & s & Hr & Hrun); injection Hrun as -> ->; eexists _, _;
    (split; [done|]); [by eapply reserve_key_admitted|by eapply reserve_user_admitted].
Qed.

Lemma balance_is_Some st sid db b : balance_of st sid db = Some b -> is_Some (reserved_counter st sid db).
Proof. destruct b as [[[limit used] held] unl]. intros [Hc _]%balance_of_counters. by eexists. Qed.

Lemma admitted_money_ok settings st sid scoped operation model amount est now new_id db db' :
  reservations db !! new_id = None ->
  admitted settings st sid scoped operation model amount est now new_id db db' -> money_ok db'.
Proof.
  intros Hnew (db2 & limit & used & held & unl & h & a & Hk & Hok & Hb & Ha8 & Ha0 & _ & _ & Hh & _ & Hdup & Hst & ->).
  apply hold_taken_money_ok; try done.
  - by apply (kept_new _ _ Hk).
  - by eapply balance_is_Some.
  - simpl. lra.
Qed.

(** ** Sequences of calls *)

Inductive call :=
  | Reserve (new_id : string) (user_id api_key_id : option Z) (amount : Q) (operation model : string)
      (key : text) (cost_is_estimated : bool)
  | Settle (id : string) (actual : Q) (log : option Z)
  | Release (id : string) (expired : bool)
  | ExtendHold (id : option string) (needed : pyfloat)
  | ExpireStale
  | ReconcileDrift (lock : bool)
  | ReleaseAll (st : string) (sid : Z)
  | EnsurePeriod (uid : Z) (snapshot : option Z)
  | MonthlyReset (fails : Z -> bool) (fuel : nat)
  | KeyUsable (kid : Z)
  | RecordKeyUsage (kid : Z) (cost : Q).

Definition run (settings : Settings) (c : call) (now : Z) : op DB unit :=
  match c with
  | Reserve i u k a o m key est => _ ← reserve settings i u k a o m key est now; mret tt
  | Settle i a log => _ ← settle i a log now; mret tt
  | Release i expired => _ ← release i expired now; mret tt
  | ExtendHold i needed => _ ← extend_hold i needed; mret tt
  | ExpireStale => _ ← expire_stale_reservations now; mret tt
  | ReconcileDrift lock => _ ← reconcile_drifted_reserved_counters lock; mret tt
  | ReleaseAll st sid => _ ← release_open_holds_for_subject st sid now; mret tt
  | EnsurePeriod uid snapshot => ensure_budget_period uid snapshot now
  | MonthlyReset fails fuel => _ ← reset_all_monthly_budgets fails fuel now; mret tt
  | KeyUsable kid => ensure_key_usable kid now
  | RecordKeyUsage kid cost => record_key_usage kid cost now
  end.

(** [uuid4()] gives an id no row has. *)
Definition fresh_call (c : call) (db : DB) : Prop :=
  match c with Reserve i _ _ _ _ _ _ _ => reservations db !! i = None | _ => True end.

(** A call either commits its writes or, when it raises, leaves no trace. *)
Inductive money_step (settings : Settings) (db : DB) : DB -> Prop :=
  | step_commit c now db' :
      fresh_call c db -> run settings c now db = (Ok tt, db') -> money_step settings db db'
  | step_rollback c now e db' :
      fresh_call c db -> run settings c now db = (Raise e, db') -> money_step settings db db.

Lemma then_ret_preserves {A} (I : DB -> Prop) (m : op DB A) : preserves I m -> preserves I (_ ← m; mret tt).
Proof. intros Hm. apply preserves_bind; [done|auto with preserves]. Qed.

Lemma run_preserves settings c now :
  (forall i u k a o m key est, c <> Reserve i u k a o m key est) -> preserves money_ok (run settings c now).
Proof.
  intros Hne. destruct c; [by destruct (Hne new_id user_id api_key_id amount operation model key cost_is_estimated)|..];
    simpl; try apply then_ret_preserves;
    try (apply money_ok_preserves; [auto using expire_stale_preserves, reset_all_preserves, ensure_budget_period_preserves,
      release_open_holds_preserves with preserves|apply preserves_keeps; auto with preserves]; done).
  - apply ensure_key_usable_money_ok.
  - apply record_usage_money_ok.
Qed.

(** Rows present at the start, after the step. *)
Lemma run_rows settings c now db db' :
  money_ok db -> fresh_call c db -> run settings c now db = (Ok tt, db') ->
  forall id r, reservations db !! id = Some r -> exists r', reservations db' !! id = Some r' /\ row_kept r r'.
Proof.
  intros Hok Hfresh Hrun.
  assert (Hk : forall {A} (m : op DB A), (forall db0, preserves (kept db0) m) -> (m db).2 = db' -> kept db db').
  { intros A m Hm <-. by apply preserves_keeps. }
  destruct c; simpl in Hrun.
  2-11: apply (kept_rows db db'); (eapply Hk; [|by rewrite Hrun]); intros db0; try apply then_ret_preserves; auto with preserves.
  apply op_bind_inv in Hrun as (o & s & Hr & Hm). injection Hm as <-.
  destruct o as [id'|]; [|apply kept_rows].
  - destruct (reserve_admitted _ _ _ _ _ _ _ _ _ _ _ _ _ Hok Hr) as (st & sid & _ & -> & Hadm).
    destruct Hadm as (db2 & limit & used & held & unl & h & a & Hkept & _ & _ & _ & _ & _ & _ & _ & _ & _ & _ & ->).
    intros id r Hid. destruct (kept_rows _ _ Hkept id r Hid) as (r' & Hr' & Hrk). exists r'. split; [|done].
    rewrite hold_taken_reservations, lookup_insert_ne; [done|]. intros ->. simpl in Hfresh. congruence.
  - unfold reserve in Hr. destruct api_key_id; [|destruct user_id];
      [apply op_bind_inv in Hr as (? & ? & _ & Hr); discriminate..|]. injection Hr as <-. apply kept_refl.
Qed.

Lemma money_step_ok settings db db' : money_ok db -> money_step settings db db' -> money_ok db'.
Proof.
  intros Hok Hstep. destruct Hstep as [c now db' Hfresh Hrun|]; [|done].
  assert (Hd : (exists i u k a o m key est, c = Reserve i u k a o m key est) \/
    forall i u k a o m key est, c <> Reserve i u k a o m key est) by (destruct c; naive_solver).
  destruct Hd as [(i & u & k & a & o & m & key & est & ->)|Hne].
  - simpl in Hrun. apply op_bind_inv in Hrun as (r & s & Hr & Hm). injection Hm as <-. destruct r as [id|].
    + destruct (reserve_admitted _ _ _ _ _ _ _ _ _ _ _ _ _ Hok Hr) as (st & sid & _ & -> & Hadm).
      by eapply admitted_money_ok.
    + unfold reserve in Hr. destruct k; [|destruct u];
        [apply op_bind_inv in Hr as (? & ? & _ & Hr); discriminate..|]. by injection Hr as <-.
  - pose proof (run_preserves settings c now Hne db Hok) as Hp. by rewrite Hrun in Hp.
Qed.

Lemma money_step_rows settings db db' :
  money_ok db -> money_step settings db db' ->
  forall id r, reservations db !! id = Some r -> exists r', reservations db' !! id = Some r' /\ row_kept r r'.
Proof.
  intros Hok Hstep. destruct Hstep as [c now db' Hfresh Hrun|]; [by eapply run_rows|]. eauto using row_kept_refl.
Qed.

(** ** Properties *)

(** C1: the safety of the money tables over every sequence of calls, each
    committed or rolled back: the reserved counter of every user and key is
    exactly the sum of its open holds, no idempotency key is ever held twice,
    no hold disappears or changes owner, and a hold that was settled, released
    or expired never changes again, so it cannot be charged a second time. *)
Theorem money_trace_safe settings db db' :
  money_ok db -> rtc (money_step settings) db db' ->
  (forall st sid c, reserved_counter st sid db' = Some c -> (c == held_sum st sid db')%Q) /\
  keys_unique db' /\
  (forall id r, reservations db !! id = Some r ->
     exists r', reservations db' !! id = Some r' /\ subject_of r' = subject_of r /\
       idempotency_key r' = idempotency_key r /\ (status r <> STATUS_HELD -> r' = r)).
Proof.
  intros Hok Hrtc.
  assert (Hall : money_ok db' /\ forall id r, reservations db !! id = Some r ->
    exists r', reservations db' !! id = Some r' /\ row_kept r r').
  { apply (rtc_invariant (money_step settings) (fun s => money_ok s /\ forall id r, reservations db !! id = Some r ->
      exists r', reservations s !! id = Some r' /\ row_kept r r') db db'); [|done|split; eauto using row_kept_refl].
    intros x y [Hx Hrows] Hstep. split; [by eapply money_step_ok|].
    intros id r (r1 & Hr1 & Hk1)%Hrows. destruct (money_step_rows _ _ _ Hx Hstep id r1 Hr1) as (r2 & Hr2 & Hk2).
    eauto using row_kept_trans. }
  destruct Hall as [Hok' Hrows]. split; [apply (counters_exact _ (money_holds _ Hok'))|]. split; [apply Hok'|].
  intros id r (r' & Hr' & Hs & Hi & Hc)%Hrows. eauto.
Qed.

(** C2: an accepted request never commits more than the budget.  After a
    [reserve] that answers an id, there is a fresh open hold for the caller's
    subject, of at most the requested amount and exactly that amount under the
    strict policy, the subject's counter is the sum of its holds, and unless
    the key is unlimited, spent plus held is at most the limit (up to half of
    the last decimal). *)
Theorem reserve_within_limit settings new_id user_id api_key_id amount operation model key est now db id db' :
  money_ok db -> reservations db !! new_id = None ->
  reserve settings new_id user_id api_key_id amount operation model key est now db = (Ok (Some id), db') ->
  exists st sid row limit used held unlimited,
    subject_for user_id api_key_id = Some (st, sid) /\
    open_hold id db' = Some row /\ subject_of row = (st, sid) /\
    idempotency_key row = _scoped_idempotency_key st sid key /\
    (0 < reserved_usd row <= requested_hold amount)%Q /\
    (est = false -> reserved_usd row == requested_hold amount)%Q /\
    balance_of st sid db' = Some (limit, used, held, unlimited) /\ (held == held_sum st sid db')%Q /\
    (unlimited = false -> used + held <= limit + half_unit)%Q.
Proof.
  intros Hok Hnew Hrun. destruct (reserve_admitted _ _ _ _ _ _ _ _ _ _ _ _ _ Hok Hrun) as (st & sid & Hsub & -> & Hadm).
  pose proof (admitted_money_ok _ _ _ _ _ _ _ _ _ _ _ _ Hnew Hadm) as Hok'.
  destruct Hadm as (db2 & limit & used & held & unl & h & a & Hkept & Hok2 & Hb & Ha8 & Ha0 & Hle & Hest & Hh & Hfit & _ & _ & ->).
  set (row := new_row _ _ _ _ _ _ _ _) in *. 
  assert (Hb' : balance_of st sid (hold_taken new_id row h db2) = Some (limit, used, round8 (h + a), unl)).
  { revert Hb. unfold hold_taken. rewrite set_subject_reserved_spec; cbn [snd]. unfold balance_of, _locked_subject, gets. cbn [fst].
    unfold row; simpl. repeat case_decide; try done; subst.
    - simpl. destruct (users db2 !! sid) as [u|] eqn:Hu; [|done]. simpl. intros [= <- <- <- <-].
      by rewrite lookup_alter_eq, Hu.
    - simpl. destruct (api_keys db2 !! sid) as [k|] eqn:Hk; [|done]. simpl. intros [= <- <- <- <-].
      by rewrite lookup_alter_eq, Hk. }
  pose proof (balance_of_counters _ _ _ _ _ _ _ Hb') as [Hc _].
  exists st, sid, row, limit, used, (round8 (h + a)), unl.
  split_and!; try done.
  - unfold open_hold, subject_exists. rewrite hold_taken_reservations, lookup_insert_eq. simpl. rewrite Hc.
    by rewrite !bool_decide_eq_true_2 by (done || by eexists).
  - apply (counters_exact _ (money_holds _ Hok') _ _ _ Hc).
  - intros Hu. specialize (Hfit Hu). rewrite round8_id; [lra|]. rewrite Hh. auto using held_sum_is8, rows_ok, money_holds with money.
Qed.

(** One user with a plan of ten dollars. *)
Definition funded : DB :=
  MkDB {[ 1 := MkUser true None 10 0 0 (Some 0) ]} ∅ ∅ {[ 1 := MkPlan "p" 10 ]}
    [MkAssignment (Some 1) (Some 1) None None] [] [] [].

Lemma funded_ok : money_ok funded.
Proof.
  split; [split| |].
  - intros id r Hr. done.
  - intros st sid c. unfold reserved_counter, held_sum, funded. cbn [users api_keys reservations].
    repeat case_decide; [|done|done]. intros (u & Hu & ->)%fmap_Some.
    apply lookup_singleton_Some in Hu as [_ <-]. rewrite Qsum_map_empty. reflexivity.
  - intros id r k Hr. done.
  - intros id id' r r' Hr. done.
Qed.

Definition chat_settings : Settings := MkSettings 0 7200.
Definition reserve_three : call := Reserve "h" (Some 1) None 3 "chat" "m" (of_string "k") false.
Definition funded1 : DB := (run chat_settings reserve_three 0 funded).2.
Definition funded2 : DB := (run chat_settings (Settle "h" 2 None) 5 funded1).2.
Definition funded3 : DB := (run chat_settings (Settle "h" 2 None) 6 funded2).2.

Lemma money_trace_safe_witness :
  exists r, reservations funded3 !! "h"%string = Some r /\ status r = STATUS_SETTLED /\
    (forall c, reserved_counter SUBJECT_USER 1 funded3 = Some c -> (c == held_sum SUBJECT_USER 1 funded3)%Q).
Proof.
  assert (Hrtc : rtc (money_step chat_settings) funded funded3).
  { apply (rtc_l _ _ funded1); [apply (step_commit _ _ reserve_three 0); vm_compute; reflexivity|].
    apply (rtc_l _ _ funded2); [apply (step_commit _ _ (Settle "h" 2 None) 5); vm_compute; reflexivity|].
    apply (rtc_l _ _ funded3); [apply (step_commit _ _ (Settle "h" 2 None) 6); vm_compute; reflexivity|apply rtc_refl]. }
  destruct (money_trace_safe chat_settings funded funded3 funded_ok Hrtc) as (Hc & _ & _).
  eexists. split; [vm_compute; reflexivity|]. split; [reflexivity|]. apply Hc.
Defined.

Lemma reserve_within_limit_witness :
  exists limit used held, balance_of SUBJECT_USER 1 funded1 = Some (limit, used, held, false) /\
    (used + held <= limit + half_unit)%Q.
Proof.
  assert (Hrun : reserve chat_settings "h" (Some 1) None 3 "chat" "m" (of_string "k") false 0 funded = (Ok (Some "h"%string), funded1))
    by (vm_compute; reflexivity).
  destruct (reserve_within_limit _ _ _ _ _ _ _ _ _ _ _ _ _ funded_ok eq_refl Hrun) as
    (st & sid & row & limit & used & held & unl & Hsub & _ & _ & _ & _ & _ & Hb & _ & Hfit).
  injection Hsub as <- <-. assert (Hunl : unl = false) by (vm_compute in Hb; congruence). subst unl.
  exists limit, used, held. split; [exact Hb|]. apply Hfit. reflexivity.
Defined.
