(* ===== verification/JsonParse.v ===== *)
(** * Reading JSON: [json.loads]

    The documents the backend reads back: the grammar of Python's decoder, with
    its white space, escapes and surrogate pairs, and a repeated key keeping its
    first place and last value.  A number is read as an [int] when it has only
    digits; otherwise [float(token)] is asked for its [repr] ([PyFloat]).  A value as
    Python holds it ([py_value]) is read back from what is printed for it. *)

From S2P Require Import Prelude Text Json.
From Stdlib Require Import ZifyBool.

(** [repr(float(token))], [None] when [float] raises. *)
Class PyFloat := { float_of_token : text -> option text }.

(** ** Tokens *)

Definition is_ws (c : Z) : bool := (c =? 32) || (c =? 9) || (c =? 10) || (c =? 13).

Fixpoint skip_ws (t : text) : text :=
  match t with c :: r => if is_ws c then skip_ws r else t | [] => [] end.

Fixpoint span_token (t : text) : text * text :=
  match t with
  | c :: r => if delim c || is_ws c then ([], t) else let '(tok, rest) := span_token r in (c :: tok, rest)
  | [] => ([], [])
  end.

Definition digits_value (ds : text) : Z := foldl (fun n d => n * 10 + (d - 48)) 0 ds.

(** An unsigned integer literal: digits, without a leading zero. *)
Definition nat_token (ds : text) : option Z :=
  match ds with
  | [] => None
  | [d] => if digit d then Some (d - 48) else None
  | d :: _ => if forallb digit ds && negb (d =? 48) then Some (digits_value ds) else None
  end.

Definition int_token (tok : text) : option Z :=
  match tok with
  | 45 :: ds => Z.opp <$> nat_token ds
  | _ => nat_token tok
  end.

(** ** Strings *)

Definition hex_value (d : Z) : option Z :=
  if digit d then Some (d - 48)
  else if (97 <=? d) && (d <=? 102) then Some (d - 87)
  else if (65 <=? d) && (d <=? 70) then Some (d - 55)
  else None.

Definition hex4 (t : text) : option (Z * text) :=
  match t with
  | a :: b :: c :: d :: r =>
      a ← hex_value a; b ← hex_value b; c ← hex_value c; d ← hex_value d;
      Some (((a * 16 + b) * 16 + c) * 16 + d, r)
  | _ => None
  end.

(** What follows [\u]: one code unit, or the two of a surrogate pair. *)
Definition unicode_escape (t : text) : option (Z * text) :=
  '(u, r) ← hex4 t;
  if (55296 <=? u) && (u <=? 56319) then
    match r with
    | 92 :: 117 :: r' =>
        '(u2, r2) ← hex4 r';
        if (56320 <=? u2) && (u2 <=? 57343) then Some (65536 + ((u - 55296) * 1024 + (u2 - 56320)), r2) else Some (u, r)
    | _ => Some (u, r)
    end
  else Some (u, r).

Definition simple_escape (e : Z) : option Z :=
  if (e =? 34) || (e =? 92) || (e =? 47) then Some e
  else if e =? 98 then Some 8 else if e =? 102 then Some 12 else if e =? 110 then Some 10
  else if e =? 114 then Some 13 else if e =? 116 then Some 9 else None.

(** One character of a string literal that does not end here. *)
Definition read_char (t : text) : option (Z * text) :=
  match t with
  | 92 :: 117 :: r => unicode_escape r
  | 92 :: e :: r => c ← simple_escape e; Some (c, r)
  | c :: r => if (c =? 92) || (c <? 32) then None else Some (c, r)
  | [] => None
  end.

(** The rest of a literal, after its opening quote. *)
Fixpoint read_string (fuel : nat) (t : text) : option (text * text) :=
  match fuel, t with
  | O, _ | _, [] => None
  | S fuel, 34 :: r => Some ([], r)
  | S fuel, t => '(c, r) ← read_char t; '(s, r) ← read_string fuel r; Some (c :: s, r)
  end.

(** ** Values *)

Definition dict_build {A} (fields : list (text * A)) : list (text * A) :=
  foldl (fun d kv => set_field kv.1 kv.2 d) [] fields.

Section loads.
Context `{PyFloat}.

Definition read_token (t : text) : option (json * text) :=
  let '(tok, r) := span_token t in
  if bool_decide (tok = of_string "null") then Some (JNull, r)
  else if bool_decide (tok = of_string "true") then Some (JBool true, r)
  else if bool_decide (tok = of_string "false") then Some (JBool false, r)
  else match int_token tok with
  | Some n => Some (JInt n, r)
  | None => f ← float_of_token tok; Some (JFloat f, r)
  end.

Fixpoint read_value (fuel : nat) (t : text) : option (json * text) :=
  match fuel with
  | O => None
  | S fuel =>
      match t with
      | 34 :: r => '(s, r) ← read_string (length r) r; Some (JStr s, r)
      | 91 :: r =>
          match skip_ws r with
          | 93 :: r => Some (JList [], r)
          | r => '(l, r) ← read_items fuel r; Some (JList l, r)
          end
      | 123 :: r =>
          match skip_ws r with
          | 125 :: r => Some (JObj [], r)
          | r => '(l, r) ← read_fields fuel r; Some (JObj (dict_build l), r)
          end
      | _ => read_token t
      end
  end
with read_items (fuel : nat) (t : text) : option (list json * text) :=
  match fuel with
  | O => None
  | S fuel =>
      '(v, r) ← read_value fuel t;
      match skip_ws r with
      | 93 :: r => Some ([v], r)
      | 44 :: r => '(l, r) ← read_items fuel (skip_ws r); Some (v :: l, r)
      | _ => None
      end
  end
with read_fields (fuel : nat) (t : text) : option (list (text * json) * text) :=
  match fuel with
  | O => None
  | S fuel =>
      match t with
      | 34 :: r =>
          '(k, r) ← read_string (length r) r;
          match skip_ws r with
          | 58 :: r =>
              '(v, r) ← read_value fuel (skip_ws r);
              match skip_ws r with
              | 125 :: r => Some ([(k, v)], r)
              | 44 :: r => '(l, r) ← read_fields fuel (skip_ws r); Some ((k, v) :: l, r)
              | _ => None
              end
          | _ => None
          end
      | _ => None
      end
  end.

(** [None] when the decoder raises.  Every step consumes a character. *)
Definition loads (t : text) : option json :=
  '(v, r) ← read_value (S (length t)) (skip_ws t);
  match skip_ws r with [] => Some v | _ => None end.
End loads.

Example loads_escapes `{PyFloat} :
  loads (of_string " { " ++ [34; 92; 117; 48; 48; 52; 49; 34] ++ of_string " : [ 1 , -20, true ] } ") =
  Some (JObj [(of_string "A", JList [JInt 1; JInt (-20); JBool true])]).
Proof. vm_compute. reflexivity. Qed.

(** ** Numbers are read back *)

Lemma pretty_N_char_value x : (x < 10)%N -> Z.of_nat (Ascii.nat_of_ascii (pretty_N_char x)) = 48 + Z.of_N x.
Proof.
  intros Hx. destruct x as [|p]; [done|]. do 4 (destruct p as [p|p|]; try lia; try done).
Qed.

Lemma digits_value_pretty x s :
  foldl (fun n d => n * 10 + (d - 48)) 0 (of_string (pretty_N_go x s)) =
  foldl (fun n d => n * 10 + (d - 48)) (Z.of_N x) (of_string s).
Proof.
  revert s. induction (N.lt_wf_0 x) as [x _ IH]; intros s.
  assert (x = 0%N \/ (0 < x)%N) as [->|Hx] by lia; [by rewrite pretty_N_go_0|].
  rewrite pretty_N_go_step, IH by (done || by apply N.div_lt).
  change (of_string (String ?c ?s)) with (Z.of_nat (Ascii.nat_of_ascii c) :: of_string s). cbn [foldl].
  rewrite pretty_N_char_value by by apply N.mod_lt. f_equal.
  pose proof (N.div_mod' x 10). lia.
Qed.

Lemma pretty_head x s : (0 < x)%N -> exists d ds, of_string (pretty_N_go x s) = d :: ds /\ d <> 48.
Proof.
  revert s. induction (N.lt_wf_0 x) as [x _ IH]; intros s Hx. rewrite pretty_N_go_step by done.
  destruct (N.eq_0_gt_0_cases (x `div` 10)) as [Hd|Hd].
  - rewrite Hd, pretty_N_go_0. eexists _, _. split; [reflexivity|].
    rewrite pretty_N_char_value by by apply N.mod_lt. pose proof (N.div_mod' x 10). lia.
  - apply IH; [by apply N.div_lt|done].
Qed.

Lemma nat_token_pos p : nat_token (of_int (Z.pos p)) = Some (Z.pos p).
Proof.
  pose proof (of_int_digits (Z.pos p) ltac:(lia)) as Hd. rewrite of_int_pos in *.
  pose proof (digits_value_pretty (N.pos p) "") as Hv. simpl in Hv.
  destruct (pretty_head (N.pos p) "") as (d & ds & Heq & Hne); [done|]. rewrite Heq in *.
  assert (Hall : forallb digit (d :: ds) = true).
  { apply Is_true_true, forallb_True, Forall_forall. intros c Hc. rewrite Forall_forall in Hd. specialize (Hd c Hc). apply Is_true_true. unfold digit. lia. }
  unfold nat_token. destruct ds as [|d' ds].
  - simpl in Hv, Hall. rewrite andb_true_r in Hall. rewrite Hall. f_equal. lia.
  - rewrite Hall. replace (d =? 48) with false by lia. simpl andb. unfold digits_value. by rewrite Hv.
Qed.

Lemma int_token_of_int n : int_token (of_int n) = Some n.
Proof.
  destruct n as [|p|p]; [done| |].
  - pose proof (of_int_digits (Z.pos p) ltac:(lia)) as Hd. pose proof (nat_token_pos p) as Hn.
    destruct (of_int (Z.pos p)) as [|c t]; [done|]. apply Forall_cons in Hd as [Hc _].
    unfold int_token. rewrite <- Hn. repeat (case_match; try lia; try done).
  - change (of_int (Z.neg p)) with (45 :: of_int (Z.pos p)). unfold int_token. by rewrite nat_token_pos.
Qed.

(** ** Strings are read back *)

Lemma hex_value_digit d : 0 <= d < 16 -> hex_value (hex_digit d) = Some d.
Proof.
  intros Hd. unfold hex_value, hex_digit, digit. destruct (Z.ltb_spec d 10).
  - replace ((48 <=? 48 + d) && (48 + d <=? 57)) with true by lia. f_equal. lia.
  - replace ((48 <=? 87 + d) && (87 + d <=? 57)) with false by lia.
    replace ((97 <=? 87 + d) && (87 + d <=? 102)) with true by lia. f_equal. lia.
Qed.

Lemma read_char_escape c r : 0 <= c -> read_char (escape_char c ++ r) = Some (c, r).
Proof.
  intros Hc. unfold escape_char.
  repeat (match goal with |- context [c =? ?n] => destruct (Z.eqb_spec c n); [subst; done|] end).
  destruct (Z.ltb_spec c 32).
  - pose proof (Z.div_mod c 16 ltac:(lia)). assert (0 <= c / 16 < 16) by (Z.to_euclidean_division_equations; lia).
    assert (0 <= c mod 16 < 16) by by apply Z.mod_pos_bound.
    cbn [app read_char]. unfold unicode_escape, hex4. rewrite !hex_value_digit by done.
    change (hex_value 48) with (Some 0). cbn [mbind option_bind].
    replace (((0 * 16 + 0) * 16 + c / 16) * 16 + c mod 16) with c by lia.
    by replace ((55296 <=? c) && (c <=? 56319)) with false by lia.
  - cbn [app]. unfold read_char. destruct (Z.eqb_spec c 92); [done|].
    repeat (case_match; try done). all: lia.
Qed.

Lemma escape_head c : escape_char c <> [] /\ head (escape_char c) <> Some 34.
Proof.
  unfold escape_char. destruct (Z.eqb_spec c 34); [done|]. repeat (case_match; [done|]). split; [done|]. by intros [= ->].
Qed.

Lemma escape_cons c s : (c :: s) ≫= escape_char = escape_char c ++ (s ≫= escape_char).
Proof. done. Qed.

Lemma read_string_print s r fuel :
  code_points s -> (length s < fuel)%nat -> read_string fuel ((s ≫= escape_char) ++ 34 :: r) = Some (s, r).
Proof.
  intros Hs. revert fuel. induction Hs as [|c s Hc Hs IH]; intros [|fuel] Hf; simpl in Hf; try lia; [done|].
  rewrite escape_cons, <- app_assoc.
  pose proof (read_char_escape c ((s ≫= escape_char) ++ 34 :: r) ltac:(lia)) as Hr.
  destruct (escape_head c) as [Hne Hq]. destruct (escape_char c) as [|e es]; [done|]. cbn [app] in *.
  assert (He : e <> 34) by (intros ->; by apply Hq).
  transitivity (read_char (e :: es ++ (s ≫= escape_char) ++ 34 :: r) ≫= (fun '(c, r) =>
    read_string fuel r ≫= (fun '(s, r) => Some (c :: s, r)))).
  - cbn [read_string]. repeat (case_match; try done).
  - rewrite Hr. cbn [mbind option_bind]. by rewrite IH by lia.
Qed.

Lemma escape_length s : (length s <= length (s ≫= escape_char))%nat.
Proof.
  induction s as [|c s IH]; [done|]. rewrite escape_cons, length_app.
  pose proof (proj1 (escape_head c)). destruct (escape_char c); [done|]. cbn [length]. lia.
Qed.

Lemma read_string_literal s r :
  code_points s -> read_string (length ((s ≫= escape_char) ++ 34 :: r)) ((s ≫= escape_char) ++ 34 :: r) = Some (s, r).
Proof.
  intros Hs. apply read_string_print; [done|]. rewrite length_app. simpl. pose proof (escape_length s). lia.
Qed.

(** ** Dicts are built back *)

Lemma set_field_new {A} k (v : A) d : k ∉ d.*1 -> set_field k v d = d ++ [(k, v)].
Proof.
  induction d as [|[k' v'] d IH]; [done|]. simpl. intros Hk. apply not_elem_of_cons in Hk as [Hne Hk].
  rewrite decide_False by done. by rewrite IH.
Qed.

Lemma dict_build_unique {A} (fields : list (text * A)) : NoDup fields.*1 -> dict_build fields = fields.
Proof.
  intros Hnd. unfold dict_build. cut (forall d, NoDup (d ++ fields).*1 ->
    foldl (fun d kv => set_field kv.1 kv.2 d) d fields = d ++ fields); [by intros ->|].
  clear Hnd. induction fields as [|[k v] fields IH]; intros d Hnd; simpl; [by rewrite app_nil_r|].
  rewrite set_field_new.
  - rewrite IH by by rewrite <- app_assoc. by rewrite <- app_assoc.
  - rewrite fmap_app in Hnd. apply NoDup_app in Hnd as (_ & Hd & _). intros Hk. apply (Hd k Hk). simpl. left.
Qed.

(** ** Values are read back *)

Section roundtrip.
Context `{PyFloat}.

(** A value as Python holds it: a dict has each key once, and the [repr] of a
    float reads as that float. *)
Fixpoint py_value (v : json) : Prop :=
  match v with
  | JFloat r => float_of_token r = Some r /\ Forall (fun c => is_ws c = false) r
  | JList l => foldr (fun v P => py_value v /\ P) True l
  | JObj fields => NoDup fields.*1 /\ foldr (fun kv P => py_value kv.2 /\ P) True fields
  | _ => True
  end.

Lemma py_value_list l : py_value (JList l) <-> Forall py_value l.
Proof. simpl. induction l as [|v l IH]; simpl; [by split|]. rewrite Forall_cons, <- IH. done. Qed.

Lemma py_value_obj fields : py_value (JObj fields) <-> NoDup fields.*1 /\ Forall (fun kv => py_value kv.2) fields.
Proof.
  simpl. apply and_iff_compat_l. induction fields as [|kv l IH]; simpl; [by split|]. rewrite Forall_cons, <- IH. done.
Qed.

Lemma span_token_app tok r :
  Forall (fun c => delim c = false /\ is_ws c = false) tok -> ends r -> span_token (tok ++ r) = (tok, r).
Proof.
  intros Ht Hr. induction Ht as [|c tok [Hd Hw] Ht IH].
  - destruct r as [|c r]; [done|]. simpl in *. by rewrite Hr.
  - simpl. by rewrite Hd, Hw, IH.
Qed.

Lemma int_token_float r : Exists (fun c => digit c = false /\ c <> 45) r -> int_token r = None.
Proof.
  assert (Hn : forall ds, Exists (fun c => digit c = false) ds -> nat_token ds = None).
  { intros ds Hex. assert (Hf : forallb digit ds = false).
    { apply not_true_iff_false. intros Hall. apply Is_true_true, forallb_True in Hall. apply Exists_exists in Hex as (c & Hc & Hd).
      rewrite Forall_forall in Hall. specialize (Hall c Hc). by rewrite Hd in Hall. }
    unfold nat_token. destruct ds as [|d [|d' ds]]; [done| |by rewrite Hf].
    simpl in Hf. rewrite andb_true_r in Hf. by rewrite Hf. }
  intros Hex. assert (Hnt : nat_token r = None).
  { apply Hn. eapply Exists_impl; [exact Hex|]. by intros c [? _]. }
  unfold int_token. destruct r as [|c r]; [done|]. destruct (decide (c = 45)) as [->|Hc].
  - rewrite Hn; [done|]. apply Exists_cons in Hex as [[_ []]|Hex]; [done|]. eapply Exists_impl; [exact Hex|]. by intros c [? _].
  - repeat (case_match; try done).
Qed.

Lemma of_int_not_word n w : Exists (fun c => digit c = false /\ c <> 45) (of_string w) -> of_int n <> of_string w.
Proof.
  intros Hex Heq. apply Exists_exists in Hex as (c & Hc & Hd & Hne). pose proof (of_int_chars n) as Hall.
  rewrite Heq, Forall_forall in Hall. destruct (Hall c Hc); congruence.
Qed.

Lemma scalar_chars v :
  printable v -> py_value v -> scalar v -> Forall (fun c => delim c = false /\ is_ws c = false) (print v).
Proof.
  intros Hp Hv Hs. apply Forall_and. split; [by apply scalar_token|]. destruct v as [|[]|n|r| | |]; try done.
  - by repeat (apply Forall_cons; split).
  - by repeat (apply Forall_cons; split).
  - by repeat (apply Forall_cons; split).
  - eapply Forall_impl; [apply of_int_chars|]. unfold digit, is_ws. intros c [Hd| ->]; [|done]. lia.
  - apply Hv.
Qed.

Lemma read_token_scalar v r : printable v -> py_value v -> scalar v -> ends r -> read_token (print v ++ r) = Some (v, r).
Proof.
  intros Hp Hv Hs Hr. unfold read_token. rewrite span_token_app by (done || by apply scalar_chars).
  destruct v as [|[]|n|f| | |]; try done.
  - simpl print. rewrite !bool_decide_false by (apply of_int_not_word; vm_compute; constructor 1; split; [reflexivity|discriminate]).
    by rewrite int_token_of_int.
  - destruct Hp as (_ & Hex & Hn & Ht & Hf & _), Hv as [Hv _]. simpl print. rewrite !bool_decide_false by done.
    rewrite int_token_float by done. simpl. by rewrite Hv.
Qed.

(** What may stand where a value begins. *)
Definition starts (t : text) : Prop := match t with c :: _ => is_ws c = false /\ delim c = false | [] => False end.

Lemma skip_ws_starts t : starts t -> skip_ws t = t.
Proof. destruct t as [|c t]; [done|]. intros [Hw _]. simpl. by rewrite Hw. Qed.

Lemma print_starts v r : printable v -> py_value v -> starts (print v ++ r).
Proof.
  intros Hp Hv. destruct (print_head v Hp) as (c & t & Heq & Hd & Hc).
  destruct v; try (subst c; by rewrite Heq).
  all: match goal with |- context [print ?w] => pose proof (scalar_chars w Hp Hv I) as Hall end; rewrite Heq in Hall |- *.
  all: apply Forall_cons in Hall as [[] _]; by split.
Qed.

Lemma read_value_token fuel v r :
  printable v -> py_value v -> scalar v -> ends r -> read_value (1 + fuel) (print v ++ r) = Some (v, r).
Proof.
  intros Hp Hv Hs Hr. pose proof (read_token_scalar v r Hp Hv Hs Hr) as Hread.
  pose proof (scalar_token v Hp Hs) as [_ Ht]. destruct (print v) as [|c t]; [done|]. destruct Ht as (H1 & H2 & H3).
  rewrite <- Hread. cbn [Nat.add app read_value]. repeat (case_match; try done).
Qed.

Lemma sep_by_two {A} (item : A -> text) a b l :
  sep_by (map item (a :: b :: l)) = item a ++ 44 :: sep_by (map item (b :: l)).
Proof. done. Qed.

Lemma sep_by_head {A} (item : A -> text) a l r : exists r', sep_by (map item (a :: l)) ++ r = item a ++ r'.
Proof. destruct l as [|b l]; [by exists r|]. rewrite sep_by_two, <- app_assoc. by eexists. Qed.

Lemma read_items_print l r fuel :
  l <> [] -> Forall (fun v => printable v /\ py_value v /\
    forall r fuel, ends r -> (length (print v) < fuel)%nat -> read_value fuel (print v ++ r) = Some (v, r)) l ->
  (length (sep_by (map print l)) + 1 < fuel)%nat -> read_items fuel (sep_by (map print l) ++ 93 :: r) = Some (l, r).
Proof.
  intros Hne Hl. revert fuel Hne. induction Hl as [|v l (Hp & Hv & Hread) Hl IH]; intros [|fuel] Hne Hf; try done; [lia|].
  destruct l as [|w l].
  - cbn [map sep_by read_items] in *. rewrite Hread by (done || lia). done.
  - rewrite sep_by_two in *. rewrite <- app_assoc. rewrite length_app in Hf. cbn [length] in Hf. cbn [read_items].
    rewrite Hread by (done || lia). cbn [mbind option_bind skip_ws app]. change (is_ws 44) with false. cbn iota.
    rewrite skip_ws_starts; [by rewrite IH by (done || lia)|].
    apply Forall_cons in Hl as [(Hpw & Hvw & _) _]. destruct (sep_by_head print w l (93 :: r)) as [r' ->]. by apply print_starts.
Qed.

Definition field_text (kv : text * json) : text := print_str kv.1 ++ 58 :: print kv.2.

Lemma print_obj fields : print (JObj fields) = 123 :: sep_by (map field_text fields) ++ [125].
Proof. done. Qed.

Lemma read_fields_print l r fuel :
  l <> [] -> Forall (fun kv => code_points kv.1 /\ printable kv.2 /\ py_value kv.2 /\
    forall r fuel, ends r -> (length (print kv.2) < fuel)%nat -> read_value fuel (print kv.2 ++ r) = Some (kv.2, r)) l ->
  (length (sep_by (map field_text l)) + 1 < fuel)%nat ->
  read_fields fuel (sep_by (map field_text l) ++ 125 :: r) = Some (l, r).
Proof.
  intros Hne Hl. revert fuel Hne. induction Hl as [|[k v] l (Hk & Hp & Hv & Hread) Hl IH]; intros [|fuel] Hne Hf; try done; [lia|].
  cbn [fst snd] in *.
  assert (Hone : forall rest, (length (field_text (k, v)) < 1 + fuel)%nat -> ends rest -> read_fields (S fuel) (field_text (k, v) ++ rest) =
    match skip_ws rest with
    | 125 :: r => Some ([(k, v)], r)
    | 44 :: r => '(l, r) ← read_fields fuel (skip_ws r); Some ((k, v) :: l, r)
    | _ => None
    end).
  { intros rest Hlen Hrest. unfold field_text, print_str in *. cbn [fst snd app] in *. cbn [length] in Hlen.
    rewrite !length_app in Hlen. cbn [length] in Hlen. rewrite <- !app_assoc. cbn [Nat.add read_fields app].
    rewrite read_string_literal by done. cbn [mbind option_bind skip_ws]. change (is_ws 58) with false. cbn iota.
    rewrite skip_ws_starts by by apply print_starts. rewrite Hread by (done || lia). done. }
  destruct l as [|kv l].
  - cbn [map sep_by] in *. rewrite (Hone (125 :: r)) by (done || lia). done.
  - rewrite sep_by_two in *. rewrite length_app in Hf. cbn [length] in Hf. rewrite <- app_assoc. cbn [app].
    rewrite Hone by (done || lia). cbn [skip_ws]. change (is_ws 44) with false. cbn iota.
    rewrite skip_ws_starts; [by rewrite IH by (done || lia)|].
    destruct (sep_by_head field_text kv l (125 :: r)) as [r' ->]. done.
Qed.

Lemma read_value_list fuel t :
  starts t -> read_value (S fuel) (91 :: t) = ('(l, r) ← read_items fuel t; Some (JList l, r)).
Proof.
  intros Hst. cbn [read_value]. rewrite skip_ws_starts by done. destruct t as [|c t]; [done|]. destruct Hst as [_ Hd].
  repeat (case_match; try done).
Qed.

Lemma read_value_print v : forall r fuel,
  printable v -> py_value v -> ends r -> (length (print v) < fuel)%nat -> read_value fuel (print v ++ r) = Some (v, r).
Proof.
  induction v as [| | |f|s|l IH|fields IH] using json_nested_ind; intros rest [|fuel] Hp Hv Hr Hf; try (simpl in Hf; lia);
    try by apply read_value_token.
  - cbn [print]. unfold print_str. cbn [app read_value]. rewrite <- app_assoc. cbn [app]. by rewrite read_string_literal.
  - apply printable_list in Hp. apply py_value_list in Hv. cbn [print app] in *. cbn [length] in Hf. rewrite length_app in Hf. cbn [length] in Hf.
    rewrite <- app_assoc. cbn [app]. destruct l as [|v l]; [done|].
    assert (Hl : Forall (fun v => printable v /\ py_value v /\
      forall r fuel, ends r -> (length (print v) < fuel)%nat -> read_value fuel (print v ++ r) = Some (v, r)) (v :: l)).
    { rewrite Forall_forall in IH, Hp, Hv |- *. auto 6. }
    pose proof (read_items_print (v :: l) rest fuel ltac:(done) Hl ltac:(lia)) as Hi.
    apply Forall_cons in Hp as [Hp _], Hv as [Hv _].
    assert (Hst : starts (sep_by (map print (v :: l)) ++ 93 :: rest)).
    { destruct (sep_by_head print v l (93 :: rest)) as [r' ->]. by apply print_starts. }
    rewrite read_value_list by done. by rewrite Hi.
  - apply printable_obj in Hp. apply py_value_obj in Hv as [Hnd Hv]. rewrite print_obj in *. cbn [app] in *. cbn [length] in Hf. rewrite length_app in Hf. cbn [length] in Hf.
    rewrite <- app_assoc. cbn [app]. destruct fields as [|kv l]; [done|].
    assert (Hl : Forall (fun kv => code_points kv.1 /\ printable kv.2 /\ py_value kv.2 /\
      forall r fuel, ends r -> (length (print kv.2) < fuel)%nat -> read_value fuel (print kv.2 ++ r) = Some (kv.2, r)) (kv :: l)).
    { rewrite Forall_forall in IH, Hp, Hv |- *. intros x Hx. destruct (Hp x Hx). split_and!; eauto. }
    pose proof (read_fields_print (kv :: l) rest fuel ltac:(done) Hl ltac:(lia)) as Hi.
    assert (Hst : exists t, sep_by (map field_text (kv :: l)) ++ 125 :: rest = 34 :: t).
    { destruct (sep_by_head field_text kv l (125 :: rest)) as [r' ->]. by eexists. }
    destruct Hst as [t Ht]. cbn [read_value]. rewrite Ht in *. cbn [skip_ws]. change (is_ws 34) with false. cbn iota.
    rewrite Hi. cbn [mbind option_bind]. by rewrite dict_build_unique.
Qed.

Lemma loads_print v : printable v -> py_value v -> loads (print v) = Some v.
Proof.
  intros Hp Hv. unfold loads. pose proof (print_starts v [] Hp Hv) as Hst. rewrite app_nil_r in Hst.
  rewrite skip_ws_starts by done. pose proof (read_value_print v [] (1 + length (print v)) Hp Hv I ltac:(lia)) as Hr.
  rewrite app_nil_r in Hr. cbn [Nat.add] in Hr. by rewrite Hr.
Qed.

Lemma canon_py_value v : py_value v -> py_value (canon v).
Proof.
  induction v as [| | | | |l IH|fields IH] using json_nested_ind; intros Hv; try done.
  - apply py_value_list in Hv. apply py_value_list. apply Forall_map. rewrite Forall_forall in IH, Hv |- *.
    intros w Hw. by apply IH, Hv.
  - apply py_value_obj in Hv as [Hnd Hv]. rewrite canon_obj. apply py_value_obj. split.
    + rewrite sort_fields_perm. by rewrite map_map.
    + unfold sort_fields. rewrite merge_sort_Permutation. apply Forall_map. rewrite Forall_forall in IH, Hv |- *.
      intros kv Hkv. by apply IH, Hv.
Qed.

(** [json.loads(json.dumps(v))] is [v] up to the order of its keys. *)
Lemma loads_dumps v : printable v -> py_value v -> loads (dumps v) = Some (canon v).
Proof. intros Hp Hv. apply loads_print; [by apply canon_printable|by apply canon_py_value]. Qed.
End roundtrip.
