(* ===== verification/PyText.v ===== *)
(** * Python's string methods

    [str.strip], [str.split], [str.lower], substring tests and slices on
    strings as lists of code points, and dict displays.  Python's Unicode
    tables ([str.lower] and [str.isspace]) are a parameter, [PyStr]. *)

From S2P Require Import Prelude Text.

(** What the code relies on of Python's Unicode tables. *)
Class PyStr := {
  py_lower : text -> text;
  py_isspace : Z -> bool
}.

(** The tables restricted to ASCII, for evaluation. *)
Definition ascii_str : PyStr := {|
  py_lower s := (fun c => if (65 <=? c) && (c <=? 90) then c + 32 else c) <$> s;
  py_isspace c := ((9 <=? c) && (c <=? 13)) || ((28 <=? c) && (c <=? 32))
|}.

(** ** Strings *)

Section strings.
Context `{PyStr}.

Fixpoint lstrip (s : text) : text :=
  match s with c :: s' => if py_isspace c then lstrip s' else s | [] => [] end.

Definition strip (s : text) : text := rev (lstrip (rev (lstrip s))).

(** [s.split()]: the maximal runs without whitespace; [word] is the open run, reversed. *)
Fixpoint split_ws (word : text) (s : text) : list text :=
  match s with
  | [] => match word with [] => [] | _ => [rev word] end
  | c :: s =>
      if py_isspace c then match word with [] => split_ws [] s | _ => rev word :: split_ws [] s end
      else split_ws (c :: word) s
  end.

(** [" ".join(words)] *)
Fixpoint join_space (words : list text) : text :=
  match words with [] => [] | [w] => w | w :: words => w ++ 32 :: join_space words end.
End strings.

Fixpoint starts_with (p s : text) : bool :=
  match p, s with
  | [], _ => true
  | _ :: _, [] => false
  | c :: p, d :: s => (c =? d) && starts_with p s
  end.

(** [part in s] *)
Fixpoint contains (part s : text) : bool :=
  starts_with part s || match s with [] => false | _ :: s => contains part s end.

(** [s[:n]] *)
Definition cut (n : nat) (s : text) : text := take n s.

(** A Python dict display: a repeated key keeps its first place and last value. *)
Fixpoint dict_set {A} (k : text) (v : A) (d : list (text * A)) : list (text * A) :=
  match d with
  | [] => [(k, v)]
  | (k', v') :: d => if decide (k = k') then (k, v) :: d else (k', v') :: dict_set k v d
  end.

Definition dict_display {A} (fields : list (text * A)) : list (text * A) :=
  foldl (fun d kv => dict_set kv.1 kv.2 d) [] fields.
