(* ===== verification/AuditChain.v ===== *)
(** * The governance audit chain and legal holds

    [agent_governance_service.py].  [now] is [_now()] during the call and
    [new_id] the fresh uuid of the row.  Python's Unicode tables ([str.lower]
    and [str.isspace]) are a parameter, [PyStr]. *)

From S2P Require Import Prelude Text Json PyTime PyText.

(** ** Redaction *)

Definition _REDACTED_KEY_PARTS : list text := of_string <$>
  ["authorization"; "api_key"; "apikey"; "credential"; "password"; "secret"; "token"; "prompt"; "content";
   "message"; "output"]%string.

Section governance.
Context `{PyStr}.

Definition redacted_key (key : text) : bool :=
  let normalized_key := py_lower (strip key) in
  match normalized_key with
  | [] => false
  | _ => existsb (fun part => contains part normalized_key) _REDACTED_KEY_PARTS
  end.

Fixpoint _sanitize_audit_value (key : text) (depth : Z) (value : json) : json :=
  if redacted_key key then JStr (of_string "[REDACTED]")
  else if 5 <=? depth then JStr (of_string "[TRUNCATED]")
  else match value with
  | JNull | JBool _ | JInt _ | JFloat _ => value
  | JStr s => JStr (cut 2000 s)
  | JObj fields =>
      JObj (dict_display (take 100
        (map (fun kv => (cut 128 kv.1, _sanitize_audit_value kv.1 (depth + 1) kv.2)) fields)))
  | JList l => JList (take 100 (map (_sanitize_audit_value [] (depth + 1)) l))
  end.

(** ** Rows *)

Record GovernanceAuditEvent := MkEvent {
  ev_id : text;
  event_type : text;
  resource_type : text;
  resource_id : option text;
  actor_user_id : option Z;
  outcome : text;
  payload_json : list (text * json);
  previous_event_hash : option text;
  event_hash : text;
  ev_created_at : Z
}.

Inductive hold_state := Active | Released.

Record LegalHold := MkHold {
  hold_resource_type : text;
  hold_resource_id : text;
  hold_status : hold_state;
  hold_reason : text;
  placed_by_user_id : option Z;
  released_by_user_id : option Z;
  placed_at : Z;
  released_at : option Z
}.

(** The tables: events, holds, and the (type, id) pairs of governed resources. *)
Record GovDB := MkGov {
  audit_events : list GovernanceAuditEvent;
  legal_holds : gmap string LegalHold;
  governed : list (text * text)
}.

Definition with_events (f : list GovernanceAuditEvent -> list GovernanceAuditEvent) (db : GovDB) : GovDB :=
  MkGov (f (audit_events db)) (legal_holds db) (governed db).
Definition with_holds (f : gmap string LegalHold -> gmap string LegalHold) (db : GovDB) : GovDB :=
  MkGov (audit_events db) (f (legal_holds db)) (governed db).

(** ORDER BY created_at, id *)
Definition event_le (a b : GovernanceAuditEvent) : Prop :=
  ev_created_at a < ev_created_at b \/ (ev_created_at a = ev_created_at b /\ text_leb (ev_id a) (ev_id b) = true).

#[export] Instance event_le_dec : RelDecision event_le.
Proof. intros a b. unfold event_le. apply _. Defined.

Definition in_order (events : list GovernanceAuditEvent) : list GovernanceAuditEvent := merge_sort event_le events.

(** ** The chain *)

Definition opt_str (s : option text) : json := match s with Some s => JStr s | None => JNull end.

Definition _canonical_event_payload (id etype rtype : text) (rid : option text) (actor : option Z)
    (out : text) (payload : list (text * json)) (previous_hash : option text) (created : Z) : list Z :=
  utf8 (dumps (JObj
    [(of_string "id", JStr id);
     (of_string "event_type", JStr etype);
     (of_string "resource_type", JStr rtype);
     (of_string "resource_id", opt_str rid);
     (of_string "actor_user_id", match actor with Some n => JInt n | None => JNull end);
     (of_string "outcome", JStr out);
     (of_string "payload", JObj payload);
     (of_string "previous_event_hash", opt_str previous_hash);
     (of_string "created_at", JStr (isoformat created))])).

Definition AUDIT_OUTCOMES : list text := of_string <$> ["success"; "denied"; "failed"; "scheduled"]%string.

(** [str(resource_id)[:128] if resource_id else None] *)
Definition clean_resource_id (rid : option text) : option text :=
  match rid with Some [] | None => None | Some s => Some (cut 128 s) end.

Definition append_governance_audit_event (etype rtype : text) (rid : option text) (actor : option Z)
    (out : text) (payload : list (text * json)) (new_id : text) (now : Z) : op GovDB GovernanceAuditEvent :=
  let clean_event_type := cut 96 (strip etype) in
  let clean_resource_type := cut 64 (strip rtype) in
  let clean_outcome := py_lower (strip out) in
  if bool_decide (clean_event_type = []) || bool_decide (clean_resource_type = []) then
    raise (ValueError "Audit event_type and resource_type are required")
  else if negb (bool_decide (clean_outcome ∈ AUDIT_OUTCOMES)) then
    raise (ValueError "Unsupported governance audit outcome")
  else
    previous ← gets (fun db => last (in_order (audit_events db)));
    let previous_hash := event_hash <$> previous in
    let created := match previous with
      | Some p => if now <=? ev_created_at p then ev_created_at p + 1 else now
      | None => now
      end in
    match _sanitize_audit_value [] 0 (JObj payload) with
    | JObj clean_payload =>
        let digest := sha256_hexdigest (_canonical_event_payload new_id clean_event_type clean_resource_type
          (clean_resource_id rid) actor clean_outcome clean_payload previous_hash created) in
        let event := MkEvent new_id clean_event_type clean_resource_type (clean_resource_id rid) actor clean_outcome
          clean_payload previous_hash digest created in
        _ ← modify (with_events (fun es => es ++ [event]));
        mret event
    | _ => raise (OtherError "assertion failed")
    end.

Record AuditChainVerification := MkVerification {
  valid : bool;
  event_count : nat;
  first_invalid_event_id : option text;
  head_hash : option text
}.

Definition CHAIN_VERIFY_BATCH_SIZE : nat := 1000.

Definition expected_hash (previous_hash : option text) (row : GovernanceAuditEvent) : text :=
  sha256_hexdigest (_canonical_event_payload (ev_id row) (event_type row) (resource_type row) (resource_id row)
    (actor_user_id row) (outcome row) (payload_json row) previous_hash (ev_created_at row)).

(** The body of the loop over a page: the hash of its last event, or the id of
    the first event that does not check, with the hash before it. *)
Fixpoint check_rows (previous_hash : option text) (rows : list GovernanceAuditEvent)
    : option text + (text * option text) :=
  match rows with
  | [] => inl previous_hash
  | row :: rows =>
      if negb (bool_decide (previous_event_hash row = previous_hash)) ||
         negb (bool_decide (event_hash row = expected_hash previous_hash row))
      then inr (ev_id row, previous_hash)
      else check_rows (Some (event_hash row)) rows
  end.

(** [WHERE (created_at, id) > cursor ... ORDER BY ... LIMIT 1000] *)
Definition after_cursor (cursor : option (Z * text)) (row : GovernanceAuditEvent) : Prop :=
  match cursor with
  | None => True
  | Some (last_created_at, last_id) =>
      last_created_at < ev_created_at row \/
      (ev_created_at row = last_created_at /\ text_leb (ev_id row) last_id = false)
  end.

#[export] Instance after_cursor_dec cursor row : Decision (after_cursor cursor row).
Proof. unfold after_cursor. destruct cursor as [[]|]; apply _. Defined.

Definition next_page (cursor : option (Z * text)) (db : GovDB) : list GovernanceAuditEvent :=
  take CHAIN_VERIFY_BATCH_SIZE (in_order (filter (after_cursor cursor) (audit_events db))).

(** [None] when the fuel runs out. *)
Fixpoint verify_loop (fuel : nat) (cursor : option (Z * text)) (previous_hash : option text) (db : GovDB)
    : option AuditChainVerification :=
  match fuel with
  | O => None
  | S fuel =>
      let rows := next_page cursor db in
      let count := length (audit_events db) in
      match last rows with
      | None => Some (MkVerification true count None previous_hash)
      | Some last_row =>
          match check_rows previous_hash rows with
          | inr (bad, hash) => Some (MkVerification false count (Some bad) hash)
          | inl hash =>
              if (length rows <? CHAIN_VERIFY_BATCH_SIZE)%nat then Some (MkVerification true count None hash)
              else verify_loop fuel (Some (ev_created_at last_row, ev_id last_row)) hash db
          end
      end
  end.

Definition verify_governance_audit_chain (fuel : nat) (db : GovDB) : option AuditChainVerification :=
  verify_loop fuel None None db.

(** ** Legal holds *)

Definition SUPPORTED_HOLD_RESOURCE_TYPES : list text := of_string <$>
  ["agent"; "agent_run"; "chat_session"; "knowledge_base"; "knowledge_document"; "knowledge_document_version"]%string.

Definition _assert_hold_resource_exists (rtype rid : text) : op GovDB unit :=
  if negb (bool_decide (rtype ∈ SUPPORTED_HOLD_RESOURCE_TYPES)) then
    raise (ValueError "Unsupported legal-hold resource type")
  else
    found ← gets (fun db => bool_decide ((rtype, rid) ∈ governed db));
    if negb found then raise (LookupError "Legal-hold resource not found") else mret tt.

Definition on_resource (rtype rid : text) (h : LegalHold) : Prop :=
  hold_resource_type h = rtype /\ hold_resource_id h = rid /\ hold_status h = Active.

#[export] Instance on_resource_dec rtype rid h : Decision (on_resource rtype rid h).
Proof. unfold on_resource. assert (EqDecision hold_state) by solve_decision. apply _. Defined.

Definition active_hold (rtype rid : text) (db : GovDB) : option (string * LegalHold) :=
  head (filter (fun kv => on_resource rtype rid kv.2) (map_to_list (legal_holds db))).

Definition has_active_legal_hold (rtype rid : text) (db : GovDB) : bool :=
  bool_decide (is_Some (active_hold rtype rid db)).

Definition place_legal_hold (rtype rid reason : text) (actor : Z) (new_id : string) (event_id : text) (now : Z)
    : op GovDB string :=
  let clean_type := py_lower (strip rtype) in
  let clean_id := strip rid in
  let clean_reason := strip (join_space (split_ws [] reason)) in
  if negb (bool_decide (clean_type ∈ SUPPORTED_HOLD_RESOURCE_TYPES)) then
    raise (ValueError "Unsupported legal-hold resource type")
  else if bool_decide (clean_id = []) || (128 <? length clean_id)%nat then
    raise (ValueError "Legal-hold resource id is invalid")
  else if bool_decide (clean_reason = []) || (8000 <? length clean_reason)%nat then
    raise (ValueError "Legal-hold reason is required and limited to 8000 characters")
  else
    _ ← _assert_hold_resource_exists clean_type clean_id;
    existing ← gets (active_hold clean_type clean_id);
    match existing with
    | Some (id, _) => mret id
    | None =>
        _ ← modify (with_holds (<[new_id := MkHold clean_type clean_id Active clean_reason (Some actor) None now None]>));
        _ ← append_governance_audit_event (of_string "governance.legal_hold.placed") clean_type (Some clean_id)
              (Some actor) (of_string "success")
              [(of_string "legal_hold_id", JStr (of_string new_id)); (of_string "reason", JStr clean_reason)] event_id now;
        mret new_id
    end.

Definition release_legal_hold (hold_id : string) (actor : Z) (reason : text) (event_id : text) (now : Z)
    : op GovDB unit :=
  hold ← gets (fun db => legal_holds db !! hold_id);
  match hold with
  | None => raise (LookupError "Legal hold not found")
  | Some h =>
      match hold_status h with
      | Released => raise (ValueError "Legal hold is already released")
      | Active =>
          _ ← modify (with_holds (<[hold_id := MkHold (hold_resource_type h) (hold_resource_id h) Released
                (hold_reason h) (placed_by_user_id h) (Some actor) (placed_at h) (Some now)]>));
          _ ← append_governance_audit_event (of_string "governance.legal_hold.released") (hold_resource_type h)
                (Some (hold_resource_id h)) (Some actor) (of_string "success")
                [(of_string "legal_hold_id", JStr (of_string hold_id));
                 (of_string "release_reason",
                  match cut 8000 (join_space (split_ws [] reason)) with [] => JNull | r => JStr r end)] event_id now;
          mret tt
      end
  end.
End governance.
