(* ===== verification/AuditFacts.v ===== *)
(** * Facts about the audit chain and legal holds

    Paged verification is whole-table verification; appending keeps the chain
    valid; what a valid chain commits to; redaction; legal holds. *)

From S2P Require Import Prelude Text Json PyTime PyText AuditChain.

Section audit.
Context `{PyStr}.

(** ** Redaction *)

(** Two values that differ only below keys the redaction recognises. *)
Inductive same_public : text -> json -> json -> Prop :=
  | sp_redacted key v v' : redacted_key key = true -> same_public key v v'
  | sp_same key v : same_public key v v
  | sp_list key l l' : Forall2 (same_public []) l l' -> same_public key (JList l) (JList l')
  | sp_obj key f f' :
      Forall2 (fun kv kv' => kv.1 = kv'.1 /\ same_public kv.1 kv.2 kv'.2) f f' ->
      same_public key (JObj f) (JObj f').

Lemma sanitize_redacted key depth v :
  redacted_key key = true -> _sanitize_audit_value key depth v = JStr (of_string "[REDACTED]").
Proof. intros Hk. destruct v; simpl; by rewrite Hk. Qed.

Lemma sanitize_list_ext depth l l' :
  Forall2 (fun v v' => _sanitize_audit_value [] depth v = _sanitize_audit_value [] depth v') l l' ->
  map (_sanitize_audit_value [] depth) l = map (_sanitize_audit_value [] depth) l'.
Proof. induction 1 as [|v v' l l' Hv Hl IH]; simpl; [done|]. by rewrite Hv, IH. Qed.

Lemma sanitize_public v : forall key depth v',
  same_public key v v' -> _sanitize_audit_value key depth v = _sanitize_audit_value key depth v'.
Proof.
  induction v as [|b|n|r|s|l IH|f IH] using json_nested_ind; intros key depth v' Hp;
    (destruct (redacted_key key) eqn:Hk; [by rewrite !sanitize_redacted by done|]);
    inversion Hp as [? ? ? Hk'| |? ? l' Hl|? ? f' Hf]; subst; try congruence; simpl; rewrite Hk.
  - destruct (5 <=? depth); [done|]. do 2 f_equal. apply sanitize_list_ext.
    clear Hp Hk. induction Hl as [|x x' l l' Hx Hl IHl]; [constructor|]. apply Forall_cons in IH as [Hx' IH]. constructor; auto.
  - destruct (5 <=? depth); [done|]. do 3 f_equal.
    clear Hp Hk. induction Hf as [|x x' l l' [Hk Hx] Hl IHl]; [done|]. apply Forall_cons in IH as [Hx' IH]. simpl.
    rewrite (Hx' x.1 (depth + 1) x'.2 Hx), Hk. f_equal. by apply IHl.
Qed.

(** ** The order of the chain *)

Lemma event_le_total : Total event_le.
Proof.
  intros a b. unfold event_le. destruct (text_leb_total (ev_id a) (ev_id b));
    destruct (Z.lt_total (ev_created_at a) (ev_created_at b)) as [|[|]]; lia || (left; right; split; [lia|done]) || (right; right; split; [lia|done]) || auto.
Qed.

Lemma event_le_trans : Transitive event_le.
Proof.
  intros a b c [Hab|[Hab Hab']] [Hbc|[Hbc Hbc']]; unfold event_le; try (left; lia).
  right. split; [lia|]. by eapply text_leb_trans.
Qed.
Existing Instances event_le_total event_le_trans.

Lemma in_order_perm es : in_order es ≡ₚ es.
Proof. apply merge_sort_Permutation. Qed.

Lemma in_order_sorted es : StronglySorted event_le (in_order es).
Proof. apply (StronglySorted_merge_sort event_le). Qed.

(** The primary key. *)
Definition ids_unique (es : list GovernanceAuditEvent) : Prop := NoDup (ev_id <$> es).

Lemma ids_unique_eq es a b : ids_unique es -> a ∈ es -> b ∈ es -> ev_id a = ev_id b -> a = b.
Proof.
  unfold ids_unique. induction es as [|e es IH]; intros Hnd Ha Hb Heq; [by apply elem_of_nil in Ha|].
  simpl in Hnd. apply NoDup_cons in Hnd as [He Hnd].
  apply elem_of_cons in Ha as [->|Ha], Hb as [->|Hb]; [done| | |by apply IH].
  - destruct He. rewrite Heq. by apply list_elem_of_fmap_2.
  - destruct He. rewrite <- Heq. by apply list_elem_of_fmap_2.
Qed.

Lemma event_le_antisym a b : event_le a b -> event_le b a -> ev_id a = ev_id b.
Proof. intros [?|[? ?]] [?|[? ?]]; try lia. by apply text_leb_antisym. Qed.

(** A sorted list with the same elements is the order of the table. *)
Lemma in_order_unique es l : ids_unique es -> l ≡ₚ es -> StronglySorted event_le l -> in_order es = l.
Proof.
  intros Hu Hp Hs. apply (StronglySorted_unique_strong event_le); [|apply in_order_sorted|done|by rewrite in_order_perm].
  intros a b Ha Hb Hab Hba. rewrite in_order_perm in Ha. rewrite Hp in Hb.
  eapply ids_unique_eq; [done..|]. by apply event_le_antisym.
Qed.

Lemma in_order_filter P `{!forall x, Decision (P x)} es :
  ids_unique es -> in_order (filter P es) = filter P (in_order es).
Proof.
  intros Hu. apply in_order_unique.
  - unfold ids_unique in *. eapply sublist_NoDup; [exact Hu|]. by apply fmap_sublist, sublist_filter.
  - by rewrite in_order_perm.
  - apply StronglySorted_filter, in_order_sorted.
Qed.

(** The rows after the cursor of a row are the rows that follow it. *)
Lemma filter_after l r rest :
  StronglySorted event_le (l ++ r :: rest) -> NoDup (ev_id <$> (l ++ r :: rest)) ->
  filter (after_cursor (Some (ev_created_at r, ev_id r))) (l ++ r :: rest) = rest.
Proof.
  intros Hs Hnd.
  assert (Hno : forall x, x ∈ l ++ [r] -> ~ after_cursor (Some (ev_created_at r, ev_id r)) x).
  { intros x Hx Hafter. assert (Hle : event_le x r).
    { apply elem_of_app in Hx as [Hx|Hx]; [|apply list_elem_of_singleton in Hx as ->; right; split; [done|apply text_leb_refl]].
      apply (StronglySorted_app_1_elem_of event_le l (r :: rest) x r Hs Hx). apply list_elem_of_here. }
    destruct Hle as [Hlt|[Heq Hid]], Hafter as [Hlt'|[Heq' Hid']]; first [lia|congruence]. }
  assert (Hyes : forall x, x ∈ rest -> after_cursor (Some (ev_created_at r, ev_id r)) x).
  { intros x Hx. rewrite cons_middle in Hs. rewrite app_assoc in Hs.
    assert (Hle : event_le r x).
    { apply (StronglySorted_app_1_elem_of event_le (l ++ [r]) rest r x Hs); [|done]. apply elem_of_app. right. apply list_elem_of_here. }
    destruct Hle as [Hlt|[Heq Hid]]; [by left|right]. split; [lia|].
    destruct (text_leb (ev_id x) (ev_id r)) eqn:Hxr; [|done]. exfalso.
    assert (Hxid : ev_id r = ev_id x) by by apply text_leb_antisym.
    rewrite fmap_app in Hnd. simpl in Hnd. apply NoDup_app in Hnd as (_ & _ & Hnd). apply NoDup_cons in Hnd as [Hr _].
    apply Hr. rewrite Hxid. by apply list_elem_of_fmap_2. }
  rewrite cons_middle, app_assoc, filter_app.
  assert (filter (after_cursor (Some (ev_created_at r, ev_id r))) (l ++ [r]) = []) as ->.
  { destruct (filter _ (l ++ [r])) as [|x k] eqn:Hf; [done|]. exfalso.
    assert (Hx : x ∈ filter (after_cursor (Some (ev_created_at r, ev_id r))) (l ++ [r])) by (rewrite Hf; apply list_elem_of_here).
    apply list_elem_of_filter in Hx as [Ha Hx]. by apply (Hno x). }
  simpl. clear Hs Hnd Hno. induction rest as [|x rest IH]; [done|].
  rewrite filter_cons, decide_True by (apply Hyes, list_elem_of_here). f_equal. apply IH.
  intros y Hy. apply Hyes. by apply list_elem_of_further.
Qed.

(** ** Paging *)

Lemma check_rows_app prev l l' :
  check_rows prev (l ++ l') = match check_rows prev l with inl h => check_rows h l' | inr e => inr e end.
Proof. revert prev. induction l as [|r l IH]; intros prev; simpl; [done|]. destruct (_ || _); [done|apply IH]. Qed.

(** What the endpoint answers for the outcome of the whole walk. *)
Definition verdict (count : nat) (outcome : option text + (text * option text)) : AuditChainVerification :=
  match outcome with
  | inl h => MkVerification true count None h
  | inr (bad, h) => MkVerification false count (Some bad) h
  end.

Lemma verify_loop_spec db fuel : forall cursor prev rest,
  ids_unique (audit_events db) ->
  in_order (filter (after_cursor cursor) (audit_events db)) = rest ->
  (exists front, in_order (audit_events db) = front ++ rest) ->
  (length rest < fuel)%nat ->
  verify_loop fuel cursor prev db = Some (verdict (length (audit_events db)) (check_rows prev rest)).
Proof.
  induction fuel as [|fuel IH]; intros cursor prev rest Hu Hrest [front Hfront] Hfuel; [lia|]. cbn [verify_loop].
  unfold next_page. rewrite Hrest. set (n := CHAIN_VERIFY_BATCH_SIZE).
  assert (Hn : (0 < n)%nat) by (unfold n; vm_compute; lia).
  destruct (last (take n rest)) as [r|] eqn:Hl.
  2:{ apply last_None in Hl. destruct rest as [|e rest]; [done|]. destruct n; [lia|done]. }
  assert (Hcheck : check_rows prev rest = match check_rows prev (take n rest) with inl h => check_rows h (drop n rest) | inr e => inr e end).
  { rewrite <- (take_drop n rest) at 1. apply check_rows_app. }
  rewrite Hcheck. destruct (check_rows prev (take n rest)) as [h|[bad h]]; [|done].
  destruct (Nat.ltb_spec (length (take n rest)) n) as [Hshort|Hlong].
  - rewrite length_take in Hshort. rewrite drop_ge by lia. done.
  - rewrite length_take in Hlong. apply last_Some in Hl as [k Hk].
    assert (Hsplit : in_order (audit_events db) = (front ++ k) ++ r :: drop n rest).
    { rewrite Hfront, <- app_assoc. f_equal. rewrite <- (take_drop n rest) at 1. by rewrite Hk, <- app_assoc. }
    apply IH; [done| | |].
    + rewrite in_order_filter by done. rewrite Hsplit. apply filter_after; rewrite <- Hsplit; [apply in_order_sorted|].
      rewrite in_order_perm. exact Hu.
    + exists ((front ++ k) ++ [r]). by rewrite <- app_assoc.
    + rewrite length_drop. lia.
Qed.

Lemma filter_None_cursor (es : list GovernanceAuditEvent) : filter (after_cursor None) es = es.
Proof. induction es as [|e es IH]; [done|]. by rewrite filter_cons, decide_True, IH. Qed.

Lemma verify_spec fuel db :
  ids_unique (audit_events db) -> (length (audit_events db) < fuel)%nat ->
  verify_governance_audit_chain fuel db =
  Some (verdict (length (audit_events db)) (check_rows None (in_order (audit_events db)))).
Proof.
  intros Hu Hfuel. apply verify_loop_spec; [done|by rewrite filter_None_cursor|by exists []|].
  by rewrite in_order_perm.
Qed.

(** ** Appending *)

Lemma check_rows_head prev es h :
  check_rows prev es = inl h -> h = match last es with Some e => Some (event_hash e) | None => prev end.
Proof.
  revert prev. induction es as [|e es IH]; intros prev; simpl; [by intros [= ->]|].
  destruct (_ || _); [done|]. intros Hc. apply IH in Hc as ->. rewrite last_cons. by destruct (last es).
Qed.

(** The events of the table in order, all checked. *)
Definition chain_valid (db : GovDB) : Prop := exists h, check_rows None (in_order (audit_events db)) = inl h.

Lemma in_order_append es e :
  ids_unique (es ++ [e]) -> (forall p, last (in_order es) = Some p -> ev_created_at p < ev_created_at e) ->
  in_order (es ++ [e]) = in_order es ++ [e].
Proof.
  intros Hu Hlast. apply in_order_unique; [done|by rewrite in_order_perm|].
  apply StronglySorted_app. split; [|split; [apply in_order_sorted|repeat constructor]].
  intros a b Ha Hb. apply list_elem_of_singleton in Hb as ->. left.
  destruct (last (in_order es)) as [p|] eqn:Hl; [|by apply last_None in Hl; rewrite Hl in Ha; apply elem_of_nil in Ha].
  specialize (Hlast p eq_refl). apply last_Some in Hl as [k Hk]. pose proof (in_order_sorted es) as Hs. rewrite Hk in Hs, Ha.
  apply elem_of_app in Ha as [Ha|Ha]; [|apply list_elem_of_singleton in Ha as ->; done].
  assert (Hle : event_le a p) by (eapply (StronglySorted_app_1_elem_of event_le); [exact Hs|done|apply list_elem_of_here]).
  destruct Hle; lia.
Qed.

(** A successful append: what was written. *)
Lemma append_spec etype rtype rid actor out payload new_id now db e db' :
  append_governance_audit_event etype rtype rid actor out payload new_id now db = (Ok e, db') ->
  let prev := last (in_order (audit_events db)) in
  db' = with_events (fun es => es ++ [e]) db /\ ev_id e = new_id /\
  event_hash e = expected_hash (event_hash <$> prev) e /\ previous_event_hash e = event_hash <$> prev /\
  (forall p, prev = Some p -> ev_created_at p < ev_created_at e) /\ now <= ev_created_at e /\
  _sanitize_audit_value [] 0 (JObj payload) = JObj (payload_json e) /\
  event_type e <> [] /\ outcome e ∈ AUDIT_OUTCOMES.
Proof.
  unfold append_governance_audit_event. intros Hrun.
  destruct (bool_decide (cut 96 (strip etype) = []) || bool_decide (cut 64 (strip rtype) = [])) eqn:H1; [done|].
  destruct (bool_decide (py_lower (strip out) ∈ AUDIT_OUTCOMES)) eqn:H2; [|done]. cbn [negb] in Hrun.
  apply op_bind_inv in Hrun as (prev & s & Hg & Hrun). injection Hg as <- <-.
  destruct (_sanitize_audit_value [] 0 (JObj payload)) as [| | | | | |clean] eqn:Hs; try done.
  apply op_bind_inv in Hrun as ([] & s & Hm & Hrun). injection Hm as <-. injection Hrun as <- <-.
  apply orb_false_iff in H1 as [H1 _]. apply bool_decide_eq_false in H1. apply bool_decide_eq_true in H2.
  split; [done|]. split; [done|]. split; [done|]. split; [done|]. split; [|split; [|done]].
  - intros p Hp. cbn. rewrite Hp. destruct (Z.leb_spec now (ev_created_at p)); lia.
  - cbn. destruct (last (in_order (audit_events db))) as [p|]; [|lia]. destruct (Z.leb_spec now (ev_created_at p)); lia.
Qed.

Lemma append_chain etype rtype rid actor out payload new_id now db e db' :
  ids_unique (audit_events db) -> new_id ∉ (ev_id <$> audit_events db) -> chain_valid db ->
  append_governance_audit_event etype rtype rid actor out payload new_id now db = (Ok e, db') ->
  ids_unique (audit_events db') /\ in_order (audit_events db') = in_order (audit_events db) ++ [e] /\
  check_rows None (in_order (audit_events db')) = inl (Some (event_hash e)).
Proof.
  intros Hu Hnew [h Hh] Hrun. destruct (append_spec _ _ _ _ _ _ _ _ _ _ _ Hrun) as (-> & Hid & Hhash & Hprev & Hlt & _).
  assert (Hu' : ids_unique (audit_events db ++ [e])).
  { unfold ids_unique. rewrite fmap_app. apply NoDup_app. split; [done|]. split; [|apply NoDup_singleton].
    intros x Hx Hxe. simpl in Hxe. apply list_elem_of_singleton in Hxe as ->. by rewrite Hid in Hx. }
  split; [done|]. simpl. rewrite in_order_append by done. split; [done|].
  rewrite check_rows_app, Hh. pose proof (check_rows_head _ _ _ Hh) as Hhd.
  assert (Heq : h = event_hash <$> last (in_order (audit_events db))) by (rewrite Hhd; by destruct (last _)).
  simpl. rewrite Hprev, Heq, bool_decide_eq_true_2 by done. rewrite bool_decide_eq_true_2 by exact Hhash. done.
Qed.

(** ** What a valid chain commits to *)

(** Values a row of the table can hold. *)
Record row_wf (e : GovernanceAuditEvent) : Prop := {
  wf_id : code_points (ev_id e);
  wf_type : code_points (event_type e);
  wf_rtype : code_points (resource_type e);
  wf_rid : forall r, resource_id e = Some r -> code_points r;
  wf_outcome : code_points (outcome e);
  wf_payload : printable (JObj (payload_json e));
  wf_created : datetime (ev_created_at e)
}.

(** The recorded facts of two rows are the same; payloads up to the order of keys. *)
Definition same_record (e e' : GovernanceAuditEvent) : Prop :=
  ev_id e = ev_id e' /\ event_type e = event_type e' /\ resource_type e = resource_type e' /\
  resource_id e = resource_id e' /\ actor_user_id e = actor_user_id e' /\ outcome e = outcome e' /\
  canon (JObj (payload_json e)) = canon (JObj (payload_json e')) /\ ev_created_at e = ev_created_at e'.

(** The fields of a hashed record, values in canonical form. *)
Definition record_fields (e : GovernanceAuditEvent) (prev : option text) : list (text * json) :=
  [(of_string "id", JStr (ev_id e));
   (of_string "event_type", JStr (event_type e));
   (of_string "resource_type", JStr (resource_type e));
   (of_string "resource_id", opt_str (resource_id e));
   (of_string "actor_user_id", match actor_user_id e with Some n => JInt n | None => JNull end);
   (of_string "outcome", JStr (outcome e));
   (of_string "payload", JObj (payload_json e));
   (of_string "previous_event_hash", opt_str prev);
   (of_string "created_at", JStr (isoformat (ev_created_at e)))].

(** The bytes a row's hash is taken of, with the previous hash it records. *)
Definition hashed_bytes (e : GovernanceAuditEvent) : list Z := utf8 (dumps (JObj (record_fields e (previous_event_hash e)))).

(** A record of one table and one of the other whose bytes differ and have the
    same digest. *)
Definition collision_between (es es' : list GovernanceAuditEvent) : Prop :=
  exists e e', e ∈ es /\ e' ∈ es' /\ hashed_bytes e <> hashed_bytes e' /\
    sha256_hexdigest (hashed_bytes e) = sha256_hexdigest (hashed_bytes e').

Lemma collision_mono es es' fs fs' : es ⊆ fs -> es' ⊆ fs' -> collision_between es es' -> collision_between fs fs'.
Proof. intros H1 H2 (e & e' & He & He' & Hc). exists e, e'. split; [by apply H1|]. split; [by apply H2|done]. Qed.

Lemma code_points_pad w n : code_points (pad_digits w n).
Proof.
  revert n. induction w as [|w IH]; intros n; [constructor|]. simpl. apply code_points_app. split; [apply IH|].
  apply Forall_singleton. pose proof (Z.mod_pos_bound n 10). lia.
Qed.

Lemma code_points_isoformat t : code_points (isoformat t).
Proof.
  unfold isoformat. destruct (civil_from_days _) as [[y m] d].
  rewrite !code_points_app. repeat split; try apply code_points_pad; apply Forall_singleton; lia.
Qed.

Lemma record_printable e prev :
  row_wf e -> (forall h, prev = Some h -> code_points h) -> printable (JObj (record_fields e prev)).
Proof.
  intros [] Hprev. apply printable_obj. unfold record_fields.
  repeat (apply Forall_cons; split; [split; [apply code_points_ascii|]|]); try apply Forall_nil_2; try done; cbn [snd].
  - destruct (resource_id e); [by apply wf_rid0|done].
  - by destruct (actor_user_id e).
  - destruct prev; [by apply Hprev|done].
  - apply code_points_isoformat.
Qed.

Lemma record_value e e' prev prev' k v v' :
  canon (JObj (record_fields e prev)) = canon (JObj (record_fields e' prev')) ->
  (k, v) ∈ record_fields e prev -> (k, v') ∈ record_fields e' prev' -> canon v = canon v'.
Proof.
  rewrite !canon_obj. intros Heq%JObj_inj Hv Hv'.
  eapply (sort_fields_value _ _ k); [|exact Heq| |].
  - vm_compute. repeat (constructor; [intros Hin; repeat (apply elem_of_cons in Hin as [Hin|Hin]; [discriminate|]); by apply elem_of_nil in Hin|]). constructor.
  - change (k, canon v) with ((fun kv : text * json => (kv.1, canon kv.2)) (k, v)). by apply list_elem_of_fmap_2.
  - change (k, canon v') with ((fun kv : text * json => (kv.1, canon kv.2)) (k, v')). by apply list_elem_of_fmap_2.
Qed.

(** The hashed bytes determine the record and the previous hash. *)
Lemma canonical_inj e e' prev prev' :
  row_wf e -> row_wf e' -> (forall h, prev = Some h -> code_points h) -> (forall h, prev' = Some h -> code_points h) ->
  utf8 (dumps (JObj (record_fields e prev))) = utf8 (dumps (JObj (record_fields e' prev'))) ->
  same_record e e' /\ prev = prev'.
Proof.
  intros Hwf Hwf' Hp Hp' Heq.
  pose proof (record_printable e prev Hwf Hp) as Hpr. pose proof (record_printable e' prev' Hwf' Hp') as Hpr'.
  apply utf8_inj in Heq; [|by apply dumps_code_points..]. apply dumps_inj in Heq; [|done..].
  assert (Hval : forall i kv kv', record_fields e prev !! i = Some kv -> record_fields e' prev' !! i = Some kv' ->
    kv.1 = kv'.1 -> canon kv.2 = canon kv'.2).
  { intros i [k v] [k' v'] Hi Hi' Hk. simpl in Hk. subst k'.
    eapply record_value; [exact Heq|by eapply list_elem_of_lookup_2..]. }
  pose proof (Hval 0%nat _ _ eq_refl eq_refl eq_refl) as H0. pose proof (Hval 1%nat _ _ eq_refl eq_refl eq_refl) as H1.
  pose proof (Hval 2%nat _ _ eq_refl eq_refl eq_refl) as H2. pose proof (Hval 3%nat _ _ eq_refl eq_refl eq_refl) as H3.
  pose proof (Hval 4%nat _ _ eq_refl eq_refl eq_refl) as H4. pose proof (Hval 5%nat _ _ eq_refl eq_refl eq_refl) as H5.
  pose proof (Hval 6%nat _ _ eq_refl eq_refl eq_refl) as H6. pose proof (Hval 7%nat _ _ eq_refl eq_refl eq_refl) as H7.
  pose proof (Hval 8%nat _ _ eq_refl eq_refl eq_refl) as H8. cbn [snd] in *. clear Hval Heq Hpr Hpr'.
  assert (Hstr : forall s t, canon (JStr s) = canon (JStr t) -> s = t) by by intros s t [= ->].
  assert (Hopt : forall s t, canon (opt_str s) = canon (opt_str t) -> s = t) by (by intros [s|] [t|]; intros [= ->] || done).
  split; [|by apply Hopt].
  split_and!; auto.
  - destruct (actor_user_id e), (actor_user_id e'); simpl in H4; congruence.
  - apply isoformat_inj; [apply Hwf|apply Hwf'|by apply Hstr].
Qed.

Lemma expected_hash_fields prev e :
  expected_hash prev e = sha256_hexdigest (utf8 (dumps (JObj (record_fields e prev)))).
Proof. done. Qed.

(** Equal hashes: equal records, or a collision. *)
Lemma expected_hash_inj e e' :
  row_wf e -> row_wf e' -> (forall h, previous_event_hash e = Some h -> code_points h) ->
  (forall h, previous_event_hash e' = Some h -> code_points h) ->
  expected_hash (previous_event_hash e) e = expected_hash (previous_event_hash e') e' ->
  (same_record e e' /\ previous_event_hash e = previous_event_hash e') \/ collision_between [e] [e'].
Proof.
  intros Hwf Hwf' Hp Hp' Heq. rewrite !expected_hash_fields in Heq.
  destruct (decide (hashed_bytes e = hashed_bytes e')) as [Hb|Hb]; [left; exact (canonical_inj e e' _ _ Hwf Hwf' Hp Hp' Hb)|right].
  exists e, e'. split; [by apply list_elem_of_singleton|]. split; [by apply list_elem_of_singleton|]. exact (conj Hb Heq).
Qed.

(** A digest is text. *)
Lemma sha256_code_points b : code_points (sha256_hexdigest b).
Proof.
  with_strategy transparent [sha256_hexdigest] unfold sha256_hexdigest.
  apply Forall_bind, Forall_forall. intros w _. unfold SHA256.hex8. apply Forall_fmap, Forall_forall. intros i _. simpl.
  assert (Hr : 0 <= Z.land (Z.shiftr w i) 15 < 16).
  { change 15 with (Z.ones 4). rewrite Z.land_ones by lia. by apply Z.mod_pos_bound. }
  unfold SHA256.hex_digit. destruct (Z.ltb_spec (Z.land (Z.shiftr w i) 15) 10); lia.
Qed.

Lemma check_rows_snoc prev es e h :
  check_rows prev (es ++ [e]) = inl h ->
  exists p, check_rows prev es = inl p /\ previous_event_hash e = p /\ event_hash e = expected_hash p e /\ h = Some (event_hash e).
Proof.
  rewrite check_rows_app. destruct (check_rows prev es) as [p|]; [|done]. simpl.
  destruct (bool_decide (previous_event_hash e = p)) eqn:H1; [|done].
  destruct (bool_decide (event_hash e = expected_hash p e)) eqn:H2; [|done]. simpl.
  intros [= <-]. apply bool_decide_eq_true in H1, H2. eauto.
Qed.

Lemma check_rows_code_points es h :
  check_rows None es = inl h -> forall x, h = Some x -> code_points x.
Proof.
  destruct es as [|e es _] using rev_ind; [by intros [= <-]|]. intros (p & _ & _ & He & ->)%check_rows_snoc x [= <-].
  rewrite He. apply sha256_code_points.
Qed.

(** Two checked sequences with the same head record the same history. *)
Lemma head_commits es : forall es' h,
  Forall row_wf es -> Forall row_wf es' -> check_rows None es = inl h -> check_rows None es' = inl h ->
  Forall2 (fun e e' => same_record e e' /\ event_hash e = event_hash e' /\ previous_event_hash e = previous_event_hash e') es es' \/
  collision_between es es'.
Proof.
  induction es as [|e es IH] using rev_ind; intros es' h Hwf Hwf' Hc Hc'.
  - simpl in Hc. injection Hc as <-. destruct es' as [|e' es' _] using rev_ind; [left; constructor|].
    by apply check_rows_snoc in Hc' as (? & _ & _ & _ & ?).
  - destruct es' as [|e' es' _] using rev_ind.
    { simpl in Hc'. injection Hc' as <-. by apply check_rows_snoc in Hc as (? & _ & _ & _ & ?). }
    apply Forall_app in Hwf as [Hwf [Hwe _]%Forall_cons], Hwf' as [Hwf' [Hwe' _]%Forall_cons].
    apply check_rows_snoc in Hc as (p & Hc & Hp & He & ->). apply check_rows_snoc in Hc' as (p' & Hc' & Hp' & He' & Hh).
    injection Hh as Hh. subst p p'. rewrite He, He' in Hh.
    destruct (expected_hash_inj e e' Hwe Hwe' (check_rows_code_points _ _ Hc) (check_rows_code_points _ _ Hc') Hh)
      as [[Hsame Hprev]|Hcol]; [|right; eapply collision_mono, Hcol; intros x ->%list_elem_of_singleton; apply elem_of_app; right; apply list_elem_of_here].
    rewrite <- Hprev in Hc'. destruct (IH es' _ Hwf Hwf' Hc Hc') as [IH'|Hcol].
    + left. apply Forall2_app; [done|]. constructor; [|constructor]. split; [done|]. split; congruence.
    + right. eapply collision_mono, Hcol; intros x Hx; apply elem_of_app; by left.
Qed.

(** ** A row rewritten in place *)

(** [ON DELETE SET NULL] on the actor of every event of a user. *)
Definition erase_actor (uid : Z) (e : GovernanceAuditEvent) : GovernanceAuditEvent :=
  if decide (actor_user_id e = Some uid) then
    MkEvent (ev_id e) (event_type e) (resource_type e) (resource_id e) None (outcome e) (payload_json e)
      (previous_event_hash e) (event_hash e) (ev_created_at e)
  else e.

Lemma erase_actor_order uid es : ids_unique es -> in_order (erase_actor uid <$> es) = erase_actor uid <$> in_order es.
Proof.
  intros Hu. assert (Hid : forall e, ev_id (erase_actor uid e) = ev_id e /\ ev_created_at (erase_actor uid e) = ev_created_at e).
  { intros e. unfold erase_actor. by case_decide. }
  apply in_order_unique.
  - unfold ids_unique in *. rewrite <- list_fmap_compose.
    rewrite (list_fmap_ext _ ev_id es); [done|]. intros j y _. simpl. apply Hid.
  - by rewrite in_order_perm.
  - pose proof (in_order_sorted es) as Hs. induction Hs as [|e l Hl IH He]; [constructor|]. constructor; [done|].
    apply Forall_fmap. eapply Forall_impl; [exact He|]. intros x Hx. simpl. unfold event_le in *.
    by rewrite !(proj1 (Hid _)), !(proj2 (Hid _)).
Qed.

Lemma erase_detected uid l e rest h :
  Forall row_wf (l ++ e :: rest) -> check_rows None (l ++ e :: rest) = inl h ->
  (forall x, x ∈ l -> actor_user_id x <> Some uid) -> actor_user_id e = Some uid ->
  (exists p, check_rows None (erase_actor uid <$> (l ++ e :: rest)) = inr (ev_id e, p)) \/
  collision_between [e] [erase_actor uid e].
Proof.
  intros Hwf Hc Hl He. rewrite fmap_app, fmap_cons.
  assert (Hsame : erase_actor uid <$> l = l).
  { clear Hwf Hc. induction l as [|x l IH]; [done|]. rewrite fmap_cons, IH by (intros y Hy; apply Hl; by apply list_elem_of_further).
    unfold erase_actor. by rewrite decide_False by (apply Hl; apply list_elem_of_here). }
  rewrite Hsame. rewrite check_rows_app in Hc |- *. destruct (check_rows None l) as [p|] eqn:Hp; [|done].
  apply Forall_app in Hwf as [_ [Hwe _]%Forall_cons]. cbn [check_rows] in Hc |- *.
  destruct (bool_decide (previous_event_hash e = p)) eqn:H1; [|done].
  destruct (bool_decide (event_hash e = expected_hash p e)) eqn:H2; [|done]. apply bool_decide_eq_true in H1, H2.
  set (e' := erase_actor uid e).
  assert (Hid : ev_id e' = ev_id e) by (unfold e', erase_actor; by case_decide).
  assert (Hhash : event_hash e' = event_hash e) by (unfold e', erase_actor; by case_decide).
  assert (Hactor : actor_user_id e' = None) by (unfold e', erase_actor; by rewrite decide_True).
  assert (Hwe' : row_wf e') by (destruct Hwe; unfold e', erase_actor; by case_decide; split).
  assert (Hprev : previous_event_hash e' = p) by (rewrite <- H1; unfold e', erase_actor; by case_decide).
  destruct (decide (event_hash e' = expected_hash p e')) as [Heq|Hne].
  - right. rewrite Hhash, H2 in Heq. pose proof (check_rows_code_points _ _ Hp) as Hcp.
    destruct (expected_hash_inj e e' Hwe Hwe') as [[(_ & _ & _ & _ & Ha & _) _]|]; rewrite ?Hprev, ?H1; [done..|congruence|done].
  - left. exists p. rewrite (bool_decide_eq_false_2 (event_hash e' = _)) by done. by rewrite orb_true_r, Hid.
Qed.

(** ** Properties *)

(** redaction leaks nothing.  Two payloads that differ only in values below
    keys the redaction recognises, at any depth, are stored (and hashed) as the
    same value. *)
Theorem redaction_hides_secrets v v' :
  same_public [] v v' -> _sanitize_audit_value [] 0 v = _sanitize_audit_value [] 0 v'.
Proof. apply sanitize_public. Qed.

(** C7: verification in pages is verification of the whole table: whatever the
    number of events, the loop ends, and its answer is that of one walk over
    all events in order of time, with the count of the table. *)
Theorem paged_verification_correct fuel db :
  ids_unique (audit_events db) -> (length (audit_events db) < fuel)%nat ->
  verify_governance_audit_chain fuel db =
  Some (verdict (length (audit_events db)) (check_rows None (in_order (audit_events db)))).
Proof. apply verify_spec. Qed.

(** Appending keeps the chain verifiable.  After a successful append to a
    valid chain the new event is the last in the order of time, whatever the
    clock says, every earlier event is untouched, and verification answers
    valid with the new event's hash as head. *)
Theorem append_keeps_chain_valid etype rtype rid actor out payload new_id now db e db' fuel :
  ids_unique (audit_events db) -> new_id ∉ (ev_id <$> audit_events db) -> chain_valid db ->
  append_governance_audit_event etype rtype rid actor out payload new_id now db = (Ok e, db') ->
  (S (length (audit_events db)) < fuel)%nat ->
  in_order (audit_events db') = in_order (audit_events db) ++ [e] /\
  verify_governance_audit_chain fuel db' =
    Some (MkVerification true (S (length (audit_events db))) None (Some (event_hash e))).
Proof.
  intros Hu Hnew Hok Hrun Hfuel. destruct (append_chain _ _ _ _ _ _ _ _ _ _ _ Hu Hnew Hok Hrun) as (Hu' & Hord & Hc).
  destruct (append_spec _ _ _ _ _ _ _ _ _ _ _ Hrun) as (Hdb & _). split; [done|].
  assert (Hlen : length (audit_events db') = S (length (audit_events db))).
  { rewrite Hdb. simpl. rewrite length_app. simpl. lia. }
  rewrite verify_spec by (rewrite ?Hlen; done). by rewrite Hc, Hlen.
Qed.

(** C6: the head hash commits to the whole history.  When two tables both
    verify and report the same head hash, they hold the same events in the same
    order (payloads up to the order of keys), or SHA-256 collides on them: a record of
    one table and a record of the other are hashed from different bytes and have
    the same digest. *)
Theorem head_hash_commits_history fuel db db' n n' h :
  ids_unique (audit_events db) -> ids_unique (audit_events db') ->
  Forall row_wf (audit_events db) -> Forall row_wf (audit_events db') ->
  (length (audit_events db) < fuel)%nat -> (length (audit_events db') < fuel)%nat ->
  verify_governance_audit_chain fuel db = Some (MkVerification true n None h) ->
  verify_governance_audit_chain fuel db' = Some (MkVerification true n' None h) ->
  Forall2 (fun e e' => same_record e e' /\ event_hash e = event_hash e' /\ previous_event_hash e = previous_event_hash e')
    (in_order (audit_events db)) (in_order (audit_events db')) \/
  collision_between (audit_events db) (audit_events db').
Proof.
  intros Hu Hu' Hwf Hwf' Hf Hf' Hv Hv'. rewrite verify_spec in Hv, Hv' by done.
  destruct (check_rows None (in_order (audit_events db))) as [x|[bad x]] eqn:Hc; [|done].
  destruct (check_rows None (in_order (audit_events db'))) as [x'|[bad x']] eqn:Hc'; [|done].
  injection Hv as _ <-. injection Hv' as _ ->. destruct (head_commits (in_order (audit_events db)) (in_order (audit_events db')) x) as [|Hcol]; [by rewrite ?in_order_perm..|done|done|by left|].
  right. eapply collision_mono, Hcol; intros e; by rewrite in_order_perm.
Qed.

(** nulling the actor of a deleted user, as [ON DELETE SET NULL] would, is
    reported as tampering at that user's first event (or SHA-256 collides on a
    record and the same without its actor), which is why [permanently_delete_user] keeps the users row. *)
Theorem erased_actor_is_detected uid fuel db n h :
  ids_unique (audit_events db) -> Forall row_wf (audit_events db) -> (length (audit_events db) < fuel)%nat ->
  Exists (fun e => actor_user_id e = Some uid) (audit_events db) ->
  verify_governance_audit_chain fuel db = Some (MkVerification true n None h) ->
  (exists bad p e, verify_governance_audit_chain fuel (with_events (fmap (erase_actor uid)) db) =
      Some (MkVerification false (length (audit_events db)) (Some bad) p) /\
    e ∈ audit_events db /\ ev_id e = bad /\ actor_user_id e = Some uid) \/
  collision_between (audit_events db) (erase_actor uid <$> audit_events db).
Proof.
  intros Hu Hwf Hfuel Hex Hv. rewrite verify_spec in Hv by done.
  destruct (check_rows None (in_order (audit_events db))) as [x|[bad x]] eqn:Hc; [|done].
  rewrite <- in_order_perm in Hex. apply Exists_exists in Hex as (e0 & He0 & Ha0).
  destruct (list_find (fun e => actor_user_id e = Some uid) (in_order (audit_events db))) as [[i e]|] eqn:Hfind.
  2:{ apply list_find_None in Hfind. rewrite Forall_forall in Hfind. by destruct (Hfind e0 He0). }
  apply list_find_Some in Hfind as (Hi & Ha & Hbefore).
  pose proof (take_drop_middle _ _ _ Hi) as Hsplit. rewrite <- Hsplit in Hc.
  assert (Hwf' : Forall row_wf (take i (in_order (audit_events db)) ++ e :: drop (S i) (in_order (audit_events db))))
    by (rewrite Hsplit, in_order_perm; done).
  destruct (erase_detected uid _ e _ x Hwf' Hc) as [[p Hp]|Hcol]; [|done| |].
  - intros y [j [Hj Hlt]%lookup_take_Some]%list_elem_of_lookup. by eapply Hbefore.
  - left. rewrite Hsplit in Hp. exists (ev_id e), p, e. split_and!; [|rewrite <- in_order_perm; by eapply list_elem_of_lookup_2|done..].
    rewrite verify_spec; simpl.
    + by rewrite erase_actor_order, Hp, length_fmap.
    + unfold ids_unique in *. rewrite <- list_fmap_compose.
      rewrite (list_fmap_ext _ ev_id (audit_events db)); [done|]. intros j y _. simpl. unfold erase_actor. by case_decide.
    + by rewrite length_fmap.
  - right. assert (He : e ∈ audit_events db) by (rewrite <- in_order_perm; by eapply list_elem_of_lookup_2).
    eapply collision_mono, Hcol; intros y ->%list_elem_of_singleton; [done|by apply list_elem_of_fmap_2].
Qed.

(** ** Legal holds *)

(** The partial unique index: one active hold per resource. *)
Definition holds_unique (db : GovDB) : Prop := forall rtype rid id id' h h',
  legal_holds db !! id = Some h -> legal_holds db !! id' = Some h' ->
  on_resource rtype rid h -> on_resource rtype rid h' -> id = id'.

Lemma active_hold_Some rtype rid db id h :
  active_hold rtype rid db = Some (id, h) -> legal_holds db !! id = Some h /\ on_resource rtype rid h.
Proof.
  unfold active_hold. intros Hh. assert (Hin : (id, h) ∈ filter (fun kv => on_resource rtype rid kv.2) (map_to_list (legal_holds db))).
  { destruct (filter _ _); [done|]. injection Hh as ->. apply list_elem_of_here. }
  apply list_elem_of_filter in Hin as [Hr Hin]. by apply elem_of_map_to_list in Hin.
Qed.

Lemma active_hold_None rtype rid db :
  active_hold rtype rid db = None -> forall id h, legal_holds db !! id = Some h -> ~ on_resource rtype rid h.
Proof.
  unfold active_hold. intros Hh id h Hl Hr.
  assert (Hin : (id, h) ∈ filter (fun kv => on_resource rtype rid kv.2) (map_to_list (legal_holds db))).
  { apply list_elem_of_filter. split; [done|]. by apply elem_of_map_to_list. }
  destruct (filter _ _); [by apply elem_of_nil in Hin|done].
Qed.

Lemma has_active_true rtype rid db :
  has_active_legal_hold rtype rid db = true <-> exists id h, legal_holds db !! id = Some h /\ on_resource rtype rid h.
Proof.
  unfold has_active_legal_hold. rewrite bool_decide_eq_true. split.
  - intros [[id h] Hh]. apply active_hold_Some in Hh. eauto.
  - intros (id & h & Hl & Hr). destruct (active_hold rtype rid db) eqn:Hh; [by eexists|].
    by destruct (active_hold_None _ _ _ Hh id h Hl).
Qed.

(** Placing a legal hold.  When it answers an id, the (normalised) resource
    is a supported, existing one with an active hold under that id and never
    has two; a resource already on hold is left as it is, nothing is written;
    otherwise exactly one hold row and one audit event are added. *)
Theorem place_legal_hold_correct rtype rid reason actor new_id event_id now db id db' :
  holds_unique db -> legal_holds db !! new_id = None ->
  place_legal_hold rtype rid reason actor new_id event_id now db = (Ok id, db') ->
  let t := py_lower (strip rtype) in let r := strip rid in
  t ∈ SUPPORTED_HOLD_RESOURCE_TYPES /\ (t, r) ∈ governed db /\ r <> [] /\ (length r <= 128)%nat /\
  holds_unique db' /\ (exists h, legal_holds db' !! id = Some h /\ on_resource t r h) /\
  (has_active_legal_hold t r db = true -> db' = db) /\
  (has_active_legal_hold t r db = false -> id = new_id /\
     (forall i, i <> new_id -> legal_holds db' !! i = legal_holds db !! i) /\
     exists e, audit_events db' = audit_events db ++ [e] /\ ev_id e = event_id).
Proof.
  intros Hu Hnew Hrun t r. unfold place_legal_hold in Hrun. fold t r in Hrun.
  destruct (bool_decide (t ∈ SUPPORTED_HOLD_RESOURCE_TYPES)) eqn:Ht; [|done]. cbn [negb] in Hrun.
  destruct (bool_decide (r = []) || (128 <? length r)%nat) eqn:Hr; [done|].
  match type of Hrun with (if ?b then _ else _) _ = _ => destruct b; [done|] end.
  apply op_bind_inv in Hrun as ([] & s & Hassert & Hrun).
  assert (Hg : (t, r) ∈ governed db /\ s = db).
  { unfold _assert_hold_resource_exists in Hassert. rewrite Ht in Hassert. cbn [negb] in Hassert.
    apply op_bind_inv in Hassert as (b & s' & Hb & Hassert). injection Hb as <- <-.
    destruct (bool_decide ((t, r) ∈ governed db)) eqn:Hg; [|done]. apply bool_decide_eq_true in Hg. by injection Hassert. }
  destruct Hg as [Hg ->]. apply bool_decide_eq_true in Ht. apply orb_false_iff in Hr as [Hr1 Hr2].
  apply bool_decide_eq_false in Hr1. apply Nat.ltb_ge in Hr2. do 4 (split; [done|]).
  apply op_bind_inv in Hrun as (ex & s & Hb & Hrun). injection Hb as <- <-.
  destruct (active_hold t r db) as [[id0 h0]|] eqn:Hact.
  - injection Hrun as <- <-. apply active_hold_Some in Hact as Ha. split; [done|]. split; [by exists h0|]. split; [done|].
    unfold has_active_legal_hold. rewrite Hact. done.
  - apply op_bind_inv in Hrun as ([] & s & Hm & Hrun). injection Hm as <-.
    apply op_bind_inv in Hrun as (e & s & Happ & Hrun). injection Hrun as <- <-.
    destruct (append_spec _ _ _ _ _ _ _ _ _ _ _ Happ) as (-> & Hid & _). simpl.
    pose proof (active_hold_None _ _ _ Hact) as Hno. split.
    + intros rt ri i i' h h' Hi Hi' Ho Ho'. simpl in Hi, Hi'. rewrite lookup_insert in Hi, Hi'.
      repeat case_decide; subst; try done; simplify_eq.
      all: first [by eapply (Hu rt ri); eassumption|exfalso; match goal with
        | Hn : on_resource _ _ (MkHold _ _ _ _ _ _ _ _), Hl : legal_holds _ !! ?j = Some ?k, Ho : on_resource _ _ ?k |- _ =>
            destruct Hn as (Ha & Hb & _); simpl in Ha, Hb; rewrite <- Ha, <- Hb in Ho; exact (Hno j k Hl Ho)
        end].
    + split; [eexists; rewrite lookup_insert_eq; done|]. split.
      * intros Htrue. unfold has_active_legal_hold in Htrue. by rewrite Hact in Htrue.
      * intros _. split; [done|]. split; [by intros i Hi; rewrite lookup_insert_ne|by exists e].
Qed.

(** releasing a legal hold happens once.  A successful release turns that
    row, and no other, from active to released, leaves its resource without an
    active hold and appends one audit event; releasing it again is a
    [ValueError]. *)
Theorem release_legal_hold_once hold_id actor reason event_id now db db' :
  holds_unique db ->
  release_legal_hold hold_id actor reason event_id now db = (Ok tt, db') ->
  exists h h', legal_holds db !! hold_id = Some h /\ hold_status h = Active /\
    legal_holds db' !! hold_id = Some h' /\ hold_status h' = Released /\ hold_reason h' = hold_reason h /\
    (forall i, i <> hold_id -> legal_holds db' !! i = legal_holds db !! i) /\
    has_active_legal_hold (hold_resource_type h) (hold_resource_id h) db' = false /\
    (exists e, audit_events db' = audit_events db ++ [e] /\ ev_id e = event_id) /\
    (forall actor' reason' event_id' now', (release_legal_hold hold_id actor' reason' event_id' now' db').1 =
       Raise (ValueError "Legal hold is already released")).
Proof.
  intros Hu Hrun. unfold release_legal_hold in Hrun.
  apply op_bind_inv in Hrun as (o & s & Hg & Hrun). injection Hg as <- <-.
  destruct (legal_holds db !! hold_id) as [h|] eqn:Hh; [|done]. destruct (hold_status h) eqn:Hs; [|done].
  apply op_bind_inv in Hrun as ([] & s & Hm & Hrun). injection Hm as <-.
  apply op_bind_inv in Hrun as (e & s & Happ & Hrun). injection Hrun as <-.
  destruct (append_spec _ _ _ _ _ _ _ _ _ _ _ Happ) as (-> & Hid & _). simpl.
  eexists h, _. split; [done|]. split; [done|]. rewrite lookup_insert_eq. split; [done|]. split; [done|]. split; [done|].
  split; [by intros i Hi; rewrite lookup_insert_ne|]. split; [|split; [by exists e|]].
  - apply not_true_iff_false. rewrite has_active_true. intros (i & h' & Hi & Hr). simpl in Hi.
    rewrite lookup_insert in Hi. case_decide; [simplify_eq; by destruct Hr as (_ & _ & ?)|].
    assert (Hrh : on_resource (hold_resource_type h) (hold_resource_id h) h) by done.
    by pose proof (Hu _ _ i hold_id h' h Hi Hh Hr Hrh).
  - intros. unfold release_legal_hold. 
    match goal with |- ((_ ≫= _) ?db1).1 = _ => rewrite (op_bind_ok _ _ db1 (legal_holds db1 !! hold_id) db1) by done end.
    simpl. by rewrite lookup_insert_eq.
Qed.
End audit.

(** ** Witnesses, on the ASCII tables *)

#[local] Existing Instance ascii_str.

Definition gov0 : GovDB := MkGov [] ∅ [(of_string "agent", of_string "a1")].

Definition gov1_run := append_governance_audit_event (of_string "agent.published ") (of_string "agent") (Some (of_string "a1"))
  (Some 7) (of_string "Success") [(of_string "api_key", JStr (of_string "k")); (of_string "n", JInt 3)] (of_string "e1") 1773576000000042 gov0.
Definition gov1 : GovDB := gov1_run.2.

Lemma redaction_hides_secrets_witness :
  _sanitize_audit_value [] 0 (JObj [(of_string "API_KEY", JStr (of_string "s1"))]) =
  _sanitize_audit_value [] 0 (JObj [(of_string "API_KEY", JStr (of_string "s2"))]).
Proof.
  apply redaction_hides_secrets. apply sp_obj. constructor; [|constructor]. split; [reflexivity|].
  apply sp_redacted. vm_compute. reflexivity.
Defined.

Lemma paged_verification_correct_witness :
  verify_governance_audit_chain 1 gov0 = Some (verdict 0 (inl None)).
Proof.
  refine (paged_verification_correct 1 gov0 _ _); [constructor|simpl; lia].
Defined.

Lemma gov1_ok : exists e, gov1_run = (Ok e, gov1).
Proof.
  unfold gov1. destruct gov1_run as [[e|ex] db'] eqn:Hrun; [by exists e|].
  unfold gov1_run in Hrun. lazy -[sha256_hexdigest _canonical_event_payload] in Hrun. discriminate.
Qed.

Lemma append_keeps_chain_valid_witness :
  exists h, verify_governance_audit_chain 2 gov1 = Some (MkVerification true 1 None (Some h)).
Proof.
  destruct gov1_ok as [e He]. exists (event_hash e).
  refine (proj2 (append_keeps_chain_valid _ _ _ _ _ _ _ _ gov0 e gov1 2 _ _ _ He _)).
  - constructor.
  - apply not_elem_of_nil.
  - exists None. reflexivity.
  - simpl. lia.
Defined.

Lemma place_legal_hold_correct_witness :
  let r := place_legal_hold (of_string " Agent") (of_string "a1") (of_string "audit  2026") 7 "h1" (of_string "e1") 0 gov0 in
  exists id db', r = (Ok id, db') /\ exists h, legal_holds db' !! id = Some h /\ on_resource (of_string "agent") (of_string "a1") h.
Proof.
  intros r. destruct r as [[id|ex] db'] eqn:Hr.
  2:{ unfold r in Hr. lazy -[sha256_hexdigest _canonical_event_payload] in Hr. discriminate. }
  exists id, db'. split; [reflexivity|].
  refine (proj1 (proj2 (proj2 (proj2 (proj2 (proj2 (place_legal_hold_correct _ _ _ _ _ _ _ gov0 id db' _ _ Hr))))))).
  - intros rt ri i i' h h' Hi. discriminate Hi.
  - reflexivity.
Defined.

(** A table whose only event names user 7. *)
Definition gov_one (actor : option Z) : GovDB :=
  let e := MkEvent (of_string "e1") (of_string "t") (of_string "agent") None actor (of_string "success")
    [] None [] 1773576000000042 in
  MkGov [MkEvent (of_string "e1") (of_string "t") (of_string "agent") None actor (of_string "success")
    [] None (expected_hash None e) 1773576000000042] ∅ [].

Lemma gov_one_rows actor : Forall row_wf (audit_events (gov_one actor)).
Proof.
  apply Forall_cons. split; [|apply Forall_nil_2]. split; try apply code_points_ascii; [done|done|split; vm_compute; discriminate].
Qed.

Lemma gov_one_valid actor :
  verify_governance_audit_chain 2 (gov_one actor) =
  Some (MkVerification true 1 None (event_hash <$> last (audit_events (gov_one actor)))).
Proof.
  rewrite verify_spec; [|apply NoDup_singleton|simpl; lia]. unfold in_order. change (merge_sort event_le (audit_events (gov_one actor))) with (audit_events (gov_one actor)).
  cbn [gov_one audit_events check_rows]. rewrite !bool_decide_eq_true_2 by done. done.
Qed.

Lemma head_hash_commits_history_witness :
  Forall2 (fun e e' => same_record e e' /\ event_hash e = event_hash e' /\ previous_event_hash e = previous_event_hash e')
    (in_order (audit_events (gov_one (Some 7)))) (in_order (audit_events (gov_one (Some 7)))) \/
  collision_between (audit_events (gov_one (Some 7))) (audit_events (gov_one (Some 7))).
Proof.
  refine (head_hash_commits_history 2 (gov_one (Some 7)) (gov_one (Some 7)) 1 1 _ _ _ _ _ _ _ (gov_one_valid (Some 7)) (gov_one_valid (Some 7))).
  - apply NoDup_singleton.
  - apply NoDup_singleton.
  - apply gov_one_rows.
  - apply gov_one_rows.
  - simpl. lia.
  - simpl. lia.
Defined.

Lemma erased_actor_is_detected_witness :
  (exists bad p e, verify_governance_audit_chain 2 (with_events (fmap (erase_actor 7)) (gov_one (Some 7))) =
      Some (MkVerification false 1 (Some bad) p) /\
    e ∈ audit_events (gov_one (Some 7)) /\ ev_id e = bad /\ actor_user_id e = Some 7) \/
  collision_between (audit_events (gov_one (Some 7))) (erase_actor 7 <$> audit_events (gov_one (Some 7))).
Proof.
  refine (erased_actor_is_detected 7 2 (gov_one (Some 7)) 1 _ _ _ _ _ (gov_one_valid (Some 7))).
  - apply NoDup_singleton.
  - apply gov_one_rows.
  - simpl. lia.
  - constructor. reflexivity.
Defined.

Definition held_agent : GovDB :=
  MkGov [] {[ "h1"%string := MkHold (of_string "agent") (of_string "a1") Active (of_string "r") (Some 7) None 0 None ]} [].

Lemma release_legal_hold_once_witness :
  exists db', release_legal_hold "h1" 7 [] (of_string "e2") 5 held_agent = (Ok tt, db') /\
    has_active_legal_hold (of_string "agent") (of_string "a1") db' = false.
Proof.
  destruct (release_legal_hold "h1" 7 [] (of_string "e2") 5 held_agent) as [[[]|ex] db'] eqn:Hr.
  2:{ exfalso. lazy -[sha256_hexdigest _canonical_event_payload] in Hr. discriminate Hr. }
  exists db'. split; [reflexivity|].
  destruct (release_legal_hold_once "h1" 7 [] (of_string "e2") 5 held_agent db') as (h & h' & Hh & _ & _ & _ & _ & _ & Hact & _).
  - intros rt ri i i' h h' Hi Hi' _ _. unfold held_agent in Hi, Hi'; simpl in Hi, Hi'.
    apply lookup_singleton_Some in Hi as [<- _]. apply lookup_singleton_Some in Hi' as [<- _]. reflexivity.
  - exact Hr.
  - unfold held_agent in Hh; simpl in Hh. apply lookup_singleton_Some in Hh as [_ <-]. exact Hact.
Defined.
