(* ===== verification/Outbox.v ===== *)
(** * The transactional outbox

    [outbox_service.py]: events inserted with the change they announce, leased
    by the relay, published to the Redis stream and retried with back-off.

    The table is a map from ids to rows.  Functions that take an ORM object
    take the row as it was loaded; their writes reach the table column by
    column ([save]), so a row another transaction has changed since keeps what
    this one does not write.  [now] is [utcnow()] during the call, [new_id] the
    uuid drawn for a new row and [locked] the rows other transactions hold
    locks on ([SKIP LOCKED]). *)

From S2P Require Import Prelude Text Json.

(** ** Configuration ([config.py]) *)

Class Settings := {
  outbox_batch_size : nat;
  outbox_lease_seconds : Z;
  knowledge_job_lease_seconds : Z;
  knowledge_job_max_attempts : Z;
  knowledge_retry_base_seconds : Z;
  memory_extract_enabled : bool;
  memory_job_lease_seconds : Z;
  memory_job_max_attempts : Z;
  memory_retry_base_seconds : Z
}.

(** The defaults of the file. *)
Definition default_settings : Settings := {|
  outbox_batch_size := 100; outbox_lease_seconds := 60;
  knowledge_job_lease_seconds := 120; knowledge_job_max_attempts := 5; knowledge_retry_base_seconds := 5;
  memory_extract_enabled := true;
  memory_job_lease_seconds := 120; memory_job_max_attempts := 5; memory_retry_base_seconds := 5
|}.

(** [base * (2 ** max(0, attempts - 1))] seconds, at most one hour. *)
Definition backoff (base attempts : Z) : Z := seconds (Z.min (base * 2 ^ Z.max 0 (attempts - 1)) 3600).

(** ** Saving an ORM object

    Only the columns that differ from the loaded object are written. *)

Definition wr {A} `{EqDecision A} (loaded new current : A) : A :=
  if decide (new = loaded) then current else new.

Lemma wr_same {A} `{EqDecision A} (l n : A) : wr l n l = n.
Proof. unfold wr. by case_decide. Qed.

Lemma wr_nothing {A} `{EqDecision A} (l c : A) : wr l l c = c.
Proof. unfold wr. by rewrite decide_True. Qed.

Class Row (R : Type) := {
  merge : R -> R -> R -> R;
  merge_same : forall loaded new, merge loaded new loaded = new;
  merge_nothing : forall loaded current, merge loaded loaded current = current
}.

Abbreviation table R := (gmap string R) (only parsing).

(** [flush()] of one changed object; a row deleted meanwhile is an error. *)
Definition save {R} `{Row R} (id : string) (loaded new : R) : op (table R) unit := fun rows =>
  match rows !! id with
  | Some current => (Ok tt, <[id := merge loaded new current]> rows)
  | None => (Raise (OtherError "StaleDataError"), rows)
  end.

(** Working on one table of a larger database. *)
Class HasTable (S R : Type) := {
  rows : S -> table R;
  set_rows : table R -> S -> S;
  rows_set : forall t s, rows (set_rows t s) = t;
  set_rows_rows : forall s, set_rows (rows s) s = s;
  set_rows_set : forall t t' s, set_rows t (set_rows t' s) = set_rows t s
}.

(** Two tables of one database: writing one leaves the other. *)
Class Separate S R R' `{HasTable S R, HasTable S R'} := {
  rows_other : forall (t : table R) (s : S), rows (R := R') (set_rows t s) = rows s;
  rows_other' : forall (t : table R') (s : S), rows (R := R) (set_rows t s) = rows s
}.

Definition on_table {S R A} `{HasTable S R} (m : op (table R) A) : op S A := fun s =>
  let '(r, t) := m (rows s) in (r, set_rows t s).

(** ** Rows *)

Inductive event_status := EvPending | EvLeased | EvProcessed | EvRetry | EvDead.

#[export] Instance event_status_eq_dec : EqDecision event_status.
Proof. solve_decision. Defined.

Record OutboxEvent := MkOutboxEvent {
  aggregate_type : string;
  aggregate_id : string;
  oe_event_type : string;
  oe_payload : list (text * json);
  oe_status : event_status;
  oe_attempt_count : Z;
  oe_lease_owner : option string;
  oe_lease_until : option Z;
  oe_idempotency_key : string;
  available_at : Z;
  processed_at : option Z;
  oe_last_error : option text;
  oe_created_at : Z
}.

Abbreviation outbox := (gmap string OutboxEvent) (only parsing).

#[export, program] Instance event_row : Row OutboxEvent := {|
  merge l n c := MkOutboxEvent
    (wr (aggregate_type l) (aggregate_type n) (aggregate_type c))
    (wr (aggregate_id l) (aggregate_id n) (aggregate_id c))
    (wr (oe_event_type l) (oe_event_type n) (oe_event_type c))
    (wr (oe_payload l) (oe_payload n) (oe_payload c))
    (wr (oe_status l) (oe_status n) (oe_status c))
    (wr (oe_attempt_count l) (oe_attempt_count n) (oe_attempt_count c))
    (wr (oe_lease_owner l) (oe_lease_owner n) (oe_lease_owner c))
    (wr (oe_lease_until l) (oe_lease_until n) (oe_lease_until c))
    (wr (oe_idempotency_key l) (oe_idempotency_key n) (oe_idempotency_key c))
    (wr (available_at l) (available_at n) (available_at c))
    (wr (processed_at l) (processed_at n) (processed_at c))
    (wr (oe_last_error l) (oe_last_error n) (oe_last_error c))
    (wr (oe_created_at l) (oe_created_at n) (oe_created_at c))
|}.
Next Obligation. intros [] []; simpl. by rewrite !wr_same. Qed.
Next Obligation. intros [] []; simpl. by rewrite !wr_nothing. Qed.

(** ** Enqueueing *)

Definition has_key (k : string) (kv : string * OutboxEvent) : Prop := oe_idempotency_key kv.2 = k.

#[export] Instance has_key_dec k kv : Decision (has_key k kv).
Proof. unfold has_key. apply _. Defined.

(** [SELECT ... WHERE idempotency_key = k] *)
Definition event_of_key (k : string) (db : outbox) : option (string * OutboxEvent) :=
  head (filter (has_key k) (map_to_list db)).

Section outbox.
Context `{Settings}.

(** [INSERT ... ON CONFLICT (idempotency_key) DO NOTHING], then the row of the key. *)
Definition enqueue_outbox_event (agg_type agg_id etype : string) (payload : list (text * json)) (key : string)
    (avail : option Z) (new_id : string) (now : Z) : op outbox string :=
  existing ← gets (event_of_key key);
  match existing with
  | Some (id, _) => mret id
  | None =>
      taken ← gets (fun db : outbox => bool_decide (is_Some (db !! new_id)));
      if taken : bool then raise (OtherError "IntegrityError")
      else
        _ ← modify (<[new_id := MkOutboxEvent agg_type agg_id etype payload EvPending 0 None None key
              (default now avail) None None now]>);
        mret new_id
  end.

(** ** Claiming *)

Definition due (current : Z) (e : OutboxEvent) : bool :=
  (available_at e <=? current) &&
  match oe_status e with
  | EvPending | EvRetry => true
  | EvLeased => match oe_lease_until e with Some u => u <=? current | None => false end
  | EvProcessed | EvDead => false
  end.

(** ORDER BY available_at, created_at, id *)
Definition claim_le (a b : string * OutboxEvent) : Prop :=
  available_at a.2 < available_at b.2 \/
  (available_at a.2 = available_at b.2 /\
   (oe_created_at a.2 < oe_created_at b.2 \/
    (oe_created_at a.2 = oe_created_at b.2 /\ text_leb (of_string a.1) (of_string b.1) = true))).

#[export] Instance claim_le_dec : RelDecision claim_le.
Proof. intros a b. unfold claim_le. apply _. Defined.

Definition due_rows (locked : gset string) (current : Z) (limit : nat) (db : outbox) : list (string * OutboxEvent) :=
  take limit (merge_sort claim_le
    (filter (fun kv => due current kv.2 = true /\ kv.1 ∉ locked) (map_to_list db))).

Definition leased (worker_id : string) (until : Z) (e : OutboxEvent) : OutboxEvent :=
  MkOutboxEvent (aggregate_type e) (aggregate_id e) (oe_event_type e) (oe_payload e) EvLeased (oe_attempt_count e)
    (Some worker_id) (Some until) (oe_idempotency_key e) (available_at e) (processed_at e) (oe_last_error e)
    (oe_created_at e).

Definition claim_outbox_events (worker_id : string) (current : Z) (batch_size : option nat) (locked : gset string)
    : op outbox (list string) :=
  let limit := match batch_size with Some (S n) => S n | _ => outbox_batch_size end in
  claimed ← gets (due_rows locked current limit);
  let lease_until := current + seconds outbox_lease_seconds in
  for_each (fun kv => _ ← save kv.1 kv.2 (leased worker_id lease_until kv.2); mret kv.1) claimed.

(** ** Outcomes *)

Definition owns (worker_id : string) (event : OutboxEvent) : bool :=
  bool_decide (oe_status event = EvLeased) && bool_decide (oe_lease_owner event = Some worker_id).

Definition mark_outbox_processed (id : string) (event : OutboxEvent) (worker_id : string) (now : Z)
    : op outbox bool :=
  if negb (owns worker_id event) then mret false
  else
    _ ← save id event (MkOutboxEvent (aggregate_type event) (aggregate_id event) (oe_event_type event)
          (oe_payload event) EvProcessed (oe_attempt_count event) None None (oe_idempotency_key event)
          (available_at event) (Some now) None (oe_created_at event));
    mret true.

Definition mark_outbox_failed (id : string) (event : OutboxEvent) (worker_id : string) (error : text) (now : Z)
    : op outbox event_status :=
  if negb (owns worker_id event) then mret (oe_status event)
  else
    let attempt_count := oe_attempt_count event + 1 in
    let status := if knowledge_job_max_attempts <=? attempt_count then EvDead else EvRetry in
    let avail :=
      if knowledge_job_max_attempts <=? attempt_count then available_at event
      else now + seconds (Z.min (knowledge_retry_base_seconds * 2 ^ (attempt_count - 1)) 3600) in
    _ ← save id event (MkOutboxEvent (aggregate_type event) (aggregate_id event) (oe_event_type event)
          (oe_payload event) status attempt_count None None (oe_idempotency_key event) avail (processed_at event)
          (Some (take 8000 error)) (oe_created_at event));
    mret status.

(** ** The relay *)

Record RelayStats := MkRelayStats { claimed : nat; published : nat; retried : nat; dead : nat }.

(** [publish] is [publish_outbox_message]: it answers, or raises with a message.
    [clock] is the time at which the events of the batch are handled. *)
Context (publish : string -> OutboxEvent -> option text).

(** One event of the batch: publish it, persist the outcome, count it. *)
Definition relay_event (worker_id : string) (clock : Z) (id : string) (stats : RelayStats) : op outbox RelayStats :=
  row ← gets (fun db : outbox => db !! id);
  match row with
  | None => mret stats
  | Some event =>
      if negb (owns worker_id event) then mret stats
      else match publish id event with
      | Some exc =>
          status ← mark_outbox_failed id event worker_id exc clock;
          mret (MkRelayStats (claimed stats) (published stats)
            (retried stats + if decide (status = EvRetry) then 1 else 0)
            (dead stats + if decide (status = EvDead) then 1 else 0))
      | None =>
          ok ← mark_outbox_processed id event worker_id clock;
          mret (MkRelayStats (claimed stats) (published stats + if ok : bool then 1 else 0) (retried stats) (dead stats))
      end
  end.

Fixpoint relay_events (worker_id : string) (clock : Z) (ids : list string) (stats : RelayStats)
    : op outbox RelayStats :=
  match ids with
  | [] => mret stats
  | id :: ids => stats ← relay_event worker_id clock id stats; relay_events worker_id clock ids stats
  end.

Definition relay_outbox_once (worker_id : string) (now clock : Z) (locked : gset string) : op outbox RelayStats :=
  event_ids ← claim_outbox_events worker_id now None locked;
  relay_events worker_id clock event_ids (MkRelayStats (length event_ids) 0 0 0).
End outbox.
