(* ===== verification/OutboxFacts.v ===== *)
(** * What the outbox promises

    One event per idempotency key; a leased event is handed to nobody else
    before its lease ends; every event of a relayed batch is accounted for; and
    over any interleaving of relays, with rows loaded before others changed
    them, the table stays well formed. *)

From S2P Require Import Prelude Text Json Outbox.

(** ** Saving *)

Section save.
Context {R : Type} `{Row R}.
Implicit Types (t : table R).

Lemma save_current id loaded new t :
  t !! id = Some loaded -> save id loaded new t = (Ok tt, <[id := new]> t).
Proof. intros Hl. unfold save. by rewrite Hl, merge_same. Qed.

Lemma save_all (f : R -> R) l t :
  NoDup l.*1 -> Forall (fun kv => t !! kv.1 = Some kv.2) l ->
  exists t', for_each (fun kv => _ ← save kv.1 kv.2 (f kv.2); mret kv.1) l t = (Ok l.*1, t') /\
    forall id, t' !! id = if decide (id ∈ l.*1) then f <$> t !! id else t !! id.
Proof.
  revert t. induction l as [|[id row] l IH]; intros t Hnd Hl.
  - exists t. split; [done|]. intros id. rewrite decide_False; [done|]. apply not_elem_of_nil.
  - apply Forall_cons in Hl as [Hr Hl]. simpl in Hnd, Hr. apply NoDup_cons in Hnd as [Hni Hnd].
    destruct (IH (<[id := f row]> t) Hnd) as (t' & Hrun & Ht').
    { eapply Forall_impl; [apply Forall_and; split; [exact Hl|apply Forall_forall; intros kv Hkv; exact Hkv]|].
      intros [i r] [Hi Hin]; simpl in *. rewrite lookup_insert_ne; [done|].
      intros ->. apply Hni. by apply (list_elem_of_fmap_2 fst) in Hin. }
    exists t'. split.
    + cbn [for_each]. erewrite op_bind_ok; [|cbn [fst snd]; erewrite op_bind_ok; [reflexivity|by apply save_current]].
      erewrite op_bind_ok; [|exact Hrun]. done.
    + intros i. rewrite Ht'. cbn [fmap list_fmap]. destruct (decide (i = id)) as [->|Hne].
      * rewrite (decide_False (P := id ∈ l.*1)) by done.
        rewrite (decide_True (P := id ∈ _)) by (apply list_elem_of_here). by rewrite lookup_insert_eq, Hr.
      * rewrite lookup_insert_ne by done. simpl.
        destruct (decide (i ∈ l.*1)) as [Hi|Hi].
        -- by rewrite decide_True by (by apply list_elem_of_further).
        -- rewrite decide_False; [done|]. intros [->|?]%elem_of_cons; done.
Qed.
End save.

(** ** Idempotency keys *)

Definition unique_keys (db : outbox) : Prop :=
  forall i j e e', db !! i = Some e -> db !! j = Some e' -> oe_idempotency_key e = oe_idempotency_key e' -> i = j.

Lemma event_of_key_Some k db id e :
  event_of_key k db = Some (id, e) -> db !! id = Some e /\ oe_idempotency_key e = k.
Proof.
  unfold event_of_key. intros Hh%head_Some_elem_of. apply list_elem_of_filter in Hh as [Hk Hin].
  apply elem_of_map_to_list in Hin. done.
Qed.

Lemma event_of_key_None k db : event_of_key k db = None <-> forall id e, db !! id = Some e -> oe_idempotency_key e <> k.
Proof.
  unfold event_of_key. split.
  - intros Hh id e Hid Hk. apply head_None in Hh.
    assert (Hin : (id, e) ∈ filter (has_key k) (map_to_list db)).
    { apply list_elem_of_filter. split; [done|]. by apply elem_of_map_to_list. }
    rewrite Hh in Hin. by apply elem_of_nil in Hin.
  - intros Hno. apply head_None. destruct (filter (has_key k) (map_to_list db)) as [|[id e] l] eqn:Hf; [done|exfalso].
    assert (Hin : (id, e) ∈ filter (has_key k) (map_to_list db)) by (rewrite Hf; apply list_elem_of_here).
    apply list_elem_of_filter in Hin as [Hk Hin]. apply elem_of_map_to_list in Hin. exact (Hno id e Hin Hk).
Qed.

Lemma event_of_key_unique k db id e :
  unique_keys db -> db !! id = Some e -> oe_idempotency_key e = k -> event_of_key k db = Some (id, e).
Proof.
  intros Hu Hid Hk. destruct (event_of_key k db) as [[i e']|] eqn:He.
  - apply event_of_key_Some in He as [Hi Hk']. assert (i = id) as -> by (eapply Hu; eauto; congruence). congruence.
  - rewrite event_of_key_None in He. by destruct (He id e Hid).
Qed.

Section enqueue.
Context (agg_type agg_id etype : string) (payload : list (text * json)) (key : string) (avail : option Z).

Definition new_event (now : Z) : OutboxEvent :=
  MkOutboxEvent agg_type agg_id etype payload EvPending 0 None None key (default now avail) None None now.

Lemma enqueue_existing db id e new_id now :
  event_of_key key db = Some (id, e) ->
  enqueue_outbox_event agg_type agg_id etype payload key avail new_id now db = (Ok id, db).
Proof. intros He. unfold enqueue_outbox_event. erewrite op_bind_ok; [|reflexivity]. by rewrite He. Qed.

Lemma enqueue_new (db : outbox) new_id now :
  event_of_key key db = None -> db !! new_id = None ->
  enqueue_outbox_event agg_type agg_id etype payload key avail new_id now db =
    (Ok new_id, <[new_id := new_event now]> db).
Proof.
  intros He Hn. unfold enqueue_outbox_event. erewrite op_bind_ok; [|reflexivity]. rewrite He.
  erewrite op_bind_ok; [|reflexivity]. rewrite bool_decide_false; [done|]. rewrite Hn. by intros [].
Qed.

Lemma enqueue_cases (db : outbox) new_id now :
  let r := enqueue_outbox_event agg_type agg_id etype payload key avail new_id now db in
  r.2 = db \/ (db !! new_id = None /\ event_of_key key db = None /\ r.2 = <[new_id := new_event now]> db).
Proof.
  simpl. destruct (event_of_key key db) as [[id e]|] eqn:He; [left; by rewrite (enqueue_existing db id e)|].
  destruct (db !! new_id) as [e|] eqn:Hn.
  - left. unfold enqueue_outbox_event. erewrite op_bind_ok; [|reflexivity]. rewrite He.
    erewrite op_bind_ok; [|reflexivity]. rewrite bool_decide_true; [done|]. rewrite Hn. by eexists.
  - right. by rewrite enqueue_new.
Qed.
End enqueue.

Lemma unique_keys_insert db id e :
  unique_keys db -> event_of_key (oe_idempotency_key e) db = None -> unique_keys (<[id := e]> db).
Proof.
  intros Hu Hn i j a b Hi Hj Hk. rewrite event_of_key_None in Hn.
  rewrite lookup_insert in Hi, Hj. do 2 case_decide; simplify_eq/=; try done.
  - exfalso. eapply Hn; eauto.
  - exfalso. eapply Hn; eauto.
  - eapply Hu; eauto.
Qed.

(** ** Claiming *)

#[export] Instance claim_le_total : Total claim_le.
Proof.
  intros a b. unfold claim_le. destruct (text_leb_total (of_string a.1) (of_string b.1)); 
    destruct (Ztrichotomy (available_at a.2) (available_at b.2)) as [|[|]];
    destruct (Ztrichotomy (oe_created_at a.2) (oe_created_at b.2)) as [|[|]]; auto with lia.
Qed.

#[export] Instance claim_le_trans : Transitive claim_le.
Proof.
  intros a b c. unfold claim_le.
  intros [H1|(H1 & [H2|[H2 H3]])] [G1|(G1 & [G2|[G2 G3]])]; try (left; lia); right; (split; [lia|]);
    try (left; lia). right. split; [lia|]. by eapply text_leb_trans.
Qed.

(** A prefix of a sorted list is below the rest of it. *)
Lemma sorted_take_le {A} (R : relation A) `{!Transitive R} n l x y :
  Sorted R l -> x ∈ take n l -> y ∈ drop n l -> R x y.
Proof.
  intros Hs%Sorted_StronglySorted Hx Hy; [|done].
  rewrite <- (take_drop n l) in Hs. by eapply StronglySorted_app_1_elem_of.
Qed.

Section claim.
Context `{Settings}.
Implicit Types (db : outbox).

Definition limit_of (batch_size : option nat) : nat := match batch_size with Some (S n) => S n | _ => outbox_batch_size end.

Lemma due_rows_spec locked current limit db id e :
  (id, e) ∈ due_rows locked current limit db -> db !! id = Some e /\ due current e = true /\ id ∉ locked.
Proof.
  unfold due_rows. intros Hi%elem_of_take. destruct Hi as (i & Hi & _).
  apply list_elem_of_lookup_2 in Hi. rewrite merge_sort_Permutation in Hi.
  apply list_elem_of_filter in Hi as [[Hd Hl] Hin]. apply elem_of_map_to_list in Hin. done.
Qed.

Lemma due_rows_NoDup locked current limit db : NoDup (due_rows locked current limit db).*1.
Proof.
  unfold due_rows. rewrite fmap_take. eapply sublist_NoDup; [|apply sublist_take].
  rewrite merge_sort_Permutation. eapply sublist_NoDup; [apply (NoDup_fst_map_to_list db)|].
  apply fmap_sublist, sublist_filter.
Qed.

Lemma due_rows_oldest locked current limit db id e :
  db !! id = Some e -> due current e = true -> id ∉ locked -> (id, e) ∉ due_rows locked current limit db ->
  length (due_rows locked current limit db) = limit /\
  forall kv, kv ∈ due_rows locked current limit db -> claim_le kv (id, e).
Proof.
  intros Hid Hd Hl. unfold due_rows. set (l := merge_sort _ _). intros Hni.
  assert (Hin : (id, e) ∈ l).
  { unfold l. rewrite merge_sort_Permutation. apply list_elem_of_filter. split; [done|]. by apply elem_of_map_to_list. }
  assert (Hdrop : (id, e) ∈ drop limit l).
  { rewrite <- (take_drop limit l) in Hin. apply elem_of_app in Hin as [|]; done. }
  split.
  - rewrite length_take. apply (Nat.min_l). destruct (decide (limit <= length l)%nat) as [|Hgt]; [done|exfalso].
    rewrite drop_ge in Hdrop by lia. by apply elem_of_nil in Hdrop.
  - intros kv Hkv. eapply (sorted_take_le claim_le); [apply Sorted_merge_sort, _|exact Hkv|exact Hdrop].
Qed.

Lemma claim_run worker_id current batch_size locked db :
  let ids := (due_rows locked current (limit_of batch_size) db).*1 in
  exists db', claim_outbox_events worker_id current batch_size locked db = (Ok ids, db') /\
    forall id, db' !! id = if decide (id ∈ ids) then leased worker_id (current + seconds outbox_lease_seconds) <$> db !! id
                           else db !! id.
Proof.
  intros ids.
  destruct (save_all (leased worker_id (current + seconds outbox_lease_seconds))
    (due_rows locked current (limit_of batch_size) db) db) as (db' & Hrun & Hdb').
  - apply due_rows_NoDup.
  - apply Forall_forall. intros [id e] Hin. by apply due_rows_spec in Hin as [? _].
  - exists db'. split; [|exact Hdb']. unfold claim_outbox_events. erewrite op_bind_ok; [|reflexivity]. exact Hrun.
Qed.

(** A claim hands out at most a batch of distinct rows that are due and not
    locked by another transaction, oldest first (a due row that was left out is
    no older than any claimed one, and is left out only when the batch is
    full), leases exactly those to the worker, and leaves every other row as it
    was. *)
Theorem claim_outbox_correct worker_id current batch_size locked db :
  exists ids db', claim_outbox_events worker_id current batch_size locked db = (Ok ids, db') /\
    NoDup ids /\ (length ids <= limit_of batch_size)%nat /\
    (forall id, id ∈ ids -> exists e, db !! id = Some e /\ due current e = true /\ id ∉ locked /\
       db' !! id = Some (leased worker_id (current + seconds outbox_lease_seconds) e)) /\
    (forall id, id ∉ ids -> db' !! id = db !! id) /\
    (forall id e, db !! id = Some e -> due current e = true -> id ∉ locked -> id ∉ ids ->
       length ids = limit_of batch_size /\
       forall id' e', id' ∈ ids -> db !! id' = Some e' -> claim_le (id', e') (id, e)).
Proof.
  destruct (claim_run worker_id current batch_size locked db) as (db' & Hrun & Hdb').
  eexists _, db'. split; [exact Hrun|]. split; [apply due_rows_NoDup|]. split; [|split; [|split]].
  - rewrite length_fmap. unfold due_rows. rewrite length_take. lia.
  - intros id Hid. rewrite Hdb', decide_True by done.
    apply list_elem_of_fmap_1 in Hid as ([id' e] & -> & Hin). apply due_rows_spec in Hin as (He & Hd & Hl).
    exists e. simpl. by rewrite He.
  - intros id Hid. by rewrite Hdb', decide_False.
  - intros id e He Hd Hl Hni. edestruct due_rows_oldest as [Hlen Hle]; [exact He|exact Hd|exact Hl| |].
    { intros Hin. apply Hni. by apply (list_elem_of_fmap_2 fst) in Hin. }
    rewrite length_fmap. split; [exact Hlen|]. intros id' e' Hid' He'. apply Hle.
    apply list_elem_of_fmap_1 in Hid' as ([i r] & -> & Hin). pose proof Hin as (Hr & _)%due_rows_spec. simpl in *. congruence.
Qed.

Lemma leased_not_due worker_id until current e : current < until -> due current (leased worker_id until e) = false.
Proof. intros Hlt. unfold due, leased; simpl. rewrite (proj2 (Z.leb_gt _ _) Hlt). apply andb_false_r. Qed.

(** Until the lease of a claim runs out, no claim by any worker hands out an
    event of it again, whatever else is enqueued or claimed in between. *)
Theorem lease_excludes_others worker_id current batch_size locked db ids db' other current' batch' locked' db1 ids' db2 :
  claim_outbox_events worker_id current batch_size locked db = (Ok ids, db') ->
  (forall id, id ∈ ids -> db1 !! id = db' !! id) ->
  current' < current + seconds outbox_lease_seconds ->
  claim_outbox_events other current' batch' locked' db1 = (Ok ids', db2) ->
  forall id, id ∈ ids -> id ∉ ids' /\ db2 !! id = db' !! id.
Proof.
  intros Hc Hsame Hlt Hc' id Hid.
  destruct (claim_run worker_id current batch_size locked db) as (x & Hrun & Hx). rewrite Hrun in Hc. injection Hc as <- <-.
  destruct (claim_run other current' batch' locked' db1) as (y & Hrun' & Hy). rewrite Hrun' in Hc'. injection Hc' as <- <-.
  assert (Hni : id ∉ (due_rows locked' current' (limit_of batch') db1).*1).
  { intros Hin. apply list_elem_of_fmap_1 in Hin as ([i e] & -> & Hin). apply due_rows_spec in Hin as (He & Hd & _).
    simpl in *. rewrite Hsame, Hx, decide_True in He by done. destruct (db !! i) as [e0|]; [|done].
    injection He as <-. by rewrite leased_not_due in Hd. }
  split; [exact Hni|]. rewrite Hy, decide_False by done. by apply Hsame.
Qed.
End claim.

(** ** Relaying *)

(** What a published or a failed event becomes. *)
Definition processed_of (now : Z) (e : OutboxEvent) : OutboxEvent :=
  MkOutboxEvent (aggregate_type e) (aggregate_id e) (oe_event_type e) (oe_payload e) EvProcessed (oe_attempt_count e)
    None None (oe_idempotency_key e) (available_at e) (Some now) None (oe_created_at e).

Section relay.
Context `{Settings}.
Implicit Types (db : outbox).

Definition failed_of (now : Z) (error : text) (e : OutboxEvent) : OutboxEvent :=
  let n := oe_attempt_count e + 1 in
  let dead := knowledge_job_max_attempts <=? n in
  MkOutboxEvent (aggregate_type e) (aggregate_id e) (oe_event_type e) (oe_payload e)
    (if dead then EvDead else EvRetry) n None None (oe_idempotency_key e)
    (if dead then available_at e else now + seconds (Z.min (knowledge_retry_base_seconds * 2 ^ (n - 1)) 3600))
    (processed_at e) (Some (take 8000 error)) (oe_created_at e).

Definition outcome_of (publish : string -> OutboxEvent -> option text) (clock : Z) (id : string) (e : OutboxEvent)
    : OutboxEvent :=
  match publish id e with None => processed_of clock e | Some exc => failed_of clock exc e end.

Definition count_outcome (stats : RelayStats) (e : OutboxEvent) : RelayStats :=
  match oe_status e with
  | EvProcessed => MkRelayStats (claimed stats) (S (published stats)) (retried stats) (dead stats)
  | EvRetry => MkRelayStats (claimed stats) (published stats) (S (retried stats)) (dead stats)
  | EvDead => MkRelayStats (claimed stats) (published stats) (retried stats) (S (dead stats))
  | _ => stats
  end.

Lemma mark_failed_run id e worker_id error now db :
  db !! id = Some e -> owns worker_id e = true ->
  mark_outbox_failed id e worker_id error now db = (Ok (oe_status (failed_of now error e)), <[id := failed_of now error e]> db).
Proof.
  intros He Ho. unfold mark_outbox_failed. rewrite Ho. cbn [negb].
  erewrite op_bind_ok; [|by apply save_current]. done.
Qed.

Lemma mark_processed_run id e worker_id now db :
  db !! id = Some e -> owns worker_id e = true ->
  mark_outbox_processed id e worker_id now db = (Ok true, <[id := processed_of now e]> db).
Proof.
  intros He Ho. unfold mark_outbox_processed. rewrite Ho. cbn [negb].
  erewrite op_bind_ok; [|by apply save_current]. done.
Qed.

Lemma failed_status now error e :
  oe_status (failed_of now error e) = if knowledge_job_max_attempts <=? oe_attempt_count e + 1 then EvDead else EvRetry.
Proof. done. Qed.

Lemma relay_event_run publish worker_id clock id e stats db :
  db !! id = Some e -> owns worker_id e = true ->
  relay_event publish worker_id clock id stats db =
    (Ok (count_outcome stats (outcome_of publish clock id e)), <[id := outcome_of publish clock id e]> db).
Proof.
  intros He Ho. unfold relay_event. erewrite op_bind_ok; [|reflexivity]. rewrite He, Ho. cbn [negb].
  unfold outcome_of. destruct (publish id e) as [exc|] eqn:Hp.
  - erewrite op_bind_ok; [|by apply mark_failed_run]. unfold count_outcome. rewrite failed_status.
    destruct (knowledge_job_max_attempts <=? oe_attempt_count e + 1); unfold mret, op_ret; cbn;
      by rewrite ?Nat.add_0_r, ?Nat.add_1_r.
  - erewrite op_bind_ok; [|by apply mark_processed_run]. unfold count_outcome; simpl. unfold mret, op_ret. by rewrite ?Nat.add_0_r, ?Nat.add_1_r.
Qed.

Definition total (stats : RelayStats) : nat := (published stats + retried stats + dead stats)%nat.

Lemma outcome_counted publish clock id e stats :
  total (count_outcome stats (outcome_of publish clock id e)) = S (total stats) /\
  claimed (count_outcome stats (outcome_of publish clock id e)) = claimed stats.
Proof.
  unfold outcome_of, count_outcome, total. destruct (publish id e);
    [rewrite failed_status; destruct (knowledge_job_max_attempts <=? _)|]; simpl; lia.
Qed.

Lemma relay_events_run publish worker_id clock ids stats db :
  NoDup ids -> (forall id, id ∈ ids -> exists e, db !! id = Some e /\ owns worker_id e = true) ->
  exists stats' db', relay_events publish worker_id clock ids stats db = (Ok stats', db') /\
    claimed stats' = claimed stats /\ total stats' = (total stats + length ids)%nat /\
    forall id, db' !! id = if decide (id ∈ ids) then outcome_of publish clock id <$> db !! id else db !! id.
Proof.
  revert stats db. induction ids as [|id ids IH]; intros stats db Hnd Hown.
  - exists stats, db. split; [done|]. split; [done|]. split; [simpl; lia|]. intros i.
    rewrite decide_False; [done|apply not_elem_of_nil].
  - apply NoDup_cons in Hnd as [Hni Hnd]. destruct (Hown id) as (e & He & Ho); [apply list_elem_of_here|].
    destruct (IH (count_outcome stats (outcome_of publish clock id e)) (<[id := outcome_of publish clock id e]> db) Hnd)
      as (stats' & db' & Hrun & Hc & Ht & Hdb').
    { intros i Hi. rewrite lookup_insert_ne by (intros ->; done). apply Hown. by apply list_elem_of_further. }
    exists stats', db'. destruct (outcome_counted publish clock id e stats) as [H1 H2].
    split; [|split; [congruence|split; [cbn [length]; lia|]]].
    + cbn [relay_events]. erewrite op_bind_ok; [exact Hrun|by apply relay_event_run].
    + intros i. rewrite Hdb'. destruct (decide (i = id)) as [->|Hne].
      * rewrite (decide_False (P := id ∈ ids)) by done. rewrite (decide_True (P := id ∈ _)) by apply list_elem_of_here.
        by rewrite lookup_insert_eq, He.
      * rewrite lookup_insert_ne by done. destruct (decide (i ∈ ids)) as [Hi|Hi].
        -- by rewrite (decide_True (P := i ∈ _ :: _)) by (by apply list_elem_of_further).
        -- rewrite (decide_False (P := i ∈ _ :: _)); [done|]. intros [->|?]%elem_of_cons; done.
Qed.

(** One round of the relay accounts for every event it leased: the counts
    add up to the number claimed, a published event is processed, one whose
    publication raised is scheduled again between one base delay and an hour
    later, or dead exactly when its attempts reach the maximum; nothing else in
    the table changes, and no event stays leased to this relay. *)
Theorem relay_accounts_for_batch publish worker_id now clock locked db :
  0 <= knowledge_retry_base_seconds <= 3600 ->
  (forall id e, db !! id = Some e -> 0 <= oe_attempt_count e) ->
  exists stats db' ids, relay_outbox_once publish worker_id now clock locked db = (Ok stats, db') /\
    claimed stats = length ids /\ (published stats + retried stats + dead stats = claimed stats)%nat /\
    ids = (due_rows locked now outbox_batch_size db).*1 /\
    (forall id, id ∉ ids -> db' !! id = db !! id) /\
    (forall id, id ∈ ids -> exists e e', db !! id = Some e /\ db' !! id = Some e' /\
       let event := leased worker_id (now + seconds outbox_lease_seconds) e in
       match publish id event with
       | None => e' = processed_of clock event
       | Some exc =>
           oe_attempt_count e' = oe_attempt_count e + 1 /\ oe_lease_owner e' = None /\ oe_last_error e' = Some (take 8000 exc) /\
           (oe_status e' = EvDead /\ knowledge_job_max_attempts <= oe_attempt_count e' \/
            oe_status e' = EvRetry /\ oe_attempt_count e' < knowledge_job_max_attempts /\
            clock + seconds knowledge_retry_base_seconds <= available_at e' <= clock + seconds 3600)
       end).
Proof.
  intros Hbase Hatt. destruct (claim_run worker_id now None locked db) as (db1 & Hclaim & Hdb1).
  set (ids := (due_rows locked now (limit_of None) db).*1) in *.
  assert (Hids : forall id, id ∈ ids -> exists e, db !! id = Some e /\
    db1 !! id = Some (leased worker_id (now + seconds outbox_lease_seconds) e)).
  { intros id Hid. pose proof Hid as Hid'. apply list_elem_of_fmap_1 in Hid' as ([i e] & -> & Hin).
    apply due_rows_spec in Hin as (He & _). exists e. split; [done|]. simpl in *. by rewrite Hdb1, decide_True, He. }
  destruct (relay_events_run publish worker_id clock ids (MkRelayStats (length ids) 0 0 0) db1)
    as (stats & db' & Hrun & Hc & Ht & Hdb').
  { apply due_rows_NoDup. }
  { intros id (e & _ & He)%Hids. eexists. split; [exact He|]. unfold owns, leased; simpl. by rewrite !bool_decide_true. }
  exists stats, db', ids. split; [unfold relay_outbox_once; by erewrite op_bind_ok|].
  split; [done|]. split; [unfold total in Ht; simpl in *; lia|]. split; [done|]. split.
  - intros id Hid. by rewrite Hdb', decide_False, Hdb1, decide_False.
  - intros id Hid. destruct (Hids id Hid) as (e & He & He1). exists e. eexists. split; [done|].
    rewrite Hdb', decide_True, He1 by done. split; [reflexivity|]. cbn zeta. unfold outcome_of.
    destruct (publish id _) as [exc|]; [|done]. repeat (split; [done|]).
    specialize (Hatt id e He). cbn [failed_of oe_status oe_attempt_count available_at leased].
    destruct (Z.leb_spec knowledge_job_max_attempts (oe_attempt_count e + 1)); [by left|right].
    split; [done|]. split; [done|]. pose proof (Z.pow_pos_nonneg 2 (oe_attempt_count e + 1 - 1) ltac:(lia) ltac:(lia)) as Hp.
    unfold seconds. generalize dependent (2 ^ (oe_attempt_count e + 1 - 1)). intros p Hp. nia.
Qed.
End relay.

(** ** Every interleaving *)

Section trace.
Context `{Settings}.

(** The table, and the rows some session has loaded and may still act on. *)
Record OutboxRun := MkOutboxRun { ob_db : outbox; ob_loaded : list (string * OutboxEvent) }.

Inductive outbox_step : OutboxRun -> OutboxRun -> Prop :=
  | step_enqueue agg_type agg_id etype payload key avail new_id now db l :
      outbox_step (MkOutboxRun db l)
        (MkOutboxRun (enqueue_outbox_event agg_type agg_id etype payload key avail new_id now db).2 l)
  | step_claim worker_id now batch_size locked db l :
      outbox_step (MkOutboxRun db l) (MkOutboxRun (claim_outbox_events worker_id now batch_size locked db).2 l)
  | step_load id e db l :
      db !! id = Some e -> outbox_step (MkOutboxRun db l) (MkOutboxRun db ((id, e) :: l))
  | step_processed id e worker_id now db l :
      (id, e) ∈ l -> outbox_step (MkOutboxRun db l) (MkOutboxRun (mark_outbox_processed id e worker_id now db).2 l)
  | step_failed id e worker_id error now db l :
      (id, e) ∈ l -> outbox_step (MkOutboxRun db l) (MkOutboxRun (mark_outbox_failed id e worker_id error now db).2 l).

Definition event_ok (e : OutboxEvent) : Prop :=
  0 <= oe_attempt_count e /\
  match oe_status e with
  | EvPending | EvRetry =>
      oe_lease_owner e = None /\ oe_lease_until e = None /\ oe_attempt_count e < knowledge_job_max_attempts
  | EvLeased =>
      is_Some (oe_lease_owner e) /\ is_Some (oe_lease_until e) /\ oe_attempt_count e < knowledge_job_max_attempts
  | EvProcessed => oe_lease_owner e = None /\ oe_lease_until e = None
  | EvDead => oe_lease_owner e = None /\ oe_lease_until e = None /\ knowledge_job_max_attempts <= oe_attempt_count e
  end.

(** What an event announces. *)
Definition announces (e : OutboxEvent) : string * string * string * list (text * json) * string * Z :=
  (aggregate_type e, aggregate_id e, oe_event_type e, oe_payload e, oe_idempotency_key e, oe_created_at e).

Definition run_ok (s : OutboxRun) : Prop :=
  unique_keys (ob_db s) /\ map_Forall (fun _ => event_ok) (ob_db s) /\ Forall (fun kv => event_ok kv.2) (ob_loaded s).

Definition kept (db db' : outbox) : Prop :=
  forall id e, db !! id = Some e -> exists e', db' !! id = Some e' /\ announces e' = announces e.

Lemma announces_key e e' : announces e = announces e' -> oe_idempotency_key e = oe_idempotency_key e'.
Proof. unfold announces. by intros [= _ _ _ _ -> _]. Qed.

Lemma wr_new {A} `{EqDecision A} (l n c : A) : n <> l -> wr l n c = n.
Proof. intros Hn. unfold wr. by rewrite decide_False. Qed.

Lemma owns_true worker_id e : owns worker_id e = true -> oe_status e = EvLeased /\ oe_lease_owner e = Some worker_id.
Proof. unfold owns. rewrite andb_true_iff, !bool_decide_eq_true. done. Qed.

Lemma merge_announces l n c : announces n = announces l -> announces (merge l n c) = announces c.
Proof. destruct l, n; unfold announces; simpl. intros [= -> -> -> -> -> ->]. by rewrite !wr_nothing. Qed.

(** A leased row saved with its lease gone and another status, on whatever the row is by now. *)
Lemma merge_unlease l n c :
  event_ok l -> oe_status l = EvLeased -> oe_lease_owner n = None -> oe_lease_until n = None -> oe_status n <> EvLeased ->
  let m := merge l n c in
  oe_status m = oe_status n /\ oe_lease_owner m = None /\ oe_lease_until m = None.
Proof.
  unfold event_ok. intros [_ Hl] Hs. rewrite Hs in Hl. destruct Hl as ([w Hw] & [u Hu] & _). intros Ho Hun Hn. simpl.
  rewrite Hw, Hu, Ho, Hun, Hs. by rewrite !wr_new.
Qed.

Lemma event_ok_processed l c worker_id now :
  event_ok l -> event_ok c -> owns worker_id l = true -> event_ok (merge l (processed_of now l) c).
Proof.
  intros Hl Hc [Hs Ho]%owns_true.
  destruct (merge_unlease l (processed_of now l) c) as (H1 & H2 & H3); try done.
  set (m := merge l (processed_of now l) c) in *.
  assert (Ha : oe_attempt_count m = oe_attempt_count c) by (unfold m; simpl; apply wr_nothing).
  unfold event_ok. rewrite H1, Ha. split; [apply Hc|done].
Qed.

Lemma event_ok_failed l c worker_id error now :
  event_ok l -> event_ok c -> owns worker_id l = true -> event_ok (merge l (failed_of now error l) c).
Proof.
  intros Hl Hc [Hs Ho]%owns_true. assert (0 <= oe_attempt_count l) by apply Hl.
  destruct (merge_unlease l (failed_of now error l) c) as (H1 & H2 & H3); try done.
  { rewrite failed_status. by case_match. }
  set (m := merge l (failed_of now error l) c) in *.
  assert (Ha : oe_attempt_count m = oe_attempt_count l + 1) by (unfold m; simpl; apply wr_new; lia).
  unfold event_ok. rewrite H1, H2, H3, Ha, failed_status. split; [lia|].
  destruct (Z.leb_spec knowledge_job_max_attempts (oe_attempt_count l + 1)); done.
Qed.

(** Saving [new] over a loaded row, or finding the row gone. *)
Lemma save_cases id (loaded new : OutboxEvent) (db : outbox) :
  (save id loaded new db).2 = db \/
  exists c, db !! id = Some c /\ (save id loaded new db).2 = <[id := merge loaded new c]> db.
Proof. unfold save. destruct (db !! id) as [c|]; [right; eauto|by left]. Qed.

Lemma save_ok id loaded new (db : outbox) :
  unique_keys db -> map_Forall (fun _ => event_ok) db -> announces new = announces loaded ->
  (forall c, event_ok c -> event_ok (merge loaded new c)) ->
  let db' := (save id loaded new db).2 in
  unique_keys db' /\ map_Forall (fun _ => event_ok) db' /\ kept db db'.
Proof.
  intros Hu Hok Ha Hm. simpl. destruct (save_cases id loaded new db) as [->|(c & Hc & ->)].
  { split; [done|]. split; [done|]. intros i e He. eauto. }
  pose proof (merge_announces _ _ c Ha) as Hann.
  assert (Hkept : kept db (<[id := merge loaded new c]> db)).
  { intros i e He. destruct (decide (i = id)) as [->|Hne].
    - rewrite lookup_insert_eq. eexists. split; [done|]. congruence.
    - rewrite lookup_insert_ne by done. eauto. }
  split; [|split; [|done]].
  - assert (Hkey : forall i e, <[id := merge loaded new c]> db !! i = Some e ->
      exists e0, db !! i = Some e0 /\ oe_idempotency_key e0 = oe_idempotency_key e).
    { intros i e He. destruct (decide (i = id)) as [->|Hne].
      - rewrite lookup_insert_eq in He. injection He as <-. exists c. split; [done|].
        symmetry. by apply announces_key.
      - rewrite lookup_insert_ne in He by done. eauto. }
    intros i j e e' (a & Ha1 & Ha2)%Hkey (b & Hb1 & Hb2)%Hkey Hk. eapply Hu; [exact Ha1|exact Hb1|congruence].
  - apply map_Forall_insert_2; [|done]. by apply Hm, (Hok id).
Qed.

Lemma event_kept_refl db : kept db db.
Proof. intros id e He. eauto. Qed.

Lemma step_run_ok s s' :
  0 < knowledge_job_max_attempts -> run_ok s -> outbox_step s s' -> run_ok s' /\ kept (ob_db s) (ob_db s').
Proof.
  intros Hmax (Hu & Hok & Hl) Hstep. unfold run_ok.
  destruct Hstep as [at_ ai et pl key av nid now db l|w now b lk db l|id e db l He|id e w now db l Hin|id e w err now db l Hin];
    cbn [ob_db ob_loaded] in *.
  - destruct (enqueue_cases at_ ai et pl key av db nid now) as [->|(Hn & Hk & ->)].
    { exact (conj (conj Hu (conj Hok Hl)) (event_kept_refl db)). }
    split; [split; [by apply unique_keys_insert|split; [|done]]|].
    + apply map_Forall_insert_2; [|done]. split; [done|]. split; [done|]. split; [done|]. done.
    + intros i e He. rewrite lookup_insert_ne by congruence. eauto.
  - destruct (claim_run w now b lk db) as (db' & -> & Hdb'). cbn [snd].
    set (ids := (due_rows _ _ _ _).*1) in *.
    assert (Hrow : forall i e', db' !! i = Some e' -> exists e, db !! i = Some e /\ announces e' = announces e /\ event_ok e').
    { intros i e' He'. rewrite Hdb' in He'. case_decide as Hi; [|eauto].
      destruct (db !! i) as [e|] eqn:He; [|done]. injection He' as <-. exists e. split; [done|]. split; [done|].
      apply list_elem_of_fmap_1 in Hi as ([i' e0] & -> & Hin). apply due_rows_spec in Hin as (He0 & Hd & _). simpl in *.
      assert (e0 = e) as -> by congruence. pose proof (Hok _ _ He) as [Hn Hs]. split; [done|]. simpl.
      split; [by eexists|]. split; [by eexists|]. unfold due in Hd. apply andb_true_iff in Hd as [_ Hd].
      destruct (oe_status e); try done; by destruct Hs as (_ & _ & ?). }
    split; [split; [|split; [|done]]|].
    + intros i j a c (a' & Ha & Haa & _)%Hrow (c' & Hc & Hcc & _)%Hrow Hk.
      apply announces_key in Haa, Hcc.
      eapply Hu; [exact Ha|exact Hc|congruence].
    + intros i e (_ & _ & _ & ?)%Hrow. done.
    + intros i e He. rewrite Hdb', He. case_decide; eauto.
  - split; [split; [done|split; [done|]]|apply event_kept_refl]. constructor; [by apply (Hok id)|done].
  - rewrite Forall_forall in Hl. pose proof (Hl _ Hin) as Hle. simpl in Hle. rewrite <- Forall_forall in Hl.
    unfold mark_outbox_processed. destruct (owns w e) eqn:Ho; cbn [negb]; [|exact (conj (conj Hu (conj Hok Hl)) (event_kept_refl db))].
    destruct (save_ok id e (processed_of now e) db) as (H1 & H2 & H3); try done.
    { intros c Hc. by eapply event_ok_processed. }
    change (MkOutboxEvent _ _ _ _ EvProcessed _ _ _ _ _ _ _ _) with (processed_of now e).
    unfold mbind, op_bind. destruct (save id e (processed_of now e) db) as [[]]; done.
  - rewrite Forall_forall in Hl. pose proof (Hl _ Hin) as Hle. simpl in Hle. rewrite <- Forall_forall in Hl.
    unfold mark_outbox_failed. destruct (owns w e) eqn:Ho; cbn [negb]; [|exact (conj (conj Hu (conj Hok Hl)) (event_kept_refl db))].
    destruct (save_ok id e (failed_of now err e) db) as (H1 & H2 & H3); try done.
    { intros c Hc. by eapply event_ok_failed. }
    cbn zeta. match goal with |- context [save id e ?n] => change n with (failed_of now err e) end.
    unfold mbind, op_bind. destruct (save id e (failed_of now err e) db) as [[]]; done.
Qed.

Lemma steps_run_ok s s' :
  0 < knowledge_job_max_attempts -> rtc outbox_step s s' -> run_ok s -> run_ok s' /\ kept (ob_db s) (ob_db s').
Proof.
  intros Hmax. induction 1 as [s|s s1 s' Hstep _ IH]; intros Hs; [split; [done|apply event_kept_refl]|].
  destruct (step_run_ok _ _ Hmax Hs Hstep) as [Hs1 Hk1]. destruct (IH Hs1) as [Hs' Hk]. split; [done|].
  intros id e He. destruct (Hk1 id e He) as (e1 & He1 & Ha1). destruct (Hk id e1 He1) as (e2 & He2 & Ha2).
  exists e2. split; [done|congruence].
Qed.

(** C8: Over every interleaving of enqueues, claims and outcomes from an empty
    table, where a session may act on a row it loaded before others changed it:
    no two events share an idempotency key, an event is leased exactly when it
    has an owner and a deadline, it is dead only after the maximum number of
    attempts and open only below it, and no event is ever lost or announces
    anything else later. *)
Theorem outbox_trace_safe s s' :
  0 < knowledge_job_max_attempts ->
  rtc outbox_step (MkOutboxRun ∅ []) s -> rtc outbox_step s s' ->
  (forall i j e e', ob_db s !! i = Some e -> ob_db s !! j = Some e' -> oe_idempotency_key e = oe_idempotency_key e' -> i = j) /\
  (forall i e, ob_db s !! i = Some e ->
     (oe_status e = EvLeased <-> is_Some (oe_lease_owner e)) /\ (is_Some (oe_lease_owner e) <-> is_Some (oe_lease_until e)) /\
     (oe_status e = EvDead -> knowledge_job_max_attempts <= oe_attempt_count e) /\
     (oe_status e ∈ [EvPending; EvRetry; EvLeased] -> 0 <= oe_attempt_count e < knowledge_job_max_attempts)) /\
  (forall i e, ob_db s !! i = Some e -> exists e', ob_db s' !! i = Some e' /\ announces e' = announces e).
Proof.
  intros Hmax H0 H1. assert (run_ok (MkOutboxRun ∅ [])) as Hinit.
  { split; [intros i j e e' Hi; simpl in Hi; by rewrite lookup_empty in Hi|]. split; [apply map_Forall_empty|constructor]. }
  destruct (steps_run_ok _ _ Hmax H0 Hinit) as [Hs _]. destruct (steps_run_ok _ _ Hmax H1 Hs) as [_ Hk].
  destruct Hs as (Hu & Hok & _). split; [exact Hu|]. split; [|exact Hk].
  intros i e He. destruct (Hok i e He) as [Hn Hst].
  assert (Hno : forall x : option string, x = None -> ~ is_Some x) by (intros ? -> []; done).
  assert (Hno' : forall x : option Z, x = None -> ~ is_Some x) by (intros ? -> []; done).
  destruct (oe_status e); destruct_and?; (split; [|split; [|split]]);
    try (split; intros; (done || (exfalso; naive_solver)));
    intros Hm; try done; try lia; exfalso; rewrite !elem_of_cons, elem_of_nil in Hm; naive_solver.
Qed.
End trace.

(** Enqueueing is idempotent in the key: the first call adds one pending
    event, available when asked and due from then on, and every later call with
    the same key, whatever it announces and whenever it comes, answers that
    same event and changes nothing. *)
Theorem enqueue_once agg_type agg_id etype payload key avail new_id now (db : outbox) :
  unique_keys db -> db !! new_id = None ->
  exists id db', enqueue_outbox_event agg_type agg_id etype payload key avail new_id now db = (Ok id, db') /\
    unique_keys db' /\ db ⊆ db' /\ (forall j, j <> id -> db' !! j = db !! j) /\
    (exists e, db' !! id = Some e /\ oe_idempotency_key e = key) /\
    ((forall i e, db !! i = Some e -> oe_idempotency_key e <> key) ->
       id = new_id /\ db' !! id = Some (new_event agg_type agg_id etype payload key avail now) /\
       forall t, due t (new_event agg_type agg_id etype payload key avail now) = (default now avail <=? t)) /\
    (forall at' ai' et' pl' av' nid' now',
       enqueue_outbox_event at' ai' et' pl' key av' nid' now' db' = (Ok id, db')).
Proof.
  intros Hu Hn. destruct (event_of_key key db) as [[id e]|] eqn:He.
  - pose proof He as [Hid Hk]%event_of_key_Some. exists id, db.
    split; [by eapply enqueue_existing|]. split; [done|]. split; [done|]. split; [done|]. split; [eauto|].
    split; [intros Hno; by destruct (Hno id e Hid)|]. intros. by eapply enqueue_existing.
  - set (e := new_event agg_type agg_id etype payload key avail now).
    assert (Hu' : unique_keys (<[new_id := e]> db)) by (by apply unique_keys_insert).
    exists new_id, (<[new_id := e]> db). split; [by apply enqueue_new|]. split; [done|].
    split; [by apply insert_subseteq|]. split; [intros j Hj; by rewrite lookup_insert_ne|].
    split; [exists e; by rewrite lookup_insert_eq|]. split.
    + intros _. split; [done|]. split; [by rewrite lookup_insert_eq|]. intros t. unfold due, e; simpl. by rewrite andb_true_r.
    + intros. eapply enqueue_existing, event_of_key_unique; [done|apply lookup_insert_eq|done].
Qed.

(** ** Instances *)

Definition sample_event (key : string) (status : event_status) : OutboxEvent :=
  MkOutboxEvent "knowledge_job" "job-1" "knowledge.job.ready" [] status 0 None None key 1000 None None 900.

Definition sample_outbox : outbox :=
  <["a" := sample_event "k1" EvPending]> (<["b" := sample_event "k2" EvRetry]> ∅).

Lemma enqueue_once_witness :
  exists id db', enqueue_outbox_event "knowledge_job" "job-1" "knowledge.job.ready" [] "k3" None "c" 2000 sample_outbox = (Ok id, db') /\
    id = "c"%string /\ size db' = 3%nat.
Proof.
  assert (Hu : unique_keys sample_outbox).
  { intros i j e e'. unfold sample_outbox. rewrite !lookup_insert. repeat case_decide; simplify_eq/=; try done.
    all: rewrite ?lookup_empty; intros; simplify_eq/=; done. }
  destruct (enqueue_once "knowledge_job" "job-1" "knowledge.job.ready" [] "k3" None "c" 2000 sample_outbox Hu eq_refl)
    as (id & db' & Hrun & _). exists id, db'. split; [exact Hrun|].
  vm_compute in Hrun. injection Hrun as <- <-. split; vm_compute; reflexivity.
Defined.

Lemma lease_excludes_others_witness :
  let claim := @claim_outbox_events default_settings in
  exists ids db' ids' db2, claim "relay-1" 5000 None ∅ sample_outbox = (Ok ids, db') /\
    claim "relay-2" 6000 None ∅ db' = (Ok ids', db2) /\ ids = ["a"; "b"]%string /\
    forall id, id ∈ ids -> id ∉ ids' /\ db2 !! id = db' !! id.
Proof.
  pose (r := claim_outbox_events (H := default_settings) "relay-1" 5000 None ∅ sample_outbox).
  pose (r' := claim_outbox_events (H := default_settings) "relay-2" 6000 None ∅ r.2).
  exists ["a"; "b"]%string, r.2, [], r'.2. split; [vm_compute; reflexivity|]. split; [vm_compute; reflexivity|].
  split; [done|].
  apply (lease_excludes_others (H := default_settings) "relay-1" 5000 None ∅ sample_outbox ["a"; "b"]%string r.2
    "relay-2" 6000 None ∅ r.2 [] r'.2); [vm_compute; reflexivity|done|vm_compute; reflexivity|vm_compute; reflexivity].
Defined.

Definition sample_publish (id : string) (e : OutboxEvent) : option text :=
  if decide (id = "b"%string) then Some (of_string "connection refused") else None.

Lemma relay_accounts_for_batch_witness :
  exists stats db', relay_outbox_once (H := default_settings) sample_publish "relay-1" 5000 6000 ∅ sample_outbox = (Ok stats, db') /\
    claimed stats = 2%nat /\ published stats = 1%nat /\ retried stats = 1%nat.
Proof.
  destruct (relay_accounts_for_batch (H := default_settings) sample_publish "relay-1" 5000 6000 ∅ sample_outbox)
    as (stats & db' & ids & Hrun & _).
  - simpl; lia.
  - intros id e. unfold sample_outbox. rewrite !lookup_insert. repeat case_decide; intros; simplify_eq/=; done.
  - exists stats, db'. split; [exact Hrun|]. vm_compute in Hrun. by injection Hrun as <- <-.
Defined.

Lemma outbox_trace_safe_witness :
  let s := MkOutboxRun {["c" := new_event "t" "i" "e" [] "k" None 5]} [] in
  rtc (outbox_step (H := default_settings)) (MkOutboxRun ∅ []) s /\
  forall i e, ob_db s !! i = Some e -> oe_status e <> EvDead.
Proof.
  intros s. assert (H0 : rtc (outbox_step (H := default_settings)) (MkOutboxRun ∅ []) s).
  { eapply rtc_once. change s with (MkOutboxRun (enqueue_outbox_event "t" "i" "e" [] "k" None "c" 5 ∅).2 []). constructor. }
  split; [exact H0|]. intros i e He Hd.
  destruct (outbox_trace_safe (H := default_settings) s s ltac:(simpl; lia) H0 (rtc_refl _ _)) as (_ & Hok & _).
  destruct (Hok i e He) as (_ & _ & Hdead & _). specialize (Hdead Hd). simpl in He.
  apply lookup_singleton_Some in He as [_ <-]. simpl in Hdead. lia.
Defined.
