(* ===== verification/Queue.v ===== *)
(** * The Redis stream between the relay and the workers

    [knowledge_queue.py]: what the relay writes for an outbox event, what a
    worker makes of an entry it reads, and the dead letters.  An entry is a
    Redis hash, a list of field names and values (the client decodes both as
    strings).  The theorem of the file is the round trip from an outbox event
    to the worker's message. *)

From S2P Require Import Prelude Text Json JsonParse Outbox.

(** ** Messages *)

Record QueueMessage := MkQueueMessage {
  stream_id : string;
  event_id : text;
  msg_event_type : text;
  msg_aggregate_type : text;
  msg_aggregate_id : text;
  payload : list (text * json)
}.

Abbreviation fields := (list (text * text)) (only parsing).

(** [str(payload.get(name) or aggregate_id or "")] *)
Definition message_key `{PyRepr} (name : string) (m : QueueMessage) : text :=
  match str_field name (payload m) with [] => msg_aggregate_id m | key => key end.

(** The entry [publish_outbox_message] adds for an event. *)
Definition publish_outbox_message (id : string) (e : OutboxEvent) : fields :=
  [(of_string "event_id", of_string id);
   (of_string "event_type", of_string (oe_event_type e));
   (of_string "aggregate_type", of_string (aggregate_type e));
   (of_string "aggregate_id", of_string (aggregate_id e));
   (of_string "payload_json", dumps (JObj (oe_payload e)))].

(** [str(fields.get(name) or "")] *)
Definition text_field (name : string) (fs : fields) : text := default [] (field (of_string name) fs).

Definition _decode_message `{PyFloat} (sid : string) (fs : fields) : QueueMessage :=
  let raw_payload := match text_field "payload_json" fs with [] => of_string "{}" | raw => raw end in
  let payload := match loads raw_payload with
    | None => [(of_string "_invalid_payload", JStr raw_payload)]
    | Some (JObj p) => p
    | Some v => [(of_string "value", v)]
    end in
  MkQueueMessage sid (text_field "event_id" fs) (text_field "event_type" fs) (text_field "aggregate_type" fs)
    (text_field "aggregate_id" fs) payload.

(** [json.dumps(v, ensure_ascii=False)]: keys as they come, [", "] and [": "]. *)
Fixpoint dumps_spaced (v : json) : text :=
  let fix sep (ts : list text) : text :=
    match ts with [] => [] | [t] => t | t :: ts => t ++ of_string ", " ++ sep ts end in
  match v with
  | JList l => 91 :: sep (map dumps_spaced l) ++ [93]
  | JObj fs => 123 :: sep (map (fun kv => print_str kv.1 ++ of_string ": " ++ dumps_spaced kv.2) fs) ++ [125]
  | _ => print v
  end.

Definition publish_dead_letter (m : QueueMessage) (error : text) : fields :=
  [(of_string "source_stream_id", of_string (stream_id m));
   (of_string "event_id", event_id m);
   (of_string "event_type", msg_event_type m);
   (of_string "aggregate_type", msg_aggregate_type m);
   (of_string "aggregate_id", msg_aggregate_id m);
   (of_string "payload_json", dumps_spaced (JObj (payload m)));
   (of_string "error", take 4000 error)].

(** ** Keys survive the queue *)

Definition ascii_key (s : string) : Prop := Forall (fun c => c < 128) (of_string s).

Lemma key_of_string s : ascii_key s -> key_of (of_string s) = s.
Proof.
  unfold ascii_key. induction s as [|c s IH]; [done|].
  change (of_string (String c s)) with (Z.of_nat (Ascii.nat_of_ascii c) :: of_string s).
  intros [Hc Hs]%Forall_cons. unfold key_of in *.
  change (utf8 (?c :: ?t)) with (utf8_char c ++ utf8 t). unfold utf8_char. rewrite (proj2 (Z.ltb_lt _ _)) by done.
  cbn [app foldr]. rewrite IH by done. by rewrite Nat2Z.id, Ascii.ascii_nat_embedding.
Qed.

Lemma key_of_nil t : code_points t -> key_of t = ""%string -> t = [].
Proof. intros Ht Hk. destruct t as [|c t]; [done|]. exfalso. revert Hk. unfold key_of.
  change (utf8 (c :: t)) with (utf8_char c ++ utf8 t). unfold utf8_char. by repeat case_match. Qed.

Lemma field_perm {A} k (f g : list (text * A)) : NoDup f.*1 -> f ≡ₚ g -> field k f = field k g.
Proof.
  intros Hnd Hp. induction Hp as [|[k0 v] f g Hp IH|[k0 v] [k1 w] f|f g h Hp1 IH1 Hp2 IH2]; [done| | |].
  - simpl in *. apply NoDup_cons in Hnd as [_ Hnd]. by rewrite IH.
  - simpl in *. apply NoDup_cons in Hnd as [Hne _]. apply not_elem_of_cons in Hne as [Hne _].
    repeat case_decide; congruence.
  - rewrite IH1 by done. apply IH2. by rewrite <- Hp1.
Qed.

Lemma field_map {A B} (g : A -> B) k (f : list (text * A)) :
  field k (map (fun kv => (kv.1, g kv.2)) f) = g <$> field k f.
Proof. induction f as [|[k0 v] f IH]; [done|]. simpl. by case_decide. Qed.

(** The keys of a payload keep their (canonical) values. *)
Lemma field_canon k f : NoDup f.*1 -> field k (sort_fields (map (fun kv => (kv.1, canon kv.2)) f)) = canon <$> field k f.
Proof.
  intros Hnd. rewrite <- field_map. apply field_perm; [|apply sort_fields_perm].
  rewrite sort_fields_perm. by rewrite map_map.
Qed.

(** What the relay publishes for an outbox event is what the worker
    reads: the same ids and types, and the payload with its keys sorted.  So a
    payload's string member (a job's or a chat's id) reaches the worker
    unchanged, and the aggregate id stands in for it when it is missing. *)
Theorem event_roundtrip `{PyFloat, PyRepr} sid id e :
  printable (JObj (oe_payload e)) -> py_value (JObj (oe_payload e)) ->
  exists m, _decode_message sid (publish_outbox_message id e) = m /\
    stream_id m = sid /\ event_id m = of_string id /\ msg_event_type m = of_string (oe_event_type e) /\
    msg_aggregate_type m = of_string (aggregate_type e) /\ msg_aggregate_id m = of_string (aggregate_id e) /\
    JObj (payload m) = canon (JObj (oe_payload e)) /\
    (forall name key, field (of_string name) (oe_payload e) = Some (JStr (of_string key)) -> key <> ""%string -> ascii_key key ->
       key_of (message_key name m) = key) /\
    (forall name, field (of_string name) (oe_payload e) = None -> ascii_key (aggregate_id e) ->
       key_of (message_key name m) = aggregate_id e).
Proof.
  intros Hp Hv. eexists. split; [reflexivity|]. set (m := _decode_message _ _).
  assert (Hpay : payload m = sort_fields (map (fun kv => (kv.1, canon kv.2)) (oe_payload e))).
  { unfold m, _decode_message. change (text_field "payload_json" (publish_outbox_message id e)) with (dumps (JObj (oe_payload e))).
    pose proof (loads_dumps _ Hp Hv) as Hl. destruct (dumps (JObj (oe_payload e))) as [|c t] eqn:Hd; [discriminate Hd|]. by rewrite Hl. }
  apply py_value_obj in Hv as [Hnd _].
  assert (Hf : forall name, field (of_string name) (payload m) = canon <$> field (of_string name) (oe_payload e)).
  { intros name. rewrite Hpay. by apply field_canon. }
  do 5 (split; [done|]). split; [by rewrite Hpay|]. unfold message_key, str_field. split.
  - intros name key Hk Hne Ha. rewrite Hf, Hk. simpl. destruct key as [|c key]; [done|].
    by etransitivity; [|by apply (key_of_string (String c key))].
  - intros name Hk Ha. rewrite Hf, Hk. simpl. by apply key_of_string.
Qed.

(** ** Instances *)

Definition no_floats : PyFloat := {| float_of_token _ := None |}.
Definition plain_repr : PyRepr := {| repr_container := dumps_spaced |}.

Definition sample_event : OutboxEvent :=
  MkOutboxEvent "knowledge_job" "j1" "knowledge.job.ready"
    [(of_string "job_id", JStr (of_string "j1")); (of_string "attempt", JInt 2)] EvLeased 0 None None "k" 0 None None 0.

Lemma event_roundtrip_witness :
  key_of (message_key (H := plain_repr) "job_id" (_decode_message (H := no_floats) "1-0" (publish_outbox_message "e1" sample_event))) = "j1"%string.
Proof.
  destruct (event_roundtrip (H := no_floats) (H0 := plain_repr) "1-0" "e1" sample_event)
    as (m & Hm & _ & _ & _ & _ & _ & _ & Hkey & _).
  - apply printable_obj. repeat constructor; vm_compute; discriminate.
  - apply py_value_obj. split; [apply (bool_decide_unpack _); vm_compute; exact I|]. repeat constructor.
  - rewrite Hm. apply Hkey; [reflexivity|discriminate|]. apply (bool_decide_unpack _). vm_compute. exact I.
Defined.
