(* ===== verification/KnowledgeJobs.v ===== *)
(** * Knowledge jobs

    [knowledge_job_service.py]: the durable state machine of ingestion jobs.
    A job is a row; every time it becomes ready the service writes an outbox
    event for it, and a worker that receives the event claims the row under a
    lease.  Functions that take an ORM object take the row as it was loaded
    ([Outbox.save]).  [now] is [utcnow()] during the call, [new_id] and
    [event_id] the uuids drawn for new rows; [locked] says that another
    transaction holds the row's lock ([SKIP LOCKED]). *)

From S2P Require Import Prelude Text Json Outbox.

(** ** Rows *)

Inductive job_status :=
  | JobPending | JobLeased | JobProcessing | JobRetry | JobSucceeded | JobDead | JobCancelled.

#[export] Instance job_status_eq_dec : EqDecision job_status.
Proof. solve_decision. Defined.

Record IngestionJob := MkIngestionJob {
  knowledge_base_id : string;
  document_version_id : option string;
  index_version_id : option string;
  job_type : string;
  j_status : job_status;
  j_attempt_count : Z;
  j_max_attempts : Z;
  j_lease_owner : option string;
  j_lease_until : option Z;
  j_idempotency_key : string;
  j_payload : list (text * json);
  j_error_code : option text;
  j_error_message : option text;
  j_next_attempt_at : option Z;
  j_created_at : Z;
  j_started_at : option Z;
  j_completed_at : option Z;
  j_updated_at : Z
}.

#[export, program] Instance job_row : Row IngestionJob := {|
  merge l n c := MkIngestionJob
    (wr (knowledge_base_id l) (knowledge_base_id n) (knowledge_base_id c))
    (wr (document_version_id l) (document_version_id n) (document_version_id c))
    (wr (index_version_id l) (index_version_id n) (index_version_id c))
    (wr (job_type l) (job_type n) (job_type c))
    (wr (j_status l) (j_status n) (j_status c))
    (wr (j_attempt_count l) (j_attempt_count n) (j_attempt_count c))
    (wr (j_max_attempts l) (j_max_attempts n) (j_max_attempts c))
    (wr (j_lease_owner l) (j_lease_owner n) (j_lease_owner c))
    (wr (j_lease_until l) (j_lease_until n) (j_lease_until c))
    (wr (j_idempotency_key l) (j_idempotency_key n) (j_idempotency_key c))
    (wr (j_payload l) (j_payload n) (j_payload c))
    (wr (j_error_code l) (j_error_code n) (j_error_code c))
    (wr (j_error_message l) (j_error_message n) (j_error_message c))
    (wr (j_next_attempt_at l) (j_next_attempt_at n) (j_next_attempt_at c))
    (wr (j_created_at l) (j_created_at n) (j_created_at c))
    (wr (j_started_at l) (j_started_at n) (j_started_at c))
    (wr (j_completed_at l) (j_completed_at n) (j_completed_at c))
    (wr (j_updated_at l) (j_updated_at n) (j_updated_at c))
|}.
Next Obligation. intros [] []; simpl. by rewrite !wr_same. Qed.
Next Obligation. intros [] []; simpl. by rewrite !wr_nothing. Qed.

(** A job with the columns of its state changed. *)
Definition job_with (j : IngestionJob) (status : job_status) (attempts : Z) (owner : option string) (until : option Z)
    (payload : list (text * json)) (code message : option text) (next started completed : option Z) (updated : Z)
    : IngestionJob :=
  MkIngestionJob (knowledge_base_id j) (document_version_id j) (index_version_id j) (job_type j) status attempts
    (j_max_attempts j) owner until (j_idempotency_key j) payload code message next (j_created_at j) started completed
    updated.

Definition TERMINAL_JOB_STATUSES : list job_status := [JobSucceeded; JobDead; JobCancelled].

Record JobFailure := MkJobFailure { failure_status : job_status; failure_attempts : Z; failure_next : option Z }.

Section jobs.
Context `{PyInt} `{Settings} {S : Type} `{HasTable S OutboxEvent, HasTable S IngestionJob}.

(** ** Dispatch *)

Definition dispatch_key (job_id : string) (attempt : Z) (reason : string) : string :=
  "knowledge-job:" +:+ job_id +:+ ":dispatch:" +:+ pretty attempt +:+ ":" +:+ reason.

Definition schedule_job_dispatch (id : string) (job : IngestionJob) (reason : string) (avail : Z)
    (event_id : string) (now : Z) : op S unit :=
  let dispatch_number := j_attempt_count job in
  _ ← on_table (enqueue_outbox_event "knowledge_job" id "knowledge.job.ready"
        [(of_string "job_id", JStr (of_string id)); (of_string "job_type", JStr (of_string (job_type job)));
         (of_string "attempt", JInt dispatch_number); (of_string "reason", JStr (of_string reason))]
        (dispatch_key id dispatch_number reason) (Some avail) event_id now);
  mret tt.

Definition save_job (id : string) (loaded new : IngestionJob) : op S unit := on_table (save id loaded new).

(** ** Enqueueing *)

Definition has_job_key (k : string) (kv : string * IngestionJob) : Prop := j_idempotency_key kv.2 = k.

#[export] Instance has_job_key_dec k kv : Decision (has_job_key k kv).
Proof. unfold has_job_key. apply _. Defined.

Definition job_of_key (k : string) (jobs : table IngestionJob) : option (string * IngestionJob) :=
  head (filter (has_job_key k) (map_to_list jobs)).

(** A concurrent insert of the same key between the two statements is the
    same as finding it by the first. *)
Definition enqueue_knowledge_job (kb jtype key : string) (payload : list (text * json)) (dv iv : option string)
    (max_attempts : option Z) (new_id event_id : string) (now : Z) : op S string :=
  existing ← gets (fun s => job_of_key key (rows s));
  match existing with
  | Some (id, _) => mret id
  | None =>
      let max := match max_attempts with None | Some 0 => knowledge_job_max_attempts | Some n => n end in
      let job := MkIngestionJob kb dv iv jtype JobPending 0 max None None key payload None None None now None None now in
      taken ← gets (fun s => bool_decide (is_Some (rows (R := IngestionJob) s !! new_id)));
      if taken : bool then raise (OtherError "IntegrityError")
      else
        _ ← on_table (modify <[new_id := job]>);
        _ ← schedule_job_dispatch new_id job "created" now event_id now;
        mret new_id
  end.

(** ** Leases *)

Definition claim_knowledge_job (job_id worker_id : string) (locked : bool) (current : Z) : op S (option IngestionJob) :=
  row ← gets (fun s => rows s !! job_id);
  match (if locked then None else row) with
  | None => mret None
  | Some job =>
      if bool_decide (j_status job ∈ TERMINAL_JOB_STATUSES) then mret None
      else if bool_decide (j_status job ∈ [JobLeased; JobProcessing]) &&
              match j_lease_until job with Some u => current <? u | None => false end then mret None
      else if negb (bool_decide (j_status job ∈ [JobPending; JobRetry; JobLeased; JobProcessing])) then mret None
      else if match j_next_attempt_at job with Some t => current <? t | None => false end then mret None
      else
        let job' := job_with job JobProcessing (j_attempt_count job + 1) (Some worker_id)
          (Some (current + seconds knowledge_job_lease_seconds)) (j_payload job) None None (j_next_attempt_at job)
          (Some (default current (j_started_at job))) (j_completed_at job) current in
        _ ← save_job job_id job job';
        mret (Some job')
  end.

Definition holds_lease (worker_id : string) (job : IngestionJob) : bool :=
  bool_decide (j_status job = JobProcessing) && bool_decide (j_lease_owner job = Some worker_id).

Definition heartbeat_knowledge_job (id : string) (job : IngestionJob) (worker_id : string) (current : Z) : op S bool :=
  if negb (holds_lease worker_id job) then mret false
  else
    _ ← save_job id job (job_with job (j_status job) (j_attempt_count job) (j_lease_owner job)
          (Some (current + seconds knowledge_job_lease_seconds)) (j_payload job) (j_error_code job) (j_error_message job)
          (j_next_attempt_at job) (j_started_at job) (j_completed_at job) current);
    mret true.

Definition complete_knowledge_job (id : string) (job : IngestionJob) (worker_id : string) (now : Z) : op S bool :=
  if negb (holds_lease worker_id job) then mret false
  else
    _ ← save_job id job (job_with job JobSucceeded (j_attempt_count job) None None (j_payload job) None None None
          (j_started_at job) (Some now) now);
    mret true.

Definition fail_knowledge_job (id : string) (job : IngestionJob) (worker_id : string) (error error_code : text)
    (retryable : bool) (event_id : string) (now : Z) : op S JobFailure :=
  if negb (holds_lease worker_id job) then
    mret (MkJobFailure (j_status job) (j_attempt_count job) (j_next_attempt_at job))
  else
    let attempts := j_attempt_count job in
    let max := if decide (j_max_attempts job = 0) then 1 else j_max_attempts job in
    let code := Some (take 64 error_code) in
    let message := Some (take 8000 error) in
    if negb retryable || (max <=? attempts) then
      _ ← save_job id job (job_with job JobDead attempts None None (j_payload job) code message None
            (j_started_at job) (Some now) now);
      mret (MkJobFailure JobDead attempts None)
    else
      let next := now + backoff knowledge_retry_base_seconds attempts in
      let job' := job_with job JobRetry attempts None None (j_payload job) code message (Some next)
            (j_started_at job) (j_completed_at job) now in
      _ ← save_job id job job';
      _ ← schedule_job_dispatch id job' "retry" next event_id now;
      mret (MkJobFailure JobRetry attempts (Some next)).

(** ** Stale leases *)

Definition stale (current : Z) (j : IngestionJob) : bool :=
  bool_decide (j_status j ∈ [JobLeased; JobProcessing]) &&
  match j_lease_until j with None => true | Some u => u <=? current end.

(** ORDER BY lease_until, created_at; where NULLs sort is the database's. *)
Definition stale_le (nulls_first : bool) (a b : string * IngestionJob) : Prop :=
  match j_lease_until a.2, j_lease_until b.2 with
  | Some t, Some u => t < u \/ (t = u /\ j_created_at a.2 <= j_created_at b.2)
  | None, None => j_created_at a.2 <= j_created_at b.2
  | None, Some _ => nulls_first = true
  | Some _, None => nulls_first = false
  end.

#[export] Instance stale_le_dec nulls_first : RelDecision (stale_le nulls_first).
Proof. intros a b. unfold stale_le. repeat case_match; apply _. Defined.

Definition stale_jobs (nulls_first : bool) (locked : gset string) (limit : nat) (current : Z)
    (jobs : table IngestionJob) : list (string * IngestionJob) :=
  take limit (merge_sort (stale_le nulls_first)
    (filter (fun kv => stale current kv.2 = true /\ kv.1 ∉ locked) (map_to_list jobs))).

Definition lease_expired_message : text := of_string "Worker lease expired before completion".

(** What the loop makes of one stale job. *)
Definition recovered (current : Z) (job : IngestionJob) : IngestionJob :=
  let max := if decide (j_max_attempts job = 0) then 1 else j_max_attempts job in
  let code := Some (of_string "lease_expired") in
  if max <=? j_attempt_count job then
    job_with job JobDead (j_attempt_count job) None None (j_payload job) code (Some lease_expired_message) None
      (j_started_at job) (Some current) current
  else
    job_with job JobRetry (j_attempt_count job) None None (j_payload job) code (Some lease_expired_message) (Some current)
      (j_started_at job) (j_completed_at job) current.

Definition recover_job (current : Z) (event_id : string -> string) (kv : string * IngestionJob) : op S unit :=
  let job' := recovered current kv.2 in
  _ ← save_job kv.1 kv.2 job';
  match j_status job' with
  | JobRetry => schedule_job_dispatch kv.1 job' "lease-expired" current (event_id kv.1) current
  | _ => mret tt
  end.

(** [event_id] gives the uuid drawn for the event of a job. *)
Definition recover_stale_knowledge_jobs (nulls_first : bool) (locked : gset string) (limit : nat) (current : Z)
    (event_id : string -> string) : op S nat :=
  jobs ← gets (fun s => stale_jobs nulls_first locked limit current (rows s));
  _ ← for_each (recover_job current event_id) jobs;
  mret (length jobs).

(** ** Manual retry *)

Definition manual_key : text := of_string "manual_retry_count".

Definition retry_dead_knowledge_job (job_id event_id : string) (now : Z) : op S IngestionJob :=
  row ← gets (fun s => rows s !! job_id);
  match row with
  | None => raise (ValueError "Knowledge job not found")
  | Some job =>
      if negb (bool_decide (j_status job = JobDead)) then
        raise (ValueError "Only a dead Knowledge job can be retried manually")
      else match int_or 0 (field manual_key (j_payload job)) with
      | Raise e => raise e
      | Ok previous =>
          let manual_retry_count := previous + 1 in
          if 10 <? manual_retry_count then raise (ValueError "Knowledge job exceeded the manual retry limit")
          else
            let job' := job_with job JobPending 0 None None (set_field manual_key (JInt manual_retry_count) (j_payload job))
                  None None None None None now in
            _ ← save_job job_id job job';
            _ ← schedule_job_dispatch job_id job' ("manual-retry-" +:+ pretty manual_retry_count) now event_id now;
            mret job'
      end
  end.
End jobs.

(** ** A database with the two tables *)

Record KnowledgeDB := MkKnowledgeDB { kdb_outbox : outbox; kdb_jobs : table IngestionJob }.

#[export, refine] Instance kdb_outbox_table : HasTable KnowledgeDB OutboxEvent := {|
  rows := kdb_outbox; set_rows t s := MkKnowledgeDB t (kdb_jobs s) |}.
Proof. all: by repeat intros []. Defined.

#[export, refine] Instance kdb_jobs_table : HasTable KnowledgeDB IngestionJob := {|
  rows := kdb_jobs; set_rows t s := MkKnowledgeDB (kdb_outbox s) t |}.
Proof. all: by repeat intros []. Defined.

#[export] Instance kdb_separate : Separate KnowledgeDB OutboxEvent IngestionJob.
Proof. constructor; by intros t []. Qed.
