(* ===== verification/KnowledgeFacts.v ===== *)
(** * What the knowledge job service promises

    Exactly the claimable jobs are granted; a live lease shuts everyone else
    out over any sequence of calls; failing retries with a bounded delay or
    buries the job exactly at its last attempt; and, as long as nobody retries
    a dead job by hand, every job sent back to wait has a fresh outbox event
    that will wake it. *)

From S2P Require Import Prelude Text Json Outbox OutboxFacts KnowledgeJobs.

Section facts.
Context `{PyInt} `{Settings} {S : Type} `{Separate S OutboxEvent IngestionJob}.
Implicit Types (s : S) (job : IngestionJob).

Definition jobs_of (s : S) : table IngestionJob := rows s.
Definition outbox_of (s : S) : outbox := rows s.

(** [UPDATE ingestion_jobs]. *)
Definition put_job (id : string) (job : IngestionJob) (s : S) : S := set_rows (<[id := job]> (jobs_of s)) s.
Definition put_event (id : string) (e : OutboxEvent) (s : S) : S := set_rows (<[id := e]> (outbox_of s)) s.

Lemma jobs_put_job id job s : jobs_of (put_job id job s) = <[id := job]> (jobs_of s).
Proof. apply rows_set. Qed.

Lemma outbox_put_job id job s : outbox_of (put_job id job s) = outbox_of s.
Proof. apply rows_other'. Qed.

Lemma jobs_put_event id e s : jobs_of (put_event id e s) = jobs_of s.
Proof. apply rows_other. Qed.

Lemma outbox_put_event id e s : outbox_of (put_event id e s) = <[id := e]> (outbox_of s).
Proof. apply rows_set. Qed.

Lemma save_job_run id loaded new s :
  jobs_of s !! id = Some loaded -> save_job id loaded new s = (Ok tt, put_job id new s).
Proof. intros Hl. unfold save_job, on_table. by rewrite save_current. Qed.

(** ** What each operation leaves alone *)

Lemma save_job_other id i x loaded new :
  id <> i -> preserves (fun s => jobs_of s !! i = x) (save_job id loaded new).
Proof.
  intros Hne s Hs. unfold save_job, on_table, save. destruct (rows s !! id) as [c|] eqn:Hid; simpl.
  - unfold jobs_of. rewrite rows_set, lookup_insert_ne by done. exact Hs.
  - by rewrite set_rows_rows.
Qed.

Lemma schedule_jobs id job reason avail event_id now t :
  preserves (fun s => jobs_of s = t) (schedule_job_dispatch id job reason avail event_id now).
Proof.
  intros s Hs. unfold schedule_job_dispatch, mbind, op_bind, on_table.
  destruct (enqueue_outbox_event _ _ _ _ _ _ _ _ _) as [[a|e] o]; simpl; unfold jobs_of; by rewrite rows_other.
Qed.

Lemma schedule_row id job reason avail event_id now i x :
  preserves (fun s => jobs_of s !! i = x) (schedule_job_dispatch id job reason avail event_id now).
Proof. intros s Hs. by rewrite (schedule_jobs id job reason avail event_id now (jobs_of s) s). Qed.

(** ** Dispatch keys *)

Definition no_colon (s : string) : Prop := 58 ∉ of_string s.

Lemma cut_colon (a a' x y : text) :
  58 ∉ a -> 58 ∉ a' -> a ++ 58 :: x = a' ++ 58 :: y -> a = a' /\ x = y.
Proof.
  revert a'. induction a as [|c a IH]; intros [|c' a'] Ha Ha' Heq; simpl in Heq.
  - by injection Heq.
  - injection Heq as <- _. exfalso. apply Ha'. apply list_elem_of_here.
  - injection Heq as -> _. exfalso. apply Ha. apply list_elem_of_here.
  - injection Heq as -> Heq. destruct (IH a') as [-> ->]; try done.
    + intros Hin. apply Ha. by apply list_elem_of_further.
    + intros Hin. apply Ha'. by apply list_elem_of_further.
Qed.

Lemma no_colon_pretty (n : Z) : no_colon (pretty n).
Proof.
  unfold no_colon. intros Hin. pose proof (of_int_chars n) as Hc. unfold of_int in Hc.
  rewrite Forall_forall in Hc. destruct (Hc _ Hin) as [Hd|Hd]; [|done]. by vm_compute in Hd.
Qed.

Lemma dispatch_key_inj id n r id' n' r' :
  no_colon id -> no_colon id' -> dispatch_key id n r = dispatch_key id' n' r' -> id = id' /\ n = n' /\ r = r'.
Proof.
  intros Hid Hid' Heq. apply (f_equal of_string) in Heq. unfold dispatch_key in Heq.
  rewrite !of_string_app in Heq. apply app_inv_head in Heq.
  change (of_string ":dispatch:") with (58 :: of_string "dispatch:") in Heq.
  change (of_string ":") with ([58]) in Heq.
  apply cut_colon in Heq as [Hi Heq]; [|done..]. simpl in Heq. apply (app_inv_head (of_string "dispatch:")) in Heq.
  apply cut_colon in Heq as [Hn Hr]; [|apply no_colon_pretty..].
  split; [by apply of_string_inj|]. split; [by apply of_int_inj|by apply of_string_inj].
Qed.
(** ** Claiming *)

Definition claimable (now : Z) job : Prop :=
  (j_status job ∈ [JobPending; JobRetry] \/
   (j_status job ∈ [JobLeased; JobProcessing] /\ forall u, j_lease_until job = Some u -> u <= now)) /\
  (forall t, j_next_attempt_at job = Some t -> t <= now).

(** The job as [claim_knowledge_job] leaves it. *)
Definition claimed_job (worker_id : string) (now : Z) job : IngestionJob :=
  job_with job JobProcessing (j_attempt_count job + 1) (Some worker_id) (Some (now + seconds knowledge_job_lease_seconds))
    (j_payload job) None None (j_next_attempt_at job) (Some (default now (j_started_at job))) (j_completed_at job) now.

Lemma claim_refused id worker_id locked now s :
  (locked = true \/ forall job, jobs_of s !! id = Some job -> ~ claimable now job) ->
  claim_knowledge_job id worker_id locked now s = (Ok None, s).
Proof.
  intros Hr. unfold claim_knowledge_job. erewrite op_bind_ok; [|reflexivity].
  destruct locked; [done|]. destruct Hr as [|Hr]; [done|]. change (rows s) with (jobs_of s).
  destruct (jobs_of s !! id) as [job|]; [|done]. specialize (Hr job eq_refl).
  case_bool_decide as Ht; [done|]. destruct (bool_decide (_ ∈ [JobLeased; JobProcessing]) && _) eqn:Hl; [done|].
  destruct (bool_decide (_ ∈ [JobPending; _; _; _])) eqn:Hs; cbn [negb]; cbv beta iota; [|reflexivity].
  apply bool_decide_eq_true in Hs.
  destruct (match j_next_attempt_at job with Some t => now <? t | None => false end) eqn:Hn; [done|].
  exfalso. apply Hr. split.
  - destruct (decide (j_status job ∈ [JobLeased; JobProcessing])) as [Hp|Hp].
    + right. split; [done|]. intros u Hu. rewrite Hu, bool_decide_true in Hl by done. simpl in Hl. lia.
    + left. rewrite !elem_of_cons, elem_of_nil in *. naive_solver.
  - intros t Ht'. rewrite Ht' in Hn. lia.
Qed.

Lemma claim_granted id worker_id job now s :
  jobs_of s !! id = Some job -> claimable now job ->
  claim_knowledge_job id worker_id false now s =
    (Ok (Some (claimed_job worker_id now job)), put_job id (claimed_job worker_id now job) s).
Proof.
  intros Hid [Hst Hnext]. unfold claim_knowledge_job. erewrite op_bind_ok; [|reflexivity].
  change (rows s) with (jobs_of s). rewrite Hid.
  rewrite (bool_decide_false (_ ∈ TERMINAL_JOB_STATUSES)).
  2:{ unfold TERMINAL_JOB_STATUSES. rewrite !elem_of_cons, elem_of_nil in *. intros Ht. destruct Hst as [Hst|[Hst _]]; destruct (j_status job); naive_solver. }
  destruct (bool_decide (_ ∈ [JobLeased; JobProcessing]) && _) eqn:Hl.
  { exfalso. apply andb_true_iff in Hl as [Hp Hu]. apply bool_decide_eq_true in Hp.
    destruct Hst as [Hst|[_ Hst]].
    - rewrite !elem_of_cons, elem_of_nil in *. destruct (j_status job); naive_solver.
    - destruct (j_lease_until job) as [u|]; [|done]. specialize (Hst u eq_refl). lia. }
  rewrite (bool_decide_true (_ ∈ [JobPending; _; _; _])).
  2:{ rewrite !elem_of_cons, elem_of_nil in *. naive_solver. }
  cbn [negb]; cbv beta iota.
  destruct (match j_next_attempt_at job with Some t => now <? t | None => false end) eqn:Hn.
  { exfalso. destruct (j_next_attempt_at job) as [t|]; [|done]. specialize (Hnext t eq_refl). lia. }
  erewrite op_bind_ok; [|by apply save_job_run]. done.
Qed.

#[export] Instance claimable_dec now job : Decision (claimable now job).
Proof.
  unfold claimable. apply and_dec; [apply or_dec; [apply _|apply and_dec; [apply _|]]|].
  - destruct (j_lease_until job) as [u|]; [|left; done]. destruct (decide (u <= now)); [left|right]; naive_solver.
  - destruct (j_next_attempt_at job) as [u|]; [|left; done]. destruct (decide (u <= now)); [left|right]; naive_solver.
Defined.

(** A claim is granted exactly when the row is there and not locked, the
    job is waiting or its lease has run out, and its retry time has come; a
    granted claim starts one more attempt under a lease of its own and clears
    the last error; a refused one changes nothing. *)
Theorem claim_knowledge_job_correct id worker_id locked now s :
  (forall job, locked = false -> jobs_of s !! id = Some job -> claimable now job ->
     exists job', claim_knowledge_job id worker_id locked now s = (Ok (Some job'), put_job id job' s) /\
       j_status job' = JobProcessing /\ j_attempt_count job' = j_attempt_count job + 1 /\
       j_lease_owner job' = Some worker_id /\ j_lease_until job' = Some (now + seconds knowledge_job_lease_seconds) /\
       j_error_code job' = None /\ j_error_message job' = None /\ j_payload job' = j_payload job /\
       j_max_attempts job' = j_max_attempts job /\ j_idempotency_key job' = j_idempotency_key job /\
       (knowledge_job_lease_seconds > 0 -> forall other later, later < now + seconds knowledge_job_lease_seconds ->
          claim_knowledge_job id other false later (put_job id job' s) = (Ok None, put_job id job' s))) /\
  (locked = true \/ (forall job, jobs_of s !! id = Some job -> ~ claimable now job) ->
     claim_knowledge_job id worker_id locked now s = (Ok None, s)).
Proof.
  split; [|apply claim_refused].
  intros job -> Hid Hc. eexists. split; [by apply claim_granted|]. repeat (split; [done|]).
  intros _ other later Hlt. apply claim_refused. right. intros j. rewrite jobs_put_job, lookup_insert_eq. intros [= <-].
  intros [[Hs|[_ Hu]] _].
  - simpl in Hs. rewrite !elem_of_cons, elem_of_nil in Hs. naive_solver.
  - specialize (Hu _ eq_refl). lia.
Qed.

(** ** Failing *)

Definition max_of job : Z := if decide (j_max_attempts job = 0) then 1 else j_max_attempts job.

Lemma holds_lease_true worker_id job :
  holds_lease worker_id job = true -> j_status job = JobProcessing /\ j_lease_owner job = Some worker_id.
Proof. unfold holds_lease. rewrite andb_true_iff, !bool_decide_eq_true. done. Qed.

Definition dispatch_event (id : string) job (reason : string) (avail now : Z) : OutboxEvent :=
  new_event "knowledge_job" id "knowledge.job.ready"
    [(of_string "job_id", JStr (of_string id)); (of_string "job_type", JStr (of_string (job_type job)));
     (of_string "attempt", JInt (j_attempt_count job)); (of_string "reason", JStr (of_string reason))]
    (dispatch_key id (j_attempt_count job) reason) (Some avail) now.

Lemma schedule_new id job reason avail event_id now s :
  event_of_key (dispatch_key id (j_attempt_count job) reason) (outbox_of s) = None -> outbox_of s !! event_id = None ->
  schedule_job_dispatch id job reason avail event_id now s =
    (Ok tt, put_event event_id (dispatch_event id job reason avail now) s).
Proof.
  intros Hk Hn. unfold schedule_job_dispatch. erewrite op_bind_ok; [reflexivity|].
  unfold on_table. change (rows s) with (outbox_of s). by rewrite enqueue_new.
Qed.

Lemma schedule_existing id job reason avail event_id now i e s :
  event_of_key (dispatch_key id (j_attempt_count job) reason) (outbox_of s) = Some (i, e) ->
  schedule_job_dispatch id job reason avail event_id now s = (Ok tt, s).
Proof.
  intros Hk. unfold schedule_job_dispatch. erewrite op_bind_ok; [reflexivity|].
  unfold on_table. change (rows s) with (outbox_of s). erewrite enqueue_existing by done.
  unfold outbox_of. by rewrite set_rows_rows.
Qed.

Lemma backoff_bounds base attempts : 0 <= base <= 3600 -> seconds base <= backoff base attempts <= seconds 3600.
Proof.
  intros Hb. unfold backoff, seconds. pose proof (Z.pow_pos_nonneg 2 (Z.max 0 (attempts - 1)) ltac:(lia) ltac:(lia)).
  generalize dependent (2 ^ Z.max 0 (attempts - 1)). intros p Hp. nia.
Qed.

Definition retrying_job (error code : text) (now : Z) job : IngestionJob :=
  job_with job JobRetry (j_attempt_count job) None None (j_payload job) (Some (take 64 code)) (Some (take 8000 error))
    (Some (now + backoff knowledge_retry_base_seconds (j_attempt_count job))) (j_started_at job) (j_completed_at job) now.

Lemma fail_retries id worker_id job error code event_id now s :
  jobs_of s !! id = Some job -> holds_lease worker_id job = true -> j_attempt_count job < max_of job ->
  fail_knowledge_job id job worker_id error code true event_id now s =
    (_ ← schedule_job_dispatch id (retrying_job error code now job) "retry"
           (now + backoff knowledge_retry_base_seconds (j_attempt_count job)) event_id now;
     mret (MkJobFailure JobRetry (j_attempt_count job) (Some (now + backoff knowledge_retry_base_seconds (j_attempt_count job)))))
    (put_job id (retrying_job error code now job) s).
Proof.
  intros Hid Hl Ha. unfold fail_knowledge_job. rewrite Hl. cbn [negb orb]. cbv zeta. fold (max_of job).
  destruct (Z.leb_spec (max_of job) (j_attempt_count job)); [lia|].
  erewrite op_bind_ok; [|by apply save_job_run]. done.
Qed.

(** A worker that no longer holds the lease changes nothing by completing,
    failing or heartbeating; the one that does completes the job, or buries it
    exactly when the failure is final or it was the last attempt allowed, and
    otherwise sends it back to wait at least the base delay and at most an
    hour, keeping its attempt count. *)
Theorem finish_knowledge_job_correct id worker_id job error code retryable event_id now s :
  jobs_of s !! id = Some job -> 0 <= knowledge_retry_base_seconds <= 3600 -> outbox_of s !! event_id = None ->
  (holds_lease worker_id job = false ->
     complete_knowledge_job id job worker_id now s = (Ok false, s) /\
     heartbeat_knowledge_job id job worker_id now s = (Ok false, s) /\
     exists r, fail_knowledge_job id job worker_id error code retryable event_id now s = (Ok r, s)) /\
  (holds_lease worker_id job = true ->
     (exists job' s', complete_knowledge_job id job worker_id now s = (Ok true, s') /\ s' = put_job id job' s /\
        j_status job' = JobSucceeded /\ j_lease_owner job' = None /\ j_lease_until job' = None) /\
     (exists r job' s', fail_knowledge_job id job worker_id error code retryable event_id now s = (Ok r, s') /\
        jobs_of s' = <[id := job']> (jobs_of s) /\ failure_status r = j_status job' /\ failure_next r = j_next_attempt_at job' /\
        j_attempt_count job' = j_attempt_count job /\ j_lease_owner job' = None /\ j_lease_until job' = None /\
        (j_status job' = JobDead <-> retryable = false \/ max_of job <= j_attempt_count job) /\
        (j_status job' <> JobDead -> j_status job' = JobRetry /\ exists t, j_next_attempt_at job' = Some t /\
           now + seconds knowledge_retry_base_seconds <= t <= now + seconds 3600))).
Proof.
  intros Hid Hbase Hnew. split; intros Hl.
  - unfold complete_knowledge_job, heartbeat_knowledge_job, fail_knowledge_job. rewrite Hl. cbn [negb].
    split; [done|]. split; [done|]. by eexists.
  - split.
    { unfold complete_knowledge_job. rewrite Hl. cbn [negb]. eexists _, _.
      split; [erewrite op_bind_ok; [reflexivity|by apply save_job_run]|]. split; [reflexivity|done]. }
    destruct (negb retryable || (max_of job <=? j_attempt_count job)) eqn:Hd.
    + eexists _, _, _. split.
      { unfold fail_knowledge_job. rewrite Hl. cbn [negb]. cbv zeta. fold (max_of job). rewrite Hd.
        erewrite op_bind_ok; [reflexivity|by apply save_job_run]. }
      rewrite jobs_put_job. repeat (split; [done|]). split; [|done]. split; [intros _|done].
      apply orb_true_iff in Hd as [Hd|Hd]; [left; by destruct retryable|right; lia].
    + apply orb_false_iff in Hd as [Hr Ha]. destruct retryable; [|done]. apply Z.leb_gt in Ha.
      rewrite (fail_retries id worker_id job) by done.
      set (job' := retrying_job error code now job). set (next := now + _).
      assert (Hrun : exists s', schedule_job_dispatch id job' "retry" next event_id now (put_job id job' s) = (Ok tt, s') /\
        jobs_of s' = <[id := job']> (jobs_of s)).
      { destruct (event_of_key (dispatch_key id (j_attempt_count job') "retry") (outbox_of (put_job id job' s))) as [[i e]|] eqn:Hk.
        - eexists. split; [by eapply schedule_existing|apply jobs_put_job].
        - eexists. split; [apply schedule_new; [done|by rewrite outbox_put_job]|]. by rewrite jobs_put_event, jobs_put_job. }
      destruct Hrun as (s' & Hrun & Hs'). eexists _, job', s'. split; [by erewrite op_bind_ok|].
      repeat (split; [done|]). split; [split; [done|intros [|]; [done|lia]]|]. intros _. split; [done|].
      exists next. split; [done|]. pose proof (backoff_bounds knowledge_retry_base_seconds (j_attempt_count job) Hbase).
      unfold next. lia.
Qed.

Lemma claim_cases id worker_id locked now s :
  (exists job, locked = false /\ jobs_of s !! id = Some job /\ claimable now job /\
     claim_knowledge_job id worker_id locked now s =
       (Ok (Some (claimed_job worker_id now job)), put_job id (claimed_job worker_id now job) s)) \/
  claim_knowledge_job id worker_id locked now s = (Ok None, s).
Proof.
  destruct locked; [right; apply claim_refused; by left|].
  destruct (jobs_of s !! id) as [job|] eqn:Hid; [destruct (decide (claimable now job)) as [Hc|Hc]|].
  - left. exists job. split_and!; try done. by apply claim_granted.
  - right. apply claim_refused. right. intros j Hj. congruence.
  - right. apply claim_refused. right. intros j Hj. congruence.
Qed.

(** ** Sequences of calls

    Each call is one transaction: it reads the row it works on, and when it
    raises the transaction is rolled back.  [run] answers the claims granted,
    as pairs of a job and a worker. *)

Inductive action :=
  | AEnqueue (kb jtype key : string) (payload : list (text * json)) (dv iv : option string) (max_attempts : option Z)
      (new_id event_id : string)
  | AClaim (id worker_id : string) (locked : bool)
  | AHeartbeat (id worker_id : string)
  | AComplete (id worker_id : string)
  | AFail (id worker_id : string) (error error_code : text) (retryable : bool) (event_id : string)
  | ARecover (nulls_first : bool) (locked : gset string) (limit : nat) (event_id : string -> string)
  | ARetryDead (id event_id : string)
  | ARelayed (event_id : string).

Definition on_row {A} (id : string) (f : IngestionJob -> op S A) : op S unit :=
  row ← gets (fun s => jobs_of s !! id);
  match row with Some job => _ ← f job; mret tt | None => mret tt end.

Definition exec (t : Z) (a : action) : op S (list (string * string)) :=
  match a with
  | AEnqueue kb jtype key payload dv iv max new_id event_id =>
      _ ← enqueue_knowledge_job kb jtype key payload dv iv max new_id event_id t; mret []
  | AClaim id w locked => r ← claim_knowledge_job id w locked t; mret (if r is Some _ then [(id, w)] else [])
  | AHeartbeat id w => _ ← on_row id (fun job => heartbeat_knowledge_job id job w t); mret []
  | AComplete id w => _ ← on_row id (fun job => complete_knowledge_job id job w t); mret []
  | AFail id w error code retryable event_id =>
      _ ← on_row id (fun job => fail_knowledge_job id job w error code retryable event_id t); mret []
  | ARecover nulls_first locked limit event_id =>
      _ ← recover_stale_knowledge_jobs nulls_first locked limit t event_id; mret []
  | ARetryDead id event_id => _ ← retry_dead_knowledge_job id event_id t; mret []
  | ARelayed event_id => _ ← on_table (modify (alter (processed_of t) event_id : outbox -> outbox)); mret []
  end.

Definition transaction (ta : Z * action) (s : S) : list (string * string) * S :=
  match exec ta.1 ta.2 s with (Ok granted, s') => (granted, s') | (Raise _, _) => ([], s) end.

Fixpoint run (acts : list (Z * action)) (s : S) : list (string * string) * S :=
  match acts with
  | [] => ([], s)
  | ta :: acts => let '(g, s1) := transaction ta s in let '(gs, s') := run acts s1 in (g ++ gs, s')
  end.

Lemma run_app acts acts' s :
  run (acts ++ acts') s = let '(g, s1) := run acts s in let '(g', s2) := run acts' s1 in (g ++ g', s2).
Proof.
  revert s. induction acts as [|ta acts IH]; intros s; simpl; [by destruct (run acts' s)|].
  destruct (transaction ta s) as [g s1]. rewrite IH. destruct (run acts s1) as [gs s2].
  destruct (run acts' s2) as [g' s3]. by rewrite app_assoc.
Qed.

(** An invariant of the operations is an invariant of sequences of calls. *)
Lemma transaction_preserves (I : S -> Prop) t a s :
  preserves I (exec t a) -> I s -> I (transaction (t, a) s).2.
Proof.
  intros Hp Hs. unfold transaction; simpl. specialize (Hp s Hs). by destruct (exec t a s) as [[g|e] s'].
Qed.

(** ** A live lease excludes *)

(** [id] is being processed by [worker_id] under a lease that runs at least until [u]. *)
Definition held (id worker_id : string) (u : Z) (s : S) : Prop :=
  exists job u', jobs_of s !! id = Some job /\ j_status job = JobProcessing /\ j_lease_owner job = Some worker_id /\
    j_lease_until job = Some u' /\ u <= u'.

(** Calls before [u] that are not the worker's own outcome of the job. *)
Definition foreign (id worker_id : string) (u : Z) (ta : Z * action) : Prop :=
  ta.1 < u /\
  match ta.2 with
  | AHeartbeat id' w => id' = id -> w = worker_id -> u <= ta.1 + seconds knowledge_job_lease_seconds
  | AComplete id' w | AFail id' w _ _ _ _ => id' = id -> w <> worker_id
  | _ => True
  end.

Lemma held_put_other id worker_id u i job s : i <> id -> held id worker_id u s -> held id worker_id u (put_job i job s).
Proof.
  intros Hne (j & u' & Hj & Hrest). exists j, u'. rewrite jobs_put_job, lookup_insert_ne by done. done.
Qed.

Lemma held_jobs id worker_id u s s' : jobs_of s' !! id = jobs_of s !! id -> held id worker_id u s -> held id worker_id u s'.
Proof. intros Heq (j & u' & Hj & Hrest). exists j, u'. by rewrite Heq. Qed.

Lemma preserves_held id worker_id u {A} (m : op S A) :
  (forall x, preserves (fun s => jobs_of s !! id = x) m) -> preserves (held id worker_id u) m.
Proof. intros Hm s. apply held_jobs. by apply (Hm (jobs_of s !! id) s). Qed.

Lemma save_job_held id worker_id u i loaded new : i <> id -> preserves (held id worker_id u) (save_job i loaded new).
Proof. intros Hne. apply preserves_held. intros x. by apply save_job_other. Qed.

Lemma schedule_held id worker_id u i job reason avail event_id now :
  preserves (held id worker_id u) (schedule_job_dispatch i job reason avail event_id now).
Proof. apply preserves_held. intros x. apply schedule_row. Qed.

Hint Resolve save_job_held schedule_held : preserves.

Lemma stale_jobs_spec nulls_first locked limit now t i job :
  (i, job) ∈ stale_jobs nulls_first locked limit now t -> t !! i = Some job /\ stale now job = true /\ i ∉ locked.
Proof.
  unfold stale_jobs. intros Hi%elem_of_take. destruct Hi as (k & Hi & _).
  apply list_elem_of_lookup_2 in Hi. rewrite merge_sort_Permutation in Hi.
  apply list_elem_of_filter in Hi as [[Hd Hl] Hin]. apply elem_of_map_to_list in Hin. done.
Qed.

Lemma held_not_stale id worker_id u now s nulls_first locked limit :
  held id worker_id u s -> now < u -> id ∉ (stale_jobs nulls_first locked limit now (jobs_of s)).*1.
Proof.
  intros (job & u' & Hj & Hst & Ho & Hu & Hle) Hlt Hin.
  apply list_elem_of_fmap_1 in Hin as ([i job'] & -> & Hin). apply stale_jobs_spec in Hin as (Hj' & Hs & _). simpl in *.
  assert (job' = job) as -> by congruence. unfold stale in Hs. rewrite Hu in Hs. lia.
Qed.

Lemma recover_job_held id worker_id u now event_id kv :
  kv.1 <> id -> preserves (held id worker_id u) (recover_job now event_id kv).
Proof.
  intros Hne. unfold recover_job. cbv zeta. apply preserves_bind; [auto with preserves|]. intros _.
  destruct (j_status _); auto with preserves.
Qed.

Lemma for_each_recover_held id worker_id u now event_id l :
  id ∉ l.*1 -> preserves (held id worker_id u) (for_each (recover_job now event_id) l).
Proof.
  induction l as [|kv l IH]; intros Hni; simpl; [auto with preserves|].
  apply not_elem_of_cons in Hni as [Hne Hni]. apply preserves_bind; [by apply recover_job_held|]. intros b.
  apply preserves_bind; [by apply IH|]. auto with preserves.
Qed.

Lemma held_not_claimable id worker_id u now job s :
  held id worker_id u s -> now < u -> jobs_of s !! id = Some job -> ~ claimable now job.
Proof.
  intros (j & u' & Hj & Hst & Ho & Hu & Hle) Hlt Hid [[Hs|[_ Hs]] _]; assert (j = job) as -> by congruence.
  - rewrite Hst, !elem_of_cons, elem_of_nil in Hs. naive_solver.
  - specialize (Hs u' Hu). lia.
Qed.

(** The row a call works on, when it is there. *)
Lemma on_row_held id worker_id u i {A} (f : IngestionJob -> op S A) :
  (forall job s, jobs_of s !! i = Some job -> held id worker_id u s -> held id worker_id u (f job s).2) ->
  preserves (held id worker_id u) (on_row i f).
Proof.
  intros Hf s Hs. unfold on_row. erewrite op_bind_ok; [|reflexivity].
  destruct (jobs_of s !! i) as [job|] eqn:Hi; [|done]. specialize (Hf job s Hi Hs).
  unfold mbind, op_bind. by destruct (f job s) as [[a|e] s'].
Qed.

Lemma holds_lease_other worker_id w job :
  j_lease_owner job = Some worker_id -> w <> worker_id -> holds_lease w job = false.
Proof.
  intros Ho Hne. unfold holds_lease. rewrite Ho. rewrite (bool_decide_false (Some _ = Some _)) by congruence. apply andb_false_r.
Qed.

Lemma heartbeat_held id worker_id u i w t :
  (i = id -> w = worker_id -> u <= t + seconds knowledge_job_lease_seconds) ->
  preserves (held id worker_id u) (on_row i (fun job => heartbeat_knowledge_job i job w t)).
Proof.
  intros Hbeat. apply on_row_held. intros job s Hi Hs. unfold heartbeat_knowledge_job.
  destruct (holds_lease w job) eqn:Hl; [|done]. cbn [negb]. erewrite op_bind_ok; [|by apply save_job_run]. simpl.
  destruct (decide (i = id)) as [->|Hne]; [|by apply held_put_other].
  apply holds_lease_true in Hl as [Hst Hw]. destruct Hs as (j & u' & Hj & Hst' & Ho & _).
  assert (j = job) as -> by congruence. eexists _, _. rewrite jobs_put_job, lookup_insert_eq. split; [reflexivity|].
  split; [done|]. split; [done|]. split; [reflexivity|]. apply Hbeat; [done|congruence].
Qed.

Lemma complete_held id worker_id u i w t :
  (i = id -> w <> worker_id) -> preserves (held id worker_id u) (on_row i (fun job => complete_knowledge_job i job w t)).
Proof.
  intros Hw. apply on_row_held. intros job s Hi Hs. unfold complete_knowledge_job.
  destruct (decide (i = id)) as [->|Hne].
  - destruct Hs as (j & u' & Hj & Hst' & Ho & Hrest). assert (j = job) as -> by congruence.
    rewrite (holds_lease_other worker_id) by auto. cbn [negb]. exists job, u'. done.
  - destruct (holds_lease w job) eqn:Hl; [|done]. cbn [negb]. erewrite op_bind_ok; [|by apply save_job_run]. by apply held_put_other.
Qed.

Lemma fail_held id worker_id u i w t error code retryable event_id :
  (i = id -> w <> worker_id) ->
  preserves (held id worker_id u) (on_row i (fun job => fail_knowledge_job i job w error code retryable event_id t)).
Proof.
  intros Hw. apply on_row_held. intros job s Hi Hs. unfold fail_knowledge_job.
  destruct (decide (i = id)) as [->|Hne].
  - destruct Hs as (j & u' & Hj & Hst' & Ho & Hrest). assert (j = job) as -> by congruence.
    rewrite (holds_lease_other worker_id) by auto. cbn [negb]. exists job, u'. done.
  - destruct (holds_lease w job) eqn:Hl; [|done]. cbn [negb]. cbv zeta.
    assert (Hp : forall new {A} (k : op S A), preserves (held id worker_id u) k ->
      preserves (held id worker_id u) (_ ← save_job i job new; k)) by (intros; auto with preserves).
    destruct (negb retryable || _); apply Hp; auto with preserves.
Qed.

Lemma enqueue_held id worker_id u kb jtype key payload dv iv max new_id event_id t :
  preserves (held id worker_id u) (enqueue_knowledge_job kb jtype key payload dv iv max new_id event_id t).
Proof.
  intros s Hs. unfold enqueue_knowledge_job. erewrite op_bind_ok; [|reflexivity].
  destruct (job_of_key key _) as [[i j]|]; [done|]. erewrite op_bind_ok; [|reflexivity].
  case_bool_decide as Ht; [done|]. erewrite op_bind_ok; [|reflexivity].
  match goal with |- held _ _ _ ((_ ≫= _) ?s').2 => assert (Hs' : held id worker_id u s') end.
  { apply held_put_other; [|done]. intros ->. destruct Hs as (j & u' & Hj & _). apply Ht. unfold jobs_of in Hj. by eexists. }
  revert Hs'. apply preserves_bind; auto with preserves.
Qed.

Lemma retry_dead_held id worker_id u i event_id t :
  preserves (held id worker_id u) (retry_dead_knowledge_job i event_id t).
Proof.
  intros s Hs. unfold retry_dead_knowledge_job. erewrite op_bind_ok; [|reflexivity].
  destruct (rows s !! i) as [job|] eqn:Hi; [|done]. case_bool_decide as Hd; cbn [negb]; [|done].
  destruct (int_or 0 _) as [n|e]; [|done]. destruct (10 <? n + 1); [done|]. cbv zeta.
  assert (Hne : i <> id).
  { intros ->. destruct Hs as (j & u' & Hj & Hst & _). unfold jobs_of in Hj. congruence. }
  revert Hs. apply preserves_bind; auto with preserves.
Qed.

Lemma recover_held id worker_id u nulls_first locked limit event_id t s :
  t < u -> held id worker_id u s -> held id worker_id u (recover_stale_knowledge_jobs nulls_first locked limit t event_id s).2.
Proof.
  intros Hlt Hs. unfold recover_stale_knowledge_jobs. erewrite op_bind_ok; [|reflexivity].
  pose proof (held_not_stale id worker_id u t s nulls_first locked limit Hs Hlt) as Hni. revert Hs.
  apply preserves_bind; [by apply for_each_recover_held|auto with preserves].
Qed.

Lemma transaction_held id worker_id u ta s :
  foreign id worker_id u ta -> held id worker_id u s ->
  held id worker_id u (transaction ta s).2 /\ forall w, (id, w) ∉ (transaction ta s).1.
Proof.
  destruct ta as [t a]. intros [Hlt Ha] Hs. cbn [fst snd] in *.
  assert (Hmost : forall {A} (m : op S A), preserves (held id worker_id u) m -> exec t a = (_ ← m; mret []) ->
    held id worker_id u (transaction (t, a) s).2 /\ forall w, (id, w) ∉ (transaction (t, a) s).1).
  { intros A m Hm He. unfold transaction; simpl. rewrite He. specialize (Hm s Hs). unfold mbind, op_bind.
    destruct (m s) as [[x|e] s']; simpl in *; split; try done; intros w; apply not_elem_of_nil. }
  destruct a as [kb jt key pl dv iv mx nid eid|i w lk|i w|i w|i w er co re eid|nf lk li eid|i eid|eid].
  - eapply Hmost; [|reflexivity]. apply enqueue_held.
  - unfold transaction; simpl. destruct (decide (i = id)) as [->|Hne].
    + erewrite op_bind_ok; [|apply claim_refused; right; intros job Hj; by eapply held_not_claimable].
      simpl. split; [done|]. intros w'. apply not_elem_of_nil.
    + destruct (claim_cases i w lk t s) as [(job & _ & Hj & _ & Hrun)|Hrun]; (erewrite op_bind_ok; [|exact Hrun]); simpl.
      * split; [by apply held_put_other|]. intros w' Hin. apply list_elem_of_singleton in Hin. congruence.
      * split; [done|]. intros w'. apply not_elem_of_nil.
  - eapply Hmost; [|reflexivity]. by apply heartbeat_held.
  - eapply Hmost; [|reflexivity]. by apply complete_held.
  - eapply Hmost; [|reflexivity]. by apply fail_held.
  - eapply Hmost; [|reflexivity]. intros s' Hs'. by apply recover_held.
  - eapply Hmost; [|reflexivity]. apply retry_dead_held.
  - eapply Hmost; [|reflexivity]. apply preserves_held. intros x s' Hs'. unfold on_table; simpl.
    unfold jobs_of. by rewrite rows_other.
Qed.

(** C9: While a worker's lease runs, the job stays its own: over any sequence of
    calls before the lease ends that is not the worker's own outcome of that
    job - claims by anyone, outcomes reported by workers that lost it, sweeps,
    manual retries - no claim of it is granted and the row still names the
    worker, under a lease no shorter. *)
Theorem live_lease_exclusive id worker_id u acts s :
  held id worker_id u s -> Forall (foreign id worker_id u) acts ->
  held id worker_id u (run acts s).2 /\ forall w, (id, w) ∉ (run acts s).1.
Proof.
  intros Hs Hacts. revert s Hs. induction Hacts as [|ta acts Hta Hacts IH]; intros s Hs.
  - split; [done|]. intros w. apply not_elem_of_nil.
  - destruct (transaction_held _ _ _ _ _ Hta Hs) as [Hh Hg]. simpl.
    destruct (transaction ta s) as [g s1]. destruct (IH s1 Hh) as [Hh' Hg']. destruct (run acts s1) as [gs s2]. simpl in *.
    split; [done|]. intros w [Hin|Hin]%elem_of_app; [by eapply Hg|by eapply Hg'].
Qed.

(** ** Every waiting job will be woken *)

Definition busy (st : job_status) : bool := bool_decide (st ∈ [JobLeased; JobProcessing]).
Definition waiting (st : job_status) : bool := bool_decide (st ∈ [JobPending; JobRetry]).

(** The reasons the service sends a job back for. *)
Definition sent_back (reason : string) : Prop := reason = "retry"%string \/ reason = "lease-expired"%string.

(** Every event announces an attempt of a job that is there, and no event sends
    a job back for the attempt that is still being made. *)
Definition announced (s : S) : Prop :=
  forall i e, outbox_of s !! i = Some e ->
  exists id n r job, oe_idempotency_key e = dispatch_key id n r /\ jobs_of s !! id = Some job /\ 0 <= n <= j_attempt_count job /\
    (sent_back r -> busy (j_status job) = true -> n < j_attempt_count job).

(** A waiting job has an event for its coming attempt, available when the job is. *)
Definition awaited (s : S) : Prop :=
  forall id job, jobs_of s !! id = Some job -> waiting (j_status job) = true ->
  exists i e r, outbox_of s !! i = Some e /\ oe_idempotency_key e = dispatch_key id (j_attempt_count job) r /\
    aggregate_id e = id /\ (j_next_attempt_at job = None \/ j_next_attempt_at job = Some (available_at e)).

Definition job_ids_ok (s : S) : Prop := forall id job, jobs_of s !! id = Some job -> no_colon id /\ 0 <= j_attempt_count job.

Definition woken (s : S) : Prop := announced s /\ awaited s /\ job_ids_ok s.

(** A call that succeeds keeps [I]. *)
Definition keeps {A} (I : S -> Prop) (m : op S A) : Prop := forall s r s', I s -> m s = (Ok r, s') -> I s'.

Lemma keeps_bind {A B} (I : S -> Prop) (m : op S A) (k : A -> op S B) :
  keeps I m -> (forall a, keeps I (k a)) -> keeps I (m ≫= k).
Proof. intros Hm Hk s r s' Hs (a & s1 & H4 & H5)%op_bind_inv. eapply Hk; [|exact H5]. by eapply Hm. Qed.

Lemma keeps_ret {A} (I : S -> Prop) (a : A) : keeps I (mret a).
Proof. by intros s r s' Hs [= _ <-]. Qed.

Lemma fresh_key id job reason s :
  woken s -> jobs_of s !! id = Some job -> busy (j_status job) = true -> sent_back reason ->
  event_of_key (dispatch_key id (j_attempt_count job) reason) (outbox_of s) = None.
Proof.
  intros (Ha & _ & Hids) Hj Hb Hr. apply event_of_key_None. intros i e He Hk.
  destruct (Ha i e He) as (id' & n & r & job' & Hk' & Hj' & Hn & Hs'). rewrite Hk' in Hk.
  apply dispatch_key_inj in Hk as (-> & -> & ->); [|eapply Hids; eauto..].
  assert (job' = job) as -> by congruence. specialize (Hs' Hr Hb). lia.
Qed.

(** A busy job moves on without waiting: to an outcome, or to its next attempt. *)
Lemma put_job_woken id job job' s :
  woken s -> jobs_of s !! id = Some job -> waiting (j_status job') = false ->
  j_attempt_count job <= j_attempt_count job' ->
  (busy (j_status job') = true -> busy (j_status job) = true \/ j_attempt_count job < j_attempt_count job') ->
  woken (put_job id job' s).
Proof.
  intros (Ha & Hw & Hids) Hj Hnw Hle Hb. destruct (Hids id job Hj) as [Hid Hpos]. split_and!.
  - intros i e. rewrite outbox_put_job, jobs_put_job. intros He.
    destruct (Ha i e He) as (id' & n & r & j & Hk & Hj' & Hn & Hs'). destruct (decide (id' = id)) as [->|Hne].
    + assert (j = job) as -> by congruence. exists id, n, r, job'. rewrite lookup_insert_eq. do 2 (split; [done|]). split; [lia|].
      intros Hr Hb'. destruct (Hb Hb') as [Hbj|?]; [specialize (Hs' Hr Hbj)|]; lia.
    + exists id', n, r, j. by rewrite lookup_insert_ne.
  - intros i j. rewrite outbox_put_job, jobs_put_job. destruct (decide (i = id)) as [->|Hne].
    + rewrite lookup_insert_eq. intros [= <-]. congruence.
    + rewrite lookup_insert_ne by done. apply Hw.
  - intros i j. rewrite jobs_put_job. destruct (decide (i = id)) as [->|Hne].
    + rewrite lookup_insert_eq. intros [= <-]. split; [done|lia].
    + rewrite lookup_insert_ne by done. apply Hids.
Qed.

Lemma schedule_ok id job reason avail eid now s u s' :
  event_of_key (dispatch_key id (j_attempt_count job) reason) (outbox_of s) = None ->
  schedule_job_dispatch id job reason avail eid now s = (Ok u, s') ->
  outbox_of s !! eid = None /\ s' = put_event eid (dispatch_event id job reason avail now) s.
Proof.
  intros Hk Hrun. destruct (outbox_of s !! eid) as [e|] eqn:Hn.
  - exfalso. unfold schedule_job_dispatch in Hrun. apply op_bind_inv in Hrun as (a & s1 & Hrun & _).
    unfold on_table in Hrun. change (rows s) with (outbox_of s) in Hrun. unfold enqueue_outbox_event in Hrun.
    erewrite op_bind_ok in Hrun; [|reflexivity]. rewrite Hk in Hrun. erewrite op_bind_ok in Hrun; [|reflexivity].
    rewrite bool_decide_true in Hrun by (rewrite Hn; by eexists). done.
  - split; [done|]. rewrite schedule_new in Hrun by done. by injection Hrun as _ <-.
Qed.

(** A job is put to wait together with a fresh event for it. *)
Lemma put_waiting id job reason avail eid now s :
  woken s -> no_colon id -> 0 <= j_attempt_count job -> waiting (j_status job) = true -> outbox_of s !! eid = None ->
  (forall old, jobs_of s !! id = Some old -> j_attempt_count old <= j_attempt_count job) ->
  (j_next_attempt_at job = None \/ j_next_attempt_at job = Some avail) ->
  woken (put_event eid (dispatch_event id job reason avail now) (put_job id job s)).
Proof.
  intros (Ha & Hw & Hids) Hid Hpos Hwt Hn Hold Hnext.
  assert (Hnb : busy (j_status job) = false).
  { unfold busy, waiting in *. apply bool_decide_eq_true in Hwt. apply bool_decide_eq_false.
    rewrite !elem_of_cons, elem_of_nil in *. destruct (j_status job); naive_solver. }
  split_and!.
  - intros i e. rewrite outbox_put_event, jobs_put_event, outbox_put_job, jobs_put_job.
    destruct (decide (i = eid)) as [->|Hne].
    + rewrite lookup_insert_eq. intros [= <-]. exists id, (j_attempt_count job), reason, job. rewrite lookup_insert_eq.
      do 2 (split; [done|]). split; [lia|]. congruence.
    + rewrite lookup_insert_ne by done. intros He. destruct (Ha i e He) as (id' & n & r & j & Hk & Hj & Hn' & Hs').
      destruct (decide (id' = id)) as [->|Hne'].
      * exists id, n, r, job. rewrite lookup_insert_eq. specialize (Hold j Hj).
        do 2 (split; [done|]). split; [lia|congruence].
      * exists id', n, r, j. by rewrite lookup_insert_ne.
  - intros i j. rewrite outbox_put_event, jobs_put_event, outbox_put_job, jobs_put_job. destruct (decide (i = id)) as [->|Hne].
    + rewrite lookup_insert_eq. intros [= <-] _. exists eid, (dispatch_event id job reason avail now), reason.
      rewrite lookup_insert_eq. done.
    + rewrite lookup_insert_ne by done. intros Hj Hwj. destruct (Hw i j Hj Hwj) as (i' & e & r & He & Hrest).
      exists i', e, r. rewrite lookup_insert_ne; [done|]. intros ->. congruence.
  - intros i j. rewrite jobs_put_event, jobs_put_job. destruct (decide (i = id)) as [->|Hne].
    + rewrite lookup_insert_eq. by intros [= <-].
    + rewrite lookup_insert_ne by done. apply Hids.
Qed.

(** Sending a busy job back to wait. *)
Lemma send_back_woken id job job' reason avail eid now u s s' :
  woken s -> jobs_of s !! id = Some job -> busy (j_status job) = true -> sent_back reason ->
  j_status job' = JobRetry -> j_attempt_count job' = j_attempt_count job -> j_next_attempt_at job' = Some avail ->
  schedule_job_dispatch id job' reason avail eid now (put_job id job' s) = (Ok u, s') ->
  woken s' /\ outbox_of s !! eid = None /\
  s' = put_event eid (dispatch_event id job' reason avail now) (put_job id job' s).
Proof.
  intros Hs Hj Hb Hr Hst Ha Hnext Hrun. pose proof (fresh_key id job reason s Hs Hj Hb Hr) as Hk.
  apply schedule_ok in Hrun as [Hn ->]; [|by rewrite Ha, outbox_put_job]. rewrite outbox_put_job in Hn.
  split; [|done]. destruct (proj2 (proj2 Hs) id job Hj) as [Hid Hpos].
  apply put_waiting; try done; [lia|by rewrite Hst| |by right].
  intros old Ho. assert (old = job) as -> by congruence. lia.
Qed.

Lemma enqueue_keeps kb jtype key payload dv iv max new_id event_id t :
  no_colon new_id -> keeps woken (enqueue_knowledge_job kb jtype key payload dv iv max new_id event_id t).
Proof.
  intros Hid s r s' Hs Hrun. unfold enqueue_knowledge_job in Hrun. erewrite op_bind_ok in Hrun; [|reflexivity].
  destruct (job_of_key key _) as [[i j]|]; [by injection Hrun as _ <-|].
  erewrite op_bind_ok in Hrun; [|reflexivity]. case_bool_decide as Ht; [done|].
  assert (Hnone : jobs_of s !! new_id = None).
  { apply eq_None_not_Some. exact Ht. }
  erewrite op_bind_ok in Hrun; [|reflexivity]. simpl snd in Hrun.
  apply op_bind_inv in Hrun as (u & s1 & Hsched & Hret). injection Hret as _ <-.
  match type of Hsched with schedule_job_dispatch _ ?j _ _ _ _ ?s0 = _ =>
    change s0 with (put_job new_id j s) in Hsched end.
  pose proof Hs as (Ha & _). apply schedule_ok in Hsched as [Hn ->].
  - rewrite outbox_put_job in Hn. apply put_waiting; try done; [|by left].
    intros old Ho. congruence.
  - rewrite outbox_put_job. apply event_of_key_None. intros i e He Hk.
    destruct (Ha i e He) as (id' & n & r0 & job & Hk' & Hj & _). rewrite Hk' in Hk.
    destruct (proj2 (proj2 Hs) id' job Hj) as [Hc _].
    apply dispatch_key_inj in Hk as (-> & _); [congruence|done..].
Qed.

Lemma claim_keeps id worker_id locked t : keeps woken (claim_knowledge_job id worker_id locked t).
Proof.
  intros s r s' Hs Hrun. destruct (claim_cases id worker_id locked t s) as [(job & _ & Hj & _ & He)|He]; rewrite He in Hrun;
    injection Hrun as _ <-; [|done]. eapply put_job_woken; [done|exact Hj|done|simpl; lia|]. simpl. right. lia.
Qed.

Lemma on_row_keeps {A} id (f : IngestionJob -> op S A) :
  (forall job s r s', jobs_of s !! id = Some job -> woken s -> f job s = (Ok r, s') -> woken s') -> keeps woken (on_row id f).
Proof.
  intros Hf s r s' Hs Hrun. unfold on_row in Hrun. erewrite op_bind_ok in Hrun; [|reflexivity].
  destruct (jobs_of s !! id) as [job|] eqn:Hj; [|by injection Hrun as _ <-].
  apply op_bind_inv in Hrun as (a & s1 & Hrun & Hret). injection Hret as _ <-. by eapply Hf.
Qed.

Lemma processing_busy worker_id job : holds_lease worker_id job = true -> busy (j_status job) = true.
Proof. intros [Hst _]%holds_lease_true. by rewrite Hst. Qed.

Lemma heartbeat_keeps id worker_id t : keeps woken (on_row id (fun job => heartbeat_knowledge_job id job worker_id t)).
Proof.
  apply on_row_keeps. intros job s r s' Hj Hs Hrun. unfold heartbeat_knowledge_job in Hrun.
  destruct (holds_lease worker_id job) eqn:Hl; cbn [negb] in Hrun; [|by injection Hrun as _ <-].
  erewrite op_bind_ok in Hrun; [|by apply save_job_run]. injection Hrun as _ <-.
  apply holds_lease_true in Hl as [Hst _]. eapply put_job_woken; [done|exact Hj|simpl; by rewrite Hst|simpl; lia|by left].
Qed.

Lemma complete_keeps id worker_id t : keeps woken (on_row id (fun job => complete_knowledge_job id job worker_id t)).
Proof.
  apply on_row_keeps. intros job s r s' Hj Hs Hrun. unfold complete_knowledge_job in Hrun.
  destruct (holds_lease worker_id job) eqn:Hl; cbn [negb] in Hrun; [|by injection Hrun as _ <-].
  erewrite op_bind_ok in Hrun; [|by apply save_job_run]. injection Hrun as _ <-.
  eapply put_job_woken; [done|exact Hj|done|simpl; lia|done].
Qed.

Lemma fail_keeps id worker_id error code retryable event_id t :
  keeps woken (on_row id (fun job => fail_knowledge_job id job worker_id error code retryable event_id t)).
Proof.
  apply on_row_keeps. intros job s r s' Hj Hs Hrun. destruct (holds_lease worker_id job) eqn:Hl.
  2:{ unfold fail_knowledge_job in Hrun. rewrite Hl in Hrun. by injection Hrun as _ <-. }
  pose proof (processing_busy _ _ Hl) as Hb.
  destruct (negb retryable || (max_of job <=? j_attempt_count job)) eqn:Hd.
  - unfold fail_knowledge_job in Hrun. rewrite Hl in Hrun. cbn [negb] in Hrun. cbv zeta in Hrun. fold (max_of job) in Hrun.
    rewrite Hd in Hrun. erewrite op_bind_ok in Hrun; [|by apply save_job_run]. injection Hrun as _ <-.
    eapply put_job_woken; [done|exact Hj|done|simpl; lia|done].
  - apply orb_false_iff in Hd as [Hre Ha]. destruct retryable; [|done]. apply Z.leb_gt in Ha.
    rewrite (fail_retries id worker_id job) in Hrun by done.
    apply op_bind_inv in Hrun as (u & s1 & Hsched & Hret). injection Hret as _ <-.
    eapply send_back_woken in Hsched as [? _]; try done. by left.
Qed.

(** What the sweep makes of one job. *)
Lemma recover_one now eid id job s :
  jobs_of s !! id = Some job ->
  recover_job now eid (id, job) s =
    if max_of job <=? j_attempt_count job then (Ok tt, put_job id (recovered now job) s)
    else schedule_job_dispatch id (recovered now job) "lease-expired" now (eid id) now (put_job id (recovered now job) s).
Proof.
  intros Hj. unfold recover_job. cbn [fst snd]. cbv zeta. erewrite op_bind_ok; [|by apply save_job_run].
  assert (Hst : j_status (recovered now job) = if max_of job <=? j_attempt_count job then JobDead else JobRetry).
  { unfold recovered, max_of. by destruct (_ <=? j_attempt_count job). }
  rewrite Hst. by destruct (max_of job <=? j_attempt_count job).
Qed.

Lemma recovered_shape now job :
  if max_of job <=? j_attempt_count job then j_status (recovered now job) = JobDead
  else j_status (recovered now job) = JobRetry /\ j_next_attempt_at (recovered now job) = Some now.
Proof. unfold recovered, max_of. by destruct (_ <=? j_attempt_count job). Qed.

Lemma recovered_attempts now job : j_attempt_count (recovered now job) = j_attempt_count job.
Proof. unfold recovered. by case_match. Qed.

Lemma stale_busy now job : stale now job = true -> busy (j_status job) = true.
Proof. unfold stale. by intros [Hb _]%andb_true_iff. Qed.

Lemma recover_one_woken now eid id job s u s' :
  woken s -> jobs_of s !! id = Some job -> busy (j_status job) = true ->
  recover_job now eid (id, job) s = (Ok u, s') ->
  woken s' /\ (forall i, i <> id -> jobs_of s' !! i = jobs_of s !! i).
Proof.
  intros Hs Hj Hb Hrun. rewrite recover_one in Hrun by done. pose proof (recovered_shape now job) as Hsh.
  pose proof (recovered_attempts now job) as Ha.
  destruct (max_of job <=? j_attempt_count job).
  - injection Hrun as _ <-. split.
    + eapply put_job_woken; [done|exact Hj|by rewrite Hsh|by rewrite Ha|by rewrite Hsh].
    + intros i Hi. by rewrite jobs_put_job, lookup_insert_ne.
  - destruct Hsh as [Hst Hnext]. eapply send_back_woken in Hrun as (Hw & _ & ->); try done; [|by right].
    split; [done|]. intros i Hi. by rewrite jobs_put_event, jobs_put_job, lookup_insert_ne.
Qed.

Lemma recover_all_woken now eid l s r s' :
  NoDup l.*1 -> Forall (fun kv => jobs_of s !! kv.1 = Some kv.2 /\ busy (j_status kv.2) = true) l ->
  woken s -> for_each (recover_job now eid) l s = (Ok r, s') -> woken s'.
Proof.
  revert s r s'. induction l as [|[id job] l IH]; intros s r s' Hnd Hl Hs Hrun; [by injection Hrun as _ <-|].
  apply NoDup_cons in Hnd as [Hni Hnd]. apply Forall_cons in Hl as [[Hj Hb] Hl]. cbn [for_each] in Hrun.
  apply op_bind_inv in Hrun as (u & s1 & Hone & Hrun). apply op_bind_inv in Hrun as (bs & s2 & Hrest & Hret).
  injection Hret as _ <-. eapply recover_one_woken in Hone as [Hw Hsame]; try done.
  eapply IH; [done| |exact Hw|exact Hrest].
  rewrite Forall_forall in Hl |- *. intros [i j] Hin. destruct (Hl _ Hin) as [Hi Hbi]. split; [|done].
  simpl. rewrite Hsame; [done|]. intros ->. apply Hni. by apply (list_elem_of_fmap_2 fst) in Hin.
Qed.

Lemma stale_jobs_NoDup nulls_first locked limit now t : NoDup (stale_jobs nulls_first locked limit now t).*1.
Proof.
  unfold stale_jobs. rewrite fmap_take. eapply sublist_NoDup; [|apply sublist_take].
  rewrite merge_sort_Permutation. eapply sublist_NoDup; [apply (NoDup_fst_map_to_list t)|].
  apply fmap_sublist, sublist_filter.
Qed.

Lemma recover_keeps nulls_first locked limit now eid :
  keeps woken (recover_stale_knowledge_jobs nulls_first locked limit now eid).
Proof.
  intros s r s' Hs Hrun. unfold recover_stale_knowledge_jobs in Hrun. erewrite op_bind_ok in Hrun; [|reflexivity].
  apply op_bind_inv in Hrun as (a & s1 & Hrun & Hret). injection Hret as _ <-.
  eapply recover_all_woken; [apply stale_jobs_NoDup| |exact Hs|exact Hrun].
  apply Forall_forall. intros [i j] (Hj & Hst & _)%stale_jobs_spec. split; [done|by eapply stale_busy].
Qed.

Lemma relayed_keeps t i : keeps woken (on_table (modify (alter (processed_of t) i : outbox -> outbox)) : op S unit).
Proof.
  intros s r s' (Ha & Hw & Hids) Hrun. unfold on_table in Hrun. simpl in Hrun. injection Hrun as _ <-.
  change (rows s) with (outbox_of s).
  assert (Hjobs : jobs_of (set_rows (alter (processed_of t) i (outbox_of s)) s) = jobs_of s) by apply rows_other.
  assert (Hev : outbox_of (set_rows (alter (processed_of t) i (outbox_of s)) s) = alter (processed_of t) i (outbox_of s)) by apply rows_set.
  split_and!.
  - intros k e. rewrite Hjobs, Hev. intros He. destruct (decide (k = i)) as [->|Hne].
    + rewrite lookup_alter_eq in He. destruct (outbox_of s !! i) as [e0|] eqn:He0; [|done]. injection He as <-. by apply (Ha i e0).
    + rewrite lookup_alter_ne in He by done. by apply (Ha k e).
  - intros id job. rewrite Hjobs. intros Hj Hwj. destruct (Hw id job Hj Hwj) as (k & e & r0 & He & Hrest). rewrite Hev.
    destruct (decide (k = i)) as [->|Hne].
    + exists i, (processed_of t e), r0. rewrite lookup_alter_eq, He. done.
    + exists k, e, r0. by rewrite lookup_alter_ne.
  - intros id job. rewrite Hjobs. apply Hids.
Qed.

(** Calls other than a manual retry; the ids drawn for jobs are uuids. *)
Definition automatic (ta : Z * action) : Prop :=
  match ta.2 with
  | AEnqueue _ _ _ _ _ _ _ new_id _ => no_colon new_id
  | ARetryDead _ _ => False
  | _ => True
  end.

Lemma transaction_woken ta s : automatic ta -> woken s -> woken (transaction ta s).2.
Proof.
  destruct ta as [t a]. intros Ha Hs. unfold transaction; simpl. destruct (exec t a s) as [[g|e] s'] eqn:Hrun; [|done].
  simpl. enough (keeps woken (exec t a)) as Hk by (by eapply Hk).
  destruct a as [kb jt key pl dv iv mx nid eid|i w lk|i w|i w|i w er co re eid|nf lk li eid|i eid|eid];
    (apply keeps_bind; [|intros; apply keeps_ret]).
  - by apply enqueue_keeps.
  - apply claim_keeps.
  - apply heartbeat_keeps.
  - apply complete_keeps.
  - apply fail_keeps.
  - apply recover_keeps.
  - done.
  - apply relayed_keeps.
Qed.

Lemma run_woken acts s : Forall automatic acts -> woken s -> woken (run acts s).2.
Proof.
  intros Hacts. revert s. induction Hacts as [|ta acts Hta _ IH]; intros s Hs; [done|]. simpl.
  pose proof (transaction_woken ta s Hta Hs) as H1'. destruct (transaction ta s) as [g s1]. specialize (IH s1 H1').
  by destruct (run acts s1).
Qed.

Lemma empty_woken s : jobs_of s = ∅ -> outbox_of s = ∅ -> woken s.
Proof.
  intros Hj Ho. split_and!.
  - intros i e. by rewrite Ho, lookup_empty.
  - intros id job. by rewrite Hj, lookup_empty.
  - intros id job. by rewrite Hj, lookup_empty.
Qed.

(** C10: From empty tables, over any calls but manual retries, every waiting job
    has an outbox event that becomes available when the job does; and whenever
    a failure or an expired lease sends a job back to wait, a new pending event
    is written for it, so the job is delivered again and never left waiting
    for nothing. *)
Theorem waiting_jobs_are_woken acts s0 :
  jobs_of s0 = ∅ -> outbox_of s0 = ∅ -> Forall automatic acts ->
  let s := (run acts s0).2 in
  (forall id job, jobs_of s !! id = Some job -> waiting (j_status job) = true ->
     exists i e, outbox_of s !! i = Some e /\ aggregate_id e = id /\
       (j_next_attempt_at job = None \/ j_next_attempt_at job = Some (available_at e))) /\
  (forall id job worker_id error code eid now, jobs_of s !! id = Some job -> holds_lease worker_id job = true ->
     j_attempt_count job < max_of job -> outbox_of s !! eid = None ->
     exists r s' e, fail_knowledge_job id job worker_id error code true eid now s = (Ok r, s') /\
       failure_status r = JobRetry /\ outbox_of s' = <[eid := e]> (outbox_of s) /\ aggregate_id e = id /\
       oe_status e = EvPending /\ failure_next r = Some (available_at e)) /\
  (forall id job eid now, jobs_of s !! id = Some job -> stale now job = true ->
     j_attempt_count job < max_of job -> outbox_of s !! eid id = None ->
     exists s' e, recover_job now eid (id, job) s = (Ok tt, s') /\ outbox_of s' = <[eid id := e]> (outbox_of s) /\
       aggregate_id e = id /\ oe_status e = EvPending /\ available_at e = now).
Proof.
  intros Hj0 Ho0 Hacts s. pose proof (run_woken acts s0 Hacts (empty_woken s0 Hj0 Ho0)) as Hs. fold s in Hs.
  split; [|split].
  - intros id job Hj Hw. destruct (proj1 (proj2 Hs) id job Hj Hw) as (i & e & r & He & _ & Hagg & Hav). eauto.
  - intros id job w error code eid now Hj Hl Ha Hn. rewrite (fail_retries id w job) by done.
    pose proof (fresh_key id job "retry" s Hs Hj (processing_busy _ _ Hl) ltac:(by left)) as Hk.
    eexists _, _, _. split; [erewrite op_bind_ok; [reflexivity|]|].
    { apply schedule_new; by rewrite outbox_put_job. }
    split; [done|]. split; [rewrite outbox_put_event, outbox_put_job; reflexivity|]. done.
  - intros id job eid now Hj Hst Ha Hn. rewrite recover_one by done.
    rewrite (proj2 (Z.leb_gt _ _)) by done.
    pose proof (fresh_key id job "lease-expired" s Hs Hj (stale_busy _ _ Hst) ltac:(by right)) as Hk.
    eexists _, _. split.
    { apply schedule_new; [by rewrite recovered_attempts, outbox_put_job|by rewrite outbox_put_job]. }
    split; [rewrite outbox_put_event, outbox_put_job; reflexivity|]. done.
Qed.

(** ** Enqueueing and manual retries *)

Lemma job_of_key_Some k t id job : job_of_key k t = Some (id, job) -> t !! id = Some job /\ j_idempotency_key job = k.
Proof.
  unfold job_of_key. intros Hh%head_Some_elem_of. apply list_elem_of_filter in Hh as [Hk Hin].
  apply elem_of_map_to_list in Hin. done.
Qed.

Lemma job_of_key_is_Some k t id job : t !! id = Some job -> j_idempotency_key job = k -> is_Some (job_of_key k t).
Proof.
  intros Hid Hk. unfold job_of_key. apply head_is_Some. intros Hf.
  assert (Hin : (id, job) ∈ filter (has_job_key k) (map_to_list t)).
  { apply list_elem_of_filter. split; [done|]. by apply elem_of_map_to_list. }
  rewrite Hf in Hin. by apply elem_of_nil in Hin.
Qed.

(** Enqueueing a job is idempotent in its key: a second call, whatever it
    carries, answers a job of that key and changes neither jobs nor outbox, so
    nothing is dispatched twice. *)
Theorem enqueue_knowledge_job_once kb jtype key payload dv iv max new_id eid now s id s' :
  enqueue_knowledge_job kb jtype key payload dv iv max new_id eid now s = (Ok id, s') ->
  (exists job, jobs_of s' !! id = Some job /\ j_idempotency_key job = key) /\
  (forall i job, jobs_of s !! i = Some job -> jobs_of s' !! i = Some job) /\
  (forall kb' jt' pl' dv' iv' mx' nid' eid' now', exists id',
     enqueue_knowledge_job kb' jt' key pl' dv' iv' mx' nid' eid' now' s' = (Ok id', s') /\
     exists job, jobs_of s' !! id' = Some job /\ j_idempotency_key job = key).
Proof.
  intros Hrun.
  assert (Hmain : (exists job, jobs_of s' !! id = Some job /\ j_idempotency_key job = key) /\
    (forall i job, jobs_of s !! i = Some job -> jobs_of s' !! i = Some job)).
  { unfold enqueue_knowledge_job in Hrun. erewrite op_bind_ok in Hrun; [|reflexivity].
    destruct (job_of_key key _) as [[i j]|] eqn:Hk.
    { injection Hrun as -> <-. apply job_of_key_Some in Hk as [Hi Hk]. split; [eauto|done]. }
    erewrite op_bind_ok in Hrun; [|reflexivity]. case_bool_decide as Ht; [done|].
    erewrite op_bind_ok in Hrun; [|reflexivity]. simpl snd in Hrun.
    apply op_bind_inv in Hrun as (u & s1 & Hsched & Hret). injection Hret as <- <-.
    match type of Hsched with schedule_job_dispatch ?i ?j ?r ?a ?e ?n ?s0 = _ =>
      change s0 with (put_job new_id j s) in Hsched;
      pose proof (schedule_jobs i j r a e n _ (put_job new_id j s) eq_refl) as Hjobs end.
    rewrite Hsched in Hjobs. simpl in Hjobs. rewrite Hjobs, jobs_put_job. split; [eexists; by rewrite lookup_insert_eq|].
    intros i job Hi. rewrite lookup_insert_ne; [done|]. intros ->. apply Ht. unfold jobs_of in Hi. by eexists. }
  split; [apply Hmain|]. split; [apply Hmain|]. intros.
  destruct Hmain as [(job & Hj & Hk) _]. destruct (job_of_key_is_Some key (jobs_of s') id job Hj Hk) as [[i j] Hf].
  exists i. split; [|apply job_of_key_Some in Hf; eauto]. unfold enqueue_knowledge_job. erewrite op_bind_ok; [|reflexivity].
  change (rows s') with (jobs_of s'). by rewrite Hf.
Qed.

(** A manual retry succeeds only for a dead job retried fewer than ten times
    before: it counts itself, starts the attempts over, forgets the last error
    and dispatches the job now; in every other case it raises and leaves the
    database alone. *)
Theorem retry_dead_correct id eid now s :
  match retry_dead_knowledge_job id eid now s with
  | (Ok job', s') =>
      exists job n, jobs_of s !! id = Some job /\ j_status job = JobDead /\
        int_or 0 (field manual_key (j_payload job)) = Ok n /\ n < 10 /\
        int_or 0 (field manual_key (j_payload job')) = Ok (n + 1) /\
        jobs_of s' = <[id := job']> (jobs_of s) /\ j_status job' = JobPending /\ j_attempt_count job' = 0 /\
        j_next_attempt_at job' = None /\ j_error_message job' = None /\
        exists i e, outbox_of s' !! i = Some e /\
          oe_idempotency_key e = dispatch_key id 0 ("manual-retry-" +:+ pretty (n + 1))
  | (Raise e, s') =>
      outbox_of s' = outbox_of s /\
      (jobs_of s' = jobs_of s \/ e = OtherError "IntegrityError")
  end.
Proof.
  unfold retry_dead_knowledge_job. erewrite op_bind_ok; [|reflexivity]. change (rows s) with (jobs_of s).
  destruct (jobs_of s !! id) as [job|] eqn:Hj; [|by split; [|left]]. case_bool_decide as Hd; cbn [negb]; [|by split; [|left]].
  destruct (int_or 0 _) as [n|e] eqn:Hn; [|by split; [|left]]. destruct (Z.ltb_spec 10 (n + 1)); [by split; [|left]|]. cbv zeta.
  set (job' := job_with _ _ _ _ _ _ _ _ _ _ _ _). erewrite op_bind_ok; [|by apply save_job_run].
  set (reason := "manual-retry-" +:+ pretty (n + 1)).
  assert (Hfields : int_or 0 (field manual_key (j_payload job')) = Ok (n + 1)) by (unfold job'; cbn [j_payload job_with]; rewrite field_set; apply int_or_int).
  pose proof (schedule_jobs id job' reason now eid now _ (put_job id job' s) eq_refl) as Hjobs.
  destruct (event_of_key (dispatch_key id (j_attempt_count job') reason) (outbox_of (put_job id job' s))) as [[i e]|] eqn:Hk.
  - erewrite op_bind_ok; [|by eapply schedule_existing]. apply event_of_key_Some in Hk as [Hi Hk].
    exists job, n. rewrite jobs_put_job. split_and!; try done; [lia|]. eauto.
  - destruct (outbox_of s !! eid) as [e|] eqn:He.
    + assert (Hraise : exists s', schedule_job_dispatch id job' reason now eid now (put_job id job' s) = (Raise (OtherError "IntegrityError"), s')
        /\ outbox_of s' = outbox_of s).
      { unfold schedule_job_dispatch, mbind, op_bind, on_table. change (rows (put_job id job' s)) with (outbox_of (put_job id job' s)).
        unfold enqueue_outbox_event. erewrite op_bind_ok; [|reflexivity]. rewrite Hk. erewrite op_bind_ok; [|reflexivity].
        rewrite bool_decide_true by (rewrite outbox_put_job, He; by eexists). eexists. split; [reflexivity|].
        unfold outbox_of. rewrite rows_set. apply outbox_put_job. }
      destruct Hraise as (s' & Hraise & Ho). erewrite op_bind_raise; [|exact Hraise]. auto.
    + erewrite op_bind_ok; [|apply schedule_new; [done|by rewrite outbox_put_job]].
      exists job, n. rewrite jobs_put_event, jobs_put_job. split_and!; try done; [lia|].
      eexists eid, _. rewrite outbox_put_event, lookup_insert_eq. split; [reflexivity|]. done.
Qed.
End facts.

(** ** Instances *)

(** Decimal digits only, for evaluation. *)
Definition digits_value (s : text) : option Z :=
  match s with
  | [] => None
  | _ => foldl (fun acc c => n ← acc; if (48 <=? c) && (c <=? 57) then Some (10 * n + (c - 48)) else None) (Some 0) s
  end.

Definition sample_ints : PyInt := {| int_of_str := digits_value; int_of_float _ := None |}.

Section examples.
#[local] Existing Instance default_settings.
#[local] Existing Instance sample_ints.

Definition sample_actions : list (Z * action) :=
  [(seconds 0, AEnqueue "kb" "parse" "doc-1" [] None None (Some 2) "j" "e0"); (seconds 1, AClaim "j" "w" false)]%string.

Definition empty_db : KnowledgeDB := MkKnowledgeDB ∅ ∅.
Definition sample_db : KnowledgeDB := (run sample_actions empty_db).2.

Lemma claimed_sample : jobs_of sample_db !! "j"%string = Some
  (MkIngestionJob "kb" None None "parse" JobProcessing 1 2 (Some "w"%string) (Some (seconds 121)) "doc-1" [] None None None 0
     (Some (seconds 1)) None (seconds 1)).
Proof. vm_compute. reflexivity. Qed.

Lemma live_lease_exclusive_witness :
  let acts := [(seconds 30, AClaim "j" "w2" false); (seconds 40, AFail "j" "w2" [] [] true "e1");
               (seconds 50, ARecover false ∅ 100 (fun _ => "e2"))]%string in
  held "j" "w" (seconds 121) (run acts sample_db).2 /\ ("j", "w2")%string ∉ (run acts sample_db).1.
Proof.
  intros acts. destruct (live_lease_exclusive "j" "w" (seconds 121) acts sample_db) as [Hh Hg].
  - eexists _, _. split; [exact claimed_sample|]. split; [reflexivity|]. split; [reflexivity|]. split; [reflexivity|].
    vm_compute. discriminate.
  - repeat constructor; simpl; congruence.
  - split; [exact Hh|apply Hg].
Defined.

Lemma claim_knowledge_job_correct_witness :
  exists job', claim_knowledge_job "j" "w3" false (seconds 200) sample_db = (Ok (Some job'), put_job "j" job' sample_db) /\
    j_attempt_count job' = 2.
Proof.
  destruct (proj1 (claim_knowledge_job_correct "j" "w3" false (seconds 200) sample_db) _ eq_refl claimed_sample)
    as (job' & Hrun & _ & Ha & _).
  - split; [right; split; [apply (bool_decide_unpack _); vm_compute; exact I|]|discriminate].
    intros u [= <-]. vm_compute. discriminate.
  - exists job'. split; [exact Hrun|exact Ha].
Defined.

Lemma finish_knowledge_job_correct_witness :
  exists r s', fail_knowledge_job "j" (match jobs_of sample_db !! "j"%string with Some j => j | None => recovered 0 (MkIngestionJob "" None None "" JobDead 0 0 None None "" [] None None None 0 None None 0) end)
    "w" [] [] true "e1" (seconds 9) sample_db = (Ok r, s') /\ failure_status r = JobRetry.
Proof.
  destruct (finish_knowledge_job_correct "j" "w" _ [] [] true "e1" (seconds 9) sample_db claimed_sample)
    as [_ Hown]; [simpl; lia|vm_compute; reflexivity|].
  destruct (Hown eq_refl) as [_ (r & job' & s' & Hrun & _ & Hr & _ & _ & _ & _ & Hdead & Hretry)].
  rewrite claimed_sample. exists r, s'. split; [exact Hrun|]. rewrite Hr.
  destruct (Hretry ltac:(intros Hd; apply Hdead in Hd as [|Hd]; [done|vm_compute in Hd; by apply Hd])) as [Hst _]. exact Hst.
Defined.

Lemma waiting_jobs_are_woken_witness :
  exists i e, outbox_of (run (take 1 sample_actions) empty_db).2 !! i = Some e /\ aggregate_id e = "j"%string.
Proof.
  destruct (waiting_jobs_are_woken (take 1 sample_actions) empty_db) as [Hw _].
  - reflexivity.
  - reflexivity.
  - constructor; [|constructor]. cbn. unfold no_colon. apply (bool_decide_unpack _). vm_compute. exact I.
  - destruct (Hw "j"%string (MkIngestionJob "kb" None None "parse" JobPending 0 2 None None "doc-1" [] None None None 0 None None 0))
      as (i & e & He & Ha & _); [vm_compute; reflexivity|reflexivity|]. exists i, e. split; [exact He|exact Ha].
Defined.

Lemma enqueue_knowledge_job_once_witness :
  exists id', enqueue_knowledge_job "kb" "other" "doc-1" [] None None None "k" "e9" (seconds 5)
    (enqueue_knowledge_job "kb" "parse" "doc-1" [] None None None "j" "e0" 0 empty_db).2
    = (Ok id', (enqueue_knowledge_job "kb" "parse" "doc-1" [] None None None "j" "e0" 0 empty_db).2).
Proof.
  destruct (enqueue_knowledge_job_once "kb" "parse" "doc-1" [] None None None "j" "e0" 0 empty_db "j"
    (enqueue_knowledge_job "kb" "parse" "doc-1" [] None None None "j" "e0" 0 empty_db).2) as (_ & _ & Hagain).
  - vm_compute. reflexivity.
  - destruct (Hagain "kb"%string "other"%string [] None None None "k"%string "e9"%string (seconds 5)) as (id' & Hrun & _).
    exists id'. exact Hrun.
Defined.

(** A job that dies after two attempts, is retried by hand, and fails again;
    the relay has delivered every event. *)
Definition stranding_actions : list (Z * action) :=
  [(seconds 0, AEnqueue "kb" "parse" "doc-1" [] None None (Some 2) "j" "e0"); (seconds 1, ARelayed "e0");
   (seconds 1, AClaim "j" "w" false); (seconds 2, AFail "j" "w" [] [] true "e1"); (seconds 8, ARelayed "e1");
   (seconds 8, AClaim "j" "w" false); (seconds 9, AFail "j" "w" [] [] true "e2");
   (seconds 20, ARetryDead "j" "e2"); (seconds 21, ARelayed "e2");
   (seconds 21, AClaim "j" "w" false); (seconds 22, AFail "j" "w" [] [] true "e3")]%string.

(** A manual retry starts the attempt count over, and with it the dispatch
    keys: when such a job fails again, the event of its retry carries the key
    of the first round's, which the outbox answers without writing anything.
    The job then waits for a delivery no event will ever make, and no sweep
    picks it up. *)
Theorem manual_retry_strands_job :
  let s := (run stranding_actions empty_db).2 in
  (exists job, jobs_of s !! "j"%string = Some job /\ j_status job = JobRetry /\ j_next_attempt_at job = Some (seconds 27) /\
     j_attempt_count job = 1 /\ j_max_attempts job = 2) /\
  (forall i e, outbox_of s !! i = Some e -> oe_status e = EvProcessed /\ forall t, due t e = false) /\
  (forall nulls_first locked limit now event_id,
     recover_stale_knowledge_jobs nulls_first locked limit now event_id s = (Ok 0%nat, s)).
Proof.
  intros s. split; [|split].
  - eexists. split; [vm_compute; reflexivity|]. done.
  - assert (Hall : map_Forall (fun _ e => oe_status e = EvProcessed) (outbox_of s)).
    { apply (bool_decide_unpack _). vm_compute. exact I. }
    intros i e He. pose proof (Hall i e He) as Hp. simpl in Hp. split; [done|]. intros t. unfold due. rewrite Hp. apply andb_false_r.
  - assert (Hall : map_Forall (fun _ j => j_status j = JobRetry) (jobs_of s)).
    { apply (bool_decide_unpack _). vm_compute. exact I. }
    intros nf lk li now eid. unfold recover_stale_knowledge_jobs. erewrite op_bind_ok; [|reflexivity].
    assert (Hnone : stale_jobs nf lk li now (rows s) = []).
    { destruct (stale_jobs nf lk li now (rows s)) as [|[i j] l] eqn:Hst; [done|].
      assert (Hin : (i, j) ∈ stale_jobs nf lk li now (rows s)) by (rewrite Hst; apply list_elem_of_here).
      apply stale_jobs_spec in Hin as (Hi & Hs & _). specialize (Hall i j Hi). simpl in Hall.
      unfold stale in Hs. rewrite Hall in Hs. done. }
    by rewrite Hnone.
Qed.
Definition dead_db : KnowledgeDB := (run (take 7 stranding_actions) empty_db).2.

Lemma retry_dead_correct_witness :
  exists job' s', retry_dead_knowledge_job "j" "e2" (seconds 20) dead_db = (Ok job', s') /\ j_attempt_count job' = 0.
Proof.
  pose proof (retry_dead_correct "j" "e2" (seconds 20) dead_db) as Hretry.
  destruct (retry_dead_knowledge_job "j" "e2" (seconds 20) dead_db) as [[job'|e] s'] eqn:Hrun.
  - destruct Hretry as (job & n & _ & _ & _ & _ & _ & _ & _ & Ha & _). exists job', s'. split; [reflexivity|exact Ha].
  - vm_compute in Hrun. discriminate Hrun.
Defined.
End examples.
