(* ===== verification/MemoryJobs.v ===== *)
(** * Memory extraction jobs

    [memory_job_service.py], its twin [project_memory_job_service.py] and the
    job operations of [memory_job_admin_service.py].  The two services share
    their shape and differ in whose job it is (a user id or a project id), in
    the names they give their events and in what allows a job at all; what
    differs is the class [MemoryScope], and the modules [User] and [Project]
    give each service its functions.

    [now] is [utcnow()] during the call, [locked] says another transaction
    holds the row, [new_id] and [event_id] are the uuids drawn.  Where the code
    reads, then writes under a savepoint that may lose to a concurrent
    transaction, [race] is what the others commit in between. *)

From S2P Require Import Prelude Text Json PyText Outbox.

(** ** Rows *)

Inductive mem_status := MemPending | MemRetry | MemRunning | MemSucceeded | MemDead.

#[export] Instance mem_status_eq_dec : EqDecision mem_status.
Proof. solve_decision. Defined.

Definition OPEN_STATUSES : list mem_status := [MemPending; MemRetry].
Definition CLAIMABLE_STATUSES : list mem_status := [MemPending; MemRetry; MemRunning].

(** [Who] is the type of the owner: a user's id, or a project's. *)
Record MemoryJob (Who : Type) := MkMemoryJob {
  owner : Who;
  session_id : string;
  m_status : mem_status;
  watermark_sequence : Z;
  extracted_sequence : Z;
  run_after : Z;
  m_attempt_count : Z;
  m_max_attempts : Z;
  lease_expires_at : option Z;
  m_worker_id : option string;
  m_last_error : option text;
  m_created_at : Z;
  m_updated_at : Z
}.
Arguments MkMemoryJob {Who}.
Arguments owner {Who} _. Arguments session_id {Who} _. Arguments m_status {Who} _.
Arguments watermark_sequence {Who} _. Arguments extracted_sequence {Who} _. Arguments run_after {Who} _.
Arguments m_attempt_count {Who} _. Arguments m_max_attempts {Who} _. Arguments lease_expires_at {Who} _.
Arguments m_worker_id {Who} _. Arguments m_last_error {Who} _. Arguments m_created_at {Who} _. Arguments m_updated_at {Who} _.

#[export, program] Instance memory_row `{EqDecision Who} : Row (MemoryJob Who) := {|
  merge l n c := MkMemoryJob
    (wr (owner l) (owner n) (owner c))
    (wr (session_id l) (session_id n) (session_id c))
    (wr (m_status l) (m_status n) (m_status c))
    (wr (watermark_sequence l) (watermark_sequence n) (watermark_sequence c))
    (wr (extracted_sequence l) (extracted_sequence n) (extracted_sequence c))
    (wr (run_after l) (run_after n) (run_after c))
    (wr (m_attempt_count l) (m_attempt_count n) (m_attempt_count c))
    (wr (m_max_attempts l) (m_max_attempts n) (m_max_attempts c))
    (wr (lease_expires_at l) (lease_expires_at n) (lease_expires_at c))
    (wr (m_worker_id l) (m_worker_id n) (m_worker_id c))
    (wr (m_last_error l) (m_last_error n) (m_last_error c))
    (wr (m_created_at l) (m_created_at n) (m_created_at c))
    (wr (m_updated_at l) (m_updated_at n) (m_updated_at c))
|}.
Next Obligation. intros Who ? [] []; simpl. by rewrite !wr_same. Qed.
Next Obligation. intros Who ? [] []; simpl. by rewrite !wr_nothing. Qed.

(** A job with the columns of its run changed. *)
Definition mem_with {Who} (j : MemoryJob Who) (status : mem_status) (watermark extracted run attempts : Z)
    (lease : option Z) (worker : option string) (error : option text) (updated : Z) : MemoryJob Who :=
  MkMemoryJob (owner j) (session_id j) status watermark extracted run attempts (m_max_attempts j) lease worker error
    (m_created_at j) updated.

Record JobResult := MkJobResult { result_status : mem_status; result_attempts : Z; result_next : option Z }.

(** ** The two services *)

Class MemoryScope (Who : Type) := {
  scope_eq_dec :: EqDecision Who;
  EVENT_TYPE : string;
  AGGREGATE_TYPE : string;
  key_prefix : string;
  debounce_setting : string;
  debounce_default : Z;
  max_wait_setting : string;
  max_wait_default : Z
}.

Definition user_scope : MemoryScope Z := {|
  EVENT_TYPE := "memory.job.ready"; AGGREGATE_TYPE := "user_memory_job"; key_prefix := "user-memory:";
  debounce_setting := "extract_debounce_seconds"; debounce_default := 30;
  max_wait_setting := "extract_max_wait_seconds"; max_wait_default := 600
|}.

Definition project_scope : MemoryScope string := {|
  EVENT_TYPE := "project_memory.job.ready"; AGGREGATE_TYPE := "project_memory_job"; key_prefix := "project-memory:";
  debounce_setting := "project_extract_debounce_seconds"; debounce_default := 45;
  max_wait_setting := "project_extract_max_wait_seconds"; max_wait_default := 900
|}.

(** [int(d.timestamp())] of a naive datetime, which Python reads as local time. *)
Class LocalTime := { timestamp : Z -> Z }.

(** ** Chats ([chat.py], [chat_markers.py]) *)

Record ChatSession := MkChatSession {
  cs_user_id : Z;
  cs_project_id : option string;
  private_mode : bool;
  is_member_channel : bool
}.

(** [bool(session.project_id)] *)
Definition in_project (session : ChatSession) : bool :=
  match cs_project_id session with None | Some "" => false | Some _ => true end.

Section messages.
Context `{PyStr}.

Definition PENDING_MARKERS : list text := of_string <$>
  ["__ALPHA_ROUTER_IMAGE_PENDING__"; "__ALPHA_ROUTER_VIDEO_PENDING__"; "__ALPHA_ROUTER_SPEECH_PENDING__"]%string.

Definition is_answer_in_progress (content streaming : option json) : bool :=
  bool_decide (streaming = Some (JBool true)) ||
  match content with Some (JStr c) => bool_decide (strip c ∈ PENDING_MARKERS) | _ => false end.

Definition is_whole_reply (message : list (text * json)) : bool :=
  bool_decide (field (of_string "role") message = Some (JStr (of_string "assistant"))) &&
  negb (is_answer_in_progress (field (of_string "content") message) (field (of_string "streaming") message)).
End messages.

Section scope.
Context `{PyInt} `{LocalTime} `{Settings} {Who : Type} `{MemoryScope Who} {S : Type}
  `{HasTable S OutboxEvent, HasTable S (MemoryJob Who)}.
Implicit Types (job : MemoryJob Who) (jobs : table (MemoryJob Who)).

Definition is_open job : bool := bool_decide (m_status job ∈ OPEN_STATUSES).

Definition same_chat (o : Who) (session : string) job : bool :=
  bool_decide (owner job = o) && bool_decide (session_id job = session).

(** The rows of a chat that satisfy [f]; their order is the database's. *)
Definition chat_rows (o : Who) (session : string) (f : string * MemoryJob Who -> bool) jobs : list (string * MemoryJob Who) :=
  filter (fun kv => same_chat o session kv.2 && f kv = true) (map_to_list jobs).

(** The partial unique index: no other open job for the owner and session of [job]. *)
Definition index_allows (id : string) job jobs : bool :=
  negb (is_open job) ||
  bool_decide (chat_rows (owner job) (session_id job) (fun kv => is_open kv.2 && negb (bool_decide (kv.1 = id))) jobs = []).

Definition put (id : string) job : op (table (MemoryJob Who)) unit := fun jobs =>
  if index_allows id job jobs then (Ok tt, <[id := job]> jobs) else (Raise (OtherError "IntegrityError"), jobs).

(** [flush()] of a changed job. *)
Definition save_mem (id : string) (loaded new : MemoryJob Who) : op S unit := on_table (fun jobs =>
  match jobs !! id with
  | Some current => put id (merge loaded new current) jobs
  | None => (Raise (OtherError "StaleDataError"), jobs)
  end).

(** [add] and [flush()] of a new job. *)
Definition insert_mem (id : string) job : op S unit := on_table (fun jobs =>
  match jobs !! id with
  | Some _ => (Raise (OtherError "IntegrityError"), jobs)
  | None => put id job jobs
  end).

(** [async with db.begin_nested()]: a body that violates a constraint is undone. *)
Definition nested (body : op S unit) : op S bool := fun s =>
  match body s with
  | (Ok _, s') => (Ok true, s')
  | (Raise e, s') => if decide (e = OtherError "IntegrityError") then (Ok false, s) else (Raise e, s')
  end.

(** ** Dispatch *)

Definition _idempotency_key (id : string) (attempt : Z) (suffix : string) : string :=
  key_prefix +:+ id +:+ ":dispatch:" +:+ pretty attempt +:+ ":" +:+ suffix.

Definition dispatch_mem (id : string) (attempt : Z) (suffix : string) (avail : Z) (event_id : string) (now : Z) : op S unit :=
  _ ← on_table (enqueue_outbox_event AGGREGATE_TYPE id EVENT_TYPE
        [(of_string "job_id", JStr (of_string id)); (of_string "attempt", JInt attempt)]
        (_idempotency_key id attempt suffix) (Some avail) event_id now);
  mret tt.

(** ** Scheduling *)

(** ORDER BY created_at ASC LIMIT 1 of the chat's open jobs *)
Definition open_job_of (o : Who) (session : string) jobs : option (string * MemoryJob Who) :=
  head (sort_by (fun kv => m_created_at kv.2) (chat_rows o session (fun kv => is_open kv.2) jobs)).

(** ORDER BY updated_at DESC LIMIT 1 *)
Definition _latest_extracted_sequence (o : Who) (session : string) jobs : Z :=
  match sort_by (fun kv => - m_updated_at kv.2) (chat_rows o session (fun _ => true) jobs) with
  | [] => 0
  | kv :: _ => extracted_sequence kv.2
  end.

(** [func.max(column)] over rows, or 0 *)
Definition max_or_0 (values : list Z) : Z :=
  match values with [] => 0 | x :: values => foldl Z.max x values end.

Definition _running_to (o : Who) (session : string) (exclude_job_id : option string) (now : Z) jobs : Z :=
  max_or_0 ((fun kv => watermark_sequence kv.2) <$> chat_rows o session (fun kv =>
    bool_decide (m_status kv.2 = MemRunning) &&
    match lease_expires_at kv.2 with Some t => now <? t | None => false end &&
    match exclude_job_id with
    | Some "" | None => true
    | Some x => negb (bool_decide (kv.1 = x))
    end) jobs).

(** The part of [schedule_extraction] after its gates. *)
Definition queue_extraction (settings : list (text * json)) (o : Who) (session : string) (watermark : Z)
    (exclude_job_id : option string) (new_id event_id : string) (race : S -> S) (now : Z) : op S (option string) :=
  match int_or debounce_default (field (of_string debounce_setting) settings),
        int_or max_wait_default (field (of_string max_wait_setting) settings) with
  | Raise e, _ | _, Raise e => raise e
  | Ok debounce, Ok max_wait =>
      existing ← gets (fun s => open_job_of o session (rows s));
      match existing with
      | Some (id, job) =>
          let latest := now + seconds debounce in
          let deadline := m_created_at job + seconds max_wait in
          _ ← save_mem id job (mem_with job (m_status job) (Z.max (watermark_sequence job) watermark)
                (extracted_sequence job) (Z.min latest deadline) (m_attempt_count job) (lease_expires_at job)
                (m_worker_id job) (m_last_error job) now);
          mret (Some id)
      | None =>
          latest ← gets (fun s => _latest_extracted_sequence o session (rows s));
          running_to ← gets (fun s => _running_to o session exclude_job_id now (rows s));
          let extracted := Z.min (Z.max latest running_to) watermark in
          let job := MkMemoryJob o session MemPending watermark extracted (now + seconds debounce) 0
                memory_job_max_attempts None None None now now in
          _ ← modify race;
          inserted ← nested (insert_mem new_id job);
          if inserted : bool then
            _ ← dispatch_mem new_id 0 "created" (run_after job) event_id now;
            mret (Some new_id)
          else
            raced ← gets (fun s => open_job_of o session (rows s));
            match raced with
            | None => mret None
            | Some (id, job) =>
                _ ← save_mem id job (mem_with job (m_status job) (Z.max (watermark_sequence job) watermark)
                      (extracted_sequence job) (run_after job) (m_attempt_count job) (lease_expires_at job)
                      (m_worker_id job) (m_last_error job) now);
                mret (Some id)
            end
      end
  end.

(** ** Leases *)

Definition claim_job (job_id worker_id : string) (locked : bool) (event_id : string) (current : Z)
    : op S (option (MemoryJob Who)) :=
  row ← gets (fun s => rows s !! job_id);
  match (if locked then None else row) with
  | None => mret None
  | Some job =>
      if bool_decide (m_status job ∈ [MemSucceeded; MemDead]) then mret None
      else if bool_decide (m_status job = MemRunning) &&
              match lease_expires_at job with Some u => current <? u | None => false end then mret None
      else if negb (bool_decide (m_status job ∈ CLAIMABLE_STATUSES)) then mret None
      else if current <? run_after job then
        _ ← dispatch_mem job_id (m_attempt_count job) ("deferred:" +:+ pretty (timestamp (run_after job))) (run_after job)
              event_id current;
        mret None
      else
        let job' := mem_with job MemRunning (watermark_sequence job) (extracted_sequence job) (run_after job)
          (m_attempt_count job + 1) (Some (current + seconds memory_job_lease_seconds)) (Some worker_id) None current in
        _ ← save_mem job_id job job';
        mret (Some job')
  end.

Definition runs (worker_id : string) job : bool :=
  bool_decide (m_status job = MemRunning) && bool_decide (m_worker_id job = Some worker_id).

Definition heartbeat_job (id : string) job (worker_id : string) (current : Z) : op S bool :=
  if negb (runs worker_id job) then mret false
  else
    _ ← save_mem id job (mem_with job (m_status job) (watermark_sequence job) (extracted_sequence job) (run_after job)
          (m_attempt_count job) (Some (current + seconds memory_job_lease_seconds)) (m_worker_id job) (m_last_error job) current);
    mret true.

Definition complete_job (id : string) job (worker_id : string) (extracted : Z) (now : Z) : op S bool :=
  if negb (runs worker_id job) then mret false
  else
    _ ← save_mem id job (mem_with job MemSucceeded (watermark_sequence job) extracted (run_after job)
          (m_attempt_count job) None None None now);
    mret true.

Definition attempts_allowed job : Z :=
  if decide (m_max_attempts job = 0) then memory_job_max_attempts else m_max_attempts job.

Definition fail_job (id : string) job (worker_id : string) (error : text) (retryable : bool) (event_id : string) (now : Z)
    : op S JobResult :=
  if negb (runs worker_id job) then
    mret (MkJobResult (m_status job) (m_attempt_count job) (Some (run_after job)))
  else
    let attempts := m_attempt_count job in
    let message := Some (take 8000 error) in
    if negb retryable || (attempts_allowed job <=? attempts) then
      _ ← save_mem id job (mem_with job MemDead (watermark_sequence job) (extracted_sequence job) (run_after job)
            attempts None None message now);
      mret (MkJobResult MemDead attempts None)
    else
      let next := now + backoff memory_retry_base_seconds attempts in
      _ ← save_mem id job (mem_with job MemRetry (watermark_sequence job) (extracted_sequence job) next attempts None None
            message now);
      _ ← dispatch_mem id attempts "retry" next event_id now;
      mret (MkJobResult MemRetry attempts (Some next)).

(** ** Stale leases *)

Definition stale_run (current : Z) job : bool :=
  bool_decide (m_status job = MemRunning) &&
  match lease_expires_at job with None => true | Some u => u <=? current end.

(** ORDER BY lease_expires_at, created_at *)
Definition stale_run_le (nulls_first : bool) (a b : string * MemoryJob Who) : Prop :=
  match lease_expires_at a.2, lease_expires_at b.2 with
  | Some t, Some u => t < u \/ (t = u /\ m_created_at a.2 <= m_created_at b.2)
  | None, None => m_created_at a.2 <= m_created_at b.2
  | None, Some _ => nulls_first = true
  | Some _, None => nulls_first = false
  end.

#[export] Instance stale_run_le_dec nulls_first : RelDecision (stale_run_le nulls_first).
Proof. intros a b. unfold stale_run_le. repeat case_match; apply _. Defined.

Definition stale_runs (nulls_first : bool) (locked : gset string) (limit : nat) (current : Z) jobs
    : list (string * MemoryJob Who) :=
  take limit (merge_sort (stale_run_le nulls_first)
    (filter (fun kv => stale_run current kv.2 = true /\ kv.1 ∉ locked) (map_to_list jobs))).

Definition recover_run (current : Z) (event_id : string -> string) (kv : string * MemoryJob Who) : op S unit :=
  let job := kv.2 in
  _ ← save_mem kv.1 job (mem_with job MemRetry (watermark_sequence job) (extracted_sequence job) current
        (m_attempt_count job) None None (m_last_error job) current);
  dispatch_mem kv.1 (m_attempt_count job) "lease-expired" current (event_id kv.1) current.

Definition recover_stale_jobs (nulls_first : bool) (locked : gset string) (limit : nat) (current : Z)
    (event_id : string -> string) : op S nat :=
  jobs ← gets (fun s => stale_runs nulls_first locked limit current (rows s));
  _ ← for_each (recover_run current event_id) jobs;
  mret (length jobs).
(** ** Forgetting *)

(** [seq_by_session]: the last message of each chat of [chats] that has one. *)
Definition last_messages (chats : list string) (messages : list (string * Z)) : table Z :=
  foldl (fun m sm => if decide (sm.1 ∈ chats) then <[sm.1 := Z.max sm.2 (default sm.2 (m !! sm.1))]> m else m) ∅ messages.

(** What the loop makes of one of the owner's jobs. *)
Definition forgotten (seq_by_session : table Z) (now : Z) job : MemoryJob Who :=
  let watermark := default (watermark_sequence job) (seq_by_session !! session_id job) in
  mem_with job (if is_open job then MemSucceeded else m_status job) (Z.max (watermark_sequence job) watermark)
    (Z.max (extracted_sequence job) watermark) (run_after job) (m_attempt_count job) (lease_expires_at job)
    (m_worker_id job) (m_last_error job) now.

(** [reset_watermarks_for_user] and [reset_watermarks_for_project]: [chats] are
    the owner's, [new_id] gives the uuid drawn for the row of a chat. *)
Definition reset_watermarks (o : Who) (chats : list string) (messages : list (string * Z)) (new_id : string -> string)
    (now : Z) : op S unit :=
  let seq_by_session := last_messages chats messages in
  jobs ← gets (fun s => filter (fun kv => bool_decide (owner kv.2 = o) = true) (map_to_list (rows (R := MemoryJob Who) s)));
  _ ← for_each (fun kv => save_mem kv.1 kv.2 (forgotten seq_by_session now kv.2)) jobs;
  let seen := (fun kv : string * MemoryJob Who => session_id kv.2) <$> jobs in
  _ ← for_each (fun sq => insert_mem (new_id sq.1)
        (MkMemoryJob o sq.1 MemSucceeded sq.2 sq.2 now 0 memory_job_max_attempts None None None now now))
      (filter (fun sq => sq.1 ∉ seen) (map_to_list seq_by_session));
  mret tt.

(** ** Failed jobs ([memory_job_admin_service.py]) *)

Definition _open_job (id : string) job jobs : option (string * MemoryJob Who) :=
  head (chat_rows (owner job) (session_id job) (fun kv => is_open kv.2 && negb (bool_decide (kv.1 = id))) jobs).

Definition _progress (id : string) job jobs : Z :=
  Z.max (extracted_sequence job)
    (max_or_0 ((fun kv => extracted_sequence kv.2) <$>
      chat_rows (owner job) (session_id job) (fun kv => negb (bool_decide (kv.1 = id))) jobs)).

(** [nonce] is the random part of the key. *)
Definition _dispatch (id : string) (reason nonce : string) (avail : Z) (event_id : string) (now : Z) : op S unit :=
  dispatch_mem id 0 (reason +:+ ":" +:+ nonce) avail event_id now.

Definition delete_mem (id : string) : op S unit := on_table (modify (delete id : table (MemoryJob Who) -> table (MemoryJob Who))).

Record RetryCounts := MkRetryCounts { requeued : nat; merged : nat; covered : nat }.

(** The chat's open job takes the stretch of a failed one. *)
Definition merge_into (id : string) job (progress : Z) (now : Z) (open : string * MemoryJob Who) : op S unit :=
  let o := open.2 in
  _ ← save_mem open.1 o (mem_with o (m_status o) (Z.max (watermark_sequence o) (watermark_sequence job))
        (Z.min (extracted_sequence o) progress) (run_after o) (m_attempt_count o) (lease_expires_at o) (m_worker_id o)
        (m_last_error o) now);
  delete_mem id.

(** One failed job of the loop; [draw] gives the nonce and the event id. *)
Definition retry_failed_job (race : string -> S -> S) (draw : string -> string * string) (now : Z)
    (counts : RetryCounts) (kv : string * MemoryJob Who) : op S RetryCounts :=
  let '(id, job) := kv in
  progress ← gets (fun s => _progress id job (rows s));
  if watermark_sequence job <=? progress then
    _ ← delete_mem id;
    mret (MkRetryCounts (requeued counts) (merged counts) (covered counts + 1))
  else
    let merge_open (open : string * MemoryJob Who) :=
      _ ← merge_into id job progress now open;
      mret (MkRetryCounts (requeued counts) (merged counts + 1) (covered counts)) in
    open_job ← gets (fun s => _open_job id job (rows s));
    match open_job with
    | Some open => merge_open open
    | None =>
        _ ← modify (race id);
        saved ← nested (save_mem id job (mem_with job MemRetry (watermark_sequence job) progress now 0 None None None now));
        if saved : bool then
          _ ← _dispatch id "admin-retry" (draw id).1 now (draw id).2 now;
          mret (MkRetryCounts (requeued counts + 1) (merged counts) (covered counts))
        else
          open_job ← gets (fun s => _open_job id job (rows s));
          match open_job with
          | Some open => merge_open open
          | None => mret counts
          end
    end.

Fixpoint retry_loop (race : string -> S -> S) (draw : string -> string * string) (now : Z) (counts : RetryCounts)
    (jobs : list (string * MemoryJob Who)) : op S RetryCounts :=
  match jobs with
  | [] => mret counts
  | kv :: jobs => counts ← retry_failed_job race draw now counts kv; retry_loop race draw now counts jobs
  end.

Definition selected (job_ids : option (list string)) (id : string) : bool :=
  match job_ids with None => true | Some ids => bool_decide (id ∈ ids) end.

Definition dead_jobs (job_ids : option (list string)) jobs : list (string * MemoryJob Who) :=
  filter (fun kv => m_status kv.2 = MemDead /\ selected job_ids kv.1 = true) (map_to_list jobs).

Definition retry_failed_jobs (race : string -> S -> S) (job_ids : option (list string)) (draw : string -> string * string)
    (now : Z) : op S RetryCounts :=
  jobs ← gets (fun s => dead_jobs job_ids (rows s));
  retry_loop race draw now (MkRetryCounts 0 0 0) jobs.

Definition hand_over (id : string) job (after_seconds : Z) (new_id nonce event_id : string) (race : S -> S) (now : Z)
    : op S unit :=
  let run := now + seconds after_seconds in
  let extend (open : string * MemoryJob Who) :=
    let o := open.2 in
    save_mem open.1 o (mem_with o (m_status o) (Z.max (watermark_sequence o) (watermark_sequence job))
      (Z.min (extracted_sequence o) (extracted_sequence job)) (Z.max (run_after o) run) (m_attempt_count o)
      (lease_expires_at o) (m_worker_id o) (m_last_error o) now) in
  open_job ← gets (fun s => _open_job id job (rows s));
  match open_job with
  | Some open => extend open
  | None =>
      _ ← modify race;
      inserted ← nested (insert_mem new_id (MkMemoryJob (owner job) (session_id job) MemPending (watermark_sequence job)
                   (extracted_sequence job) run 0 memory_job_max_attempts None None None now now));
      if inserted : bool then _dispatch new_id "handed-over" nonce run event_id now
      else
        open_job ← gets (fun s => _open_job id job (rows s));
        match open_job with Some open => extend open | None => mret tt end
  end.
End scope.

(** ** The user's service *)

Module User.
#[export] Existing Instance user_scope.

Section user.
Context `{PyStr} `{PyInt} `{LocalTime} `{Settings} {S : Type} `{HasTable S OutboxEvent, HasTable S (MemoryJob Z)}.

(** The gates of [schedule_extraction], in their order; [prefs] and
    [chat_feature] are the person's preferences and access to Chat. *)
Definition may_extract (settings prefs : list (text * json)) (session : option ChatSession) (user_id : Z)
    (chat_feature : bool) : bool :=
  flag "feature_enabled" settings &&
  match field (of_string "extraction_model_id") settings with Some v => truthy v | None => false end &&
  memory_extract_enabled && flag "memory_auto_capture" prefs &&
  match session with
  | Some session =>
      (cs_user_id session =? user_id) && negb (private_mode session || is_member_channel session) &&
      negb (in_project session)
  | None => false
  end && chat_feature.

Definition schedule_extraction (settings prefs : list (text * json)) (sessions : table ChatSession) (chat_feature : bool)
    (user_id : Z) (session_id : string) (watermark : Z) (exclude_job_id : option string) (new_id event_id : string)
    (race : S -> S) (now : Z) : op S (option string) :=
  if may_extract settings prefs (sessions !! session_id) user_id chat_feature then
    queue_extraction settings user_id session_id watermark exclude_job_id new_id event_id race now
  else mret None.

Definition chats_of (user_id : Z) (sessions : table ChatSession) : list string :=
  (filter (fun kv => cs_user_id kv.2 = user_id) (map_to_list sessions)).*1.

Definition reset_watermarks_for_user (user_id : Z) (sessions : table ChatSession) (messages : list (string * Z))
    (new_id : string -> string) (now : Z) : op S unit :=
  reset_watermarks user_id (chats_of user_id sessions) messages new_id now.

(** Errors are logged and swallowed. *)
Definition maybe_schedule_from_append (settings prefs : list (text * json)) (sessions : table ChatSession)
    (chat_feature : bool) (user_id : Z) (session_id : string) (messages : list (list (text * json))) (watermark : Z)
    (new_id event_id : string) (race : S -> S) (now : Z) : op S unit := fun s =>
  if negb (existsb is_whole_reply messages) then (Ok tt, s)
  else
    (Ok tt, (schedule_extraction settings prefs sessions chat_feature user_id session_id watermark None new_id event_id
               race now s).2).
End user.
End User.

(** ** The project's service *)

Module Project.
#[export] Existing Instance project_scope.

Section project.
Context `{PyStr} `{PyInt} `{LocalTime} `{Settings} {S : Type} `{HasTable S OutboxEvent, HasTable S (MemoryJob string)}.

Definition is_eligible_session (session : option ChatSession) : bool :=
  match session with
  | None => false
  | Some session => in_project session && negb (private_mode session || is_member_channel session)
  end.

(** [flags] is [load_project_memory_flags]: memory enabled, and automatic capture. *)
Definition may_extract (settings : list (text * json)) (session : option ChatSession) (project_id : string)
    (flags : bool * bool) : bool :=
  flag "feature_enabled" settings && flag "project_feature_enabled" settings &&
  match field (of_string "extraction_model_id") settings with Some v => truthy v | None => false end &&
  memory_extract_enabled &&
  match session with
  | Some session => bool_decide (default ""%string (cs_project_id session) = project_id)
  | None => false
  end && is_eligible_session session && (flags.1 && flags.2).

Definition schedule_extraction (settings : list (text * json)) (sessions : table ChatSession) (flags : bool * bool)
    (project_id : string) (session_id : string) (watermark : Z) (exclude_job_id : option string)
    (new_id event_id : string) (race : S -> S) (now : Z) : op S (option string) :=
  if may_extract settings (sessions !! session_id) project_id flags then
    queue_extraction settings project_id session_id watermark exclude_job_id new_id event_id race now
  else mret None.

Definition chats_of (project_id : string) (sessions : table ChatSession) : list string :=
  (filter (fun kv => cs_project_id kv.2 = Some project_id) (map_to_list sessions)).*1.

Definition reset_watermarks_for_project (project_id : string) (sessions : table ChatSession) (messages : list (string * Z))
    (new_id : string -> string) (now : Z) : op S unit :=
  reset_watermarks project_id (chats_of project_id sessions) messages new_id now.

Definition maybe_schedule_from_append (settings : list (text * json)) (sessions : table ChatSession)
    (flags : bool * bool) (session : ChatSession) (session_id : string) (messages : list (list (text * json)))
    (watermark : Z) (new_id event_id : string) (race : S -> S) (now : Z) : op S unit := fun s =>
  if negb (in_project session) || negb (existsb is_whole_reply messages) then (Ok tt, s)
  else
    (Ok tt, (schedule_extraction settings sessions flags (default ""%string (cs_project_id session)) session_id watermark
               None new_id event_id race now s).2).

(** The other functions are those of the user's service at this scope. *)
Definition _latest_extracted_sequence : string -> string -> table (MemoryJob string) -> Z :=
  MemoryJobs._latest_extracted_sequence.
Definition claim_job : string -> string -> bool -> string -> Z -> op S (option (MemoryJob string)) := MemoryJobs.claim_job.
Definition heartbeat_job : string -> MemoryJob string -> string -> Z -> op S bool := MemoryJobs.heartbeat_job.
Definition complete_job : string -> MemoryJob string -> string -> Z -> Z -> op S bool := MemoryJobs.complete_job.
Definition fail_job : string -> MemoryJob string -> string -> text -> bool -> string -> Z -> op S JobResult :=
  MemoryJobs.fail_job.
Definition recover_stale_jobs : bool -> gset string -> nat -> Z -> (string -> string) -> op S nat :=
  MemoryJobs.recover_stale_jobs.
End project.
End Project.
