(* ===== verification/MemoryFacts.v ===== *)
(** * What the memory job services promise

    At most one open job per chat; a scheduled stretch is picked up where the
    chat was mined to; failed jobs sent back lose no part of their stretch;
    forgetting closes every chat behind its last message; and where a job that
    should wait meets an open job of its chat, the database refuses. *)

From S2P Require Import Prelude Text Json PyText Outbox OutboxFacts MemoryJobs.

Section facts.
Context `{PyInt} `{LocalTime} `{Settings} {Who : Type} `{MemoryScope Who} {S : Type}
  `{Separate S OutboxEvent (MemoryJob Who)}.
Implicit Types (job : MemoryJob Who) (jobs : table (MemoryJob Who)) (s : S).

Definition mem_of (s : S) : table (MemoryJob Who) := rows s.

(** ** The open-job index *)

Definition open_unique jobs : Prop :=
  forall i j a b, jobs !! i = Some a -> jobs !! j = Some b -> is_open a = true -> is_open b = true ->
  owner a = owner b -> session_id a = session_id b -> i = j.

Lemma chat_rows_spec o session f jobs id job :
  (id, job) ∈ chat_rows o session f jobs <->
  jobs !! id = Some job /\ owner job = o /\ session_id job = session /\ f (id, job) = true.
Proof.
  unfold chat_rows, same_chat. rewrite list_elem_of_filter, elem_of_map_to_list. cbn [snd].
  rewrite !andb_true_iff, !bool_decide_eq_true. naive_solver.
Qed.

Lemma chat_rows_nil o session f jobs :
  chat_rows o session f jobs = [] <->
  forall id job, jobs !! id = Some job -> owner job = o -> session_id job = session -> f (id, job) = false.
Proof.
  split.
  - intros Hn id job Hj Ho Hs. destruct (f (id, job)) eqn:Hf; [|done]. exfalso.
    assert (Hin : (id, job) ∈ chat_rows o session f jobs) by (by apply chat_rows_spec).
    rewrite Hn in Hin. by apply elem_of_nil in Hin.
  - intros Hno. destruct (chat_rows o session f jobs) as [|[id job] l] eqn:Hc; [done|exfalso].
    assert (Hin : (id, job) ∈ chat_rows o session f jobs) by (rewrite Hc; apply list_elem_of_here).
    apply chat_rows_spec in Hin as (Hj & Ho & Hs & Hf). rewrite (Hno id job) in Hf by done. done.
Qed.

Lemma index_allows_spec id job jobs :
  index_allows id job jobs = true <->
  (is_open job = true -> forall i j, jobs !! i = Some j -> owner j = owner job -> session_id j = session_id job ->
     is_open j = true -> i = id).
Proof.
  unfold index_allows. rewrite orb_true_iff, negb_true_iff, bool_decide_eq_true, chat_rows_nil. cbn [fst snd]. split.
  - intros [Hc|Hn] Ho i j Hj H1' H2' Hop; [congruence|]. specialize (Hn i j Hj H1' H2').
    rewrite Hop in Hn. simpl in Hn. apply negb_false_iff in Hn. by apply bool_decide_eq_true in Hn.
  - intros Hall. destruct (is_open job); [right|by left]. intros i j Hj H1' H2'.
    destruct (is_open j) eqn:Hop; [|done]. simpl. rewrite bool_decide_true; [done|]. by eapply Hall.
Qed.

Lemma put_ok id job jobs :
  index_allows id job jobs = true -> put id job jobs = (Ok tt, <[id := job]> jobs).
Proof. intros Hi. unfold put. by rewrite Hi. Qed.

Lemma put_refused id job jobs :
  index_allows id job jobs = false -> put id job jobs = (Raise (OtherError "IntegrityError"), jobs).
Proof. intros Hi. unfold put. by rewrite Hi. Qed.

Lemma insert_unique id job jobs : open_unique jobs -> index_allows id job jobs = true -> open_unique (<[id := job]> jobs).
Proof.
  intros Hu Hi. rewrite index_allows_spec in Hi. intros i j a b Ha Hb Hoa Hob Ho Hs.
  rewrite lookup_insert in Ha, Hb. do 2 case_decide; simplify_eq/=; [done|..].
  all: try (by eapply Hu).
  all: try (by eapply (Hi Hob)).
  all: symmetry; by eapply (Hi Hoa).
Qed.

Lemma delete_unique id jobs : open_unique jobs -> open_unique (delete id jobs).
Proof.
  intros Hu i j a b Ha Hb. apply lookup_delete_Some in Ha as [_ Ha], Hb as [_ Hb]. by eapply Hu.
Qed.

(** ** Writing one row *)

Definition put_mem (id : string) job s : S := set_rows (<[id := job]> (mem_of s)) s.

Lemma mem_put_mem id job s : mem_of (put_mem id job s) = <[id := job]> (mem_of s).
Proof. apply rows_set. Qed.

Lemma save_mem_run id loaded new s :
  mem_of s !! id = Some loaded ->
  save_mem id loaded new s =
    if index_allows id new (mem_of s) then (Ok tt, put_mem id new s) else (Raise (OtherError "IntegrityError"), s).
Proof.
  intros Hl. unfold save_mem, on_table. change (rows s) with (mem_of s). rewrite Hl, merge_same. unfold put.
  destruct (index_allows id new (mem_of s)); [done|]. unfold mem_of. by rewrite set_rows_rows.
Qed.

Lemma insert_mem_run id job s :
  mem_of s !! id = None ->
  insert_mem id job s =
    if index_allows id job (mem_of s) then (Ok tt, put_mem id job s) else (Raise (OtherError "IntegrityError"), s).
Proof.
  intros Hl. unfold insert_mem, on_table. change (rows s) with (mem_of s). rewrite Hl. unfold put.
  destruct (index_allows id job (mem_of s)); [done|]. unfold mem_of. by rewrite set_rows_rows.
Qed.

Lemma insert_mem_taken id job s :
  is_Some (mem_of s !! id) -> insert_mem id job s = (Raise (OtherError "IntegrityError"), s).
Proof.
  intros [old Ho]. unfold insert_mem, on_table. change (rows s) with (mem_of s). rewrite Ho. unfold mem_of. by rewrite set_rows_rows.
Qed.

Lemma dispatch_mem_jobs id attempt suffix avail event_id now s :
  mem_of (dispatch_mem id attempt suffix avail event_id now s).2 = mem_of s.
Proof.
  unfold dispatch_mem, mbind, op_bind, on_table.
  destruct (enqueue_outbox_event _ _ _ _ _ _ _ _ _) as [[a|e] o]; simpl; apply rows_other.
Qed.

Lemma dispatch_mem_ok id attempt suffix avail event_id now s u s' :
  dispatch_mem id attempt suffix avail event_id now s = (Ok u, s') ->
  mem_of s' = mem_of s /\
  exists i e, rows (R := OutboxEvent) s' !! i = Some e /\ oe_idempotency_key e = _idempotency_key id attempt suffix.
Proof.
  intros Hrun. split; [by rewrite <- (dispatch_mem_jobs id attempt suffix avail event_id now s), Hrun|].
  unfold dispatch_mem in Hrun. apply op_bind_inv in Hrun as (i & s1 & Hrun & Hret). injection Hret as _ <-.
  unfold on_table in Hrun. destruct (enqueue_outbox_event _ _ _ _ _ _ _ _ _) as [r o] eqn:He. injection Hrun as -> <-.
  rewrite rows_set. unfold enqueue_outbox_event in He. erewrite op_bind_ok in He; [|reflexivity].
  destruct (event_of_key _ _) as [[j e]|] eqn:Hk.
  - injection He as -> <-. apply event_of_key_Some in Hk as [Hj Hk]. eauto.
  - erewrite op_bind_ok in He; [|reflexivity]. case_bool_decide; [done|]. erewrite op_bind_ok in He; [|reflexivity].
    injection He as <- <-. eexists _, _. rewrite lookup_insert_eq. split; reflexivity.
Qed.

Lemma nested_inv body s b s' :
  nested body s = (Ok b, s') ->
  (b = true /\ exists u, body s = (Ok u, s')) \/
  (b = false /\ s' = s /\ exists s1, body s = (Raise (OtherError "IntegrityError"), s1)).
Proof.
  unfold nested. destruct (body s) as [[u|e] s1] eqn:Hb; [intros [= <- <-]; left; eauto|].
  case_decide as He; [|done]. intros [= <- <-]. right. subst e. eauto.
Qed.
(** ** Scheduling *)

Lemma open_job_of_Some o session jobs id job :
  open_job_of o session jobs = Some (id, job) ->
  jobs !! id = Some job /\ owner job = o /\ session_id job = session /\ is_open job = true.
Proof. unfold open_job_of. intros Hh%head_Some_elem_of. rewrite sort_by_perm in Hh. by apply chat_rows_spec in Hh. Qed.

Lemma open_job_of_None o session jobs :
  open_job_of o session jobs = None ->
  forall id job, jobs !! id = Some job -> owner job = o -> session_id job = session -> is_open job = false.
Proof.
  unfold open_job_of. intros Hh%head_None. pose proof (sort_by_perm (fun kv => m_created_at kv.2)
    (chat_rows o session (fun kv => is_open kv.2) jobs)) as Hp. rewrite Hh in Hp.
  apply Permutation_nil_l in Hp. symmetry in Hp. exact (proj1 (chat_rows_nil _ _ _ _) Hp).
Qed.

Lemma max_or_0_ge values v : v ∈ values -> v <= max_or_0 values.
Proof.
  destruct values as [|x values]; intros Hin; [by apply elem_of_nil in Hin|]. simpl.
  assert (Hge : forall l x, x <= foldl Z.max x l /\ forall v, v ∈ l -> v <= foldl Z.max x l).
  { clear. induction l as [|y l IH]; intros x; simpl; [split; [lia|]; intros v Hv; by apply elem_of_nil in Hv|].
    destruct (IH (Z.max x y)) as [Hx Hl]. split; [lia|]. intros v [->|Hv]%elem_of_cons; [lia|by apply Hl]. }
  destruct (Hge values x) as [Hx Hl]. apply elem_of_cons in Hin as [->|Hin]; [done|by apply Hl].
Qed.

Lemma max_or_0_le values b : 0 <= b -> (forall v, v ∈ values -> v <= b) -> max_or_0 values <= b.
Proof.
  destruct values as [|x values]; intros Hb Hall; [done|]. simpl.
  assert (Hle : forall l x, x <= b -> (forall v, v ∈ l -> v <= b) -> foldl Z.max x l <= b).
  { clear. induction l as [|y l IH]; intros x Hx Hl; simpl; [done|]. apply IH.
    - specialize (Hl y (list_elem_of_here _ _)). lia.
    - intros v Hv. apply Hl. by apply list_elem_of_further. }
  apply Hle; [apply Hall, list_elem_of_here|]. intros v Hv. apply Hall. by apply list_elem_of_further.
Qed.

Lemma max_or_0_in values : max_or_0 values = 0 \/ max_or_0 values ∈ values.
Proof.
  destruct values as [|x values]; [by left|right]. cbn.
  assert (forall l x, foldl Z.max x l ∈ x :: l) as Hin.
  { clear. induction l as [|y l IH]; intros x; cbn; [apply list_elem_of_here|].
    specialize (IH (Z.max x y)). apply elem_of_cons in IH as [-> |Hl]; [|by do 2 apply list_elem_of_further].
    destruct (Z.max_spec x y) as [[_ ->]|[_ ->]]; [apply list_elem_of_further|]; apply list_elem_of_here. }
  apply Hin.
Qed.

(** Another job of the chat is mining it under a live lease. *)
Definition mining (o : Who) (session : string) (exclude : option string) (now : Z) (id : string) job : Prop :=
  owner job = o /\ session_id job = session /\ m_status job = MemRunning /\
  (exists t, lease_expires_at job = Some t /\ now < t) /\ (exclude = None \/ exists x, exclude = Some x /\ x <> id).

Lemma running_to_ge o session exclude now jobs id job :
  jobs !! id = Some job -> mining o session exclude now id job -> watermark_sequence job <= _running_to o session exclude now jobs.
Proof.
  intros Hj (Ho & Hs & Hst & (t & Ht & Hlt) & Hex). unfold _running_to. apply max_or_0_ge.
  eapply (list_elem_of_fmap_2' (fun kv : string * MemoryJob Who => watermark_sequence kv.2) _ (id, job)); [|done].
  apply chat_rows_spec. split_and!; try done. cbn [fst snd]. rewrite Hst, Ht. rewrite bool_decide_true by done. simpl.
  rewrite (proj2 (Z.ltb_lt _ _)) by done. simpl. destruct Hex as [->|(x & -> & Hx)]; [done|].
  destruct x; [done|]. by rewrite bool_decide_false.
Qed.

(** Scheduling leaves the chat with exactly one open job, the one it
    answers, whatever other transactions commit in between (an index violation
    only makes it extend their job).  That job reaches at least the requested
    message; a job that was open keeps its start and never runs later than the
    debounce or its longest wait; a new one is dispatched after the debounce
    and starts where the chat was mined to, no earlier than where a job mining
    it now will stop. *)
Theorem queue_extraction_correct settings o session watermark exclude new_id event_id race now s debounce max_wait r s' :
  int_or debounce_default (field (of_string debounce_setting) settings) = Ok debounce ->
  int_or max_wait_default (field (of_string max_wait_setting) settings) = Ok max_wait ->
  open_unique (mem_of s) -> (forall x, open_unique (mem_of x) -> open_unique (mem_of (race x))) ->
  queue_extraction settings o session watermark exclude new_id event_id race now s = (Ok r, s') ->
  open_unique (mem_of s') /\
  forall id, r = Some id -> exists job, mem_of s' !! id = Some job /\ owner job = o /\ session_id job = session /\
    is_open job = true /\ watermark <= watermark_sequence job /\
    (forall old, mem_of s !! id = Some old -> is_open old = true -> owner old = o -> session_id old = session ->
       extracted_sequence job = extracted_sequence old /\ watermark_sequence old <= watermark_sequence job /\
       run_after job <= now + seconds debounce /\ run_after job <= m_created_at old + seconds max_wait) /\
    (id = new_id -> (forall i old, mem_of s !! i = Some old -> owner old = o -> session_id old = session -> is_open old = false) ->
       mem_of (race s) !! new_id = None ->
       watermark_sequence job = watermark /\ run_after job = now + seconds debounce /\
       extracted_sequence job = Z.min (Z.max (_latest_extracted_sequence o session (mem_of s))
         (_running_to o session exclude now (mem_of s))) watermark /\
       (forall i other, mem_of s !! i = Some other -> mining o session exclude now i other ->
          Z.min (watermark_sequence other) watermark <= extracted_sequence job) /\
       exists i e, rows (R := OutboxEvent) s' !! i = Some e /\ oe_idempotency_key e = _idempotency_key new_id 0 "created").
Proof.
  intros Hdeb Hmax Hu Hrace Hrun. unfold queue_extraction in Hrun. rewrite Hdeb, Hmax in Hrun.
  erewrite op_bind_ok in Hrun; [|reflexivity]. change (rows s) with (mem_of s) in Hrun.
  destruct (open_job_of o session (mem_of s)) as [[id job]|] eqn:Hopen.
  - apply open_job_of_Some in Hopen as (Hj & Ho & Hs & Hop). apply op_bind_inv in Hrun as (u & s1 & Hsave & Hret).
    injection Hret as <- <-. rewrite save_mem_run in Hsave by done.
    destruct (index_allows id _ (mem_of s)) eqn:Hi; [|done]. injection Hsave as _ <-. rewrite mem_put_mem.
    split; [by apply insert_unique|]. intros id' [= <-]. eexists. rewrite lookup_insert_eq. split; [reflexivity|].
    split; [done|]. split; [done|]. split; [exact Hop|]. split; [simpl; lia|]. split.
    + intros old Hold _ _ _. assert (old = job) as -> by congruence. simpl. lia.
    + intros _ Hno _. by rewrite (Hno id job) in Hop.
  - erewrite op_bind_ok in Hrun; [|reflexivity]. erewrite op_bind_ok in Hrun; [|reflexivity].
    erewrite op_bind_ok in Hrun; [|reflexivity]. change (rows s) with (mem_of s) in Hrun. cbn [snd] in Hrun.
    pose proof (open_job_of_None _ _ _ Hopen) as Hnone. specialize (Hrace s Hu).
    set (job := MkMemoryJob _ _ _ _ _ _ _ _ _ _ _ _ _) in Hrun.
    apply op_bind_inv in Hrun as (b & s1 & Hnest & Hrun). apply nested_inv in Hnest as [(-> & u & Hins)|(-> & -> & s1' & Hins)].
    + apply op_bind_inv in Hrun as (u' & s2 & Hdisp & Hret). injection Hret as <- <-.
      destruct (mem_of (race s) !! new_id) as [x|] eqn:Hnew; [by rewrite insert_mem_taken in Hins by (rewrite Hnew; by eexists)|].
      rewrite insert_mem_run in Hins by done. destruct (index_allows new_id job (mem_of (race s))) eqn:Hi; [|done].
      injection Hins as _ <-. apply dispatch_mem_ok in Hdisp as [Hm Hev]. rewrite Hm, mem_put_mem.
      split; [by apply insert_unique|]. intros id [= <-]. exists job. rewrite lookup_insert_eq. split; [done|].
      split; [done|]. split; [done|]. split; [done|]. split; [simpl; lia|]. split.
      * intros old Hold Hop Ho Hs. by rewrite (Hnone new_id old) in Hop.
      * intros _ _ _. split; [done|]. split; [done|]. split; [done|]. split; [|exact Hev].
        intros i other Hother Hmine. pose proof (running_to_ge _ _ _ _ _ _ _ Hother Hmine). simpl. lia.
    + erewrite op_bind_ok in Hrun; [|reflexivity]. change (rows (race s)) with (mem_of (race s)) in Hrun.
      destruct (open_job_of o session (mem_of (race s))) as [[id raced]|] eqn:Hraced.
      2:{ injection Hrun as <- <-. split; [done|]. by intros id [=]. }
      apply open_job_of_Some in Hraced as (Hj & Ho & Hs & Hop). apply op_bind_inv in Hrun as (u & s1 & Hsave & Hret).
      injection Hret as <- <-. rewrite save_mem_run in Hsave by done.
      destruct (index_allows id _ (mem_of (race s))) eqn:Hi; [|done]. injection Hsave as _ <-. rewrite mem_put_mem.
      split; [by apply insert_unique|]. intros id' [= <-]. eexists. rewrite lookup_insert_eq. split; [reflexivity|].
      split; [done|]. split; [done|]. split; [exact Hop|]. split; [simpl; lia|]. split.
      * intros old Hold Hop' Ho' Hs'. by rewrite (Hnone id old) in Hop'.
      * intros -> _ Hfree. congruence.
Qed.

(** ** Sending a running job back *)

Definition other_open (id : string) job jobs : Prop :=
  exists i j, jobs !! i = Some j /\ i <> id /\ owner j = owner job /\ session_id j = session_id job /\ is_open j = true.

Lemma index_refuses id job job' jobs :
  other_open id job jobs -> owner job' = owner job -> session_id job' = session_id job -> is_open job' = true ->
  index_allows id job' jobs = false.
Proof.
  intros (i & j & Hj & Hne & Ho & Hs & Hop) Ho' Hs' Hop'. destruct (index_allows id job' jobs) eqn:Hi; [|done].
  rewrite index_allows_spec in Hi. exfalso. apply Hne. eapply Hi; try done; congruence.
Qed.

Lemma index_grants id job job' jobs :
  ~ other_open id job jobs -> owner job' = owner job -> session_id job' = session_id job -> index_allows id job' jobs = true.
Proof.
  intros Hno Ho' Hs'. apply index_allows_spec. intros _ i j Hj Ho Hs Hop.
  destruct (decide (i = id)) as [|Hne]; [done|]. exfalso. apply Hno. exists i, j. split_and!; try done; congruence.
Qed.

Lemma dispatch_mem_free id attempt suffix avail event_id now s :
  rows (R := OutboxEvent) s !! event_id = None ->
  exists s', dispatch_mem id attempt suffix avail event_id now s = (Ok tt, s').
Proof.
  intros Hn. unfold dispatch_mem, on_table.
  destruct (event_of_key (_idempotency_key id attempt suffix) (rows s)) as [[i e]|] eqn:Hk.
  - eexists. erewrite op_bind_ok; [reflexivity|]. rewrite (enqueue_existing _ _ _ _ _ _ _ i e) by done. reflexivity.
  - eexists. erewrite op_bind_ok; [reflexivity|]. rewrite enqueue_new by done. reflexivity.
Qed.

Lemma outbox_put_mem id job s : rows (R := OutboxEvent) (put_mem id job s) = rows s.
Proof. apply rows_other'. Qed.

Lemma runs_true worker_id job : runs worker_id job = true -> m_status job = MemRunning /\ m_worker_id job = Some worker_id.
Proof. unfold runs. rewrite andb_true_iff, !bool_decide_eq_true. done. Qed.

Lemma memory_backoff_bounds base attempts : 0 <= base <= 3600 -> seconds base <= backoff base attempts <= seconds 3600.
Proof.
  intros Hb. unfold backoff, seconds. pose proof (Z.pow_pos_nonneg 2 (Z.max 0 (attempts - 1)) ltac:(lia) ltac:(lia)).
  generalize dependent (2 ^ Z.max 0 (attempts - 1)). intros p Hp. nia.
Qed.

(** Failing a job that its worker still runs buries it exactly when the
    failure is final or the last attempt is spent, and else sends it back to
    wait between the base delay and an hour with its attempts and stretch kept
    - unless its chat has another open job: then the database's unique index
    refuses the row, the call raises and the job stays running.  A worker that
    lost the job changes nothing. *)
Theorem fail_job_correct id worker_id job error retryable event_id now s :
  mem_of s !! id = Some job -> 0 <= memory_retry_base_seconds <= 3600 -> rows (R := OutboxEvent) s !! event_id = None ->
  (runs worker_id job = false -> exists r, fail_job id job worker_id error retryable event_id now s = (Ok r, s)) /\
  (runs worker_id job = true -> retryable = false \/ attempts_allowed job <= m_attempt_count job ->
     exists r job' s', fail_job id job worker_id error retryable event_id now s = (Ok r, s') /\
       mem_of s' = <[id := job']> (mem_of s) /\ m_status job' = MemDead /\ m_last_error job' = Some (take 8000 error)) /\
  (runs worker_id job = true -> retryable = true -> m_attempt_count job < attempts_allowed job ->
     ~ other_open id job (mem_of s) ->
     exists r job' s', fail_job id job worker_id error retryable event_id now s = (Ok r, s') /\
       mem_of s' = <[id := job']> (mem_of s) /\ m_status job' = MemRetry /\ m_attempt_count job' = m_attempt_count job /\
       extracted_sequence job' = extracted_sequence job /\ watermark_sequence job' = watermark_sequence job /\
       result_next r = Some (run_after job') /\
       now + seconds memory_retry_base_seconds <= run_after job' <= now + seconds 3600) /\
  (runs worker_id job = true -> retryable = true -> m_attempt_count job < attempts_allowed job ->
     other_open id job (mem_of s) ->
     fail_job id job worker_id error retryable event_id now s = (Raise (OtherError "IntegrityError"), s)).
Proof.
  intros Hj Hbase Hev. unfold fail_job. split_and!.
  - intros ->. by eexists.
  - intros -> Hd. cbn [negb]. cbv zeta.
    assert (negb retryable || (attempts_allowed job <=? m_attempt_count job) = true) as ->.
    { apply orb_true_iff. destruct Hd as [->|Hd]; [by left|right; lia]. }
    eexists _, _, _. split.
    { erewrite op_bind_ok; [reflexivity|]. rewrite save_mem_run by done.
      rewrite (proj2 (index_allows_spec _ _ _)) by done. reflexivity. }
    rewrite mem_put_mem. done.
  - intros -> -> Ha Hno. cbn [negb orb]. cbv zeta. rewrite (proj2 (Z.leb_gt _ _)) by done.
    pose proof (memory_backoff_bounds memory_retry_base_seconds (m_attempt_count job) Hbase).
    set (next := now + backoff _ _). set (job' := mem_with _ _ _ _ _ _ _ _ _ _).
    destruct (dispatch_mem_free id (m_attempt_count job) "retry" next event_id now (put_mem id job' s)) as [s' Hd];
      [by rewrite outbox_put_mem|].
    eexists _, job', s'. split.
    { erewrite op_bind_ok; [erewrite op_bind_ok; [reflexivity|exact Hd]|]. rewrite save_mem_run by done.
      by rewrite (index_grants id job). }
    apply dispatch_mem_ok in Hd as [Hm _]. rewrite Hm, mem_put_mem. repeat (split; [done|]). simpl. unfold next. lia.
  - intros -> -> Ha Hot. cbn [negb orb]. cbv zeta. rewrite (proj2 (Z.leb_gt _ _)) by done.
    apply op_bind_raise. rewrite save_mem_run by done. by rewrite (index_refuses id job).
Qed.

Lemma stale_runs_spec nulls_first locked limit now t i job :
  (i, job) ∈ stale_runs nulls_first locked limit now t -> t !! i = Some job /\ stale_run now job = true /\ i ∉ locked.
Proof.
  unfold stale_runs. intros Hi%elem_of_take. destruct Hi as (k & Hi & _).
  apply list_elem_of_lookup_2 in Hi. rewrite merge_sort_Permutation in Hi.
  apply list_elem_of_filter in Hi as [[Hd Hl] Hin]. apply elem_of_map_to_list in Hin. done.
Qed.

Lemma stale_runs_NoDup nulls_first locked limit now jobs : NoDup (stale_runs nulls_first locked limit now jobs).*1.
Proof.
  unfold stale_runs. rewrite fmap_take. eapply sublist_NoDup; [|apply sublist_take].
  rewrite merge_sort_Permutation. eapply sublist_NoDup; [apply (NoDup_fst_map_to_list jobs)|].
  apply fmap_sublist, sublist_filter.
Qed.

Lemma stale_run_not_open now job : stale_run now job = true -> is_open job = false.
Proof.
  unfold stale_run, is_open. intros [Hst _]%andb_true_iff. apply bool_decide_eq_true in Hst. rewrite Hst. reflexivity.
Qed.

Definition recovered_run (now : Z) job : MemoryJob Who :=
  mem_with job MemRetry (watermark_sequence job) (extracted_sequence job) now (m_attempt_count job) None None
    (m_last_error job) now.

Lemma recover_run_inv now eid id job s u s' :
  mem_of s !! id = Some job -> recover_run now eid (id, job) s = (Ok u, s') ->
  ~ other_open id job (mem_of s) /\ mem_of s' = <[id := recovered_run now job]> (mem_of s) /\
  exists i e, rows (R := OutboxEvent) s' !! i = Some e /\
    oe_idempotency_key e = _idempotency_key id (m_attempt_count job) "lease-expired".
Proof.
  intros Hj Hrun. unfold recover_run in Hrun. cbn [fst snd] in Hrun.
  apply op_bind_inv in Hrun as (u' & s1 & Hsave & Hd). rewrite save_mem_run in Hsave by done.
  destruct (index_allows id _ (mem_of s)) eqn:Hi; [|done]. injection Hsave as _ <-.
  apply dispatch_mem_ok in Hd as [Hm Hev]. rewrite Hm, mem_put_mem. split; [|split; [done|exact Hev]].
  intros Hot. rewrite (index_refuses id job) in Hi; done.
Qed.

Lemma recover_runs_inv now eid l s r s' :
  NoDup l.*1 -> Forall (fun kv => mem_of s !! kv.1 = Some kv.2 /\ is_open kv.2 = false) l ->
  for_each (recover_run now eid) l s = (Ok r, s') ->
  Forall (fun kv => ~ other_open kv.1 kv.2 (mem_of s)) l /\
  (forall i, mem_of s' !! i = if decide (i ∈ l.*1) then recovered_run now <$> mem_of s !! i else mem_of s !! i).
Proof.
  revert s r s'. induction l as [|[id job] l IH]; intros s r s' Hnd Hl Hrun.
  - injection Hrun as _ <-. split; [constructor|]. intros i. rewrite decide_False; [done|apply not_elem_of_nil].
  - apply NoDup_cons in Hnd as [Hni Hnd]. apply Forall_cons in Hl as [[Hj Hb] Hl]. cbn [for_each] in Hrun.
    apply op_bind_inv in Hrun as (u & s1 & Hone & Hrun). apply op_bind_inv in Hrun as (bs & s2 & Hrest & Hret).
    injection Hret as _ <-. cbn [fst snd] in Hj. apply recover_run_inv in Hone as (Hno & Hm & _); [|done].
    assert (Hsame : forall i, i <> id -> mem_of s1 !! i = mem_of s !! i) by (intros i Hi; by rewrite Hm, lookup_insert_ne).
    destruct (IH s1 bs s2 Hnd) as [Hfree Hrows]; [|exact Hrest|].
    { rewrite Forall_forall in Hl |- *. intros [i j] Hin. destruct (Hl _ Hin) as [Hi Hbi]. split; [|done].
      cbn [fst] in *. rewrite Hsame; [done|]. intros ->. apply Hni. by apply (list_elem_of_fmap_2 fst) in Hin. }
    split.
    + constructor; [exact Hno|]. rewrite Forall_forall in Hfree, Hl |- *. intros [i j] Hin (k & o & Hk & Hne & Hrest').
      cbn [fst snd] in *. apply (Hfree _ Hin). exists k, o. cbn [fst snd]. split; [|done]. rewrite Hsame; [done|].
      intros ->. rewrite Hj in Hk. injection Hk as <-. by destruct Hrest' as (_ & _ & Hop); rewrite Hb in Hop.
    + intros i. rewrite Hrows. cbn [fmap list_fmap]. destruct (decide (i = id)) as [->|Hne].
      * rewrite (decide_False (P := id ∈ l.*1)) by done. rewrite (decide_True (P := id ∈ _)) by apply list_elem_of_here.
        by rewrite Hm, lookup_insert_eq, Hj.
      * rewrite Hsame by done. cbn [fst]. destruct (decide (i ∈ l.*1)) as [Hi|Hi].
        -- by rewrite (decide_True (P := i ∈ _ :: _)) by (by apply list_elem_of_further).
        -- rewrite (decide_False (P := i ∈ _ :: _)); [done|]. intros [->|?]%elem_of_cons; done.
Qed.

(** The sweep of stale memory jobs goes through only when no chat of its
    batch has another open job - one such chat makes the whole sweep raise -
    and then sends every job of the batch back to wait now, under its old
    attempt count and however many attempts it has spent; nothing else
    changes. *)
Theorem recover_stale_jobs_correct nulls_first locked limit now eid s :
  let batch := stale_runs nulls_first locked limit now (mem_of s) in
  match recover_stale_jobs nulls_first locked limit now eid s with
  | (Ok n, s') =>
      n = length batch /\ (forall id job, (id, job) ∈ batch -> ~ other_open id job (mem_of s)) /\
      (forall id job, (id, job) ∈ batch -> exists job', mem_of s' !! id = Some job' /\ m_status job' = MemRetry /\
         run_after job' = now /\ m_attempt_count job' = m_attempt_count job /\ lease_expires_at job' = None /\ m_worker_id job' = None) /\
      (forall id, id ∉ batch.*1 -> mem_of s' !! id = mem_of s !! id)
  | (Raise _, _) => True
  end /\
  ((exists id job, (id, job) ∈ batch /\ other_open id job (mem_of s)) ->
     exists e s', recover_stale_jobs nulls_first locked limit now eid s = (Raise e, s')).
Proof.
  intros batch. assert (Hbatch : Forall (fun kv => mem_of s !! kv.1 = Some kv.2 /\ is_open kv.2 = false) batch).
  { apply Forall_forall. intros [i j] (Hj & Hst & _)%stale_runs_spec. split; [done|by eapply stale_run_not_open]. }
  pose proof (stale_runs_NoDup nulls_first locked limit now (mem_of s)) as Hnd. fold batch in Hnd.
  assert (Hrun : recover_stale_jobs nulls_first locked limit now eid s =
    (_ ← for_each (recover_run now eid) batch; mret (length batch)) s) by (unfold recover_stale_jobs; by erewrite op_bind_ok).
  rewrite Hrun. destruct (for_each (recover_run now eid) batch s) as [[r|e] s'] eqn:Hfe.
  - erewrite op_bind_ok by exact Hfe. destruct (recover_runs_inv now eid batch s r s' Hnd Hbatch Hfe) as [Hfree Hrows].
    rewrite Forall_forall in Hfree, Hbatch. split.
    + split; [done|]. split; [intros id job Hin; exact (Hfree _ Hin)|]. split.
      * intros id job Hin. exists (recovered_run now job). destruct (Hbatch _ Hin) as [Hj _]. simpl in Hj.
        rewrite Hrows, decide_True, Hj; [done|]. by apply (list_elem_of_fmap_2 fst) in Hin.
      * intros id Hni. by rewrite Hrows, decide_False.
    + intros (id & job & Hin & Hot). exfalso. by apply (Hfree _ Hin).
  - erewrite op_bind_raise by exact Hfe. split; [done|]. eauto.
Qed.

(** ** Retrying failed jobs *)

Lemma delete_mem_run id s : delete_mem id s = (Ok tt, set_rows (delete id (mem_of s)) s).
Proof. done. Qed.

Lemma mem_delete id s : mem_of (set_rows (delete id (mem_of s)) s) = delete id (mem_of s).
Proof. apply rows_set. Qed.

Lemma open_job_Some id job jobs i o :
  _open_job id job jobs = Some (i, o) ->
  jobs !! i = Some o /\ owner o = owner job /\ session_id o = session_id job /\ is_open o = true /\ i <> id.
Proof.
  unfold _open_job. intros Hh%head_Some_elem_of. apply chat_rows_spec in Hh as (Hi & Ho & Hs & Hf). cbn [fst snd] in Hf.
  apply andb_true_iff in Hf as [Hop Hne]. apply negb_true_iff, bool_decide_eq_false in Hne. done.
Qed.

Lemma open_job_None id job jobs : _open_job id job jobs = None -> ~ other_open id job jobs.
Proof.
  unfold _open_job. intros Hh%head_None (i & j & Hj & Hne & Ho & Hs & Hop).
  pose proof (proj1 (chat_rows_nil _ _ _ _) Hh i j Hj Ho Hs) as Hf. cbn [fst snd] in Hf. rewrite Hop in Hf.
  apply negb_false_iff, bool_decide_eq_true in Hf. done.
Qed.

(** How far some job of the chat of [job] had mined in [jobs]. *)
Definition mined_to jobs job (p : Z) : Prop :=
  exists i j, jobs !! i = Some j /\ owner j = owner job /\ session_id j = session_id job /\ p <= extracted_sequence j.

Lemma foldl_max_in l x : foldl Z.max x l = x \/ foldl Z.max x l ∈ l.
Proof.
  revert x. induction l as [|y l IH]; intros x; simpl; [by left|].
  destruct (IH (Z.max x y)) as [Heq|Hin]; [|right; by apply list_elem_of_further].
  rewrite Heq. destruct (Z.max_spec x y) as [[_ ->]|[_ ->]]; [right; apply list_elem_of_here|by left].
Qed.

Lemma progress_mined id job jobs :
  jobs !! id = Some job -> 0 <= extracted_sequence job ->
  extracted_sequence job <= _progress id job jobs /\ mined_to jobs job (_progress id job jobs).
Proof.
  intros Hj Hpos. unfold _progress. split; [lia|].
  destruct (Z.max_spec (extracted_sequence job) (max_or_0 ((fun kv => extracted_sequence kv.2) <$>
    chat_rows (owner job) (session_id job) (fun kv => negb (bool_decide (kv.1 = id))) jobs))) as [[Hlt ->]|[_ ->]].
  2:{ exists id, job. split_and!; (done || lia). }
  destruct (_ <$> _) as [|x l] eqn:Hl; [simpl in Hlt; lia|].
  assert (Hin : max_or_0 (x :: l) ∈ x :: l).
  { simpl. destruct (foldl_max_in l x) as [->|Hin]; [apply list_elem_of_here|by apply list_elem_of_further]. }
  rewrite <- Hl in Hin at 2. apply list_elem_of_fmap_1 in Hin as ([i j] & Heq & Hin).
  apply chat_rows_spec in Hin as (Hi & Ho & Hs & _). exists i, j. simpl in *. split_and!; (done || lia).
Qed.

(** The open job [o'] carries on [o]'s stretch, and maybe more. *)
Definition extends (o o' : MemoryJob Who) : Prop :=
  is_open o' = true /\ owner o' = owner o /\ session_id o' = session_id o /\
  extracted_sequence o' <= extracted_sequence o /\ watermark_sequence o <= watermark_sequence o'.

(** What is left of a failed job of the original table [jobs0]. *)
Definition settled jobs0 (id : string) job jobs : Prop :=
  (forall j, jobs !! id = Some j -> is_open j = true) /\
  exists p, extracted_sequence job <= p /\ mined_to jobs0 job p /\
    (watermark_sequence job <= p \/
     exists i o, jobs !! i = Some o /\ is_open o = true /\ owner o = owner job /\ session_id o = session_id job /\
       extracted_sequence o <= p /\ watermark_sequence job <= watermark_sequence o).

(** One step of the loop, seen from the rows. *)
Definition moves (id : string) jobs jobs' : Prop :=
  (forall i o, jobs !! i = Some o -> is_open o = true -> exists o', jobs' !! i = Some o' /\ extends o o') /\
  (forall i o, i <> id -> jobs !! i = Some o -> is_open o = false -> jobs' !! i = Some o) /\
  (forall i, jobs !! i = None -> jobs' !! i = None).

Lemma settled_moves jobs0 i job id jobs jobs' : i <> id -> moves id jobs jobs' -> settled jobs0 i job jobs -> settled jobs0 i job jobs'.
Proof.
  intros Hne (Hopen & Hclosed & Hnone) (Hgone & p & Hp & Hm & Hcov). split.
  - intros j Hj. destruct (jobs !! i) as [j0|] eqn:Hj0; [|rewrite Hnone in Hj by done; done].
    destruct (Hopen i j0 Hj0 (Hgone _ eq_refl)) as (o' & Ho' & Hext & _). congruence.
  - exists p. split; [done|]. split; [done|]. destruct Hcov as [|(k & o & Hk & Hop & Ho & Hs & He & Hw)]; [by left|right].
    destruct (Hopen k o Hk Hop) as (o' & Hk' & Hop' & Ho' & Hs' & He' & Hw'). exists k, o'. split_and!; try done; try congruence; lia.
Qed.

Definition total_counts (c : RetryCounts) : nat := (requeued c + merged c + covered c)%nat.

Lemma retry_one_covered draw now counts id job s :
  watermark_sequence job <= _progress id job (mem_of s) ->
  retry_failed_job (fun _ s => s) draw now counts (id, job) s =
    (Ok (MkRetryCounts (requeued counts) (merged counts) (covered counts + 1)), set_rows (delete id (mem_of s)) s).
Proof.
  intros Hle. unfold retry_failed_job. erewrite op_bind_ok; [|reflexivity]. change (rows s) with (mem_of s).
  rewrite (proj2 (Z.leb_le _ _)) by done. by erewrite op_bind_ok; [|apply delete_mem_run].
Qed.

(** The open job once it has taken a stretch over. *)
Definition taken (job : MemoryJob Who) (progress now : Z) (o : MemoryJob Who) : MemoryJob Who :=
  mem_with o (m_status o) (Z.max (watermark_sequence o) (watermark_sequence job)) (Z.min (extracted_sequence o) progress)
    (run_after o) (m_attempt_count o) (lease_expires_at o) (m_worker_id o) (m_last_error o) now.

Lemma retry_one_merged draw now counts id job i o s :
  open_unique (mem_of s) -> _progress id job (mem_of s) < watermark_sequence job -> _open_job id job (mem_of s) = Some (i, o) ->
  retry_failed_job (fun _ s => s) draw now counts (id, job) s =
    (Ok (MkRetryCounts (requeued counts) (merged counts + 1) (covered counts)),
     set_rows (delete id (<[i := taken job (_progress id job (mem_of s)) now o]> (mem_of s)))
       (put_mem i (taken job (_progress id job (mem_of s)) now o) s)).
Proof.
  intros Hu Hlt Hopen. pose proof Hopen as (Hi & Ho & Hs & Hop & Hne)%open_job_Some.
  unfold retry_failed_job. erewrite op_bind_ok; [|reflexivity]. change (rows s) with (mem_of s).
  rewrite (proj2 (Z.leb_gt _ _)) by done. erewrite op_bind_ok; [|reflexivity]. change (rows s) with (mem_of s). rewrite Hopen.
  erewrite op_bind_ok; [reflexivity|]. unfold merge_into. cbn [fst snd]. erewrite op_bind_ok.
  2:{ rewrite save_mem_run by done. rewrite (proj2 (index_allows_spec _ _ _)); [reflexivity|].
      intros _ k j Hk Hok Hsk Hopk. by eapply Hu. }
  rewrite delete_mem_run. by rewrite mem_put_mem.
Qed.

Lemma retry_one_requeued draw now counts id job s c s' :
  mem_of s !! id = Some job -> _progress id job (mem_of s) < watermark_sequence job -> _open_job id job (mem_of s) = None ->
  retry_failed_job (fun _ s => s) draw now counts (id, job) s = (Ok c, s') ->
  c = MkRetryCounts (requeued counts + 1) (merged counts) (covered counts) /\
  mem_of s' = <[id := mem_with job MemRetry (watermark_sequence job) (_progress id job (mem_of s)) now 0 None None None now]> (mem_of s) /\
  index_allows id (mem_with job MemRetry (watermark_sequence job) (_progress id job (mem_of s)) now 0 None None None now) (mem_of s) = true.
Proof.
  intros Hj Hlt Hopen Hrun. unfold retry_failed_job in Hrun. erewrite op_bind_ok in Hrun; [|reflexivity].
  change (rows s) with (mem_of s) in Hrun. rewrite (proj2 (Z.leb_gt _ _)) in Hrun by done.
  erewrite op_bind_ok in Hrun; [|reflexivity]. change (rows s) with (mem_of s) in Hrun. rewrite Hopen in Hrun.
  erewrite op_bind_ok in Hrun; [|reflexivity]. cbn [snd] in Hrun.
  set (job' := mem_with job MemRetry _ _ _ _ _ _ _ _) in *.
  assert (Hi : index_allows id job' (mem_of s) = true) by (apply (index_grants id job); [by apply open_job_None|done..]).
  erewrite op_bind_ok in Hrun.
  2:{ unfold nested. rewrite save_mem_run, Hi by done. reflexivity. }
  cbv iota in Hrun. apply op_bind_inv in Hrun as (u & s1 & Hd & Hret). injection Hret as <- <-.
  apply dispatch_mem_ok in Hd as [Hm _]. split; [done|]. split; [by rewrite Hm, mem_put_mem|done].
Qed.

Lemma extends_refl o : is_open o = true -> extends o o.
Proof. intros Hop. split_and!; (done || lia). Qed.

(** Everything one step owes: the counts, the settled job, the others untouched. *)
Lemma retry_failed_one draw now counts id job jobs0 s c s' :
  open_unique (mem_of s) -> mem_of s !! id = Some job -> m_status job = MemDead -> 0 <= extracted_sequence job ->
  (forall i o, mem_of s !! i = Some o -> 0 <= extracted_sequence o) ->
  (forall p, mined_to (mem_of s) job p -> mined_to jobs0 job p) ->
  retry_failed_job (fun _ s => s) draw now counts (id, job) s = (Ok c, s') ->
  total_counts c = (1 + total_counts counts)%nat /\ open_unique (mem_of s') /\ moves id (mem_of s) (mem_of s') /\
  settled jobs0 id job (mem_of s') /\
  (forall i o, mem_of s' !! i = Some o -> 0 <= extracted_sequence o /\
     exists j, mem_of s !! i = Some j /\ owner o = owner j /\ session_id o = session_id j /\
       (extracted_sequence o <= extracted_sequence j \/ i = id /\ extracted_sequence o = _progress id job (mem_of s))).
Proof.
  intros Hu Hj Hdead Hpos Hall Hback Hrun. pose proof (progress_mined id job _ Hj Hpos) as [Hle Hmined].
  apply Hback in Hmined. set (p := _progress id job (mem_of s)) in *.
  assert (Hclosed : is_open job = false) by (unfold is_open; by rewrite Hdead).
  destruct (Z.le_gt_cases (watermark_sequence job) p) as [Hcov|Hlt].
  - rewrite retry_one_covered in Hrun by done. injection Hrun as <- <-. rewrite mem_delete.
    split; [unfold total_counts; simpl; lia|]. split; [by apply delete_unique|]. split; [|split].
    + split_and!.
      * intros i o Hi Hop. exists o. rewrite lookup_delete_ne by congruence. split; [done|by apply extends_refl].
      * intros i o Hne Hi _. by rewrite lookup_delete_ne.
      * intros i Hi. destruct (decide (i = id)) as [->|Hne]; [apply lookup_delete_eq|by rewrite lookup_delete_ne].
    + split; [intros j; by rewrite lookup_delete_eq|]. exists p. auto.
    + intros i o [_ Hi]%lookup_delete_Some. split; [by eapply Hall|]. exists o. split_and!; (done || left; lia).
  - destruct (_open_job id job (mem_of s)) as [[i o]|] eqn:Hopen.
    + rewrite (retry_one_merged _ _ _ _ _ i o) in Hrun by done. injection Hrun as <- <-. fold p.
      apply open_job_Some in Hopen as (Hi & Ho & Hs & Hop & Hne).
      set (o' := taken job p now o). assert (Hm : forall t x, mem_of (set_rows t x) = t) by (intros; apply rows_set). rewrite Hm.
      assert (Hext : extends o o') by (split_and!; (done || simpl; lia)).
      split; [unfold total_counts; simpl; lia|]. split; [|split; [|split]].
      * apply delete_unique, insert_unique; [done|]. apply index_allows_spec. intros _ k j Hk Hok Hsk Hopk. by eapply Hu.
      * split_and!.
        -- intros k x Hk Hopk. destruct (decide (k = i)) as [->|Hki].
           ++ exists o'. rewrite lookup_delete_ne, lookup_insert_eq by done. split; [done|]. congruence.
           ++ exists x. rewrite lookup_delete_ne, lookup_insert_ne by congruence. split; [done|by apply extends_refl].
        -- intros k x Hkid Hk Hopk. rewrite lookup_delete_ne, lookup_insert_ne by congruence. done.
        -- intros k Hk. destruct (decide (k = id)) as [->|Hkid]; [apply lookup_delete_eq|].
           rewrite lookup_delete_ne, lookup_insert_ne by congruence. done.
      * split; [intros j; by rewrite lookup_delete_eq|]. exists p. split; [done|]. split; [done|]. right. exists i, o'.
        rewrite lookup_delete_ne, lookup_insert_eq by done. split_and!; (done || simpl; lia).
      * intros k x [Hk Hx]%lookup_delete_Some. rewrite lookup_insert in Hx. case_decide as Hik.
        -- injection Hx as <-. subst k. split; [simpl; specialize (Hall i o Hi); lia|]. exists o.
           split_and!; (done || simpl; lia).
        -- split; [by eapply Hall|]. exists x. split_and!; (done || left; lia).
    + apply retry_one_requeued in Hrun as (-> & Hm & Hidx); [|done..]. fold p in Hm, Hidx.
      set (j' := mem_with job MemRetry _ _ _ _ _ _ _ _) in *. rewrite Hm. split; [unfold total_counts; simpl; lia|].
      split; [by apply insert_unique|]. split; [|split].
      * split_and!.
        -- intros k x Hk Hopk. exists x. rewrite lookup_insert_ne by congruence. split; [done|by apply extends_refl].
        -- intros k x Hkid Hk _. by rewrite lookup_insert_ne.
        -- intros k Hk. rewrite lookup_insert_ne by congruence. done.
      * split; [intros j; rewrite lookup_insert_eq; by intros [= <-]|]. exists p. split; [done|]. split; [done|]. right.
        exists id, j'. rewrite lookup_insert_eq. split_and!; (done || simpl; lia).
      * intros k x Hk. rewrite lookup_insert in Hk. case_decide as Hik.
        -- injection Hk as <-. subst k. split; [simpl; lia|]. exists job. split_and!; try done. right. done.
        -- split; [by eapply Hall|]. exists x. split_and!; (done || left; lia).
Qed.

Lemma retry_all draw now jobs0 l counts s c s' :
  NoDup l.*1 -> open_unique (mem_of s) -> Forall (fun kv => mem_of s !! kv.1 = Some kv.2 /\ m_status kv.2 = MemDead) l ->
  (forall i o, mem_of s !! i = Some o -> 0 <= extracted_sequence o) ->
  (forall i o, mem_of s !! i = Some o -> mined_to jobs0 o (extracted_sequence o)) ->
  retry_loop (fun _ s => s) draw now counts l s = (Ok c, s') ->
  total_counts c = (total_counts counts + length l)%nat /\ open_unique (mem_of s') /\
  Forall (fun kv => settled jobs0 kv.1 kv.2 (mem_of s')) l /\
  (forall i job, i ∉ l.*1 -> settled jobs0 i job (mem_of s) -> settled jobs0 i job (mem_of s')).
Proof.
  revert counts s. induction l as [|[id job] l IH]; intros counts s Hnd Hu Hl Hpos Hback Hrun.
  - injection Hrun as <- <-. split; [simpl; lia|]. split; [done|]. split; [constructor|done].
  - apply NoDup_cons in Hnd as [Hni Hnd]. apply Forall_cons in Hl as [[Hj Hd] Hl]. cbn [fst snd] in *. cbn [retry_loop] in Hrun.
    assert (Hmined : forall i o p, mem_of s !! i = Some o -> mined_to (mem_of s) o p -> mined_to jobs0 o p).
    { intros i o p Hi (k & x & Hk & Ho & Hs & Hp). destruct (Hback k x Hk) as (k' & y & Hk' & Ho' & Hs' & Hp').
      exists k', y. split_and!; (done || congruence || lia). }
    apply op_bind_inv in Hrun as (c1 & s1 & Hone & Hrest).
    destruct (retry_failed_one draw now counts id job jobs0 s c1 s1 Hu Hj Hd (Hpos id job Hj) Hpos (fun p => Hmined id job p Hj) Hone)
      as (Hc1 & Hu1 & Hmoves & Hset & Hrows).
    destruct (IH c1 s1 Hnd Hu1) as (Hc & Hu' & Hsettled & Hkeep).
    + rewrite Forall_forall in Hl |- *. intros [i j] Hin. destruct (Hl _ Hin) as [Hi Hdi]. cbn [fst snd] in *. split; [|done].
      apply Hmoves; [|done|unfold is_open; by rewrite Hdi]. intros ->. apply Hni. by apply (list_elem_of_fmap_2 fst) in Hin.
    + intros i o Ho. by destruct (Hrows i o Ho).
    + intros i o Ho. destruct (Hrows i o Ho) as (_ & j & Hij & Hoj & Hsj & Hcase).
      assert (Hm : mined_to jobs0 j (extracted_sequence o)).
      { destruct Hcase as [Hle|[-> Heq]].
        - destruct (Hback i j Hij) as (k & y & Hk & Ho1 & Hs1 & Hle'). exists k, y. split_and!; (done || lia).
        - rewrite Heq. assert (j = job) as -> by congruence. eapply Hmined; [exact Hij|]. by apply progress_mined; [|eapply Hpos]. }
      destruct Hm as (k & y & Hk & Ho1 & Hs1 & Hle'). exists k, y. split_and!; (done || congruence).
    + exact Hrest.
    + split; [simpl; lia|]. split; [done|]. split.
      * constructor; [|exact Hsettled]. cbn [fst snd]. by apply Hkeep.
      * intros i x [Hne Hni']%not_elem_of_cons Hsx. apply Hkeep; [done|]. by eapply settled_moves.
Qed.

Lemma outbox_set_mem (t : table (MemoryJob Who)) s : rows (R := OutboxEvent) (set_rows t s) = rows s.
Proof. apply rows_other'. Qed.

Lemma dispatch_mem_outbox id attempt suffix avail event_id now s i :
  i <> event_id ->
  rows (R := OutboxEvent) (dispatch_mem id attempt suffix avail event_id now s).2 !! i = rows (R := OutboxEvent) s !! i.
Proof.
  intros Hi. unfold dispatch_mem, mbind, op_bind, on_table.
  pose proof (enqueue_cases AGGREGATE_TYPE id EVENT_TYPE
    [(of_string "job_id", JStr (of_string id)); (of_string "attempt", JInt attempt)] (_idempotency_key id attempt suffix)
    (Some avail) (rows s) event_id now) as Hc. cbv zeta in Hc.
  destruct (enqueue_outbox_event _ _ _ _ _ _ _ _ _) as [[a|e] o]; simpl in *; rewrite rows_set;
    destruct Hc as [->|(_ & _ & ->)]; [done|by rewrite lookup_insert_ne|done|by rewrite lookup_insert_ne].
Qed.

(** A step goes through when the uuid of its event is new. *)
Lemma retry_one_ok draw now counts id job s :
  open_unique (mem_of s) -> mem_of s !! id = Some job -> rows (R := OutboxEvent) s !! (draw id).2 = None ->
  exists c s', retry_failed_job (fun _ s => s) draw now counts (id, job) s = (Ok c, s') /\
    forall i, i <> (draw id).2 -> rows (R := OutboxEvent) s' !! i = rows (R := OutboxEvent) s !! i.
Proof.
  intros Hu Hj Hfree. destruct (Z.le_gt_cases (watermark_sequence job) (_progress id job (mem_of s))) as [Hle|Hlt].
  { eexists _, _. split; [by apply retry_one_covered|]. intros i _. by rewrite outbox_set_mem. }
  destruct (_open_job id job (mem_of s)) as [[k o]|] eqn:Hopen.
  { eexists _, _. split; [by apply retry_one_merged|]. intros i _. unfold put_mem. by rewrite !outbox_set_mem. }
  unfold retry_failed_job. erewrite op_bind_ok; [|reflexivity]. change (rows (R := MemoryJob Who) s) with (mem_of s).
  rewrite (proj2 (Z.leb_gt _ _)) by done. erewrite op_bind_ok; [|reflexivity]. change (rows (R := MemoryJob Who) s) with (mem_of s). rewrite Hopen.
  erewrite op_bind_ok; [|reflexivity]. cbn [snd].
  set (job' := mem_with job MemRetry _ _ _ _ _ _ _ _).
  destruct (dispatch_mem_free id 0 ("admin-retry" +:+ ":" +:+ (draw id).1) now (draw id).2 now (put_mem id job' s))
    as [s' Hd]; [by rewrite outbox_put_mem|].
  eexists _, s'. split.
  - erewrite op_bind_ok.
    2:{ unfold nested. rewrite save_mem_run by done.
        rewrite (index_grants id job) by (first [by apply open_job_None|done]). reflexivity. }
    cbv iota. erewrite op_bind_ok; [reflexivity|exact Hd].
  - intros i Hi. pose proof (dispatch_mem_outbox id 0 ("admin-retry" +:+ ":" +:+ (draw id).1) now (draw id).2 now (put_mem id job' s) i Hi) as Ho.
    rewrite Hd in Ho. simpl in Ho. by rewrite Ho, outbox_put_mem.
Qed.

Lemma retry_all_ok draw now l counts s :
  NoDup l.*1 -> open_unique (mem_of s) -> Forall (fun kv => mem_of s !! kv.1 = Some kv.2 /\ m_status kv.2 = MemDead) l ->
  (forall i o, mem_of s !! i = Some o -> 0 <= extracted_sequence o) ->
  NoDup ((fun id => (draw id).2) <$> l.*1) -> (forall id, id ∈ l.*1 -> rows (R := OutboxEvent) s !! (draw id).2 = None) ->
  exists c s', retry_loop (fun _ s => s) draw now counts l s = (Ok c, s').
Proof.
  revert counts s. induction l as [|[id job] l IH]; intros counts s Hnd Hu Hl Hpos Hnd' Hfree; [by eexists _, _|].
  apply NoDup_cons in Hnd as [Hni Hnd]. apply Forall_cons in Hl as [[Hj Hd] Hl]. cbn [fst snd] in *.
  rewrite fmap_cons in Hnd'. cbn [fmap list_fmap fst] in Hnd'. apply NoDup_cons in Hnd' as [Hni' Hnd'].
  destruct (retry_one_ok draw now counts id job s Hu Hj) as (c1 & s1 & Hone & Hout).
  { apply Hfree. apply list_elem_of_here. }
  destruct (retry_failed_one draw now counts id job (mem_of s) s c1 s1 Hu Hj Hd (Hpos id job Hj) Hpos (fun p Hp => Hp) Hone)
    as (_ & Hu1 & Hmoves & _ & Hrows).
  cbn [retry_loop]. erewrite op_bind_ok by exact Hone. apply IH; try done.
  - rewrite Forall_forall in Hl |- *. intros [i j] Hin. destruct (Hl _ Hin) as [Hi Hdi]. cbn [fst snd] in *. split; [|done].
    apply Hmoves; [|done|unfold is_open; by rewrite Hdi]. intros ->. apply Hni. by apply (list_elem_of_fmap_2 fst) in Hin.
  - intros i o Ho. by destruct (Hrows i o Ho).
  - intros i Hi. rewrite Hout; [apply Hfree; by apply list_elem_of_further|].
    intros Heq. apply Hni'. rewrite <- Heq. by apply (list_elem_of_fmap_2 (fun id => (draw id).2)) in Hi.
Qed.

(** Sending failed jobs back, with nobody else at work: every failed job of
    the selection, each given a new event uuid, is requeued, merged or covered, none of them stays failed,
    and no part of a stretch is lost - what of it the chat's jobs had not
    mined yet is taken whole by one open job of that chat, and at most one job
    of a chat is open. *)
Theorem retry_failed_jobs_correct job_ids draw now s :
  open_unique (mem_of s) -> (forall i o, mem_of s !! i = Some o -> 0 <= extracted_sequence o) ->
  NoDup ((fun id => (draw id).2) <$> (dead_jobs job_ids (mem_of s)).*1) ->
  (forall id, id ∈ (dead_jobs job_ids (mem_of s)).*1 -> rows (R := OutboxEvent) s !! (draw id).2 = None) ->
  exists c s', retry_failed_jobs (fun _ s => s) job_ids draw now s = (Ok c, s') /\
  (requeued c + merged c + covered c = length (dead_jobs job_ids (mem_of s)))%nat /\ open_unique (mem_of s') /\
  (forall id job, mem_of s !! id = Some job -> m_status job = MemDead -> selected job_ids id = true ->
     (forall j, mem_of s' !! id = Some j -> is_open j = true) /\
     exists p, extracted_sequence job <= p /\ mined_to (mem_of s) job p /\
       (watermark_sequence job <= p \/
        exists i o, mem_of s' !! i = Some o /\ is_open o = true /\ owner o = owner job /\ session_id o = session_id job /\
          extracted_sequence o <= p /\ watermark_sequence job <= watermark_sequence o)).
Proof.
  intros Hu Hpos Hids Hfree. set (l := dead_jobs job_ids (mem_of s)) in *.
  assert (Hnd : NoDup l.*1).
  { unfold l, dead_jobs. eapply sublist_NoDup; [apply (NoDup_fst_map_to_list (mem_of s))|]. apply fmap_sublist, sublist_filter. }
  assert (Hl : Forall (fun kv => mem_of s !! kv.1 = Some kv.2 /\ m_status kv.2 = MemDead) l).
  { apply Forall_forall. intros [i j] Hin. apply list_elem_of_filter in Hin as [[Hd _] Hin]. by apply elem_of_map_to_list in Hin. }
  destruct (retry_all_ok draw now l (MkRetryCounts 0 0 0) s Hnd Hu Hl Hpos Hids Hfree) as (c & s' & Hrun).
  exists c, s'. split; [unfold retry_failed_jobs; by erewrite op_bind_ok|].
  destruct (retry_all draw now (mem_of s) l (MkRetryCounts 0 0 0) s c s') as (Hc & Hu' & Hset & _); try done.
  - intros i o Ho. exists i, o. split_and!; (done || lia).
  - split; [exact Hc|]. split; [done|]. intros id job Hj Hd Hsel. rewrite Forall_forall in Hset.
    apply (Hset (id, job)). apply list_elem_of_filter. split; [done|]. by apply elem_of_map_to_list.
Qed.

(** ** Forgetting *)

Lemma last_messages_spec chats messages sid :
  (forall q, (sid, q) ∈ messages -> sid ∈ chats -> exists seq, last_messages chats messages !! sid = Some seq /\ q <= seq) /\
  (forall seq, last_messages chats messages !! sid = Some seq -> sid ∈ chats).
Proof.
  unfold last_messages.
  assert (Hgen : forall m : table Z,
    (forall q, ((sid, q) ∈ messages /\ sid ∈ chats \/ m !! sid = Some q) ->
       exists seq, foldl (fun m sm => if decide (sm.1 ∈ chats) then <[sm.1 := Z.max sm.2 (default sm.2 (m !! sm.1))]> m else m) m messages !! sid
         = Some seq /\ q <= seq) /\
    (forall seq, foldl (fun m sm => if decide (sm.1 ∈ chats) then <[sm.1 := Z.max sm.2 (default sm.2 (m !! sm.1))]> m else m) m messages !! sid
         = Some seq -> sid ∈ chats \/ is_Some (m !! sid))).
  { induction messages as [|[c q0] messages IH]; intros m; cbn [foldl fst snd].
    - split; [|intros seq Hs; right; by eexists]. intros q [[Hin _]|Hq]; [by apply elem_of_nil in Hin|]. eexists. split; [exact Hq|lia].
    - destruct (IH (if decide (c ∈ chats) then <[c := Z.max q0 (default q0 (m !! c))]> m else m)) as [IH1 IH2]. split.
      + intros q Hq. destruct (decide (c = sid)) as [->|Hne].
        * destruct (decide (sid ∈ chats)) as [Hc|Hc].
          -- destruct (IH1 (Z.max q0 (default q0 (m !! sid)))) as (seq & Hseq & Hle); [right; apply lookup_insert_eq|].
             destruct Hq as [[[[= ->]|Hin]%elem_of_cons _]|Hq].
             ++ exists seq. split; [exact Hseq|lia].
             ++ destruct (IH1 q) as (seq' & Hseq' & Hle'); [by left|]. exists seq'. done.
             ++ rewrite Hq in *. exists seq. simpl in Hle. split; [exact Hseq|lia].
          -- apply IH1. destruct Hq as [[_ Hc']|Hq]; [done|by right].
        * apply IH1. destruct Hq as [[[[= -> _]|Hin]%elem_of_cons Hc]|Hq]; [done|by left|right].
          case_decide; [by rewrite lookup_insert_ne|done].
      + intros seq Hseq. destruct (IH2 seq Hseq) as [|Hm]; [by left|].
        case_decide as Hc; [|by right]. rewrite lookup_insert in Hm. case_decide as Heq; [left; congruence|by right]. }
  destruct (Hgen ∅) as [H1' H2']. split; [intros q Hq Hc; apply H1'; by left|].
  intros seq Hs. destruct (H2' seq Hs) as [|[x Hx]]; [done|]. by rewrite lookup_empty in Hx.
Qed.

(** Writing rows that are not open never meets the index. *)
Lemma save_closed (f : MemoryJob Who -> MemoryJob Who) l s :
  (forall job, is_open (f job) = false) -> NoDup l.*1 -> Forall (fun kv => mem_of s !! kv.1 = Some kv.2) l ->
  exists r s', for_each (fun kv => save_mem kv.1 kv.2 (f kv.2)) l s = (Ok r, s') /\
    forall i, mem_of s' !! i = if decide (i ∈ l.*1) then f <$> mem_of s !! i else mem_of s !! i.
Proof.
  intros Hf. revert s. induction l as [|[id job] l IH]; intros s Hnd Hl.
  - exists [], s. split; [done|]. intros i. rewrite decide_False; [done|apply not_elem_of_nil].
  - apply NoDup_cons in Hnd as [Hni Hnd]. apply Forall_cons in Hl as [Hj Hl]. cbn [fst snd] in *.
    assert (Hsame : forall i, i <> id -> mem_of (put_mem id (f job) s) !! i = mem_of s !! i).
    { intros i Hi. by rewrite mem_put_mem, lookup_insert_ne. }
    destruct (IH (put_mem id (f job) s) Hnd) as (r & s' & Hrun & Hrows).
    { rewrite Forall_forall in Hl |- *. intros [i j] Hin. cbn [fst snd]. rewrite Hsame; [by apply (Hl (i, j))|].
      intros ->. apply Hni. by apply (list_elem_of_fmap_2 fst) in Hin. }
    exists (tt :: r), s'. split.
    + cbn [for_each]. erewrite op_bind_ok; [erewrite op_bind_ok; [reflexivity|exact Hrun]|]. cbn [fst snd].
      rewrite save_mem_run by done. rewrite (proj2 (index_allows_spec _ _ _)); [done|]. by rewrite Hf.
    + intros i. rewrite Hrows. cbn [fmap list_fmap fst]. destruct (decide (i = id)) as [->|Hne].
      * rewrite (decide_False (P := id ∈ l.*1)) by done. rewrite (decide_True (P := id ∈ _)) by apply list_elem_of_here.
        by rewrite mem_put_mem, lookup_insert_eq, Hj.
      * rewrite Hsame by done. destruct (decide (i ∈ l.*1)) as [Hi|Hi].
        -- by rewrite (decide_True (P := i ∈ _ :: _)) by (by apply list_elem_of_further).
        -- rewrite (decide_False (P := i ∈ _ :: _)); [done|]. intros [->|?]%elem_of_cons; done.
Qed.

Lemma insert_closed (new_id : string -> string) (row : string * Z -> MemoryJob Who) l s :
  (forall sq, is_open (row sq) = false) -> NoDup (new_id <$> l.*1) ->
  (forall sid, sid ∈ l.*1 -> mem_of s !! new_id sid = None) ->
  exists r s', for_each (fun sq => insert_mem (new_id sq.1) (row sq)) l s = (Ok r, s') /\
    (forall sq, sq ∈ l -> mem_of s' !! new_id sq.1 = Some (row sq)) /\
    (forall i j, mem_of s' !! i = Some j -> mem_of s !! i = Some j \/ exists sq, sq ∈ l /\ j = row sq) /\
    (forall i j, mem_of s !! i = Some j -> mem_of s' !! i = Some j).
Proof.
  intros Hrow. revert s. induction l as [|[sid seq] l IH]; intros s Hnd Hfree.
  - exists [], s. split; [done|]. split; [intros sq Hin; by apply elem_of_nil in Hin|]. split; [auto|done].
  - cbn [fmap list_fmap fst] in Hnd. apply NoDup_cons in Hnd as [Hni Hnd].
    assert (Hnone : mem_of s !! new_id sid = None) by (apply Hfree, list_elem_of_here).
    destruct (IH (put_mem (new_id sid) (row (sid, seq)) s) Hnd) as (r & s' & Hrun & Hnew & Hback & Hkeep).
    { intros x Hx. rewrite mem_put_mem, lookup_insert_ne; [apply Hfree; by apply list_elem_of_further|].
      intros Heq. apply Hni. rewrite Heq. by apply list_elem_of_fmap_2. }
    exists (tt :: r), s'. split; [|split; [|split]].
    + cbn [for_each]. erewrite op_bind_ok; [erewrite op_bind_ok; [reflexivity|exact Hrun]|]. cbn [fst].
      rewrite insert_mem_run by done. rewrite (proj2 (index_allows_spec _ _ _)); [done|]. by rewrite Hrow.
    + intros sq [->|Hin]%elem_of_cons; [|by apply Hnew]. apply Hkeep. cbn [fst]. by rewrite mem_put_mem, lookup_insert_eq.
    + intros i j Hj. destruct (Hback i j Hj) as [Hi|(sq & Hin & ->)].
      * rewrite mem_put_mem, lookup_insert in Hi. case_decide; [|by left]. injection Hi as <-. right. eexists.
        split; [apply list_elem_of_here|done].
      * right. exists sq. split; [by apply list_elem_of_further|done].
    + intros i j Hj. apply Hkeep. rewrite mem_put_mem, lookup_insert_ne; [done|]. intros <-. congruence.
Qed.

Lemma latest_ge o sid q jobs :
  (exists i j, jobs !! i = Some j /\ owner j = o /\ session_id j = sid) ->
  (forall i j, jobs !! i = Some j -> owner j = o -> session_id j = sid -> q <= extracted_sequence j) ->
  q <= _latest_extracted_sequence o sid jobs.
Proof.
  intros (i & j & Hj & Ho & Hs) Hall. unfold _latest_extracted_sequence.
  pose proof (sort_by_perm (fun kv => - m_updated_at kv.2) (chat_rows o sid (fun _ => true) jobs)) as Hp.
  destruct (sort_by _ _) as [|[k x] l] eqn:Hsort.
  - apply Permutation_nil_l in Hp. assert (Hin : (i, j) ∈ chat_rows o sid (fun _ => true) jobs) by (by apply chat_rows_spec).
    rewrite <- Hp in Hin. by apply elem_of_nil in Hin.
  - assert (Hin : (k, x) ∈ chat_rows o sid (fun _ => true) jobs) by (rewrite <- Hp; apply list_elem_of_here).
    apply chat_rows_spec in Hin as (Hk & Hok & Hsk & _). by apply (Hall k x).
Qed.

(** The owner's jobs, and what becomes of them in the first loop. *)
Definition owned (o : Who) jobs : list (string * MemoryJob Who) :=
  filter (fun kv => bool_decide (owner kv.2 = o) = true) (map_to_list jobs).

Lemma owned_spec o jobs i j : (i, j) ∈ owned o jobs <-> jobs !! i = Some j /\ owner j = o.
Proof. unfold owned. rewrite list_elem_of_filter, elem_of_map_to_list, bool_decide_eq_true. cbn [snd]. naive_solver. Qed.

Lemma forgotten_closed seqs now job : is_open (forgotten seqs now job) = false.
Proof. unfold forgotten. destruct (is_open job) eqn:Hop; [done|]. exact Hop. Qed.

Lemma forget_owned o seqs now s :
  exists r s1, for_each (fun kv => save_mem kv.1 kv.2 (forgotten seqs now kv.2)) (owned o (mem_of s)) s = (Ok r, s1) /\
    (forall i j, mem_of s !! i = Some j -> mem_of s1 !! i = Some (if decide (owner j = o) then forgotten seqs now j else j)) /\
    (forall i, mem_of s !! i = None -> mem_of s1 !! i = None).
Proof.
  destruct (save_closed (forgotten seqs now) (owned o (mem_of s)) s (forgotten_closed seqs now)) as (r & s1 & Hsave & Hrows).
  { eapply sublist_NoDup; [apply (NoDup_fst_map_to_list (mem_of s))|]. apply fmap_sublist, sublist_filter. }
  { apply Forall_forall. intros [i j] Hin. apply owned_spec in Hin as [Hj _]. exact Hj. }
  exists r, s1. split; [exact Hsave|]. split.
  - intros i j Hj. rewrite Hrows, Hj. destruct (decide (i ∈ (owned o (mem_of s)).*1)) as [Hi|Hi].
    + apply list_elem_of_fmap_1 in Hi as ([i' j'] & -> & Hin). apply owned_spec in Hin as [Hj' Ho]. cbn [fst] in Hj.
      assert (j' = j) as -> by congruence. by rewrite decide_True.
    + rewrite decide_False; [done|]. intros Ho. apply Hi. apply (list_elem_of_fmap_2' fst _ (i, j)); [|done]. by apply owned_spec.
  - intros i Hi. rewrite Hrows, Hi. by case_decide.
Qed.

(** Both loops, seen from the rows: old rows changed or not, new ones added. *)
Definition added_row (o : Who) (now : Z) (sq : string * Z) : MemoryJob Who :=
  MkMemoryJob o sq.1 MemSucceeded sq.2 sq.2 now 0 memory_job_max_attempts None None None now now.

Lemma reset_rows o chats messages new_id now s :
  let seqs := last_messages chats messages in
  NoDup (new_id <$> (map_to_list seqs).*1) -> (forall sid, is_Some (seqs !! sid) -> mem_of s !! new_id sid = None) ->
  exists s', reset_watermarks o chats messages new_id now s = (Ok tt, s') /\
    (forall i j, mem_of s !! i = Some j -> mem_of s' !! i = Some (if decide (owner j = o) then forgotten seqs now j else j)) /\
    (forall i j, mem_of s' !! i = Some j -> is_Some (mem_of s !! i) \/ exists sid seq, seqs !! sid = Some seq /\ j = added_row o now (sid, seq)) /\
    (forall sid seq, seqs !! sid = Some seq -> (forall i j, mem_of s !! i = Some j -> owner j = o -> session_id j <> sid) ->
       mem_of s' !! new_id sid = Some (added_row o now (sid, seq))).
Proof.
  intros seqs Hnd Hfree. unfold reset_watermarks. cbv zeta. fold seqs.
  erewrite op_bind_ok; [|reflexivity]. change (rows s) with (mem_of s). fold (owned o (mem_of s)).
  destruct (forget_owned o seqs now s) as (r & s1 & Hsave & Hsome & Hnone). erewrite op_bind_ok by exact Hsave.
  set (fresh := filter (fun sq => sq.1 ∉ _) (map_to_list seqs)).
  destruct (insert_closed new_id (added_row o now) fresh s1) as (r' & s' & Hins & Hnew & Hback & Hkeep).
  { done. }
  { eapply sublist_NoDup; [exact Hnd|]. apply fmap_sublist, fmap_sublist, sublist_filter. }
  { intros sid Hin. apply list_elem_of_fmap_1 in Hin as ([c seq] & -> & Hin). apply list_elem_of_filter in Hin as [_ Hin].
    apply elem_of_map_to_list in Hin. apply Hnone, Hfree. by eexists. }
  exists s'. split; [by erewrite op_bind_ok by exact Hins|]. split; [|split].
  - intros i j Hj. by apply Hkeep, Hsome.
  - intros i j Hj. apply Hback in Hj as [Hj|([sid seq] & Hin & ->)].
    + left. destruct (mem_of s !! i) eqn:Hi; [by eexists|]. by rewrite Hnone in Hj.
    + right. exists sid, seq. split; [|done]. apply list_elem_of_filter in Hin as [_ Hin]. by apply elem_of_map_to_list in Hin.
  - intros sid seq Hseq Hno. apply (Hnew (sid, seq)). apply list_elem_of_filter. split; [|by apply elem_of_map_to_list].
    cbn [fst]. intros Hin. apply list_elem_of_fmap_1 in Hin as ([i j] & -> & Hin). apply owned_spec in Hin as [Hj Ho].
    by apply (Hno i j Hj Ho).
Qed.

(** Forgetting closes an owner's chats behind their last message: no job of
    the owner stays open, every job of a chat with messages counts as mined to
    at least its last one - a chat without any job gets one that says so - and
    so the next job of any of the chats starts after it; the jobs of other
    owners are untouched. *)
Theorem reset_watermarks_correct o chats messages new_id now s :
  NoDup (new_id <$> (map_to_list (last_messages chats messages)).*1) ->
  (forall sid, is_Some (last_messages chats messages !! sid) -> mem_of s !! new_id sid = None) ->
  exists s', reset_watermarks o chats messages new_id now s = (Ok tt, s') /\
    (forall i j, mem_of s' !! i = Some j -> owner j = o -> is_open j = false) /\
    (forall sid q, (sid, q) ∈ messages -> sid ∈ chats ->
       (exists i j, mem_of s' !! i = Some j /\ owner j = o /\ session_id j = sid) /\
       (forall i j, mem_of s' !! i = Some j -> owner j = o -> session_id j = sid ->
          q <= extracted_sequence j /\ q <= watermark_sequence j) /\
       q <= _latest_extracted_sequence o sid (mem_of s')) /\
    (forall i j, mem_of s !! i = Some j -> owner j <> o -> mem_of s' !! i = Some j).
Proof.
  intros Hnd Hfree. destruct (reset_rows o chats messages new_id now s Hnd Hfree) as (s' & Hrun & Hold & Hback & Hnew).
  set (seqs := last_messages chats messages) in *. exists s'. split; [exact Hrun|].
  assert (Hall : forall i j, mem_of s' !! i = Some j -> owner j = o -> is_open j = false /\
    forall seq, seqs !! session_id j = Some seq -> seq <= extracted_sequence j /\ seq <= watermark_sequence j).
  { intros i j Hj Ho. apply Hback in Hj as Hcase. destruct Hcase as [[j0 Hj0]|(sid & q & Hq & ->)].
    - rewrite (Hold i j0 Hj0) in Hj. injection Hj as <-. case_decide as Ho0; [|done]. split; [apply forgotten_closed|].
      intros seq Hseq. unfold forgotten in *. simpl in *. rewrite Hseq. simpl. lia.
    - split; [done|]. intros seq Hseq. simpl in *. assert (seq = q) as -> by congruence. lia. }
  split; [intros i j Hj Ho; by apply (Hall i j)|]. split; [|intros i j Hj Ho; rewrite (Hold i j Hj); by rewrite decide_False].
  intros sid q Hin Hc. destruct (proj1 (last_messages_spec chats messages sid) q Hin Hc) as (seq & Hseq & Hle). fold seqs in Hseq.
  assert (Hex : exists i j, mem_of s' !! i = Some j /\ owner j = o /\ session_id j = sid).
  { destruct (chat_rows o sid (fun _ => true) (mem_of s)) as [|[i j] l] eqn:Hrows.
    - eexists _, _. split; [apply (Hnew sid seq Hseq)|done]. intros i j Hj Ho Hs.
      by pose proof (proj1 (chat_rows_nil _ _ _ _) Hrows i j Hj Ho Hs).
    - assert (Hij : (i, j) ∈ chat_rows o sid (fun _ => true) (mem_of s)) by (rewrite Hrows; apply list_elem_of_here).
      apply chat_rows_spec in Hij as (Hj & Ho & Hs & _). eexists i, _. split; [by apply Hold|]. by rewrite decide_True. }
  assert (Hge : forall i j, mem_of s' !! i = Some j -> owner j = o -> session_id j = sid ->
    q <= extracted_sequence j /\ q <= watermark_sequence j).
  { intros i j Hj Ho Hs. destruct (Hall i j Hj Ho) as [_ Hseqs]. rewrite Hs in Hseqs. specialize (Hseqs seq Hseq). lia. }
  split; [exact Hex|]. split; [exact Hge|]. apply latest_ge; [exact Hex|]. intros i j Hj Ho Hs. by apply (Hge i j).
Qed.
End facts.

(** ** The gates *)

(** No chat feeds both memories: what may be mined for a person is outside
    every project, and what may be mined for a project is in it; and nothing
    private, no member channel and nothing while extraction is switched off is
    mined for either. *)
Theorem memories_are_disjoint `{Settings} settings settings' prefs session user_id project_id feature flags :
  ~ (User.may_extract settings prefs session user_id feature = true /\
     Project.may_extract settings' session project_id flags = true) /\
  (User.may_extract settings prefs session user_id feature = true \/
   Project.may_extract settings' session project_id flags = true ->
   memory_extract_enabled = true /\
   exists c, session = Some c /\ private_mode c = false /\ is_member_channel c = false).
Proof.
  unfold User.may_extract, Project.may_extract, Project.is_eligible_session. destruct session as [c|].
  - destruct (in_project c), (private_mode c) eqn:Hp, (is_member_channel c) eqn:Hm; cbn [negb andb orb];
      rewrite ?andb_false_r, ?andb_true_r; cbn [negb andb orb]; rewrite ?andb_false_r;
      (split; [by intros []|]); (intros [Hu|Hu]; [..]); try done; rewrite !andb_true_iff in Hu;
      destruct_and!; (split; [done|]); exists c; done.
  - rewrite ?andb_false_r. cbn [andb]. rewrite ?andb_false_r. split; [by intros []|by intros [|]].
Qed.

(** ** Instances *)

Record MemoryDB (Who : Type) := MkMemoryDB { mdb_outbox : outbox; mdb_jobs : table (MemoryJob Who) }.
Arguments MkMemoryDB {Who}. Arguments mdb_outbox {Who} _. Arguments mdb_jobs {Who} _.

#[export, refine] Instance mdb_outbox_table Who : HasTable (MemoryDB Who) OutboxEvent := {|
  rows := mdb_outbox; set_rows t s := MkMemoryDB t (mdb_jobs s) |}.
Proof. all: by repeat intros []. Defined.

#[export, refine] Instance mdb_jobs_table Who : HasTable (MemoryDB Who) (MemoryJob Who) := {|
  rows := mdb_jobs; set_rows t s := MkMemoryDB (mdb_outbox s) t |}.
Proof. all: by repeat intros []. Defined.

#[export] Instance mdb_separate Who : Separate (MemoryDB Who) OutboxEvent (MemoryJob Who).
Proof. constructor; by intros t []. Qed.

Section examples.
#[local] Existing Instance default_settings.
#[local] Existing Instance user_scope.
#[local] Instance no_strings : PyInt := {| int_of_str _ := None; int_of_float _ := None |}.
#[local] Instance utc : LocalTime := {| timestamp t := t / 1000000 |}.

(** User 7's chat "c": a job mining it, and a later one that waits. *)
Definition sample_job (st : mem_status) (from to : Z) (lease : option Z) (worker : option string) : MemoryJob Z :=
  MkMemoryJob 7 "c" st to from 0 1 5 lease worker None 0 0.

Definition sample_mem (jobs : table (MemoryJob Z)) : MemoryDB Z := MkMemoryDB ∅ jobs.

Definition running_and_open : MemoryDB Z :=
  sample_mem (<["r" := sample_job MemRunning 0 10 (Some (seconds 100)) (Some "w"%string)]>
    (<["o" := sample_job MemPending 10 20 None None]> ∅)).

Definition one_running : MemoryDB Z :=
  sample_mem (<["r" := sample_job MemRunning 0 10 (Some (seconds 100)) (Some "w"%string)]> ∅).

Definition one_dead : MemoryDB Z := sample_mem (<["d" := sample_job MemDead 3 10 None None]> ∅).

Lemma unique_single id (j : MemoryJob Z) : open_unique (<[id := j]> ∅).
Proof.
  intros a b x y. rewrite !lookup_insert, !lookup_empty. repeat case_decide; congruence.
Qed.

Lemma queue_extraction_correct_witness :
  exists s', queue_extraction [] 7 "c" 30 None "n" "e" (fun s => s) (seconds 50) one_running = (Ok (Some "n"%string), s') /\
    exists job, mem_of s' !! "n"%string = Some job /\ 10 <= extracted_sequence job.
Proof.
  pose (s' := (queue_extraction [] 7 "c" 30 None "n" "e" (fun s => s) (seconds 50) one_running).2).
  assert (Hrun : queue_extraction [] 7 "c" 30 None "n" "e" (fun s => s) (seconds 50) one_running = (Ok (Some "n"%string), s'))
    by (vm_compute; reflexivity).
  exists s'. split; [exact Hrun|].
  destruct (queue_extraction_correct [] 7 "c" 30 None "n" "e" (fun s => s) (seconds 50) one_running 30 600
    (Some "n"%string) s') as [_ Hres]; [reflexivity|reflexivity|apply unique_single|done|exact Hrun|].
  destruct (Hres "n"%string eq_refl) as (job & Hj & _ & _ & _ & _ & _ & Hnew). exists job. split; [exact Hj|].
  destruct Hnew as (_ & _ & _ & Hge & _).
  - reflexivity.
  - intros i old. unfold one_running. simpl. rewrite lookup_insert, lookup_empty. case_decide; [|done]. by intros [= <-].
  - reflexivity.
  - specialize (Hge "r"%string _ ltac:(vm_compute; reflexivity)). apply Hge. split_and!; try reflexivity; [|by left].
    eexists. split; reflexivity.
Defined.

Lemma fail_job_correct_witness :
  fail_job "r" (sample_job MemRunning 0 10 (Some (seconds 100)) (Some "w"%string)) "w" [] true "e" (seconds 60) running_and_open
  = (Raise (OtherError "IntegrityError"), running_and_open).
Proof.
  apply (fail_job_correct "r" "w" (sample_job MemRunning 0 10 (Some (seconds 100)) (Some "w"%string)) [] true "e" (seconds 60)
    running_and_open); [reflexivity|simpl; lia|reflexivity|reflexivity|reflexivity|vm_compute; reflexivity|].
  exists "o"%string, (sample_job MemPending 10 20 None None). split_and!; (reflexivity || done).
Defined.

Lemma recover_stale_jobs_correct_witness :
  exists e s', recover_stale_jobs false ∅ 100 (seconds 200) (fun id => "e") running_and_open = (Raise e, s').
Proof.
  apply (recover_stale_jobs_correct false ∅ 100 (seconds 200) (fun id => "e"%string) running_and_open).
  exists "r"%string, (sample_job MemRunning 0 10 (Some (seconds 100)) (Some "w"%string)). split.
  - assert (stale_runs false ∅ 100 (seconds 200) (mem_of running_and_open) =
      [("r"%string, sample_job MemRunning 0 10 (Some (seconds 100)) (Some "w"%string))]) as -> by (vm_compute; reflexivity).
    apply list_elem_of_here.
  - exists "o"%string, (sample_job MemPending 10 20 None None). split_and!; (reflexivity || done).
Defined.

Lemma retry_failed_jobs_correct_witness :
  exists c s', retry_failed_jobs (fun _ s => s) None (fun id => ("n", "e")%string) (seconds 60) one_dead = (Ok c, s') /\
    (requeued c + merged c + covered c = 1)%nat.
Proof.
  destruct (retry_failed_jobs_correct None (fun id => ("n", "e")%string) (seconds 60) one_dead) as (c & s' & Hrun & Hc & _).
  - apply unique_single.
  - intros i o. unfold one_dead. simpl. rewrite lookup_insert, lookup_empty. case_decide; [|done]. by intros [= <-].
  - apply (bool_decide_unpack _). vm_compute. exact I.
  - intros id _. reflexivity.
  - exists c, s'. split; [exact Hrun|]. rewrite Hc. vm_compute. reflexivity.
Defined.

Lemma reset_watermarks_correct_witness :
  exists s', User.reset_watermarks_for_user 7 {["c" := MkChatSession 7 None false false]} [("c", 4); ("c", 12)]%string
    (fun sid => sid) (seconds 60) running_and_open = (Ok tt, s') /\
    12 <= _latest_extracted_sequence 7 "c" (mem_of s').
Proof.
  destruct (reset_watermarks_correct 7 ["c"%string] [("c", 4); ("c", 12)]%string (fun sid => sid) (seconds 60) running_and_open)
    as (s' & Hrun & _ & Hseq & _).
  - apply (bool_decide_unpack _). vm_compute. exact I.
  - intros sid [x Hx]. assert (sid = "c"%string) as ->.
    { pose proof (proj2 (last_messages_spec ["c"%string] [("c", 4); ("c", 12)]%string sid) x Hx) as Hin.
      by apply list_elem_of_singleton in Hin. }
    vm_compute. reflexivity.
  - exists s'. split; [exact Hrun|]. apply (Hseq "c"%string 12); [|apply list_elem_of_here].
    apply list_elem_of_further, list_elem_of_here.
Defined.
End examples.
