(* ===== verification/ChatHistory.v ===== *)
(** * A chat's messages as a model reads them

    [chat_history_service.py], with the markers of [chat_markers.py]: the words
    of a stored message, and the older messages put in front of a turn whose
    client sent only the chat's latest part. *)

From S2P Require Import Prelude Text Json JsonParse PyText MemoryJobs.

(** A row of [chat_messages]; [msg_meta] is its JSON column. *)
Record Message := MkMessage {
  msg_session : string; msg_sequence : Z; msg_role : string; msg_content : text; msg_meta : json
}.

#[export] Instance message_eq_dec : EqDecision Message.
Proof. solve_decision. Defined.

(** ** Markers *)

Definition IMAGE_MESSAGE_PREFIX : text := of_string "__ALPHA_ROUTER_IMAGE_JSON__:".
Definition VIDEO_MESSAGE_PREFIX : text := of_string "__ALPHA_ROUTER_VIDEO_JSON__:".
Definition SPEECH_MESSAGE_PREFIX : text := of_string "__ALPHA_ROUTER_SPEECH_JSON__:".
Definition ATTACHMENT_MESSAGE_PREFIX : text := of_string "__ALPHA_ROUTER_ATTACH_JSON__:".
Definition AUDIO_MESSAGE_PREFIX : text := of_string "__ALPHA_ROUTER_AUDIO_JSON__:".

Definition _MEDIA : list (text * text) :=
  [(IMAGE_MESSAGE_PREFIX, of_string "Generated image"); (VIDEO_MESSAGE_PREFIX, of_string "Generated video");
   (SPEECH_MESSAGE_PREFIX, of_string "Generated speech")].

(** [bool(meta.get(key))] of a meta that is a dict, [False] otherwise *)
Definition meta_flag (key : string) (meta : json) : bool :=
  match meta with
  | JObj fields => match field (of_string key) fields with Some v => truthy v | None => false end
  | _ => false
  end.

Definition refused_by_guardrails (meta : json) : bool :=
  meta_flag "guardrailHeldBack" meta || meta_flag "guardrailBlocked" meta.

Definition restates_a_shared_page (m : Message) : bool :=
  bool_decide (msg_role m = "assistant"%string) && meta_flag "pageContext" (msg_meta m).

Definition restates_mail (m : Message) : bool :=
  bool_decide (msg_role m = "assistant"%string) && meta_flag "mailContext" (msg_meta m).

(** ** The words of a message *)

(** [sep.join(parts)] *)
Fixpoint join (sep : text) (parts : list text) : text :=
  match parts with [] => [] | [p] => p | p :: parts => p ++ sep ++ join sep parts end.

Definition nonempty : list text -> list text := filter (fun p => p <> []).

(** [for x in value or []]: the elements, as JSON values; [TypeError] for a number or [True]. *)
Definition items_or_empty (value : option json) : res (list json) :=
  match value with
  | None => Ok []
  | Some v =>
      if negb (truthy v) then Ok [] else
      match v with
      | JList l => Ok l
      | JStr s => Ok ((fun c => JStr [c]) <$> s)
      | JObj fields => Ok ((fun kv => JStr kv.1) <$> fields)
      | _ => Raise (OtherError "TypeError: object is not iterable")
      end
  end.

Section text_for_model.
Context `{PyStr} `{PyRepr} `{PyFloat}.

Definition _json_after (content prefix : text) : option (list (text * json)) :=
  match loads (drop (length prefix) content) with Some (JObj fields) => Some fields | _ => None end.

(** One attachment: what it adds to the text, and to the images named at the end. *)
Definition attachment_chunk (attachment : json) : list text * list text :=
  match attachment with
  | JObj fields =>
      let name := match str_field "name" fields with [] => of_string "attachment" | name => name end in
      match strip (str_field "text" fields) with
      | [] =>
          if bool_decide (str_field "kind" fields = of_string "image") then ([], [name])
          else ([of_string "[Attached file: " ++ name ++ of_string "]"], [])
      | words => ([of_string "--- " ++ name ++ of_string " ---" ++ 10 :: words], [])
      end
  | _ => ([], [])
  end.

Definition _attachment_text (payload : list (text * json)) : res text :=
  attachments ← items_or_empty (field (of_string "attachments") payload);
  let parts := attachment_chunk <$> attachments in
  let images := parts ≫= snd in
  let chunks := strip (str_field "userText" payload) :: (parts ≫= fst) ++
    match images with [] => [] | _ => [of_string "[Attached image(s): " ++ join (of_string ", ") images ++ of_string "]"] end in
  mret (join [10; 10] (nonempty chunks)).

(** The text of one part of a list content, when it is a text part. *)
Definition part_text (item : json) : list text :=
  match item with
  | JObj fields =>
      if bool_decide (field (of_string "type") fields = Some (JStr (of_string "text"))) then [str_field "text" fields] else []
  | _ => []
  end.

Fixpoint media_text (kinds : list (text * text)) (content : text) : text :=
  match kinds with
  | [] => content
  | (prefix, label) :: kinds =>
      if starts_with prefix content then
        let payload := default [] (_json_after content prefix) in
        let prompt := strip (match str_field "prompt" payload with [] => str_field "text" payload | p => p end) in
        match prompt with
        | [] => of_string "[" ++ label ++ of_string "]"
        | _ => of_string "[" ++ label ++ of_string ": " ++ prompt ++ of_string "]"
        end
      else media_text kinds content
  end.

(** A falsy content is the empty string. *)
Definition message_text_for_model (content : json) : res text :=
  match content with
  | JList items => mret (strip (join [32] (nonempty (items ≫= part_text))))
  | _ =>
      let t := strip (if truthy content then py_str content else []) in
      if bool_decide (t = []) || bool_decide (t ∈ PENDING_MARKERS) then mret []
      else if starts_with ATTACHMENT_MESSAGE_PREFIX t then
        match _json_after t ATTACHMENT_MESSAGE_PREFIX with Some payload => _attachment_text payload | None => mret t end
      else if starts_with AUDIO_MESSAGE_PREFIX t then
        mret (strip (str_field "transcript" (default [] (_json_after t AUDIO_MESSAGE_PREFIX))))
      else mret (media_text _MEDIA t)
  end.

(** ** Older messages *)

Definition MAX_COMPLETED_MESSAGES : nat := 5000.
Definition MAX_COMPLETED_CHARS : Z := 4000000.
Definition READ_BATCH : nat := 100.

(** What a turn's message says: its role and its words. *)
Definition Turn : Type := string * text.

Definition is_dialogue (m : Message) : bool := bool_decide (msg_role m ∈ ["user"; "assistant"]%string).

(** The chat's user and assistant messages before [upper], newest first. *)
Definition older_rows (session_id : string) (upper : Z) (messages : list Message) : list Message :=
  reverse (sort_by msg_sequence (filter (fun m =>
    msg_session m = session_id /\ msg_sequence m < upper /\ is_dialogue m = true) messages)).

(** The [for] loop over one batch: the messages kept so far, newest first, and
    their total; [inr] when the budget cut it short. *)
Fixpoint read_batch (budget : Z) (rows : list Message) (newest_first : list Turn) (total : Z)
    : res ((list Turn * Z) + list Turn) :=
  match rows with
  | [] => Ok (inl (newest_first, total))
  | m :: rows =>
      if refused_by_guardrails (msg_meta m) then read_batch budget rows newest_first total
      else
        words ← message_text_for_model (JStr (msg_content m));
        match words with
        | [] => read_batch budget rows newest_first total
        | _ =>
            let n := Z.of_nat (length words) in
            if budget <? total + n then Ok (inr newest_first)
            else read_batch budget rows (newest_first ++ [(msg_role m, words)]) (total + n)
        end
  end.

(** [while read < limit]; [None] when [fuel] runs out. *)
Fixpoint read_loop (fuel : nat) (session_id : string) (budget : Z) (limit read : nat) (upper : Z)
    (messages : list Message) (newest_first : list Turn) (total : Z) : option (res (list Turn * bool)) :=
  match fuel with
  | O => None
  | S fuel =>
      if (read <? limit)%nat then
        let rows := take (Nat.min READ_BATCH (limit - read)) (older_rows session_id upper messages) in
        match read_batch budget rows newest_first total with
        | Raise e => Some (Raise e)
        | Ok (inr kept) => Some (Ok (reverse kept, true))
        | Ok (inl (newest_first, total)) =>
            if (length rows <? READ_BATCH)%nat then Some (Ok (reverse newest_first, false))
            else
              let upper := match last rows with Some m => msg_sequence m | None => upper end in
              read_loop fuel session_id budget limit (read + length rows) upper messages newest_first total
        end
      else Some (Ok (reverse newest_first, false))
  end.

(** [max_chars or MAX_COMPLETED_CHARS] *)
Definition _read_older (fuel : nat) (session_id : string) (before_sequence : Z) (limit : nat) (max_chars : option Z)
    (messages : list Message) : option (res (list Turn * bool)) :=
  let budget := match max_chars with None | Some 0 => MAX_COMPLETED_CHARS | Some n => n end in
  read_loop fuel session_id budget limit 0 before_sequence messages [] 0.
End text_for_model.

(** ** Putting the older messages in front *)

(** A message of a turn's body: a dict. *)
Definition BodyMessage : Type := list (text * json).

Definition as_body (t : Turn) : BodyMessage :=
  [(of_string "role", JStr (of_string t.1)); (of_string "content", JStr t.2)].

(** How many messages, from the first, are system messages. *)
Fixpoint leading_system `{PyRepr} (messages : list BodyMessage) : nat :=
  match messages with
  | [] => 0
  | m :: messages => if bool_decide (str_field "role" m = of_string "system") then S (leading_system messages) else 0
  end.

Section complete.
Context `{PyStr} `{PyRepr} `{PyFloat}.
(** The settings; what [resolve_owned_chat_session] answers (or the exception it raises), with the chat's private mode. *)
Context (settings : list (text * json)) (resolve : res (option (string * bool))) (stored : list Message).

(** The completed messages, how many were put in front, and the outcome. *)
Definition _complete (fuel : nat) (messages : list BodyMessage) (history_from_sequence : Z)
    : option (res (list BodyMessage * nat * string)) :=
  if negb (flag "history_completion_enabled" settings) then Some (Ok (messages, 0%nat, "off"%string)) else
  match resolve with
  | Raise (HTTPException _ _) => Some (Ok (messages, 0%nat, "refused"%string))
  | Raise e => Some (Raise e)
  | Ok None | Ok (Some (_, true)) => Some (Ok (messages, 0%nat, "refused"%string))
  | Ok (Some (session_id, false)) =>
      match _read_older fuel session_id history_from_sequence MAX_COMPLETED_MESSAGES None stored with
      | None => None
      | Some (Raise e) => Some (Raise e)
      | Some (Ok ([], _)) => Some (Ok (messages, 0%nat, "nothing_older"%string))
      | Some (Ok (older, capped)) =>
          let lead := leading_system messages in
          Some (Ok (take lead messages ++ (as_body <$> older) ++ drop lead messages, length older,
            if capped then "capped"%string else "completed"%string))
      end
  end.

(** A failure to read leaves the turn as it came. *)
Definition complete_chat_history (fuel : nat) (chat_session_id : option text) (messages : list BodyMessage)
    (history_from_sequence : option Z) : option (list BodyMessage * nat) :=
  match history_from_sequence, chat_session_id with
  | Some from, Some (_ :: _) =>
      if from <=? 1 then Some (messages, 0%nat) else
      match _complete fuel messages from with
      | None => None
      | Some (Raise _) => Some (messages, 0%nat)
      | Some (Ok (completed, added, _)) => Some (completed, added)
      end
  | _, _ => Some (messages, 0%nat)
  end.
End complete.
