(* ===== verification/HistoryFacts.v ===== *)
(** * What the completed history holds

    The paged reading of a chat's older messages, as one pass over its newest
    messages, and where it ends. *)

From S2P Require Import Prelude Text Json JsonParse PyText Queue MemoryJobs ChatHistory.

(** ** What the older messages are *)

Lemma read_batch_app `{PyStr} `{PyRepr} `{PyFloat} budget a b kept total :
  read_batch budget (a ++ b) kept total =
    match read_batch budget a kept total with
    | Ok (inl (kept, total)) => read_batch budget b kept total
    | r => r
    end.
Proof.
  revert kept total. induction a as [|m a IH]; intros kept total; [done|]. rewrite <- app_comm_cons. cbn [read_batch].
  destruct (refused_by_guardrails (msg_meta m)); [apply IH|].
  destruct (message_text_for_model (JStr (msg_content m))) as [[|c w]|e]; [apply IH| |done].
  unfold mbind, res_bind. case_match; [done|apply IH].
Qed.

(** The sequences of a chat's messages are distinct ([ux_chat_messages_session_sequence]). *)
Definition distinct_sequences (session_id : string) (messages : list Message) : Prop :=
  NoDup (msg_sequence <$> filter (fun m => msg_session m = session_id) messages).

Section older.
Context (session_id : string) (messages : list Message).
Hypothesis distinct : distinct_sequences session_id messages.

Lemma older_distinct upper :
  NoDup (msg_sequence <$> filter (fun m => msg_session m = session_id /\ msg_sequence m < upper /\ is_dialogue m = true) messages).
Proof.
  eapply sublist_NoDup; [exact distinct|]. apply fmap_sublist.
  rewrite <- (list_filter_filter_l (fun m => msg_session m = session_id /\ msg_sequence m < upper /\ is_dialogue m = true)
    (fun m => msg_session m = session_id)) by (by intros m [? _]).
  apply sublist_filter.
Qed.

(** A later page is what the list goes on with. *)
Lemma older_rows_filter upper upper' : upper' <= upper ->
  older_rows session_id upper' messages = filter (fun m => msg_sequence m < upper') (older_rows session_id upper messages).
Proof.
  intros Hle. unfold older_rows. rewrite filter_reverse, <- sort_by_filter by apply older_distinct.
  rewrite list_filter_filter. do 2 f_equal. apply list_filter_iff. intros m. split; [|naive_solver].
  intros (? & ? & ?). split_and!; try done. lia.
Qed.

Lemma older_rows_sorted upper :
  StronglySorted (fun a b => msg_sequence b < msg_sequence a) (older_rows session_id upper messages).
Proof.
  unfold older_rows.
  set (l := filter _ messages). pose proof (older_distinct upper : NoDup (msg_sequence <$> l)) as Hnd. clearbody l.
  rewrite <- (sort_by_perm msg_sequence l) in Hnd.
  pose proof (StronglySorted_merge_sort (key_le msg_sequence) l) as Hs. fold (sort_by msg_sequence l) in Hs.
  induction Hs as [|a k _ IH Ha]; [constructor|].
  rewrite reverse_cons. apply NoDup_cons in Hnd as [Ha' Hnd]. apply StronglySorted_app. split_and!.
  - intros x y Hx ->%list_elem_of_singleton. rewrite elem_of_reverse in Hx.
    rewrite Forall_forall in Ha. specialize (Ha x Hx). unfold key_le in Ha.
    assert (msg_sequence a <> msg_sequence x); [|lia].
    intros Heq. apply Ha'. rewrite Heq. by apply list_elem_of_fmap_2.
  - by apply IH.
  - repeat constructor.
Qed.

Lemma older_rows_next upper n m :
  last (take n (older_rows session_id upper messages)) = Some m ->
  older_rows session_id (msg_sequence m) messages = drop n (older_rows session_id upper messages).
Proof.
  intros Hl. pose proof (older_rows_sorted upper) as Hs.
  assert (Hin : m ∈ older_rows session_id upper messages).
  { apply last_Some_elem_of in Hl. by eapply elem_of_take in Hl as (? & ?%list_elem_of_lookup_2 & _). }
  assert (msg_sequence m < upper) as Hlt.
  { unfold older_rows in Hin. rewrite elem_of_reverse, sort_by_perm in Hin. apply list_elem_of_filter in Hin. naive_solver. }
  rewrite (older_rows_filter upper) by lia.
  apply last_Some in Hl as [l Hl]. pose proof (take_drop n (older_rows session_id upper messages)) as Heq.
  rewrite Hl, <- app_assoc in Heq. rewrite <- Heq in Hs |- * at 1.
  apply StronglySorted_app in Hs as (Hb & _ & Hs). simpl in Hs. apply StronglySorted_inv in Hs as [_ Ha].
  rewrite filter_app. simpl app. rewrite filter_cons_False by lia.
  rewrite filter_none, filter_whole; [done| |].
  - done.
  - apply Forall_forall. intros x Hx. specialize (Hb x m Hx ltac:(apply list_elem_of_here)). simpl in Hb. lia.
Qed.
End older.

Section reading.
Context `{PyStr} `{PyRepr} `{PyFloat}.

(** What one message says to the model, when it can be read. *)
Definition turn_of (m : Message) : list Turn :=
  if refused_by_guardrails (msg_meta m) then [] else
  match message_text_for_model (JStr (msg_content m)) with Ok ((_ :: _) as words) => [(msg_role m, words)] | _ => [] end.

Definition readable (m : Message) : Prop :=
  refused_by_guardrails (msg_meta m) = true \/ exists words, message_text_for_model (JStr (msg_content m)) = Ok words.

Definition chars (turns : list Turn) : Z := foldr (fun t n => Z.of_nat (length t.2) + n) 0 turns.

Lemma chars_app a b : chars (a ++ b) = chars a + chars b.
Proof. induction a as [|t a IH]; simpl; [done|]. unfold chars in *. rewrite IH. lia. Qed.

Lemma turn_of_cases m : turn_of m = [] \/ exists t, turn_of m = [t].
Proof.
  unfold turn_of. destruct (refused_by_guardrails _); [by left|].
  destruct (message_text_for_model _) as [[|c w]|]; eauto.
Qed.

Lemma read_batch_cons budget m rows kept total : readable m ->
  read_batch budget (m :: rows) kept total =
    match turn_of m with
    | [] => read_batch budget rows kept total
    | t :: _ =>
        if budget <? total + Z.of_nat (length t.2) then Ok (inr kept)
        else read_batch budget rows (kept ++ [t]) (total + Z.of_nat (length t.2))
    end.
Proof.
  intros Hm. unfold turn_of. cbn [read_batch].
  destruct (refused_by_guardrails _) eqn:Hr; [done|]. destruct Hm as [?|[w ->]]; [congruence|]. by destruct w.
Qed.

Lemma chars_reverse ts : chars (reverse ts) = chars ts.
Proof. induction ts as [|t ts IH]; [done|]. rewrite reverse_cons, chars_app, IH. simpl. lia. Qed.

(** One pass over the rows: all are kept, or the budget cuts at one. *)
Lemma read_batch_spec budget rows kept :
  Forall readable rows -> chars kept <= budget ->
  (read_batch budget rows kept (chars kept) = Ok (inl (kept ++ rows ≫= turn_of, chars (kept ++ rows ≫= turn_of))) /\
   chars (kept ++ rows ≫= turn_of) <= budget) \/
  (exists before t after, rows ≫= turn_of = before ++ t :: after /\
     read_batch budget rows kept (chars kept) = Ok (inr (kept ++ before)) /\
     chars (kept ++ before) <= budget < chars (kept ++ before ++ [t])).
Proof.
  intros Hr. revert kept. induction Hr as [|m rows Hm _ IH]; intros kept Hb.
  - left. simpl. by rewrite app_nil_r.
  - rewrite bind_cons, read_batch_cons by done.
    destruct (turn_of_cases m) as [-> |[t ->]]; [by apply IH|].
    assert (chars (kept ++ [t]) = chars kept + Z.of_nat (length t.2)) as Hc by (rewrite chars_app; simpl; lia).
    destruct (Z.ltb_spec budget (chars kept + Z.of_nat (length t.2))) as [Hlt|Hge].
    + right. exists [], t, (rows ≫= turn_of). rewrite app_nil_r. split_and!; try done. simpl app. lia.
    + rewrite <- Hc. destruct (IH (kept ++ [t]) ltac:(lia)) as [[-> ?]|(b & t' & a & -> & -> & ?)].
      * left. rewrite <- !app_assoc in *. done.
      * right. exists (t :: b), t', a. rewrite <- !app_assoc in *. done.
Qed.

(** The pages together read the newest [limit] messages, and the loop ends. *)
Lemma read_loop_whole session_id messages budget limit :
  distinct_sequences session_id messages ->
  forall fuel read upper kept total, (limit - read < fuel)%nat ->
  read_loop fuel session_id budget limit read upper messages kept total =
    Some (match read_batch budget (take (limit - read) (older_rows session_id upper messages)) kept total with
          | Raise e => Raise e
          | Ok (inr kept) => Ok (reverse kept, true)
          | Ok (inl (kept, _)) => Ok (reverse kept, false)
          end).
Proof.
  intros Hd. induction fuel as [|fuel IH]; intros read upper kept total Hf; [lia|]. cbn [read_loop].
  destruct (Nat.ltb_spec read limit) as [Hlt|Hge].
  2: { replace (limit - read)%nat with 0%nat by lia. done. }
  set (L := older_rows session_id upper messages). set (n := Nat.min READ_BATCH (limit - read)).
  assert (take (limit - read) L = take n L ++ take (limit - read - n) (drop n L)) as ->.
  { rewrite take_take_drop. f_equal. lia. }
  rewrite read_batch_app. destruct (read_batch budget (take n L) kept total) as [[[kept' total']|kept']|e]; [|done..].
  destruct (Nat.ltb_spec (length (take n L)) READ_BATCH) as [Hs|Hl].
  - rewrite length_take in Hs. assert (take (limit - read - n) (drop n L) = []) as ->; [|done].
    destruct (decide (n < READ_BATCH)%nat) as [Hn|Hn].
    + replace (limit - read - n)%nat with 0%nat by lia. done.
    + rewrite drop_ge by lia. apply take_nil.
  - destruct (last (take n L)) as [m|] eqn:Hm.
    2: { apply last_None in Hm. rewrite Hm in Hl. simpl in Hl. unfold READ_BATCH in Hl. lia. }
    rewrite length_take in Hl |- *. assert (n `min` length L = n)%nat as -> by lia.
    rewrite IH by (unfold READ_BATCH in *; lia).
    rewrite (older_rows_next session_id messages Hd upper n m Hm), Nat.sub_add_distr. done.
Qed.

(** C15: the older messages read a hundred at a time are the newest of the
    chat's messages before the client's first, as many as 5,000 rows and the
    character budget take, in order and without a gap; the budget cuts only
    where the next message would pass it; and they go between the turn's
    leading system messages and the rest of it. *)
Theorem history_completed settings resolve stored session_id from messages fuel :
  flag "history_completion_enabled" settings = true -> resolve = Ok (Some (session_id, false)) ->
  distinct_sequences session_id stored -> Forall readable stored -> (MAX_COMPLETED_MESSAGES < fuel)%nat ->
  let newest := take MAX_COMPLETED_MESSAGES (older_rows session_id from stored) in
  exists left_out kept outcome,
    reverse (newest ≫= turn_of) = left_out ++ kept /\ chars kept <= MAX_COMPLETED_CHARS /\
    (forall t, last left_out = Some t -> MAX_COMPLETED_CHARS < chars (t :: kept)) /\
    _complete settings resolve stored fuel messages from = Some (Ok (take (leading_system messages) messages ++ (as_body <$> kept) ++
      drop (leading_system messages) messages, length kept, outcome)).
Proof.
  intros Hon Hres Hd Hr Hf newest.
  assert (Forall readable newest) as Hrn.
  { apply Forall_take. unfold older_rows. apply Forall_reverse. rewrite sort_by_perm.
    rewrite Forall_forall in *. intros x [_ Hx]%list_elem_of_filter. by apply Hr. }
  unfold _complete, _read_older. rewrite Hon, Hres. simpl negb. cbv iota.
  rewrite read_loop_whole by (done || lia). rewrite Nat.sub_0_r. fold newest.
  destruct (read_batch_spec MAX_COMPLETED_CHARS newest [] Hrn ltac:(done)) as [[Heq Hc]|(b & t & a & Hs & Heq & Hc)];
    change (chars []) with 0 in Heq; rewrite Heq; simpl app in *.
  - exists [], (reverse (newest ≫= turn_of)). rewrite chars_reverse.
    destruct (reverse (newest ≫= turn_of)) as [|x l]; eexists; split_and!; try done.
    simpl. by rewrite take_drop.
  - exists (reverse (t :: a)), (reverse b). rewrite Hs, chars_reverse.
    destruct (reverse b) as [|x l] eqn:Hb.
    + apply (f_equal reverse) in Hb. rewrite reverse_involutive in Hb. subst b.
      eexists. split_and!.
      * by rewrite app_nil_r.
      * lia.
      * intros y. rewrite reverse_cons, last_snoc. intros [= <-]. simpl in *. lia.
      * simpl. by rewrite take_drop.
    + eexists. split_and!; [|lia| |done].
      * rewrite <- Hb, <- reverse_app. done.
      * intros y. rewrite reverse_cons, last_snoc. intros [= <-]. rewrite <- Hb.
        change (t :: reverse b) with ([t] ++ reverse b). rewrite chars_app, chars_reverse.
        rewrite chars_app in Hc. lia.
Qed.
End reading.

Definition sample_message (sequence : Z) (role content : string) : Message :=
  MkMessage "c1" sequence role (of_string content) (JObj []).

Definition sample_chat : list Message :=
  [sample_message 1 "user" "hi"; sample_message 2 "assistant" "hello"; sample_message 3 "user" "and now?"].

Definition sample_turn : list BodyMessage :=
  [as_body ("system"%string, of_string "be brief"); as_body ("user"%string, of_string "and now?")].

Lemma history_completed_witness :
  exists kept outcome,
    _complete (H := ascii_str) (H0 := plain_repr) (H1 := no_floats) [] (Ok (Some ("c1"%string, false))) sample_chat (S MAX_COMPLETED_MESSAGES)
      sample_turn 3 =
    Some (Ok (take 1 sample_turn ++ (as_body <$> kept) ++ drop 1 sample_turn, length kept, outcome)).
Proof.
  destruct (history_completed (H := ascii_str) (H0 := plain_repr) (H1 := no_floats) [] (Ok (Some ("c1"%string, false)))
    sample_chat "c1" 3 sample_turn (S MAX_COMPLETED_MESSAGES)) as (left_out & kept & outcome & _ & _ & _ & Heq).
  - reflexivity.
  - reflexivity.
  - apply (bool_decide_unpack _). vm_compute. exact I.
  - repeat (apply Forall_cons_2; [right; eexists; reflexivity|]). apply Forall_nil_2.
  - lia.
  - exists kept, outcome. exact Heq.
Defined.
