(* ===== verification/RowJobs.v ===== *)
(** * Jobs that live on the row they work on

    [row_job_service.py] and the job functions of [chat_summary_service.py] and
    [chat_recall_service.py]: a chat's rolling summary and its recall index are
    each one row per chat that also holds the state of the job bringing it up
    to date.  [RowScope] is what the two services differ in. [nonce] is the
    random part of an event's key, [event_id] the uuid of the event. *)

From S2P Require Import Prelude Text Json PyText Outbox MemoryJobs ChatHistory.

Inductive row_status := RowIdle | RowPending | RowRunning | RowFailed.

#[export] Instance row_status_eq_dec : EqDecision row_status.
Proof. solve_decision. Defined.

(** [D] is the work's own columns. *)
Record RowJob (D : Type) := MkRowJob {
  data : D;
  r_status : row_status;
  r_run_after : option Z;
  r_attempt_count : Z;
  r_lease_expires_at : option Z;
  r_worker_id : option string;
  r_last_error : option text;
  r_updated_at : Z
}.
Arguments MkRowJob {D}.
Arguments data {D} _. Arguments r_status {D} _. Arguments r_run_after {D} _. Arguments r_attempt_count {D} _.
Arguments r_lease_expires_at {D} _. Arguments r_worker_id {D} _. Arguments r_last_error {D} _. Arguments r_updated_at {D} _.

#[export, program] Instance row_job_row `{EqDecision D} : Row (RowJob D) := {|
  merge l n c := MkRowJob
    (wr (data l) (data n) (data c))
    (wr (r_status l) (r_status n) (r_status c))
    (wr (r_run_after l) (r_run_after n) (r_run_after c))
    (wr (r_attempt_count l) (r_attempt_count n) (r_attempt_count c))
    (wr (r_lease_expires_at l) (r_lease_expires_at n) (r_lease_expires_at c))
    (wr (r_worker_id l) (r_worker_id n) (r_worker_id c))
    (wr (r_last_error l) (r_last_error n) (r_last_error c))
    (wr (r_updated_at l) (r_updated_at n) (r_updated_at c))
|}.
Next Obligation. intros D ? [] []; simpl. by rewrite !wr_same. Qed.
Next Obligation. intros D ? [] []; simpl. by rewrite !wr_nothing. Qed.

(** A row with the columns of its job changed. *)
Definition row_with {D} (r : RowJob D) (status : row_status) (run : option Z) (attempts : Z) (lease : option Z)
    (worker : option string) (error : option text) (updated : Z) : RowJob D :=
  MkRowJob (data r) status run attempts lease worker error updated.

(** [ChatSummary] and [ChatRecallIndex]: what of the chat they have reached. *)
Record SummaryData := MkSummaryData {
  up_to_sequence : Z;
  covered_count : Z;
  content : text;
  first_message_hash : option text;
  last_message_hash : option text;
  summary_model_id : option Z
}.
Record RecallData := MkRecallData { indexed_up_to : Z; not_before : Z; chunk_count : Z; generation : Z }.

#[export] Instance summary_data_eq_dec : EqDecision SummaryData.
Proof. solve_decision. Defined.
#[export] Instance recall_data_eq_dec : EqDecision RecallData.
Proof. solve_decision. Defined.

Class RowScope (D : Type) := {
  row_data_eq_dec :: EqDecision D;
  ROW_EVENT_TYPE : string;
  ROW_AGGREGATE_TYPE : string;
  row_key_prefix : string;
  LEASE_SECONDS : Z;
  MAX_ATTEMPTS : Z;
  DEBOUNCE_SECONDS : Z;
  new_data : D
}.

Definition summary_scope : RowScope SummaryData := {|
  ROW_EVENT_TYPE := "chat_summary.job.ready"; ROW_AGGREGATE_TYPE := "chat_summary"; row_key_prefix := "chat-summary:";
  LEASE_SECONDS := 300; MAX_ATTEMPTS := 5; DEBOUNCE_SECONDS := 60; new_data := MkSummaryData 0 0 [] None None None
|}.

Definition recall_scope : RowScope RecallData := {|
  ROW_EVENT_TYPE := "chat_index.job.ready"; ROW_AGGREGATE_TYPE := "chat_recall_index"; row_key_prefix := "chat-index:";
  LEASE_SECONDS := 300; MAX_ATTEMPTS := 5; DEBOUNCE_SECONDS := 60; new_data := MkRecallData 0 0 0 0
|}.

#[export] Existing Instance summary_scope.
#[export] Existing Instance recall_scope.

Definition REDELIVERY_GRACE_SECONDS : Z := 5.

Section rows.
Context {D : Type} `{RowScope D} {S : Type} `{HasTable S OutboxEvent, HasTable S (RowJob D)}.
Implicit Types (row : RowJob D).

Definition save_row (id : string) (loaded new : RowJob D) : op S unit := on_table (save id loaded new).

(** ** Taking a row ([row_job_service.py]) *)

(** The WHERE clause of the claim. *)
Definition takable (max_attempts now : Z) row : bool :=
  match r_status row with
  | RowPending => true
  | RowFailed => r_attempt_count row <? max_attempts
  | RowRunning => match r_lease_expires_at row with None => true | Some u => u <=? now end
  | RowIdle => false
  end.

(** One [UPDATE ... WHERE]: the row is taken, or not, in one statement. *)
Definition claim_row (session_id worker_id : string) (lease_seconds max_attempts now : Z) : op S (option (RowJob D)) :=
  row ← gets (fun s => rows s !! session_id);
  match row with
  | None => mret None
  | Some row =>
      if takable max_attempts now row then
        let row' := row_with row RowRunning (r_run_after row) (r_attempt_count row + 1) (Some (now + seconds lease_seconds))
          (Some worker_id) (r_last_error row) now in
        _ ← on_table (modify <[session_id := row']>);
        mret (Some row')
      else mret None
  end.

Definition lease_end (session_id : string) (now : Z) (s : S) : option Z :=
  match rows s !! session_id with
  | Some row =>
      match r_status row, r_lease_expires_at row with
      | RowRunning, Some u => if u <=? now then None else Some (u + seconds REDELIVERY_GRACE_SECONDS)
      | _, _ => None
      end
  | None => None
  end.

(** ** The job of a row *)

Definition _busy row (now : Z) : bool :=
  match r_status row with
  | RowRunning => match r_lease_expires_at row with Some u => now <? u | None => false end
  | RowPending => match r_run_after row with Some t => now - seconds 3600 <? t | None => false end
  | RowIdle | RowFailed => false
  end.

Definition _enqueue (session_id : string) (run_after : Z) (nonce event_id : string) (now : Z) : op S unit :=
  _ ← on_table (enqueue_outbox_event ROW_AGGREGATE_TYPE session_id ROW_EVENT_TYPE
        [(of_string "session_id", JStr (of_string session_id))]
        (row_key_prefix +:+ session_id +:+ ":" +:+ nonce) (Some run_after) event_id now);
  mret tt.

(** [_queue] of a row whose other columns are [row]'s; [loaded] is what the session read. *)
Definition _queue (session_id : string) (loaded row : RowJob D) (run_after : Z) (nonce event_id : string) (now : Z) : op S unit :=
  _ ← save_row session_id loaded (row_with row RowPending (Some run_after) (r_attempt_count row) None None (r_last_error row) now);
  _enqueue session_id run_after nonce event_id now.

Definition claim (session_id worker_id : string) (now : Z) : op S (option (RowJob D)) :=
  claim_row session_id worker_id LEASE_SECONDS MAX_ATTEMPTS now.

Definition redeliver (session_id nonce event_id : string) (now : Z) : op S bool :=
  when ← gets (lease_end session_id now);
  match when with
  | None => mret false
  | Some t => _ ← _enqueue session_id t nonce event_id now; mret true
  end.

Definition heartbeat (session_id : string) row (worker_id : string) (now : Z) : op S bool :=
  if negb (bool_decide (r_status row = RowRunning)) || negb (bool_decide (r_worker_id row = Some worker_id)) then mret false
  else
    _ ← save_row session_id row (row_with row (r_status row) (r_run_after row) (r_attempt_count row)
          (Some (now + seconds LEASE_SECONDS)) (r_worker_id row) (r_last_error row) (r_updated_at row));
    mret true.

(** [more]: more is left to do; [grown] and [may_run] answer [_grown_past]
    ([_finished_beyond] for recall) and [_may_run]. *)
Definition finish (session_id : string) row (error : option text) (more grown may_run : bool) (nonce event_id : string)
    (now : Z) : op S string :=
  match error with
  | None =>
      if (more || grown) && may_run then
        _ ← _queue session_id row (row_with row (r_status row) (r_run_after row) 0 (r_lease_expires_at row)
              (r_worker_id row) None (r_updated_at row)) (now + seconds 5) nonce event_id now;
        mret "pending"%string
      else
        _ ← save_row session_id row (row_with row RowIdle (r_run_after row) (r_attempt_count row) None None None now);
        mret "idle"%string
  | Some e =>
      let message := Some (take 4000 e) in
      if MAX_ATTEMPTS <=? r_attempt_count row then
        _ ← save_row session_id row (row_with row RowFailed (r_run_after row) (r_attempt_count row) None None message now);
        mret "failed"%string
      else
        _ ← _queue session_id row (row_with row (r_status row) (r_run_after row) (r_attempt_count row)
              (r_lease_expires_at row) (r_worker_id row) message (r_updated_at row))
              (now + seconds (Z.min 3600 (30 * 2 ^ r_attempt_count row))) nonce event_id now;
        mret "retry"%string
  end.

(** Queueing a row again from its first attempt. *)
Definition requeue (session_id : string) (loaded : RowJob D) (run_after : Z) (nonce event_id : string) (now : Z) : op S unit :=
  _queue session_id loaded (row_with loaded (r_status loaded) (r_run_after loaded) 0 (r_lease_expires_at loaded)
    (r_worker_id loaded) (r_last_error loaded) (r_updated_at loaded)) run_after nonce event_id now.

(** A chat's row, made with [status] when it has none. *)
Definition row_for (session_id : string) (status : row_status) (now : Z) : op S (RowJob D) :=
  found ← gets (fun s => rows s !! session_id);
  match found with
  | Some row => mret row
  | None =>
      let row := MkRowJob new_data status None 0 None None None now in
      _ ← on_table (modify <[session_id := row]>);
      mret row
  end.
End rows.

(** ** The summary's service *)

(** [func.length(content)] over the user and assistant messages of a stretch *)
Definition _unsummarized_chars (messages : list Message) (session_id : string) (after upto : Z) : Z :=
  if upto <=? after then 0
  else foldr (fun m n => (if bool_decide (msg_session m = session_id) && (after <? msg_sequence m) &&
                             (msg_sequence m <=? upto) && bool_decide (msg_role m ∈ ["user"; "assistant"]%string)
                          then Z.of_nat (length (msg_content m)) else 0) + n) 0 messages.

Module Summary.
Definition SUMMARY_STEP_CHARS : Z := 24000.

Section summary.
Context `{PyInt} `{Settings} {S : Type} `{HasTable S OutboxEvent, HasTable S (RowJob SummaryData)}.

Definition _settings_on (settings : list (text * json)) : bool :=
  flag "summary_enabled" settings &&
  match field (of_string "summary_model_id") settings with Some v => truthy v | None => false end &&
  flag "context_fit_enabled" settings && memory_extract_enabled.

Definition _eligible (session : option ChatSession) : bool :=
  match session with Some s => negb (private_mode s) && negb (is_member_channel s) | None => false end.

Definition owner_allows_summaries (session : option ChatSession) (prefs : list (text * json)) (chat_feature : bool) : bool :=
  match session with
  | None => false
  | Some s => in_project s || (flag "memory_summarize_chats" prefs && chat_feature)
  end.

Definition grown_enough (messages : list Message) (session_id : string) (target : Z) (d : SummaryData) : bool :=
  SUMMARY_STEP_CHARS <=? _unsummarized_chars messages session_id (up_to_sequence d) target.

Definition _schedule_summary (settings prefs : list (text * json)) (session : option ChatSession) (chat_feature over_budget : bool)
    (messages : list Message) (session_id : string) (latest_sequence : Z) (nonce event_id : string) (now : Z) : op S bool :=
  if negb (_settings_on settings) || negb (_eligible session) || negb (owner_allows_summaries session prefs chat_feature)
  then mret false
  else if over_budget then mret false
  else match int_or 20 (field (of_string "summary_keep_recent") settings) with
  | Raise e => raise e
  | Ok keep =>
      let target := latest_sequence - keep in
      if target <=? 0 then mret false
      else
        found ← gets (fun s : S => rows (R := RowJob SummaryData) s !! session_id);
        if match found with Some row => _busy row now | None => false end then mret false
        else if negb (grown_enough messages session_id target (default new_data (data <$> found))) then mret false
        else
          row ← row_for session_id RowPending now;
          _ ← requeue (D := SummaryData) session_id row (now + seconds DEBOUNCE_SECONDS) nonce event_id now;
          mret true
  end.

(** In a savepoint; a failure is logged and undone. *)
Definition maybe_schedule_summary (body : op S bool) : op S unit := fun s =>
  match body s with (Ok _, s') => (Ok tt, s') | (Raise _, _) => (Ok tt, s) end.

Definition _grown_past (settings : list (text * json)) (messages : list Message) (session_id : string) (d : SummaryData)
    : res bool :=
  if negb (_settings_on settings) then Ok false
  else match int_or 20 (field (of_string "summary_keep_recent") settings) with
  | Raise e => Raise e
  | Ok keep =>
      let latest := max_or_0 (msg_sequence <$> filter (fun m => msg_session m = session_id) messages) in
      let target := latest - keep in
      Ok ((up_to_sequence d <? target) && grown_enough messages session_id target d)
  end.

Definition _may_run (settings prefs : list (text * json)) (session : option ChatSession) (chat_feature over_budget : bool) : bool :=
  _settings_on settings && _eligible session && owner_allows_summaries session prefs chat_feature && negb over_budget.

(** [finish_summary]: how far the chat grew is only asked for when it matters. *)
Definition finish_summary (settings prefs : list (text * json)) (session : option ChatSession) (chat_feature over_budget : bool)
    (messages : list Message) (session_id : string) (row : RowJob SummaryData) (error : option text) (more : bool)
    (nonce event_id : string) (now : Z) : op S string :=
  match (if more || bool_decide (is_Some error) then Ok false else _grown_past settings messages session_id (data row)) with
  | Raise e => raise e
  | Ok grown =>
      finish session_id row error more grown (_may_run settings prefs session chat_feature over_budget) nonce event_id now
  end.
End summary.
End Summary.

(** ** The recall index's service *)

Module Recall.
Section recall.
Context `{PyInt} `{PyRepr} {S : Type} `{HasTable S OutboxEvent, HasTable S (RowJob RecallData)}.

Definition beyond (latest_sequence : Z) (d : RecallData) : bool :=
  Z.max (indexed_up_to d) (not_before d) <? latest_sequence.

(** [recall_on], [allowed] and [over_budget] answer [_recall_on], [_owner_allows] and [_over_recall_budget]. *)
Definition _schedule_chat_index (recall_on allowed over_budget : bool) (session : option ChatSession) (session_id : string)
    (latest_sequence delay_seconds : Z) (nonce event_id : string) (now : Z) : op S bool :=
  if negb recall_on || negb (Summary._eligible session) || negb allowed then mret false
  else if over_budget then mret false
  else
    row ← row_for session_id RowIdle now;
    if _busy row now then mret false
    else if negb (beyond latest_sequence (data row)) then mret false
    else
      _ ← requeue (D := RecallData) session_id row (now + seconds delay_seconds) nonce event_id now;
      mret true.

Definition DROP_MAX_ATTEMPTS : Z := 8.

(** [below] and [up_to] are written as they were given. *)
Definition queue_vector_drop (session_id : string) (below up_to : json) (attempt delay_seconds : Z)
    (nonce event_id : string) (now : Z) : op S unit :=
  _ ← on_table (enqueue_outbox_event "chat_recall_index" session_id "chat_recall.vectors.drop"
        [(of_string "session_id", JStr (of_string session_id)); (of_string "below", below);
         (of_string "up_to", up_to); (of_string "attempt", JInt attempt)]
        ("chat-recall-drop:" +:+ session_id +:+ ":" +:+ nonce) (Some (now + seconds (Z.max 0 delay_seconds))) event_id now);
  mret tt.

(** [None if value is None else int(value)] *)
Definition drop_bound (value : json) : res (option Z) :=
  match value with JNull => Ok None | v => match int_of v with Ok n => Ok (Some n) | Raise e => Raise e end end.

(** [store] deletes the points and answers how many chunks are left; [None] when it raises. *)
Definition handle_vector_drop (store : string -> option Z -> option Z -> option Z) (payload : list (text * json))
    (nonce event_id : string) (now : Z) : op S string :=
  match str_field "session_id" payload with
  | [] => mret "dead"%string
  | id =>
      let session_id := key_of id in
      let below := default JNull (field (of_string "below") payload) in
      let up_to := default JNull (field (of_string "up_to") payload) in
      match int_or 0 (field (of_string "attempt") payload) with
      | Raise e => raise e
      | Ok attempt =>
          let left :=
            match drop_bound below, drop_bound up_to with
            | Ok b, Ok u => store session_id b u
            | _, _ => None
            end in
          match left with
          | None =>
              if DROP_MAX_ATTEMPTS <=? attempt + 1 then mret "dead"%string
              else
                _ ← queue_vector_drop session_id below up_to (attempt + 1) (Z.min 3600 (30 * 2 ^ attempt)) nonce event_id now;
                mret "retry"%string
          | Some count =>
              _ ← on_table (modify (alter (fun r : RowJob RecallData =>
                    MkRowJob (MkRecallData (indexed_up_to (data r)) (not_before (data r)) count (generation (data r)))
                      (r_status r) (r_run_after r) (r_attempt_count r) (r_lease_expires_at r) (r_worker_id r) (r_last_error r)
                      (r_updated_at r)) session_id));
              mret "succeeded"%string
          end
      end
  end.
End recall.
End Recall.
