(* ===== verification/RowFacts.v ===== *)
(** * What the row jobs promise

    Two deliveries never both run a row; a delivery that finds it held leaves
    behind another one that can take it, unless the lease ends between the two
    readings of the clock; a run is closed by going idle, being
    queued again with an event, or giving up exactly after its last attempt. *)

From S2P Require Import Prelude Text Json PyText Outbox OutboxFacts MemoryJobs RowJobs.

Section facts.
Context {D : Type} `{RowScope D} {S : Type} `{Separate S OutboxEvent (RowJob D)}.
Implicit Types (row : RowJob D) (s : S).

Definition rows_of (s : S) : table (RowJob D) := rows s.
Definition events_of (s : S) : outbox := rows s.

Definition put_row (id : string) row s : S := set_rows (<[id := row]> (rows_of s)) s.

Lemma rows_put_row id row s : rows_of (put_row id row s) = <[id := row]> (rows_of s).
Proof. apply rows_set. Qed.

Lemma events_put_row id row s : events_of (put_row id row s) = events_of s.
Proof. apply rows_other'. Qed.

Lemma save_row_run id loaded new s : rows_of s !! id = Some loaded -> save_row id loaded new s = (Ok tt, put_row id new s).
Proof. intros Hl. unfold save_row, on_table. by rewrite save_current. Qed.

Definition row_event (id : string) (run_after : Z) (nonce : string) (now : Z) : OutboxEvent :=
  new_event ROW_AGGREGATE_TYPE id ROW_EVENT_TYPE [(of_string "session_id", JStr (of_string id))]
    (row_key_prefix +:+ id +:+ ":" +:+ nonce) (Some run_after) now.

(** The nonce and the uuid drawn are new. *)
Definition drawn_fresh (id nonce event_id : string) s : Prop :=
  events_of s !! event_id = None /\
  forall i e, events_of s !! i = Some e -> oe_idempotency_key e <> row_key_prefix +:+ id +:+ ":" +:+ nonce.

Lemma enqueue_run id run_after nonce event_id now s :
  drawn_fresh id nonce event_id s ->
  _enqueue id run_after nonce event_id now s = (Ok tt, set_rows (<[event_id := row_event id run_after nonce now]> (events_of s)) s).
Proof.
  intros [Hn Hk]. unfold _enqueue. erewrite op_bind_ok; [reflexivity|]. unfold on_table.
  change (rows s) with (events_of s). rewrite enqueue_new; [reflexivity| |done]. by apply event_of_key_None.
Qed.

Lemma queue_run id loaded row run_after nonce event_id now s :
  rows_of s !! id = Some loaded -> drawn_fresh id nonce event_id s ->
  let row' := row_with row RowPending (Some run_after) (r_attempt_count row) None None (r_last_error row) now in
  exists s', _queue id loaded row run_after nonce event_id now s = (Ok tt, s') /\
    rows_of s' = <[id := row']> (rows_of s) /\ events_of s' = <[event_id := row_event id run_after nonce now]> (events_of s).
Proof.
  intros Hl Hf row'. eexists. split; [|split].
  - unfold _queue. erewrite op_bind_ok; [|by apply save_row_run]. apply enqueue_run.
    destruct Hf as [Hn Hk]. split; by rewrite events_put_row.
  - unfold rows_of at 1. rewrite rows_other. apply rows_put_row.
  - unfold events_of at 1. by rewrite rows_set, events_put_row.
Qed.

(** ** Claims *)

Definition claimed_row (worker_id : string) (lease now : Z) row : RowJob D :=
  row_with row RowRunning (r_run_after row) (r_attempt_count row + 1) (Some (now + seconds lease)) (Some worker_id)
    (r_last_error row) now.

Lemma claim_row_run id worker_id lease max now s :
  claim_row id worker_id lease max now s =
    match rows_of s !! id with
    | Some row => if takable max now row then (Ok (Some (claimed_row worker_id lease now row)), put_row id (claimed_row worker_id lease now row) s)
                  else (Ok None, s)
    | None => (Ok None, s)
    end.
Proof.
  unfold claim_row. erewrite op_bind_ok; [|reflexivity]. change (rows s) with (rows_of s).
  destruct (rows_of s !! id) as [row|]; [|done]. by destruct (takable max now row).
Qed.

Lemma takable_claimed worker_id lease max now later row :
  takable max later (claimed_row worker_id lease now row) = (now + seconds lease <=? later).
Proof. done. Qed.

(** C11: A row is taken by at most one of two deliveries while the first one's
    lease runs.  What becomes of a delivery to a row with work left - queued,
    failed with attempts to spare, or running: the claim reads the clock at
    [now], and the redelivery, when the claim finds the row taken, at [then_].
    It takes the row, as one more attempt under a full lease; or a lease is still
    live at [then_], and it leaves behind an event, due just after that lease
    ends, at which time the row can be taken; or the lease it met ended between
    the two readings of the clock, and then, and only then, it leaves nothing,
    though the row could be taken at once. *)
Theorem delivery_accounted id worker_id nonce event_id now then_ s row :
  rows_of s !! id = Some row -> r_status row <> RowIdle ->
  (r_status row = RowFailed -> r_attempt_count row < MAX_ATTEMPTS) -> drawn_fresh id nonce event_id s -> 0 < LEASE_SECONDS ->
  now <= then_ ->
  (exists row' s', claim id worker_id now s = (Ok (Some row'), s') /\ s' = put_row id row' s /\
     r_status row' = RowRunning /\ r_worker_id row' = Some worker_id /\ r_attempt_count row' = r_attempt_count row + 1 /\
     data row' = data row /\
     (forall other later, later < now + seconds LEASE_SECONDS -> claim id other later s' = (Ok None, s'))) \/
  (exists u, claim id worker_id now s = (Ok None, s) /\ r_status row = RowRunning /\ r_lease_expires_at row = Some u /\ now < u /\
     ((then_ < u /\ exists s', redeliver id nonce event_id then_ s = (Ok true, s') /\ rows_of s' = rows_of s /\
         events_of s' = <[event_id := row_event id (u + seconds REDELIVERY_GRACE_SECONDS) nonce then_]> (events_of s) /\
         forall other later, u <= later -> exists row' s'', claim id other later s' = (Ok (Some row'), s'')) \/
      (u <= then_ /\ redeliver id nonce event_id then_ s = (Ok false, s) /\
         forall other later, u <= later -> exists row' s'', claim id other later s = (Ok (Some row'), s'')))).
Proof.
  intros Hr Hidle Hfail Hfresh Hlease Hnow. unfold claim. rewrite claim_row_run, Hr.
  destruct (takable MAX_ATTEMPTS now row) eqn:Ht.
  - left. eexists _, _. split; [reflexivity|]. split; [reflexivity|]. do 4 (split; [done|]).
    intros other later Hlt. rewrite claim_row_run, rows_put_row, lookup_insert_eq, takable_claimed.
    by rewrite (proj2 (Z.leb_gt _ _)).
  - right. unfold takable in Ht. destruct (r_status row) eqn:Hst; try done; [|specialize (Hfail eq_refl); lia].
    destruct (r_lease_expires_at row) as [u|] eqn:Hu; [|done]. apply Z.leb_gt in Ht.
    exists u. do 4 (split; [done|]).
    assert (Hlater : forall s1, rows_of s1 = rows_of s -> forall other later, u <= later ->
      exists row' s'', claim_row id other LEASE_SECONDS MAX_ATTEMPTS later s1 = (Ok (Some row'), s'')).
    { intros s1 Hsame other later Hle. rewrite claim_row_run, Hsame, Hr. unfold takable. rewrite Hst, Hu, (proj2 (Z.leb_le _ _)) by done. eauto. }
    assert (Hend : lease_end id then_ s = if u <=? then_ then None else Some (u + seconds REDELIVERY_GRACE_SECONDS)).
    { unfold lease_end. change (rows s) with (rows_of s). by rewrite Hr, Hst, Hu. }
    unfold redeliver. destruct (Z.leb_spec u then_) as [Hle|Hgt].
    + right. split; [done|]. split; [|by apply Hlater]. erewrite op_bind_ok; [|reflexivity]. by rewrite Hend.
    + left. split; [done|]. eexists. split.
      { erewrite op_bind_ok; [|reflexivity]. rewrite Hend. by erewrite op_bind_ok by (by apply enqueue_run). }
      assert (Hsame : forall t, rows_of (set_rows (R := OutboxEvent) t s) = rows_of s) by (intros; apply rows_other).
      split; [apply Hsame|]. split; [apply rows_set|]. apply Hlater, Hsame.
Qed.

(** ** Closing a run *)

Lemma row_backoff a : 0 <= a -> 0 < seconds (Z.min 3600 (30 * 2 ^ a)) <= seconds 3600.
Proof. intros Ha. pose proof (Z.pow_pos_nonneg 2 a ltac:(lia) Ha). unfold seconds. lia. Qed.

(** Closing a run lets go of the row in every case.  Without an error the
    row goes idle, unless more is left to do and a run could do it now: then
    it is queued again, from its first attempt, five seconds later.  With an
    error the job gives up exactly when its attempts are spent, and else is
    queued again within the hour with its attempts kept; whenever it is queued
    an event for it becomes available at that moment. *)
Theorem finish_row_correct id row error more grown may_run nonce event_id now s :
  rows_of s !! id = Some row -> drawn_fresh id nonce event_id s -> 0 <= r_attempt_count row ->
  exists outcome row' s', finish id row error more grown may_run nonce event_id now s = (Ok outcome, s') /\
    rows_of s' = <[id := row']> (rows_of s) /\ r_worker_id row' = None /\ r_lease_expires_at row' = None /\ data row' = data row /\
    (outcome = "idle"%string <-> error = None /\ ((more || grown) && may_run) = false) /\
    (outcome = "failed"%string <-> error <> None /\ MAX_ATTEMPTS <= r_attempt_count row) /\
    (r_status row' = RowPending <-> outcome = "pending"%string \/ outcome = "retry"%string) /\
    (r_status row' = RowPending -> exists t e, r_run_after row' = Some t /\ now < t <= now + seconds 3600 /\
       events_of s' = <[event_id := e]> (events_of s) /\ available_at e = t /\ aggregate_id e = id /\ oe_status e = EvPending) /\
    r_attempt_count row' = (if bool_decide (outcome = "pending"%string) then 0 else r_attempt_count row).
Proof.
  intros Hr Hf Ha. unfold finish. destruct error as [e|].
  - destruct (Z.leb_spec MAX_ATTEMPTS (r_attempt_count row)) as [Hmax|Hmax].
    + eexists _, _, _. split; [erewrite op_bind_ok; [reflexivity|by apply save_row_run]|]. rewrite rows_put_row.
      do 4 (split; [done|]). split; [split; [done|by intros [[=] _]]|]. split; [done|]. split; [split; [done|by intros [|]]|]. done.
    + match goal with |- context [_queue id row ?new ?t _ _ _] =>
        destruct (queue_run id row new t nonce event_id now s Hr Hf) as (s' & Hrun & Hrows & Hev) end.
      eexists _, _, s'. split; [by erewrite op_bind_ok by exact Hrun|]. split; [exact Hrows|]. do 3 (split; [done|]).
      split; [split; [done|by intros [[=] _]]|]. split; [split; [done|intros [_ ?]; lia]|]. split; [split; [by right|done]|].
      split; [|done]. intros _. eexists _, _. split; [done|]. pose proof (row_backoff _ Ha). split; [lia|]. split; [exact Hev|]. done.
  - destruct ((more || grown) && may_run).
    + match goal with |- context [_queue id row ?new ?t _ _ _] =>
        destruct (queue_run id row new t nonce event_id now s Hr Hf) as (s' & Hrun & Hrows & Hev) end.
      eexists _, _, s'. split; [by erewrite op_bind_ok by exact Hrun|]. split; [exact Hrows|]. do 3 (split; [done|]).
      split; [split; [done|by intros [_ [=]]]|]. split; [split; [done|by intros [? _]]|]. split; [split; [by left|done]|].
      split; [|done]. intros _. eexists _, _. split; [done|]. split; [unfold seconds; lia|]. split; [exact Hev|]. done.
    + eexists _, _, _. split; [erewrite op_bind_ok; [reflexivity|by apply save_row_run]|]. rewrite rows_put_row.
      do 4 (split; [done|]). split; [done|]. split; [split; [done|by intros [? _]]|]. split; [split; [done|by intros [|]]|]. done.
Qed.
End facts.

(** ** Instances *)

Record RowDB (D : Type) := MkRowDB { rdb_outbox : outbox; rdb_rows : table (RowJob D) }.
Arguments MkRowDB {D}. Arguments rdb_outbox {D} _. Arguments rdb_rows {D} _.

#[export, refine] Instance rdb_outbox_table D : HasTable (RowDB D) OutboxEvent := {|
  rows := rdb_outbox; set_rows t s := MkRowDB t (rdb_rows s) |}.
Proof. all: by repeat intros []. Defined.

#[export, refine] Instance rdb_rows_table D : HasTable (RowDB D) (RowJob D) := {|
  rows := rdb_rows; set_rows t s := MkRowDB (rdb_outbox s) t |}.
Proof. all: by repeat intros []. Defined.

#[export] Instance rdb_separate D : Separate (RowDB D) OutboxEvent (RowJob D).
Proof. constructor; by intros t []. Qed.

Definition held_row : RowJob SummaryData :=
  MkRowJob (MkSummaryData 40 38 [] None None None) RowRunning (Some 0) 2 (Some (seconds 300)) (Some "w1"%string) None 0.

Definition held_db : RowDB SummaryData := MkRowDB ∅ {["c" := held_row]}.

Lemma held_db_fresh : drawn_fresh (D := SummaryData) "c" "n" "e" held_db.
Proof. split; [reflexivity|]. intros i e. change (events_of held_db) with (∅ : outbox). by rewrite lookup_empty. Qed.

Lemma delivery_accounted_witness :
  (exists s' row' s'', redeliver (D := SummaryData) "c" "n" "e" (seconds 200) held_db = (Ok true, s') /\
     claim "c" "w2" (seconds 305) s' = (Ok (Some row'), s'')) /\
  redeliver (D := SummaryData) "c" "n" "e" (seconds 301) held_db = (Ok false, held_db).
Proof.
  split.
  - destruct (delivery_accounted "c" "w2" "n" "e" (seconds 100) (seconds 200) held_db held_row)
      as [(row' & s' & Hc & _)|(u & _ & _ & Hu & _ & [(_ & s' & Hr & _ & _ & Hlater)|(Hle & _)])].
    + reflexivity.
    + discriminate.
    + discriminate.
    + apply held_db_fresh.
    + reflexivity.
    + vm_compute. discriminate.
    + exfalso. vm_compute in Hc. discriminate Hc.
    + destruct (Hlater "w2"%string (seconds 305)) as (row' & s'' & Hc).
      * injection Hu as <-. vm_compute. discriminate.
      * exists s', row', s''. split; [exact Hr|exact Hc].
    + exfalso. injection Hu as <-. vm_compute in Hle. by apply Hle.
  - destruct (delivery_accounted "c" "w2" "n" "e" (seconds 299) (seconds 301) held_db held_row)
      as [(row' & s' & Hc & _)|(u & _ & _ & Hu & _ & [(Hlt & _)|(_ & Hr & _)])].
    + reflexivity.
    + discriminate.
    + discriminate.
    + apply held_db_fresh.
    + reflexivity.
    + vm_compute. discriminate.
    + exfalso. vm_compute in Hc. discriminate Hc.
    + exfalso. injection Hu as <-. vm_compute in Hlt. discriminate Hlt.
    + exact Hr.
Defined.

(** The lease of the run that holds the row ends between the claim's reading of
    the clock and the redelivery's: the message is acknowledged and no event is
    left, though the row can be taken. *)
Lemma delivery_lost_between_readings :
  (claim (D := SummaryData) "c" "w2" (seconds 299) held_db).1 = Ok None /\
  redeliver (D := SummaryData) "c" "n" "e" (seconds 301) held_db = (Ok false, held_db) /\
  takable MAX_ATTEMPTS (seconds 301) held_row = true.
Proof. vm_compute. split_and!; reflexivity. Qed.

Lemma finish_row_correct_witness :
  exists row' s', finish "c" held_row (Some []) false false true "n" "e" (seconds 100) held_db = (Ok "retry"%string, s') /\
    rows_of s' !! "c"%string = Some row' /\ r_worker_id row' = None.
Proof.
  destruct (finish_row_correct "c" held_row (Some []) false false true "n" "e" (seconds 100) held_db)
    as (outcome & row' & s' & Hrun & Hrows & Hw & _).
  - reflexivity.
  - apply held_db_fresh.
  - discriminate.
  - exists row', s'. split; [|split; [rewrite Hrows; apply lookup_insert_eq|exact Hw]].
    rewrite Hrun. vm_compute in Hrun. injection Hrun as <- _. reflexivity.
Defined.
