(* ===== verification/SummariesFacts.v ===== *)
(** * What the running summary promises

    Whatever others do between a run's reads and its writes, the parts of a
    chat never overlap, each counts the messages of its stretch, and the summary
    counts the messages up to where it reaches; a run overtaken writes nothing. *)

From S2P Require Import Prelude Text Json JsonParse PyText PyTime Fences Outbox Queue MemoryJobs MemoryFacts ChatHistory RowJobs Summaries.

(** ** Counting rows *)

Lemma size_filter_values {A} (P : A -> Prop) `{!forall x, Decision (P x)} (m : table A) :
  size (filter (fun kv => P kv.2) m) = length (filter P (map_to_list m).*2).
Proof.
  induction m as [|i x m Hi IH] using map_ind; [by rewrite map_filter_empty, map_to_list_empty, map_size_empty|].
  rewrite map_to_list_insert, fmap_cons, filter_cons by done. simpl.
  case_decide as Hx.
  - rewrite map_filter_insert_True, map_size_insert_None by (done || by rewrite map_lookup_filter_None; left).
    by rewrite IH.
  - rewrite map_filter_insert_not' by (try done; intros ?; by rewrite Hi). done.
Qed.

Lemma length_filter_split {A} (key : A -> Z) (P : A -> Prop) `{!forall x, Decision (P x)} (l : list A) a b c : a <= b <= c ->
  length (filter (fun x => P x /\ a < key x <= c) l) =
  Nat.add (length (filter (fun x => P x /\ a < key x <= b) l)) (length (filter (fun x => P x /\ b < key x <= c) l)).
Proof.
  intros Hab. induction l as [|x l IH]; [done|]. rewrite !filter_cons.
  repeat case_decide; simpl; rewrite ?IH; try lia; exfalso; intuition lia.
Qed.

Section facts.
Context `{PyStr} `{PyRepr} `{PyFloat} `{PyFold}.
Implicit Types (s : SummaryDB) (session_id : string) (part : ChatSummaryPart).

(** A message a turn's history holds. *)
Definition visible (m : Message) : bool :=
  is_dialogue m && match message_text_for_model (JStr (msg_content m)) with Ok (_ :: _) => true | _ => false end.

(** How many of them a chat has after [a], up to [b]. *)
Definition count_in session_id (a b : Z) s : Z :=
  Z.of_nat (size (filter (fun kv => (msg_session kv.2 = session_id /\ visible kv.2 = true) /\ a < msg_sequence kv.2 <= b)
    (sdb_messages s))).

Lemma count_in_list session_id a b s : count_in session_id a b s =
  Z.of_nat (length (filter (fun m => (msg_session m = session_id /\ visible m = true) /\ a < msg_sequence m <= b)
    (map_to_list (sdb_messages s)).*2)).
Proof.
  unfold count_in. f_equal. rewrite <- (size_filter_values (fun m => (msg_session m = session_id /\ visible m = true) /\ a < msg_sequence m <= b)).
  f_equal.
Qed.

Lemma count_in_split session_id a b c s : a <= b <= c ->
  count_in session_id a c s = count_in session_id a b s + count_in session_id b c s.
Proof.
  intros Hab. rewrite !count_in_list.
  rewrite (length_filter_split msg_sequence (fun m => msg_session m = session_id /\ visible m = true) _ a b c Hab). lia.
Qed.

Definition has_message s (m : Message) : Prop := exists id, sdb_messages s !! id = Some m.
Definition has_part s (p : ChatSummaryPart) : Prop := exists id, sdb_parts s !! id = Some p.

Lemma count_in_none session_id a b s :
  (forall m, has_message s m -> msg_session m = session_id -> ~ a < msg_sequence m <= b) -> count_in session_id a b s = 0.
Proof.
  intros Hn. rewrite count_in_list, filter_none; [done|].
  apply Forall_forall. intros m Hm [[Hs _] Hr]. apply list_elem_of_fmap in Hm as ([id m'] & -> & Hm).
  apply elem_of_map_to_list in Hm. by eapply Hn; [exists id| |].
Qed.

(** The part of the messages of a chat up to a sequence. *)
Definition below session_id (t : Z) s : table Message :=
  filter (fun kv => msg_session kv.2 = session_id /\ msg_sequence kv.2 <= t) (sdb_messages s).

Lemma below_restrict session_id t u s s' : u <= t -> below session_id t s = below session_id t s' ->
  below session_id u s = below session_id u s'.
Proof.
  intros Hu Heq. unfold below in *.
  assert (forall s, filter (fun kv : string * Message => msg_session kv.2 = session_id /\ msg_sequence kv.2 <= u) (sdb_messages s) =
    filter (fun kv : string * Message => msg_sequence kv.2 <= u) (filter (fun kv : string * Message =>
      msg_session kv.2 = session_id /\ msg_sequence kv.2 <= t) (sdb_messages s))) as Hf.
  { intros s0. rewrite map_filter_filter. apply map_filter_ext. intros i m _. simpl. intuition lia. }
  by rewrite !Hf, Heq.
Qed.

Lemma count_in_below session_id a b t s s' : b <= t -> below session_id t s = below session_id t s' ->
  count_in session_id a b s = count_in session_id a b s'.
Proof.
  intros Hb Heq. unfold count_in, below in *.
  assert (forall s, filter (fun kv : string * Message => (msg_session kv.2 = session_id /\ visible kv.2 = true) /\ a < msg_sequence kv.2 <= b)
      (sdb_messages s) =
    filter (fun kv : string * Message => visible kv.2 = true /\ a < msg_sequence kv.2 <= b) (filter (fun kv : string * Message =>
      msg_session kv.2 = session_id /\ msg_sequence kv.2 <= t) (sdb_messages s))) as Hf.
  { intros s0. rewrite map_filter_filter. apply map_filter_ext. intros i m _. simpl. intuition lia. }
  by rewrite !Hf, Heq.
Qed.

Lemma below_message session_id t s s' m : below session_id t s = below session_id t s' ->
  has_message s m -> msg_session m = session_id -> msg_sequence m <= t -> has_message s' m.
Proof.
  intros Heq [id Hid] Hs Ht. exists id.
  assert (below session_id t s !! id = Some m) as Hl by (by apply map_lookup_filter_Some).
  rewrite Heq in Hl. by apply map_lookup_filter_Some in Hl as [? _].
Qed.

(** ** One stretch *)

(** The sequences of a chat's messages are distinct ([ux_chat_messages_session_sequence]). *)
Definition distinct session_id s : Prop :=
  forall m m', has_message s m -> has_message s m' -> msg_session m = session_id -> msg_session m' = session_id ->
    msg_sequence m = msg_sequence m' -> m = m'.

Lemma in_stretch_rows session_id a b s m :
  m ∈ stretch_rows session_id a b s <->
    has_message s m /\ msg_session m = session_id /\ a < msg_sequence m <= b /\ is_dialogue m = true.
Proof.
  unfold stretch_rows, has_message. rewrite sort_by_perm, list_elem_of_fmap. split.
  - intros ([id m'] & -> & Hm). apply elem_of_map_to_list, map_lookup_filter_Some in Hm as [Hm Hp]. simpl in *. eauto.
  - intros ([id Hid] & Hp). exists (id, m). split; [done|]. apply elem_of_map_to_list, map_lookup_filter_Some. done.
Qed.

Definition earlier (m m' : Message) : Prop := msg_sequence m < msg_sequence m'.

(** Rows sorted by a key that tells them apart are sorted strictly. *)
Lemma sorted_strict {A} (key : A -> Z) (l : list A) : StronglySorted (key_le key) l -> NoDup l ->
  (forall x y, x ∈ l -> y ∈ l -> key x = key y -> x = y) -> StronglySorted (fun x y => key x < key y) l.
Proof.
  induction 1 as [|x l _ IH Hx]; intros Hnd Hd; [constructor|]. apply NoDup_cons in Hnd as [Hnx Hnd].
  constructor; [apply IH; [done|]; intros; apply Hd; by try apply list_elem_of_further|].
  rewrite Forall_forall in *. intros y Hy. specialize (Hx y Hy). unfold key_le in Hx.
  assert (key x <> key y); [|lia]. intros Heq. apply Hnx. rewrite (Hd x y); [done|..|done].
  - apply list_elem_of_here.
  - by apply list_elem_of_further.
Qed.

Lemma NoDup_values {A} (m : table A) : (forall i j x, m !! i = Some x -> m !! j = Some x -> i = j) -> NoDup (map_to_list m).*2.
Proof.
  intros Hi. apply NoDup_fmap_2_strong; [|apply NoDup_map_to_list].
  intros [i x] [j y] Hx Hy Heq. simpl in Heq. subst y. apply elem_of_map_to_list in Hx, Hy. by rewrite (Hi i j x).
Qed.

(** No row is stored twice. *)
Definition once s : Prop := forall i j m, sdb_messages s !! i = Some m -> sdb_messages s !! j = Some m -> i = j.

Lemma stretch_rows_sorted session_id a b s : once s -> distinct session_id s ->
  StronglySorted earlier (stretch_rows session_id a b s).
Proof.
  intros Ho Hd. apply (sorted_strict msg_sequence).
  - apply (StronglySorted_merge_sort (key_le msg_sequence)).
  - unfold stretch_rows. rewrite sort_by_perm. apply NoDup_values. intros i j m Hi Hj.
    apply map_lookup_filter_Some in Hi as [Hi _], Hj as [Hj _]. by eapply Ho.
  - intros x y Hx%in_stretch_rows Hy%in_stretch_rows. destruct Hx as (? & ? & _), Hy as (? & ? & _). by apply Hd.
Qed.

(** Counting in the rows of a longer stretch. *)
Lemma count_in_rows session_id a t b s : t <= b ->
  count_in session_id a t s =
    Z.of_nat (length (filter (fun m => visible m = true /\ msg_sequence m <= t) (stretch_rows session_id a b s))).
Proof.
  intros Ht. unfold count_in, stretch_rows. rewrite sort_by_perm.
  rewrite <- (size_filter_values (fun m => visible m = true /\ msg_sequence m <= t)). do 2 f_equal.
  rewrite map_filter_filter. apply map_filter_ext. intros i m _. simpl. unfold visible.
  destruct (is_dialogue m); simpl; intuition (congruence || lia).
Qed.

(** The rows of a sorted list up to a bound that parts it. *)
Lemma filter_upto (P : Message -> Prop) `{!forall m, Decision (P m)} pre post t :
  Forall (fun m => msg_sequence m <= t) pre -> Forall (fun m => t < msg_sequence m) post ->
  filter (fun m => P m /\ msg_sequence m <= t) (pre ++ post) = filter P pre.
Proof.
  intros Hpre Hpost. rewrite filter_app, (filter_none _ post), app_nil_r.
  - induction Hpre as [|m l Hm _ IH]; [done|]. rewrite !filter_cons, IH. repeat case_decide; intuition congruence.
  - eapply Forall_impl; [exact Hpost|]. intros m Hm [_ ?]. simpl in *. lia.
Qed.

Definition size_of (ts : list (Z * string * text)) : Z := foldr (fun t n => Z.of_nat (length t.2) + n) 0 ts.

Lemma size_of_snoc ts t : size_of (ts ++ [t]) = size_of ts + Z.of_nat (length t.2).
Proof. induction ts as [|u ts IH]; simpl; [lia|]. unfold size_of in *. rewrite IH. lia. Qed.

(** A row the loop passes: what it adds to the count. *)
Definition spoken (m : Message) : bool :=
  match message_text_for_model (JStr (msg_content m)) with Ok (_ :: _) => true | _ => false end.

Lemma take_words (w : text) : Z.of_nat (length (take MAX_MESSAGE_CHARS w)) <= 4000.
Proof.
  rewrite length_take. change 4000 with (Z.of_nat MAX_MESSAGE_CHARS). apply inj_le. apply Nat.le_min_l.
Qed.

Lemma part_loop_spec rs : forall total acc st, part_loop rs total acc = Ok st ->
  total = size_of (turns acc) -> size_of (turns acc) <= MAX_WINDOW_CHARS ->
  size_of (turns st) <= MAX_WINDOW_CHARS /\
  exists pre post, rs = pre ++ post /\
    stretch_counted st = stretch_counted acc + Z.of_nat (length (filter (fun m => spoken m = true) pre)) /\
    ((post = [] /\ covered st = covered acc) \/
     exists m post', post = m :: post' /\ covered st = msg_sequence m - 1 /\ (turns acc <> [] \/ pre <> [])).
Proof.
  induction rs as [|row rs IH]; intros total acc st Hl Ht Hm; cbn [part_loop] in Hl.
  { injection Hl as <-. split; [done|]. exists [], []. split_and!; [done|simpl; lia|by left]. }
  destruct (message_text_for_model (JStr (msg_content row))) as [whole|e] eqn:Hw; [|discriminate].
  unfold mbind, res_bind in Hl.
  (* the rest of the loop, once the row has added [k] to the count *)
  assert (forall acc' total' (k : bool), part_loop rs total' acc' = Ok st -> total' = size_of (turns acc') ->
    size_of (turns acc') <= MAX_WINDOW_CHARS -> covered acc' = covered acc -> spoken row = k ->
    stretch_counted acc' = stretch_counted acc + (if k then 1 else 0) ->
    size_of (turns st) <= MAX_WINDOW_CHARS /\
    exists pre post, row :: rs = pre ++ post /\
      stretch_counted st = stretch_counted acc + Z.of_nat (length (filter (fun m => spoken m = true) pre)) /\
      ((post = [] /\ covered st = covered acc) \/
       exists m post', post = m :: post' /\ covered st = msg_sequence m - 1 /\ (turns acc <> [] \/ pre <> []))) as Hgo.
  { intros acc' total' k Hr Ht' Hm' Hcov Hk Hcnt. destruct (IH _ _ _ Hr Ht' Hm') as (Hsz & pre & post & -> & Hc & Hend).
    split; [done|]. exists (row :: pre), post. split; [done|]. rewrite filter_cons, Hk. rewrite Hcov in Hend. split.
    - rewrite Hc, Hcnt. destruct k; case_decide; simpl; try done; lia.
    - destruct Hend as [?|(m & post' & -> & ? & _)]; [by left|right]. exists m, post'. split_and!; [done..|by right]. }
  destruct whole as [|c whole].
  { rewrite take_nil in Hl. eapply Hgo; [exact Hl|done|done|done|unfold spoken; by rewrite Hw|by rewrite Z.add_0_r]. }
  assert (spoken row = true) as Hsp by (unfold spoken; by rewrite Hw).
  pose proof (take_words (c :: whole)) as Hlen.
  destruct (take MAX_MESSAGE_CHARS (c :: whole)) as [|d words] eqn:Hd; [done|].
  destruct (restates_a_shared_page row || refused_by_guardrails (msg_meta row)).
  { eapply Hgo; [exact Hl|done|done|done|exact Hsp|done]. }
  match type of Hl with (if ?b then _ else _) = _ => destruct b eqn:Hbig end.
  { apply Ok_inj in Hl as <-. apply andb_prop in Hbig as [Hne%negb_true_iff%bool_decide_eq_false_1 _]. split; [done|].
    exists [], (row :: rs). split; [done|]. split; [by rewrite Z.add_0_r|]. right. exists row, rs. split_and!; [done..|by left]. }
  eapply Hgo; [exact Hl| | |done|exact Hsp|done]; cbn [turns]; rewrite size_of_snoc; cbn [snd]; [lia|].
  apply andb_false_iff in Hbig as [Hb|Hb].
  - apply negb_false_iff, bool_decide_eq_true_1 in Hb. rewrite Hb. change (size_of []) with 0. unfold MAX_WINDOW_CHARS. lia.
  - apply Z.ltb_ge in Hb. lia.
Qed.

Lemma last_Some_in {A} (l : list A) x n : last (take n l) = Some x -> x ∈ l.
Proof. intros Hl%last_Some_elem_of. by eapply elem_of_take in Hl as (? & ?%list_elem_of_lookup_2 & _). Qed.

(** Where the loop stopped parts the rows of the stretch: those passed are
    covered, those left are not. *)
Lemma upto_parts (L : list Message) a b pre post rest t c :
  StronglySorted earlier L -> L = pre ++ post ++ rest -> (forall m, m ∈ L -> a < msg_sequence m <= b) -> a < b ->
  t = Z.max (a + 1) c ->
  (post = [] /\ ((c = b /\ rest = []) \/ (exists m, last pre = Some m /\ c = msg_sequence m))) \/
  (exists m post', post = m :: post' /\ c = msg_sequence m - 1 /\ pre <> []) ->
  t <= b /\ Forall (fun m => msg_sequence m <= t) pre /\ Forall (fun m => t < msg_sequence m) (post ++ rest).
Proof.
  intros Hs HL Hin Hab Ht Hcase. rewrite HL in Hs. apply StronglySorted_app in Hs as (Hlt & Hpre & Hrest).
  assert (forall m, m ∈ pre -> a < msg_sequence m <= b) as Hpin.
  { intros m Hm. apply Hin. rewrite HL. apply elem_of_app. by left. }
  assert (forall m, m ∈ post ++ rest -> a < msg_sequence m <= b) as Hrin.
  { intros m Hm. apply Hin. rewrite HL. apply elem_of_app. by right. }
  destruct Hcase as [[-> [[-> ->]|(m & Hm & ->)]]|(m & post' & -> & -> & Hne)].
  - split_and!; [lia| |constructor]. apply Forall_forall. intros x Hx. specialize (Hpin x Hx). lia.
  - pose proof (Hpin m (last_Some_elem_of _ _ Hm)) as Hmb. apply last_Some in Hm as [l ->].
    split_and!; [lia| |].
    + apply Forall_forall. intros x Hx. apply elem_of_app in Hx as [Hx| ->%list_elem_of_singleton]; [|lia].
      apply StronglySorted_app in Hpre as (Hl & _ & _). specialize (Hl x m Hx ltac:(apply list_elem_of_here)). unfold earlier in Hl. lia.
    + apply Forall_forall. intros x Hx.
      specialize (Hlt m x ltac:(apply elem_of_app; right; apply list_elem_of_here) Hx). unfold earlier in Hlt. lia.
  - assert (m ∈ (m :: post') ++ rest) as Hm by apply list_elem_of_here.
    destruct pre as [|x0 pre]; [done|].
    pose proof (Hlt x0 m ltac:(apply list_elem_of_here) Hm) as Hx0m. pose proof (Hpin x0 ltac:(apply list_elem_of_here)) as Hx0.
    pose proof (Hrin m Hm) as Hmb. unfold earlier in Hx0m.
    split_and!; [lia| |].
    + apply Forall_forall. intros x Hx. specialize (Hlt x m Hx Hm). unfold earlier in Hlt. lia.
    + simpl in Hrest. apply StronglySorted_inv in Hrest as [_ Hrest]. simpl. constructor; [lia|].
      eapply Forall_impl; [exact Hrest|]. unfold earlier. intros x ?. lia.
Qed.

Lemma list_filter_iff_elem {A} (P Q : A -> Prop) `{!forall x, Decision (P x), !forall x, Decision (Q x)} (l : list A) :
  (forall x, x ∈ l -> P x <-> Q x) -> length (filter P l) = length (filter Q l).
Proof.
  intros Hpq. induction l as [|x l IH]; [done|]. rewrite !filter_cons.
  specialize (Hpq x ltac:(apply list_elem_of_here)) as Hx.
  rewrite <- ?IH by (intros; apply Hpq; by apply list_elem_of_further).
  repeat case_decide; simpl; rewrite ?IH by (intros; apply Hpq; by apply list_elem_of_further); intuition lia.
Qed.

(** A stretch counts the messages of the chat it covers, goes on from where it
    was asked to, and fits what one call reads. *)
Lemma part_correct session_id a b s st : once s -> distinct session_id s -> a < b -> _part session_id a b s = Ok st ->
  Z.max (a + 1) (covered st) <= b /\
  stretch_counted st = count_in session_id a (Z.max (a + 1) (covered st)) s /\
  size_of (turns st) <= MAX_WINDOW_CHARS.
Proof.
  intros Ho Hd Hab Hp. unfold _part in Hp. pose proof (stretch_rows_sorted session_id a b s Ho Hd) as Hs.
  assert (forall m, m ∈ stretch_rows session_id a b s -> a < msg_sequence m <= b /\ visible m = spoken m) as Hin.
  { intros m (_ & _ & ? & Hdia)%in_stretch_rows. split; [done|]. unfold visible. by rewrite Hdia. }
  set (L := stretch_rows session_id a b s) in *. set (rows := take PART_ROWS L) in *.
  apply part_loop_spec in Hp as (Hsz & pre & post & Hrows & Hcnt & Hend); [|done|unfold MAX_WINDOW_CHARS; done].
  cbn [turns covered stretch_counted] in Hcnt, Hend. rewrite Z.add_0_l in Hcnt.
  pose proof (take_drop PART_ROWS L) as HL. fold rows in HL. rewrite Hrows, <- app_assoc in HL.
  set (t := Z.max (a + 1) (covered st)).
  assert (t <= b /\ Forall (fun m => msg_sequence m <= t) pre /\ Forall (fun m => t < msg_sequence m) (post ++ drop PART_ROWS L))
    as (Htb & Hpre & Hpost).
  { apply (upto_parts L a b pre post (drop PART_ROWS L) t (covered st)); [done|by rewrite HL|intros m Hm; by apply Hin|done..|].
    destruct Hend as [[-> Hc]|(m & post' & -> & Hc & [[]|Hne])]; [left|done|right; eauto].
    split; [done|]. rewrite app_nil_r in Hrows. rewrite Hc, <- Hrows.
    destruct (Nat.ltb_spec (length rows) PART_ROWS) as [Hlt|Hge].
    - left. split; [done|]. apply drop_ge. unfold rows in Hlt. rewrite length_take in Hlt. lia.
    - right. destruct (last rows) as [m|] eqn:Hl; [eauto|].
      apply last_None in Hl. rewrite Hl in Hge. by apply Nat.le_0_r in Hge. }
  split; [done|]. split; [|done].
  rewrite (count_in_rows session_id a t b) by done. fold L. rewrite <- HL, (filter_upto (fun m => visible m = true)) by done.
  rewrite Hcnt. f_equal. apply list_filter_iff_elem. intros m Hm. assert (m ∈ L) as HmL
    by (rewrite <- HL; apply elem_of_app; by left).
  by rewrite (proj2 (Hin m HmL)).
Qed.

(** ** What holds between the runs' steps *)

(** The messages a run may cover are the chat's but its newest: the settings
    keep [summary_keep_recent] at 4 or more ([memory_settings_service.py]). *)
Definition FEWEST_KEPT : Z := 4.
Definition settled session_id s : Z := latest_sequence session_id s - FEWEST_KEPT.

Definition part_in session_id s part : Prop := has_part s part /\ part_session part = session_id.
Definition message_in session_id s (m : Message) : Prop := has_message s m /\ msg_session m = session_id.
Definition summary_data session_id s : option SummaryData := data <$> sdb_summaries s !! session_id.
Definition covers part (m : Message) : Prop := from_sequence part <= msg_sequence m <= to_sequence part.

Record valid session_id s : Prop := {
  v_range : forall p, part_in session_id s p -> 1 <= from_sequence p <= to_sequence p /\ to_sequence p <= settled session_id s;
  v_apart : forall p q, part_in session_id s p -> part_in session_id s q ->
    p = q \/ to_sequence p < from_sequence q \/ to_sequence q < from_sequence p;
  v_counted : forall p, part_in session_id s p -> counted p = count_in session_id (from_sequence p - 1) (to_sequence p) s;
  v_row : forall d, summary_data session_id s = Some d ->
    covered_count d = count_in session_id 0 (up_to_sequence d) s /\
    (up_to_sequence d = 0 \/ exists p, part_in session_id s p /\ to_sequence p = up_to_sequence d) /\
    (forall m, message_in session_id s m -> msg_sequence m <= up_to_sequence d -> exists p, part_in session_id s p /\ covers p m);
  v_owner : forall p, part_in session_id s p -> is_Some (summary_data session_id s)
}.

Record well_formed s : Prop := {
  wf_once : once s;
  wf_distinct : forall session_id, distinct session_id s;
  wf_positive : forall m, has_message s m -> 1 <= msg_sequence m;
  wf_parts : forall i j p q, sdb_parts s !! i = Some p -> sdb_parts s !! j = Some q -> part_session p = part_session q ->
    from_sequence p = from_sequence q -> i = j;
  wf_stamps : forall session_id r, sdb_summaries s !! session_id = Some r -> r_updated_at r <= sdb_clock s;
  wf_valid : forall session_id, valid session_id s
}.

(** The chat of a summary nobody touched: its parts are what they were, and so
    are its messages but the newest. *)
Record same_chat session_id s s' : Prop := {
  same_parts : session_parts session_id s = session_parts session_id s';
  same_latest : latest_sequence session_id s <= latest_sequence session_id s';
  same_below : below session_id (settled session_id s) s = below session_id (settled session_id s) s'
}.

(** A stamp later than the summary's, or than anything when it has none. *)
Definition newer session_id (t : Z) s : Prop :=
  match sdb_summaries s !! session_id with Some r => r_updated_at r < t | None => sdb_clock s < t end.

(** What others may do: a summary they touch, or whose chat they touch below its
    newest messages, has a later stamp. *)
Definition rely s s' : Prop :=
  sdb_clock s <= sdb_clock s' /\
  forall session_id r', sdb_summaries s' !! session_id = Some r' ->
    newer session_id (r_updated_at r') s \/
    exists r, sdb_summaries s !! session_id = Some r /\ r_updated_at r = r_updated_at r' /\ data r = data r' /\
      same_chat session_id s s'.

Lemma same_chat_refl session_id s : same_chat session_id s s.
Proof. by constructor. Qed.

Lemma same_chat_trans session_id s s' s'' :
  same_chat session_id s s' -> same_chat session_id s' s'' -> same_chat session_id s s''.
Proof.
  intros [Hp Hl Hb] [Hp' Hl' Hb']. constructor; [congruence|lia|].
  rewrite Hb. apply (below_restrict session_id (settled session_id s')); [unfold settled; lia|done].
Qed.

Lemma newer_clock session_id t s : well_formed s -> sdb_clock s < t -> newer session_id t s.
Proof.
  intros Hwf Ht. unfold newer. destruct (sdb_summaries s !! session_id) as [r|] eqn:Hr; [|done].
  pose proof (wf_stamps s Hwf _ _ Hr). lia.
Qed.

Lemma newer_le session_id t u s : newer session_id t s -> t <= u -> newer session_id u s.
Proof. unfold newer. destruct (sdb_summaries s !! session_id); lia. Qed.

Lemma rely_refl s : rely s s.
Proof. split; [done|]. intros session_id r Hr. right. exists r. by split_and!; try apply same_chat_refl. Qed.

Lemma rely_trans s s' s'' : well_formed s -> rely s s' -> rely s' s'' -> rely s s''.
Proof.
  intros Hwf [Hc Hr] [Hc' Hr']. split; [lia|]. intros session_id r'' H'.
  destruct (Hr' session_id r'' H') as [Hn|(r' & Hr1 & Hst & Hd & Hs)].
  - left. unfold newer in Hn. destruct (sdb_summaries s' !! session_id) as [r'|] eqn:Hr1; [|apply newer_clock; [done|lia]].
    destruct (Hr session_id r' Hr1) as [Hn'|(r & Hl & Hst & _)]; [eapply newer_le; [exact Hn'|lia]|].
    unfold newer. rewrite Hl. lia.
  - destruct (Hr session_id r' Hr1) as [Hn|(r & ? & ? & ? & ?)]; [left; by rewrite <- Hst|right].
    exists r. split_and!; [done|congruence..|by eapply same_chat_trans].
Qed.

(** Since [s], where the summary was [row], it was taken, or others changed what
    it says or its chat below the newest messages. *)
Definition overtaken session_id row s s' : Prop :=
  ~ (summary_data session_id s' = Some (data row) /\ same_chat session_id s s').

(** What was overtaken has another stamp. *)
Lemma overtaken_refused session_id row s s' f now : rely s s' -> sdb_summaries s !! session_id = Some row ->
  overtaken session_id row s s' -> _written session_id (r_updated_at row) f now s' = (Ok false, s').
Proof.
  intros [_ Hr] Hrow Ho. unfold _written. destruct (sdb_summaries s' !! session_id) as [r'|] eqn:Hr'; [|done].
  destruct (Z.eqb_spec (r_updated_at r') (r_updated_at row)) as [Heq|]; [|done]. destruct Ho.
  destruct (Hr session_id r' Hr') as [Hn|(r & Hr0 & _ & Hd & Hsame)].
  - unfold newer in Hn. rewrite Hrow in Hn. lia.
  - split; [|done]. unfold summary_data. rewrite Hr'. simpl. congruence.
Qed.

(** A summary found with the stamp a run knew is as the run knew it. *)
Lemma not_overtaken session_id s s' r : rely s s' -> sdb_summaries s' !! session_id = Some r ->
  ~ newer session_id (r_updated_at r) s -> summary_data session_id s = Some (data r) /\ same_chat session_id s s' /\
    exists r0, sdb_summaries s !! session_id = Some r0 /\ r_updated_at r0 = r_updated_at r /\ data r0 = data r.
Proof.
  intros [_ Hr] Hs Hv. destruct (Hr session_id r Hs) as [?|(r0 & Hrow & Hst & Hd & Hsame)]; [done|].
  split_and!; [unfold summary_data; rewrite Hrow; simpl; by rewrite Hd|done|eauto].
Qed.

Lemma part_in_session session_id s p : part_in session_id s p <-> exists i, session_parts session_id s !! i = Some p.
Proof.
  unfold part_in, has_part, session_parts. split.
  - intros [[i Hi] Hs]. exists i. by apply map_lookup_filter_Some.
  - intros [i [Hi Hs]%map_lookup_filter_Some]. eauto.
Qed.

Lemma same_part_in session_id s s' p : same_chat session_id s s' -> part_in session_id s p <-> part_in session_id s' p.
Proof. intros [Hp _ _]. by rewrite !part_in_session, Hp. Qed.

Lemma latest_at_least session_id s m : message_in session_id s m -> msg_sequence m <= latest_sequence session_id s.
Proof.
  intros [[i Hi] Hs]. apply max_or_0_ge. apply list_elem_of_fmap. exists m. split; [done|].
  apply list_elem_of_fmap. exists (i, m). split; [done|]. apply elem_of_map_to_list. by apply map_lookup_filter_Some.
Qed.

(** A chat that changed only by its newest messages stays valid. *)
Lemma valid_same session_id s s' : well_formed s -> (forall m, has_message s' m -> 1 <= msg_sequence m) ->
  same_chat session_id s s' -> (forall d, summary_data session_id s' = Some d -> summary_data session_id s = Some d) ->
  (is_Some (summary_data session_id s) -> is_Some (summary_data session_id s')) -> valid session_id s'.
Proof.
  intros Hwf Hpos Hsame Hd Hd'. destruct (wf_valid s Hwf session_id) as [Hr Ha Hc Hrow Ho].
  assert (forall p, part_in session_id s' p -> part_in session_id s p) as Hp
    by (intros p; by rewrite (same_part_in session_id s s' p Hsame)).
  assert (settled session_id s <= settled session_id s') as Hle by (pose proof (same_latest _ _ _ Hsame); unfold settled; lia).
  assert (forall m u, message_in session_id s' m -> msg_sequence m <= u -> u <= settled session_id s -> message_in session_id s m) as Hm.
  { intros m u [Hm Hs] Hu Hus. split; [|done].
    eapply (below_message session_id (settled session_id s) s' s); [by rewrite (same_below _ _ _ Hsame)|done..|lia]. }
  constructor.
  - intros p Hin%Hp. specialize (Hr p Hin). lia.
  - intros p q Hpi%Hp Hqi%Hp. by apply Ha.
  - intros p Hin%Hp. rewrite (Hc p Hin). eapply count_in_below; [|by apply same_below]. apply Hr, Hin.
  - intros d Hsd%Hd. destruct (Hrow d Hsd) as (Hcov & Hup & Hall).
    assert (up_to_sequence d = 0 \/ up_to_sequence d <= settled session_id s) as Hus.
    { destruct Hup as [?|(p & Hin & <-)]; [by left|right; apply Hr, Hin]. }
    split_and!.
    + rewrite Hcov. destruct Hus as [-> |Hus].
      * rewrite !count_in_none; [done|lia..].
      * eapply count_in_below; [exact Hus|by apply same_below].
    + destruct Hup as [?|(p & Hin & ?)]; [by left|right]. exists p. split; [|done]. by rewrite <- (same_part_in session_id s s').
    + intros m Hin Hle'. destruct Hus as [Hz|Hus]; [destruct Hin as [Hin _]; specialize (Hpos m Hin); lia|].
      destruct (Hall m) as (p & Hpi & Hcv); [by eapply Hm|done|].
      exists p. split; [|done]. by rewrite <- (same_part_in session_id s s').
  - intros p Hin%Hp. by apply Hd', (Ho p).
Qed.

(** Parts a chat already has lie in the order of their starts. *)
Lemma in_parts_of session_id s p : p ∈ _parts_of session_id s <-> part_in session_id s p.
Proof.
  unfold _parts_of. rewrite sort_by_perm, list_elem_of_fmap, part_in_session. split.
  - intros ([i q] & -> & Hin%elem_of_map_to_list). eauto.
  - intros [i Hi]. exists (i, p). split; [done|]. by apply elem_of_map_to_list.
Qed.

Lemma parts_of_sorted session_id s : well_formed s ->
  StronglySorted (fun p q => to_sequence p < from_sequence q) (_parts_of session_id s).
Proof.
  intros Hwf. pose proof (wf_valid s Hwf session_id) as Hv.
  assert (StronglySorted (fun p q => from_sequence p < from_sequence q) (_parts_of session_id s)) as Hs.
  { apply (sorted_strict from_sequence).
    - apply (StronglySorted_merge_sort (key_le from_sequence)).
    - unfold _parts_of. rewrite sort_by_perm. apply NoDup_values. intros i j p Hi Hj.
      apply map_lookup_filter_Some in Hi as [Hi _], Hj as [Hj _]. by eapply wf_parts.
    - intros p q Hp%in_parts_of Hq%in_parts_of Heq.
      pose proof (v_range _ _ Hv p Hp). pose proof (v_range _ _ Hv q Hq).
      destruct (v_apart _ _ Hv p q Hp Hq) as [?|[?|?]]; [done|lia..]. }
  assert (forall p, p ∈ _parts_of session_id s -> part_in session_id s p) as Hin by (intros p; apply in_parts_of).
  induction Hs as [|p l _ IH Hp]; [constructor|]. constructor.
  - apply IH. intros q Hq. apply Hin. by apply list_elem_of_further.
  - rewrite Forall_forall in *. intros q Hq. specialize (Hp q Hq).
    assert (part_in session_id s p) as Hpi by (apply Hin, list_elem_of_here).
    assert (part_in session_id s q) as Hqi by (apply Hin; by apply list_elem_of_further).
    pose proof (v_range _ _ Hv p Hpi). pose proof (v_range _ _ Hv q Hqi).
    destruct (v_apart _ _ Hv p q Hpi Hqi) as [->|[?|?]]; lia.
Qed.

Lemma held_spec session_id a b s : held session_id a b s = true <->
  exists m, message_in session_id s m /\ a < msg_sequence m <= b.
Proof.
  unfold held. rewrite bool_decide_eq_true. split.
  - intros Hne. apply map_choose in Hne as (i & m & Hm).
    apply map_lookup_filter_Some in Hm as [Hm Hr]. apply map_lookup_filter_Some in Hm as [Hm Hs].
    exists m. split; [|done]. split; [by exists i|done].
  - intros (m & [[i Hi] Hs] & Hr) Hempty.
    assert (filter (fun kv : string * Message => a < msg_sequence kv.2 <= b) (session_messages session_id s) !! i = Some m) as Hl.
    { apply map_lookup_filter_Some. split; [|done]. by apply map_lookup_filter_Some. }
    by rewrite Hempty, lookup_empty in Hl.
Qed.

(** No gap: every message up to the end of a part lies in a part. *)
Lemma gap_none session_id s ps after m q :
  gap_from session_id s after ps = None -> message_in session_id s m -> after < msg_sequence m ->
  q ∈ ps -> msg_sequence m <= to_sequence q -> exists p, p ∈ ps /\ covers p m.
Proof.
  intros Hg Hm. revert after Hg. induction ps as [|p ps IH]; intros after Hg Ha Hq Hle; [by apply elem_of_nil in Hq|].
  cbn [gap_from] in Hg.
  destruct (Z.lt_ge_cases (msg_sequence m) (from_sequence p)) as [Hlt|Hge].
  - assert (held session_id after (from_sequence p - 1) s = true) as Hh.
    { apply held_spec. exists m. split; [done|lia]. }
    rewrite Hh, andb_true_r in Hg. destruct (Z.ltb_spec (after + 1) (from_sequence p)); [done|lia].
  - destruct (Z.le_gt_cases (msg_sequence m) (to_sequence p)) as [Hp|Hp].
    + exists p. split; [apply list_elem_of_here|done].
    + destruct ((after + 1 <? from_sequence p) && _); [done|].
      apply elem_of_cons in Hq as [->|Hq]; [lia|].
      destruct (IH _ Hg ltac:(lia) Hq Hle) as (p' & Hp' & ?). exists p'. split; [by apply list_elem_of_further|done].
Qed.

(** A gap lies between what comes before it and the part that ends it. *)
Lemma gap_some session_id s ps after a b : StronglySorted (fun p q => to_sequence p < from_sequence q) ps ->
  (forall p, p ∈ ps -> from_sequence p <= to_sequence p) ->
  gap_from session_id s after ps = Some (a, b) ->
  after <= a /\ a < b /\ (exists q, q ∈ ps /\ b = from_sequence q - 1) /\
  (exists m, message_in session_id s m /\ a < msg_sequence m <= b) /\
  forall p, p ∈ ps -> to_sequence p <= a \/ b < from_sequence p.
Proof.
  intros Hs. revert after. induction Hs as [|p ps _ IH Hp]; intros after Hne Hg; [done|]. cbn [gap_from] in Hg.
  assert (from_sequence p <= to_sequence p) as Hpp by (apply Hne, list_elem_of_here).
  rewrite Forall_forall in Hp.
  destruct ((after + 1 <? from_sequence p) && _) eqn:Hh.
  - injection Hg as <- <-. apply andb_prop in Hh as [Hlt%Z.ltb_lt (m & ? & ?)%held_spec].
    split_and!; [lia..| | |].
    + exists p. split; [apply list_elem_of_here|done].
    + eauto.
    + intros q [->|Hq]%elem_of_cons; [right; lia|right]. specialize (Hp q Hq). lia.
  - destruct (IH _ ltac:(intros; apply Hne; by apply list_elem_of_further) Hg) as (Ha & Hab & (q & Hq & ->) & Hm & Hall).
    split_and!; [lia|done| |done|].
    + exists q. split; [by apply list_elem_of_further|done].
    + intros r [->|Hr]%elem_of_cons; [left; lia|by apply Hall].
Qed.

(** ** What a run writes *)

Lemma same_elsewhere session_id s s' : sdb_messages s' = sdb_messages s -> session_parts session_id s' = session_parts session_id s ->
  same_chat session_id s s'.
Proof.
  intros Hm Hp. constructor; [done| |].
  - unfold latest_sequence, session_messages. by rewrite Hm.
  - unfold below, settled, latest_sequence, session_messages. by rewrite Hm.
Qed.

(** The row with the columns of the work and the stamp changed. *)
Definition rewritten (d : SummaryData) (now : Z) (r : RowJob SummaryData) : RowJob SummaryData :=
  MkRowJob d (r_status r) (r_run_after r) (r_attempt_count r) (r_lease_expires_at r) (r_worker_id r) (r_last_error r) now.

(** A write on one chat's row keeps the tables well formed when the parts of the
    other chats are left alone, and is within what others rely on when its stamp
    is later. *)
Lemma row_write session_id r d now s s' : well_formed s -> sdb_clock s' = Z.max (sdb_clock s) now ->
  sdb_summaries s !! session_id = Some r -> sdb_summaries s' = <[session_id := rewritten d now r]> (sdb_summaries s) ->
  sdb_messages s' = sdb_messages s ->
  (forall i j p q, sdb_parts s' !! i = Some p -> sdb_parts s' !! j = Some q -> part_session p = part_session q ->
    from_sequence p = from_sequence q -> i = j) ->
  (forall other, other <> session_id -> session_parts other s' = session_parts other s) ->
  valid session_id s' -> well_formed s' /\ (r_updated_at r < now -> rely s s').
Proof.
  intros Hwf Hc Hr Hs Hm Hu Hp Hv.
  assert (forall other, other <> session_id -> sdb_summaries s' !! other = sdb_summaries s !! other) as Hother.
  { intros other Hne. by rewrite Hs, lookup_insert_ne. }
  assert (forall m, has_message s' m <-> has_message s m) as Hmsg by (intros m; unfold has_message; by rewrite Hm).
  split; [constructor|intros Hnow; split; [lia|]].
  - intros i j m. rewrite Hm. by apply wf_once.
  - intros other m m' Hm1%Hmsg Hm2%Hmsg. by apply (wf_distinct s Hwf).
  - intros m Hm1%Hmsg. by apply (wf_positive s Hwf).
  - done.
  - intros other r'. rewrite Hc. destruct (decide (other = session_id)) as [->|Hne].
    + rewrite Hs, lookup_insert_eq. intros [= <-]. cbn. lia.
    + rewrite (Hother other Hne). intros Hl. pose proof (wf_stamps s Hwf _ _ Hl). lia.
  - intros other. destruct (decide (other = session_id)) as [->|Hne]; [done|].
    apply (valid_same other s s' Hwf).
    + intros m Hm1%Hmsg. by apply (wf_positive s Hwf).
    + apply same_elsewhere; auto.
    + intros d'. unfold summary_data. by rewrite (Hother other Hne).
    + unfold summary_data. by rewrite (Hother other Hne).
  - intros other r' Hr'. destruct (decide (other = session_id)) as [->|Hne].
    + left. rewrite Hs, lookup_insert_eq in Hr'. injection Hr' as <-. unfold newer. by rewrite Hr.
    + right. exists r'. rewrite (Hother other Hne) in Hr'. split_and!; [done..|]. apply same_elsewhere; auto.
Qed.

(** A part that may be added: within the settled messages, apart from the
    others, counting its own. *)
Definition fits session_id s part : Prop :=
  part_session part = session_id /\ 1 <= from_sequence part <= to_sequence part /\ to_sequence part <= settled session_id s /\
  (forall q, part_in session_id s q -> to_sequence part < from_sequence q \/ to_sequence q < from_sequence part) /\
  counted part = count_in session_id (from_sequence part - 1) (to_sequence part) s.

Lemma count_in_messages session_id a b s s' : sdb_messages s = sdb_messages s' -> count_in session_id a b s = count_in session_id a b s'.
Proof. unfold count_in. by intros ->. Qed.

Lemma settled_messages session_id s s' : sdb_messages s = sdb_messages s' -> settled session_id s = settled session_id s'.
Proof. unfold settled, latest_sequence, session_messages. by intros ->. Qed.

Lemma add_part_sound session_id r now id part s : well_formed s -> sdb_summaries s !! session_id = Some r ->
  sdb_parts s !! id = None -> fits session_id s part ->
  let s' := with_parts <[id := part]> (with_clock (Z.max (sdb_clock s) now) (with_summaries <[session_id := rewritten (data r) now r]> s)) in
  well_formed s' /\ (r_updated_at r < now -> rely s s').
Proof.
  intros Hwf Hr Hid (Hps & Hft & Hset & Hap & Hcnt) s'. pose proof (wf_valid s Hwf session_id) as Hv.
  assert (forall p, part_in session_id s' p <-> p = part \/ part_in session_id s p) as Hin.
  { intros p. unfold part_in, has_part, s'. cbn [with_parts sdb_parts with_clock with_summaries]. split.
    - intros [[i Hi] Hs]. apply lookup_insert_Some in Hi as [[_ <-]|[_ Hi]]; eauto.
    - intros [-> |[[i Hi] Hs]]; [split; [exists id; apply lookup_insert_eq|done]|].
      split; [|done]. exists i. rewrite lookup_insert_ne; congruence. }
  apply (row_write session_id r (data r) now); try done.
  - intros i j p q Hi Hj Hs Hf. cbn in Hi, Hj.
    apply lookup_insert_Some in Hi as [[<- <-]|[Hni Hi]], Hj as [[<- <-]|[Hnj Hj]]; [done|..].
    + assert (part_in session_id s q) as Hq by (split; [by exists j|congruence]).
      specialize (Hap q Hq). pose proof (v_range _ _ Hv q Hq). lia.
    + assert (part_in session_id s p) as Hp by (split; [by exists i|congruence]).
      specialize (Hap p Hp). pose proof (v_range _ _ Hv p Hp). lia.
    + by eapply (wf_parts s Hwf).
  - intros other Hne. unfold session_parts, s'. cbn. apply map_filter_insert_not'; [simpl; congruence|intros ?; by rewrite Hid].
  - assert (summary_data session_id s' = summary_data session_id s) as Hd.
    { unfold summary_data, s'. cbn. by rewrite lookup_insert_eq, Hr. }
    constructor.
    + intros p [-> |Hp]%Hin; [|by apply (v_range _ _ Hv)]. rewrite <- (settled_messages session_id s); done.
    + intros p q [-> |Hp]%Hin [-> |Hq]%Hin; [by left|right; by apply Hap| |by apply (v_apart _ _ Hv)].
      right. destruct (Hap p Hp); auto.
    + intros p [-> |Hp]%Hin; [done|]. rewrite (v_counted _ _ Hv p Hp). by apply count_in_messages.
    + intros d. rewrite Hd. intros Hsd. destruct (v_row _ _ Hv d Hsd) as (Hc & Hup & Hall). split_and!; [done| |].
      * destruct Hup as [?|(p & ? & ?)]; [by left|right]. exists p. split; [|done]. apply Hin. by right.
      * intros m Hm Hle. destruct (Hall m Hm Hle) as (p & ? & ?). exists p. split; [|done]. apply Hin. by right.
    + intros p _. rewrite Hd. unfold summary_data. by rewrite Hr.
Qed.

(** What the summary may reach: its count is the messages so far, up to the end
    of a part, and no message before is outside a part. *)
Definition reaches session_id s (d : SummaryData) : Prop :=
  covered_count d = count_in session_id 0 (up_to_sequence d) s /\
  (exists p, part_in session_id s p /\ to_sequence p = up_to_sequence d) /\
  (forall m, message_in session_id s m -> msg_sequence m <= up_to_sequence d -> exists p, part_in session_id s p /\ covers p m).

Lemma fold_sound session_id r now d s : well_formed s -> sdb_summaries s !! session_id = Some r ->
  reaches session_id s d ->
  let s' := with_clock (Z.max (sdb_clock s) now) (with_summaries <[session_id := rewritten d now r]> s) in
  well_formed s' /\ (r_updated_at r < now -> rely s s').
Proof.
  intros Hwf Hr (Hc & Hup & Hall) s'. pose proof (wf_valid s Hwf session_id) as Hv.
  apply (row_write session_id r d now); try done; [by apply (wf_parts s Hwf)|].
  constructor; [apply (v_range _ _ Hv)|apply (v_apart _ _ Hv)|apply (v_counted _ _ Hv)| |].
  - intros d'. unfold summary_data, s'. cbn. rewrite lookup_insert_eq. intros [= <-]. split_and!; [done|by right|done].
  - intros p _. unfold summary_data, s'. cbn. by rewrite lookup_insert_eq.
Qed.

(** ** Folding *)

Lemma fold_batch_prefix any total ps : exists rest, ps = fold_batch any total ps ++ rest.
Proof.
  revert any total. induction ps as [|p ps IH]; intros any total; [by exists []|]. cbn [fold_batch].
  destruct (any && _); [by exists (p :: ps)|]. destruct (IH true (total + Z.of_nat (length (part_content p)))) as [rest Hr].
  exists rest. simpl. by rewrite <- Hr.
Qed.

Lemma fold_batch_first p ps : exists q l, fold_batch false 0 (p :: ps) = q :: l.
Proof. by eexists _, _. Qed.

(** Parts one after the other count the messages they reach over. *)
Lemma chain_count session_id s u batch q : valid session_id s ->
  StronglySorted (fun p q => to_sequence p < from_sequence q) batch -> (forall p, p ∈ batch -> part_in session_id s p) ->
  (forall p, p ∈ batch -> u < from_sequence p) -> last batch = Some q ->
  (forall m, message_in session_id s m -> u < msg_sequence m <= to_sequence q -> exists p, p ∈ batch /\ covers p m) ->
  count_in session_id u (to_sequence q) s = foldr (fun p n => counted p + n) 0 batch.
Proof.
  intros Hv Hs. revert u. induction Hs as [|p ps Hs IH Hp]; intros u Hin Hu Hl Hm; [done|].
  rewrite Forall_forall in Hp.
  assert (part_in session_id s p) as Hpi by (apply Hin, list_elem_of_here).
  pose proof (v_range _ _ Hv p Hpi) as Hr. pose proof (Hu p ltac:(apply list_elem_of_here)) as Hup.
  assert (to_sequence p <= to_sequence q) as Hpq.
  { destruct ps as [|p' ps']; [injection Hl as ->; done|]. rewrite last_cons_cons in Hl.
    assert (q ∈ p' :: ps') as Hq by (by apply last_Some_elem_of).
    specialize (Hp q Hq). pose proof (v_range _ _ Hv q (Hin q ltac:(by apply list_elem_of_further))). lia. }
  rewrite (count_in_split session_id u (from_sequence p - 1) (to_sequence q)) by lia.
  rewrite (count_in_split session_id (from_sequence p - 1) (to_sequence p) (to_sequence q)) by lia.
  rewrite <- (v_counted _ _ Hv p Hpi), (count_in_none session_id u (from_sequence p - 1)).
  2: { intros m Hmm Hms Hmr. destruct (Hm m (conj Hmm Hms) ltac:(lia)) as (p' & [->|Hp']%elem_of_cons & Hc).
       - unfold covers in Hc. lia.
       - specialize (Hp p' Hp'). unfold covers in Hc. lia. }
  cbn [foldr]. rewrite Z.add_0_l. f_equal. destruct ps as [|p' ps'].
  - injection Hl as ->. simpl. apply count_in_none. intros m _ _ ?. lia.
  - apply IH.
    + intros x Hx. apply Hin. by apply list_elem_of_further.
    + intros x Hx. by apply Hp.
    + by rewrite last_cons_cons in Hl.
    + intros m Hmi Hmr. destruct (Hm m Hmi ltac:(lia)) as (x & [->|Hx]%elem_of_cons & Hc); [unfold covers in Hc; lia|eauto].
Qed.

(** Parts up to where the summary reaches are folded; the others begin after it. *)
Lemma folded_or_not session_id s d p : valid session_id s -> summary_data session_id s = Some d -> part_in session_id s p ->
  to_sequence p <= up_to_sequence d \/ up_to_sequence d < from_sequence p.
Proof.
  intros Hv Hd Hp. pose proof (v_range _ _ Hv p Hp).
  destruct (v_row _ _ Hv d Hd) as (_ & [Hz|(q & Hq & <-)] & _); [lia|].
  destruct (v_apart _ _ Hv p q Hp Hq) as [->|[?|?]]; [by left|..]; pose proof (v_range _ _ Hv q Hq); lia.
Qed.

Lemma fold_reaches session_id s d d' found p0 l : well_formed s -> summary_data session_id s = Some d ->
  gap_from session_id s 0 (_parts_of session_id s) = None ->
  filter (fun p => up_to_sequence d < from_sequence p) (_parts_of session_id s) = p0 :: l ->
  reaches session_id s (folded (fold_batch false 0 (p0 :: l)) found (covered_count d) d').
Proof.
  intros Hwf Hd Hg Hf. pose proof (wf_valid s Hwf session_id) as Hv.
  destruct (v_row _ _ Hv d Hd) as (Hcov & Hup & _).
  destruct (fold_batch_prefix false 0 (p0 :: l)) as [rest Hrest].
  set (batch := fold_batch false 0 (p0 :: l)) in *.
  assert (exists q, last batch = Some q) as [q Hq].
  { unfold batch. destruct (fold_batch_first p0 l) as (x & y & ->). by eexists (default x (last y)); rewrite last_cons; destruct (last y). }
  assert (forall p, p ∈ p0 :: l <-> part_in session_id s p /\ up_to_sequence d < from_sequence p) as Hunf.
  { intros p. rewrite <- Hf, list_elem_of_filter, in_parts_of. tauto. }
  assert (forall p, p ∈ batch -> part_in session_id s p /\ up_to_sequence d < from_sequence p) as Hb.
  { intros p Hp. apply Hunf. rewrite Hrest. apply elem_of_app. by left. }
  assert (q ∈ batch) as Hqb by (by apply last_Some_elem_of). destruct (Hb q Hqb) as [Hqi Hqu].
  pose proof (v_range _ _ Hv q Hqi) as Hqr.
  assert (StronglySorted (fun p q => to_sequence p < from_sequence q) (batch ++ rest)) as Hs.
  { rewrite <- Hrest, <- Hf. apply StronglySorted_filter, parts_of_sorted, Hwf. }
  apply StronglySorted_app in Hs as (Hbr & Hs & _).
  assert (forall m, message_in session_id s m -> msg_sequence m <= to_sequence q -> exists p, part_in session_id s p /\ covers p m) as Hall.
  { intros m Hm Hle. pose proof (wf_positive s Hwf m (proj1 Hm)).
    destruct (gap_none session_id s _ 0 m q Hg Hm ltac:(lia) ltac:(by apply in_parts_of) Hle) as (p & Hp%in_parts_of & Hc). eauto. }
  assert (0 <= up_to_sequence d) as H0u.
  { destruct Hup as [->|(p & Hp & <-)]; [done|]. pose proof (v_range _ _ Hv p Hp). lia. }
  unfold folded. rewrite Hq. destruct found as [[[? ?] ?]|]; split_and!; cbn [covered_count up_to_sequence]; eauto.
  all: rewrite (count_in_split session_id 0 (up_to_sequence d)) by lia; rewrite Hcov; f_equal; symmetry.
  all: apply chain_count; try done; [by intros p [? _]%Hb|by intros p [_ ?]%Hb|].
  all: intros m Hm [Hlo Hhi]; destruct (Hall m Hm Hhi) as (p & Hp & Hc); exists p; split; [|done].
  all: assert (p ∈ batch ++ rest) as Hpr by (rewrite <- Hrest; apply Hunf; split; [done|];
    destruct (folded_or_not session_id s d p Hv Hd Hp); [unfold covers in Hc; lia|done]).
  all: apply elem_of_app in Hpr as [?|Hpr]; [done|]; specialize (Hbr q p Hqb Hpr); unfold covers in Hc; simpl in Hbr; lia.
Qed.

(** The gaps of a chat whose messages changed only at the end. *)
Lemma gap_same session_id s s' after ps : same_chat session_id s s' ->
  (forall p, p ∈ ps -> from_sequence p <= to_sequence p <= settled session_id s) ->
  gap_from session_id s after ps = gap_from session_id s' after ps.
Proof.
  intros Hsame. revert after. induction ps as [|p ps IH]; intros after Hr; [done|]. cbn [gap_from].
  pose proof (Hr p ltac:(apply list_elem_of_here)) as Hp.
  assert (held session_id after (from_sequence p - 1) s = held session_id after (from_sequence p - 1) s') as ->.
  { apply eq_true_iff_eq. rewrite !held_spec. pose proof (same_below _ _ _ Hsame) as Hb.
    split; intros (m & [Hm Hms] & Hmr); exists m; (split; [split; [|done]|done]).
    - by eapply (below_message session_id (settled session_id s) s s'); [done|done|done|lia].
    - by eapply (below_message session_id (settled session_id s) s' s); [done|done|done|lia]. }
  rewrite IH; [done|]. intros q Hq. apply Hr. by apply list_elem_of_further.
Qed.

(** ** The parts a run adds *)

Lemma parts_of_range session_id s p : well_formed s -> p ∈ _parts_of session_id s ->
  1 <= from_sequence p <= to_sequence p /\ to_sequence p <= settled session_id s.
Proof. intros Hwf Hp%in_parts_of. by apply (v_range _ _ (wf_valid s Hwf session_id)). Qed.

Lemma same_parts_of session_id s s' : same_chat session_id s s' -> _parts_of session_id s = _parts_of session_id s'.
Proof. intros [Hp _ _]. unfold _parts_of. by rewrite Hp. Qed.

Lemma settled_le session_id s s' : same_chat session_id s s' -> settled session_id s <= settled session_id s'.
Proof. intros [_ Hl _]. unfold settled. lia. Qed.

(** What the stretch read earlier counts is what the chat holds now. *)
Lemma fits_stretch session_id s s' a b st words : well_formed s -> same_chat session_id s s' -> 0 <= a < b -> b <= settled session_id s ->
  _part session_id a b s = Ok st ->
  (forall q, part_in session_id s' q -> b < from_sequence q \/ to_sequence q <= a) ->
  fits session_id s' (MkPart session_id (a + 1) (Z.max (a + 1) (covered st)) (stretch_counted st) words (last_hash st)).
Proof.
  intros Hwf Hsame Hab Hb Hp Hap.
  destruct (part_correct session_id a b s st (wf_once s Hwf) (wf_distinct s Hwf session_id) ltac:(lia) Hp) as (Ht & Hc & _).
  pose proof (settled_le _ _ _ Hsame). unfold fits. cbn [part_session from_sequence to_sequence counted].
  split_and!; [done|lia..| |].
  - intros q Hq. destruct (Hap q Hq); [left|right]; lia.
  - rewrite Hc. replace (a + 1 - 1) with a by lia. eapply count_in_below; [|by apply (same_below _ _ _ Hsame)]. lia.
Qed.

Lemma fits_gap session_id s s' a b st words : well_formed s -> well_formed s' -> same_chat session_id s s' ->
  gap_from session_id s' 0 (_parts_of session_id s') = Some (a, b) -> _part session_id a b s = Ok st ->
  fits session_id s' (MkPart session_id (a + 1) (Z.max (a + 1) (covered st)) (stretch_counted st) words (last_hash st)).
Proof.
  intros Hwf Hwf' Hsame Hg Hp.
  destruct (gap_some session_id s' _ 0 a b (parts_of_sorted session_id s' Hwf')
    ltac:(intros p Hpi; pose proof (parts_of_range _ _ _ Hwf' Hpi); lia) Hg) as (Ha & Hab & (q & Hq & Hbq) & _ & Hall).
  rewrite <- (same_parts_of session_id s s' Hsame) in Hq. pose proof (parts_of_range _ _ _ Hwf Hq).
  apply (fits_stretch session_id s s' a b); [done..|lia|lia|done|].
  intros p Hpi%in_parts_of. destruct (Hall p Hpi); [by right|by left].
Qed.

Lemma fits_next session_id s s' d target st words : well_formed s -> well_formed s' -> same_chat session_id s s' ->
  summary_data session_id s' = Some d -> filter (fun p => up_to_sequence d < from_sequence p) (_parts_of session_id s') = [] ->
  up_to_sequence d < target -> target <= settled session_id s -> _part session_id (up_to_sequence d) target s = Ok st ->
  fits session_id s' (MkPart session_id (up_to_sequence d + 1) (Z.max (up_to_sequence d + 1) (covered st)) (stretch_counted st)
    words (last_hash st)).
Proof.
  intros Hwf Hwf' Hsame Hd Hf Hlt Hle Hp. pose proof (wf_valid s' Hwf' session_id) as Hv.
  apply (fits_stretch session_id s s' _ target); [done..| |lia|done|].
  - destruct (v_row _ _ Hv d Hd) as (_ & [Hz|(p & Hpi & Hto)] & _); [lia|].
    pose proof (v_range _ _ Hv p Hpi). lia.
  - intros q Hq. right. destruct (folded_or_not session_id s' d q Hv Hd Hq) as [?|Hu]; [done|].
    assert (q ∈ filter (fun p => up_to_sequence d < from_sequence p) (_parts_of session_id s')) as Hin
      by (apply list_elem_of_filter; split; [done|by apply in_parts_of]).
    rewrite Hf in Hin. by apply elem_of_nil in Hin.
Qed.

(** ** A run among others *)

Definition holding (s s' : SummaryDB) : Prop := well_formed s -> well_formed s' /\ rely s s'.

Lemma holding_refl s : holding s s.
Proof. intros Hwf. split; [done|apply rely_refl]. Qed.

Lemma holding_trans s s' s'' : holding s s' -> holding s' s'' -> holding s s''.
Proof. intros Hs1 Hs2 Hwf. destruct (Hs1 Hwf) as [Hwf' Hr]. destruct (Hs2 Hwf') as [? ?]. split; [done|by eapply rely_trans]. Qed.

(** [safe K m]: from a state where [K] holds, [m] leaves a well-formed state,
    and others find in it what they may rely on. *)
Definition safe {A} (K : SummaryDB -> Prop) (m : op SummaryDB A) : Prop := forall s, K s -> holding s (m s).2.

(** What held earlier, others having worked since. *)
Definition since (K : SummaryDB -> Prop) : SummaryDB -> Prop := fun s => exists s0, well_formed s0 /\ rely s0 s /\ K s0.

Definition stable (K : SummaryDB -> Prop) : Prop := forall s s', K s -> well_formed s -> holding s s' -> K s'.

Lemma stable_since K : stable (since K).
Proof.
  intros s s' (s0 & Hwf & Hr & HK) Hs Hh. exists s0. split_and!; [done| |done].
  eapply rely_trans; [exact Hwf|exact Hr|]. by apply Hh.
Qed.

Section handler.
Context `{PyInt} `{Settings} `{Run}.
(** Others keep the tables well formed, and touch no summary without stamping it. *)
Hypothesis others_hold : forall step place s, holding s (others_at step place s).
(** The clock reads later than any stamp written so far. *)
Hypothesis clock_advances : forall step s, sdb_clock s < clock step s.

Lemma safe_pure {A} K (a : A) : safe K (mret a).
Proof. intros s _. apply holding_refl. Qed.

Lemma safe_raise {A} K e : safe (A := A) K (raise e).
Proof. intros s _. apply holding_refl. Qed.

Lemma safe_lift {A B} K (r : res A) (k : A -> op SummaryDB B) : (forall a, r = Ok a -> safe K (k a)) -> safe K (lift r ≫= k).
Proof. intros Hk s Hs. unfold mbind, op_bind, lift. destruct r as [a|e]; [by apply Hk|apply holding_refl]. Qed.

Lemma safe_gets {A B} (K : SummaryDB -> Prop) (f : SummaryDB -> A) (k : A -> op SummaryDB B) :
  (forall a, safe (since (fun s => K s /\ f s = a)) (k a)) -> safe K (gets f ≫= k).
Proof. intros Hk s Hs Hwf. apply (Hk (f s)); [|done]. exists s. split_and!; [done|apply rely_refl|done..]. Qed.

Lemma safe_pause {B} K step place (k : op SummaryDB B) : stable K -> safe K k -> safe K (pause step place ≫= fun _ => k).
Proof.
  intros HK Hk s Hs Hwf. pose proof (others_hold step place s) as Ho.
  destruct (holding_trans s _ _ Ho (Hk (others_at step place s) (HK _ _ Hs Hwf Ho)) Hwf). done.
Qed.

Lemma safe_weaken {A} (K K' : SummaryDB -> Prop) (m : op SummaryDB A) : (forall s, K s -> K' s) -> safe K' m -> safe K m.
Proof. intros HK Hm s Hs. by apply Hm, HK. Qed.

Lemma safe_bind {A B} K (m : op SummaryDB A) (k : A -> op SummaryDB B) : stable K -> safe K m -> (forall a, safe K (k a)) -> safe K (m ≫= k).
Proof.
  intros HK Hm Hk s Hs Hwf. pose proof (Hm s Hs) as Ho. unfold mbind, op_bind.
  destruct (m s) as [[a|e] s']; simpl in *; [|by apply Ho].
  eapply holding_trans; [exact Ho|apply Hk|done]. by eapply HK.
Qed.

Lemma insert_part_free id part s : (exists s', insert_part id part s = (Ok tt, s')) -> sdb_parts s !! id = None.
Proof. intros [s' Hi]. unfold insert_part in Hi. destruct (bool_decide_reflect (sdb_parts s !! id = None)); [done|]. discriminate. Qed.

Lemma written_cases session_id version f now s :
  (exists r, sdb_summaries s !! session_id = Some r /\ r_updated_at r = version /\
     _written session_id version f now s =
       (Ok true, with_clock (Z.max (sdb_clock s) now) (with_summaries <[session_id := rewritten (f (data r)) now r]> s))) \/
  _written session_id version f now s = (Ok false, s).
Proof.
  unfold _written. destruct (sdb_summaries s !! session_id) as [r|] eqn:Hr; [|by right].
  destruct (Z.eqb_spec (r_updated_at r) version) as [Hv|]; [left; by exists r|by right].
Qed.

(** The transaction that stores a part: the row as it was found, and the part. *)
Lemma write_part_safe (K : SummaryDB -> Prop) step session_id version part words :
  (forall s r, K s -> well_formed s -> sdb_summaries s !! session_id = Some r -> r_updated_at r = version -> fits session_id s part) ->
  safe K (now ← utcnow step;
    transaction (
      written ← _written session_id version id now;
      if negb written then mret false else _ ← insert_part words part; mret true)).
Proof.
  intros Hfit s HK Hwf. unfold utcnow, gets, transaction, mbind, op_bind.
  destruct (written_cases session_id version id (clock step s) s) as [(r & Hr & Hv & ->)| ->];
    [|by apply holding_refl]. pose proof (wf_stamps s Hwf _ _ Hr). pose proof (clock_advances step s).
  cbn [negb]. match goal with |- context [insert_part words part ?s1] => set (s0 := s1) end.
  destruct (insert_part words part s0) as [[[]|e] s1] eqn:Hi; [|by apply holding_refl].
  pose proof (insert_part_free words part s0 ltac:(by eexists)) as Hid.
  assert (s1 = with_parts <[words := part]> s0) as ->.
  { unfold insert_part in Hi. destruct (_ && _); by inversion Hi. }
  destruct (add_part_sound session_id r (clock step s) words part s) as [? Hrely]; [done..|by eapply Hfit|].
  split; [done|apply Hrely; lia].
Qed.

Lemma add_part_safe K step session_id version st after : stable K ->
  (forall s r words, K s -> well_formed s -> sdb_summaries s !! session_id = Some r -> r_updated_at r = version ->
    fits session_id s (MkPart session_id (after + 1) (Z.max (after + 1) (covered st)) (stretch_counted st) words (last_hash st))) ->
  safe K (_add_part step session_id version st after).
Proof.
  intros HK Hfit. unfold _add_part. apply safe_bind; [done| |].
  - destruct (turns st); [apply safe_pure|]. apply safe_lift. intros [|] _; [apply safe_raise|apply safe_pure].
  - intros words. apply safe_pause; [done|]. apply write_part_safe. intros s r. apply Hfit.
Qed.

Lemma write_fold_safe (K : SummaryDB -> Prop) session_id version f now :
  (forall s r, K s -> well_formed s -> sdb_summaries s !! session_id = Some r -> r_updated_at r = version ->
    version < now /\ reaches session_id s (f (data r))) ->
  safe K (_written session_id version f now).
Proof.
  intros Hreach s HK Hwf.
  destruct (written_cases session_id version f now s) as [(r & Hr & Hv & ->)| ->]; [|by apply holding_refl].
  destruct (Hreach s r HK Hwf Hr Hv) as [Hlt Hre]. destruct (fold_sound session_id r now (f (data r)) s Hwf Hr Hre) as [? Hrely].
  split; [done|apply Hrely; lia].
Qed.

Lemma fold_parts_safe K step session_id row version ps model : stable K ->
  (forall s, K s -> version <= sdb_clock s) ->
  (forall s r found, K s -> well_formed s -> sdb_summaries s !! session_id = Some r -> r_updated_at r = version ->
    reaches session_id s (folded (fold_batch false 0 ps) found (covered_count (data row)) (data r))) ->
  safe K (_fold_parts step session_id row version ps model).
Proof.
  intros HK0 Hver Hreach. unfold _fold_parts. apply safe_gets. intros now.
  set (K' := since _). assert (stable K') as HK by apply stable_since.
  assert (forall s, K' s -> version < now) as Hnow by (intros s (s0 & _ & _ & Hs0 & <-); specialize (Hver s0 Hs0); pose proof (clock_advances step s0); lia).
  assert (forall s, K' s -> well_formed s -> K s) as HKs.
  { intros s (s0 & Hwf0 & Hrel & Hs0 & _) Hwf. apply (HK0 s0 s Hs0 Hwf0). by intros _. }
  clearbody K'. apply safe_bind; [done| |].
  - destruct (filter _ _) as [|p l]; [apply safe_pure|]. apply safe_bind; [done| |].
    + destruct (content (data row)), l; try apply safe_pure.
      all: apply safe_lift; intros [|] _; [apply safe_raise|apply safe_pure].
    + intros words. apply safe_pause; [done|]. apply safe_bind; [done| |intros; apply safe_pure].
      destruct (opt_text _); [|apply safe_pure].
      intros s _. unfold gets, mbind, op_bind, lift. destruct (_opening_hash session_id s); apply holding_refl.
  - intros found. apply safe_pause; [done|]. apply write_fold_safe. intros s r HKr Hwf Hr Hv.
    split; [by eapply Hnow|]. by apply Hreach; [apply HKs|..].
Qed.

Lemma bind_outcome {A B} (m : op SummaryDB A) (k : A -> op SummaryDB B) s :
  (exists e, (m ≫= k) s = (Raise e, (m s).2)) \/ (exists a, (m ≫= k) s = k a (m s).2).
Proof. unfold mbind, op_bind. destruct (m s) as [[a|e] s1]; [right|left]; by eexists. Qed.

(** The two writes of a step, when the row is refused. *)
Lemma add_part_refused step session_id version st after s :
  (forall f now, _written session_id version f now (others_at step 4 s) = (Ok false, others_at step 4 s)) ->
  (_add_part step session_id version st after s).2 = s \/ (_add_part step session_id version st after s).2 = others_at step 4 s.
Proof.
  intros Hw. unfold _add_part. match goal with |- context [(?m ≫= ?k) s] => assert ((m s).2 = s) as Hm;
    [|destruct (bind_outcome m k s) as [[e ->]|[words ->]]; rewrite Hm; [by left|right]] end.
  { destruct (turns st); [done|]. unfold lift, mbind, op_bind. by destruct (_summarize_stretch step _) as [[|]|]. }
  unfold pause, modify, utcnow, gets, transaction, mbind, op_bind. by rewrite Hw.
Qed.

Lemma fold_parts_refused step session_id row version ps model s :
  (forall s1 f now, s1 = s \/ s1 = others_at step 4 s ->
     _written session_id version f now (others_at step 5 s1) = (Ok false, others_at step 5 s1)) ->
  exists s1, (s1 = s \/ s1 = others_at step 4 s) /\
    ((_fold_parts step session_id row version ps model s).2 = s1 \/
     (_fold_parts step session_id row version ps model s).2 = others_at step 5 s1).
Proof.
  intros Hw. unfold _fold_parts. rewrite (op_bind_ok _ _ s (clock step s) s) by done.
  match goal with |- context [(?m ≫= ?k) s] => assert ((m s).2 = s \/ (m s).2 = others_at step 4 s) as Hm;
    [|exists (m s).2; split; [exact Hm|]; destruct (bind_outcome m k s) as [[e ->]|[found ->]]; [by left|right]] end.
  { destruct (filter _ (fold_batch false 0 ps)) as [|p l]; [by left|].
    match goal with |- context [(?m ≫= ?k) s] => assert ((m s).2 = s) as Hm;
      [|destruct (bind_outcome m k s) as [[e ->]|[words ->]]; rewrite Hm; [by left|right]] end.
    { destruct (content (data row)), l; try done; unfold lift, mbind, op_bind; by destruct (_fold step _ _) as [[|]|]. }
    unfold pause, modify, mbind, op_bind. destruct (opt_text _); [|done].
    unfold gets, lift. by destruct (_opening_hash session_id (others_at step 4 s)). }
  match goal with |- context [?m s] => match type of Hm with (m s).2 = _ \/ _ => generalize dependent (m s).2 end end.
  intros s1 Hm. unfold pause, modify, mbind, op_bind. by rewrite (Hw s1).
Qed.

(** A run's view of its summary: the row as it was loaded. *)
Definition loaded session_id row : SummaryDB -> Prop := since (fun s => sdb_summaries s !! session_id = Some row).

Lemma loaded_stamp session_id row s : loaded session_id row s -> r_updated_at row <= sdb_clock s.
Proof. intros (s0 & Hwf & [Hclk _] & Hrow). pose proof (wf_stamps s0 Hwf _ _ Hrow). lia. Qed.

Lemma loaded_not_newer session_id row s : loaded session_id row s -> ~ newer session_id (r_updated_at row) s.
Proof.
  intros Hl Hn. pose proof (loaded_stamp _ _ _ Hl) as Hclk. unfold newer in Hn. destruct Hl as (s0 & Hwf & [_ Hr] & Hrow).
  destruct (sdb_summaries s !! session_id) as [r|] eqn:Hs; [|lia].
  destruct (Hr session_id r Hs) as [Hn0|(r0 & Hr0 & Hst & _)].
  - unfold newer in Hn0. rewrite Hrow in Hn0. lia.
  - rewrite Hrow in Hr0. injection Hr0 as <-. lia.
Qed.

(** Whatever a run saw since it loaded its row, of a row it then finds as it
    was, it still finds. *)
Lemma seen_since session_id row (K : SummaryDB -> Prop) s r :
  since K s -> (forall s0, K s0 -> loaded session_id row s0) ->
  sdb_summaries s !! session_id = Some r -> r_updated_at r = r_updated_at row ->
  exists s0, well_formed s0 /\ K s0 /\ same_chat session_id s0 s /\ summary_data session_id s0 = Some (data r) /\
    exists r0, sdb_summaries s0 !! session_id = Some r0 /\ r_updated_at r0 = r_updated_at row /\ data r0 = data r.
Proof.
  intros (s0 & Hwf & Hrel & HKs) HK Hr Hv.
  destruct (not_overtaken session_id s0 s r Hrel Hr ltac:(rewrite Hv; by apply loaded_not_newer, HK))
    as (Hd & Hsame & r0 & Hr0 & Hv0 & Hd0).
  exists s0. split_and!; [done..|]. exists r0. split_and!; [done|congruence|done].
Qed.

Lemma loaded_data session_id row s r : loaded session_id row s -> sdb_summaries s !! session_id = Some r ->
  r_updated_at r = r_updated_at row -> data r = data row.
Proof.
  intros (s0 & Hwf & Hrel & Hrow) Hr Hv.
  destruct (not_overtaken session_id s0 s r Hrel Hr ltac:(unfold newer; rewrite Hrow; lia)) as (_ & _ & r0 & Hr0 & _ & Hd). congruence.
Qed.

(** The administrator's setting is at least [FEWEST_KEPT]. *)
Hypothesis keep_enough : forall step keep,
  int_or 20 (field (of_string "summary_keep_recent") (g_settings (gate_at step))) = Ok keep -> FEWEST_KEPT <= keep.

Lemma since_since (K K' : SummaryDB -> Prop) s : (forall s0, K s0 -> since K' s0) -> since K s -> since K' s.
Proof.
  intros HK (s0 & _ & Hr & HKs). destruct (HK s0 HKs) as (s1 & Hwf & Hr1 & HK1). exists s1. split_and!; [done|by eapply rely_trans|done].
Qed.

(** What a run read, one read after the other. *)
Definition read_parts session_id row ps : SummaryDB -> Prop :=
  since (fun s => loaded session_id row s /\ _parts_of session_id s = ps).
Definition read_gap session_id row ps g : SummaryDB -> Prop :=
  since (fun s => read_parts session_id row ps s /\ _gap session_id ps s = g).
Definition read_latest session_id row ps latest : SummaryDB -> Prop :=
  since (fun s => read_gap session_id row ps None s /\ latest_sequence session_id s = latest).

Lemma read_parts_loaded session_id row ps s : read_parts session_id row ps s -> loaded session_id row s.
Proof. apply since_since. by intros s0 [? _]. Qed.
Lemma read_gap_parts session_id row ps g s : read_gap session_id row ps g s -> read_parts session_id row ps s.
Proof. apply since_since. by intros s0 [? _]. Qed.
Lemma read_latest_gap session_id row ps latest s : read_latest session_id row ps latest s -> read_gap session_id row ps None s.
Proof. apply since_since. by intros s0 [? _]. Qed.

(** What was read of the parts and their gaps is what there is. *)
Lemma gap_now session_id row ps g s r : read_gap session_id row ps g s -> well_formed s ->
  sdb_summaries s !! session_id = Some r -> r_updated_at r = r_updated_at row ->
  _parts_of session_id s = ps /\ gap_from session_id s 0 (_parts_of session_id s) = g.
Proof.
  intros HK Hwf Hr Hv.
  destruct (seen_since session_id row _ s r (read_gap_parts _ _ _ _ _ HK) ltac:(by intros s0 [? _]) Hr Hv)
    as (s1 & Hwf1 & [_ Hp] & Hs1 & _).
  destruct (seen_since session_id row _ s r HK ltac:(by intros s0 [?%read_parts_loaded _]) Hr Hv) as (s2 & Hwf2 & [_ Hg] & Hs2 & _).
  assert (_parts_of session_id s = ps) as Hps by (by rewrite <- (same_parts_of _ _ _ Hs1)).
  split; [done|]. rewrite Hps, <- (gap_same session_id s2 s) by
    (done || (intros p Hpi; rewrite <- Hps, <- (same_parts_of _ _ _ Hs2) in Hpi; pose proof (parts_of_range _ _ _ Hwf2 Hpi); lia)).
  exact Hg.
Qed.

Lemma run_step_safe step session_id row : safe (loaded session_id row) (run_step step session_id row).
Proof.
  unfold run_step. destruct (_ || _); [apply safe_pure|]. destruct (g_over_budget _); [apply safe_pure|].
  apply safe_lift. intros model _. apply safe_pause; [apply stable_since|].
  apply safe_gets. intros ps. apply safe_pause; [apply stable_since|]. apply safe_gets. intros g.
  fold (read_parts session_id row ps) (read_gap session_id row ps g).
  destruct g as [[a b]|].
  - apply safe_pause; [apply stable_since|]. apply safe_gets. intros rst. apply safe_lift. intros st ->.
    apply add_part_safe; [apply stable_since|]. intros s r words HK Hwf Hr Hv.
    destruct (seen_since session_id row _ s r HK ltac:(by intros s0 [?%read_gap_parts%read_parts_loaded _]) Hr Hv)
      as (s3 & Hwf3 & [_ Hst] & Hs3 & _).
    destruct (gap_now session_id row ps (Some (a, b)) s r ltac:(eapply since_since; [|exact HK]; by intros s0 [? _]) Hwf Hr Hv)
      as [Hps Hg].
    by apply (fits_gap session_id s3 s a b).
  - destruct (filter _ ps) as [|p0 l] eqn:Hf.
    + apply safe_pause; [apply stable_since|]. apply safe_gets. intros latest. fold (read_latest session_id row ps latest).
      apply safe_lift. intros keep Hkeep%keep_enough.
      destruct (Z.leb_spec (latest - keep) (up_to_sequence (data row))) as [|Hlt]; [apply safe_pure|].
      apply safe_pause; [apply stable_since|]. apply safe_gets. intros rst. apply safe_lift. intros st ->.
      apply add_part_safe; [apply stable_since|]. intros s r words HK Hwf Hr Hv.
      destruct (seen_since session_id row _ s r HK
        ltac:(by intros s0 [?%read_latest_gap%read_gap_parts%read_parts_loaded _]) Hr Hv)
        as (s3 & Hwf3 & [Hlat Hst] & Hs3 & Hd3 & r3 & Hr3 & Hv3 & Hrd3).
      destruct (seen_since session_id row _ s3 r3 Hlat ltac:(by intros s0 [?%read_gap_parts%read_parts_loaded _]) Hr3 Hv3)
        as (s2 & _ & [_ Hl] & Hs2 & _).
      assert (read_gap session_id row ps None s) as HKg
        by (eapply since_since; [|exact HK]; by intros s0 [?%read_latest_gap _]).
      destruct (gap_now session_id row ps None s r HKg Hwf Hr Hv) as [Hps _].
      pose proof (loaded_data session_id row s r ltac:(by apply (read_parts_loaded _ _ ps), (read_gap_parts _ _ _ None)) Hr Hv) as Hdr.
      apply (fits_next session_id s3 s (data row) (latest - keep)); try done.
      * unfold summary_data. by rewrite Hr, <- Hdr.
      * by rewrite Hps.
      * pose proof (same_latest _ _ _ Hs2). unfold settled. lia.
    + apply fold_parts_safe; [apply stable_since| |].
      { intros s HK. by apply (loaded_stamp session_id), (read_parts_loaded _ _ ps), (read_gap_parts _ _ _ None). }
      intros s r found HK Hwf Hr Hv.
      destruct (gap_now session_id row ps None s r HK Hwf Hr Hv) as [Hps Hg].
      pose proof (loaded_data session_id row s r ltac:(by apply (read_parts_loaded _ _ ps), (read_gap_parts _ _ _ None)) Hr Hv) as Hdr.
      rewrite <- Hps in Hf. apply fold_reaches; [done| |done|done]. unfold summary_data. by rewrite Hr, <- Hdr.
Qed.

Lemma run_steps_safe todo step session_id row : safe (loaded session_id row) (run_steps todo step session_id row).
Proof.
  revert step row. induction todo as [|todo IH]; intros step row; cbn [run_steps]; [apply safe_pure|].
  apply safe_bind; [apply stable_since|apply run_step_safe|]. intros [|]; cbn [negb]; [|apply safe_pure].
  apply safe_pause; [apply stable_since|]. intros s _ Hwf. unfold refresh, mbind, op_bind.
  destruct (sdb_summaries s !! session_id) as [r|] eqn:Hr; [|by apply holding_refl].
  apply (IH (S step) r s); [|done]. exists s. split_and!; [done|apply rely_refl|done].
Qed.
End handler.
End facts.
