(* ===== verification/SummariesTrace.v ===== *)
(** * The running summary over any sequence of calls

    What everyone else does to a chat, its messages and the job on its summary's
    row keeps the tables well formed and keeps to what a run relies on; and so
    does a run. *)

From S2P Require Import Prelude Text Json JsonParse PyText PyTime Fences Outbox Queue MemoryJobs MemoryFacts ChatHistory RowJobs HistoryFacts Summaries SummariesFacts.

Section trace.
Context `{PyStr} `{PyRepr} `{PyFloat} `{PyFold} `{PyInt} `{Settings}.
Implicit Types (s : SummaryDB) (session_id : string).

(** ** The job's own columns *)

(** Rows change but for what they say of the chat; a new row says nothing yet. *)
Record job_change (now : Z) s s' : Prop := {
  jc_messages : sdb_messages s' = sdb_messages s;
  jc_parts : sdb_parts s' = sdb_parts s;
  jc_clock : sdb_clock s' = sdb_clock s;
  jc_rows : forall session_id r', sdb_summaries s' !! session_id = Some r' ->
    (exists r, sdb_summaries s !! session_id = Some r /\ data r' = data r /\
       (r_updated_at r' = r_updated_at r \/ r_updated_at r' = now)) \/
    (sdb_summaries s !! session_id = None /\ data r' = new_data /\ r_updated_at r' = now);
  jc_kept : forall session_id, is_Some (sdb_summaries s !! session_id) -> is_Some (sdb_summaries s' !! session_id)
}.

Lemma job_change_refl now s : job_change now s s.
Proof. constructor; try done. intros session_id r Hr. left. exists r. auto. Qed.

Lemma job_change_trans now s s' s'' : job_change now s s' -> job_change now s' s'' -> job_change now s s''.
Proof.
  intros [Hm Hp Hc Hr Hk] [Hm' Hp' Hc' Hr' Hk']. constructor; try congruence.
  - intros session_id r'' H''. destruct (Hr' session_id r'' H'') as [(r' & Hl & Hd & Hu)|(Hl & Hd & Hu)].
    + destruct (Hr session_id r' Hl) as [(r & ? & ? & Hu0)|(? & ? & Hu0)]; [left; exists r|right]; split_and!; try congruence.
      * destruct Hu, Hu0; [left|right..]; congruence.
      * destruct Hu; congruence.
    + right. split; [|done]. apply eq_None_not_Some. intros [? Hs]%Hk. congruence.
  - intros session_id Hs. by apply Hk', Hk.
Qed.

(** [changes now m]: all [m] does is such a change. *)
Definition changes {A} (now : Z) (m : op SummaryDB A) : Prop := forall s, job_change now s (m s).2.

Create HintDb changes.

Lemma changes_ret {A} now (a : A) : changes now (mret a).
Proof. intros s. apply job_change_refl. Qed.
Lemma changes_raise {A} now e : changes (A := A) now (raise e).
Proof. intros s. apply job_change_refl. Qed.
Lemma changes_gets {A} now (f : SummaryDB -> A) : changes now (gets f).
Proof. intros s. apply job_change_refl. Qed.
Lemma changes_bind {A B} now (m : op SummaryDB A) (k : A -> op SummaryDB B) :
  changes now m -> (forall a, changes now (k a)) -> changes now (m ≫= k).
Proof.
  intros Hm Hk s. specialize (Hm s). unfold mbind, op_bind. destruct (m s) as [[a|e] s']; simpl in *; [|done].
  eapply job_change_trans; [exact Hm|apply Hk].
Qed.
Lemma changes_outbox {A} now (m : op outbox A) : changes now (on_table (S := SummaryDB) (R := OutboxEvent) m).
Proof.
  intros s. unfold on_table. destruct (m (rows s)) as [a t]. cbn. constructor; try done.
  intros session_id r Hr. left. exists r. auto.
Qed.

(** Saving a loaded row whose work the call did not touch. *)
Lemma changes_save now session_id (l n : RowJob SummaryData) : data n = data l ->
  (r_updated_at n = r_updated_at l \/ r_updated_at n = now) -> changes now (save_row session_id l n).
Proof.
  intros Hd Hu s. unfold save_row, on_table, save. cbn.
  destruct (sdb_summaries s !! session_id) as [c|] eqn:Hc; cbn.
  2: { destruct s; apply job_change_refl. }
  constructor; try done; cbn.
  - intros other r' Hr'. destruct (decide (other = session_id)) as [->|Hne].
    + rewrite lookup_insert_eq in Hr'. injection Hr' as <-. left. exists c. split; [done|]. cbn. rewrite Hd, wr_nothing.
      split; [done|]. unfold wr. destruct (decide (r_updated_at n = r_updated_at l)); [by left|right]. by destruct Hu.
    + rewrite lookup_insert_ne in Hr' by done. left. exists r'. auto.
  - intros other Hs. rewrite lookup_insert. by case_decide.
Qed.

Lemma changes_row now session_id (r : RowJob SummaryData) s :
  (forall c, sdb_summaries s !! session_id = Some c -> data r = data c /\ r_updated_at r = now) ->
  (sdb_summaries s !! session_id = None -> data r = new_data /\ r_updated_at r = now) ->
  job_change now s (on_table (S := SummaryDB) (modify <[session_id := r]>) s).2.
Proof.
  intros Hsome Hnone. cbn. constructor; try done; cbn.
  - intros other r' Hr'. destruct (decide (other = session_id)) as [->|Hne].
    + rewrite lookup_insert_eq in Hr'. injection Hr' as <-.
      destruct (sdb_summaries s !! session_id) as [c|]; [left; exists c|right]; naive_solver.
    + rewrite lookup_insert_ne in Hr' by done. left. exists r'. auto.
  - intros other Hs. rewrite lookup_insert. by case_decide.
Qed.

#[local] Hint Resolve changes_ret changes_raise changes_gets changes_bind changes_outbox : changes.

Lemma changes_enqueue now session_id run_after nonce event_id at_ :
  changes now (_enqueue (D := SummaryData) session_id run_after nonce event_id at_).
Proof. unfold _enqueue. auto with changes. Qed.

Lemma changes_queue now session_id l n run_after nonce event_id : data n = data l ->
  changes now (_queue (D := SummaryData) session_id l n run_after nonce event_id now).
Proof.
  intros Hd. unfold _queue. apply changes_bind; [|intros; apply changes_enqueue].
  apply changes_save; [done|by right].
Qed.

Lemma changes_claim now session_id worker : changes now (claim (D := SummaryData) session_id worker now).
Proof.
  intros s. unfold claim, claim_row. rewrite (op_bind_ok _ _ s (rows s !! session_id) s) by done. cbn [rows summary_rows].
  destruct (sdb_summaries s !! session_id) as [row|] eqn:Hr; [|apply job_change_refl].
  destruct (takable _ now row); [|apply job_change_refl]. apply changes_row; rewrite Hr; naive_solver.
Qed.

Lemma changes_redeliver now session_id nonce event_id : changes now (redeliver (D := SummaryData) session_id nonce event_id now).
Proof.
  unfold redeliver. apply changes_bind; [apply changes_gets|]. intros [t|]; [|apply changes_ret].
  apply changes_bind; [apply changes_enqueue|]. intros []. apply changes_ret.
Qed.

Lemma changes_heartbeat now session_id row worker : changes now (heartbeat (D := SummaryData) session_id row worker now).
Proof.
  unfold heartbeat. destruct (_ || _); [apply changes_ret|].
  apply changes_bind; [apply changes_save; [done|by left]|]. intros []. apply changes_ret.
Qed.

Lemma changes_finish now session_id row error more grown may_run nonce event_id :
  changes now (finish (D := SummaryData) session_id row error more grown may_run nonce event_id now).
Proof.
  unfold finish. destruct error as [e|].
  - destruct (_ <=? _).
    + apply changes_bind; [apply changes_save; [done|by right]|]. intros []. apply changes_ret.
    + apply changes_bind; [by apply changes_queue|]. intros []. apply changes_ret.
  - destruct (_ && _).
    + apply changes_bind; [by apply changes_queue|]. intros []. apply changes_ret.
    + apply changes_bind; [apply changes_save; [done|by right]|]. intros []. apply changes_ret.
Qed.

Lemma changes_row_for now session_id status : changes now (row_for (D := SummaryData) session_id status now).
Proof.
  intros s. unfold row_for. rewrite (op_bind_ok _ _ s (rows s !! session_id) s) by done. cbn [rows summary_rows].
  destruct (sdb_summaries s !! session_id) as [row|] eqn:Hr; [apply job_change_refl|].
  apply changes_row; rewrite Hr; naive_solver.
Qed.

Lemma changes_schedule settings prefs session feature over messages session_id latest nonce event_id now :
  changes now (Summary._schedule_summary settings prefs session feature over messages session_id latest nonce event_id now).
Proof.
  unfold Summary._schedule_summary. destruct (_ || _); [apply changes_ret|]. destruct over; [apply changes_ret|].
  destruct (int_or _ _) as [keep|e]; [|apply changes_raise]. cbv zeta. destruct (_ <=? 0); [apply changes_ret|].
  apply changes_bind; [apply changes_gets|]. intros found. destruct (match found with Some _ => _ | None => _ end); [apply changes_ret|].
  destruct (negb _); [apply changes_ret|]. apply changes_bind; [apply changes_row_for|]. intros row.
  apply changes_bind; [by apply changes_queue|]. intros []. apply changes_ret.
Qed.

Lemma job_holding now s s1 : job_change now s s1 -> sdb_clock s < now -> holding s (with_clock now s1).
Proof.
  intros [Hm Hp Hc Hr Hk] Hnow Hwf.
  assert (forall session_id, same_chat session_id s (with_clock now s1)) as Hsame.
  { intros session_id. apply same_elsewhere; [done|]. unfold session_parts. cbn. by rewrite Hp. }
  assert (forall m, has_message (with_clock now s1) m <-> has_message s m) as Hmsg
    by (intros m; unfold has_message; cbn; by rewrite Hm).
  split; [constructor|split; [cbn; lia|]]; cbn.
  - intros i j m. cbn. rewrite Hm. by apply (wf_once s Hwf).
  - intros other m m' Hm1%Hmsg Hm2%Hmsg. by apply (wf_distinct s Hwf).
  - intros m Hm1%Hmsg. by apply (wf_positive s Hwf).
  - intros i j p q. rewrite Hp. by apply (wf_parts s Hwf).
  - intros other r' Hr'. destruct (Hr other r' Hr') as [(r & Hl & _ & [Hu|Hu])|(_ & _ & Hu)]; [|lia..].
    pose proof (wf_stamps s Hwf _ _ Hl). lia.
  - intros other. pose proof (wf_valid s Hwf other) as Hv.
    destruct (sdb_summaries s !! other) as [r|] eqn:Hl.
    + apply (valid_same other s _ Hwf); [intros m Hm1%Hmsg; by apply (wf_positive s Hwf)|done| |].
      * intros d. unfold summary_data. cbn. intros (r' & Hr' & Hd)%fmap_Some.
        destruct (Hr other r' Hr') as [(r0 & Hl0 & Hd0 & _)|(? & _)]; [|congruence]. rewrite Hl0. simpl. congruence.
      * intros _. unfold summary_data. cbn. apply fmap_is_Some, Hk. by rewrite Hl.
    + (* the chat had no summary, so no parts *)
      assert (forall p, ~ part_in other s p) as Hnone.
      { intros p Hpi. destruct (v_owner _ _ Hv p Hpi) as [d Hd]. unfold summary_data in Hd. by rewrite Hl in Hd. }
      assert (forall p, ~ part_in other (with_clock now s1) p) as Hnone'
        by (intros p Hpi; rewrite <- (same_part_in other s) in Hpi by done; by eapply Hnone).
      constructor; [intros p Hpi|intros p q Hpi|intros p Hpi| |intros p Hpi]; try (by apply Hnone' in Hpi).
      intros d (r' & Hr' & ->)%fmap_Some. destruct (Hr other r' Hr') as [(r0 & Hl0 & _)|(_ & -> & _)]; [congruence|].
      cbn. split_and!; [by rewrite count_in_none by lia|by left|].
      intros m [Hm1%Hmsg _] Hle. pose proof (wf_positive s Hwf m Hm1). lia.
  - intros other r' Hr'. destruct (Hr other r' Hr') as [(r & Hl & Hd & [Hu|Hu])|(_ & _ & Hu)]; [right|left; apply newer_clock; [done|lia]..].
    exists r. by split_and!.
Qed.

(** ** The chat's messages *)

(** Messages may come and change at the end of a chat that has a summary. *)
Lemma messages_holding f s : let s' := with_messages f s in
  once s' -> (forall session_id, distinct session_id s') -> (forall m, has_message s' m -> 1 <= msg_sequence m) ->
  (forall session_id, latest_sequence session_id s <= latest_sequence session_id s' /\
     below session_id (settled session_id s) s = below session_id (settled session_id s) s') ->
  holding s s'.
Proof.
  intros s' Ho Hd Hpos Hs Hwf.
  assert (forall session_id, same_chat session_id s s') as Hsame by (intros session_id; destruct (Hs session_id); by constructor).
  split; [constructor|split; [done|]]; try done.
  - apply (wf_parts s Hwf).
  - apply (wf_stamps s Hwf).
  - intros session_id. by apply (valid_same session_id s).
  - intros session_id r Hr. right. exists r. split_and!; try done.
Qed.

Lemma latest_nonneg session_id s : (forall m, has_message s m -> 1 <= msg_sequence m) -> 0 <= latest_sequence session_id s.
Proof.
  intros Hpos. unfold latest_sequence. destruct (map_to_list (session_messages session_id s)) as [|[i m] l] eqn:Hl; [done|].
  assert (1 <= msg_sequence m).
  { apply Hpos. exists i. assert ((i, m) ∈ map_to_list (session_messages session_id s)) as Hin by (rewrite Hl; apply list_elem_of_here).
    by apply elem_of_map_to_list, map_lookup_filter_Some in Hin as [? _]. }
  etrans; [|apply max_or_0_ge, list_elem_of_here]. cbn. lia.
Qed.

Lemma latest_insert session_id id m s : (forall x, has_message (with_messages <[id := m]> s) x -> 1 <= msg_sequence x) -> sdb_messages s !! id = None \/
    (exists m0, sdb_messages s !! id = Some m0 /\ msg_session m0 = msg_session m /\ msg_sequence m0 = msg_sequence m) ->
  latest_sequence session_id s <= latest_sequence session_id (with_messages <[id := m]> s).
Proof.
  intros Hpos Hid. apply (max_or_0_le _ (latest_sequence session_id (with_messages <[id := m]> s))).
  - exact (latest_nonneg session_id _ Hpos).
  - intros v (x & -> & ([i y] & -> & Hy)%list_elem_of_fmap)%list_elem_of_fmap. cbn.
    apply elem_of_map_to_list, map_lookup_filter_Some in Hy as [Hy Hys]. cbn in Hys.
    destruct (decide (i = id)) as [->|Hne].
    + destruct Hid as [?|(m0 & Hm0 & Hs0 & Hq0)]; [congruence|]. simplify_eq. rewrite Hq0.
      apply latest_at_least. split; [|congruence]. exists id. cbn. apply lookup_insert_eq.
    + apply latest_at_least. split; [|done]. exists i. cbn. by rewrite lookup_insert_ne.
Qed.

Lemma has_insert id m x s : has_message (with_messages <[id := m]> s) x -> x = m \/ exists i, i <> id /\ sdb_messages s !! i = Some x.
Proof. intros [i Hi]. cbn in Hi. apply lookup_insert_Some in Hi as [[_ <-]|[? ?]]; eauto. Qed.

(** A message stored or changed beyond the settled part of its chat. *)
Lemma insert_holding id m s : 1 <= msg_sequence m -> settled (msg_session m) s < msg_sequence m ->
  (sdb_messages s !! id = None /\ (forall x, message_in (msg_session m) s x -> msg_sequence x <> msg_sequence m)) \/
  (exists m0, sdb_messages s !! id = Some m0 /\ msg_session m0 = msg_session m /\ msg_sequence m0 = msg_sequence m) ->
  holding s (with_messages <[id := m]> s).
Proof.
  intros Hpos Hset Hid Hwf.
  assert (forall i x, i <> id -> sdb_messages s !! i = Some x -> msg_session x = msg_session m -> msg_sequence x = msg_sequence m -> False)
    as Hother.
  { intros i x Hne Hx Hs Hq. destruct Hid as [[_ Hnew]|(m0 & Hm0 & Hs0 & Hq0)].
    - eapply Hnew; [|exact Hq]. split; [by exists i|done].
    - apply Hne, (wf_once s Hwf i id m0); [|done].
      rewrite (wf_distinct s Hwf (msg_session m) m0 x); [done|by exists id|by exists i|congruence..]. }
  assert (forall x, has_message (with_messages <[id := m]> s) x -> 1 <= msg_sequence x) as Hp.
  { intros x [-> |(i & _ & Hi)]%has_insert; [done|]. apply (wf_positive s Hwf). by exists i. }
  apply messages_holding; [..|exact Hwf].
  - intros i j x Hi Hj. cbn in Hi, Hj. apply lookup_insert_Some in Hi as [[<- <-]|[Hi Hix]], Hj as [[<- Hjx]|[Hj Hjx]]; [done|..].
    + exfalso. by eapply (Hother j m).
    + subst x. exfalso. by eapply (Hother i m).
    + by eapply (wf_once s Hwf).
  - intros session_id x y [-> |(i & Hi & Hx)]%has_insert [-> |(j & Hj & Hy)]%has_insert Hsx Hsy Hq; [done|exfalso..|].
    + eapply (Hother j y); [done..|congruence|congruence].
    + eapply (Hother i x); [done..|congruence|congruence].
    + apply (wf_distinct s Hwf session_id); try done; by eexists.
  - exact Hp.
  - intros session_id. split.
    + apply latest_insert; [exact Hp|]. destruct Hid as [[? _]|?]; auto.
    + unfold below. cbn. destruct (decide (msg_session m = session_id)) as [<-|Hne].
      * symmetry. destruct Hid as [[Hn _]|(m0 & Hm0 & Hs0 & Hq0)].
        -- apply map_filter_insert_not'; [cbn; lia|]. intros y Hy. congruence.
        -- apply map_filter_insert_not'; [cbn; lia|]. intros y Hy. cbn. simplify_eq. lia.
      * symmetry. apply map_filter_insert_not'; [cbn; naive_solver|].
        intros y Hy. cbn. destruct Hid as [[Hn _]|(m0 & Hm0 & Hs0 & Hq0)]; [congruence|]. simplify_eq. naive_solver congruence.
Qed.

(** ** Purges and rewrites *)

(** The tables after a chat's summaries were stamped, or dropped, or its
    messages went: every chat is untouched, or has a later stamp or no summary. *)
Lemma chats_holding s s' : sdb_clock s <= sdb_clock s' ->
  once s' -> (forall session_id, distinct session_id s') -> (forall m, has_message s' m -> 1 <= msg_sequence m) ->
  (forall i j p q, sdb_parts s' !! i = Some p -> sdb_parts s' !! j = Some q -> part_session p = part_session q ->
    from_sequence p = from_sequence q -> i = j) ->
  (forall session_id, (same_chat session_id s s' /\ sdb_summaries s' !! session_id = sdb_summaries s !! session_id) \/
     (valid session_id s' /\ forall r, sdb_summaries s' !! session_id = Some r -> sdb_clock s < r_updated_at r <= sdb_clock s')) ->
  well_formed s -> well_formed s' /\ rely s s'.
Proof.
  intros Hclk Ho Hd Hpos Hparts Hchat Hwf.
  split; [constructor|split; [lia|]]; try done.
  - intros session_id r Hr. destruct (Hchat session_id) as [[_ Heq]|[_ Hu]]; [|specialize (Hu r Hr); lia].
    rewrite Heq in Hr. pose proof (wf_stamps s Hwf _ _ Hr). lia.
  - intros session_id. destruct (Hchat session_id) as [[Hsame Heq]|[Hv _]]; [|done].
    apply (valid_same session_id s); try done; unfold summary_data; by rewrite Heq.
  - intros session_id r Hr. destruct (Hchat session_id) as [[Hsame Heq]|[_ Hu]].
    + right. exists r. rewrite <- Heq. by split_and!.
    + left. specialize (Hu r Hr). apply newer_clock; [done|lia].
Qed.

(** Taking messages away leaves the others as they were. *)
Lemma messages_sub s s' : well_formed s -> sdb_messages s' ⊆ sdb_messages s ->
  once s' /\ (forall session_id, distinct session_id s') /\ (forall m, has_message s' m -> has_message s m) /\
  (forall m, has_message s' m -> 1 <= msg_sequence m).
Proof.
  intros Hwf Hsub.
  assert (forall m, has_message s' m -> has_message s m) as Hm by (intros m [i Hi]; exists i; by eapply lookup_weaken).
  split_and!; [|intros session_id m m' Hm1%Hm Hm2%Hm|done|intros m Hm1%Hm].
  - intros i j m Hi Hj. apply (wf_once s Hwf i j m); by eapply lookup_weaken.
  - by apply (wf_distinct s Hwf).
  - by apply (wf_positive s Hwf).
Qed.

Lemma parts_sub s s' : well_formed s -> sdb_parts s' ⊆ sdb_parts s ->
  forall i j p q, sdb_parts s' !! i = Some p -> sdb_parts s' !! j = Some q -> part_session p = part_session q ->
    from_sequence p = from_sequence q -> i = j.
Proof. intros Hwf Hsub i j p q Hi Hj. apply (wf_parts s Hwf i j p q); by eapply lookup_weaken. Qed.

(** A chat whose messages and parts are the same in two states. *)
Lemma same_session session_id s s' : session_messages session_id s' = session_messages session_id s ->
  session_parts session_id s' = session_parts session_id s -> same_chat session_id s s'.
Proof.
  intros Hm Hp. constructor; [done| |].
  - unfold latest_sequence. by rewrite Hm.
  - assert (forall t s, below session_id t s = filter (fun kv => msg_sequence kv.2 <= t) (session_messages session_id s)) as Hb.
    { intros t s0. unfold below, session_messages. rewrite map_filter_filter. apply map_filter_ext. intros i m _. cbn. tauto. }
    by rewrite !Hb, Hm.
Qed.

(** A chat without a summary and without parts is valid. *)
Lemma valid_empty session_id s : summary_data session_id s = None -> (forall p, ~ part_in session_id s p) -> valid session_id s.
Proof.
  intros Hd Hp. constructor; [intros p Hpi|intros p q Hpi|intros p Hpi| |intros p Hpi]; try (by apply Hp in Hpi).
  intros d. by rewrite Hd.
Qed.

Lemma forget_one session_id s : session_id <> ""%string ->
  (forget_summaries [session_id] s).2 =
    with_parts (filter (fun kv => part_session kv.2 <> session_id)) (with_summaries (delete session_id) s).
Proof.
  intros Hne. unfold forget_summaries. rewrite filter_cons_True by done. rewrite filter_nil.
  destruct s as [c o ss ps ms]. unfold mbind, op_bind, modify, with_parts, with_summaries. cbn. f_equal.
  - apply map_eq. intros i. apply option_eq. intros r.
    rewrite map_lookup_filter_Some, lookup_delete_Some, list_elem_of_singleton. cbn. naive_solver.
  - apply map_filter_ext. intros i p _. cbn. by rewrite list_elem_of_singleton.
Qed.

(** [replace_session_messages] and [purge_session_messages_for_private_mode]:
    the chat's messages go, its summary with them, and new ones may be stored. *)
Lemma rewrite_elsewhere session_id other (new : table Message) s : other <> session_id ->
  (forall i m, new !! i = Some m -> msg_session m = session_id) ->
  let others := filter (fun kv => msg_session kv.2 <> session_id) (sdb_messages s) in
  new ##ₘ others ->
  same_chat other s (with_parts (filter (fun kv => part_session kv.2 <> session_id)) (with_summaries (delete session_id)
    (with_messages (fun _ => new ∪ others) s))).
Proof.
  intros Hn Hnew others Hdis. apply same_session.
  - apply map_eq. intros i. apply option_eq. intros m. unfold session_messages. rewrite !map_lookup_filter_Some. cbn.
    rewrite lookup_union_Some by done. unfold others. rewrite map_lookup_filter_Some. cbn. split.
    + intros [[Hi|[? _]] Hm]; [|done]. apply Hnew in Hi. congruence.
    + intros [Hi Hm]. split; [right; split; [done|congruence]|done].
  - unfold session_parts. cbn. rewrite map_filter_filter. apply map_filter_ext. intros i p _. cbn. naive_solver.
Qed.

Lemma rewrite_holding session_id (new : table Message) s : session_id <> ""%string ->
  (forall i m, new !! i = Some m -> msg_session m = session_id /\ 1 <= msg_sequence m) ->
  (forall i j m m', new !! i = Some m -> new !! j = Some m' -> msg_sequence m = msg_sequence m' -> i = j) ->
  let others := filter (fun kv => msg_session kv.2 <> session_id) (sdb_messages s) in
  new ##ₘ others ->
  holding s (forget_summaries [session_id] (with_messages (fun _ => new ∪ others) s)).2.
Proof.
  intros Hne Hnew Huniq others Hdis Hwf. rewrite forget_one by done.
  match goal with |- well_formed ?x /\ _ => set (s' := x) end.
  assert (forall i m, sdb_messages s' !! i = Some m ->
    new !! i = Some m /\ msg_session m = session_id \/ sdb_messages s !! i = Some m /\ msg_session m <> session_id) as Hl.
  { intros i m Hi. apply lookup_union_Some in Hi as [Hi|Hi]; [left|right|done].
    - split; [done|]. by apply (Hnew i).
    - by apply map_lookup_filter_Some in Hi. }
  apply chats_holding; try done.
  - intros i j m [[Hi ?]|[Hi ?]]%Hl [[Hj ?]|[Hj ?]]%Hl; try done; [by eapply Huniq|by eapply (wf_once s Hwf)].
  - intros other m m' [i [[Hi ?]|[Hi ?]]%Hl] [j [[Hj ?]|[Hj ?]]%Hl] Hm Hm' Hq; try congruence.
    + assert (i = j) as -> by (by eapply Huniq). congruence.
    + apply (wf_distinct s Hwf other); try done; by eexists.
  - intros m [i [[Hi _]|[Hi _]]%Hl]; [by apply (Hnew i)|apply (wf_positive s Hwf); by exists i].
  - apply (parts_sub s); [done|]. apply map_filter_subseteq.
  - intros other. destruct (decide (other = session_id)) as [->|Hn]; [right|left].
    + assert (sdb_summaries s' !! session_id = None) as Hnone by apply lookup_delete_eq.
      split; [|by rewrite Hnone]. apply valid_empty; [unfold summary_data; by rewrite Hnone|].
      intros p [[i Hi] Hs]. apply map_lookup_filter_Some in Hi as [_ Hi]. by apply Hi.
    + split; [|by apply lookup_delete_ne]. apply rewrite_elsewhere; [done| |done]. intros i m Hi. by apply (Hnew i).
Qed.

(** ** The retention purge *)

Lemma forget_starts_eq purged_to now s :
  (forget_summary_starts purged_to now s).2 =
    with_parts (filter (fun kv => part_kept purged_to kv.2 = true)) (with_summaries (map_imap (fun id r =>
      Some (if decide (is_Some (purged_to !! id)) then forgotten now r else r))) s).
Proof.
  unfold forget_summary_starts. destruct (decide (purged_to = ∅)) as [->|]; [|done].
  destruct s as [c o ss ps ms]. unfold with_parts, with_summaries. cbn. f_equal.
  - apply map_eq. intros i. rewrite map_lookup_imap. destruct (ss !! i) as [r|]; [|done]. cbn. rewrite lookup_empty.
    by rewrite decide_False by (by intros [? ?]).
  - symmetry. apply map_filter_id. intros i p _. unfold part_kept. cbn. by rewrite lookup_empty.
Qed.

Lemma latest_attained session_id s : 0 < latest_sequence session_id s ->
  exists m, message_in session_id s m /\ msg_sequence m = latest_sequence session_id s.
Proof.
  intros Hpos. pose proof (max_or_0_in (msg_sequence <$> (map_to_list (session_messages session_id s)).*2)) as Hin.
  fold (latest_sequence session_id s) in Hin. destruct Hin as [Hz|Hin]; [lia|].
  apply list_elem_of_fmap in Hin as (m & Hm & ([i y] & -> & Hi)%list_elem_of_fmap). exists y. split; [|done].
  apply elem_of_map_to_list, map_lookup_filter_Some in Hi as [Hi Hs]. split; [by exists i|done].
Qed.

(** A purged chat: the parts beyond the purge, and nothing summarized. *)
Lemma purged_valid session_id b s s' : well_formed s -> sdb_messages s' ⊆ sdb_messages s ->
  (forall i m, sdb_messages s !! i = Some m -> msg_session m = session_id -> b < msg_sequence m -> sdb_messages s' !! i = Some m) ->
  (forall p, part_in session_id s' p -> part_in session_id s p /\ b < from_sequence p) ->
  (forall r, sdb_summaries s' !! session_id = Some r -> up_to_sequence (data r) = 0 /\ covered_count (data r) = 0) ->
  (is_Some (sdb_summaries s !! session_id) -> is_Some (sdb_summaries s' !! session_id)) ->
  valid session_id s'.
Proof.
  intros Hwf Hsub Hkept Hp Hrow Hown. pose proof (wf_valid s Hwf session_id) as Hv.
  destruct (messages_sub s s' Hwf Hsub) as (_ & _ & _ & Hpos).
  assert (forall p, part_in session_id s' p -> settled session_id s <= settled session_id s') as Hset.
  { intros p [Hpi Hbp]%Hp. pose proof (v_range _ _ Hv p Hpi) as Hr. unfold settled, FEWEST_KEPT in *.
    destruct (latest_attained session_id s ltac:(lia)) as (m & [[i Hi] Hs] & Hq).
    assert (message_in session_id s' m) as Hm by (split; [exists i; apply Hkept; [done..|lia]|done]).
    apply latest_at_least in Hm. lia. }
  constructor.
  - intros p Hpi'. specialize (Hset p Hpi'). destruct (Hp p Hpi') as [Hpi _]. pose proof (v_range _ _ Hv p Hpi). lia.
  - intros p q [Hpi _]%Hp [Hqi _]%Hp. by apply (v_apart _ _ Hv).
  - intros p [Hpi Hbp]%Hp. rewrite (v_counted _ _ Hv p Hpi). unfold count_in. do 2 f_equal.
    apply map_eq. intros i. apply option_eq. intros m. rewrite !map_lookup_filter_Some. cbn. split.
    + intros [Hi ([Hs ?] & ?)]. split; [apply Hkept; [done..|lia]|done].
    + intros [Hi ?]. split; [by eapply lookup_weaken|done].
  - intros d (r & Hr & ->)%fmap_Some. destruct (Hrow r Hr) as [Hu Hc]. rewrite Hu, Hc. split_and!; [|by left|].
    + rewrite count_in_none; [done|]. intros m _ _ ?. lia.
    + intros m [Hm _] Hle. specialize (Hpos m Hm). lia.
  - intros p [Hpi _]%Hp. destruct (v_owner _ _ Hv p Hpi) as [d (r & Hr & _)%fmap_Some].
    unfold summary_data. apply fmap_is_Some, Hown. by rewrite Hr.
Qed.

(** The messages purged are those of [ids]; [purged_to] bounds them, chat by chat. *)
Lemma purge_holding (ids : gset string) purged_to now s : sdb_clock s < now ->
  (forall i m, i ∈ ids -> sdb_messages s !! i = Some m -> exists b, purged_to !! msg_session m = Some b /\ msg_sequence m <= b) ->
  holding s (with_clock now (forget_summary_starts purged_to now (with_messages (filter (fun kv => kv.1 ∉ ids)) s)).2).
Proof.
  intros Hnow Hids Hwf. rewrite forget_starts_eq. match goal with |- well_formed ?x /\ _ => set (s' := x) end.
  assert (sdb_messages s' ⊆ sdb_messages s) as Hsub by apply map_filter_subseteq.
  destruct (messages_sub s s' Hwf Hsub) as (Ho & Hd & Hm & Hpos).
  assert (forall i, sdb_summaries s' !! i =
    (fun r => if decide (is_Some (purged_to !! i)) then forgotten now r else r) <$> sdb_summaries s !! i) as Hrow.
  { intros i. unfold s'. cbn. rewrite map_lookup_imap. by destruct (sdb_summaries s !! i). }
  assert (forall i m, sdb_messages s !! i = Some m -> (forall b, purged_to !! msg_session m = Some b -> b < msg_sequence m) ->
    sdb_messages s' !! i = Some m) as Hkept.
  { intros i m Hi Hb. apply map_lookup_filter_Some. split; [done|]. cbn. intros Hin.
    destruct (Hids i m Hin Hi) as (b & Hpb & ?). specialize (Hb b Hpb). lia. }
  apply chats_holding; [cbn; lia|done..|by apply (parts_sub s); [|apply map_filter_subseteq]| |done].
  intros other. destruct (purged_to !! other) as [b|] eqn:Hb; [right|left].
  - split.
    + apply (purged_valid other b s s' Hwf Hsub).
      * intros i m Hi Hs Hlt. apply Hkept; [done|]. intros b'. rewrite Hs. congruence.
      * intros p [[i Hi] Hs]. apply map_lookup_filter_Some in Hi as [Hi Hk]. cbn in Hk. unfold part_kept in Hk. rewrite Hs, Hb in Hk.
        split; [split; [by exists i|done]|lia].
      * intros r. rewrite Hrow, Hb. intros (r0 & _ & ->)%fmap_Some. by rewrite decide_True by eauto.
      * rewrite Hrow. intros [r ->]. by eexists.
    + intros r. rewrite Hrow, Hb. intros (r0 & _ & ->)%fmap_Some. rewrite decide_True by eauto. cbn. lia.
  - split.
    + apply same_session.
      * apply map_eq. intros i. apply option_eq. intros m. unfold session_messages. rewrite !map_lookup_filter_Some. split.
        -- intros [Hi ?]. split; [by eapply lookup_weaken|done].
        -- intros [Hi Hs]. split; [|done]. cbn in Hs. apply map_lookup_filter_Some. split; [done|]. cbn. intros Hin.
           destruct (Hids i m Hin Hi) as (b & Hpb & _). congruence.
      * unfold session_parts. cbn. rewrite map_filter_filter. apply map_filter_ext. intros i p _. cbn. unfold part_kept.
        split; [by intros []|]. intros Hs. split; [done|]. by rewrite Hs, Hb.
    + rewrite Hrow, Hb. destruct (sdb_summaries s !! other); [|done]. cbn. by rewrite decide_False by (by intros []).
Qed.

(** ** Any sequence of calls *)

Lemma append_holding id m s : sdb_messages s !! id = None -> msg_sequence m = latest_sequence (msg_session m) s + 1 ->
  holding s (with_messages <[id := m]> s).
Proof.
  intros Hid Hq Hwf. pose proof (latest_nonneg (msg_session m) s (wf_positive s Hwf)) as Hl.
  apply insert_holding; [lia|unfold settled, FEWEST_KEPT; lia| |done].
  left. split; [done|]. intros x Hx%latest_at_least. lia.
Qed.

Lemma write_holding id m m' s : sdb_messages s !! id = Some m -> msg_session m' = msg_session m -> msg_sequence m' = msg_sequence m ->
  settled (msg_session m) s < msg_sequence m -> holding s (with_messages <[id := m']> s).
Proof.
  intros Hid Hs Hq Hset Hwf. apply insert_holding; [..|done].
  - rewrite Hq. apply (wf_positive s Hwf). by exists id.
  - by rewrite Hs, Hq.
  - right. exists m. auto.
Qed.

Lemma run_holding `{Run} session_id row s : (forall step place s, holding s (others_at step place s)) ->
  (forall step s, sdb_clock s < clock step s) ->
  (forall step keep, int_or 20 (field (of_string "summary_keep_recent") (g_settings (gate_at step))) = Ok keep -> FEWEST_KEPT <= keep) ->
  sdb_summaries s !! session_id = Some row -> holding s (handle_chat_summary session_id row s).2.
Proof.
  intros Ho Hc Hk Hr Hwf.
  assert (loaded session_id row s) as Hload by (exists s; split; [exact Hwf|split; [apply rely_refl|exact Hr]]).
  unfold handle_chat_summary. exact (run_steps_safe Ho Hc Hk MAX_STEPS_PER_RUN 0 session_id row s Hload Hwf).
Qed.

(** What happens to chats and their summaries.  Messages are appended, or written
    while they are among the chat's newest; a chat is rewritten; a purge takes
    messages; the job's calls work on the row; and a run, from a row it loaded,
    amid others that keep to what runs rely on. *)
Inductive act : SummaryDB -> SummaryDB -> Prop :=
  | act_append id m s : sdb_messages s !! id = None -> msg_sequence m = latest_sequence (msg_session m) s + 1 ->
      act s (with_messages <[id := m]> s)
  | act_write id m m' s : sdb_messages s !! id = Some m -> msg_session m' = msg_session m -> msg_sequence m' = msg_sequence m ->
      settled (msg_session m) s < msg_sequence m -> act s (with_messages <[id := m']> s)
  | act_rewrite session_id new s : session_id <> ""%string ->
      (forall i m, new !! i = Some m -> msg_session m = session_id /\ 1 <= msg_sequence m) ->
      (forall i j m m', new !! i = Some m -> new !! j = Some m' -> msg_sequence m = msg_sequence m' -> i = j) ->
      new ##ₘ filter (fun kv => msg_session kv.2 <> session_id) (sdb_messages s) ->
      act s (forget_summaries [session_id]
        (with_messages (fun ms => new ∪ filter (fun kv => msg_session kv.2 <> session_id) ms) s)).2
  | act_purge (ids : gset string) purged_to now s : sdb_clock s < now ->
      (forall i m, i ∈ ids -> sdb_messages s !! i = Some m -> exists b, purged_to !! msg_session m = Some b /\ msg_sequence m <= b) ->
      act s (with_clock now (forget_summary_starts purged_to now (with_messages (filter (fun kv => kv.1 ∉ ids)) s)).2)
  | act_schedule settings prefs session feature over messages session_id latest nonce event_id now s : sdb_clock s < now ->
      act s (with_clock now (Summary._schedule_summary settings prefs session feature over messages session_id latest nonce event_id now s).2)
  | act_claim session_id worker now s : sdb_clock s < now ->
      act s (with_clock now (claim (D := SummaryData) session_id worker now s).2)
  | act_redeliver session_id nonce event_id now s : sdb_clock s < now ->
      act s (with_clock now (redeliver (D := SummaryData) session_id nonce event_id now s).2)
  | act_heartbeat session_id row worker now s : sdb_clock s < now ->
      act s (with_clock now (heartbeat (D := SummaryData) session_id row worker now s).2)
  | act_finish session_id row error more grown may_run nonce event_id now s : sdb_clock s < now ->
      act s (with_clock now (finish (D := SummaryData) session_id row error more grown may_run nonce event_id now s).2)
  | act_run (R : Run) session_id row s : (forall step place s, holding s (others_at step place s)) ->
      (forall step s, sdb_clock s < clock step s) ->
      (forall step keep, int_or 20 (field (of_string "summary_keep_recent") (g_settings (gate_at step))) = Ok keep ->
         FEWEST_KEPT <= keep) ->
      sdb_summaries s !! session_id = Some row -> act s (handle_chat_summary session_id row s).2.

Lemma act_holding s s' : act s s' -> holding s s'.
Proof.
  destruct 1.
  - by apply append_holding.
  - by eapply write_holding.
  - by apply rewrite_holding.
  - by apply purge_holding.
  - eapply job_holding; [apply changes_schedule|done].
  - eapply job_holding; [apply changes_claim|done].
  - eapply job_holding; [apply changes_redeliver|done].
  - eapply job_holding; [apply changes_heartbeat|done].
  - eapply job_holding; [apply changes_finish|done].
  - by apply run_holding.
Qed.

(** A write found with the stamp of its row is all [_written] tells apart: a purge
    at the very instant the row was last written goes unnoticed, which is why the
    calls above read a clock that has moved on. *)
Lemma tie_goes_unnoticed session_id b row f now s : sdb_summaries s !! session_id = Some row ->
  (_written session_id (r_updated_at row) f now (forget_summary_starts {[session_id := b]} (r_updated_at row) s).2).1 = Ok true.
Proof.
  intros Hr. rewrite forget_starts_eq. unfold _written. cbn [with_parts with_summaries sdb_summaries].
  rewrite map_lookup_imap, Hr. cbn. rewrite decide_True by (rewrite lookup_singleton_eq; by eexists). cbn. by rewrite Z.eqb_refl.
Qed.

(** C16: over any sequence of calls on chats and their summaries - messages
    stored, chats rewritten, retention purges, the job's calls, and runs with
    anything between their steps that keeps to the same rules - each writing at
    an instant later than every stamp before it, the tables stay well formed: a
    chat's parts never overlap and end before its newest four messages, each part
    counts exactly the messages of its stretch, the summary counts exactly the
    messages up to where it reaches, none of which lies outside a part; a summary
    anyone touched, or whose settled messages changed, has a later stamp; and a
    run that was overtaken - its summary says something else by now, is gone, or
    its chat changed below the newest messages - writes nothing: the row is
    refused, no part is stored and nothing is folded in, so that all that is left
    is what the others did. *)
Theorem summary_trace_safe s s' : well_formed s -> rtc act s s' ->
  well_formed s' /\ rely s s' /\
  forall session_id row, sdb_summaries s !! session_id = Some row -> overtaken session_id row s s' ->
    (forall f now, _written session_id (r_updated_at row) f now s' = (Ok false, s')) /\
    forall (R : Run) step s1,
      (forall stretch after, others_at step 4 s1 = s' ->
         (_add_part step session_id (r_updated_at row) stretch after s1).2 ∈ [s1; s']) /\
      (forall parts model, (forall s2, s2 ∈ [s1; others_at step 4 s1] -> others_at step 5 s2 = s') ->
         (_fold_parts step session_id row (r_updated_at row) parts model s1).2 ∈ [s1; others_at step 4 s1; s']).
Proof.
  intros Hwf Hacts. assert (well_formed s' /\ rely s s') as [Hwf' Hrely].
  { revert Hwf. change (holding s s'). induction Hacts as [s|s s1 s' Hact _ IH]; [apply holding_refl|].
    by eapply holding_trans; [apply act_holding|]. }
  split_and!; [done..|]. intros session_id row Hr Ho.
  assert (forall f now, _written session_id (r_updated_at row) f now s' = (Ok false, s')) as Hw
    by (intros; by apply (overtaken_refused session_id row s)).
  split; [exact Hw|]. intros R step s1. split.
  - intros stretch after <-. destruct (add_part_refused step session_id (r_updated_at row) stretch after s1 Hw) as [-> | ->]; set_solver.
  - intros parts model Hlast. destruct (fold_parts_refused step session_id row (r_updated_at row) parts model s1) as (s2 & Hs2 & Hf).
    + intros s2 f now Hs2. rewrite (Hlast s2); [done|set_solver].
    + specialize (Hlast s2 ltac:(set_solver)). set_solver.
Qed.
End trace.

(** ** A run, with a message stored at each of its pauses *)

Definition sample_row : RowJob SummaryData := MkRowJob new_data RowRunning None 1 (Some (seconds 300)) (Some "w1"%string) None 0.
Definition sample_summaries : SummaryDB := MkSummaryDB 0 ∅ {["c1"%string := sample_row]} ∅ ∅.

Definition sample_int : PyInt := {| int_of_str _ := None; int_of_float _ := None |}.

Definition sample_run : Run := {|
  others_at step place s :=
    let id := (pretty (Z.of_nat step) +:+ "-" +:+ pretty (Z.of_nat place))%string in
    match sdb_messages s !! id with
    | None => with_messages <[id := sample_message (latest_sequence "c1" s + 1) "user" "more"]> s
    | Some _ => s
    end;
  gate_at _ := MkGate [(of_string "summary_model_id", JInt 3); (of_string "summary_keep_recent", JInt 4)] []
    (Some (MkChatSession 7 None false false)) true false;
  ask _ _ := Ok (of_string "notes");
  part_id step := pretty (Z.of_nat step);
  clock _ s := sdb_clock s + 6
|}.

Lemma sample_lookup session_id r : sdb_summaries sample_summaries !! session_id = Some r -> r = sample_row.
Proof.
  intros Hr. change (({["c1"%string := sample_row]} : table (RowJob SummaryData)) !! session_id = Some r) in Hr.
  by apply lookup_singleton_Some in Hr as [_ ?].
Qed.

Lemma sample_well_formed `{PyStr} `{PyRepr} `{PyFloat} : well_formed sample_summaries.
Proof.
  assert (forall m, ~ has_message sample_summaries m) as Hm by (by intros m [i Hi]).
  assert (forall session_id p, ~ part_in session_id sample_summaries p) as Hp by (by intros session_id p [[i Hi] _]).
  constructor; try done.
  - by intros session_id m m' ?%Hm.
  - by intros m ?%Hm.
  - by intros session_id r ->%sample_lookup.
  - intros session_id. constructor; [intros p Hpi|intros p q Hpi|intros p Hpi| |intros p Hpi]; try (by apply Hp in Hpi).
    intros d (r & ->%sample_lookup & ->)%fmap_Some. cbn. split_and!; [|by left|].
    + rewrite count_in_none; [done|]. by intros m ?%Hm.
    + by intros m [?%Hm _].
Qed.

Lemma sample_others_hold `{PyStr} `{PyRepr} `{PyFloat} step place s : holding s (others_at (Run := sample_run) step place s).
Proof.
  cbn. destruct (sdb_messages s !! _) eqn:Hid; [apply holding_refl|]. by apply append_holding.
Qed.

Lemma summary_trace_safe_witness :
  well_formed (H := ascii_str) (H0 := plain_repr) (H1 := no_floats)
    (handle_chat_summary (H := ascii_str) (H0 := plain_repr) (H1 := no_floats) (H2 := ascii_fold) (H3 := sample_int)
      (H4 := default_settings) (H5 := sample_run) "c1" sample_row sample_summaries).2.
Proof.
  apply (summary_trace_safe (H := ascii_str) (H0 := plain_repr) (H1 := no_floats) (H2 := ascii_fold) (H3 := sample_int)
    (H4 := default_settings) sample_summaries); [apply sample_well_formed|].
  apply rtc_once, act_run.
  - apply sample_others_hold.
  - intros step s. cbn. lia.
  - cbn. intros step keep [= <-]. done.
  - reflexivity.
Defined.
