(* ===== verification/SummariesProgress.v ===== *)
(** * Left alone, the summary is brought up to date

    When nobody interferes and nothing stops it, a run either ends with the
    summary up to date or takes its eight steps towards it, and finitely many
    runs end it.  And what a turn reads of it: where in the turn's history the
    summary ends. *)

From S2P Require Import Prelude Text Json JsonParse PyText PyTime Fences Outbox Queue MemoryJobs MemoryFacts ChatHistory RowJobs HistoryFacts Summaries SummariesFacts SummariesTrace.

Section progress.
Context `{PyStr} `{PyRepr} `{PyFloat} `{PyFold} `{PyInt} `{Settings}.
Implicit Types (s : SummaryDB) (session_id : string) (part : ChatSummaryPart).

(** ** What is left to do *)

Definition span part : Z := to_sequence part - from_sequence part + 1.
Definition spans (ps : list ChatSummaryPart) : Z := foldr (fun p n => span p + n) 0 ps.
Definition unfolded (d : SummaryData) (ps : list ChatSummaryPart) : list ChatSummaryPart :=
  filter (fun p => up_to_sequence d < from_sequence p) ps.

(** Two for every sequence no part reaches over, one for every part not folded in. *)
Definition potential session_id (d : SummaryData) s : Z :=
  2 * (Z.max 0 (settled session_id s) - spans (_parts_of session_id s)) + Z.of_nat (length (unfolded d (_parts_of session_id s))).

Lemma spans_bound u t ps : StronglySorted (fun p q => to_sequence p < from_sequence q) ps ->
  (forall p, p ∈ ps -> u < from_sequence p <= to_sequence p /\ to_sequence p <= t) -> u <= t -> spans ps <= t - u.
Proof.
  intros Hs. revert u. induction Hs as [|p ps _ IH Hp]; intros u Hr Hu; cbn; [lia|].
  pose proof (Hr p ltac:(apply list_elem_of_here)). rewrite Forall_forall in Hp.
  assert (spans ps <= t - to_sequence p); [|unfold spans, span in *; lia].
  apply IH; [|lia]. intros q Hq. pose proof (Hr q ltac:(by apply list_elem_of_further)). specialize (Hp q Hq). lia.
Qed.

Lemma potential_nonneg session_id d s : well_formed s -> 0 <= potential session_id d s.
Proof.
  intros Hwf. unfold potential.
  assert (spans (_parts_of session_id s) <= Z.max 0 (settled session_id s) - 0); [|lia].
  apply spans_bound; [by apply parts_of_sorted| |lia].
  intros p Hp. pose proof (parts_of_range session_id s p Hwf Hp). lia.
Qed.

Lemma spans_perm ps ps' : ps ≡ₚ ps' -> spans ps = spans ps'.
Proof. induction 1; cbn in *; unfold spans in *; lia. Qed.

Lemma unfolded_perm d ps ps' : ps ≡ₚ ps' -> length (unfolded d ps) = length (unfolded d ps').
Proof. intros Hp. apply Permutation_length. unfold unfolded. by rewrite Hp. Qed.

Lemma filter_shorter {A} (P Q : A -> Prop) `{!forall x, Decision (P x), !forall x, Decision (Q x)} (l : list A) x :
  (forall y, y ∈ l -> Q y -> P y) -> x ∈ l -> P x -> ~ Q x -> (length (filter Q l) < length (filter P l))%nat.
Proof.
  intros Hqp Hx Hpx Hqx.
  assert (forall k, (forall y, y ∈ k -> Q y -> P y) -> (length (filter Q k) <= length (filter P k))%nat) as Hle.
  { induction k as [|y k IH]; intros Hk; [done|]. rewrite !filter_cons.
    specialize (IH ltac:(intros; apply Hk; [by apply list_elem_of_further|done])).
    pose proof (Hk y ltac:(apply list_elem_of_here)). repeat case_decide; cbn; (lia || tauto). }
  apply list_elem_of_split in Hx as (l1 & l2 & ->). rewrite !filter_app, !length_app, filter_cons_False, filter_cons_True by done. cbn.
  pose proof (Hle l1 ltac:(intros y Hy; apply Hqp, elem_of_app; by left)).
  pose proof (Hle l2 ltac:(intros y Hy; apply Hqp, elem_of_app; right; by apply list_elem_of_further)). lia.
Qed.

(** ** A quiet run *)

Definition caught_up session_id (keep : Z) s : Prop :=
  exists d, summary_data session_id s = Some d /\ latest_sequence session_id s - keep <= up_to_sequence d /\
    _gap session_id (_parts_of session_id s) s = None /\ unfolded d (_parts_of session_id s) = [].

(** Nothing stops the run: the settings and the chat allow it, and the model answers. *)
Record quiet (R : Run) (keep : Z) : Prop := {
  q_others : forall step place s, others_at step place s = s;
  q_settings : forall step, Summary._settings_on (g_settings (gate_at step)) = true;
  q_session : forall step, Summary._eligible (g_session (gate_at step)) = true;
  q_owner : forall step, Summary.owner_allows_summaries (g_session (gate_at step)) (g_prefs (gate_at step)) (g_feature (gate_at step)) = true;
  q_budget : forall step, g_over_budget (gate_at step) = false;
  q_model : forall step, exists model, int_of (default JNull (field (of_string "summary_model_id") (g_settings (gate_at step)))) = Ok model;
  q_keep : forall step, int_or 20 (field (of_string "summary_keep_recent") (g_settings (gate_at step))) = Ok keep;
  q_answers : forall step q, exists c words, ask step q = Ok (c :: words);
  q_ids : forall step step', part_id step = part_id step' -> step = step'
}.

(** Every message of the chat can be read. *)
Definition readable_chat session_id s : Prop :=
  forall m, message_in session_id s m -> exists words, message_text_for_model (JStr (msg_content m)) = Ok words.

Lemma part_loop_total rs : (forall m, m ∈ rs -> exists words, message_text_for_model (JStr (msg_content m)) = Ok words) ->
  forall total acc, exists st, part_loop rs total acc = Ok st.
Proof.
  induction rs as [|m rs IH]; intros Hr total acc; [by eexists|]. cbn [part_loop].
  destruct (Hr m ltac:(apply list_elem_of_here)) as [words ->]. unfold mbind, res_bind.
  assert (forall x, x ∈ rs -> exists words, message_text_for_model (JStr (msg_content x)) = Ok words) as Hrs
    by (intros x Hx; apply Hr; by apply list_elem_of_further).
  destruct (take MAX_MESSAGE_CHARS words); [by apply IH|]. destruct (_ || _); [by apply IH|].
  match goal with |- exists _, (if ?b then _ else _) = _ => destruct b end; [by eexists|by apply IH].
Qed.

Lemma part_total session_id a b s : readable_chat session_id s -> exists st, _part session_id a b s = Ok st.
Proof.
  intros Hr. apply part_loop_total. intros m Hm.
  apply elem_of_take in Hm as (i & Hi%list_elem_of_lookup_2 & _). apply in_stretch_rows in Hi as (Hm & Hs & _). by apply Hr.
Qed.

Lemma opening_total session_id s : readable_chat session_id s -> exists h, _opening_hash session_id s = Ok h.
Proof.
  intros Hr. unfold _opening_hash.
  set (rs := take 20 _). assert (forall m, m ∈ rs -> exists words, message_text_for_model (JStr (msg_content m)) = Ok words) as Hrs.
  { intros m Hm. apply elem_of_take in Hm as (i & Hi%list_elem_of_lookup_2 & _). rewrite sort_by_perm in Hi.
    apply list_elem_of_fmap in Hi as ([id x] & -> & Hx%elem_of_map_to_list). apply map_lookup_filter_Some in Hx as [Hx [Hs _]].
    apply Hr. split; [by exists id|done]. }
  clearbody rs. induction rs as [|m rs IH]; [by eexists|].
  destruct (Hrs m ltac:(apply list_elem_of_here)) as [words Hw].
  specialize (IH ltac:(intros x Hx; apply Hrs; by apply list_elem_of_further)).
  unfold mbind, res_bind in *. rewrite Hw. destruct words; [exact IH|by eexists].
Qed.

Section run.
Context {R : Run} (keep : Z).
Hypothesis Hquiet : quiet R keep.
Hypothesis keep_few : FEWEST_KEPT <= keep.

Lemma pause_quiet {B} step place (k : op SummaryDB B) s : (pause step place ≫= fun _ => k) s = k s.
Proof. unfold pause, mbind, op_bind, modify. by rewrite (q_others _ _ Hquiet). Qed.

(** The state after a write on the chat's row. *)
Definition stamped session_id (d : SummaryData) (row : RowJob SummaryData) step s : SummaryDB :=
  let now := clock step s in
  with_clock (Z.max (sdb_clock s) now) (with_summaries <[session_id := rewritten d now row]> s).

Lemma written_now session_id row f step s : sdb_summaries s !! session_id = Some row ->
  _written session_id (r_updated_at row) f (clock step s) s =
    (Ok true, stamped session_id (f (data row)) row step s).
Proof. intros Hr. unfold _written. by rewrite Hr, Z.eqb_refl. Qed.

Lemma insert_part_ok session_id row step part s : well_formed s -> sdb_summaries s !! session_id = Some row ->
  sdb_parts s !! part_id step = None -> fits session_id s part ->
  insert_part (part_id step) part (stamped session_id (data row) row step s) =
    (Ok tt, with_parts <[part_id step := part]> (stamped session_id (data row) row step s)).
Proof.
  intros Hwf Hr Hid (Hps & Hft & _ & Hap & _). unfold insert_part.
  rewrite bool_decide_true by done. rewrite bool_decide_true; [done|].
  apply map_eq. intros i. rewrite lookup_empty. apply map_lookup_filter_None. right. intros q Hi Hq. cbn in Hq.
  assert (part_in session_id s q) as Hqi.
  { apply part_in_session. exists i. unfold session_parts in *. cbn in Hi. by rewrite <- Hps. }
  pose proof (v_range _ _ (wf_valid s Hwf session_id) q Hqi). specialize (Hap q Hqi). lia.
Qed.

(** Adding a part succeeds. *)
Lemma add_part_ok step session_id row st after s : well_formed s -> sdb_summaries s !! session_id = Some row ->
  sdb_parts s !! part_id step = None ->
  (forall words, fits session_id s (MkPart session_id (after + 1) (Z.max (after + 1) (covered st)) (stretch_counted st) words (last_hash st))) ->
  exists words, _add_part step session_id (r_updated_at row) st after s =
    (Ok true, with_parts <[part_id step := MkPart session_id (after + 1) (Z.max (after + 1) (covered st)) (stretch_counted st) words
       (last_hash st)]> (stamped session_id (data row) row step s)).
Proof.
  intros Hwf Hr Hid Hfit. unfold _add_part.
  assert (exists words, (match turns st with
     | [] => mret []
     | ts => words ← lift (_summarize_stretch step ts);
             match words with [] => raise answered_with_nothing | _ => mret words end
     end : op SummaryDB text) s = (Ok words, s)) as [words Hw].
  { destruct (turns st) as [|t ts]; [by exists []|]. unfold _summarize_stretch.
    destruct (q_answers _ _ Hquiet step (AskPart (wrap_untrusted (of_string "CONVERSATION")
      (join [10] (conversation_line <$> t :: ts)) None ++ [10]) t.1.1)) as (c & words & Ha).
    exists (c :: words). unfold lift, mbind, op_bind. by rewrite Ha. }
  exists words. rewrite (op_bind_ok _ _ s words s Hw), pause_quiet.
  unfold utcnow, gets, transaction, mbind, op_bind. rewrite (written_now session_id row id step s Hr). cbn [negb].
  change (id (data row)) with (data row). by rewrite (insert_part_ok session_id row step _ s Hwf Hr Hid (Hfit words)).
Qed.

(** Folding succeeds. *)
Lemma fold_parts_ok step session_id row ps model s : sdb_summaries s !! session_id = Some row -> readable_chat session_id s ->
  exists found, _fold_parts step session_id row (r_updated_at row) ps model s =
    (Ok true, stamped session_id (folded (fold_batch false 0 ps) found (covered_count (data row)) (data row)) row step s).
Proof.
  intros Hr Hread. unfold _fold_parts.
  rewrite (op_bind_ok _ _ s (clock step s) s) by done.
  match goal with |- exists found, (?m ≫= _) s = _ => assert (exists found, m s = (Ok found, s)) as [found Hf] end.
  { destruct (filter _ (fold_batch false 0 ps)) as [|p l] eqn:Hl; [by eexists|].
    match goal with |- exists found, (?m ≫= _) s = _ => assert (exists words, m s = (Ok words, s)) as [words Hw] end.
    { destruct (content (data row)), l; try by eexists.
      all: unfold _fold, lift, mbind, op_bind;
        match goal with |- context [ask ?st ?q] => destruct (q_answers _ _ Hquiet st q) as (c0 & ws & ->) end; by eexists. }
    rewrite (op_bind_ok _ _ s words s Hw), pause_quiet.
    match goal with |- exists found, (?m ≫= _) s = _ => assert (exists h, m s = (Ok h, s)) as [h Hh] end.
    { destruct (opt_text _); [|by eexists]. destruct (opening_total session_id s Hread) as [h Hh].
      unfold gets, lift, mbind, op_bind. rewrite Hh. by eexists. }
    rewrite (op_bind_ok _ _ s h s Hh). by eexists. }
  exists found. rewrite (op_bind_ok _ _ s found s Hf), pause_quiet. apply (written_now session_id row _ step s Hr).
Qed.

(** Folding reaches over the first part left, at least. *)
Lemma folded_first session_id row s p0 l found : well_formed s -> unfolded (data row) (_parts_of session_id s) = p0 :: l ->
  up_to_sequence (data row) < from_sequence p0 <=
    up_to_sequence (folded (fold_batch false 0 (p0 :: l)) found (covered_count (data row)) (data row)).
Proof.
  intros Hwf Hu.
  assert (StronglySorted (fun p q => to_sequence p < from_sequence q) (p0 :: l)) as Hs.
  { rewrite <- Hu. apply StronglySorted_filter, parts_of_sorted, Hwf. }
  assert (forall p, p ∈ p0 :: l -> from_sequence p <= to_sequence p /\ up_to_sequence (data row) < from_sequence p) as Hr.
  { intros p Hp. rewrite <- Hu in Hp. apply list_elem_of_filter in Hp as [? Hp].
    pose proof (parts_of_range session_id s p Hwf Hp) as [? _]. split; [lia|assumption]. }
  destruct (fold_batch_prefix false 0 (p0 :: l)) as [rest Hrest].
  destruct (fold_batch_first p0 l) as (x & y & Hxy). rewrite Hxy in *. injection Hrest as <- Hl.
  pose proof (Hr p0 ltac:(apply list_elem_of_here)) as Hp0.
  assert (exists q, last (p0 :: y) = Some q /\ from_sequence p0 <= to_sequence q) as (q & Hq & Hle).
  { rewrite last_cons. destruct (last y) as [q|] eqn:Hy; [|exists p0; split; [done|lia]].
    exists q. split; [done|]. assert (q ∈ l) as Hql by (rewrite Hl; apply elem_of_app; left; by apply last_Some_elem_of).
    apply StronglySorted_inv in Hs as [_ Hs]. rewrite Forall_forall in Hs. specialize (Hs q Hql).
    pose proof (Hr q ltac:(by apply list_elem_of_further)). lia. }
  unfold folded. rewrite Hq. destruct found as [[[? ?] ?]|]; cbn; lia.
Qed.

(** What a successful step leaves: less to do, the messages alone, one part at most. *)
Record advanced step session_id row s s' : Prop := {
  adv_wf : well_formed s';
  adv_row : exists row', sdb_summaries s' !! session_id = Some row' /\ potential session_id (data row') s' < potential session_id (data row) s;
  adv_messages : sdb_messages s' = sdb_messages s;
  adv_parts : forall id, id <> part_id step -> sdb_parts s' !! id = sdb_parts s !! id
}.

Lemma add_advances step session_id row part s : well_formed s -> sdb_summaries s !! session_id = Some row ->
  sdb_parts s !! part_id step = None -> fits session_id s part ->
  advanced step session_id row s (with_parts <[part_id step := part]> (stamped session_id (data row) row step s)).
Proof.
  intros Hwf Hr Hid Hfit. set (s' := with_parts _ _).
  pose proof (wf_stamps s Hwf _ _ Hr) as Hst.
  destruct (add_part_sound session_id row (clock step s) (part_id step) part s Hwf Hr Hid Hfit)
    as [Hwf' _]. destruct Hfit as (Hps & Hft & _).
  assert (_parts_of session_id s' ≡ₚ part :: _parts_of session_id s) as Hperm.
  { unfold _parts_of. rewrite !sort_by_perm. unfold session_parts, s'. cbn. rewrite map_filter_insert_True by done.
    rewrite map_to_list_insert; [done|]. apply map_lookup_filter_None. by left. }
  constructor; [exact Hwf'| |done|].
  - exists (rewritten (data row) (clock step s) row). split; [apply lookup_insert_eq|].
    unfold potential. cbn [data rewritten]. rewrite (spans_perm _ _ Hperm), (unfolded_perm _ _ _ Hperm).
    rewrite <- (settled_messages session_id s s') by done.
    change (spans (part :: ?ps)) with (span part + spans ps). unfold unfolded, span. rewrite filter_cons.
    case_decide; cbn [length]; lia.
  - intros id Hne. cbn. by rewrite lookup_insert_ne.
Qed.

Lemma fold_advances step session_id row found p0 l s : well_formed s -> sdb_summaries s !! session_id = Some row ->
  _gap session_id (_parts_of session_id s) s = None -> unfolded (data row) (_parts_of session_id s) = p0 :: l ->
  advanced step session_id row s
    (stamped session_id (folded (fold_batch false 0 (p0 :: l)) found (covered_count (data row)) (data row)) row step s).
Proof.
  intros Hwf Hr Hg Hu.
  assert (summary_data session_id s = Some (data row)) as Hd by (unfold summary_data; by rewrite Hr).
  pose proof (fold_reaches session_id s (data row) (data row) found p0 l Hwf Hd Hg Hu) as Hreach.
  set (d' := folded _ _ _ _) in *. set (s' := stamped _ _ _ _ _).
  pose proof (wf_stamps s Hwf _ _ Hr) as Hst.
  destruct (fold_sound session_id row (clock step s) d' s Hwf Hr Hreach) as [Hwf' _].
  constructor; [exact Hwf'| |done|done].
  exists (rewritten d' (clock step s) row). split; [apply lookup_insert_eq|].
  assert (_parts_of session_id s' = _parts_of session_id s) as Hps by done.
  unfold potential. rewrite Hps, <- (settled_messages session_id s s') by done. cbn [data rewritten].
  destruct Hreach as (_ & (q & Hq & Hto) & _).
  (* the first part folded in began after the summary and ends before what it now reaches *)
  assert (p0 ∈ unfolded (data row) (_parts_of session_id s)) as Hp0 by (rewrite Hu; apply list_elem_of_here).
  apply list_elem_of_filter in Hp0 as [Hlt Hin].
  pose proof (folded_first session_id row s p0 l found Hwf Hu) as Hle. fold d' in Hle.
  pose proof (filter_shorter (fun p => up_to_sequence (data row) < from_sequence p) (fun p => up_to_sequence d' < from_sequence p)
    (_parts_of session_id s) p0 ltac:(cbn; intros; lia) Hin Hlt ltac:(cbn; lia)) as Hlen.
  unfold unfolded. lia.
Qed.

(** A step of a quiet run: it finds the summary up to date, or goes towards it. *)
Lemma step_outcome step session_id row s : well_formed s -> readable_chat session_id s ->
  sdb_summaries s !! session_id = Some row -> sdb_parts s !! part_id step = None ->
  (run_step step session_id row s = (Ok false, s) /\ caught_up session_id keep s) \/
  exists s', run_step step session_id row s = (Ok true, s') /\ advanced step session_id row s s'.
Proof.
  intros Hwf Hread Hr Hid. pose proof Hquiet as Hq. unfold run_step.
  assert (summary_data session_id s = Some (data row)) as Hd by (unfold summary_data; by rewrite Hr).
  rewrite (q_settings _ _ Hq step), (q_session _ _ Hq step), (q_owner _ _ Hq step), (q_budget _ _ Hq step).
  destruct (q_model _ _ Hq step) as [model Hm]. cbn [negb orb].
  rewrite (op_bind_ok _ _ s model s) by (by rewrite Hm). rewrite pause_quiet.
  rewrite (op_bind_ok _ _ s (_parts_of session_id s) s) by done. rewrite pause_quiet.
  rewrite (op_bind_ok _ _ s (_gap session_id (_parts_of session_id s) s) s) by done.
  destruct (_gap session_id (_parts_of session_id s) s) as [[a b]|] eqn:Hg.
  - right. rewrite pause_quiet, (op_bind_ok _ _ s (_part session_id a b s) s) by done.
    destruct (part_total session_id a b s Hread) as [st Hst]. rewrite (op_bind_ok _ _ s st s) by (by rewrite Hst).
    pose proof (fun words => fits_gap session_id s s a b st words Hwf Hwf (same_chat_refl session_id s) Hg Hst) as Hfit.
    destruct (add_part_ok step session_id row st a s Hwf Hr Hid Hfit) as [words Ha].
    eexists. split; [exact Ha|]. by apply add_advances.
  - fold (unfolded (data row) (_parts_of session_id s)).
    destruct (unfolded (data row) (_parts_of session_id s)) as [|p0 l] eqn:Hu.
    + rewrite pause_quiet, (op_bind_ok _ _ s (latest_sequence session_id s) s) by done.
      rewrite (op_bind_ok _ _ s keep s) by (by rewrite (q_keep _ _ Hq step)).
      destruct (Z.leb_spec (latest_sequence session_id s - keep) (up_to_sequence (data row))) as [|Hlt].
      { left. split; [done|]. by exists (data row). }
      right. rewrite pause_quiet.
      rewrite (op_bind_ok _ _ s (_part session_id (up_to_sequence (data row)) (latest_sequence session_id s - keep) s) s) by done.
      destruct (part_total session_id (up_to_sequence (data row)) (latest_sequence session_id s - keep) s Hread) as [st Hst].
      rewrite (op_bind_ok _ _ s st s) by (by rewrite Hst).
      pose proof (fun words => fits_next session_id s s (data row) (latest_sequence session_id s - keep) st words Hwf Hwf
        (same_chat_refl session_id s) Hd Hu Hlt ltac:(unfold settled; lia) Hst) as Hfit.
      destruct (add_part_ok step session_id row st (up_to_sequence (data row)) s Hwf Hr Hid Hfit) as [words Ha].
      eexists. split; [exact Ha|]. by apply add_advances.
    + right. destruct (fold_parts_ok step session_id row (p0 :: l) model s Hr Hread) as [found Hf].
      eexists. split; [exact Hf|]. by apply fold_advances.
Qed.

(** What the rest of a quiet run leaves, once [todo] steps are left to it. *)
Record went_on (from : nat) (todo : nat) session_id row s (ans : bool) s' : Prop := {
  on_wf : well_formed s';
  on_row : exists row', sdb_summaries s' !! session_id = Some row' /\
    (ans = true -> potential session_id (data row') s' + Z.of_nat todo <= potential session_id (data row) s);
  on_done : ans = false -> caught_up session_id keep s';
  on_messages : sdb_messages s' = sdb_messages s;
  on_parts : forall id, (forall k, (from <= k)%nat -> part_id k <> id) -> sdb_parts s' !! id = sdb_parts s !! id
}.

Lemma readable_messages session_id s s' : sdb_messages s' = sdb_messages s -> readable_chat session_id s -> readable_chat session_id s'.
Proof. intros Hm Hr m [[i Hi] Hs]. apply Hr. rewrite Hm in Hi. split; [by exists i|done]. Qed.

Lemma run_steps_outcome todo : forall step session_id row s, well_formed s -> readable_chat session_id s ->
  sdb_summaries s !! session_id = Some row -> (forall k, (step <= k)%nat -> sdb_parts s !! part_id k = None) ->
  exists ans s', run_steps todo step session_id row s = (Ok ans, s') /\ went_on step todo session_id row s ans s'.
Proof.
  induction todo as [|todo IH]; intros step session_id row s Hwf Hread Hr Hids; cbn [run_steps].
  { exists true, s. split; [done|]. constructor; try done. exists row. split; [done|lia]. }
  destruct (step_outcome step session_id row s Hwf Hread Hr (Hids step ltac:(lia))) as [[Hs Hc]|(s1 & Hs & Ha)].
  { exists false, s. split; [by rewrite (op_bind_ok _ _ _ _ _ Hs)|]. constructor; try done. by exists row. }
  destruct Ha as [Hwf1 (row1 & Hr1 & Hlt) Hm Hp].
  destruct (IH (S step) session_id row1 s1 Hwf1 (readable_messages _ _ _ Hm Hread) Hr1) as (ans & s2 & Hgo & Hon).
  { intros k Hk. rewrite Hp; [apply Hids; lia|]. intros Heq%(q_ids _ _ Hquiet). lia. }
  exists ans, s2. split.
  { rewrite (op_bind_ok _ _ _ _ _ Hs). cbn [negb]. rewrite pause_quiet.
    rewrite (op_bind_ok _ _ s1 row1 s1); [done|]. unfold refresh. by rewrite Hr1. }
  destruct Hon as [Hwf2 (row2 & Hr2 & Hpot) Hdone Hm2 Hp2]. constructor; [done| |done|congruence|].
  - exists row2. split; [done|]. intros Ht. specialize (Hpot Ht). lia.
  - intros id Hid. rewrite Hp2, Hp; [done| |].
    + intros Heq. exact (Hid step ltac:(lia) (eq_sym Heq)).
    + intros k Hk. apply Hid. lia.
Qed.
End run.

(** ** Runs, one after the other *)

(** What happens to a chat's summary between two runs: the job's columns may
    change, the notes, the parts and the messages do not. *)
Record untouched session_id s s' : Prop := {
  un_wf : well_formed s';
  un_data : summary_data session_id s' = summary_data session_id s;
  un_parts : sdb_parts s' = sdb_parts s;
  un_messages : sdb_messages s' = sdb_messages s
}.

(** The runs from the [i]-th on, each of the row as the job then has it, as
    long as one answers that more is left. *)
Fixpoint runs (n i : nat) (env : nat -> Run) (between : nat -> SummaryDB -> SummaryDB) session_id : op SummaryDB bool :=
  match n with
  | O => mret true
  | S n =>
      _ ← modify (between i);
      row ← refresh session_id;
      more ← handle_chat_summary (H5 := env i) session_id row;
      if more : bool then runs n (S i) env between session_id else mret false
  end.

(** The job's calls leave a chat's summary so. *)
Lemma changes_untouched {A} now (m : op SummaryDB A) session_id s : changes now m -> sdb_clock s < now -> well_formed s ->
  is_Some (summary_data session_id s) -> untouched session_id s (with_clock now (m s).2).
Proof.
  intros Hm Hnow Hwf [d Hd]. destruct (job_holding now s (m s).2 (Hm s) Hnow Hwf) as [Hwf' _]. specialize (Hm s) as [Hmsg Hp _ Hrows Hkeep].
  constructor; [exact Hwf'| |exact Hp|exact Hmsg]. rewrite Hd. unfold summary_data in *. cbn.
  destruct (sdb_summaries s !! session_id) as [r|] eqn:Hr; [|done]. injection Hd as <-.
  destruct (Hkeep session_id ltac:(by rewrite Hr)) as [r' Hr']. rewrite Hr'.
  destruct (Hrows session_id r' Hr') as [(r0 & Hr0 & Hd0 & _)|[Hn _]]; [|by rewrite Hr in Hn].
  rewrite Hr in Hr0. injection Hr0 as <-. cbn. by rewrite Hd0.
Qed.

Lemma untouched_potential session_id s s' d : untouched session_id s s' -> potential session_id d s' = potential session_id d s.
Proof.
  intros [_ _ Hp Hm]. unfold potential, _parts_of, session_parts. rewrite Hp. by rewrite (settled_messages session_id s' s).
Qed.

Lemma runs_outcome (env : nat -> Run) between keep session_id : FEWEST_KEPT <= keep -> (forall i, quiet (env i) keep) ->
  (forall i s, well_formed s -> is_Some (summary_data session_id s) -> untouched session_id s (between i s)) ->
  (forall i j k l, part_id (Run := env i) k = part_id (Run := env j) l -> i = j) ->
  forall n i s d, well_formed s -> readable_chat session_id s -> summary_data session_id s = Some d ->
  (forall j k, (i <= j)%nat -> sdb_parts s !! part_id (Run := env j) k = None) ->
  potential session_id d s < 8 * Z.of_nat n ->
  exists s', runs n i env between session_id s = (Ok false, s') /\ well_formed s' /\ caught_up session_id keep s' /\
    sdb_messages s' = sdb_messages s.
Proof.
  intros Hkeep Hq Hb Hids n. induction n as [|n IH]; intros i s d Hwf Hread Hd Hfree Hpot.
  { pose proof (potential_nonneg session_id d s Hwf). lia. }
  cbn [runs]. pose proof (Hb i s Hwf ltac:(by eexists)) as Hun. pose proof (untouched_potential _ _ _ d Hun) as Hpb.
  destruct Hun as [Hwf0 Hd0 Hp0 Hm0]. set (s0 := between i s) in *.
  rewrite (op_bind_ok _ _ s tt s0) by done. rewrite Hd in Hd0.
  unfold summary_data in Hd0. destruct (sdb_summaries s0 !! session_id) as [row|] eqn:Hr; [|done]. injection Hd0 as Hrow.
  rewrite (op_bind_ok _ _ s0 row s0) by (unfold refresh; by rewrite Hr).
  destruct (run_steps_outcome (R := env i) keep (Hq i) Hkeep MAX_STEPS_PER_RUN 0 session_id row s0 Hwf0
    (readable_messages _ _ _ Hm0 Hread) Hr) as (ans & s1 & Hgo & [Hwf1 (row1 & Hr1 & Hlt) Hdone Hm1 Hp1]).
  { intros k _. rewrite Hp0. by apply Hfree. }
  rewrite (op_bind_ok _ _ _ _ _ Hgo). destruct ans.
  - destruct (IH (S i) s1 (data row1) Hwf1) as (s' & Hruns & Hwf' & Hc & Hm').
    + apply (readable_messages _ s); [congruence|done].
    + unfold summary_data. by rewrite Hr1.
    + intros j k Hj. rewrite Hp1, Hp0; [apply Hfree; lia|]. intros l _ Heq%Hids. lia.
    + specialize (Hlt eq_refl). rewrite Hrow, Hpb in Hlt. change (Z.of_nat MAX_STEPS_PER_RUN) with 8 in Hlt. lia.
    + exists s'. split_and!; [done..|congruence].
  - exists s1. split_and!; [done|done|by apply Hdone|congruence].
Qed.

(** C17: left alone - the settings and the chat allow it, the model answers, the
    chat's messages can be read and nobody writes them meanwhile, whatever
    happens to the job's columns between two runs - the runs of a chat's
    summary end: one run for every eight of twice the sequences no part reaches
    over plus the parts to fold, and one more, are enough for a run to answer
    that nothing is left; the summary then reaches over every message but the
    newest [keep], every part is folded in, and no message lies between two
    parts. *)
Theorem summary_catches_up (env : nat -> Run) between keep session_id s d :
  well_formed s -> summary_data session_id s = Some d -> readable_chat session_id s -> FEWEST_KEPT <= keep ->
  (forall i, quiet (env i) keep) -> (forall i s, well_formed s -> is_Some (summary_data session_id s) -> untouched session_id s (between i s)) ->
  (forall i j k l, part_id (Run := env i) k = part_id (Run := env j) l -> i = j) ->
  (forall i k, sdb_parts s !! part_id (Run := env i) k = None) ->
  exists s', runs (S (Z.to_nat (potential session_id d s / 8))) 0 env between session_id s = (Ok false, s') /\
    well_formed s' /\ sdb_messages s' = sdb_messages s /\ caught_up session_id keep s'.
Proof.
  intros Hwf Hd Hread Hkeep Hq Hb Hids Hfree. pose proof (potential_nonneg session_id d s Hwf) as Hpot.
  destruct (runs_outcome env between keep session_id Hkeep Hq Hb Hids (S (Z.to_nat (potential session_id d s / 8))) 0 s d)
    as (s' & Hruns & Hwf' & Hc & Hm); [done..| |by exists s'].
  pose proof (Z.div_mod (potential session_id d s) 8 ltac:(done)). pose proof (Z.mod_pos_bound (potential session_id d s) 8 ltac:(done)).
  rewrite Nat2Z.inj_succ, Z2Nat.id by (apply Z.div_pos; lia). lia.
Qed.

(** ** Where a turn's history leaves the summary *)

(** The last message covered, as the summary remembers it, is the [i]-th of the conversation. *)
Definition last_at (hash : text) (conversation : list BodyMessage) (i : nat) : Prop :=
  exists m, conversation !! i = Some m /\ _is_last hash m = Ok true.

Definition readable (conversation : list BodyMessage) : Prop :=
  forall m, m ∈ conversation -> exists words, message_text_for_model (content_of m) = Ok words.

(** One index nearer to [expected] than another, the earlier of two as near. *)
Definition as_near (expected i j : Z) : Prop :=
  Z.abs (i - expected) < Z.abs (j - expected) \/ (Z.abs (i - expected) = Z.abs (j - expected) /\ i <= j).

Lemma is_last_total hash conversation m : readable conversation -> m ∈ conversation -> exists b, _is_last hash m = Ok b.
Proof. intros Hr Hm. destruct (Hr m Hm) as [words Hw]. unfold _is_last. rewrite Hw. by eexists. Qed.

Lemma found_from_spec hash conversation : forall index, readable conversation ->
  exists l, found_from index hash conversation = Ok l /\
    forall z, z ∈ l <-> exists i, last_at hash conversation i /\ z = index + Z.of_nat i.
Proof.
  induction conversation as [|m conversation IH]; intros index Hr.
  { exists []. split; [done|]. intros z. split; [by intros ?%elem_of_nil|]. by intros (i & (m & ? & _) & _). }
  destruct (is_last_total hash _ m Hr ltac:(apply list_elem_of_here)) as [b Hb].
  destruct (IH (index + 1) ltac:(intros x Hx; apply Hr; by apply list_elem_of_further)) as (l & Hl & Hin).
  exists (if b then index :: l else l). cbn [found_from]. rewrite Hb. unfold mbind, res_bind at 1. rewrite Hl.
  split; [by destruct b|]. intros z.
  assert (z ∈ l <-> exists i, last_at hash (m :: conversation) (S i) /\ z = index + Z.of_nat (S i)) as Hz.
  { rewrite Hin. split; intros (i & Hi & ->); exists i; (split; [exact Hi|lia]). }
  split.
  - intros H'. assert (b = true /\ z = index \/ z ∈ l) as [[-> ->]|Hzl].
    { destruct b; [|by right]. apply elem_of_cons in H' as [?|?]; [by left|by right]. }
    + exists 0%nat. split; [by exists m|lia].
    + apply Hz in Hzl as (i & ? & ?). by exists (S i).
  - intros ([|i] & Hi & ->).
    + destruct Hi as (x & [= <-] & Hx). assert (b = true) as -> by congruence. rewrite Z.add_0_r. apply list_elem_of_here.
    + assert (index + Z.of_nat (S i) ∈ l) as Hzl by (apply Hz; by exists i). destruct b; [by apply list_elem_of_further|done].
Qed.

Lemma nearest_spec expected found : forall best,
  nearest expected best found ∈ best :: found /\ forall j, j ∈ best :: found -> as_near expected (nearest expected best found) j.
Proof.
  induction found as [|i found IH]; intros best; cbn [nearest].
  { split; [apply list_elem_of_here|]. intros j ->%list_elem_of_singleton. right. lia. }
  set (closer := _ || _). destruct (IH (if closer then i else best)) as [Hin Hmin]. split.
  - apply elem_of_cons in Hin as [->|Hin]; [|by do 2 apply list_elem_of_further].
    destruct closer; [apply list_elem_of_further|]; apply list_elem_of_here.
  - intros j Hj. assert (as_near expected (if closer then i else best) i /\ as_near expected (if closer then i else best) best) as [Hi Hb].
    { unfold as_near, closer.
      destruct (Z.ltb_spec (Z.abs (i - expected)) (Z.abs (best - expected))), (Z.eqb_spec (Z.abs (i - expected)) (Z.abs (best - expected))),
        (Z.ltb_spec i best); cbn; lia. }
    pose proof (Hmin (if closer then i else best) ltac:(apply list_elem_of_here)) as Hbest.
    apply elem_of_cons in Hj as [->|Hj]; [unfold as_near in *; lia|].
    apply elem_of_cons in Hj as [->|Hj]; [unfold as_near in *; lia|]. apply Hmin. by apply list_elem_of_further.
Qed.

(** How many of a conversation's messages its summary covers: when the last
    message covered is found nowhere - edited, or gone - the summary's own
    count; otherwise the summary ends with the message that has its
    fingerprint, of several the one nearest to where the count puts it, of two
    as near the earlier. *)
Theorem covered_in_correct hash conversation count : hash <> [] -> readable conversation ->
  exists covered, _covered_in conversation count (Some hash) = Ok covered /\
    (((forall i, ~ last_at hash conversation i) /\ covered = count) \/
     exists i, last_at hash conversation i /\ covered = Z.of_nat i + 1 /\
       forall j, last_at hash conversation j -> as_near (count - 1) (Z.of_nat i) (Z.of_nat j)).
Proof.
  intros Hh Hr. unfold _covered_in. change (opt_text (Some hash)) with hash. destruct hash as [|c hash]; [done|].
  set (hash' := c :: hash) in *. set (expected := count - 1).
  match goal with |- exists covered, (?m ≫= _) = _ /\ _ => assert (exists b, m = Ok b /\
    (b = true -> 0 <= expected /\ last_at hash' conversation (Z.to_nat expected))) as (b & -> & Hb) end.
  { destruct (_ && _) eqn:Hin; [|by exists false]. apply andb_prop in Hin as [?%Z.leb_le _].
    destruct (conversation !! Z.to_nat expected) as [m|] eqn:Hm; [|by exists false].
    destruct (is_last_total hash' _ m Hr ltac:(by eapply list_elem_of_lookup_2)) as [b Hb].
    exists b. split; [done|]. intros ->. split; [done|]. by exists m. }
  unfold mbind, res_bind at 1. destruct b.
  { destruct (Hb eq_refl) as [Hpos Hat]. exists count. split; [done|]. right. exists (Z.to_nat expected).
    rewrite Z2Nat.id by done. split_and!; [done|lia|]. intros j _. unfold as_near. lia. }
  destruct (found_from_spec hash' conversation 0 Hr) as (l & -> & Hl). unfold res_bind. destruct l as [|i l].
  { exists count. split; [done|]. left. split; [|done]. intros i Hi.
    assert (Z.of_nat i ∈ (@nil Z)) as []%elem_of_nil by (apply Hl; by exists i). }
  destruct (nearest_spec expected l i) as [Hin Hmin]. eexists. split; [done|]. right.
  apply Hl in Hin as (k & Hk & Heq). exists k. rewrite Heq in *. rewrite !Z.add_0_l in *. split_and!; [done..|].
  intros j Hj. apply Hmin, Hl. by exists j.
Qed.
End progress.

(** ** Six messages, and runs nothing stops *)

Fixpoint stored_messages (n : nat) : SummaryDB :=
  match n with
  | O => sample_summaries
  | S n =>
      let next := latest_sequence "c1" (stored_messages n) + 1 in
      with_messages <[pretty next := sample_message next "user" "more"]> (stored_messages n)
  end.

Definition quiet_run (i : nat) : Run := {|
  others_at _ _ s := s;
  gate_at := gate_at (Run := sample_run);
  ask _ _ := Ok (of_string "notes");
  part_id step := pretty (Pos.to_nat (encode (i, step)));
  clock _ _ := 5
|}.

Definition claimed_between (i : nat) (s : SummaryDB) : SummaryDB :=
  with_clock (sdb_clock s + 1) (claim (D := SummaryData) "c1" (pretty i) (sdb_clock s + 1) s).2.

Lemma quiet_ids i j k l : part_id (Run := quiet_run i) k = part_id (Run := quiet_run j) l -> (i, k) = (j, l).
Proof. intros Heq. cbn in Heq. apply (inj pretty), Pos2Nat.inj, (inj encode) in Heq. done. Qed.

Lemma quiet_run_quiet `{PyStr} `{PyRepr} `{PyFloat} i : quiet (H3 := sample_int) (H4 := default_settings) (quiet_run i) 4.
Proof.
  constructor; try done; try (intros; vm_compute; done).
  - intros step. by exists 3.
  - intros step q. by eexists _, _.
  - intros step step' Heq%quiet_ids. congruence.
Qed.

Lemma stored_more n id m : sdb_messages (stored_messages n) !! id = Some m -> msg_content m = of_string "more".
Proof.
  induction n as [|n IH]; [done|]. cbn [stored_messages]. cbv zeta. cbn [with_messages sdb_messages].
  intros [[_ <-]|[_ Hm]]%lookup_insert_Some; [done|exact (IH Hm)].
Qed.

Lemma stored_well_formed `{PyStr} `{PyRepr} `{PyFloat} n : (n <= 6)%nat -> well_formed (stored_messages n).
Proof.
  induction n as [|n IH]; intros Hn; [apply sample_well_formed|].
  refine (proj1 (append_holding _ _ (stored_messages n) _ _ (IH ltac:(lia)))); [|done].
  do 6 (destruct n as [|n]; [vm_compute; reflexivity|]). lia.
Qed.

Lemma summary_catches_up_witness :
  exists s', runs (H := ascii_str) (H0 := plain_repr) (H1 := no_floats) (H2 := ascii_fold) (H3 := sample_int) (H4 := default_settings)
      (S (Z.to_nat (potential "c1" new_data (stored_messages 6) / 8))) 0 quiet_run claimed_between "c1" (stored_messages 6) = (Ok false, s') /\
    caught_up "c1" 4 s'.
Proof.
  destruct (summary_catches_up (H := ascii_str) (H0 := plain_repr) (H1 := no_floats) (H2 := ascii_fold) (H3 := sample_int)
    (H4 := default_settings) quiet_run claimed_between 4 "c1" (stored_messages 6) new_data) as (s' & Hruns & _ & _ & Hc).
  - by apply (stored_well_formed (H := ascii_str) (H0 := plain_repr) (H1 := no_floats)).
  - reflexivity.
  - intros m [[id Hid] _]. rewrite (stored_more 6 id m Hid). by eexists.
  - done.
  - apply (quiet_run_quiet (H := ascii_str) (H0 := plain_repr) (H1 := no_floats)).
  - intros i s Hwf Hd. apply (changes_untouched (H := ascii_str) (H0 := plain_repr) (H1 := no_floats)); [apply changes_claim|lia|done..].
  - intros i j k l Heq%quiet_ids. congruence.
  - done.
  - exists s'. split; [exact Hruns|exact Hc].
Defined.

Definition edited_turn : list BodyMessage :=
  [as_body ("user"%string, of_string "hi"); as_body ("assistant"%string, of_string "hello");
   as_body ("user"%string, of_string "hi"); as_body ("assistant"%string, of_string "and")].

(** The summary counts four messages; two of its last message's text are found,
    and it ends with the later. *)
Lemma covered_in_correct_witness :
  let hash := _fingerprint (H2 := ascii_fold) (of_string "hi") in
  _covered_in (H := ascii_str) (H0 := plain_repr) (H1 := no_floats) (H2 := ascii_fold) edited_turn 4 (Some hash) = Ok 3.
Proof.
  intros hash.
  destruct (covered_in_correct (H := ascii_str) (H0 := plain_repr) (H1 := no_floats) (H2 := ascii_fold) hash edited_turn 4)
    as (covered & Hc & [[Hn _]|(i & Hi & -> & Hnear)]).
  - vm_compute. discriminate.
  - intros m Hm. unfold edited_turn in Hm. repeat (apply elem_of_cons in Hm as [->|Hm]; [by eexists|]). by apply elem_of_nil in Hm.
  - destruct (Hn 2%nat). eexists. split; [reflexivity|]. vm_compute. reflexivity.
  - rewrite Hc. pose proof (Hnear 2%nat ltac:(eexists; split; [reflexivity|]; vm_compute; reflexivity)) as H2. unfold as_near in H2.
    destruct Hi as (m & Hm & Hlast). pose proof (lookup_lt_Some _ _ _ Hm) as Hi. cbn in Hi.
    assert (i = 2%nat \/ i = 3%nat) as [->| ->] by lia; [done|]. injection Hm as <-. vm_compute in Hlast. discriminate.
Defined.
