(* ===== verification/Regex.v ===== *)
(** * Regular expressions: [re.search]

    The patterns the backend searches texts with, as data, and whether they match
    somewhere.  A search that only asks whether there is a match does not depend
    on the order in which Python tries them, so greedy and lazy repetitions are
    alike.  The character classes of Unicode and the letters that differ only in
    case are a parameter ([PyRe]), instantiated on ASCII for the witnesses. *)

From S2P Require Import Prelude Text PyText.
From Stdlib Require Import ZifyBool.

(** [\d], [\w], and whether [re.IGNORECASE] takes two characters as one. *)
Class PyRe := { re_digit : Z -> bool; re_word : Z -> bool; re_same : Z -> Z -> bool }.

Definition ascii_lower (c : Z) : Z := if (65 <=? c) && (c <=? 90) then c + 32 else c.
Definition ascii_letter (c : Z) : bool := (97 <=? ascii_lower c) && (ascii_lower c <=? 122).
Definition ascii_digit (c : Z) : bool := (48 <=? c) && (c <=? 57).

Definition ascii_re : PyRe := {|
  re_digit := ascii_digit;
  re_word c := ascii_letter c || ascii_digit c || (c =? 95);
  re_same c d := ascii_lower c =? ascii_lower d
|}.

Inductive re :=
  | Eps
  | Chr (p : Z -> bool)
  | Many (p : Z -> bool)            (* any number of such characters *)
  | Then (r s : re)
  | Or (r s : re)
  | Boundary                        (* \b *)
  | Times (least more : nat) (r : re).   (* {least, least + more} *)

Section matching.
Context `{PyRe}.

Definition word_at (c : option Z) : bool := match c with Some c => re_word c | None => false end.

(** [k] is what is to match after [r]; [prev] is the character before. *)
Fixpoint matches (r : re) (prev : option Z) (s : text) (k : option Z -> text -> bool) {struct r} : bool :=
  match r with
  | Eps => k prev s
  | Chr p => match s with c :: s => if p c then k (Some c) s else false | [] => false end
  | Many p =>
      (fix many (prev : option Z) (s : text) : bool :=
        if k prev s then true else match s with c :: s => if p c then many (Some c) s else false | [] => false end) prev s
  | Then a b => matches a prev s (fun prev s => matches b prev s k)
  | Or a b => if matches a prev s k then true else matches b prev s k
  | Boundary => if xorb (word_at prev) (word_at (head s)) then k prev s else false
  | Times least more a =>
      (fix first (n : nat) (prev : option Z) (s : text) : bool :=
        match n with
        | O =>
            (fix further (m : nat) (prev : option Z) (s : text) : bool :=
              if k prev s then true else match m with O => false | S m => matches a prev s (further m) end) more prev s
        | S n => matches a prev s (first n)
        end) least prev s
  end.

Fixpoint search_from (r : re) (prev : option Z) (s : text) : bool :=
  if matches r prev s (fun _ _ => true) then true
  else match s with c :: s => search_from r (Some c) s | [] => false end.

(** [re.search(r, s) is not None] *)
Definition search (r : re) (s : text) : bool := search_from r None s.

(** ** Writing patterns *)

Definition any : Z -> bool := fun _ => true.
(** [.] without [re.DOTALL] *)
Definition dot : Z -> bool := fun c => negb (c =? 10).
Definition one_char (cs : text) : Z -> bool := fun c => existsb (Z.eqb c) cs.
Definition alnum (c : Z) : bool := ascii_letter c || ascii_digit c.
Definition upper (c : Z) : bool := (65 <=? c) && (c <=? 90).

Fixpoint sequence (rs : list re) : re := match rs with [] => Eps | [r] => r | r :: rs => Then r (sequence rs) end.
Fixpoint either (rs : list re) : re := match rs with [] => Chr (fun _ => false) | [r] => r | r :: rs => Or r (either rs) end.

Definition word (w : text) : re := sequence ((fun c => Chr (Z.eqb c)) <$> w).
Definition word_i (w : text) : re := sequence ((fun c => Chr (re_same c)) <$> w).
(** A class of ASCII characters under [re.IGNORECASE]. *)
Definition class_i (cs : text) : Z -> bool := fun c => existsb (re_same c) cs.
Definition optional (r : re) : re := Times 0 1 r.

(** [p{n,}] *)
Definition at_least (n : nat) (p : Z -> bool) : re := Then (Times n 0 (Chr p)) (Many p).
End matching.

(** ** What a match is *)

(** The character before what follows [t]. *)
Definition after (prev : option Z) (t : text) : option Z := if decide (t = []) then prev else last t.

Lemma after_cons prev c t : after prev (c :: t) = after (Some c) t.
Proof. unfold after. rewrite decide_False by done. case_decide; [by subst|]. by destruct t. Qed.

Lemma after_app prev t u : after prev (t ++ u) = after (after prev t) u.
Proof. revert prev. induction t as [|c t IH]; intros prev; [done|]. by rewrite <- app_comm_cons, !after_cons. Qed.

Section spec.
Context `{PyRe}.

(** [r] matches the text [t] between [prev] and [rest]. *)
Inductive spans : re -> option Z -> text -> text -> Prop :=
  | spans_eps prev rest : spans Eps prev [] rest
  | spans_chr p c prev rest : p c = true -> spans (Chr p) prev [c] rest
  | spans_many p t prev rest : Forall (fun c => p c = true) t -> spans (Many p) prev t rest
  | spans_then a b t u prev rest :
      spans a prev t (u ++ rest) -> spans b (after prev t) u rest -> spans (Then a b) prev (t ++ u) rest
  | spans_left a b t prev rest : spans a prev t rest -> spans (Or a b) prev t rest
  | spans_right a b t prev rest : spans b prev t rest -> spans (Or a b) prev t rest
  | spans_boundary prev rest : word_at prev <> word_at (head rest) -> spans Boundary prev [] rest
  | spans_stop more a prev rest : spans (Times 0 more a) prev [] rest
  | spans_more more a t u prev rest :
      spans a prev t (u ++ rest) -> spans (Times 0 more a) (after prev t) u rest -> spans (Times 0 (S more) a) prev (t ++ u) rest
  | spans_first least more a t u prev rest :
      spans a prev t (u ++ rest) -> spans (Times least more a) (after prev t) u rest ->
      spans (Times (S least) more a) prev (t ++ u) rest.

(** Some match of [r] at the start of [s] leaves what [k] accepts. *)
Definition some_match (r : re) (prev : option Z) (s : text) (k : option Z -> text -> bool) : Prop :=
  exists t rest, s = t ++ rest /\ spans r prev t rest /\ k (after prev t) rest = true.

Lemma many_spec (p : Z -> bool) (k : option Z -> text -> bool) s : forall prev,
  (fix many (prev : option Z) (s : text) : bool :=
    if k prev s then true else match s with c :: s => if p c then many (Some c) s else false | [] => false end) prev s = true <->
  some_match (Many p) prev s k.
Proof.
  induction s as [|c s IH]; intros prev.
  - split.
    + intros Hk. exists [], []. split_and!; [done|apply spans_many, Forall_nil_2|unfold after; simpl; by destruct (k prev [])].
    + intros (t & rest & [-> ->]%eq_sym%app_nil & _ & Hk). unfold after in Hk. simpl in Hk. by rewrite Hk.
  - split.
    + destruct (k prev (c :: s)) eqn:Hk; [intros _; exists [], (c :: s); split_and!; [done|apply spans_many, Forall_nil_2|done]|].
      destruct (p c) eqn:Hp; [|done]. intros (t & rest & -> & Ht & Hk')%IH. exists (c :: t), rest.
      split_and!; [done| |by rewrite after_cons]. constructor. constructor; [done|]. by inversion Ht.
    + intros (t & rest & Heq & Ht & Hk). destruct (k prev (c :: s)) eqn:Hks; [done|]. destruct t as [|c' t].
      { simpl in Heq. subst rest. unfold after in Hk. simpl in Hk. congruence. }
      injection Heq as <- ->. inversion Ht as [| |p' t' pr re Hall| | | | | | |]; subst. apply Forall_cons in Hall as [-> Hall].
      apply IH. exists t, rest. split_and!; [done|by apply spans_many|by rewrite <- (after_cons prev)].
Qed.

Lemma times_spec a (IHa : forall prev s k, matches a prev s k = true <-> some_match a prev s k) (k : option Z -> text -> bool) least more : forall prev s,
  matches (Times least more a) prev s k = true <-> some_match (Times least more a) prev s k.
Proof.
  induction least as [|least IH]; intros prev s.
  - revert prev s. induction more as [|more IHm]; intros prev s; simpl.
    + split.
      * intros Hk. exists [], s. split_and!; [done|constructor|unfold after; simpl; by destruct (k prev s)].
      * intros (t & rest & -> & Ht & Hk). inversion Ht; subst. simpl. unfold after in Hk. simpl in Hk. by rewrite Hk.
    + split.
      * destruct (k prev s) eqn:Hk; [intros _; exists [], s; split_and!; [done|constructor|done]|].
        intros (t & rest & -> & Ha & (u & rest' & -> & Hr & Hk')%IHm)%IHa. exists (t ++ u), rest'.
        split_and!; [by rewrite app_assoc|by constructor|by rewrite after_app].
      * intros (t & rest & -> & Ht & Hk). destruct (k prev (t ++ rest)) eqn:Hks; [done|].
        inversion Ht; subst; [by unfold after in Hk; simpl in *; congruence|]. rewrite <- app_assoc. apply IHa.
        eexists _, _. split_and!; [done|done|]. apply IHm. eexists _, _. split_and!; [done|done|by rewrite <- after_app].
  - simpl. split.
    + intros (t & rest & -> & Ha & (u & rest' & -> & Hr & Hk')%IH)%IHa. exists (t ++ u), rest'.
      split_and!; [by rewrite app_assoc|by constructor|by rewrite after_app].
    + intros (t & rest & -> & Ht & Hk). inversion Ht; subst. rewrite <- app_assoc. apply IHa.
      eexists _, _. split_and!; [done|done|]. apply IH. eexists _, _. split_and!; [done|done|by rewrite <- after_app].
Qed.

Lemma matches_spec r : forall prev s k, matches r prev s k = true <-> some_match r prev s k.
Proof.
  induction r as [|p|p|a IHa b IHb|a IHa b IHb| |least more a IHa]; intros prev s k.
  - simpl. split; [intros Hk; exists [], s; by split_and!; [|constructor|]|]. intros (t & rest & -> & Hs & Hk). by inversion Hs; subst.
  - simpl. split.
    + destruct s as [|c s]; [done|]. destruct (p c) eqn:Hp; [|done]. intros Hk. exists [c], s. by split_and!; [|constructor|].
    + intros (t & rest & -> & Hs & Hk). inversion Hs as [|p' c pr re Hp| | | | | | | |]; subst. simpl. by rewrite Hp.
  - apply many_spec.
  - simpl. rewrite IHa. split.
    + intros (t & rest & -> & Ha & (u & rest' & -> & Hr & Hk')%IHb). exists (t ++ u), rest'.
      split_and!; [by rewrite app_assoc|by constructor|by rewrite after_app].
    + intros (t & rest & -> & Ht & Hk). inversion Ht; subst. rewrite <- app_assoc. eexists _, _. split_and!; [done|done|].
      apply IHb. eexists _, _. split_and!; [done|done|by rewrite <- after_app].
  - simpl. split.
    + destruct (matches a prev s k) eqn:E.
      * intros _. apply IHa in E as (t & rest & -> & Hs & Hk). exists t, rest. by split_and!; [|constructor|].
      * intros (t & rest & -> & Hs & Hk)%IHb. exists t, rest. by split_and!; [|constructor|].
    + intros (t & rest & -> & Hs & Hk). destruct (matches a prev (t ++ rest) k) eqn:E; [done|].
      inversion Hs; subst; [|apply IHb; by exists t, rest].
      assert (matches a prev (t ++ rest) k = true) by (apply IHa; by exists t, rest). congruence.
  - simpl. split.
    + destruct (xorb _ _) eqn:E; [|done]. intros Hk. exists [], s. split_and!; [done|constructor|done].
      by destruct (word_at prev), (word_at (head s)).
    + intros (t & rest & -> & Hs & Hk). inversion Hs; subst. simpl. by destruct (word_at prev), (word_at (head rest)).
  - by apply times_spec.
Qed.

(** A search finds a match exactly when some part of the text is one. *)
Lemma search_spec r s : search r s = true <-> exists before t rest, s = before ++ t ++ rest /\ spans r (last before) t rest.
Proof.
  unfold search.
  assert (Hf : forall prev, search_from r prev s = true <-> exists before t rest, s = before ++ t ++ rest /\ spans r (after prev before) t rest).
  { induction s as [|c s IH]; intros prev; simpl.
    - split.
      + intros Hs. assert (matches r prev [] (fun _ _ => true) = true) as (t & rest & Heq & Ht & _)%matches_spec by by case_match.
        by exists [], t, rest.
      + intros (b & t & rest & [-> [-> ->]%app_nil]%eq_sym%app_nil & Ht).
        assert (matches r prev [] (fun _ _ => true) = true) as ->; [|done]. apply matches_spec. by exists [], [].
    - split.
      + destruct (matches r prev (c :: s) _) eqn:E.
        * intros _. apply matches_spec in E as (t & rest & Heq & Ht & _). by exists [], t, rest.
        * intros (b & t & rest & -> & Ht)%IH. exists (c :: b), t, rest. by rewrite after_cons.
      + intros (b & t & rest & Heq & Ht). destruct (matches r prev (c :: s) _) eqn:E; [done|]. destruct b as [|c' b].
        * assert (matches r prev (c :: s) (fun _ _ => true) = true); [|congruence]. apply matches_spec. by exists t, rest.
        * injection Heq as <- ->. apply IH. exists b, t, rest. by rewrite after_cons in Ht. }
  rewrite Hf. split; intros (b & t & rest & -> & Ht); exists b, t, rest; (split; [done|]); by destruct b.
Qed.
End spec.
