(* ===== verification/Memories.v ===== *)
(** * A person's memories

    [user_memory_service.py], the normal forms of [text_normalize.py], and
    [apply_memory_operations] of [memory_extraction_service.py]: memories are
    created, changed, evicted, deleted and suppressed, one at a time or as an
    extractor's answer says.

    One [Draw] holds what an operation meets from outside: the clock, the uuid it
    draws, what the embedding model and the vector store answer, and what other
    transactions commit between its last read and its insert.  A call of
    [utcnow()] within one operation reads one instant.  The vector store keeps no
    state here; a memory's [embedding_status] says what it was told. *)

From S2P Require Import Prelude Text Json PyText Outbox MemoryJobs ChatHistory.
From Stdlib Require Import QArith Qminmax.
#[local] Open Scope Z_scope.

(** [unicodedata.normalize("NFC", s)] *)
Class PyNFC := { nfc : text -> text }.

(** ** Normal forms *)

Definition MAX_MEMORY_CHARS : nat := 500.
Definition MAX_MEMORIES_PER_USER : Z := 200.
Definition MAX_OPS : nat := 5.

Definition MEMORY_CATEGORIES : list text := of_string <$>
  ["identity"; "preference"; "health"; "work"; "family"; "goal"; "constraint"; "schedule"; "financial"; "plan"; "other"]%string.

Definition MemoryValidationError (message : string) : exn := OtherError ("MemoryValidationError: " +:+ message).
Definition MemoryNotFoundError : exn := LookupError "Memory not found".

(** [_CONTROL_RE]: control characters other than tab, newline and carriage return. *)
Definition is_control (c : Z) : bool :=
  ((0 <=? c) && (c <=? 8)) || (c =? 11) || (c =? 12) || ((14 <=? c) && (c <=? 31)) || (c =? 127).

Definition remove_controls (s : text) : text := filter (fun c => is_control c = false) s.

Section normal_forms.
Context `{PyStr}.

(** [_WHITESPACE_RE.sub(" ", s)]; [inside] says that a run of white space is open. *)
Fixpoint collapse (inside : bool) (s : text) : text :=
  match s with
  | [] => []
  | c :: s => if py_isspace c then (if inside then collapse true s else 32 :: collapse true s) else c :: collapse false s
  end.

Definition normalize_memory_content (content : text) : res text :=
  let cleaned := strip (collapse false (remove_controls content)) in
  if bool_decide (cleaned = []) then Raise (MemoryValidationError "Memory content is required")
  else if bool_decide (MAX_MEMORY_CHARS < length cleaned)%nat then Raise (MemoryValidationError "Memory content exceeds 500 characters")
  else Ok cleaned.

(** [_ARABIC_INDIC_TRANS] *)
Definition fold_letter (c : Z) : Z :=
  if (1776 <=? c) && (c <=? 1785) then c - 1776 + 48
  else if (1632 <=? c) && (c <=? 1641) then c - 1632 + 48
  else if (c =? 1610) || (c =? 1609) then 1740
  else if c =? 1603 then 1705
  else c.

(** The joiners: the zero-width non-joiner becomes a space, the joiner nothing. *)
Definition drop_joiners (s : text) : text :=
  filter (fun c => c <> 8205) ((fun c => if c =? 8204 then 32 else c) <$> s).

Context `{PyNFC}.

Definition normalize_memory_text (s : text) : text :=
  strip (collapse false (drop_joiners (fold_letter <$> remove_controls (nfc s)))).

(** [s.encode("utf-8")]; a lone surrogate has no encoding. *)
Definition encode_utf8 (s : text) : res (list Z) :=
  if existsb (fun c => (55296 <=? c) && (c <=? 57343)) s then Raise (OtherError "UnicodeEncodeError") else Ok (utf8 s).

Definition memory_content_hash (content : text) : res text :=
  normalized ← normalize_memory_content content;
  encoded ← encode_utf8 (normalize_memory_text normalized);
  mret (sha256_hexdigest encoded).
End normal_forms.

(** ** Tables ([chat.py]) *)

Record Memory := MkMemory {
  mm_user : Z; mm_content : text; mm_enabled : bool; mm_origin : string; mm_category : text; mm_sensitivity : text;
  mm_confidence : Q; mm_salience : Q; mm_expires : option Z; mm_last_used : option Z; mm_source_session : option string;
  mm_source_message : option string; mm_supersedes : option string; mm_status : string; mm_deleted : option Z;
  mm_hash : text; mm_created : Z; mm_updated : Z
}.

Record Suppression := MkSuppression { sp_user : Z; sp_hash : text; sp_expires : option Z; sp_created : Z }.

Record MemoryEvent := MkMemoryEvent {
  me_user : Z; me_memory : option string; me_type : string; me_actor : string; me_session : option string;
  me_detail : json; me_at : Z
}.

(** The tables these services write. *)
Record Store := MkStore {
  memories : table Memory; suppressions : table Suppression; events : list MemoryEvent;
  extraction_jobs : table (MemoryJob Z); outbox_events : table OutboxEvent
}.

Definition set_memories (f : table Memory -> table Memory) (s : Store) : Store :=
  MkStore (f (memories s)) (suppressions s) (events s) (extraction_jobs s) (outbox_events s).
Definition set_suppressions (f : table Suppression -> table Suppression) (s : Store) : Store :=
  MkStore (memories s) (f (suppressions s)) (events s) (extraction_jobs s) (outbox_events s).
Definition add_event (e : MemoryEvent) (s : Store) : Store :=
  MkStore (memories s) (suppressions s) (events s ++ [e]) (extraction_jobs s) (outbox_events s).

#[export] Instance store_jobs : HasTable Store (MemoryJob Z) := {|
  rows := extraction_jobs;
  set_rows t s := MkStore (memories s) (suppressions s) (events s) t (outbox_events s);
  rows_set _ _ := eq_refl; set_rows_set _ _ _ := eq_refl; set_rows_rows s := match s with MkStore _ _ _ _ _ => eq_refl end |}.

#[export] Instance store_outbox : HasTable Store OutboxEvent := {|
  rows := outbox_events;
  set_rows t s := MkStore (memories s) (suppressions s) (events s) (extraction_jobs s) t;
  rows_set _ _ := eq_refl; set_rows_set _ _ _ := eq_refl; set_rows_rows s := match s with MkStore _ _ _ _ _ => eq_refl end |}.

(** [enabled], [deleted_at] and [updated_at] of a row, the rest kept. *)
Definition mm_live (m : Memory) (enabled : bool) (deleted : option Z) (updated : Z) : Memory :=
  MkMemory (mm_user m) (mm_content m) enabled (mm_origin m) (mm_category m) (mm_sensitivity m) (mm_confidence m)
    (mm_salience m) (mm_expires m) (mm_last_used m) (mm_source_session m) (mm_source_message m) (mm_supersedes m)
    (mm_status m) deleted (mm_hash m) (mm_created m) updated.

(** A new text: its hash with it, and its vector to be made again. *)
Definition mm_text (m : Memory) (content hash : text) : Memory :=
  MkMemory (mm_user m) content (mm_enabled m) (mm_origin m) (mm_category m) (mm_sensitivity m) (mm_confidence m)
    (mm_salience m) (mm_expires m) (mm_last_used m) (mm_source_session m) (mm_source_message m) (mm_supersedes m)
    "pending" (mm_deleted m) hash (mm_created m) (mm_updated m).

(** What an extractor says of a memory. *)
Definition mm_rated (m : Memory) (category sensitivity : text) (confidence salience : Q) (expires : option Z) (status : string)
    : Memory :=
  MkMemory (mm_user m) (mm_content m) (mm_enabled m) (mm_origin m) category sensitivity confidence salience expires
    (mm_last_used m) (mm_source_session m) (mm_source_message m) (mm_supersedes m) status (mm_deleted m) (mm_hash m)
    (mm_created m) (mm_updated m).

Definition mm_with_status (m : Memory) (status : string) : Memory :=
  mm_rated m (mm_category m) (mm_sensitivity m) (mm_confidence m) (mm_salience m) (mm_expires m) status.

(** ** What an operation meets *)

(** An answer of the embedding model and the vector store. *)
Inductive vector_answer := VUnavailable | VStored | VFailed.

Record Draw := MkDraw {
  d_now : Z;
  d_id : string;
  d_suppressed : bool;           (* a hit among the suppressed texts *)
  d_near : list string;          (* the points near the text, nearest first *)
  d_index : vector_answer;
  d_sync : string -> vector_answer;
  d_race : Store -> Store
}.

Section service.
Context `{PyStr} `{PyNFC} `{PyInt} `{PyRepr}.
Implicit Types (s : Store) (d : Draw) (settings : list (text * json)) (sessions : table ChatSession).

Definition record_memory_event (user : Z) (event_type actor : string) (memory session : option string) (detail : json) (now : Z)
    : op Store unit :=
  modify (add_event (MkMemoryEvent user memory (String.substring 0 32 event_type)
    (String.substring 0 16 (if decide (actor = ""%string) then "system"%string else actor)) session detail now)).

Definition detail_of (fields : list (string * string)) : json := JObj ((fun kv => (of_string kv.1, JStr (of_string kv.2))) <$> fields).

(** [_alive_filter] *)
Definition alive (m : Memory) : bool := match mm_deleted m with None => true | Some _ => false end.

Definition owned_by (user : Z) (m : Memory) : bool := mm_user m =? user.

Definition user_memories (user : Z) (f : Memory -> bool) s : list (string * Memory) :=
  filter (fun kv => owned_by user kv.2 && f kv.2 = true) (map_to_list (memories s)).

Definition _count_alive (user : Z) s : Z := Z.of_nat (length (user_memories user alive s)).

Definition by_hash (user : Z) (digest : text) s : option (string * Memory) :=
  head (user_memories user (fun m => bool_decide (mm_hash m = digest)) s).

(** The unique index on [(user_id, content_hash)]. *)
Definition hash_free (id : string) (m : Memory) s : bool :=
  bool_decide (filter (fun kv => kv.1 <> id) (user_memories (mm_user m) (fun x => bool_decide (mm_hash x = mm_hash m)) s) = []).

(** [flush()] of a new or changed memory. *)
Definition put_memory (id : string) (m : Memory) : op Store unit := fun s =>
  if hash_free id m s then (Ok tt, set_memories <[id := m]> s) else (Raise (OtherError "IntegrityError"), s).

(** [flush()] of columns without a constraint. *)
Definition alter_memory (id : string) (f : Memory -> Memory) : op Store unit := modify (set_memories (alter f id)).

(** [flush()] of a new row under a savepoint that a violated constraint undoes. *)
Definition insert_memory (id : string) (m : Memory) : op Store bool := fun s =>
  match memories s !! id with
  | Some _ => (Ok false, s)
  | None => match put_memory id m s with (Ok _, s') => (Ok true, s') | (Raise _, _) => (Ok false, s) end
  end.

(** ** Vectors *)

(** The enabled flag sent with an indexed memory's vector: when that fails the
    vector is deleted and made again later. *)
Definition synced (answer : vector_answer) (m : Memory) : Memory :=
  if decide (mm_status m = "indexed"%string) then match answer with VFailed => mm_with_status m "pending" | _ => m end else m.

Definition _sync_vector_enabled (id : string) (answer : vector_answer) : op Store unit := alter_memory id (synced answer).

Definition _index_memory_vector (id : string) (answer : vector_answer) : op Store unit :=
  alter_memory id (fun m =>
    match answer with VUnavailable => m | VStored => mm_with_status m "indexed" | VFailed => mm_with_status m "failed" end).

(** ** Eviction *)

(** ORDER BY salience ASC, last_used_at ASC NULLS FIRST, created_at ASC *)
Definition evict_le (a b : string * Memory) : Prop :=
  match Qcompare (mm_salience a.2) (mm_salience b.2) with
  | Lt => True
  | Gt => False
  | Eq =>
      match mm_last_used a.2, mm_last_used b.2 with
      | None, Some _ => True
      | Some _, None => False
      | None, None => mm_created a.2 <= mm_created b.2
      | Some x, Some y => x < y \/ (x = y /\ mm_created a.2 <= mm_created b.2)
      end
  end.

#[export] Instance evict_le_dec : RelDecision evict_le.
Proof. intros a b. unfold evict_le. repeat case_match; apply _. Defined.

(** The rows that eviction marks. *)
Definition lowest (user : Z) (overflow : nat) s : list (string * Memory) :=
  take overflow (merge_sort evict_le (user_memories user alive s)).

Definition evict_one (user : Z) (actor : string) d (kv : string * Memory) : op Store unit :=
  _ ← alter_memory kv.1 (fun m => mm_live m false (Some (d_now d)) (d_now d));
  _ ← record_memory_event user "purged" actor (Some kv.1) None (detail_of [("reason", "evicted")]%string) (d_now d);
  _sync_vector_enabled kv.1 (d_sync d kv.1).

Definition evict_lowest_memories (user : Z) (keep_limit : Z) (actor : string) d : op Store nat :=
  count ← gets (_count_alive user);
  let overflow := count - keep_limit in
  if overflow <=? 0 then mret 0%nat
  else
    doomed ← gets (lowest user (Z.to_nat overflow));
    _ ← for_each (evict_one user actor d) doomed;
    mret (length doomed).

(** ** Creating *)

(** [max(0.0, min(1.0, x))] *)
Definition clamp01 (x : Q) : Q :=
  let y := if Qle_bool 1 x then 1%Q else x in
  if Qle_bool y 0 then 0%Q else y.

(** [str(id).strip()]; ids are ASCII. *)
Definition stripped_id (id : string) : string := key_of (strip (of_string id)).

Definition _resolve_source_session_id sessions (user : Z) (source : option string) : res (option string) :=
  match stripped_id <$> source with
  | None | Some "" => Ok None
  | Some id =>
      match sessions !! id with
      | None => Ok None
      | Some session =>
          if negb (cs_user_id session =? user) then Ok None
          else if private_mode session then Raise (MemoryValidationError "Cannot attach memory to a private session")
          else Ok (Some id)
      end
  end.

(** [(value or default).strip().lower()], kept when it is one of [allowed]. *)
Definition one_of (allowed : list text) (default value : text) : text :=
  let t := py_lower (strip (match value with [] => default | _ => value end)) in
  if decide (t ∈ allowed) then t else default.

Definition SENSITIVITIES : list text := of_string <$> ["normal"; "sensitive"]%string.

(** The payload [create_memory] answers is that of the memory whose id is given. *)
Definition create_memory settings sessions (user : Z) (content : text) (source_session source_message : option string)
    (origin : string) (category sensitivity : text) (confidence salience : Q) (expires : option Z)
    (supersedes : option string) (actor : string) d : op Store (string * bool) :=
  normalized ← lift (normalize_memory_content content);
  digest ← lift (memory_content_hash normalized);
  existing ← gets (by_hash user digest);
  match existing with
  | Some (id, m) =>
      _ ← (if alive m then mret tt else alter_memory id (fun m => mm_live m true None (d_now d)));
      mret (id, false)
  | None =>
      cap ← lift (int_or MAX_MEMORIES_PER_USER (field (of_string "max_per_user") settings));
      count ← gets (_count_alive user);
      _ ← (if cap <=? count then n ← evict_lowest_memories user (cap - 1) actor d; mret tt else mret tt);
      source ← lift (_resolve_source_session_id sessions user source_session);
      let m := MkMemory user normalized true (String.substring 0 16 (if decide (origin = ""%string) then "auto"%string else origin))
        (one_of MEMORY_CATEGORIES (of_string "other") category) (one_of SENSITIVITIES (of_string "normal") sensitivity)
        (clamp01 confidence) (clamp01 salience) expires None source source_message supersedes "pending" None digest
        (d_now d) (d_now d) in
      _ ← modify (d_race d);
      inserted ← insert_memory (d_id d) m;
      if inserted : bool then
        _ ← record_memory_event user "created" actor (Some (d_id d)) source
              (JObj [(of_string "origin", JStr (of_string (mm_origin m))); (of_string "category", JStr (mm_category m))]) (d_now d);
        mret (d_id d, true)
      else
        raced ← gets (by_hash user digest);
        match raced with
        | Some (id, _) => mret (id, false)
        | None => raise (OtherError "IntegrityError")
        end
  end.

(** ** Changing *)

Definition _get_owned_memory (user : Z) (id : string) : op Store Memory := fun s =>
  match memories s !! id with
  | Some m => if owned_by user m && alive m then (Ok m, s) else (Raise MemoryNotFoundError, s)
  | None => (Raise MemoryNotFoundError, s)
  end.

(** The text of a memory, unless it reads the same; [true] when it changed. *)
Definition update_content (user : Z) (id : string) (m : Memory) (content : text) : op Store bool :=
  normalized ← lift (normalize_memory_content content);
  digest ← lift (memory_content_hash normalized);
  if decide (digest = mm_hash m) then mret false
  else
    conflicts ← gets (fun s => filter (fun kv => kv.1 <> id) (user_memories user (fun x => bool_decide (mm_hash x = digest)) s));
    match conflicts with
    | _ :: _ => raise (MemoryValidationError "Another memory with the same content already exists")
    | [] => _ ← put_memory id (mm_text m normalized digest); mret true
    end.

Definition update_enabled (user : Z) (id : string) (m : Memory) (enabled : bool) (actor : string) d : op Store bool :=
  if decide (enabled = mm_enabled m) then mret false
  else
    _ ← alter_memory id (fun m => mm_live m enabled (mm_deleted m) (mm_updated m));
    _ ← record_memory_event user (if enabled then "enabled" else "disabled") actor (Some id) None (JObj []) (d_now d);
    _ ← _sync_vector_enabled id (d_sync d id);
    mret true.

Definition update_memory (user : Z) (id : string) (content : option text) (enabled : option bool) (actor : string) d : op Store unit :=
  m ← _get_owned_memory user id;
  changed ← match content with Some content => update_content user id m content | None => mret false end;
  switched ← match enabled with Some enabled => update_enabled user id m enabled actor d | None => mret false end;
  if changed || switched then alter_memory id (fun m => mm_live m (mm_enabled m) (mm_deleted m) (d_now d)) else mret tt.

(** ** Deleting *)

(** Rows deleted: what refers to them is set to NULL by its foreign key. *)
Definition drop_memories (gone : string -> bool) s : Store :=
  let cleared (r : option string) := match r with Some id => if gone id then None else Some id | None => None end in
  MkStore
    ((fun m => MkMemory (mm_user m) (mm_content m) (mm_enabled m) (mm_origin m) (mm_category m) (mm_sensitivity m)
        (mm_confidence m) (mm_salience m) (mm_expires m) (mm_last_used m) (mm_source_session m) (mm_source_message m)
        (cleared (mm_supersedes m)) (mm_status m) (mm_deleted m) (mm_hash m) (mm_created m) (mm_updated m))
      <$> filter (fun kv => gone kv.1 = false) (memories s))
    (suppressions s)
    ((fun e => MkMemoryEvent (me_user e) (cleared (me_memory e)) (me_type e) (me_actor e) (me_session e) (me_detail e) (me_at e))
      <$> events s)
    (extraction_jobs s) (outbox_events s).

Definition suppression_of (user : Z) (digest : text) s : list (string * Suppression) :=
  filter (fun kv => (sp_user kv.2 =? user) && bool_decide (sp_hash kv.2 = digest) = true) (map_to_list (suppressions s)).

Definition _add_suppression settings (user : Z) (digest : text) (new_id : string) (now : Z) : op Store unit :=
  count ← lift (int_or 180 (field (of_string "suppression_days") settings));
  let expires := now + days count in
  existing ← gets (suppression_of user digest);
  match existing with
  | [] => modify (set_suppressions <[new_id := MkSuppression user digest (Some expires) now]>)
  | (id, sp) :: _ => modify (set_suppressions <[id := MkSuppression (sp_user sp) (sp_hash sp) (Some expires) (sp_created sp)]>)
  end.

Definition delete_memory settings (user : Z) (id : string) (actor : string) (suppression_id : string) (now : Z) : op Store unit :=
  m ← _get_owned_memory user id;
  _ ← record_memory_event user "deleted" actor (Some id) (mm_source_session m) (JObj []) now;
  _ ← modify (drop_memories (fun x => bool_decide (x = id)));
  _add_suppression settings user (mm_hash m) suppression_id now.

(** An error of the watermarks' reset is logged and swallowed.  Chats are also
    taken out of recall, whose tables are not these. *)
Definition delete_all_memories `{LocalTime} `{Settings} sessions (messages : list (string * Z)) (new_id : string -> string) (user : Z)
    (actor : string) (now : Z) : op Store nat :=
  _ ← (fun s => (Ok tt, (User.reset_watermarks_for_user user sessions messages new_id now s).2));
  removed ← gets (fun s => length (user_memories user (fun _ => true) s));
  _ ← modify (fun s => drop_memories (fun x => bool_decide (x ∈ (user_memories user (fun _ => true) s).*1)) s);
  _ ← record_memory_event user "purged" actor None None
        (JObj [(of_string "deleted", JInt (Z.of_nat removed)); (of_string "scope", JStr (of_string "all"))]) now;
  mret removed.

Definition in_force (now : Z) (sp : Suppression) : bool :=
  match sp_expires sp with None => true | Some t => now <? t end.

Definition is_hash_suppressed (user : Z) (digest : text) (now : Z) s : bool :=
  existsb (fun kv => in_force now kv.2) (suppression_of user digest s).

(** ** What an extractor proposes *)

Record MemoryOperation := MkOperation {
  mo_op : text; mo_content : text; mo_category : text; mo_sensitivity : text; mo_confidence : Q; mo_salience : Q;
  mo_ttl_days : option Z; mo_target : option text
}.

Definition PLAN : text := of_string "plan".

Definition _as_plan settings (o : MemoryOperation) : res (option MemoryOperation) :=
  if negb (bool_decide (mo_category o = PLAN)) then Ok (Some o)
  else if negb (flag "plan_memory_enabled" settings) then Ok None
  else match mo_ttl_days o with
  | Some _ => Ok (Some o)
  | None =>
      ttl ← int_or 90 (field (of_string "plan_ttl_days") settings);
      mret (Some (MkOperation (mo_op o) (mo_content o) (mo_category o) (mo_sensitivity o) (mo_confidence o) (mo_salience o)
        (Some ttl) (mo_target o)))
  end.

(** [max(float(old or 0), new)] *)
Definition raised (old new : Q) : Q := if Qle_bool new old then old else new.

Definition _renew_plan (id : string) (o : MemoryOperation) (expires : option Z) : op Store unit :=
  match expires with
  | Some _ => if decide (mo_category o = PLAN) then
      alter_memory id (fun m => if decide (mm_category m = PLAN) then
        mm_rated m (mm_category m) (mm_sensitivity m) (mm_confidence m) (mm_salience m) expires (mm_status m) else m)
      else mret tt
  | None => mret tt
  end.

(** The first of the near points that is a live memory of the person. *)
Definition _semantic_near_dupe (user : Z) (hits : list string) s : option string :=
  head (filter (fun id => match memories s !! id with Some m => owned_by user m && alive m | None => false end = true) hits).

(** The first and the last instant a [datetime] can hold. *)
Definition datetime_min : Z := -62135596800000000.
Definition datetime_max : Z := 253402300799999999.

(** [now + timedelta(days=ttl)] *)
Definition expiry (now : Z) (ttl : option Z) : res (option Z) :=
  match ttl with
  | None | Some 0 => Ok None
  | Some ttl =>
      if (datetime_min <=? now + days ttl) && (now + days ttl <=? datetime_max) then Ok (Some (now + days ttl))
      else Raise (OtherError "OverflowError")
  end.

Inductive outcome := Skipped | Added (id : string) | Updated (id : string) | Superseded (id : string).

(** The memory an operation names, when it is a live one of the person. *)
Definition target_of (user : Z) (o : MemoryOperation) s : option (string * Memory) :=
  match mo_target o with
  | None => None
  | Some t => m ← memories s !! key_of t; if owned_by user m && alive m then Some (key_of t, m) else None
  end.

(** The errors [update_memory] raises of the classes [MemoryValidationError] and [MemoryNotFoundError]. *)
Definition memory_errors : list exn :=
  MemoryNotFoundError :: (MemoryValidationError <$> ["Another memory with the same content already exists";
    "Memory content is required"; "Memory content exceeds 500 characters"]%string).

Definition apply_update (user : Z) (target : string * Memory) (o : MemoryOperation) (expires : option Z) d : op Store outcome := fun s =>
  match update_memory user target.1 (Some (mo_content o)) None "system" d s with
  | (Raise e, s') =>
      if decide (e ∈ memory_errors) then (Ok Skipped, s') else (Raise e, s')
  | (Ok _, s') =>
      (_ ← alter_memory target.1 (fun m => mm_rated m (mo_category o) (mo_sensitivity o) (mo_confidence o)
             (raised (mm_salience m) (mo_salience o)) expires "pending");
       _ ← _index_memory_vector target.1 (d_index d);
       mret (Updated target.1)) s'
  end.

Definition apply_supersede settings sessions (user : Z) (session source_message : option string) (now : Z) (target : string * Memory)
    (o : MemoryOperation) (expires : option Z) d : op Store outcome :=
  _ ← alter_memory target.1 (fun m => mm_live m false (mm_deleted m) now);
  _ ← record_memory_event user "superseded" "system" (Some target.1) session (JObj []) (d_now d);
  '(id, created) ← create_memory settings sessions user (mo_content o) session source_message "auto" (mo_category o) (mo_sensitivity o)
    (mo_confidence o) (mo_salience o) expires (Some target.1) "system" d;
  if created : bool then _ ← _index_memory_vector id (d_index d); mret (Superseded id) else mret Skipped.

Definition apply_add settings sessions (user : Z) (session source_message : option string) (now : Z) (o : MemoryOperation)
    (expires : option Z) d : op Store outcome :=
  near ← gets (_semantic_near_dupe user (d_near d));
  match near with
  | Some id =>
      _ ← alter_memory id (fun m => mm_live (mm_rated m (mm_category m) (mm_sensitivity m) (mm_confidence m)
            (raised (mm_salience m) (mo_salience o)) (mm_expires m) (mm_status m)) (mm_enabled m) (mm_deleted m) now);
      _ ← _renew_plan id o expires;
      mret (Updated id)
  | None =>
      '(id, created) ← create_memory settings sessions user (mo_content o) session source_message "auto" (mo_category o)
        (mo_sensitivity o) (mo_confidence o) (mo_salience o) expires None "system" d;
      if created : bool then _ ← _index_memory_vector id (d_index d); mret (Added id)
      else _ ← _renew_plan id o expires; mret Skipped
  end.

Definition gated (user : Z) (session : option string) (reason : list (string * string)) (now : Z) : op Store outcome :=
  _ ← record_memory_event user "purged" "system" None session (detail_of reason) now; mret Skipped.

(** The body of the loop of [apply_memory_operations]. *)
Definition apply_operation settings sessions (user : Z) (session source_message : option string) (allowed : list text) (now : Z)
    (proposed : MemoryOperation) d : op Store outcome :=
  planned ← lift (_as_plan settings proposed);
  match planned with
  | None => mret Skipped
  | Some o =>
      match memory_content_hash (mo_content o) with
      | Raise _ => mret Skipped
      | Ok digest =>
          suppressed ← gets (is_hash_suppressed user digest (d_now d));
          if suppressed : bool then gated user session [("reason", "suppressed_hash")]%string (d_now d)
          else if d_suppressed d then gated user session [("reason", "suppressed_semantic")]%string (d_now d)
          else if bool_decide (mo_sensitivity o = of_string "sensitive") && negb (bool_decide (mo_category o ∈ allowed)) then
            _ ← record_memory_event user "purged" "system" None session
                  (JObj [(of_string "reason", JStr (of_string "sensitivity_gate")); (of_string "category", JStr (mo_category o))]) (d_now d);
            mret Skipped
          else
            expires ← lift (expiry now (mo_ttl_days o));
            target ← gets (target_of user o);
            match target with
            | Some target =>
                if decide (mo_op o = of_string "update") then apply_update user target o expires d
                else if decide (mo_op o = of_string "supersede") then
                  apply_supersede settings sessions user session source_message now target o expires d
                else apply_add settings sessions user session source_message now o expires d
            | None => apply_add settings sessions user session source_message now o expires d
            end
      end
  end.

Record ApplyResult := MkApplyResult { added : nat; updated : nat; superseded : nat; skipped : nat; evicted : nat; memory_ids : list string }.

Definition counted (r : ApplyResult) (o : outcome) : ApplyResult :=
  match o with
  | Skipped => MkApplyResult (added r) (updated r) (superseded r) (S (skipped r)) (evicted r) (memory_ids r)
  | Added id => MkApplyResult (S (added r)) (updated r) (superseded r) (skipped r) (evicted r) (memory_ids r ++ [id])
  | Updated id => MkApplyResult (added r) (S (updated r)) (superseded r) (skipped r) (evicted r) (memory_ids r ++ [id])
  | Superseded id => MkApplyResult (added r) (updated r) (S (superseded r)) (skipped r) (evicted r) (memory_ids r ++ [id])
  end.

Definition allowed_sensitive settings : res (list text) :=
  match items_or_empty (field (of_string "allowed_sensitive_categories") settings) with
  | Ok items => Ok ((fun v => py_lower (py_str v)) <$> items)
  | Raise e => Raise e
  end.

(** [draws i] is what operation [i] meets, [last] what the final eviction does. *)
Definition apply_memory_operations settings sessions (user : Z) (session source_message : option string)
    (operations : list MemoryOperation) (draws : nat -> Draw) (last : Draw) (now : Z) : op Store ApplyResult :=
  allowed ← lift (allowed_sensitive settings);
  outcomes ← for_each (fun od => apply_operation settings sessions user session source_message allowed now od.1 od.2)
    (imap (fun i o => (o, draws i)) (take MAX_OPS operations));
  cap ← lift (int_or MAX_MEMORIES_PER_USER (field (of_string "max_per_user") settings));
  n ← evict_lowest_memories user cap "system" last;
  let r := foldl counted (MkApplyResult 0 0 0 0 0 []) outcomes in
  mret (MkApplyResult (added r) (updated r) (superseded r) (skipped r) n (memory_ids r)).
(** ** Upkeep ([memory_maintenance_service.py]) *)

Definition REINDEX_BATCH : nat := 500.

Definition mark_expired (now : Z) (kv : string * Memory) : op Store unit :=
  _ ← alter_memory kv.1 (fun m => mm_live m false (Some now) now);
  record_memory_event (mm_user kv.2) "expired" "system" (Some kv.1) None (JObj []) now.

Definition archive_stale (now : Z) (kv : string * Memory) : op Store unit :=
  _ ← alter_memory kv.1 (fun m => mm_live m false (mm_deleted m) now);
  record_memory_event (mm_user kv.2) "disabled" "system" (Some kv.1) None (detail_of [("reason", "stale_archive")]%string) now.

Definition at_most (t : option Z) (limit : Z) : bool := match t with Some t => t <=? limit | None => false end.

Definition memory_rows (f : Memory -> bool) s : list (string * Memory) :=
  filter (fun kv => f kv.2 = true) (map_to_list (memories s)).

(** The rows of [run_user_memory_maintenance] to expire, to archive and to purge. *)
Definition expired_rows (now : Z) : Store -> list (string * Memory) := memory_rows (fun m => alive m && at_most (mm_expires m) now).
Definition stale_rows (cutoff : Z) : Store -> list (string * Memory) :=
  memory_rows (fun m => alive m && mm_enabled m && at_most (mm_last_used m) cutoff).
Definition doomed_rows (cutoff : Z) : Store -> list (string * Memory) := memory_rows (fun m => at_most (mm_deleted m) cutoff).

(** ORDER BY updated_at DESC LIMIT REINDEX_BATCH *)
Definition pending_rows s : list (string * Memory) :=
  take REINDEX_BATCH (sort_by (fun kv => - mm_updated kv.2) (memory_rows (fun m => alive m &&
    bool_decide (mm_status m ∈ ["pending"; "failed"]%string)) s)).

Definition prune_events (cutoff : Z) s : Store :=
  MkStore (memories s) (suppressions s) (filter (fun e => negb (me_at e <? cutoff) = true) (events s)) (extraction_jobs s)
    (outbox_events s).

(** The people's part of [run_user_memory_maintenance], with its counts in the order
    of its report; [index] is what the vector store answers for each memory. *)
Definition run_user_memory_maintenance settings (index : string -> vector_answer) (now : Z) : op Store (list nat) :=
  expired ← gets (expired_rows now);
  _ ← for_each (mark_expired now) expired;
  stale_days ← lift (int_or 0 (field (of_string "stale_archive_days") settings));
  stale ← gets (if 0 <? stale_days then stale_rows (now - days stale_days) else fun _ => []);
  _ ← for_each (archive_stale now) stale;
  purge_days ← lift (int_or 30 (field (of_string "soft_delete_purge_days") settings));
  doomed ← gets (doomed_rows (now - days purge_days));
  _ ← for_each (fun kv => record_memory_event (mm_user kv.2) "purged" "system" (Some kv.1) None (JObj []) now) doomed;
  _ ← modify (drop_memories (fun id => bool_decide (id ∈ doomed.*1)));
  lapsed ← gets (fun s => length (filter (fun kv => in_force now kv.2 = false) (map_to_list (suppressions s))));
  _ ← modify (set_suppressions (filter (fun kv => in_force now kv.2 = true)));
  pending ← gets pending_rows;
  _ ← for_each (fun kv => _index_memory_vector kv.1 (index kv.1)) pending;
  pruned ← gets (fun s => (length (events s) - length (events (prune_events (now - days 365) s)))%nat);
  _ ← modify (prune_events (now - days 365));
  mret [length expired; length stale; length doomed; lapsed;
        length (filter (fun kv => match index kv.1 with VStored => true | _ => false end = true) pending); pruned].
End service.
