(* ===== verification/MemoriesFacts.v ===== *)
(** * Memories: normal forms, and what an operation may do

    A stored text is normal and keeps its hash.  [moves] are the rules of an
    operation that goes from state to state in steps of a relation; [touch] are
    the steps an extractor's operation takes, each on a row of its person, and
    [apply_operation_moves] that it takes no other.  What holds of every step
    then holds of every run. *)

From S2P Require Import Prelude Text Json PyText Outbox MemoryJobs ChatHistory Memories.
From Stdlib Require Import QArith Qminmax Lqa.
#[local] Open Scope Z_scope.

(** ** Normal forms are normal *)

Section normal.
Context `{PyStr}.

Lemma lstrip_suffix s : exists p, s = p ++ lstrip s.
Proof.
  induction s as [|c s [p IH]]; simpl; [by exists []|]. case_match; [exists (c :: p); simpl; by f_equal|by exists []].
Qed.

Lemma strip_infix s : exists p q, s = p ++ strip s ++ q.
Proof.
  destruct (lstrip_suffix s) as [p Hp]. destruct (lstrip_suffix (rev (lstrip s))) as [q Hq].
  exists p, (rev q). rewrite Hp at 1. f_equal. apply (f_equal (@rev Z)) in Hq. rewrite rev_involutive, rev_app_distr in Hq.
  exact Hq.
Qed.

Lemma lstrip_head s c t : lstrip s = c :: t -> py_isspace c = false.
Proof. induction s as [|d s IH]; simpl; [done|]. case_match; [done|by intros [= -> ->]]. Qed.

Lemma lstrip_id c s : py_isspace c = false -> lstrip (c :: s) = c :: s.
Proof. simpl. by intros ->. Qed.

(** A text with no white space at either end. *)
Definition trimmed (s : text) : Prop :=
  match s with [] => True | c :: _ => py_isspace c = false end /\
  match rev s with [] => True | c :: _ => py_isspace c = false end.

Lemma strip_trimmed s : trimmed (strip s).
Proof.
  unfold strip, trimmed. rewrite rev_involutive. split.
  - destruct (lstrip_suffix (rev (lstrip s))) as [q Hq]. destruct (lstrip s) as [|c t] eqn:Hl; [done|].
    apply (f_equal (@rev Z)) in Hq. rewrite rev_involutive, rev_app_distr in Hq.
    destruct (rev (lstrip (rev (c :: t)))) as [|d u]; [done|]. simpl in Hq. injection Hq as <- _. by apply lstrip_head in Hl.
  - destruct (lstrip (rev (lstrip s))) as [|c t] eqn:Hl; [done|]. by apply lstrip_head in Hl.
Qed.

Lemma strip_id s : trimmed s -> strip s = s.
Proof.
  intros [Hh Ht]. unfold strip. assert (lstrip s = s) as -> by (destruct s; [done|by apply lstrip_id]).
  assert (lstrip (rev s) = rev s) as -> by (destruct (rev s); [done|by apply lstrip_id]). apply rev_involutive.
Qed.

(** White space is single spaces, none of them right after another when [inside]. *)
Fixpoint single (inside : bool) (s : text) : Prop :=
  match s with
  | [] => True
  | c :: s => if py_isspace c then inside = false /\ c = 32 /\ single true s else single false s
  end.

Lemma single_weaken b s : single b s -> single false s.
Proof. destruct s as [|c s]; simpl; [done|]. case_match; [|done]. by intros (_ & -> & Hs). Qed.

Lemma single_collapse s b : single b (collapse b s).
Proof.
  revert b. induction s as [|c s IH]; intros b; simpl; [done|]. destruct (py_isspace c) eqn:Hc.
  - destruct b; [apply IH|]. simpl. destruct (py_isspace 32); [by split_and!|]. by eapply single_weaken.
  - simpl. by rewrite Hc.
Qed.

Lemma collapse_single s b : single b s -> collapse b s = s.
Proof.
  revert b. induction s as [|c s IH]; intros b; simpl; [done|]. destruct (py_isspace c).
  - intros (-> & -> & Hs). f_equal. by apply IH.
  - intros Hs. f_equal. by apply IH.
Qed.

Lemma single_app b s t : single b (s ++ t) -> single b s /\ single false t.
Proof.
  revert b. induction s as [|c s IH]; intros b; simpl; [intros Ht; split; [done|by eapply single_weaken]|].
  case_match; [intros (-> & -> & [Hs Ht]%IH); by split_and!|apply IH].
Qed.

Lemma collapse_chars s b c : c ∈ collapse b s -> c = 32 \/ c ∈ s.
Proof.
  revert b. induction s as [|d s IH]; intros b; simpl; [by intros ?%not_elem_of_nil|].
  repeat case_match; rewrite ?elem_of_cons; intros Hc; naive_solver.
Qed.

Lemma filter_id {A} (P : A -> Prop) `{!forall x, Decision (P x)} l : Forall P l -> filter P l = l.
Proof. apply filter_whole. Qed.

Lemma normal_form_ok s n :
  normalize_memory_content s = Ok n ->
  n = strip (collapse false (remove_controls s)) /\ n <> [] /\ (length n <= MAX_MEMORY_CHARS)%nat.
Proof.
  unfold normalize_memory_content. set (t := strip _). intros Hn. case_bool_decide; [done|].
  case_bool_decide; [done|]. apply Ok_inj in Hn as <-. split_and!; [done..|lia].
Qed.

Lemma normal_remove_controls s n : normalize_memory_content s = Ok n -> remove_controls n = n.
Proof.
  intros (-> & _)%normal_form_ok. apply filter_whole, Forall_forall. intros c Hc.
  destruct (strip_infix (collapse false (remove_controls s))) as (p & q & Heq).
  assert (c ∈ collapse false (remove_controls s)) as [->|Hin]%collapse_chars.
  { rewrite Heq. set_solver. }
  - done.
  - by apply list_elem_of_filter in Hin as [??].
Qed.

Lemma normalize_idempotent s n : normalize_memory_content s = Ok n -> normalize_memory_content n = Ok n.
Proof.
  intros Hn. pose proof (normal_remove_controls s n Hn) as Hc. apply normal_form_ok in Hn as (Heq & Hne & Hlen).
  unfold normalize_memory_content. rewrite Hc.
  assert (strip (collapse false n) = n) as ->.
  { rewrite collapse_single; [apply strip_id; rewrite Heq; apply strip_trimmed|].
    destruct (strip_infix (collapse false (remove_controls s))) as (p & q & Hi).
    pose proof (single_collapse (remove_controls s) false) as Hs. rewrite Hi in Hs.
    apply single_app in Hs as [_ Hs]. rewrite <- Heq in Hs. by apply single_app in Hs as [Hs _]. }
  rewrite bool_decide_false by done. rewrite bool_decide_false by lia. done.
Qed.

Context `{PyNFC}.

(** What a text and its stored form hash to is the same. *)
Lemma hash_normal s n : normalize_memory_content s = Ok n -> memory_content_hash n = memory_content_hash s.
Proof. intros Hn. unfold memory_content_hash. by rewrite (normalize_idempotent s n Hn), Hn. Qed.

Lemma hash_ok s h : memory_content_hash s = Ok h -> exists n, normalize_memory_content s = Ok n /\ memory_content_hash n = Ok h.
Proof.
  intros Hh. destruct (normalize_memory_content s) as [n|e] eqn:Hn; [|unfold memory_content_hash in Hh; by rewrite Hn in Hh].
  exists n. split; [done|]. by rewrite (hash_normal s n Hn).
Qed.
End normal.

(** ** What an operation may do to the tables *)

(** [m] goes from one state to another in steps of [R], and ends with [Q]. *)
Definition moves {S A} (R : S -> S -> Prop) (P : S -> Prop) (m : op S A) (Q : A -> S -> Prop) : Prop :=
  forall s, P s -> rtc R s (m s).2 /\ forall a s', m s = (Ok a, s') -> Q a s'.

Lemma moves_ret {S A} R P (a : A) (Q : A -> S -> Prop) : (forall s, P s -> Q a s) -> moves R P (mret a) Q.
Proof. intros HQ s Hs. split; [done|]. intros ? ? [= <- <-]. by apply HQ. Qed.

Lemma moves_raise {S A} R P e (Q : A -> S -> Prop) : moves R P (raise e) Q.
Proof. intros s Hs. split; [done|]. intros ? ? [=]. Qed.

Lemma moves_gets {S A} R P (f : S -> A) (Q : A -> S -> Prop) : (forall s, P s -> Q (f s) s) -> moves R P (gets f) Q.
Proof. intros HQ s Hs. split; [done|]. intros ? ? [= <- <-]. by apply HQ. Qed.

Lemma moves_lift {S A} R (P : S -> Prop) (r : res A) : moves R P (lift r) (fun a s => r = Ok a /\ P s).
Proof. intros s Hs. split; [done|]. by intros a s' [= -> <-]. Qed.

Lemma moves_bind {S A B} R P (m : op S A) (k : A -> op S B) Q1 (Q : B -> S -> Prop) :
  moves R P m Q1 -> (forall a, moves R (Q1 a) (k a) Q) -> moves R P (m ≫= k) Q.
Proof.
  intros Hm Hk s Hs. destruct (Hm s Hs) as [Hr Hq]. unfold mbind, op_bind. destruct (m s) as [[a|e] s1]; simpl in *.
  - destruct (Hk a s1) as [Hr' Hq']; [by apply Hq|]. split; [by etrans|done].
  - split; [done|]. intros ? ? [=].
Qed.

Lemma moves_weaken {S A} R (P P' : S -> Prop) (m : op S A) (Q Q' : A -> S -> Prop) :
  (forall s, P s -> P' s) -> (forall a s, Q' a s -> Q a s) -> moves R P' m Q' -> moves R P m Q.
Proof. intros HP HQ Hm s Hs. destruct (Hm s (HP s Hs)) as [Hr Hq]. split; [done|]. intros a s' Heq. by apply HQ, Hq. Qed.

Lemma moves_pure {S A} R (F : Prop) (P : S -> Prop) (m : op S A) (Q : A -> S -> Prop) :
  (F -> moves R P m Q) -> moves R (fun s => F /\ P s) m Q.
Proof. intros Hm s [HF Hs]. by apply Hm. Qed.

Lemma moves_for_each {S A B} R (I : S -> Prop) (body : A -> op S B) l :
  (forall a, a ∈ l -> moves R I (body a) (fun _ => I)) -> moves R I (for_each body l) (fun _ => I).
Proof.
  intros Hb. induction l as [|a l IH]; simpl; [by apply moves_ret|].
  eapply moves_bind; [apply Hb; set_solver|]. intros b.
  eapply moves_bind; [apply IH; set_solver|]. intros bs. by apply moves_ret.
Qed.

Definition in_unit (q : Q) : Prop := (0 <= q <= 1)%Q.

Record typed (m : Memory) : Prop := {
  ty_category : mm_category m ∈ MEMORY_CATEGORIES;
  ty_sensitivity : mm_sensitivity m ∈ SENSITIVITIES;
  ty_confidence : in_unit (mm_confidence m);
  ty_salience : in_unit (mm_salience m)
}.

Definition OPERATIONS : list text := of_string <$> ["add"; "update"; "supersede"]%string.

Record typed_operation (o : MemoryOperation) : Prop := {
  to_op : mo_op o ∈ OPERATIONS;
  to_category : mo_category o ∈ MEMORY_CATEGORIES;
  to_sensitivity : mo_sensitivity o ∈ SENSITIVITIES;
  to_confidence : in_unit (mo_confidence o);
  to_salience : in_unit (mo_salience o);
  to_ttl : forall n, mo_ttl_days o = Some n -> 0 < n
}.

(** ** Rows *)

Lemma user_memories_elem u f s id m : (id, m) ∈ user_memories u f s <-> memories s !! id = Some m /\ mm_user m = u /\ f m = true.
Proof.
  unfold user_memories, owned_by. rewrite list_elem_of_filter, elem_of_map_to_list, andb_true_iff, Z.eqb_eq. simpl. tauto.
Qed.

Lemma lowest_elem u n s id m : (id, m) ∈ lowest u n s -> memories s !! id = Some m /\ mm_user m = u /\ alive m = true.
Proof.
  unfold lowest. intros (i & Hin & _)%elem_of_take. apply list_elem_of_lookup_2 in Hin. rewrite merge_sort_Permutation in Hin. by apply user_memories_elem.
Qed.

Lemma by_hash_elem u h s id m : by_hash u h s = Some (id, m) -> memories s !! id = Some m /\ mm_user m = u /\ mm_hash m = h.
Proof.
  unfold by_hash. intros Hh%head_Some_elem_of%user_memories_elem. by rewrite bool_decide_eq_true in Hh.
Qed.

Section touch.
Context `{PyStr} `{PyNFC} `{PyInt} `{PyRepr}.
(** [user] is the person the call is for, [P] holds of the hashes of the texts it
    writes, [T] says that its operations are well typed, [other] is what other
    transactions may commit meanwhile. *)
Context (user : Z) (P : text -> Prop) (T : Prop) (other : Store -> Store -> Prop).

Inductive touch : Store -> Store -> Prop :=
  | touch_event e s : me_user e = user -> touch s (add_event e s)
  | touch_change id m m' s :
      memories s !! id = Some m -> mm_user m = user -> mm_user m' = user -> mm_hash m' = mm_hash m ->
      mm_content m' = mm_content m -> (T -> typed m -> typed m') -> touch s (set_memories <[id := m']> s)
  | touch_write id m s :
      (forall old, memories s !! id = Some old -> mm_user old = user) -> mm_user m = user -> P (mm_hash m) ->
      normalize_memory_content (mm_content m) = Ok (mm_content m) -> memory_content_hash (mm_content m) = Ok (mm_hash m) ->
      ((forall old, memories s !! id = Some old -> typed old) -> typed m) -> hash_free id m s = true ->
      touch s (set_memories <[id := m]> s)
  | touch_other s s' : other s s' -> touch s s'.

Definition owned (ids : list string) (s : Store) : Prop :=
  forall id m, id ∈ ids -> memories s !! id = Some m -> mm_user m = user.

Lemma touch_one s s' : touch s s' -> rtc touch s s'.
Proof. apply rtc_once. Qed.

Lemma owned_set ids id m s : mm_user m = user -> owned ids s -> owned ids (set_memories <[id := m]> s).
Proof.
  intros Hm Hs j x Hj. unfold set_memories; simpl. rewrite lookup_insert. case_decide; [|by apply Hs]. by intros [= <-].
Qed.

Lemma event_moves ids type actor memory session detail now :
  moves touch (owned ids) (record_memory_event user type actor memory session detail now) (fun _ => owned ids).
Proof. intros s Hs. split; [apply touch_one; by constructor|]. by intros ? ? [= <- <-]. Qed.

(** A change of columns that leaves the text and its owner. *)
Definition keeps (f : Memory -> Memory) : Prop := forall m,
  mm_user (f m) = mm_user m /\ mm_hash (f m) = mm_hash m /\ mm_content (f m) = mm_content m /\ (T -> typed m -> typed (f m)).

Lemma alter_moves ids id f : keeps f -> id ∈ ids -> moves touch (owned ids) (alter_memory id f) (fun _ => owned ids).
Proof.
  intros Hf Hid s Hs. unfold alter_memory, modify. simpl.
  assert (Heq : set_memories (alter f id) s = match memories s !! id with Some m => set_memories <[id := f m]> s | None => s end).
  { unfold set_memories. rewrite alter_lookup. destruct s, (_ !! id); done. }
  rewrite Heq. destruct (memories s !! id) as [m|] eqn:Hm; [|split; [done|by intros ? ? [= <- <-]]].
  destruct (Hf m) as (Hu & ? & ? & ?). specialize (Hs id m Hid Hm) as Hum.
  split; [|intros ? ? [= <- <-]; apply owned_set; [congruence|done]].
  apply touch_one. econstructor 2; [exact Hm|congruence..|done].
Qed.

Lemma put_moves ids id m :
  id ∈ ids -> mm_user m = user -> P (mm_hash m) -> normalize_memory_content (mm_content m) = Ok (mm_content m) ->
  memory_content_hash (mm_content m) = Ok (mm_hash m) ->
  moves touch (fun s => owned ids s /\ ((forall old, memories s !! id = Some old -> typed old) -> typed m))
    (put_memory id m) (fun _ => owned ids).
Proof.
  intros Hid Hu HP Hn Hh s [Hs Ht]. unfold put_memory. destruct (hash_free id m s) eqn:Hf; [|split; [done|by intros ? ? [=]]].
  split; [|intros ? ? [= <- <-]; by apply owned_set]. apply touch_one. constructor 3; try done. intros old. by apply Hs.
Qed.

Lemma race_moves Q d : (forall s, other s (d_race d s)) -> moves touch Q (modify (d_race d)) (fun _ _ => True).
Proof. intros Hr s _. split; [|done]. apply touch_one. by constructor. Qed.

(** *** Eviction *)

Lemma keeps_status status : keeps (fun m => mm_with_status m status).
Proof. intros m. split_and!; try done. intros _ []. by split. Qed.

Lemma keeps_live g : keeps (fun m => mm_live m (g m).1.1 (g m).1.2 (g m).2).
Proof. intros m. split_and!; try done. intros _ []. by split. Qed.

Lemma sync_moves ids id answer : id ∈ ids -> moves touch (owned ids) (_sync_vector_enabled id answer) (fun _ => owned ids).
Proof.
  intros Hid. apply alter_moves; [|done]. intros m. pose proof (keeps_status "pending" m) as Hk. unfold synced. repeat case_match; done.
Qed.

Lemma index_moves ids id answer : id ∈ ids -> moves touch (owned ids) (_index_memory_vector id answer) (fun _ => owned ids).
Proof.
  intros Hid. apply alter_moves; [|done]. intros m. pose proof (keeps_status "indexed" m). pose proof (keeps_status "failed" m).
  by case_match.
Qed.

Lemma evict_moves ids keep actor d : moves touch (owned ids) (evict_lowest_memories user keep actor d) (fun _ => owned ids).
Proof.
  unfold evict_lowest_memories. eapply moves_bind; [by apply (moves_gets _ _ _ (fun _ => owned ids))|]. intros count.
  destruct (_ <=? 0); [by apply moves_ret|].
  eapply moves_bind; [apply (moves_gets _ _ _ (fun l => owned (ids ++ l.*1)))|].
  { intros s Hs id m Hin Hm. apply elem_of_app in Hin as [Hin|Hin]; [by eapply Hs|].
    apply list_elem_of_fmap in Hin as ([j x] & -> & Hin). apply lowest_elem in Hin as (Hx & Hu & _). simpl in *. congruence. }
  intros doomed. eapply moves_bind.
  - apply moves_for_each. intros [id m] Hin. assert (id ∈ ids ++ doomed.*1) as Hid.
    { apply elem_of_app. right. by apply (list_elem_of_fmap_2' fst _ (id, m)). }
    unfold evict_one.
    eapply moves_bind; [apply alter_moves; [apply (keeps_live (fun m => (false, _, _)))|done]|]. intros ?.
    eapply moves_bind; [apply event_moves|]. intros ?. by apply sync_moves.
  - intros ?. apply moves_ret. intros s Hs id m Hin. apply Hs. apply elem_of_app. by left.
Qed.

(** *** Creating *)

Lemma by_hash_owned ids u h s : u = user -> owned ids s -> owned (ids ++ match by_hash u h s with Some (id, _) => [id] | None => [] end) s.
Proof.
  intros -> Hs. destruct (by_hash user h s) as [[id m]|] eqn:Hh; [|by rewrite app_nil_r].
  intros j x Hin Hx. apply elem_of_app in Hin as [Hin|Hin]; [by eapply Hs|].
  apply list_elem_of_singleton in Hin as ->. apply by_hash_elem in Hh as (? & ? & _). congruence.
Qed.

Lemma clamp01_unit x : in_unit (clamp01 x).
Proof.
  unfold clamp01, in_unit. destruct (Qle_bool 1 x) eqn:Ha; simpl; [lra|].
  destruct (Qle_bool x 0) eqn:Hb; [lra|].
  assert (~ (1 <= x)%Q) by (intros Hle%Qle_bool_iff; congruence).
  assert (~ (x <= 0)%Q) by (intros Hle%Qle_bool_iff; congruence). lra.
Qed.

Lemma one_of_elem allowed x v : x ∈ allowed -> one_of allowed x v ∈ allowed.
Proof. intros Hx. unfold one_of. by case_decide. Qed.

Lemma insert_moves id m :
  mm_user m = user -> P (mm_hash m) -> normalize_memory_content (mm_content m) = Ok (mm_content m) ->
  memory_content_hash (mm_content m) = Ok (mm_hash m) -> typed m ->
  moves touch (fun _ => True) (insert_memory id m) (fun b s => b = true -> owned [id] s).
Proof.
  intros Hu HP Hn Hh Ht s _. unfold insert_memory. destruct (memories s !! id) as [old|] eqn:Hid; [split; [done|by intros ? ? [= <- <-]]|].
  unfold put_memory. destruct (hash_free id m s) eqn:Hf; [|split; [done|by intros ? ? [= <- <-]]].
  split; [apply touch_one; constructor 3; try done; intros old; congruence|].
  intros ? ? [= <- <-] _. apply owned_set; [done|]. intros j x Hj%list_elem_of_singleton. congruence.
Qed.

Lemma create_moves settings sessions ids content source message origin category sensitivity confidence salience expires supersedes
    actor d :
  (forall h, memory_content_hash content = Ok h -> P h) -> (forall s, other s (d_race d s)) ->
  moves touch (owned ids)
    (create_memory settings sessions user content source message origin category sensitivity confidence salience expires supersedes
      actor d) (fun a => owned [a.1]).
Proof.
  intros HP Hrace. unfold create_memory. eapply moves_bind; [apply moves_lift|]. intros n. apply moves_pure. intros Hn.
  eapply moves_bind; [apply moves_lift|]. intros h. apply moves_pure. intros Hh.
  eapply moves_bind; [apply (moves_gets _ _ _ (fun e => owned (ids ++ match e with Some (id, _) => [id] | None => [] end)));
    intros s Hs; by apply by_hash_owned|].
  intros [[id m]|].
  - eapply (moves_bind _ _ _ _ (fun _ => owned (ids ++ [id]))).
    + destruct (alive m); [by apply moves_ret|]. apply alter_moves; [apply (keeps_live (fun m => (true, None, _)))|].
      apply elem_of_app. right. apply list_elem_of_here.
    + intros ?. apply moves_ret. intros s Hs j x Hj. apply Hs. apply elem_of_app. by right.
  - eapply moves_bind; [apply moves_lift|]. intros cap. apply moves_pure. intros _.
    eapply moves_bind; [by apply (moves_gets _ _ _ (fun _ => owned (ids ++ [])))|]. intros count.
    eapply (moves_bind _ _ _ _ (fun _ => owned (ids ++ []))).
    { destruct (_ <=? _); [|by apply moves_ret]. eapply moves_bind; [apply evict_moves|]. intros ?. by apply moves_ret. }
    intros ?. eapply moves_bind; [apply moves_lift|]. intros src. apply moves_pure. intros _.
    eapply (moves_bind _ _ _ _ (fun _ _ => True)); [apply race_moves, Hrace|]. intros ?.
    eapply moves_bind; [apply insert_moves; simpl; try done|].
    + apply HP. by rewrite <- (hash_normal content n Hn).
    + by apply (normalize_idempotent content).
    + split; simpl; [apply one_of_elem, (bool_decide_unpack _); vm_compute; done..|apply clamp01_unit|apply clamp01_unit].
    + intros [|].
      * eapply moves_bind; [eapply moves_weaken; [|exact (fun _ _ Hx => Hx)|apply (event_moves [d_id d])]; [by intros s Hs; apply Hs]|].
        intros ?. by apply moves_ret.
      * eapply moves_bind; [apply (moves_gets _ _ _ (fun e => owned match e with Some (id, _) => [id] | None => [] end))|].
        { intros s _. apply (by_hash_owned []); [done|]. by intros j x Hj%not_elem_of_nil. }
        intros [[id m]|]; [by apply moves_ret|apply moves_raise].
Qed.

(** *** Changing and the extractor's operations *)

Lemma owned_one id m s : memories s !! id = Some m -> mm_user m = user -> owned [id] s.
Proof. intros Hm Hu j x Hj%list_elem_of_singleton. congruence. Qed.

Lemma update_content_moves id content m :
  (forall h, memory_content_hash content = Ok h -> P h) ->
  moves touch (fun s => memories s !! id = Some m /\ mm_user m = user) (update_content user id m content) (fun _ => owned [id]).
Proof.
  intros HP. unfold update_content. eapply moves_bind; [apply moves_lift|]. intros n. apply moves_pure. intros Hn.
  eapply moves_bind; [apply moves_lift|]. intros h. apply moves_pure. intros Hh.
  case_decide; [apply moves_ret; intros s []; by eapply owned_one|].
  eapply moves_bind; [apply (moves_gets _ _ _ (fun _ s => memories s !! id = Some m /\ mm_user m = user)); intros s Hs; exact Hs|].
  intros [|]; [|apply moves_raise]. apply moves_weaken with (P' := fun s => mm_user m = user /\ memories s !! id = Some m) (Q' := fun _ => owned [id]);
    [by intros s []|done|]. apply moves_pure. intros Hu.
  eapply (moves_bind _ _ _ _ (fun _ => owned [id])); [|by intros ?; apply moves_ret].
  eapply moves_weaken; [|exact (fun _ _ Hx => Hx)|apply (put_moves [id])]; simpl; try done.
  - intros s Hs. split; [by eapply owned_one|]. intros Ht. destruct (Ht m Hs). by split.
  - apply list_elem_of_singleton. done.
  - apply HP. by rewrite <- (hash_normal content n Hn).
  - by apply (normalize_idempotent content).
Qed.

Lemma update_moves id content d :
  (forall h, memory_content_hash content = Ok h -> P h) ->
  moves touch (fun _ => True) (update_memory user id (Some content) None "system" d) (fun _ => owned [id]).
Proof.
  intros HP. unfold update_memory.
  eapply (moves_bind _ _ _ _ (fun m s => memories s !! id = Some m /\ mm_user m = user)).
  { intros s _. unfold _get_owned_memory, owned_by. destruct (memories s !! id) as [m|] eqn:Hm; [|split; [done|by intros ? ? [=]]].
    case_match eqn:Hc; [|split; [done|by intros ? ? [=]]]. split; [done|]. intros ? ? [= <- <-].
    apply andb_true_iff in Hc as [Hc%Z.eqb_eq _]. done. }
  intros m. eapply moves_bind; [by apply update_content_moves|]. intros changed.
  eapply moves_bind; [by apply (moves_ret _ _ _ (fun _ => owned [id]))|]. intros switched.
  case_match; [|by apply moves_ret]. apply alter_moves; [apply (keeps_live (fun m => (_, _, _)))|]. apply list_elem_of_singleton. done.
Qed.

Lemma raised_unit a b : in_unit a -> in_unit b -> in_unit (raised a b).
Proof. unfold raised. by case_match. Qed.

Lemma as_plan_keeps settings o o' : _as_plan settings o = Ok (Some o') ->
  mo_content o' = mo_content o /\ (typed_operation o -> mo_category o' ∈ MEMORY_CATEGORIES /\ mo_sensitivity o' ∈ SENSITIVITIES /\
    in_unit (mo_confidence o') /\ in_unit (mo_salience o')).
Proof.
  unfold _as_plan. intros Ho. destruct (negb (bool_decide _)); [injection Ho as <-; split; [done|by intros []]|].
  destruct (negb _); [done|]. destruct (mo_ttl_days o); [injection Ho as <-; split; [done|by intros []]|].
  destruct (int_or _ _); [|done]. injection Ho as <-. split; [done|by intros []].
Qed.

Context (o : MemoryOperation).
Context (HT : T -> mo_category o ∈ MEMORY_CATEGORIES /\ mo_sensitivity o ∈ SENSITIVITIES /\
  in_unit (mo_confidence o) /\ in_unit (mo_salience o)).
Context (HP : forall h, memory_content_hash (mo_content o) = Ok h -> P h).

Lemma target_elem s id m : target_of user o s = Some (id, m) -> memories s !! id = Some m /\ mm_user m = user.
Proof.
  unfold target_of. destruct (mo_target o) as [t|]; [|done]. simpl. destruct (memories s !! key_of t) as [x|] eqn:Hx; simpl; [|done].
  case_match eqn:Hc; [|done]. intros [= <- <-]. apply andb_true_iff in Hc as [Hc%Z.eqb_eq _]. done.
Qed.

Lemma apply_update_moves target expires d :
  moves touch (fun _ => True) (apply_update user target o expires d) (fun _ _ => True).
Proof.
  intros s _. unfold apply_update. destruct (update_moves target.1 (mo_content o) d HP s I) as [Hr Hq].
  destruct (update_memory _ _ _ _ _ _ s) as [[[]|e] s1]; simpl in *; [|by case_decide].
  specialize (Hq tt s1 eq_refl).
  assert (Hk : moves touch (owned [target.1]) (_ ← alter_memory target.1 (fun m => mm_rated m (mo_category o) (mo_sensitivity o)
      (mo_confidence o) (raised (mm_salience m) (mo_salience o)) expires "pending");
      _ ← _index_memory_vector target.1 (d_index d); mret (Updated target.1)) (fun _ _ => True)).
  { eapply moves_bind; [apply (alter_moves [target.1]); [|by apply list_elem_of_singleton]|].
    - intros m. split_and!; try done. intros (?&?&?&?)%HT []. split; try done. by apply raised_unit.
    - intros ?. eapply moves_bind; [apply index_moves; by apply list_elem_of_singleton|]. intros ?. by apply moves_ret. }
  destruct (Hk s1 Hq) as [Hr' _]. split; [by etrans|done].
Qed.

Lemma apply_supersede_moves settings sessions session message now target expires d :
  (forall s, other s (d_race d s)) ->
  moves touch (owned [target.1]) (apply_supersede settings sessions user session message now target o expires d) (fun _ _ => True).
Proof.
  intros Hr. unfold apply_supersede.
  eapply moves_bind; [apply alter_moves; [apply (keeps_live (fun m => (false, _, _)))|by apply list_elem_of_singleton]|]. intros ?.
  eapply moves_bind; [apply event_moves|]. intros ?.
  eapply moves_bind; [by apply (create_moves _ _ [target.1])|]. intros [id [|]]; [|by apply moves_ret].
  eapply moves_bind; [apply (index_moves [id]); by apply list_elem_of_singleton|]. intros ?. by apply moves_ret.
Qed.

Lemma renew_moves ids id expires : id ∈ ids -> moves touch (owned ids) (_renew_plan id o expires) (fun _ => owned ids).
Proof.
  intros Hid. unfold _renew_plan. destruct expires; [|by apply moves_ret]. case_decide; [|by apply moves_ret].
  apply alter_moves; [|done]. intros m. case_decide; split_and!; try done. intros _ []. by split.
Qed.

Lemma near_elem hits s id : _semantic_near_dupe user hits s = Some id -> owned [id] s.
Proof.
  unfold _semantic_near_dupe. intros [Hm _]%head_Some_elem_of%list_elem_of_filter. destruct (memories s !! id) as [m|] eqn:E; [|done].
  apply andb_true_iff in Hm as [Hm%Z.eqb_eq _]. by eapply owned_one.
Qed.

Lemma apply_add_moves settings sessions session message now expires d :
  (forall s, other s (d_race d s)) ->
  moves touch (fun _ => True) (apply_add settings sessions user session message now o expires d) (fun _ _ => True).
Proof.
  intros Hr. unfold apply_add.
  eapply moves_bind; [apply (moves_gets _ _ _ (fun r => owned (option_list r)))|].
  { intros s _. destruct (_semantic_near_dupe _ _ s) eqn:E; [by eapply near_elem|]. by intros j x Hj%not_elem_of_nil. }
  intros [id|].
  - eapply moves_bind; [apply (alter_moves [id]); [|by apply list_elem_of_singleton]|].
    + intros m. split_and!; try done. intros (?&?&?&?)%HT []. split; try done. by apply raised_unit.
    + intros ?. eapply moves_bind; [apply renew_moves; by apply list_elem_of_singleton|]. intros ?. by apply moves_ret.
  - eapply moves_bind; [by apply (create_moves _ _ [])|]. intros [id [|]].
    + eapply moves_bind; [apply (index_moves [id]); by apply list_elem_of_singleton|]. intros ?. by apply moves_ret.
    + eapply moves_bind; [apply (renew_moves [id]); by apply list_elem_of_singleton|]. intros ?. by apply moves_ret.
Qed.
End touch.

Section operations.
Context `{PyStr} `{PyNFC} `{PyInt} `{PyRepr}.
Context (user : Z) (P : text -> Prop) (T : Prop) (other : Store -> Store -> Prop).

(** What [apply_operation] asks of the hash of its text, once nothing suppresses it. *)
Definition writable (o : MemoryOperation) (now : Z) (s : Store) : Prop :=
  forall h, memory_content_hash (mo_content o) = Ok h -> is_hash_suppressed user h now s = false -> P h.

Lemma gated_moves session reason now I :
  moves (touch user P T other) I (gated user session reason now) (fun _ _ => True).
Proof.
  eapply moves_bind; [eapply moves_weaken; [| |apply (event_moves user P T other [])]|].
  - intros s _ j x Hj%not_elem_of_nil. done.
  - exact (fun _ _ Hx => Hx).
  - intros ?. by apply moves_ret.
Qed.

Lemma apply_operation_moves settings sessions session message allowed now o d :
  (T -> typed_operation o) -> (forall s, other s (d_race d s)) ->
  moves (touch user P T other) (writable o (d_now d))
    (apply_operation settings sessions user session message allowed now o d) (fun _ _ => True).
Proof.
  intros HT Hr. unfold apply_operation. eapply moves_bind; [apply moves_lift|]. intros [o'|]; apply moves_pure; [|by intros _; apply moves_ret].
  intros (Hc & Ht)%as_plan_keeps. rewrite Hc. destruct (memory_content_hash (mo_content o)) as [h|e] eqn:Hh; [|by apply moves_ret].
  eapply moves_bind; [apply (moves_gets _ _ _ (fun b _ => b = false -> P h))|].
  { intros s Hs Hb. by apply Hs. }
  intros [|]; [apply gated_moves|]. apply moves_weaken with (P' := fun s => P h /\ True) (Q' := fun _ _ => True);
    [intros s Hs; split; [by apply Hs|done]|done|]. apply moves_pure. intros HP.
  destruct (d_suppressed d); [apply gated_moves|].
  assert (HPo : forall h, memory_content_hash (mo_content o') = Ok h -> P h) by (intros h'; rewrite Hc, Hh; by intros [= <-]).
  assert (HTo : T -> mo_category o' ∈ MEMORY_CATEGORIES /\ mo_sensitivity o' ∈ SENSITIVITIES /\ in_unit (mo_confidence o') /\
    in_unit (mo_salience o')) by (intros t; by apply Ht, HT).
  destruct (_ && _).
  { eapply moves_bind; [eapply moves_weaken; [|exact (fun _ _ Hx => Hx)|apply (event_moves user P T other [])]|].
    - intros s _ j x Hj%not_elem_of_nil. done.
    - intros ?. by apply moves_ret. }
  eapply moves_bind; [apply moves_lift|]. intros expires. apply moves_pure. intros _.
  eapply moves_bind; [apply (moves_gets _ _ _ (fun t s => match t with Some (id, m) => owned user [id] s | None => True end))|].
  { intros s _. destruct (target_of _ _ s) as [[id m]|] eqn:E; [|done]. apply target_elem in E as [??]. by eapply owned_one. }
  intros [[id m]|]; [|by apply apply_add_moves].
  case_decide; [eapply moves_weaken; [|exact (fun _ _ Hx => Hx)|by apply apply_update_moves]; done|].
  case_decide; [apply (apply_supersede_moves user P T other o' HPo settings sessions session message now (id, m) expires d Hr)|].
  eapply moves_weaken; [|exact (fun _ _ Hx => Hx)|by apply apply_add_moves]; done.
Qed.
End operations.
