(* ===== verification/MemoriesTrace.v ===== *)
(** * Memories: whole runs

    What every sequence of steps keeps: other people's rows, the form of the
    table, a deleted memory's absence; what eviction takes; and how superseding a
    memory can lose the fact. *)

From S2P Require Import Prelude Text Json PyText Outbox MemoryJobs ChatHistory Memories MemoriesFacts.
From Stdlib Require Import QArith Qminmax Lqa.
#[local] Open Scope Z_scope.

(** ** Whole calls *)

Section calls.
Context `{PyStr} `{PyNFC} `{PyInt} `{PyRepr}.

Lemma elem_of_imap {A B} (f : nat -> A -> B) l y : y ∈ imap f l -> exists i x, x ∈ l /\ y = f i x.
Proof.
  intros [i Hi]%list_elem_of_lookup. rewrite list_lookup_imap in Hi. apply fmap_Some in Hi as (x & Hx & ->).
  exists i, x. split; [by eapply list_elem_of_lookup_2|done].
Qed.

Lemma apply_moves user T other settings sessions session message ops draws last now :
  (T -> Forall typed_operation ops) -> (forall i s, other s (d_race (draws i) s)) ->
  moves (touch user (fun _ => True) T other) (fun _ => True)
    (apply_memory_operations settings sessions user session message ops draws last now) (fun _ _ => True).
Proof.
  intros HT Hr. unfold apply_memory_operations. eapply moves_bind; [apply moves_lift|]. intros allowed. apply moves_pure. intros _.
  eapply moves_bind; [apply (moves_for_each _ (fun _ => True))|].
  - intros [o d] (i & x & (j & Hx%list_elem_of_lookup_2 & _)%elem_of_take & [= -> ->])%elem_of_imap. simpl.
    eapply moves_weaken; [| |apply apply_operation_moves]; [done|done| |done].
    intros t. specialize (HT t). rewrite Forall_forall in HT. by apply HT.
  - intros outcomes. eapply moves_bind; [apply moves_lift|]. intros cap. apply moves_pure. intros _.
    eapply moves_bind; [eapply moves_weaken; [|exact (fun _ _ Hx => Hx)|apply (evict_moves user _ T other [])]|].
    + intros s _ j x Hj%not_elem_of_nil. done.
    + intros n. by apply moves_ret.
Qed.

(** Steps that keep an invariant. *)
Lemma touches_keep user P T other (I : Store -> Prop) s s' :
  (forall s s', touch user P T other s s' -> I s -> I s') -> rtc (touch user P T other) s s' -> I s -> I s'.
Proof. intros Hk Hr. induction Hr; [done|]. intros Hs. by apply IHHr, (Hk x). Qed.

(** *** Other people's rows *)

Record others_kept (user : Z) (s s' : Store) : Prop := {
  ok_memories : forall id m, mm_user m <> user -> memories s' !! id = Some m <-> memories s !! id = Some m;
  ok_suppressions : forall id sp, sp_user sp <> user -> suppressions s' !! id = Some sp <-> suppressions s !! id = Some sp;
  ok_events : filter (fun e => me_user e <> user) (events s') = filter (fun e => me_user e <> user) (events s)
}.

Lemma others_kept_trans user s1 s2 s3 : others_kept user s1 s2 -> others_kept user s2 s3 -> others_kept user s1 s3.
Proof.
  intros [Hm Hp He] [Hm' Hp' He']. split; [|intros id sp Hu; rewrite Hp' by done; by apply Hp|congruence].
  intros id m Hu. rewrite Hm' by done. by apply Hm.
Qed.

Lemma set_own_kept user id m s :
  (forall old, memories s !! id = Some old -> mm_user old = user) -> mm_user m = user ->
  others_kept user s (set_memories <[id := m]> s).
Proof.
  intros Hold Hm. split; simpl; [|done..]. intros j x Hx. rewrite lookup_insert. case_decide as Hj; [|done]. subst j.
  split; [intros [= <-]; done|intros Hs; by apply Hold in Hs].
Qed.

Lemma touch_others_kept user P T s s' :
  touch user P T (others_kept user) s s' -> others_kept user s s'.
Proof.
  intros [e st He|id m m' st Hm Hu Hu'|id m st Hold Hu|st st' Ho]; [|by apply set_own_kept; [intros old; congruence|]|by apply set_own_kept|done].
  split; simpl; [done..|]. rewrite filter_app, filter_cons_False by tauto. by rewrite app_nil_r.
Qed.

(** what an extractor answers, whatever ids and texts it names, changes only
    the memories of the person whose chat it read: every other person's
    memories, suppressions and events are left as they were, provided the
    transactions that commit in between leave them too. *)
Theorem apply_keeps_others settings sessions user session message ops draws last now s :
  (forall i s, others_kept user s (d_race (draws i) s)) ->
  others_kept user s (apply_memory_operations settings sessions user session message ops draws last now s).2.
Proof.
  intros Hr. destruct (apply_moves user False (others_kept user) settings sessions session message ops draws last now
    ltac:(done) Hr s I) as [Hm _]. clear Hr. induction Hm as [x|x y z Hxy _ IH]; [by split|].
  eapply others_kept_trans; [by eapply touch_others_kept|done].
Qed.

(** *** Well-formed rows *)

Record sound (s : Store) : Prop := {
  so_typed : forall id m, memories s !! id = Some m -> typed m;
  so_normal : forall id m, memories s !! id = Some m -> normalize_memory_content (mm_content m) = Ok (mm_content m);
  so_hash : forall id m, memories s !! id = Some m -> memory_content_hash (mm_content m) = Ok (mm_hash m);
  so_unique : forall i j m n, memories s !! i = Some m -> memories s !! j = Some n -> mm_user m = mm_user n ->
    mm_hash m = mm_hash n -> i = j
}.

Lemma hash_free_ne id m s j n :
  hash_free id m s = true -> memories s !! j = Some n -> mm_user n = mm_user m -> mm_hash n = mm_hash m -> j = id.
Proof.
  unfold hash_free. rewrite bool_decide_eq_true. intros Hf Hj Hu Hh. destruct (decide (j = id)) as [|Hne]; [done|].
  assert ((j, n) ∈ filter (fun kv : string * Memory => kv.1 <> id) (user_memories (mm_user m) (fun x => bool_decide (mm_hash x = mm_hash m)) s)) as Hin.
  { apply list_elem_of_filter. split; [done|]. apply user_memories_elem. split_and!; [done|done|by apply bool_decide_eq_true]. }
  rewrite Hf in Hin. by apply not_elem_of_nil in Hin.
Qed.

Lemma sound_set id m s :
  (typed m) -> normalize_memory_content (mm_content m) = Ok (mm_content m) -> memory_content_hash (mm_content m) = Ok (mm_hash m) ->
  (forall j n, memories s !! j = Some n -> mm_user n = mm_user m -> mm_hash n = mm_hash m -> j = id) ->
  sound s -> sound (set_memories <[id := m]> s).
Proof.
  intros Ht Hn Hh Hf [St Sn Sh Su]. split; simpl.
  - intros j x. rewrite lookup_insert. case_decide; [by intros [= <-]|apply St].
  - intros j x. rewrite lookup_insert. case_decide; [by intros [= <-]|apply Sn].
  - intros j x. rewrite lookup_insert. case_decide; [by intros [= <-]|apply Sh].
  - intros i j x y. rewrite !lookup_insert. repeat case_decide; subst; intros Hx Hy Hu He; simplify_eq; [done| | |by eapply Su].
    + symmetry. by eapply Hf.
    + by eapply Hf.
Qed.

Lemma touch_sound user P s s' : touch user P True (fun s s' => sound s -> sound s') s s' -> sound s -> sound s'.
Proof.
  intros [e st He|id m m' st Hm Hu Hu' Hh Hc Ht|id m st Hold Hu _ Hn Hh Ht Hf|st st' Ho] Hs; [by destruct Hs| | |by apply Ho].
  - pose proof Hs as [St Sn Sh Su]. apply sound_set; [by apply Ht, (St id)|by rewrite Hc; apply (Sn id)|rewrite Hc, Hh; by apply (Sh id)| |done].
    intros j n Hj Huj Hhj. eapply Su; [done|exact Hm|congruence|congruence].
  - apply sound_set; [apply Ht; intros old Ho; by eapply so_typed|done|done| |done]. intros j n. by apply hash_free_ne.
Qed.

(** C21: well-typed operations (as [parse_operations] makes them) keep the table
    of memories well formed: every category and sensitivity is a known one,
    confidence and salience are between 0 and 1, each text is stored in its
    normal form with the hash of that text, and a person has no two memories
    of one hash; whatever the embedding model answers, also when the call ends
    with an error. *)
Theorem apply_keeps_memories_sound settings sessions user session message ops draws last now s :
  Forall typed_operation ops -> (forall i s, sound s -> sound (d_race (draws i) s)) ->
  sound s -> sound (apply_memory_operations settings sessions user session message ops draws last now s).2.
Proof.
  intros Ht Hr. destruct (apply_moves user True (fun s s' => sound s -> sound s') settings sessions session message ops draws last now
    ltac:(done) Hr s I) as [Hm _]. revert Hm. apply touches_keep, touch_sound.
Qed.
End calls.

(** ** Forgetting *)

Section forgetting.
Context `{PyStr} `{PyNFC} `{PyInt} `{PyRepr} `{LocalTime} `{Settings}.

(** No memory of [user] has the hash, and a suppression of it is in force before [until]. *)
Record forgotten (user : Z) (digest : text) (until : Z) (s : Store) : Prop := {
  fg_gone : forall id m, memories s !! id = Some m -> mm_user m = user -> mm_hash m <> digest;
  fg_kept : exists id sp, suppressions s !! id = Some sp /\ sp_user sp = user /\ sp_hash sp = digest /\
    forall t, t < until -> in_force t sp = true
}.

Section kept.
Context (user : Z) (digest : text) (until : Z).
Implicit Types s : Store.
#[local] Abbreviation I := (forgotten user digest until).

(** [forgotten] looks at no other table, and is kept where rows only go. *)
Lemma forgotten_rows s s' :
  (forall id m, memories s' !! id = Some m -> exists i n, memories s !! i = Some n /\ mm_user n = mm_user m /\ mm_hash n = mm_hash m) ->
  suppressions s' = suppressions s -> I s -> I s'.
Proof.
  intros Hm Hsp [Hg Hk]. split; [|by rewrite Hsp]. intros id m (i & n & Hn & Hu & Hh)%Hm Hmu.
  intros Hd. apply (Hg i n Hn); congruence.
Qed.

Lemma forgotten_event e s : I s -> I (add_event e s).
Proof. apply forgotten_rows; [by eauto|done]. Qed.

Lemma set_rows_back s id m m' j x :
  memories s !! id = Some m -> mm_user m' = mm_user m -> mm_hash m' = mm_hash m -> <[id := m']> (memories s) !! j = Some x ->
  exists i n, memories s !! i = Some n /\ mm_user n = mm_user x /\ mm_hash n = mm_hash x.
Proof. intros Hm Hu Hh. rewrite lookup_insert. case_decide; [intros [= <-]; by exists id, m|by eauto]. Qed.

Lemma touch_forgotten u (P : text -> Prop) T s s' :
  (u = user -> ~ P digest) -> touch u P T (fun s s' => I s -> I s') s s' -> I s -> I s'.
Proof.
  intros HP [e st He|id m m' st Hm Hu Hu' Hh _ _|id m st Hold Hu Hd _ _ _ _|st st' Ho] Hs; [by apply forgotten_event| | |by apply Ho].
  - revert Hs. apply forgotten_rows; [|done]. intros j x. apply (set_rows_back st id m); congruence.
  - destruct Hs as [Hg Hk]. split; [|done]. intros j x. simpl. rewrite lookup_insert. case_decide; [|apply Hg].
    intros [= <-] Hmu Hdig. rewrite Hdig in Hd. apply HP; [congruence|done].
Qed.

Lemma forgotten_suppressed now s : now < until -> I s -> is_hash_suppressed user digest now s = true.
Proof.
  intros Hn [_ (id & sp & Hsp & Hu & Hh & Hf)]. unfold is_hash_suppressed. apply existsb_exists. exists (id, sp).
  split; [|by apply Hf]. apply list_elem_of_In. unfold suppression_of. apply list_elem_of_filter.
  split; [|by apply elem_of_map_to_list]. simpl. rewrite Hu, Z.eqb_refl. by rewrite bool_decide_true.
Qed.

(** What an extraction run keeps, for its person and for anyone else. *)
Lemma apply_forgotten settings sessions u session message ops draws last now :
  (forall i, d_now (draws i) < until) -> (forall i s, I s -> I (d_race (draws i) s)) ->
  preserves I (apply_memory_operations settings sessions u session message ops draws last now).
Proof.
  intros Hnow Hr s Hs.
  set (P := fun h : text => u = user -> h <> digest).
  assert (Hop : forall i o allowed, preserves I (apply_operation settings sessions u session message allowed now o (draws i))).
  { intros i o allowed st Hst.
    destruct (apply_operation_moves u P False (fun s s' => I s -> I s') settings sessions session message allowed now o (draws i)
      ltac:(done) (Hr i) st) as [Hm _].
    - intros h _ Hf Hu Hd. subst u h. by rewrite (forgotten_suppressed _ st (Hnow i) Hst) in Hf.
    - revert Hm Hst. apply touches_keep. intros x y. apply touch_forgotten. intros Hu HP. by apply HP. }
  revert s Hs. unfold apply_memory_operations. apply preserves_bind; [by intros st|]. intros allowed.
  apply preserves_bind.
  - intros st Hst. assert (Hl : forall l, Forall (fun od => exists i, od.2 = draws i) l ->
      preserves I (for_each (fun od => apply_operation settings sessions u session message allowed now od.1 od.2) l)).
    { induction 1 as [|[o d] l [i Hi] _ IH]; [apply preserves_ret|]. simpl in *. subst d.
      apply preserves_bind; [apply Hop|]. intros ?. apply preserves_bind; [apply IH|]. intros ?. apply preserves_ret. }
    apply Hl; [|done]. apply Forall_forall. intros od (i & o & _ & ->)%elem_of_imap. by exists i.
  - intros outcomes. apply preserves_bind; [by intros st|]. intros cap. apply preserves_bind; [|intros n; apply preserves_ret].
    intros st Hst. destruct (evict_moves u P False (fun s s' => I s -> I s') [] cap "system" last st) as [Hm _].
    { by intros j x Hj%not_elem_of_nil. }
    revert Hm Hst. apply touches_keep. intros x y. apply touch_forgotten. intros Hu HP. by apply HP.
Qed.

(** *** The calls a person and the platform make meanwhile *)

Lemma alter_forgotten id f :
  (forall m, mm_user (f m) = mm_user m /\ mm_hash (f m) = mm_hash m) -> preserves I (alter_memory id f).
Proof.
  intros Hf. apply preserves_modify. intros s. apply forgotten_rows; [|done]. intros j x. unfold set_memories; simpl.
  rewrite alter_lookup. destruct (memories s !! id) as [m|] eqn:Hm; [|by eauto]. destruct (Hf m). by apply (set_rows_back s id m).
Qed.

Lemma event_forgotten u type actor memory session detail now :
  preserves I (record_memory_event u type actor memory session detail now).
Proof. apply preserves_modify. intros s. apply forgotten_event. Qed.

Lemma sync_forgotten id answer : preserves I (_sync_vector_enabled id answer).
Proof. apply alter_forgotten. intros m. unfold synced. by repeat case_match. Qed.

Lemma drop_forgotten gone s : I s -> I (drop_memories gone s).
Proof.
  apply forgotten_rows; [|done]. intros j x. unfold drop_memories; simpl. rewrite lookup_fmap.
  intros (m & Hm & ->)%fmap_Some. apply map_lookup_filter_Some in Hm as [Hm _]. by exists j, m.
Qed.

Lemma owned_memory_inv u id s m s1 : _get_owned_memory u id s = (Ok m, s1) -> s1 = s /\ memories s !! id = Some m /\ mm_user m = u.
Proof.
  unfold _get_owned_memory, owned_by. destruct (_ !! id) as [x|]; [|done]. case_match eqn:Hc; [|done]. intros [= -> ->].
  by apply andb_true_iff in Hc as [Hc%Z.eqb_eq _].
Qed.

Lemma get_owned_forgotten {A} u id (k : Memory -> op Store A) s :
  I s -> (forall m, memories s !! id = Some m -> mm_user m = u -> I (k m s).2) -> I ((m ← _get_owned_memory u id; k m) s).2.
Proof.
  intros Hs Hk. unfold mbind, op_bind. destruct (_get_owned_memory u id s) as [[m|e] s1] eqn:Hg.
  - apply owned_memory_inv in Hg as (-> & Hm & Hu). by apply Hk.
  - unfold _get_owned_memory in Hg. repeat case_match; by simplify_eq.
Qed.

Lemma bind_forgotten {A B} (m : op Store A) (k : A -> op Store B) s :
  I (m s).2 -> (forall a, preserves I (k a)) -> I ((m ≫= k) s).2.
Proof. intros Hm Hk. unfold mbind, op_bind. destruct (m s) as [[a|e] s1]; simpl in *; [by apply Hk|done]. Qed.

Lemma update_content_forgotten u id m c s :
  (u = user -> memory_content_hash c <> Ok digest) -> mm_user m = u -> I s -> I (update_content u id m c s).2.
Proof.
  intros Hc Hu Hs. unfold update_content, mbind, op_bind, lift. destruct (normalize_memory_content c) as [n|] eqn:Hn; [|done].
  destruct (memory_content_hash n) as [h|] eqn:Hh; [|done]. case_decide; [done|]. unfold gets. destruct (filter _ _); [|done].
  unfold put_memory. destruct (hash_free _ _ _); [|done]. destruct Hs as [Hgone Hk]. split; [|done]. intros j x. simpl.
  rewrite lookup_insert. case_decide; [|apply Hgone]. intros [= <-] Hmu Hd. simpl in *. subst h.
  apply (Hc (eq_trans (eq_sym Hu) Hmu)). by rewrite <- (hash_normal c n Hn).
Qed.

Lemma update_forgotten u id content enabled actor d :
  (u = user -> forall c, content = Some c -> memory_content_hash c <> Ok digest) ->
  preserves I (update_memory u id content enabled actor d).
Proof.
  intros Hc s Hs. unfold update_memory. apply get_owned_forgotten; [done|]. intros m Hm Hu. apply bind_forgotten.
  - destruct content as [c|]; [|done]. apply update_content_forgotten; [intros Hus; by apply Hc|done..].
  - intros changed. apply preserves_bind; [|intros switched; case_match; [by apply alter_forgotten|apply preserves_ret]].
    destruct enabled as [b|]; [|apply preserves_ret]. unfold update_enabled. case_decide; [apply preserves_ret|].
    apply preserves_bind; [by apply alter_forgotten|]. intros ?. apply preserves_bind; [apply event_forgotten|]. intros ?.
    apply preserves_bind; [apply sync_forgotten|]. intros ?. apply preserves_ret.
Qed.

Lemma suppression_elem u h s id sp :
  (id, sp) ∈ suppression_of u h s -> suppressions s !! id = Some sp /\ sp_user sp = u /\ sp_hash sp = h.
Proof.
  unfold suppression_of. rewrite list_elem_of_filter, elem_of_map_to_list, andb_true_iff, Z.eqb_eq, bool_decide_eq_true. simpl. tauto.
Qed.

(** Deleting another memory: a fresh row, or the later date of an old one. *)
Lemma delete_forgotten settings u id actor new_id now s :
  suppressions s !! new_id = None -> I s -> I (delete_memory settings u id actor new_id now s).2.
Proof.
  intros Hnew Hs. unfold delete_memory. apply get_owned_forgotten; [done|]. intros m Hm Hu.
  unfold record_memory_event, modify, mbind, op_bind. cbn -[drop_memories _add_suppression].
  set (s2 := drop_memories _ _). assert (Hs2 : I s2) by (apply drop_forgotten; by apply forgotten_event).
  assert (Hne : mm_user m = user -> mm_hash m <> digest) by (destruct Hs as [Hgone _]; by apply (Hgone id)).
  assert (Hsp : suppressions s2 = suppressions s) by done. clearbody s2.
  unfold _add_suppression, mbind, op_bind, lift, gets. destruct (int_or _ _) as [n|]; [|done].
  destruct Hs2 as [Hg (j & sp & Hj & Hju & Hjh & Hf)]. destruct (suppression_of u (mm_hash m) s2) as [|[i old] l] eqn:E; simpl.
  - split; [done|]. exists j, sp. split; [|done]. simpl. rewrite lookup_insert_ne; [done|]. intros ->. rewrite Hsp in Hj. congruence.
  - split; [done|]. exists j, sp. split; [|done]. simpl. rewrite lookup_insert_ne; [done|]. intros ->.
    assert ((j, old) ∈ suppression_of u (mm_hash m) s2) as (Ho & Hou & Hoh)%suppression_elem by (rewrite E; apply list_elem_of_here).
    simplify_eq. by apply Hne.
Qed.

Lemma delete_all_forgotten sessions messages new_id u actor now :
  preserves I (delete_all_memories sessions messages new_id u actor now).
Proof.
  unfold delete_all_memories. apply preserves_bind.
  - intros s Hs. simpl. revert s Hs. unfold User.reset_watermarks_for_user, reset_watermarks.
    assert (Ht : forall B (m : op (table (MemoryJob Z)) B), preserves I (on_table m)).
    { intros B m s. unfold on_table. destruct (m (rows s)) as [r t]. simpl. apply forgotten_rows; [by eauto|done]. }
    apply preserves_bind; [by intros s|]. intros jobs. apply preserves_bind; [apply preserves_for_each; intros ?; apply Ht|].
    intros ?. apply preserves_bind; [apply preserves_for_each; intros ?; apply Ht|]. intros ?. apply preserves_ret.
  - intros ?. apply preserves_bind; [by intros s|]. intros removed.
    apply preserves_bind; [apply preserves_modify; intros s; apply drop_forgotten|]. intros ?.
    apply preserves_bind; [apply event_forgotten|]. intros ?. apply preserves_ret.
Qed.

Lemma maintenance_forgotten settings index now : now < until -> preserves I (run_user_memory_maintenance settings index now).
Proof.
  intros Hnow. unfold run_user_memory_maintenance.
  apply preserves_bind; [by intros s|]. intros expired. apply preserves_bind.
  { apply preserves_for_each. intros kv. apply preserves_bind; [by apply alter_forgotten|]. intros ?. apply event_forgotten. }
  intros ?. apply preserves_bind; [by intros s|]. intros stale_days. apply preserves_bind; [by intros s|]. intros stale.
  apply preserves_bind.
  { apply preserves_for_each. intros kv. apply preserves_bind; [by apply alter_forgotten|]. intros ?. apply event_forgotten. }
  intros ?. apply preserves_bind; [by intros s|]. intros purge_days. apply preserves_bind; [by intros s|]. intros doomed.
  apply preserves_bind; [apply preserves_for_each; intros kv; apply event_forgotten|]. intros ?.
  apply preserves_bind; [apply preserves_modify; intros s; apply drop_forgotten|]. intros ?.
  apply preserves_bind; [by intros s|]. intros lapsed. apply preserves_bind.
  { apply preserves_modify. intros s [Hg (id & sp & Hsp & Hu & Hh & Hf)]. split; [done|]. exists id, sp. split; [|done].
    simpl. apply map_lookup_filter_Some. split; [done|]. by apply Hf. }
  intros ?. apply preserves_bind; [by intros s|]. intros pending.
  apply preserves_bind; [apply preserves_for_each; intros kv; apply alter_forgotten; intros m; by case_match|]. intros ?.
  apply preserves_bind; [by intros s|]. intros pruned.
  apply preserves_bind; [apply preserves_modify; intros s; apply forgotten_rows; [by eauto|done]|]. intros ?. apply preserves_ret.
Qed.

(** What may happen to the tables while the suppression runs: extraction runs
    for anyone (with such calls committing within them), changes by hand that
    do not write the text again, deletions and upkeep. *)
Inductive memory_call : Store -> Store -> Prop :=
  | call_apply settings sessions u session message ops draws last now s :
      (forall i, d_now (draws i) < until) -> (forall i s, I s -> I (d_race (draws i) s)) ->
      memory_call s (apply_memory_operations settings sessions u session message ops draws last now s).2
  | call_update u id content enabled actor d s :
      (u = user -> forall c, content = Some c -> memory_content_hash c <> Ok digest) ->
      memory_call s (update_memory u id content enabled actor d s).2
  | call_delete settings u id actor new_id now s :
      suppressions s !! new_id = None -> memory_call s (delete_memory settings u id actor new_id now s).2
  | call_delete_all sessions messages new_id u actor now s :
      memory_call s (delete_all_memories sessions messages new_id u actor now s).2
  | call_maintenance settings index now s :
      now < until -> memory_call s (run_user_memory_maintenance settings index now s).2.

Lemma calls_forgotten s s' : rtc memory_call s s' -> I s -> I s'.
Proof.
  induction 1 as [|s1 s2 s3 Hc _ IH]; [done|]. intros Hs. apply IH. destruct Hc.
  - by apply apply_forgotten.
  - by apply update_forgotten.
  - by apply delete_forgotten.
  - by apply delete_all_forgotten.
  - by apply maintenance_forgotten.
Qed.
End kept.

Lemma delete_forgets settings user id m n actor new_id now s s1 :
  sound s -> memories s !! id = Some m -> suppressions s !! new_id = None ->
  int_or 180 (field (of_string "suppression_days") settings) = Ok n ->
  delete_memory settings user id actor new_id now s = (Ok tt, s1) ->
  mm_user m = user /\ forgotten user (mm_hash m) (now + days n) s1.
Proof.
  intros Hs Hm Hnew Hn Hd. unfold delete_memory in Hd. apply op_bind_inv in Hd as (x & s2 & Hg & Hd).
  apply owned_memory_inv in Hg as (-> & Hx & Hu). simplify_eq. split; [done|].
  unfold record_memory_event, modify, mbind, op_bind in Hd. cbn -[drop_memories _add_suppression] in Hd.
  unfold _add_suppression, mbind, op_bind, lift, gets in Hd. rewrite Hn in Hd.
  set (s2 := drop_memories _ _) in Hd.
  assert (Hg : forall j y, memories s2 !! j = Some y -> mm_user y = mm_user m -> mm_hash y <> mm_hash m).
  { intros j y. unfold s2, drop_memories; simpl. rewrite lookup_fmap. intros (z & Hz & ->)%fmap_Some.
    apply map_lookup_filter_Some in Hz as [Hz Hj]. simpl. intros Hu Hh. rewrite bool_decide_eq_false in Hj. apply Hj.
    by eapply so_unique. }
  assert (Hsp : suppressions s2 = suppressions s) by done. clearbody s2.
  destruct (suppression_of _ _ s2) as [|[i old] l] eqn:E; simpl in Hd; injection Hd as <-.
  - split; [done|]. eexists new_id, _. split; [apply lookup_insert_eq|]. split_and!; [done..|]. intros t Ht. unfold in_force. simpl. lia.
  - assert ((i, old) ∈ suppression_of (mm_user m) (mm_hash m) s2) as (Ho & Hou & Hoh)%suppression_elem by (rewrite E; apply list_elem_of_here).
    split; [done|]. eexists i, _. split; [apply lookup_insert_eq|]. split_and!; [done..|]. intros t Ht. unfold in_force. simpl. lia.
Qed.

(** C20: a memory a person deletes stays deleted: until its suppression ends, and
    over every sequence of extraction runs (anyone's, whatever the models
    answer), changes by hand that do not write it again, deletions, clearings
    and upkeep, the person has no memory with its hash. *)
Theorem deleted_memory_stays_deleted settings user id m n actor new_id now s s1 s2 :
  sound s -> memories s !! id = Some m -> suppressions s !! new_id = None ->
  int_or 180 (field (of_string "suppression_days") settings) = Ok n ->
  delete_memory settings user id actor new_id now s = (Ok tt, s1) ->
  rtc (memory_call user (mm_hash m) (now + days n)) s1 s2 ->
  forall j x, memories s2 !! j = Some x -> mm_user x = user -> mm_hash x <> mm_hash m.
Proof.
  intros Hs Hm Hnew Hn Hd Hr. destruct (delete_forgets _ _ _ _ _ _ _ _ _ _ Hs Hm Hnew Hn Hd) as [_ Hf].
  by apply (fg_gone _ _ _ s2 (calls_forgotten _ _ _ _ _ Hr Hf)).
Qed.
End forgetting.

(** ** Eviction *)

#[export] Instance evict_le_total : Total evict_le.
Proof.
  intros a b. unfold evict_le. rewrite <- (Qcompare_antisym (mm_salience a.2) (mm_salience b.2)).
  destruct (_ ?= _)%Q; simpl; [|by left|by right]. destruct (mm_last_used a.2), (mm_last_used b.2); try tauto; lia.
Qed.

#[export] Instance evict_le_trans : Transitive evict_le.
Proof.
  intros a b c. unfold evict_le.
  destruct (Qcompare_spec (mm_salience a.2) (mm_salience b.2)) as [Hab|Hab|Hab],
    (Qcompare_spec (mm_salience b.2) (mm_salience c.2)) as [Hbc|Hbc|Hbc],
    (Qcompare_spec (mm_salience a.2) (mm_salience c.2)) as [Hac|Hac|Hac]; try done; try (exfalso; lra); intros Hx Hy.
  destruct (mm_last_used a.2), (mm_last_used b.2), (mm_last_used c.2); try done; lia.
Qed.

Section eviction.
Context `{PyStr} `{PyInt}.

(** An evicted memory. *)
Definition gone (d : Draw) (id : string) (m : Memory) : Memory := synced (d_sync d id) (mm_live m false (Some (d_now d)) (d_now d)).

Lemma evict_one_ok user actor d kv s : exists s',
  evict_one user actor d kv s = (Ok tt, s') /\
  forall j, memories s' !! j = if decide (j = kv.1) then gone d j <$> memories s !! j else memories s !! j.
Proof.
  eexists. split; [reflexivity|]. intros j. simpl. case_decide as Hj; [subst j|].
  - rewrite !lookup_alter_eq. by destruct (memories s !! kv.1).
  - by rewrite !lookup_alter_ne.
Qed.

Lemma evict_loop user actor d l : forall s, NoDup l.*1 -> exists us s',
  for_each (evict_one user actor d) l s = (Ok us, s') /\
  forall j, memories s' !! j = if decide (j ∈ l.*1) then gone d j <$> memories s !! j else memories s !! j.
Proof.
  induction l as [|kv l IH]; intros s Hnd.
  - exists [], s. split; [done|]. intros j. rewrite decide_False; [done|]. simpl. apply not_elem_of_nil.
  - apply NoDup_cons in Hnd as [Hid Hnd]. destruct (evict_one_ok user actor d kv s) as (s1 & Hone & Hj1).
    destruct (IH s1 Hnd) as (us & s' & Heq & Hj). exists (tt :: us), s'. split.
    { simpl. rewrite (op_bind_ok _ _ _ _ _ Hone). by rewrite (op_bind_ok _ _ _ _ _ Heq). }
    intros j. rewrite Hj, Hj1. simpl. destruct (decide (j = kv.1)) as [->|Hne].
    + rewrite decide_False by done. by rewrite decide_True by apply list_elem_of_here.
    + destruct (decide (j ∈ l.*1)) as [Hin|Hin].
      * by rewrite decide_True by (by apply list_elem_of_further).
      * rewrite decide_False; [done|]. by intros [?|?]%elem_of_cons.
Qed.

Lemma user_memories_NoDup user f s : NoDup (user_memories user f s).
Proof. unfold user_memories. apply NoDup_filter, NoDup_map_to_list. Qed.

Lemma NoDup_sublist_take {A} k (l : list A) : NoDup l -> NoDup (take k l).
Proof. rewrite <- (take_drop k l) at 1. by intros (? & _ & _)%NoDup_app. Qed.

Lemma lowest_split user n s : exists rest,
  user_memories user alive s ≡ₚ lowest user n s ++ rest /\ forall a b, a ∈ lowest user n s -> b ∈ rest -> evict_le a b.
Proof.
  unfold lowest. set (l := merge_sort evict_le (user_memories user alive s)). exists (drop n l). split.
  - rewrite take_drop. unfold l. by rewrite merge_sort_Permutation.
  - assert (Hs : StronglySorted evict_le l).
    { unfold l. apply Sorted_StronglySorted; [apply _|]. apply Sorted_merge_sort, _. }
    rewrite <- (take_drop n l) in Hs. clearbody l. intros a b. revert Hs. generalize (take n l) (drop n l). clear.
    intros l1 l2. induction l1 as [|x l1 IH]; simpl; [by intros _ ?%not_elem_of_nil|].
    intros [Hs Hx]%StronglySorted_inv [->|Ha]%elem_of_cons Hb; [|by apply IH].
    rewrite Forall_forall in Hx. apply Hx, elem_of_app. by right.
Qed.

Lemma lowest_ids user n s id m :
  memories s !! id = Some m -> id ∈ (lowest user n s).*1 -> (id, m) ∈ lowest user n s.
Proof.
  intros Hm ([i x] & -> & Hin)%list_elem_of_fmap. apply lowest_elem in Hin as Hx. destruct Hx as [Hx _]. simpl in *. by simplify_eq.
Qed.

Lemma alive_gone d id m : alive (gone d id m) = false.
Proof. unfold gone, synced. by repeat case_match. Qed.

(** eviction takes exactly the overflow: afterwards the person has [keep]
    live memories at most; each memory is kept as it was, or was a live one of
    the person's and is now deleted and switched off, and then it came no later
    than any live one kept in the order of salience, last use and age. *)
Theorem evict_correct user keep actor d s : exists n s',
  evict_lowest_memories user keep actor d s = (Ok n, s') /\
  Z.of_nat n = Z.max 0 (Z.min (_count_alive user s) (_count_alive user s - keep)) /\
  _count_alive user s' = _count_alive user s - Z.of_nat n /\
  (forall id m, memories s !! id = Some m ->
    memories s' !! id = Some m \/
    mm_user m = user /\ alive m = true /\ memories s' !! id = Some (gone d id m) /\
    forall j x, memories s !! j = Some x -> mm_user x = user -> alive x = true -> memories s' !! j = Some x -> evict_le (id, m) (j, x)) /\
  (forall id, memories s !! id = None -> memories s' !! id = None).
Proof.
  unfold evict_lowest_memories, mbind, op_bind, gets. set (c := _count_alive user s).
  assert (Hc : 0 <= c) by (unfold c, _count_alive; lia).
  destruct (Z.leb_spec (c - keep) 0); [exists 0%nat, s; split_and!; try done; [lia|unfold c; lia|by left]|].
  set (k := Z.to_nat (c - keep)). destruct (lowest_split user k s) as (rest & Hperm & Hle).
  assert (Hnd : NoDup (lowest user k s).*1).
  { apply NoDup_fmap_2_strong; [|apply (NoDup_sublist_take k); rewrite merge_sort_Permutation; apply user_memories_NoDup].
    intros [i x] [j y] (Hx & _)%lowest_elem (Hy & _)%lowest_elem Heq. simpl in *. subst. by simplify_eq. }
  destruct (evict_loop user actor d (lowest user k s) s Hnd) as (us & s' & Hloop & Hj).
  rewrite Hloop. exists (length (lowest user k s)), s'.
  assert (Hlen : length (lowest user k s) = (k `min` Z.to_nat c)%nat).
  { unfold lowest. rewrite length_take, merge_sort_Permutation. unfold c, _count_alive. lia. }
  assert (Hrest : user_memories user alive s' ≡ₚ rest).
  { pose proof (user_memories_NoDup user alive s) as Hn. rewrite Hperm in Hn. apply NoDup_app in Hn as (_ & Hdis & Hnr).
    apply NoDup_Permutation; [apply user_memories_NoDup|done|]. intros [i x]. rewrite user_memories_elem, Hj.
    assert (Hsp : (i, x) ∈ user_memories user alive s <-> (i, x) ∈ lowest user k s \/ (i, x) ∈ rest) by (by rewrite Hperm, elem_of_app).
    rewrite user_memories_elem in Hsp. case_decide as Hin.
    - split.
      + intros (Hx & _ & Ha). apply fmap_Some in Hx as (y & _ & ->). by rewrite alive_gone in Ha.
      + intros Hr. destruct (proj2 Hsp (or_intror Hr)) as (Hx & _). exfalso. by apply (Hdis (i, x)); [apply lowest_ids|].
    - rewrite Hsp. split; [|by right]. intros [Hl|]; [|done]. destruct Hin. by apply (list_elem_of_fmap_2' fst _ (i, x)). }
  split_and!; [done| | | |].
  - rewrite Hlen. unfold k. lia.
  - unfold _count_alive. rewrite Hrest. unfold c, _count_alive. rewrite Hperm, length_app. lia.
  - intros id m Hm. rewrite Hj. case_decide as Hin; [right|by left]. pose proof (lowest_ids _ _ _ _ _ Hm Hin) as Hl.
    pose proof (lowest_elem _ _ _ _ _ Hl) as (_ & Hu & Ha). rewrite Hm. split_and!; [done..|].
    intros j x Hx Hxu Hxa Hkept. apply Hle; [done|]. rewrite <- Hrest. by apply user_memories_elem.
  - intros id Hid. rewrite Hj, Hid. by case_decide.
Qed.
End eviction.

(** ** A fact superseded by one the person already has *)

Section superseding.
Context `{PyStr} `{PyNFC} `{PyInt} `{PyRepr}.

Lemma by_hash_unique user h s id m :
  sound s -> memories s !! id = Some m -> mm_user m = user -> mm_hash m = h -> by_hash user h s = Some (id, m).
Proof.
  intros Hs Hm Hu Hh. destruct (by_hash user h s) as [[j x]|] eqn:E.
  - apply by_hash_elem in E as (Hx & Hxu & Hxh). assert (j = id) as -> by (eapply (so_unique s Hs); [done|done|congruence|congruence]). congruence.
  - unfold by_hash in E. apply head_None in E. assert ((id, m) ∈ user_memories user (fun m => bool_decide (mm_hash m = h)) s) as Hin.
    { apply user_memories_elem. rewrite bool_decide_eq_true. done. }
    rewrite E in Hin. by apply not_elem_of_nil in Hin.
Qed.

(** [create_memory] of a text the person has, live: that memory, as it is. *)
Lemma create_existing settings sessions user content source message origin category sensitivity confidence salience expires supersedes
    actor d s h id m :
  memory_content_hash content = Ok h -> by_hash user h s = Some (id, m) -> alive m = true ->
  create_memory settings sessions user content source message origin category sensitivity confidence salience expires supersedes
    actor d s = (Ok (id, false), s).
Proof.
  intros Hh Hb Ha. destruct (hash_ok content h Hh) as (n & Hn & Hnh).
  unfold create_memory, lift, gets, mbind, op_bind. by rewrite Hn, Hnh, Hb, Ha.
Qed.

(** Operation [o] supersedes a live memory of the person, and nothing gates it. *)
Record supersedes_now (user : Z) (allowed : list text) (d : Draw) (o : MemoryOperation) (h : text) (t : string) (m : Memory) (s : Store)
    : Prop := {
  sn_op : mo_op o = of_string "supersede";
  sn_hash : memory_content_hash (mo_content o) = Ok h;
  sn_target : target_of user o s = Some (t, m);
  sn_plan : mo_category o <> PLAN;
  sn_forever : mo_ttl_days o = None;
  sn_allowed : mo_sensitivity o = of_string "sensitive" -> mo_category o ∈ allowed;
  sn_free : is_hash_suppressed user h (d_now d) s = false;
  sn_near : d_suppressed d = false
}.

(** superseding a memory by a text the person already has loses the fact:
    when that text is the memory's own, or that of a memory superseded before
    (live and switched off), the one named is switched off, nothing is switched
    on, and the extractor is told that the operation was skipped. *)
Theorem supersede_by_known_text_loses_it settings sessions user session message allowed now o d h t m e x s :
  sound s -> supersedes_now user allowed d o h t m s ->
  memories s !! e = Some x -> mm_user x = user -> mm_hash x = h -> alive x = true -> e = t \/ mm_enabled x = false ->
  exists s', apply_operation settings sessions user session message allowed now o d s = (Ok Skipped, s') /\
    forall id y, memories s' !! id = Some y -> mm_user y = user -> id = t \/ mm_hash y = h -> mm_enabled y = false.
Proof.
  intros Hs [Hop Hh Ht Hp Hf Hal Hsup Hd] Hx Hxu Hxh Hxa Hor.
  pose proof (target_elem user o s t m Ht) as [Hm Hmu].
  set (off := fun m : Memory => mm_live m false (mm_deleted m) now).
  assert (Hal' : bool_decide (mo_sensitivity o = of_string "sensitive") && negb (bool_decide (mo_category o ∈ allowed)) = false).
  { case_bool_decide; [|done]. by rewrite bool_decide_true by auto. }
  set (ev := MkMemoryEvent user (Some t) "superseded" "system" session (JObj []) (d_now d)).
  set (s1 := add_event ev (set_memories <[t := off m]> s)).
  assert (Hs1 : sound s1).
  { apply (touch_sound user (fun _ => True) (set_memories <[t := off m]> s)); [by constructor|].
    apply (touch_sound user (fun _ => True) s); [|done]. econstructor 2; try done. intros _ []. by split. }
  assert (Hb : exists x', by_hash user h s1 = Some (e, x') /\ alive x' = true).
  { destruct (decide (e = t)) as [->|Hne].
    - exists (off m). simplify_eq. split; [apply by_hash_unique; try done; unfold s1; simpl; apply lookup_insert_eq|done].
    - exists x. split; [apply by_hash_unique; try done; unfold s1; simpl; by rewrite lookup_insert_ne|done]. }
  destruct Hb as (x' & Hb & Hxa').
  exists s1. split.
  - unfold apply_operation. rewrite (op_bind_ok _ _ s (Some o) s) by (unfold _as_plan, lift; by rewrite bool_decide_false).
    rewrite Hh. rewrite (op_bind_ok _ _ s false s) by (unfold gets; by rewrite Hsup).
    rewrite Hd, Hal'. rewrite (op_bind_ok _ _ s None s) by (unfold lift; by rewrite Hf).
    rewrite (op_bind_ok _ _ s (Some (t, m)) s) by (unfold gets; by rewrite Ht).
    rewrite decide_False by (by rewrite Hop). rewrite decide_True by done.
    unfold apply_supersede. rewrite (op_bind_ok _ _ s tt (set_memories <[t := off m]> s)).
    2:{ unfold alter_memory, modify, set_memories. rewrite alter_lookup. simpl. by rewrite Hm. }
    rewrite (op_bind_ok _ _ _ tt s1) by done. rewrite (op_bind_ok _ _ s1 (e, false) s1); [done|]. by eapply create_existing.
  - intros id y Hy Hyu Hor2. unfold s1 in Hy. simpl in Hy. rewrite lookup_insert in Hy. case_decide as Hid; [by simplify_eq|].
    destruct Hor2 as [->|Hyh]; [done|]. destruct Hor as [->|Hoff].
    + exfalso. apply Hid. eapply (so_unique s Hs); [exact Hx|exact Hy|congruence|congruence].
    + assert (id = e) as ->; [|congruence]. eapply (so_unique s Hs); [exact Hy|exact Hx|congruence|congruence].
Qed.
End superseding.

(** ** Witnesses *)

#[local] Instance memory_str : PyStr := ascii_str.
#[local] Instance memory_nfc : PyNFC := {| nfc s := s |}.
#[local] Instance memory_ints : PyInt := {| int_of_str _ := None; int_of_float _ := None |}.
#[local] Instance memory_repr : PyRepr := {| repr_container _ := [] |}.
#[local] Instance memory_time : LocalTime := {| timestamp t := t |}.

Definition hash_of (content : text) : text := match memory_content_hash content with Ok h => h | Raise _ => [] end.

Definition note (user : Z) (content : string) (enabled : bool) : Memory :=
  MkMemory user (of_string content) enabled "auto" (of_string "preference") (of_string "normal") (1#2) (1#2) None None None None None
    "pending" None (hash_of (of_string content)) 1 1.

(** Person 1 liked tea, then coffee; person 2 likes tea. *)
Definition tastes : Store := MkStore
  (list_to_map [("m1", note 1 "Likes tea" false); ("m2", note 1 "Likes coffee" true); ("m3", note 2 "Likes tea" true)]%string)
  ∅ [] ∅ ∅.

Definition quiet_draw (now : Z) (id : string) : Draw := MkDraw now id false [] VUnavailable (fun _ => VUnavailable) (fun s => s).

Definition proposal (op content : string) (target : option string) : MemoryOperation :=
  MkOperation (of_string op) (of_string content) (of_string "preference") (of_string "normal") (1#2) (1#2) None (of_string <$> target).

Lemma tastes_rows id m : memories tastes !! id = Some m ->
  (id, m) ∈ [("m1", note 1 "Likes tea" false); ("m2", note 1 "Likes coffee" true); ("m3", note 2 "Likes tea" true)]%string.
Proof. unfold tastes; cbn [memories]. apply elem_of_list_to_map_2. Qed.

Lemma note_hash user content enabled : normalize_memory_content (of_string content) = Ok (of_string content) ->
  existsb (fun c => (55296 <=? c) && (c <=? 57343)) (normalize_memory_text (of_string content)) = false ->
  memory_content_hash (mm_content (note user content enabled)) = Ok (mm_hash (note user content enabled)).
Proof. intros Hn He. unfold note, hash_of. simpl. unfold memory_content_hash, encode_utf8. rewrite Hn. simpl. by rewrite He. Qed.

Lemma tea_is_not_coffee : hash_of (of_string "Likes tea") <> hash_of (of_string "Likes coffee").
Proof. vm_compute. discriminate. Qed.

#[local] Opaque hash_of.

Lemma note_typed user content enabled : typed (note user content enabled).
Proof. split; simpl; [by apply (bool_decide_unpack _); vm_compute|by apply (bool_decide_unpack _); vm_compute|unfold in_unit; lra|unfold in_unit; lra]. Qed.

Lemma tastes_sound : sound tastes.
Proof.
  pose proof tea_is_not_coffee as Hne. split.
  - intros id m Hm%tastes_rows. repeat (apply elem_of_cons in Hm as [[= -> ->]|Hm]; [apply note_typed|]). by apply not_elem_of_nil in Hm.
  - intros id m Hm%tastes_rows. repeat (apply elem_of_cons in Hm as [[= -> ->]|Hm]; [by vm_compute|]). by apply not_elem_of_nil in Hm.
  - intros id m Hm%tastes_rows. repeat (apply elem_of_cons in Hm as [[= -> ->]|Hm]; [by apply note_hash; vm_compute|]).
    by apply not_elem_of_nil in Hm.
  - intros i j m n Hm%tastes_rows Hn%tastes_rows.
    repeat (apply elem_of_cons in Hm as [[= -> ->]|Hm]; [
      repeat (apply elem_of_cons in Hn as [[= -> ->]|Hn]; [intros Hu Hh; first [reflexivity | discriminate Hu |
        exfalso; exact (Hne Hh) | exfalso; exact (Hne (eq_sym Hh))]|]); by apply not_elem_of_nil in Hn|]).
    by apply not_elem_of_nil in Hm.
Qed.

Lemma apply_keeps_others_witness :
  others_kept 1 tastes (apply_memory_operations [] ∅ 1 None None [proposal "update" "Hates tea" (Some "m3"%string)]
    (fun _ => quiet_draw 5 "m4") (quiet_draw 5 "m5") 5 tastes).2.
Proof. apply (apply_keeps_others [] ∅ 1). intros i s. by split. Defined.

Lemma apply_keeps_memories_sound_witness :
  sound (apply_memory_operations [] ∅ 1 None None [proposal "add" "Owns a  cat" None] (fun _ => quiet_draw 5 "m4") (quiet_draw 5 "m5") 5 tastes).2.
Proof.
  apply (apply_keeps_memories_sound [] ∅ 1); [|done|apply tastes_sound].
  constructor; [|done]. split; first [by apply (bool_decide_unpack _); vm_compute|unfold in_unit; simpl; lra|done].
Defined.

Lemma supersede_by_known_text_loses_it_witness :
  exists s', apply_operation [] ∅ 1 None None [] 5 (proposal "supersede" "Likes tea" (Some "m2"%string)) (quiet_draw 5 "m4") tastes
      = (Ok Skipped, s') /\
    forall id y, memories s' !! id = Some y -> mm_user y = 1 -> id = "m2"%string \/ mm_hash y = hash_of (of_string "Likes tea") ->
      mm_enabled y = false.
Proof.
  apply (supersede_by_known_text_loses_it [] ∅ 1 None None [] 5 _ _ (hash_of (of_string "Likes tea")) "m2" (note 1 "Likes coffee" true) "m1" (note 1 "Likes tea" false) tastes).
  - apply tastes_sound.
  - split; [done|apply (note_hash 1 "Likes tea" true); by vm_compute|done..].
  - done.
  - done.
  - done.
  - done.
  - by right.
Defined.

(** Person 1 deletes "Likes tea"; an extractor then proposes it again. *)
Definition deleted_tea : Store := (delete_memory [] 1 "m1" "user" "s1" 7 tastes).2.

Lemma deleted_memory_stays_deleted_witness :
  exists r s2, apply_memory_operations [] ∅ 1 None None [proposal "add" "Likes tea" None] (fun _ => quiet_draw 9 "m4") (quiet_draw 9 "m5") 9
    deleted_tea = (r, s2) /\
  forall j x, memories s2 !! j = Some x -> mm_user x = 1 -> mm_hash x <> mm_hash (note 1 "Likes tea" false).
Proof.
  destruct (apply_memory_operations _ _ _ _ _ _ _ _ _ deleted_tea) as [r s2] eqn:Hr. exists r, s2. split; [done|].
  apply (deleted_memory_stays_deleted (H3 := memory_time) (H4 := default_settings) [] 1 "m1" (note 1 "Likes tea" false) 180 "user" "s1" 7
    tastes deleted_tea s2).
  - apply tastes_sound.
  - done.
  - done.
  - done.
  - done.
  - apply rtc_once. apply (f_equal snd) in Hr. simpl in Hr. subst s2. constructor; [by intros|done].
Defined.
