(* ===== verification/Extractor.v ===== *)
(** * What the extraction model answers

    The part of [memory_extraction_service.py] that reads a model's answer: the
    JSON object in it, the operations of that object, one at a time checked for
    secrets and for instructions, the operations left whole in an answer that was
    cut off, and the second call when an answer is not JSON.

    Python's [float] is a parameter ([PyNumber]); the model is a function of the
    prompt and of the number of the call. *)

From S2P Require Import Prelude Text Json JsonParse PyText Regex MemoryJobs ChatHistory Memories.
From Stdlib Require Import QArith.
#[local] Open Scope Z_scope.

Definition EXTRACT_MAX_TOKENS : Z := 2000.

(** ** Secrets and instructions *)

Section patterns.
Context `{PyRe}.

Definition lit (s : string) : re := word (of_string s).
Definition lit_i (s : string) : re := word_i (of_string s).

(** \b(?:sk|rk|pk|api)[-_]?[A-Za-z0-9]{16,}\b *)
Definition API_KEY : re := sequence
  [Boundary; either [lit "sk"; lit "rk"; lit "pk"; lit "api"]; optional (Chr (one_char (of_string "-_"))); at_least 16 alnum; Boundary].

(** \bBearer\s+[A-Za-z0-9\-._~+/]+=* , letters in either case *)
Definition BEARER `{PyStr} : re := sequence
  [Boundary; lit_i "bearer"; at_least 1 py_isspace;
   at_least 1 (class_i (of_string "abcdefghijklmnopqrstuvwxyz0123456789-._~+/")); Many (Z.eqb 61)].

(** \b(?:\d[ -]*?){13,19}\b *)
Definition CARD : re := sequence [Boundary; Times 13 6 (Then (Chr re_digit) (Many (one_char (of_string " -")))); Boundary].

(** \b[A-Z]{2}\d{2}[A-Z0-9]{10,30}\b *)
Definition IBAN : re := sequence
  [Boundary; Times 2 0 (Chr upper); Times 2 0 (Chr re_digit); Times 10 20 (Chr (fun c => upper c || ascii_digit c)); Boundary].

(** \b(?:otp|one[- ]time(?: code)?|verification code)\b.{0,12}\b\d{4,8}\b *)
Definition OTP : re := sequence
  [Boundary; either [lit_i "otp"; sequence [lit_i "one"; Chr (class_i (of_string "- ")); lit_i "time"; optional (lit_i " code")];
     lit_i "verification code"];
   Boundary; Times 0 12 (Chr dot); Boundary; Times 4 4 (Chr re_digit); Boundary].

(** \b(?:national id|meli|کد ملی)\b.{0,10}\b\d{10}\b *)
Definition NATIONAL_ID : re := sequence
  [Boundary; either [lit_i "national id"; lit_i "meli"; word_i [1705; 1583; 32; 1605; 1604; 1740]];
   Boundary; Times 0 10 (Chr dot); Boundary; Times 10 0 (Chr re_digit); Boundary].

Definition _SECRET_PATTERNS `{PyStr} : list re := [API_KEY; BEARER; CARD; IBAN; OTP; NATIONAL_ID].

Definition words_i (ws : list string) : re := either (lit_i <$> ws).

Definition _INJECTION_PATTERNS : list re :=
  [sequence [Boundary; words_i ["ignore"; "disregard"; "forget"; "override"]%string; Boundary; Times 0 80 (Chr any); Boundary;
     words_i ["previous"; "prior"; "system"; "developer"; "safety"]%string; Boundary; Times 0 40 (Chr any); Boundary;
     words_i ["instruction"; "prompt"; "rule"]%string];
   sequence [Boundary; words_i ["remember"; "store"; "save"]%string; Boundary; Times 0 80 (Chr dot); Boundary;
     words_i ["the user approves"; "ignore safety"; "transfer all"]%string; Boundary]].

Definition contains_secret `{PyStr} (t : text) : bool := existsb (fun r => search r t) _SECRET_PATTERNS.
Definition looks_like_injection (t : text) : bool := existsb (fun r => search r t) _INJECTION_PATTERNS.
End patterns.

(** ** Numbers *)

Inductive pyfloat := Finite (q : Q) | Infinite (negative : bool) | NotANumber.

(** [float] of an int ([None]: [OverflowError]), of a string ([None]:
    [ValueError]) and of a float given by its [repr]. *)
Class PyNumber := {
  float_of_int : Z -> option pyfloat;
  float_of_text : text -> option pyfloat;
  float_of_repr : text -> pyfloat
}.

Definition TypeError : exn := OtherError "TypeError".
Definition OverflowError : exn := OtherError "OverflowError".

(** The exceptions that an [except ValueError] catches. *)
Definition is_value_error (e : exn) : bool := match e with ValueError _ => true | _ => false end.

Section numbers.
Context `{PyNumber} `{PyInt} `{PyRepr} `{PyStr}.

Definition float_of (v : json) : res pyfloat :=
  match v with
  | JBool b => Ok (Finite (if b then 1%Q else 0%Q))
  | JInt n => match float_of_int n with Some x => Ok x | None => Raise OverflowError end
  | JFloat r => Ok (float_of_repr r)
  | JStr s => match float_of_text s with Some x => Ok x | None => Raise (ValueError "could not convert string to float") end
  | JNull | JList _ | JObj _ => Raise TypeError
  end.

(** [try: float(value or 0.5) except (TypeError, ValueError): 0.5] *)
Definition float_or_half (value : option json) : res pyfloat :=
  match value with
  | Some v => if truthy v then
      match float_of v with
      | Ok x => Ok x
      | Raise e => if is_value_error e || bool_decide (e = TypeError) then Ok (Finite (1 # 2)) else Raise e
      end
    else Ok (Finite (1 # 2))
  | None => Ok (Finite (1 # 2))
  end.

(** [max(0.0, min(1.0, x))]; [min(1.0, nan)] is [1.0]. *)
Definition clamp (x : pyfloat) : Q :=
  match x with Finite q => clamp01 q | Infinite true => 0%Q | Infinite false | NotANumber => 1%Q end.

(** [int(value)] that may also overflow. *)
Definition int_or_overflow (v : json) : res Z :=
  match v with
  | JFloat r => match float_of_repr r with Infinite _ => Raise OverflowError | _ => int_of v end
  | _ => int_of v
  end.

(** The days a memory lasts; [int]'s [TypeError] is this library's [OtherError]. *)
Definition ttl_of (value : option json) : res (option Z) :=
  match value with
  | None | Some JNull => Ok None
  | Some v =>
      if bool_decide (strip (py_str v) = []) then Ok None
      else match int_or_overflow v with
      | Ok n => Ok (if n <=? 0 then None else Some n)
      | Raise e => if bool_decide (e = OverflowError) then Raise e else Ok None
      end
  end.
End numbers.

(** ** Operations *)

Section operations.
Context `{PyNumber} `{PyInt} `{PyRepr} `{PyStr} `{PyFloat} `{PyRe}.

(** [str(item.get(name) or default)] *)
Definition str_or (default : string) (name : string) (item : list (text * json)) : text :=
  match field (of_string name) item with Some v => if truthy v then py_str v else of_string default | None => of_string default end.

(** [value.strip().lower()], or [default] when it is none of [allowed]. *)
Definition lowered (t : text) : text := py_lower (strip t).

(** One item of the list; [None] when it is left out. *)
Definition parse_item (item : json) : res (option MemoryOperation) :=
  match item with
  | JObj fields =>
      let op := lowered (str_or "add" "op" fields) in
      if negb (bool_decide (op ∈ (of_string <$> ["add"; "update"; "supersede"]%string))) then Ok None
      else match normalize_memory_content (str_or "" "content" fields) with
      | Raise _ => Ok None
      | Ok content =>
          if looks_like_injection content || contains_secret content then Ok None
          else
            let category := let c := lowered (str_or "other" "category" fields) in
              if bool_decide (c ∈ MEMORY_CATEGORIES) then c else of_string "other" in
            let sensitivity := let s := lowered (str_or "normal" "sensitivity" fields) in
              if bool_decide (s ∈ SENSITIVITIES) then s else of_string "normal" in
            let target := match strip (str_or "" "target_id" fields) with [] => None | t => Some t end in
            match ttl_of (field (of_string "ttl_days") fields), float_or_half (field (of_string "confidence") fields),
                  float_or_half (field (of_string "salience") fields) with
            | Raise e, _, _ | Ok _, Raise e, _ | Ok _, Ok _, Raise e => Raise e
            | Ok ttl, Ok confidence, Ok salience =>
                Ok (Some (MkOperation op (take 200 content) category sensitivity (clamp confidence) (clamp salience) ttl target))
            end
      end
  | _ => Ok None
  end.

Fixpoint parse_items (items : list json) : res (list MemoryOperation) :=
  match items with
  | [] => Ok []
  | item :: items =>
      match parse_item item with
      | Raise e => Raise e
      | Ok o => match parse_items items with Raise e => Raise e | Ok os => Ok (option_list o ++ os) end
      end
  end.

Definition ExtractionParseError (message : string) : exn := ValueError message.

(** [parse_operations] of an object. *)
Definition parse_payload (payload : list (text * json)) : res (list MemoryOperation) :=
  match field (of_string "operations") payload with
  | None | Some JNull => Ok []
  | Some (JList items) => parse_items (take MAX_OPS items)
  | Some _ => Raise (ExtractionParseError "operations must be a list")
  end.

(** ** The JSON object in an answer *)

Definition FENCE : text := [96; 96; 96].

Fixpoint drop_prefix (p s : text) : option text :=
  match p, s with
  | [], _ => Some s
  | c :: p, d :: s => if c =? d then drop_prefix p s else None
  | _ :: _, [] => None
  end.

(** [re.sub(r"^```(?:json)?\s*", "", raw)] of a text that starts with a fence *)
Definition open_fence (raw : text) : text :=
  match drop_prefix FENCE raw with
  | Some rest => lstrip (default rest (drop_prefix (of_string "json") rest))
  | None => raw
  end.

(** [re.sub(r"\s*```$", "", raw)] of a text that does not end in a newline *)
Definition close_fence (raw : text) : text :=
  match drop_prefix FENCE (rev raw) with Some rest => rev (lstrip rest) | None => raw end.

(** [re.search(r"\{.*\}", raw, re.DOTALL)]: from the first opening brace to the last closing one. *)
Fixpoint from_brace (c : Z) (s : text) : text :=
  match s with [] => [] | d :: s' => if c =? d then s else from_brace c s' end.

Definition braces (raw : text) : option text :=
  match rev (from_brace 125 (rev (from_brace 123 raw))) with
  | [] | [_] => None
  | t => Some t
  end.

Definition _first_json_object (answer : text) : res (list (text * json)) :=
  let raw := strip answer in
  let raw := if starts_with FENCE raw then close_fence (open_fence raw) else raw in
  match loads raw with
  | Some (JObj fields) => Ok fields
  | _ =>
      match braces raw with
      | None => Raise (ExtractionParseError "No JSON object in extractor output")
      | Some t =>
          match loads t with
          | None => Raise (ValueError "JSONDecodeError")
          | Some (JObj fields) => Ok fields
          | Some _ => Raise (ExtractionParseError "Extractor JSON is not an object")
          end
      end
  end.

Definition parse_operations (answer : text) : res (list MemoryOperation) :=
  match _first_json_object answer with Ok payload => parse_payload payload | Raise e => Raise e end.

(** ** An answer that was cut off *)

(** What follows the first match of ["operations"\s*:\s*\[ . *)
Definition operations_start (s : text) : option text :=
  match drop_prefix ([34] ++ of_string "operations" ++ [34]) s with
  | Some rest =>
      match lstrip rest with
      | 58 :: rest => match lstrip rest with 91 :: rest => Some rest | _ => None end
      | _ => None
      end
  | None => None
  end.

Fixpoint find_operations (s : text) : option text :=
  match operations_start s with
  | Some rest => Some rest
  | None => match s with [] => None | _ :: s => find_operations s end
  end.

Fixpoint skip_separators (s : text) : text :=
  match s with c :: s' => if is_ws c || (c =? 44) then skip_separators s' else s | [] => [] end.

(** The loop over [raw_decode]; every object consumes its opening brace. *)
Fixpoint whole_objects (fuel : nat) (s : text) : list json :=
  match fuel with
  | O => []
  | S fuel =>
      match skip_separators s with
      | (123 :: _) as s =>
          match read_value (S (length s)) s with
          | Some (item, rest) => item :: whole_objects fuel rest
          | None => []
          end
      | _ => []
      end
  end.

Definition salvage_operations (answer : text) : option (list (text * json)) :=
  match find_operations answer with
  | None => None
  | Some rest =>
      match whole_objects (S (length rest)) rest with
      | [] => None
      | items => Some [(of_string "operations", JList items)]
      end
  end.

(** ** The two calls *)

Definition ExtractionTruncated : exn := OtherError "ExtractionTruncated".

Definition LENGTH : text := of_string "length".

Section answer.
Context {A : Type} (parse : text -> res A).

Definition _cut (answer : text) : res A :=
  match parse answer with
  | Raise (ValueError _) =>
      match salvage_operations answer with
      | None => Raise ExtractionTruncated
      | Some salvaged => parse (json_dumps (JObj salvaged))
      end
  | r => r
  end.

(** [call n] is the text and the finish reason of call [n]. *)
Definition _parsed_answer (call : nat -> res (text * text)) : res A :=
  match call 0%nat with
  | Raise e => Raise e
  | Ok (answer, finish) =>
      if bool_decide (finish = LENGTH) then _cut answer
      else match parse answer with
      | Raise (ValueError _) =>
          match call 1%nat with
          | Raise e => Raise e
          | Ok (answer, finish) =>
              if bool_decide (finish = LENGTH) then _cut answer
              else match parse answer with Ok a => Ok a | Raise _ => Raise (ExtractionParseError "unusable answer") end
          end
      | r => r
      end
  end.

(** [model] resolves the model set and calls it with the user's content. *)
Definition ask_extractor (settings : list (text * json)) (model : text -> nat -> res (text * text)) (user_content : text)
    : res (option A) :=
  match int_or EXTRACT_MAX_TOKENS (field (of_string "extract_max_tokens") settings) with
  | Raise e => Raise e
  | Ok _ =>
      match field (of_string "extraction_model_id") settings with
      | Some v => if truthy v then match _parsed_answer (model user_content) with Ok a => Ok (Some a) | Raise e => Raise e end else Ok None
      | None => Ok None
      end
  end.
End answer.
End operations.
