(* ===== verification/ExtractorFacts.v ===== *)
(** * What reading an answer promises

    Whatever a model answers, what is read from it are well-typed operations on
    the starts of harmless texts; and of an answer that was cut off, the operations
    that were whole are kept. *)

From S2P Require Import Prelude Text Json JsonParse PyText Regex MemoryJobs ChatHistory Memories MemoriesFacts Extractor.
From Stdlib Require Import QArith Lqa.
#[local] Open Scope Z_scope.

Section typing.
Context `{PyNumber} `{PyInt} `{PyRepr} `{PyStr} `{PyFloat} `{PyRe}.

(** A text from which an operation may be stored: in normal form, without a
    secret and without instructions. *)
Definition harmless (t : text) : Prop :=
  normalize_memory_content t = Ok t /\ contains_secret t = false /\ looks_like_injection t = false.

(** An operation that may be stored: what was found harmless is the whole text,
    and its first 200 characters are what is kept.  A shorter text was kept whole. *)
Definition acceptable (o : MemoryOperation) : Prop :=
  typed_operation o /\ mo_content o <> [] /\ (length (mo_content o) <= 200)%nat /\
  ((length (mo_content o) < 200)%nat -> harmless (mo_content o)) /\
  exists full, harmless full /\ mo_content o = take 200 full.

Lemma clamp_unit x : in_unit (clamp x).
Proof. destruct x as [q|[|]|]; simpl; [apply clamp01_unit|unfold in_unit; lra..]. Qed.

Lemma ttl_positive v n : ttl_of v = Ok (Some n) -> 0 < n.
Proof.
  unfold ttl_of. destruct v as [v|]; [|done]. destruct v; try done.
  all: case_bool_decide; [done|]; destruct (int_or_overflow _) as [m|e]; [|by case_bool_decide].
  all: destruct (Z.leb_spec m 0); [done|]; by intros [= <-].
Qed.

Lemma parse_item_acceptable item o : parse_item item = Ok (Some o) -> acceptable o.
Proof.
  unfold parse_item. destruct item as [| | | | | |fields]; try done. case_bool_decide as Hop; simpl; [|done].
  destruct (normalize_memory_content _) as [full|] eqn:Hn; [|done]. destruct (_ || _) eqn:Hbad; [done|].
  apply orb_false_iff in Hbad as [Hinj Hsec].
  destruct (ttl_of _) as [ttl|] eqn:Httl; [|done]. destruct (float_or_half _) as [c|]; [|done].
  destruct (float_or_half _) as [sal|]; [|done]. intros [= <-].
  assert (Hfull : harmless full) by (split_and!; [by eapply normalize_idempotent|done|done]).
  split_and!; simpl.
  - split; simpl; [done| | |apply clamp_unit|apply clamp_unit|].
    + case_bool_decide; [done|]. apply (bool_decide_unpack _). by vm_compute.
    + case_bool_decide; [done|]. apply (bool_decide_unpack _). by vm_compute.
    + intros n ->. by eapply ttl_positive.
  - apply normal_form_ok in Hn as (_ & Hne & _). by destruct full.
  - rewrite length_take. lia.
  - rewrite length_take. intros Hlt. by rewrite take_ge by lia.
  - by exists full.
Qed.

Lemma parse_items_acceptable items os : parse_items items = Ok os -> Forall acceptable os /\ (length os <= length items)%nat.
Proof.
  revert os. induction items as [|item items IH]; intros os; simpl; [intros [= <-]; by split|].
  destruct (parse_item item) as [o|] eqn:Ho; [|done]. destruct (parse_items items) as [l|]; [|done]. intros [= <-].
  destruct (IH l eq_refl) as [Hl Hlen]. destruct o as [o|]; simpl; [|split; [done|lia]].
  split; [constructor; [by eapply parse_item_acceptable|done]|lia].
Qed.

Lemma parse_acceptable answer os : parse_operations answer = Ok os -> Forall acceptable os /\ (length os <= MAX_OPS)%nat.
Proof.
  unfold parse_operations, parse_payload. destruct (_first_json_object answer) as [fields|]; [|done].
  destruct (field _ fields) as [v|]; [|intros [= <-]; split; [done|unfold MAX_OPS; simpl; lia]].
  destruct v as [| | | | |items|]; try done; [intros [= <-]; split; [done|unfold MAX_OPS; simpl; lia]|].
  intros Hos. destruct (parse_items_acceptable _ _ Hos) as [Ha Hl]. split; [done|]. rewrite length_take in Hl. lia.
Qed.

Lemma cut_inv answer os : _cut parse_operations answer = Ok os -> exists a, parse_operations a = Ok os.
Proof.
  unfold _cut. destruct (parse_operations answer) as [l|[]] eqn:E; try done; [by intros [= <-]; exists answer|].
  destruct (salvage_operations answer) as [fields|]; [|done]. intros Hos. by eexists.
Qed.

(** Whichever way an answer is taken, some text was parsed to it. *)
Lemma parsed_inv call os : _parsed_answer parse_operations call = Ok os -> exists a, parse_operations a = Ok os.
Proof.
  unfold _parsed_answer. destruct (call 0%nat) as [[a f]|]; [|done]. case_bool_decide; [apply cut_inv|].
  destruct (parse_operations a) as [l|[]] eqn:E; try done; [by intros [= <-]; exists a|].
  destruct (call 1%nat) as [[a' f']|]; [|done]. case_bool_decide; [apply cut_inv|].
  destruct (parse_operations a') as [l|] eqn:E'; [|done]. intros [= <-]. by exists a'.
Qed.

(** C24: whatever a model answers, whole, repaired or cut off, what comes of it
    are at most five well-typed operations: a known verb, category and
    sensitivity, numbers between 0 and 1, days above 0, and a text of 1 to 200
    characters.  A text shorter than 200 is in normal form and holds no secret and
    no instruction; one of 200 is the start of such a text. *)
Theorem answers_are_acceptable settings model prompt os :
  ask_extractor parse_operations settings model prompt = Ok (Some os) -> Forall acceptable os /\ (length os <= MAX_OPS)%nat.
Proof.
  unfold ask_extractor. destruct (int_or _ _); [|done]. destruct (field _ settings) as [v|]; [|done]. destruct (truthy v); [|done].
  destruct (_parsed_answer _ _) as [l|] eqn:E; [|done]. intros [= <-]. apply parsed_inv in E as [answer Ha]. by eapply parse_acceptable.
Qed.
End typing.

(** ** An answer that was cut off *)

Section salvage.
Context `{PyStr} `{PyFloat}.

Definition is_object (v : json) : Prop := match v with JObj _ => True | _ => False end.

(** What the decoder cannot read an object from. *)
Definition broken (s : text) : Prop :=
  match skip_separators s with (123 :: _) as s => read_value (S (length s)) s = None | _ => True end.

Lemma whole_objects_end fuel s : broken s -> whole_objects fuel s = [].
Proof.
  unfold broken. destruct fuel as [|fuel]; [done|]. simpl. destruct (skip_separators s) as [|c r]; [done|].
  intros Hb. repeat (case_match; try done).
Qed.

Lemma whole_objects_print items tail : forall fuel,
  Forall (fun v => is_object v /\ printable v /\ py_value v) items -> broken (44 :: tail) -> (length items < fuel)%nat ->
  whole_objects fuel (sep_by (map print items) ++ 44 :: tail) = items.
Proof.
  induction items as [|v items IH]; intros fuel Hi Hb Hf; [by apply whole_objects_end|].
  destruct fuel as [|fuel]; [lia|]. apply Forall_cons in Hi as [(Ho & Hp & Hv) Hi]. destruct v as [| | | | | |fields]; try done.
  assert (Hrest : exists rest, sep_by (map print (JObj fields :: items)) ++ 44 :: tail = print (JObj fields) ++ 44 :: rest /\
    whole_objects fuel (44 :: rest) = items).
  { destruct items as [|w items]; [exists tail; split; [done|by apply whole_objects_end]|].
    rewrite sep_by_two, <- app_assoc. exists (sep_by (map print (w :: items)) ++ 44 :: tail). split; [done|].
    assert (fuel = S (pred fuel)) as -> by (simpl in Hf; lia).
    specialize (IH (S (pred fuel)) Hi Hb ltac:(simpl in *; lia)). rewrite <- IH at 2. simpl. done. }
  destruct Hrest as (rest & -> & Hrest).
  pose proof (read_value_print (JObj fields) (44 :: rest) (S (length (print (JObj fields) ++ 44 :: rest))) Hp Hv ltac:(done)
    ltac:(rewrite length_app; simpl; lia)) as Hr.
  assert (Hhead : exists t, print (JObj fields) ++ 44 :: rest = 123 :: t) by (rewrite print_obj; by eexists).
  destruct Hhead as [t Ht]. rewrite Ht in *.
  change (whole_objects (S fuel) (123 :: t)) with (match read_value (S (length (123 :: t))) (123 :: t) with
    | Some (item, rest) => item :: whole_objects fuel rest | None => [] end).
  rewrite Hr. by rewrite Hrest.
Qed.

(** An answer's beginning: its operations, and the start of one more. *)
Definition cut_off (items : list json) (tail : text) : text :=
  123 :: print_str (of_string "operations") ++ 58 :: 91 :: sep_by (map print items) ++ 44 :: tail.

Lemma operations_found r :
  lstrip (58 :: 91 :: r) = 58 :: 91 :: r -> lstrip (91 :: r) = 91 :: r ->
  find_operations (123 :: print_str (of_string "operations") ++ 58 :: 91 :: r) = Some r.
Proof.
  intros Ha Hb. assert (Hs : operations_start (print_str (of_string "operations") ++ 58 :: 91 :: r) = Some r).
  { transitivity (match lstrip (58 :: 91 :: r) with
      | 58 :: rest => match lstrip rest with 91 :: rest => Some rest | _ => None end | _ => None end); [reflexivity|].
    by rewrite Ha, Hb. }
  transitivity (find_operations (print_str (of_string "operations") ++ 58 :: 91 :: r)); [reflexivity|].
  generalize dependent (print_str (of_string "operations") ++ 58 :: 91 :: r). intros t Hs. destruct t; [done|]. cbn [find_operations]. by rewrite Hs.
Qed.

(** The operations an answer held whole before it was cut off are all kept,
    in order, and the broken one after them is not. *)
Theorem salvage_keeps_whole_operations items tail :
  Forall (fun c => py_isspace c = false) [58; 91; 123] ->
  items <> [] -> Forall (fun v => is_object v /\ printable v /\ py_value v) items -> broken (44 :: tail) ->
  salvage_operations (cut_off items tail) = Some [(of_string "operations", JList items)].
Proof.
  intros Hsp Hne Hi Hb. apply Forall_cons in Hsp as [H58 Hsp]. apply Forall_cons in Hsp as [H91 Hsp]. apply Forall_cons in Hsp as [H123 _].
  unfold salvage_operations. set (rest := sep_by (map print items) ++ 44 :: tail).
  assert (Hf : find_operations (cut_off items tail) = Some rest).
  { unfold cut_off. fold rest. generalize rest. intros r. apply operations_found; by apply lstrip_id. }
  rewrite Hf, (whole_objects_print items tail); [by destruct items|done|done|].
  assert (Hl : forall l, Forall (fun v => is_object v /\ printable v /\ py_value v) l -> (length l <= length (sep_by (map print l)))%nat).
  { clear. induction l as [|v l IH]; intros Hl; [done|]. apply Forall_cons in Hl as [(Ho & _) Hl].
    assert (1 <= length (print v))%nat by (destruct v; try done; simpl; lia).
    destruct l as [|w l]; [done|]. rewrite sep_by_two, length_app. specialize (IH Hl). cbn [length] in *. lia. }
  unfold rest. rewrite length_app. cbn [length]. specialize (Hl items Hi). lia.
Qed.
End salvage.

(** ** Witnesses *)

#[local] Instance answer_str : PyStr := ascii_str.
#[local] Instance answer_re : PyRe := ascii_re.
#[local] Instance answer_ints : PyInt := {| int_of_str _ := None; int_of_float _ := None |}.
#[local] Instance answer_repr : PyRepr := {| repr_container _ := [] |}.
#[local] Instance answer_tokens : PyFloat := {| float_of_token t := if bool_decide (t = of_string "0.9") then Some t else None |}.
#[local] Instance answer_numbers : PyNumber := {|
  float_of_int n := Some (Finite (inject_Z n)); float_of_text _ := None;
  float_of_repr t := if bool_decide (t = of_string "0.9") then Finite (9 # 10) else NotANumber |}.

Definition quoted (s : string) : text := of_string s ≫= fun c => if c =? 39 then [34] else [c].

(** A fenced answer: one operation to keep, one that holds a secret, one of an unknown verb. *)
Definition fenced_answer : text :=
  FENCE ++ of_string "json" ++ [10] ++
  quoted "{'operations':[{'op':'Add','content':'Works  nights','confidence':0.9,'salience':7,'ttl_days':-1},{'content':'key sk-abcdefgh12345678'},{'op':'drop','content':'x'}]}"
  ++ [10] ++ FENCE.

Definition learn_settings : list (text * json) := [(of_string "extraction_model_id", JInt 3)].

Definition kept_operation : MemoryOperation :=
  MkOperation (of_string "add") (of_string "Works nights") (of_string "other") (of_string "normal") (9 # 10) 1 None None.

Lemma answers_are_acceptable_witness : acceptable kept_operation.
Proof.
  destruct (answers_are_acceptable learn_settings (fun _ _ => Ok (fenced_answer, of_string "stop")) [] [kept_operation]) as [Ha _];
    [vm_compute; reflexivity|]. by apply Forall_cons in Ha as [Ha _].
Defined.

Lemma salvage_keeps_whole_operations_witness :
  salvage_operations (cut_off [JObj [(of_string "content", JStr (of_string "Works nights"))]] (quoted "{'op':'add','con")) =
  Some [(of_string "operations", JList [JObj [(of_string "content", JStr (of_string "Works nights"))]])].
Proof.
  apply (salvage_keeps_whole_operations [JObj [(of_string "content", JStr (of_string "Works nights"))]] (quoted "{'op':'add','con")).
  - by repeat constructor.
  - done.
  - constructor; [|done]. split_and!; [done| |].
    + simpl. split_and!; try done; apply code_points_ascii.
    + simpl. split_and!; try done. constructor; [by apply not_elem_of_nil|constructor].
  - vm_compute. reflexivity.
Defined.

(** The start of a harmless text need not be harmless: a run of digits too long for
    a card's, cut at the 200th character, is a card's. *)
Definition digits_through_the_cut : text := repeat 97 183 ++ 32 :: repeat 52 24.

Example secret_through_the_cut :
  contains_secret digits_through_the_cut = false /\
  match ask_extractor parse_operations learn_settings
      (fun _ _ => Ok (quoted "{'operations':[{'content':'" ++ digits_through_the_cut ++ quoted "'}]}", of_string "stop")) [] with
  | Ok (Some [o]) => contains_secret (mo_content o) = true
  | _ => False
  end.
Proof. split; vm_compute; reflexivity. Qed.
