(* ===== verification/Extraction.v ===== *)
(** * Mining a chat for memories

    The windows and the runs of [memory_extraction_service.py]: a job's stretch of
    chat is read in parts, oldest first; a part's memories and the job's progress
    are written together, unless the progress moved while the model was thinking
    or the memories were being written.

    [PartWorld] is what one part meets: the settings and gates as they are when it
    starts, the messages, the model, and what other transactions commit while the
    model thinks ([pw_thinking]), while the part is written ([pw_writing]) and
    after it is committed ([pw_between]).  A part that raises is rolled back by the
    worker that runs the job. *)

From S2P Require Import Prelude Text Json JsonParse PyTime PyText Regex Outbox MemoryJobs ChatHistory Memories Extractor.
From Stdlib Require Import QArith.
#[local] Open Scope Z_scope.

Definition MAX_MESSAGE_CHARS : nat := 4000.
Definition MAX_WINDOW_CHARS : Z := 24000.
Definition CONTEXT_CHARS : Z := 6000.
Definition PRE_WINDOW_MESSAGES : Z := 4.
Definition MAX_WINDOW_TURNS : Z := 200.
Definition MAX_PARTS_PER_RUN : nat := 4.
Definition MIN_WINDOW_CHARS : Z := 3000.
Definition HAND_OVER_SECONDS : Z := 60.

(** ** Windows *)

Record WindowTurn := MkTurn { wt_role : string; wt_sequence : Z; wt_text : text; wt_message : string }.

Record RetrievedMemory := MkRetrieved { rm_id : string; rm_content : text; rm_category : text; rm_sensitivity : text; rm_salience : Q }.

Record ExtractionWindow := MkWindow {
  ew_user : Z; ew_session : string; ew_from : Z; ew_to : Z; ew_turns : list WindowTurn; ew_existing : list RetrievedMemory
}.

Definition new_turns (w : ExtractionWindow) : list WindowTurn := filter (fun t => ew_from w <= wt_sequence t) (ew_turns w).

Definition chars (t : WindowTurn) : Z := Z.of_nat (length (wt_text t)).
Definition total_chars (ts : list WindowTurn) : Z := foldr (fun t n => chars t + n) 0 ts.

(** The newest turns that fit in [room]; [newest_first] is read from its head. *)
Fixpoint keep_context (room : Z) (newest_first : list WindowTurn) : list WindowTurn :=
  match newest_first with
  | [] => []
  | t :: older => if room <? chars t then [] else keep_context (room - chars t) older ++ [t]
  end.

(** The new turns from the oldest on while the whole fits; the first always does. *)
Fixpoint keep_fresh (max_chars covered_to : Z) (kept : bool) (total : Z) (fresh : list WindowTurn) : list WindowTurn * Z :=
  match fresh with
  | [] => ([], covered_to)
  | t :: fresh =>
      if kept && (max_chars <? total + chars t) then ([], wt_sequence t - 1)
      else let '(ts, covered) := keep_fresh max_chars covered_to true (total + chars t) fresh in (t :: ts, covered)
  end.

Definition fit_extraction_window (turns : list WindowTurn) (start covered_to max_chars : Z) : list WindowTurn * Z :=
  let context := keep_context (Z.min CONTEXT_CHARS (max_chars / 4)) (rev (filter (fun t => wt_sequence t < start) turns)) in
  let '(kept, covered) := keep_fresh max_chars covered_to false (total_chars context) (filter (fun t => start <= wt_sequence t) turns) in
  (context ++ kept, covered).

Section windows.
Context `{PyStr} `{PyRepr} `{PyFloat}.

(** A part of a list content, as a text. *)
Definition list_part (item : json) : list text :=
  match item with
  | JObj _ => part_text item
  | JStr s => [s]
  | _ => []
  end.

Definition extract_message_text (content : json) : res text :=
  match content with
  | JList items => Ok (strip (join [32] (items ≫= list_part)))
  | JStr _ => message_text_for_model content
  | _ => Ok (strip (if truthy content then py_str content else []))
  end.

(** The chat's user and assistant messages from [lo] to [hi], oldest first. *)
Definition dialogue (session : string) (lo hi : Z) (messages : list Message) : list Message :=
  sort_by msg_sequence (filter (fun m => msg_session m = session /\ lo <= msg_sequence m <= hi /\ is_dialogue m = true) messages).

(** The turn a row is read as, when the model may read it. *)
Definition turn_of (message_id : Z -> string) (m : Message) : res (option WindowTurn) :=
  if restates_a_shared_page m || restates_mail m || refused_by_guardrails (msg_meta m) then Ok None
  else match extract_message_text (JStr (msg_content m)) with
  | Raise e => Raise e
  | Ok words =>
      let words := take MAX_MESSAGE_CHARS words in
      if bool_decide (strip words = []) then Ok None
      else Ok (Some (MkTurn (msg_role m) (msg_sequence m) words (message_id (msg_sequence m))))
  end.

Fixpoint turns_of (message_id : Z -> string) (rows : list Message) : res (list WindowTurn) :=
  match rows with
  | [] => Ok []
  | m :: rows =>
      match turn_of message_id m with
      | Raise e => Raise e
      | Ok t => match turns_of message_id rows with Raise e => Raise e | Ok ts => Ok (option_list t ++ ts) end
      end
  end.

(** ORDER BY salience DESC, updated_at DESC *)
Definition best_first (a b : string * Memory) : Prop :=
  match Qcompare (mm_salience b.2) (mm_salience a.2) with Lt => True | Gt => False | Eq => mm_updated b.2 <= mm_updated a.2 end.

#[export] Instance best_first_dec : RelDecision best_first.
Proof. intros a b. unfold best_first. case_match; apply _. Defined.

Definition existing_memories (user : Z) (s : Store) : list RetrievedMemory :=
  (fun kv => MkRetrieved kv.1 (mm_content kv.2) (match mm_category kv.2 with [] => of_string "other" | c => c end)
     (match mm_sensitivity kv.2 with [] => of_string "normal" | c => c end) (mm_salience kv.2))
  <$> take 40 (merge_sort best_first (user_memories user (fun m => alive m && mm_enabled m) s)).

Definition build_extraction_window (messages : list Message) (message_id : Z -> string) (user : Z) (session : string)
    (from_sequence to_sequence max_chars : Z) (s : Store) : res ExtractionWindow :=
  let start := Z.max 0 from_sequence in
  let stop := Z.max start to_sequence in
  let rows := take (Z.to_nat (PRE_WINDOW_MESSAGES + MAX_WINDOW_TURNS))
    (dialogue session (Z.max 0 (start - PRE_WINDOW_MESSAGES)) stop messages) in
  let covered_to := match last rows with
    | Some m => if PRE_WINDOW_MESSAGES + MAX_WINDOW_TURNS <=? Z.of_nat (length rows) then msg_sequence m else stop
    | None => stop
    end in
  match turns_of message_id rows with
  | Raise e => Raise e
  | Ok turns =>
      let '(kept, covered) := fit_extraction_window turns start covered_to max_chars in
      Ok (MkWindow user session start covered kept (existing_memories user s))
  end.

(** ** The prompt *)

Definition existing_line (m : RetrievedMemory) : text :=
  of_string "- id=" ++ of_string (rm_id m) ++ of_string " [" ++ rm_category m ++ of_string "] " ++ rm_content m.

Definition turn_line (t : WindowTurn) : text :=
  of_string "[" ++ of_string (wt_role t) ++ of_string " #" ++ of_int (wt_sequence t) ++ of_string "] " ++ wt_text t.

Definition or_none (t : text) : text := match t with [] => of_string "(none)" | _ => t end.

Definition _window_prompt (w : ExtractionWindow) : text :=
  of_string "Existing memories:" ++ 10 :: or_none (join [10] (existing_line <$> take 40 (ew_existing w))) ++ [10; 10] ++
  of_string "BEGIN_UNTRUSTED_CONVERSATION" ++ 10 :: join [10] (turn_line <$> ew_turns w) ++ 10 ::
  of_string "END_UNTRUSTED_CONVERSATION" ++ [10].

(** Half of what the part held, unless that is too little to read. *)
Definition smaller_part (w : ExtractionWindow) (max_chars : Z) : res Z :=
  let smaller := Z.min max_chars (total_chars (ew_turns w)) / 2 in
  if (smaller <? MIN_WINDOW_CHARS) || (length (new_turns w) <=? 1)%nat then
    Raise (ExtractionParseError "The extraction model ran out of room even for a small part of the chat")
  else Ok smaller.
End windows.

(** ** Spending ([extraction_budget_exhausted]) *)

Record UsageRow := MkUsage { us_type : string; us_started : Z; us_cost : Q }.

Definition MONTHLY_BUDGET_OPERATION_TYPES : list string := ["memory_extract"; "project_memory_extract"]%string.

Definition extraction_spend_this_month (usage : list UsageRow) (now : Z) : Q :=
  foldr (fun r q => (us_cost r + q)%Q) 0%Q
    (filter (fun r => us_type r ∈ MONTHLY_BUDGET_OPERATION_TYPES /\ month_start now <= us_started r) usage).

(** [cap] is the setting, 0 for none. *)
Definition extraction_budget_exhausted (cap : Q) (usage : list UsageRow) (now : Z) : bool :=
  if Qle_bool cap 0 then false else Qle_bool cap (extraction_spend_this_month usage now).

(** ** A part *)

Record PartWorld := MkPartWorld {
  pw_settings : list (text * json); pw_prefs : list (text * json); pw_sessions : table ChatSession; pw_chat : bool;
  pw_cap : Q; pw_usage : list UsageRow; pw_messages : list Message; pw_message_id : Z -> string;
  pw_model : text -> nat -> res (text * text);
  pw_thinking : Store -> Store; pw_writing : Store -> Store; pw_between : Store -> Store;
  pw_draws : nat -> Draw; pw_last : Draw;
  pw_new_id : string; pw_nonce : string; pw_event_id : string; pw_race : Store -> Store;
  pw_now : Z
}.

Section mining.
Context `{PyNumber} `{PyInt} `{PyRepr} `{PyStr} `{PyFloat} `{PyRe} `{PyNFC} `{LocalTime} `{Settings}.
#[local] Existing Instance user_scope.
Implicit Types (id : string) (job : MemoryJob Z) (w : PartWorld).

Definition with_extracted job (to : Z) : MemoryJob Z :=
  mem_with job (m_status job) (watermark_sequence job) to (run_after job) (m_attempt_count job) (lease_expires_at job)
    (m_worker_id job) (m_last_error job) (m_updated_at job).

Definition _watermark_moved id (window_from : Z) (s : Store) : bool :=
  match extraction_jobs s !! id with Some live => negb (extracted_sequence live =? window_from) | None => true end.

(** Compare-and-set of [extracted_sequence]; the loaded job follows. *)
Definition advance_watermark id job (window_from to : Z) : op Store (bool * MemoryJob Z) := fun s =>
  match extraction_jobs s !! id with
  | Some live =>
      if extracted_sequence live =? window_from then
        (Ok (true, with_extracted job to), set_rows (<[id := with_extracted live to]> (extraction_jobs s)) s)
      else (Ok (false, job), s)
  | None => (Ok (false, job), s)
  end.

Definition another_job_is_mining id job (now : Z) (s : Store) : bool :=
  existsb (fun kv => bool_decide (session_id kv.2 = session_id job) && negb (bool_decide (kv.1 = id)) &&
    bool_decide (m_status kv.2 = MemRunning) && match lease_expires_at kv.2 with Some t => now <? t | None => false end)
    (map_to_list (extraction_jobs s)).

(** The operations a window's answer proposes; none when no model is set. *)
Definition extract_memory_operations w (window : ExtractionWindow) : res (list MemoryOperation) :=
  match ask_extractor parse_operations (pw_settings w) (pw_model w) (_window_prompt window) with
  | Ok (Some operations) => Ok operations
  | Ok None => Ok []
  | Raise e => Raise e
  end.

(** What reading a part came to. *)
Inductive reading := NothingNew (to : Z) | Read (window : ExtractionWindow) (operations : list MemoryOperation).

(** The loop that reads a part again in less when the model ran out of room. *)
Fixpoint read_part (fuel : nat) w job (window_from max_chars : Z) : op Store reading :=
  match fuel with
  | O => raise (OtherError "out of fuel")
  | S fuel =>
      built ← gets (build_extraction_window (pw_messages w) (pw_message_id w) (owner job) (session_id job) (window_from + 1)
                (watermark_sequence job) max_chars);
      window ← lift built;
      if bool_decide (new_turns window = []) then mret (NothingNew (ew_to window))
      else
        let answer := extract_memory_operations w window in
        _ ← modify (pw_thinking w);
        match answer with
        | Ok operations => mret (Read window operations)
        | Raise e =>
            if bool_decide (e = ExtractionTruncated) then
              max_chars ← lift (smaller_part window max_chars);
              read_part fuel w job window_from max_chars
            else raise e
        end
  end.

(** [next((turn.message_id for turn in reversed(turns) if turn.role == "user"), None)] *)
Definition source_of (window : ExtractionWindow) : option string :=
  wt_message <$> head (filter (fun t => wt_role t = "user"%string) (rev (ew_turns window))).

(** The part's memories and the job's progress; when another transaction moved
    that progress meanwhile, only what the others committed stays. *)
Definition write_part id job (window_from : Z) w (window : ExtractionWindow) (operations : list MemoryOperation)
    : op Store (bool * MemoryJob Z) := fun s =>
  match apply_memory_operations (pw_settings w) (pw_sessions w) (owner job) (Some (session_id job)) (source_of window) operations
          (pw_draws w) (pw_last w) (pw_now w) s with
  | (Raise e, s') => (Raise e, s')
  | (Ok _, s') =>
      match advance_watermark id job window_from (ew_to window) (pw_writing w s') with
      | (Ok (true, job), s') => (Ok (true, job), s')
      | _ => let s := pw_writing w s in (Ok (false, default job (extraction_jobs s !! id)), s)
      end
  end.

(** The gates read before each part, the person's own switch apart. *)
Definition gates_open w job : bool :=
  flag "feature_enabled" (pw_settings w) &&
  match field (of_string "extraction_model_id") (pw_settings w) with Some v => truthy v | None => false end &&
  memory_extract_enabled &&
  match pw_sessions w !! session_id job with
  | Some session => negb (private_mode session || is_member_channel session)
  | None => false
  end && negb (extraction_budget_exhausted (pw_cap w) (pw_usage w) (pw_now w)) && pw_chat w.

Definition READ_FUEL : nat := 5.

Definition _mine_next_part id job (first : bool) w : op Store (bool * MemoryJob Z) :=
  let window_from := extracted_sequence job in
  if negb (gates_open w job) then mret (false, job)
  else if negb (flag "memory_auto_capture" (pw_prefs w)) then
    '(_, job) ← advance_watermark id job window_from (watermark_sequence job);
    mret (false, job)
  else
    moved ← gets (_watermark_moved id window_from);
    if negb first && moved then mret (false, job)
    else
      mining ← gets (another_job_is_mining id job (pw_now w));
      if first && mining then
        _ ← hand_over id job HAND_OVER_SECONDS (pw_new_id w) (pw_nonce w) (pw_event_id w) (pw_race w) (pw_now w);
        mret (false, job)
      else
        need ← (if first then lift (int_or 2 (field (of_string "extract_min_new_messages") (pw_settings w))) else mret 1);
        if watermark_sequence job - window_from <? need then mret (false, job)
        else
          read ← read_part READ_FUEL w job window_from MAX_WINDOW_CHARS;
          match read with
          | NothingNew to => advance_watermark id job window_from to
          | Read window operations =>
              moved ← gets (_watermark_moved id window_from);
              if moved : bool then mret (false, job) else write_part id job window_from w window operations
          end.

(** ** A run *)

(** The [while] loop, [more] parts from its end; [part i] is what part [i] meets. *)
Fixpoint mine_parts (more : nat) id job (parts : nat) (part : nat -> PartWorld) : op Store unit :=
  match more with
  | O => mret tt
  | S more =>
      let w := part parts in
      '(mined, job) ← _mine_next_part id job (bool_decide (parts = 0%nat)) w;
      if negb mined then mret tt
      else
        let stamped := mem_with job (m_status job) (watermark_sequence job) (extracted_sequence job) (run_after job)
              (m_attempt_count job) (lease_expires_at job) (m_worker_id job) (m_last_error job) (pw_now w) in
        _ ← save_mem id job stamped;
        _ ← modify (pw_between w);
        if watermark_sequence job <=? extracted_sequence job then mret tt
        else match more with
        | O =>
            _ ← User.schedule_extraction (pw_settings w) (pw_prefs w) (pw_sessions w) (pw_chat w) (owner job) (session_id job)
                  (watermark_sequence job) (Some id) (pw_new_id w) (pw_event_id w) (pw_race w) (pw_now w);
            mret tt
        | S _ => mine_parts more id stamped (S parts) part
        end
  end.

Definition handle_memory_extraction id job (part : nat -> PartWorld) : op Store unit :=
  mine_parts MAX_PARTS_PER_RUN id job 0 part.
End mining.
