(* ===== verification/ExtractionFacts.v ===== *)
(** * What mining a chat promises

    Windows tile a stretch of chat: [windows_tile].  A part is written whole or
    not at all: [part_all_or_nothing].  Reading one again in less ends:
    [read_fuel_enough].  And where a long stretch meets a new message, its rest
    is never read: [follow_up_skips_rest]. *)

From S2P Require Import Prelude Text Json JsonParse PyTime PyText Regex Outbox OutboxFacts MemoryJobs MemoryFacts ChatHistory Memories MemoriesFacts Extractor Extraction.
From Stdlib Require Import QArith.
#[local] Open Scope Z_scope.

#[local] Instance store_separate : Separate Store OutboxEvent (MemoryJob Z).
Proof. by split. Qed.

(** ** Strictly increasing lists *)

Definition increasing {A} (key : A -> Z) (l : list A) : Prop := StronglySorted (fun a b => key a < key b) l.

Lemma increasing_app {A} (key : A -> Z) a b :
  increasing key (a ++ b) <-> increasing key a /\ increasing key b /\ forall x y, x ∈ a -> y ∈ b -> key x < key y.
Proof.
  unfold increasing. induction a as [|z a IH]; simpl.
  - split; [intros Hb; split_and!; [constructor|done|by intros x y ?%not_elem_of_nil]|by intros (_ & Hb & _)].
  - split.
    + intros [Hs Hz]%StronglySorted_inv. apply IH in Hs as (Ha & Hb & Hab). rewrite Forall_forall in Hz. split_and!; [|done|].
      * constructor; [done|]. apply Forall_forall. intros x Hx. apply Hz, elem_of_app. by left.
      * intros x y [->|Hx]%elem_of_cons Hy; [apply Hz, elem_of_app; by right|by apply Hab].
    + intros (Hs & Hb & Hab). apply StronglySorted_inv in Hs as [Ha Hz]. constructor.
      * apply IH. split_and!; [done|done|]. intros x y Hx. apply Hab. by apply list_elem_of_further.
      * rewrite Forall_app. split; [done|]. apply Forall_forall. intros y Hy. apply Hab; [apply list_elem_of_here|done].
Qed.

Lemma increasing_filter {A} (key : A -> Z) (P : A -> Prop) `{!forall x, Decision (P x)} l : increasing key l -> increasing key (filter P l).
Proof. apply StronglySorted_filter. Qed.

Lemma increasing_split {A} (key : A -> Z) l c : increasing key l ->
  l = filter (fun x => key x <= c) l ++ filter (fun x => c < key x) l.
Proof.
  induction l as [|x l IH]; intros Hl; [done|]. apply StronglySorted_inv in Hl as [Hl Hx]. rewrite !filter_cons.
  destruct (decide (key x <= c)) as [Hle|Hgt].
  - rewrite decide_False by lia. simpl. f_equal. by apply IH.
  - rewrite decide_True by lia. rewrite filter_none; [|apply Forall_forall; intros y Hy; rewrite Forall_forall in Hx; specialize (Hx y Hy); lia].
    simpl. f_equal. symmetry. apply filter_whole, Forall_forall. intros y Hy. rewrite Forall_forall in Hx. specialize (Hx y Hy). lia.
Qed.

(** The elements up to a key are a prefix. *)
Lemma increasing_prefix {A} (key : A -> Z) a b c : increasing key (a ++ b) ->
  (forall x, x ∈ a -> key x <= c) -> (forall y, y ∈ b -> c < key y) -> filter (fun x => key x <= c) (a ++ b) = a.
Proof.
  intros _ Ha Hb. rewrite filter_app, (filter_whole _ a), (filter_none _ b); [apply app_nil_r| |].
  - apply Forall_forall. intros y Hy. specialize (Hb y Hy). lia.
  - by apply Forall_forall.
Qed.

Lemma increasing_length {A} (key : A -> Z) l lo x : increasing key (l ++ [x]) -> (forall y, y ∈ l ++ [x] -> lo <= key y) ->
  lo + Z.of_nat (length l) <= key x.
Proof.
  revert lo. induction l as [|z l IH]; intros lo Hl Hlo; simpl.
  - specialize (Hlo x ltac:(apply list_elem_of_here)). lia.
  - apply StronglySorted_inv in Hl as [Hl Hz]. rewrite Forall_forall in Hz.
    specialize (IH (key z + 1) Hl ltac:(intros y Hy; specialize (Hz y Hy); lia)).
    specialize (Hlo z ltac:(apply list_elem_of_here)). lia.
Qed.

Section windows.
Context `{PyStr} `{PyRepr} `{PyFloat}.
Context (messages : list Message) (message_id : Z -> string) (session : string).
(** [ux_chat_messages_session_sequence] *)
Context (Hunique : NoDup (msg_sequence <$> filter (fun m => msg_session m = session) messages)).

(** *** The rows of a stretch *)

Lemma dialogue_elem lo hi m : m ∈ dialogue session lo hi messages <->
  m ∈ messages /\ msg_session m = session /\ lo <= msg_sequence m <= hi /\ is_dialogue m = true.
Proof. unfold dialogue. rewrite (sort_by_perm msg_sequence), list_elem_of_filter. tauto. Qed.

Definition all_dialogue : list Message := sort_by msg_sequence (filter (fun m => is_dialogue m = true) (filter (fun m => msg_session m = session) messages)).

Lemma dialogue_distinct : NoDup (msg_sequence <$> filter (fun m => is_dialogue m = true) (filter (fun m => msg_session m = session) messages)).
Proof. eapply sublist_NoDup; [exact Hunique|]. apply fmap_sublist, sublist_filter. Qed.

Lemma dialogue_filter lo hi : dialogue session lo hi messages = filter (fun m => lo <= msg_sequence m <= hi) all_dialogue.
Proof.
  unfold all_dialogue. rewrite <- sort_by_filter by apply dialogue_distinct. unfold dialogue. f_equal. rewrite !list_filter_filter.
  apply list_filter_iff. intros m. tauto.
Qed.

Lemma all_dialogue_increasing : increasing msg_sequence all_dialogue.
Proof.
  unfold all_dialogue. set (l := filter _ (filter _ messages)). pose proof dialogue_distinct as Hd. fold l in Hd.
  assert (Hn : NoDup (msg_sequence <$> sort_by msg_sequence l)) by (by rewrite (sort_by_perm msg_sequence)).
  assert (Hs : StronglySorted (key_le msg_sequence) (sort_by msg_sequence l)) by apply (StronglySorted_merge_sort (key_le msg_sequence)).
  revert Hn Hs. generalize (sort_by msg_sequence l). clear. intros l. induction l as [|m l IH]; intros Hn Hs; [constructor|].
  apply StronglySorted_inv in Hs as [Hs Hm]. apply NoDup_cons in Hn as [Hnm Hn]. constructor; [by apply IH|].
  rewrite Forall_forall in *. intros x Hx. specialize (Hm x Hx). unfold key_le in Hm.
  assert (msg_sequence m <> msg_sequence x); [|lia]. intros Heq. apply Hnm. rewrite Heq. by apply list_elem_of_fmap_2.
Qed.

Lemma dialogue_increasing lo hi : increasing msg_sequence (dialogue session lo hi messages).
Proof. rewrite dialogue_filter. apply increasing_filter, all_dialogue_increasing. Qed.

Lemma dialogue_within lo hi lo' hi' : lo <= lo' -> hi' <= hi ->
  dialogue session lo' hi' messages = filter (fun m => lo' <= msg_sequence m <= hi') (dialogue session lo hi messages).
Proof.
  intros Hlo Hhi. rewrite !dialogue_filter, list_filter_filter. apply list_filter_iff. intros m. lia.
Qed.

Lemma dialogue_split lo mid hi : lo <= mid + 1 -> mid <= hi ->
  dialogue session lo hi messages = dialogue session lo mid messages ++ dialogue session (mid + 1) hi messages.
Proof.
  intros Hlo Hhi. rewrite (increasing_split msg_sequence (dialogue session lo hi messages) mid (dialogue_increasing lo hi)).
  rewrite !dialogue_filter, !list_filter_filter. f_equal; apply list_filter_iff; intros m; lia.
Qed.

(** *** Reading rows *)

Lemma turn_of_sequence m t : turn_of message_id m = Ok (Some t) -> wt_sequence t = msg_sequence m.
Proof. unfold turn_of. repeat case_match; try done. by intros [= <-]. Qed.

Lemma turns_of_app a b ts : turns_of message_id (a ++ b) = Ok ts <->
  exists ta tb, turns_of message_id a = Ok ta /\ turns_of message_id b = Ok tb /\ ts = ta ++ tb.
Proof.
  revert ts. induction a as [|m a IH]; intros ts; simpl; [split; [intros Ht; by exists [], ts|by intros (ta & tb & [= <-] & Hb & ->)]|].
  destruct (turn_of message_id m) as [t|e]; [|split; [done|by intros (? & ? & ? & _)]].
  destruct (turns_of message_id (a ++ b)) as [l|e] eqn:E.
  - destruct (proj1 (IH l) eq_refl) as (ta & tb & Ha & Hb & ->). rewrite Ha. split.
    + intros [= <-]. exists (option_list t ++ ta), tb. by rewrite app_assoc.
    + intros (x & y & [= <-] & Hy & ->). rewrite Hb in Hy. injection Hy as <-. by rewrite app_assoc.
  - split; [done|]. intros (x & y & Hx & Hy & ->). destruct (turns_of message_id a) as [ta|] eqn:Ha; [|done].
    assert (Raise e = Ok (ta ++ y)) as [=]. apply IH. by exists ta, y.
Qed.

(** Turns keep the rows' sequences, so they can be filtered by them first. *)
Lemma turns_of_filter (P : Z -> Prop) `{!forall z, Decision (P z)} rows ts :
  turns_of message_id rows = Ok ts ->
  turns_of message_id (filter (fun m => P (msg_sequence m)) rows) = Ok (filter (fun t => P (wt_sequence t)) ts).
Proof.
  revert ts. induction rows as [|m rows IH]; intros ts; simpl; [by intros [= <-]|].
  destruct (turn_of message_id m) as [t|e] eqn:Ht; [|done]. destruct (turns_of message_id rows) as [l|e]; [|done]. intros [= <-].
  specialize (IH l eq_refl). rewrite filter_app. rewrite filter_cons. case_decide as Hm; simpl.
  - rewrite Ht, IH. do 2 f_equal. destruct t as [t|]; [|done]. simpl. apply turn_of_sequence in Ht. rewrite <- Ht in Hm.
    rewrite filter_cons_True by done. done.
  - rewrite IH. f_equal. destruct t as [t|]; [|done]. simpl. apply turn_of_sequence in Ht. rewrite <- Ht in Hm.
    by rewrite filter_cons_False by done.
Qed.

Lemma turns_of_in rows ts t : turns_of message_id rows = Ok ts -> t ∈ ts -> exists m, m ∈ rows /\ msg_sequence m = wt_sequence t.
Proof.
  revert ts. induction rows as [|m rows IH]; intros ts; simpl; [by intros [= <-] ?%not_elem_of_nil|].
  destruct (turn_of message_id m) as [x|e] eqn:Hx; [|done]. destruct (turns_of message_id rows) as [l|e]; [|done]. intros [= <-].
  intros [Ht|Ht]%elem_of_app.
  - destruct x as [x|]; [|by apply not_elem_of_nil in Ht]. apply list_elem_of_singleton in Ht as ->. exists m.
    split; [apply list_elem_of_here|]. symmetry. by apply turn_of_sequence.
  - destruct (IH l eq_refl Ht) as (n & Hn & Heq). exists n. split; [by apply list_elem_of_further|done].
Qed.

Lemma turns_of_increasing rows ts : turns_of message_id rows = Ok ts -> increasing msg_sequence rows -> increasing wt_sequence ts.
Proof.
  revert ts. induction rows as [|m rows IH]; intros ts Hts Hr; [injection Hts as <-; constructor|]. pose proof Hts as Hts'.
  simpl in Hts. destruct (turn_of message_id m) as [t|e] eqn:Ht; [|done]. destruct (turns_of message_id rows) as [l|e] eqn:Hl; [|done].
  injection Hts as <-. apply StronglySorted_inv in Hr as [Hr Hm]. specialize (IH l eq_refl Hr). destruct t as [t|]; [|done].
  simpl. constructor; [done|]. apply Forall_forall. intros x Hx. destruct (turns_of_in rows l x Hl Hx) as (n & Hn & <-).
  rewrite (turn_of_sequence m t Ht). rewrite Forall_forall in Hm. by apply Hm.
Qed.

(** *** Fitting *)

Lemma total_app a b : total_chars (a ++ b) = total_chars a + total_chars b.
Proof. unfold total_chars. induction a as [|t a IH]; simpl; [done|]. rewrite IH. lia. Qed.

Lemma total_nonneg ts : 0 <= total_chars ts.
Proof. induction ts as [|t ts IH]; simpl; [done|]. unfold chars. lia. Qed.

Lemma keep_context_spec room l : 0 <= room ->
  total_chars (keep_context room l) <= room /\ exists older, rev l = older ++ keep_context room l.
Proof.
  revert room. induction l as [|t l IH]; intros room Hr; simpl; [by split; [lia|exists []]|].
  destruct (Z.ltb_spec room (chars t)) as [Hlt|Hge]; [split; [simpl; lia|exists (rev l ++ [t]); by rewrite app_nil_r]|].
  destruct (IH (room - chars t) ltac:(lia)) as [Ht [older Ho]]. rewrite total_app. simpl. split; [lia|].
  exists older. by rewrite Ho, app_assoc.
Qed.

(** The new turns kept are a prefix; the first one left out says how far the call covers. *)
Lemma keep_fresh_spec max covered_to kept total l ts covered :
  keep_fresh max covered_to kept total l = (ts, covered) ->
  exists rest, l = ts ++ rest /\
    match rest with [] => covered = covered_to | t :: _ => covered = wt_sequence t - 1 /\ (kept = false -> ts <> []) end /\
    (total + total_chars ts <= Z.max max total \/ kept = false /\ (length ts <= 1)%nat).
Proof.
  revert kept total ts covered. induction l as [|t l0 IH]; intros kept total ts covered Hk; simpl in Hk.
  - injection Hk as <- <-. exists []. split_and!; [done|done|left; simpl; lia].
  - destruct (kept && _) eqn:E.
    + injection Hk as <- <-. apply andb_true_iff in E as [-> E]. exists (t :: l0). split_and!; [done|done|done|left; simpl; lia].
    + destruct (keep_fresh max covered_to true (total + chars t) l0) as [l c] eqn:Hl. injection Hk as <- <-.
      destruct (IH _ _ _ _ Hl) as (rest & -> & Hrest & Htot). exists rest. split_and!; [done|by destruct rest as [|u rest]; [|destruct Hrest]|].
      simpl. destruct Htot as [Htot|[? _]]; [|done]. apply andb_false_iff in E as [->|E].
      * destruct l as [|u l]; [right; split; [done|simpl; lia]|].
        destruct (Z.le_gt_cases (total + chars t) max); [left; simpl in *; lia|].
        (* a second turn is kept only when both fit *)
        exfalso. simpl in Hl. destruct (Z.ltb_spec max (total + chars t + chars u)); [done|]. unfold chars in *. lia.
      * left. apply Z.ltb_ge in E. simpl. unfold chars in *. lia.
Qed.

(** *** A window *)

Lemma sorted_fit turns start c context kept rest :
  increasing wt_sequence turns -> filter (fun t => start <= wt_sequence t) turns = kept ++ rest ->
  (forall t, t ∈ kept -> wt_sequence t <= c) -> (forall t, t ∈ rest -> c < wt_sequence t) ->
  Forall (fun t => wt_sequence t < start) context ->
  kept = filter (fun t => start <= wt_sequence t <= c) turns /\ filter (fun t => start <= wt_sequence t) (context ++ kept) = kept.
Proof.
  intros Hi Hf Hk Hr Hc. split.
  - assert (Hp : filter (fun t => wt_sequence t <= c) (kept ++ rest) = kept).
    { apply increasing_prefix; [|done|done]. rewrite <- Hf. by apply increasing_filter. }
    rewrite <- Hp at 1. rewrite <- Hf, list_filter_filter. apply list_filter_iff. intros t. lia.
  - rewrite filter_app, (filter_none _ context), (filter_whole _ kept); [done| |].
    + apply Forall_forall. intros t Ht. assert (t ∈ filter (fun t => start <= wt_sequence t) turns) as [? _]%list_elem_of_filter; [|done].
      rewrite Hf. apply elem_of_app. by left.
    + eapply Forall_impl; [exact Hc|]. intros t. simpl. lia.
Qed.

Lemma fit_spec turns start covered_to max_chars ts covered :
  0 <= max_chars -> start <= covered_to -> increasing wt_sequence turns -> (forall t, t ∈ turns -> wt_sequence t <= covered_to) ->
  fit_extraction_window turns start covered_to max_chars = (ts, covered) ->
  exists context kept, ts = context ++ kept /\ start <= covered <= covered_to /\
    kept = filter (fun t => start <= wt_sequence t <= covered) turns /\ filter (fun t => start <= wt_sequence t) ts = kept /\
    total_chars context <= CONTEXT_CHARS /\ (total_chars ts <= max_chars \/ (length kept <= 1)%nat).
Proof.
  intros Hmax Hsc Hi Hle. unfold fit_extraction_window. set (context := keep_context _ _).
  destruct (keep_fresh _ _ _ _ _) as [kept c] eqn:Hk. intros [= <- <-].
  assert (Hquarter : 0 <= max_chars / 4 <= max_chars) by (split; [apply Z.div_pos; lia|apply Z.div_le_upper_bound; lia]).
  destruct (keep_context_spec (Z.min CONTEXT_CHARS (max_chars / 4)) (rev (filter (fun t => wt_sequence t < start) turns)))
    as [Hct [older Hold]]; [unfold CONTEXT_CHARS; lia|]. fold context in Hct, Hold. rewrite rev_involutive in Hold.
  destruct (keep_fresh_spec _ _ _ _ _ _ _ Hk) as (rest & Hf & Hrest & Htot).
  assert (Hin : forall t, t ∈ kept ++ rest -> start <= wt_sequence t <= covered_to).
  { intros t Ht. rewrite <- Hf in Ht. apply list_elem_of_filter in Ht as [? Ht]. split; [done|by apply Hle]. }
  assert (Hkr : increasing wt_sequence (kept ++ rest)) by (rewrite <- Hf; by apply increasing_filter).
  assert (Hbounds : start <= c <= covered_to /\ (forall t, t ∈ kept -> wt_sequence t <= c) /\ (forall t, t ∈ rest -> c < wt_sequence t)).
  { destruct rest as [|u rest].
    - subst c. split_and!; [lia|done|intros t Ht; apply Hin, elem_of_app; by left|by intros t ?%not_elem_of_nil].
    - destruct Hrest as [-> Hne]. apply increasing_app in Hkr as (_ & Hu & Hlt). specialize (Hne eq_refl).
      destruct kept as [|v kept]; [done|]. pose proof (Hlt v u (list_elem_of_here _ _) (list_elem_of_here _ _)).
      pose proof (Hin v ltac:(apply elem_of_app; left; apply list_elem_of_here)).
      pose proof (Hin u ltac:(apply elem_of_app; right; apply list_elem_of_here)). split_and!; [lia|lia| |].
      + intros t Ht. specialize (Hlt t u Ht (list_elem_of_here _ _)). lia.
      + apply StronglySorted_inv in Hu as [_ Hu]. rewrite Forall_forall in Hu.
        intros t [->|Ht]%elem_of_cons; [lia|]. specialize (Hu t Ht). lia. }
  destruct Hbounds as (Hb & Hkc & Hrc). destruct (sorted_fit turns start c context kept rest) as [Heq Hnew]; try done.
  { apply Forall_forall. intros t Ht. assert (t ∈ filter (fun t => wt_sequence t < start) turns) as [? _]%list_elem_of_filter; [|done].
    rewrite Hold. apply elem_of_app. by right. }
  exists context, kept. split_and!; [done|lia|lia|done|done|lia|]. rewrite total_app. destruct Htot as [|[_ ?]]; [left; lia|by right].
Qed.

Lemma dialogue_take cs stop n : increasing msg_sequence (take n (dialogue session cs stop messages)) /\
  forall m, m ∈ take n (dialogue session cs stop messages) -> cs <= msg_sequence m <= stop.
Proof.
  split.
  - pose proof (dialogue_increasing cs stop) as Hi. rewrite <- (take_drop n (dialogue session cs stop messages)) in Hi.
    by apply increasing_app in Hi as [Hi _].
  - intros m (k & Hk & _)%elem_of_take. by apply list_elem_of_lookup_2, dialogue_elem in Hk as (_ & _ & Hk & _).
Qed.

(** The rows up to [c] of a capped read are the rows up to [c], when it was not cut before. *)
Lemma rows_cover cs stop n lo c : cs <= lo -> c <= stop ->
  (length (dialogue session cs stop messages) <= n)%nat \/
    (exists m, last (take n (dialogue session cs stop messages)) = Some m /\ c <= msg_sequence m) ->
  filter (fun m => lo <= msg_sequence m <= c) (take n (dialogue session cs stop messages)) = dialogue session lo c messages.
Proof.
  intros Hlo Hc Hor. rewrite (dialogue_within cs stop lo c) by lia. destruct Hor as [Hn|(m & Hm & Hcm)]; [by rewrite take_ge|].
  pose proof (dialogue_increasing cs stop) as Hi. revert Hm Hi. set (l := dialogue session cs stop messages). intros Hm Hi.
  rewrite <- (take_drop n l) in Hi. apply increasing_app in Hi as (_ & _ & Hi).
  transitivity (filter (fun m => lo <= msg_sequence m <= c) (take n l ++ drop n l)); [|by rewrite take_drop].
  rewrite filter_app, (filter_none _ (drop n l)); [by rewrite app_nil_r|]. apply Forall_forall. intros x Hx.
  specialize (Hi m x (last_Some_elem_of _ _ Hm) Hx). lia.
Qed.

(** A full read goes past the first [PRE_WINDOW_MESSAGES] sequences, into the new stretch. *)
Lemma full_read start stop n m : 0 <= start ->
  last (take n (dialogue session (Z.max 0 (start - PRE_WINDOW_MESSAGES)) stop messages)) = Some m ->
  PRE_WINDOW_MESSAGES + MAX_WINDOW_TURNS <= Z.of_nat (length (take n (dialogue session (Z.max 0 (start - PRE_WINDOW_MESSAGES)) stop messages))) ->
  start <= msg_sequence m.
Proof.
  intros Hs Hm Hlen. destruct (dialogue_take (Z.max 0 (start - PRE_WINDOW_MESSAGES)) stop n) as [Hi Hb].
  apply last_Some in Hm as [l Hl]. rewrite Hl in *. rewrite length_app in Hlen. simpl in Hlen.
  pose proof (increasing_length msg_sequence l (Z.max 0 (start - PRE_WINDOW_MESSAGES)) m Hi ltac:(intros y Hy; by destruct (Hb y Hy))).
  unfold PRE_WINDOW_MESSAGES, MAX_WINDOW_TURNS in *. lia.
Qed.

(** How far a read of rows covers the stretch. *)
Lemma covered_read start stop n rows : 0 <= start <= stop -> n = Z.to_nat (PRE_WINDOW_MESSAGES + MAX_WINDOW_TURNS) ->
  rows = take n (dialogue session (Z.max 0 (start - PRE_WINDOW_MESSAGES)) stop messages) ->
  let covered_to := match last rows with
    | Some m => if PRE_WINDOW_MESSAGES + MAX_WINDOW_TURNS <=? Z.of_nat (length rows) then msg_sequence m else stop
    | None => stop
    end in
  start <= covered_to <= stop /\ (forall m, m ∈ rows -> msg_sequence m <= covered_to) /\
  forall lo c, Z.max 0 (start - PRE_WINDOW_MESSAGES) <= lo -> c <= covered_to ->
    filter (fun m => lo <= msg_sequence m <= c) rows = dialogue session lo c messages.
Proof.
  intros Hs Hn Hrows covered_to. set (cs := Z.max 0 (start - PRE_WINDOW_MESSAGES)) in *.
  destruct (dialogue_take cs stop n) as [Hi Hb]. rewrite <- Hrows in Hi, Hb. unfold covered_to. destruct (last rows) as [m|] eqn:Hm.
  - pose proof (Hb m (last_Some_elem_of _ _ Hm)). destruct (Z.leb_spec (PRE_WINDOW_MESSAGES + MAX_WINDOW_TURNS) (Z.of_nat (length rows))) as [Hfull|Hshort].
    + assert (start <= msg_sequence m) by (apply (full_read start stop n m); [lia|fold cs; by rewrite <- Hrows..]). split_and!; [lia|lia| |].
      * apply last_Some in Hm as [l ->]. apply increasing_app in Hi as (_ & _ & Hi). intros x [Hx| ->%list_elem_of_singleton]%elem_of_app; [|lia].
        specialize (Hi x m Hx (list_elem_of_here _ _)). lia.
      * intros lo c Hlo Hc. subst rows. apply rows_cover; [done|lia|]. right. by exists m.
    + split_and!; [lia|lia|intros x Hx; by destruct (Hb x Hx)|]. intros lo c Hlo Hc. subst rows. apply rows_cover; [done|lia|left].
      rewrite length_take in Hshort. lia.
  - split_and!; [lia|lia|intros x Hx; by destruct (Hb x Hx)|]. intros lo c Hlo Hc. subst rows. apply rows_cover; [done|lia|left].
    apply last_None, (f_equal length) in Hm. rewrite length_take in Hm. unfold PRE_WINDOW_MESSAGES, MAX_WINDOW_TURNS in Hn. simpl in Hm. lia.
Qed.

(** A window holds the new turns of the stretch it covers, after at most [CONTEXT_CHARS]
    characters of earlier ones. *)
Lemma window_spec user from to max_chars s w : 0 <= max_chars -> 0 <= from ->
  build_extraction_window messages message_id user session from to max_chars s = Ok w ->
  ew_from w = from /\ from <= ew_to w <= Z.max from to /\
  turns_of message_id (dialogue session from (ew_to w) messages) = Ok (new_turns w) /\
  (exists context, ew_turns w = context ++ new_turns w /\ total_chars context <= CONTEXT_CHARS) /\
  (total_chars (ew_turns w) <= max_chars \/ (length (new_turns w) <= 1)%nat).
Proof.
  intros Hmax Hfrom. unfold build_extraction_window. rewrite (Z.max_r 0 from) by lia. set (stop := Z.max from to).
  set (rows := take _ _). set (covered_to := match last rows with Some _ => _ | None => _ end).
  destruct (turns_of message_id rows) as [turns|e] eqn:Ht; [|done].
  destruct (fit_extraction_window _ _ _ _) as [ts covered] eqn:Hfit. intros [= <-]. unfold new_turns. simpl.
  destruct (covered_read from stop _ rows ltac:(lia) eq_refl eq_refl) as (Hc & Hrows & Hcover). fold covered_to in Hc, Hrows, Hcover.
  destruct (dialogue_take (Z.max 0 (from - PRE_WINDOW_MESSAGES)) stop (Z.to_nat (PRE_WINDOW_MESSAGES + MAX_WINDOW_TURNS))) as [Hi _].
  fold rows in Hi. pose proof (turns_of_increasing _ _ Ht Hi) as Hti.
  destruct (fit_spec turns from covered_to max_chars ts covered) as (context & kept & -> & Hb & Hkept & Hnew & Hct & Htot); try done; [lia| |].
  { intros t Hin. destruct (turns_of_in _ _ _ Ht Hin) as (m & Hm & <-). by apply Hrows. }
  rewrite Hnew. split_and!; [done|lia|lia| |by exists context|done].
  rewrite <- (Hcover from covered) by (unfold PRE_WINDOW_MESSAGES; lia). rewrite Hkept.
  exact (turns_of_filter (fun z => from <= z <= covered) rows turns Ht).
Qed.
(** *** Window after window *)

Definition readable (m : Message) : Prop := exists t, turn_of message_id m = Ok t.

Lemma turns_of_readable rows : Forall readable rows -> exists ts, turns_of message_id rows = Ok ts.
Proof.
  induction 1 as [|m rows [t Ht] _ [ts Hts]]; [by exists []|]. exists (option_list t ++ ts). simpl. by rewrite Ht, Hts.
Qed.

Lemma window_built user from to max_chars s : 0 <= from <= to -> Forall readable (dialogue session 0 to messages) ->
  exists w, build_extraction_window messages message_id user session from to max_chars s = Ok w.
Proof.
  intros Hft Hr. unfold build_extraction_window. rewrite (Z.max_r 0 from), (Z.max_r from to) by lia.
  destruct (turns_of_readable (take (Z.to_nat (PRE_WINDOW_MESSAGES + MAX_WINDOW_TURNS))
    (dialogue session (Z.max 0 (from - PRE_WINDOW_MESSAGES)) to messages))) as [ts Hts].
  - apply Forall_forall. intros m (k & Hm & _)%elem_of_take. rewrite Forall_forall in Hr. apply Hr.
    apply list_elem_of_lookup_2, dialogue_elem in Hm as (? & ? & ? & ?). apply dialogue_elem. split_and!; [done|done|lia|lia|done].
  - rewrite Hts. destruct (fit_extraction_window _ _ _ _). by eexists.
Qed.

(** The windows of a stretch up to [to], each made where the one before stops, in
    the size and at the state of that moment. *)
Inductive tiling (user to : Z) (size : Z -> Z) (state : Z -> Store) : Z -> list ExtractionWindow -> Prop :=
  | tiling_done from : to < from -> tiling user to size state from []
  | tiling_next from w ws : from <= to ->
      build_extraction_window messages message_id user session from to (size from) (state from) = Ok w ->
      tiling user to size state (ew_to w + 1) ws -> tiling user to size state from (w :: ws).

(** C22: reading a stretch of chat window after window ends, after at most as many
    windows as it has sequences, and reads it exactly once: the new turns of
    the windows, in order, are the turns of the stretch's messages, none
    skipped and none read twice, whatever sizes the windows are given (a
    truncated answer halves them).  A window keeps to its size unless it is
    down to one new turn, and what it repeats of earlier turns is at most
    [CONTEXT_CHARS] characters. *)
Theorem windows_tile user from to size state :
  0 <= from <= to + 1 -> (forall z, 0 <= size z) -> Forall readable (dialogue session 0 to messages) ->
  exists ws, tiling user to size state from ws /\
    turns_of message_id (dialogue session from to messages) = Ok (ws ≫= new_turns) /\
    Z.of_nat (length ws) <= to + 1 - from /\
    Forall (fun w => (total_chars (ew_turns w) <= size (ew_from w) \/ (length (new_turns w) <= 1)%nat) /\
      exists context, ew_turns w = context ++ new_turns w /\ total_chars context <= CONTEXT_CHARS) ws.
Proof.
  intros Hft Hsize Hr. remember (Z.to_nat (to + 1 - from)) as n eqn:Hn. revert from Hft Hn.
  induction n as [n IH] using lt_wf_ind. intros from Hft Hn. destruct (Z.le_gt_cases from to) as [Hle|Hgt].
  - destruct (window_built user from to (size from) (state from)) as [w Hw]; [lia|done|].
    destruct (window_spec user from to (size from) (state from) w (Hsize from) ltac:(lia) Hw) as (Hfrom & Hto & Hnew & Hctx & Htot).
    rewrite (Z.max_r from to) in Hto by lia.
    destruct (IH (Z.to_nat (to + 1 - (ew_to w + 1))) ltac:(lia) (ew_to w + 1) ltac:(lia) eq_refl) as (ws & Ht & Hrest & Hlen & Hall).
    exists (w :: ws). split_and!.
    + by econstructor.
    + rewrite (dialogue_split from (ew_to w) to) by lia. apply turns_of_app. exists (new_turns w), (ws ≫= new_turns). by split_and!.
    + cbn [length]. lia.
    + constructor; [|done]. rewrite Hfrom. by split.
  - exists []. split_and!; [by constructor| |simpl; lia|done]. assert (dialogue session from to messages = []) as ->; [|done].
    destruct (dialogue session from to messages) as [|m l] eqn:E; [done|].
    assert (m ∈ dialogue session from to messages) as Hm by (rewrite E; apply list_elem_of_here).
    apply dialogue_elem in Hm as (_ & _ & Hm & _). lia.
Qed.
End windows.

(** ** A part *)

Section mining.
Context `{PyNumber} `{PyInt} `{PyRepr} `{PyStr} `{PyFloat} `{PyRe} `{PyNFC} `{LocalTime} `{Settings}.
#[local] Existing Instance user_scope.
Implicit Types (id : string) (job : MemoryJob Z) (w : PartWorld).

(** How far the job's row says its stretch is mined. *)
Definition progress id (s : Store) : option Z := extracted_sequence <$> extraction_jobs s !! id.

Definition same_memories (s s' : Store) : Prop :=
  memories s' = memories s /\ suppressions s' = suppressions s /\ events s' = events s.

(** A step of another transaction, or of this one where no memory table is
    written and the job's row, if it is there, stands where it stood. *)
Definition quiet id w (s s' : Store) : Prop :=
  (same_memories s s' /\ (is_Some (progress id s) -> progress id s' = progress id s)) \/
  s' = pw_thinking w s \/ s' = pw_writing w s \/ s' = pw_race w s.

Lemma moves_run {S A} R (P : S -> Prop) (m : op S A) Q s a s' : moves R P m Q -> P s -> m s = (Ok a, s') -> rtc R s s' /\ Q a s'.
Proof. intros Hm Hs Hr. destruct (Hm s Hs) as [Hq HQ]. rewrite Hr in Hq. split; [done|by apply HQ]. Qed.

Lemma moves_one {S A} (R : S -> S -> Prop) (P : S -> Prop) (m : op S A) : (forall s, P s -> R s (m s).2) -> moves R P m (fun _ _ => True).
Proof. intros Hm s Hs. split; [by apply rtc_once, Hm|done]. Qed.

Lemma jobs_quiet {A} id w (m : op (table (MemoryJob Z)) A) :
  (forall jobs, is_Some (jobs !! id) -> (m jobs).2 !! id = jobs !! id) ->
  moves (quiet id w) (fun _ => True) (on_table (S := Store) m) (fun _ _ => True).
Proof.
  intros Hm. apply moves_one. intros s _. unfold on_table. pose proof (Hm (rows s)) as Hid. left.
  destruct (m (rows s)) as [r t]. split; [done|]. unfold progress. cbn in *. intros Hx%fmap_is_Some. by rewrite Hid.
Qed.

Lemma outbox_quiet {A} id w (m : op (table OutboxEvent) A) : moves (quiet id w) (fun _ => True) (on_table (S := Store) m) (fun _ _ => True).
Proof. apply moves_one. intros s _. unfold on_table. destruct (m _). by left. Qed.

Lemma nested_quiet id w body : moves (quiet id w) (fun _ => True) body (fun _ _ => True) ->
  moves (quiet id w) (fun _ => True) (nested body) (fun _ _ => True).
Proof.
  intros Hb s _. split; [|done]. destruct (Hb s I) as [Hs _]. unfold nested. destruct (body s) as [[u|e] s1]; [done|]. by case_decide.
Qed.

Lemma hand_over_quiet w id job after new nonce event now :
  moves (quiet id w) (fun _ => True) (hand_over id job after new nonce event (pw_race w) now) (fun _ _ => True).
Proof.
  assert (Hd : forall i r a e, moves (quiet id w) (fun _ => True) (_dispatch (S := Store) i r nonce a e now) (fun _ _ => True)).
  { intros. unfold _dispatch, dispatch_mem. eapply moves_bind; [apply outbox_quiet|]. intros ?. by apply moves_ret. }
  assert (Hs : forall i o n, i <> id -> moves (quiet id w) (fun _ => True) (save_mem (S := Store) i o n) (fun _ _ => True)).
  { intros i o n Hne. apply jobs_quiet. intros jobs _. destruct (jobs !! i); [|done].
    unfold put. destruct (index_allows _ _ _); cbn; [|done]. by rewrite lookup_insert_ne. }
  assert (Hi : forall n, moves (quiet id w) (fun _ => True) (insert_mem (S := Store) new n) (fun _ _ => True)).
  { intros n. apply jobs_quiet. intros jobs [x Hx]. destruct (jobs !! new) eqn:Hn; [done|].
    unfold put. destruct (index_allows _ _ _); cbn; [|done]. rewrite lookup_insert_ne; [done|congruence]. }
  assert (Ho : moves (quiet id w) (fun _ => True) (gets (fun s : Store => _open_job id job (rows s)))
    (fun o _ => forall i x, o = Some (i, x) -> i <> id)).
  { apply moves_gets. intros s _ i o Hopen. by apply open_job_Some in Hopen as (_ & _ & _ & _ & ?). }
  unfold hand_over. eapply moves_bind; [exact Ho|]. intros [[i o]|].
  { intros s Hne. by apply (Hs i o _ (Hne i o eq_refl) s). }
  eapply moves_bind; [apply moves_one; intros s _; by right; right; right|]. intros ?.
  eapply moves_bind; [apply nested_quiet, Hi|]. intros [|]; [apply Hd|].
  eapply moves_bind; [exact Ho|]. intros [[i o]|]; [|by apply moves_ret].
  intros s Hne. by apply (Hs i o _ (Hne i o eq_refl) s).
Qed.

(** What a part reads is a window of the job's stretch: one without a new turn, or
    one with the model's answer to it. *)
Definition window_of w job window_from (window : ExtractionWindow) : Prop :=
  exists size s, build_extraction_window (pw_messages w) (pw_message_id w) (owner job) (session_id job) (window_from + 1)
    (watermark_sequence job) size s = Ok window.

Definition read_of w job window_from (r : reading) : Prop :=
  match r with
  | NothingNew to => exists window, window_of w job window_from window /\ new_turns window = [] /\ ew_to window = to
  | Read window operations => extract_memory_operations w window = Ok operations /\ window_of w job window_from window
  end.

Lemma read_part_inv id fuel w job window_from size s r s' :
  read_part fuel w job window_from size s = (Ok r, s') -> rtc (quiet id w) s s' /\ read_of w job window_from r.
Proof.
  revert size s. induction fuel as [|fuel IH]; intros size s Hr; cbn [read_part] in Hr; [done|].
  apply op_bind_inv in Hr as (built & s1 & [= <- <-] & Hr). apply op_bind_inv in Hr as (window & s1 & Hw & Hr).
  unfold lift in Hw. injection Hw as Hw <-.
  case_bool_decide as Hn; [injection Hr as <- <-; split; [done|]; exists window; split_and!; [by exists size, s|done..]|].
  apply op_bind_inv in Hr as (u & s1 & [= <- <-] & Hr).
  assert (Hq : quiet id w s (pw_thinking w s)) by (right; by left).
  destruct (extract_memory_operations w window) as [operations|e] eqn:Ha.
  - injection Hr as <- <-. split; [by apply rtc_once|]. split; [done|]. by exists size, s.
  - case_bool_decide; [|done]. apply op_bind_inv in Hr as (smaller & s1 & Hsm & Hr). unfold lift in Hsm. injection Hsm as _ <-.
    destruct (IH _ _ Hr) as [Hs Hread]. split; [by eapply rtc_l|done].
Qed.

Lemma not_moved id from s : _watermark_moved id from s = false -> progress id s = Some from.
Proof.
  unfold _watermark_moved, progress. destruct (_ !! id) as [live|]; [|done]. intros Hm%negb_false_iff%Z.eqb_eq. simpl. congruence.
Qed.

(** The watermark moved from one place to another, and nothing else. *)
Definition moved_on id (from to : Z) (s s' : Store) : Prop :=
  same_memories s s' /\ progress id s = Some from /\ progress id s' = Some to.

Lemma advance_inv id job from to s b job' s' :
  advance_watermark id job from to s = (Ok (b, job'), s') ->
  if b : bool then moved_on id from to s s' /\ extracted_sequence job' = to else s' = s.
Proof.
  unfold advance_watermark, moved_on, progress. destruct (extraction_jobs s !! id) as [live|] eqn:Hl; [|by intros [= <- <- <-]].
  destruct (Z.eqb_spec (extracted_sequence live) from) as [Heq|]; intros [= <- <- <-]; [|done].
  split; [|done]. unfold set_rows; simpl. rewrite lookup_insert_eq. simpl. split; [done|]. by rewrite Heq.
Qed.

(** What a mined part is.  Either its stretch held nothing the model may read: the
    row is moved over it.  Or a window's answer was written while the row stood
    where the part began: its operations are applied, others may write before the
    row is moved ([pw_writing]), and the row, still where the part began, is moved
    to the window's end. *)
Definition mined_part w id job (s : Store) job' (s' : Store) : Prop :=
  let from := extracted_sequence job in
  exists window s1, window_of w job from window /\ rtc (quiet id w) s s1 /\ extracted_sequence job' = ew_to window /\
    ((new_turns window = [] /\ moved_on id from (ew_to window) s1 s') \/
     exists operations outcomes s2, extract_memory_operations w window = Ok operations /\ progress id s1 = Some from /\
       apply_memory_operations (pw_settings w) (pw_sessions w) (owner job) (Some (session_id job)) (source_of window) operations
         (pw_draws w) (pw_last w) (pw_now w) s1 = (Ok outcomes, s2) /\
       moved_on id from (ew_to window) (pw_writing w s2) s').

(** What a part that is not mined leaves: what others made of the tables.  The row
    moves only when the person has turned learning off: over all that is left. *)
Definition unmined_part w id job (s s' : Store) : Prop :=
  rtc (quiet id w) s s' \/
  flag "memory_auto_capture" (pw_prefs w) = false /\ moved_on id (extracted_sequence job) (watermark_sequence job) s s'.

Lemma write_part_inv id job from w window operations s b job' s' :
  write_part id job from w window operations s = (Ok (b, job'), s') ->
  if b : bool then exists outcomes s2,
    apply_memory_operations (pw_settings w) (pw_sessions w) (owner job) (Some (session_id job)) (source_of window) operations
       (pw_draws w) (pw_last w) (pw_now w) s = (Ok outcomes, s2) /\
    moved_on id from (ew_to window) (pw_writing w s2) s' /\ extracted_sequence job' = ew_to window
  else s' = pw_writing w s.
Proof.
  unfold write_part. destruct (apply_memory_operations _ _ _ _ _ _ _ _ _ s) as [[outcomes|e] s2]; [|done].
  destruct (advance_watermark id job from (ew_to window) (pw_writing w s2)) as [[[[] job1]|e] s3] eqn:Ha; intros [= <- <- <-]; [|done..].
  apply advance_inv in Ha as [Hm He]. by exists outcomes, s2.
Qed.

(** C23: a part is all or nothing.  When it is mined, the job's row moves, from where
    the part began to the end of a window of the job's stretch, and no further: it
    moves over a window without anything to read, or together with the memories
    that one answer of the model to that window asks for, applied while the row
    still stood where the part began.  When it is not mined, whatever gate closed,
    the memories, suppressions and events are what the other transactions made
    of them, and the row is not moved by it unless the person has turned learning
    off: a part whose job was moved on (the person deleted everything, or turned
    learning off) while the model was thinking, or while it was being written,
    leaves no memory. *)
Theorem part_all_or_nothing id job first w s mined job' s' :
  _mine_next_part id job first w s = (Ok (mined, job'), s') ->
  if mined : bool then mined_part w id job s job' s' else unmined_part w id job s s'.
Proof.
  unfold _mine_next_part, unmined_part. destruct (negb (gates_open w job)); [intros [= <- _ <-]; by left|].
  destruct (flag "memory_auto_capture" (pw_prefs w)); cbn [negb].
  2: { intros Hr. apply op_bind_inv in Hr as ([b j] & s1 & Ha & [= <- _ <-]). apply advance_inv in Ha.
       destruct b; [right; by destruct Ha|left; by subst]. }
  intros Hr. apply op_bind_inv in Hr as (moved & s1 & [= <- <-] & Hr). destruct (negb first && _); [injection Hr as <- _ <-; by left|].
  apply op_bind_inv in Hr as (busy & s1 & [= <- <-] & Hr). destruct (first && _).
  { apply op_bind_inv in Hr as (u & s1 & Hh & [= <- _ <-]). left.
    by destruct (moves_run _ _ _ _ s u s1 (hand_over_quiet w id job HAND_OVER_SECONDS (pw_new_id w) (pw_nonce w) (pw_event_id w) (pw_now w)) I Hh). }
  apply op_bind_inv in Hr as (need & s1 & Hneed & Hr). assert (s1 = s) as -> by (destruct first; by injection Hneed as _ <-).
  destruct (_ <? need); [injection Hr as <- _ <-; by left|].
  apply op_bind_inv in Hr as (read & s1 & Hread & Hr). apply (read_part_inv id) in Hread as [Hq Hread].
  destruct read as [to|window operations].
  - destruct Hread as (window & Hw & Hnew & <-). apply advance_inv in Hr. destruct mined; [|left; by subst].
    destruct Hr as [Hmv He]. exists window, s1. split_and!; [done..|by left].
  - destruct Hread as [Hans Hw]. apply op_bind_inv in Hr as (moved & s2 & Hm & Hr). injection Hm as Hm <-.
    destruct moved; [injection Hr as <- _ <-; by left|].
    apply write_part_inv in Hr. destruct mined; [|left; subst s'; eapply rtc_r; [exact Hq|right; right; by left]].
    destruct Hr as (outcomes & s2 & Ha & Hmv & He). exists window, s1. split_and!; [done..|right].
    exists operations, outcomes, s2. split_and!; try done. by apply not_moved.
Qed.

(** Each smaller reading halves the size, and none is under [MIN_WINDOW_CHARS]. *)
Lemma read_part_fuel fuel n w job from size s :
  size < MIN_WINDOW_CHARS * 2 ^ Z.of_nat fuel -> (0 < fuel)%nat -> read_part (fuel + n) w job from size s = read_part fuel w job from size s.
Proof.
  revert size s. induction fuel as [|fuel IH]; intros size s Hs Hf; [lia|]. cbn [Nat.add read_part].
  unfold mbind, op_bind, gets, lift. destruct (build_extraction_window _ _ _ _ _ _ _ _) as [window|e]; [|done].
  case_bool_decide; [done|]. unfold modify. destruct (extract_memory_operations w window); [done|]. case_bool_decide; [|done].
  destruct (smaller_part window size) as [smaller|] eqn:Hsm; [|done]. unfold smaller_part in Hsm.
  destruct (Z.ltb_spec (Z.min size (total_chars (ew_turns window)) / 2) MIN_WINDOW_CHARS) as [|Hge]; [done|].
  destruct (_ <=? 1)%nat; [done|]. injection Hsm as <-.
  assert (Hhalf : Z.min size (total_chars (ew_turns window)) / 2 <= size / 2) by (apply Z.div_le_mono; lia).
  rewrite Nat2Z.inj_succ, Z.pow_succ_r in Hs by lia.
  assert (size / 2 < MIN_WINDOW_CHARS * 2 ^ Z.of_nat fuel) by (apply Z.div_lt_upper_bound; lia).
  assert (fuel <> 0%nat) by (intros ->; simpl in *; lia). apply IH; lia.
Qed.

(** reading a part ends after at most [READ_FUEL] readings: however often the
    model runs out of room, more fuel never gives another result, since each
    reading halves the size and one below [MIN_WINDOW_CHARS] is an error. *)
Theorem read_fuel_enough n w job from s :
  read_part (READ_FUEL + n) w job from MAX_WINDOW_CHARS s = read_part READ_FUEL w job from MAX_WINDOW_CHARS s.
Proof. apply read_part_fuel; [vm_compute; reflexivity|unfold READ_FUEL; lia]. Qed.

(** *** A stretch longer than a run *)

(** With an open job, a call only raises that job's watermark. *)
Lemma queue_extends settings user session watermark exclude new_id event_id race now s debounce max_wait oid o :
  int_or debounce_default (field (of_string debounce_setting) settings) = Ok debounce ->
  int_or max_wait_default (field (of_string max_wait_setting) settings) = Ok max_wait ->
  open_unique (extraction_jobs s) -> extraction_jobs s !! oid = Some o -> owner o = user -> session_id o = session -> is_open o = true ->
  exists s', queue_extraction settings user session watermark exclude new_id event_id race now s = (Ok (Some oid), s') /\
    forall i, extraction_jobs s' !! i = if decide (i = oid) then Some (mem_with o (m_status o) (Z.max (watermark_sequence o) watermark)
      (extracted_sequence o) (Z.min (now + seconds debounce) (m_created_at o + seconds max_wait)) (m_attempt_count o) (lease_expires_at o)
      (m_worker_id o) (m_last_error o) now) else extraction_jobs s !! i.
Proof.
  intros Hd Hm Hu Ho Hou Hos Hop. unfold queue_extraction. rewrite Hd, Hm. erewrite op_bind_ok; [|reflexivity].
  assert (open_job_of user session (rows s) = Some (oid, o)) as ->.
  { destruct (open_job_of user session (rows s)) as [[i x]|] eqn:He.
    - apply open_job_of_Some in He as (Hx & Hxu & Hxs & Hxo). change (extraction_jobs s !! i = Some x) in Hx. assert (i = oid) as ->; [|congruence].
      eapply Hu; [exact Hx|exact Ho|done|done|congruence|congruence].
    - pose proof (open_job_of_None _ _ _ He oid o Ho Hou Hos) as Hno. congruence. }
  set (o' := mem_with o _ _ _ _ _ _ _ _ _). exists (set_rows (<[oid := o']> (extraction_jobs s)) s). split.
  - erewrite op_bind_ok; [reflexivity|]. rewrite (save_mem_run oid o o' s) by exact Ho.
    assert (index_allows oid o' (mem_of s) = true) as ->; [|done]. apply index_allows_spec. intros _ i j Hj Hoj Hsj Hjo.
    eapply Hu; [exact Hj|exact Ho|done|done|done|done].
  - intros i. simpl. rewrite lookup_insert. repeat case_decide; congruence.
Qed.

(** What a run could not finish is lost when a message arrived meanwhile.  The
    message's call finds the job running and opens a job that starts where
    the running one should stop; the follow-up call of the running job, after
    [MAX_PARTS_PER_RUN] parts, finds that open job and only raises its
    watermark.  Nothing is left that reads from the running job's progress to
    its watermark: its own row stays as it is, and the chat's one open job
    starts at or after that watermark. *)
Theorem follow_up_skips_rest settings prefs sessions chat user session id running reached watermark new_id event_id event_id'
    now now' s s1 s2 :
  open_unique (extraction_jobs s) -> open_unique (extraction_jobs s2) ->
  mining user session None now id running -> extraction_jobs s !! id = Some running -> watermark_sequence running <= watermark ->
  open_job_of user session (extraction_jobs s) = None -> extraction_jobs s !! new_id = None ->
  User.schedule_extraction settings prefs sessions chat user session watermark None new_id event_id (fun s => s) now s = (Ok (Some new_id), s1) ->
  extraction_jobs s2 !! new_id = extraction_jobs s1 !! new_id -> extraction_jobs s2 !! id = Some reached ->
  exists s3, User.schedule_extraction settings prefs sessions chat user session (watermark_sequence running) (Some id) "" event_id'
      (fun s => s) now' s2 = (Ok (Some new_id), s3) /\
    extraction_jobs s3 !! id = Some reached /\
    forall i o, extraction_jobs s3 !! i = Some o -> owner o = user -> session_id o = session -> is_open o = true ->
      watermark_sequence running <= extracted_sequence o.
Proof.
  intros Hu Hu2 Hmine Hrun Hle Hnone Hfree Hcall Hrow Hreached. unfold User.schedule_extraction in *.
  destruct (User.may_extract _ _ _ _ _); [|done].
  destruct (int_or debounce_default (field (of_string debounce_setting) settings)) as [debounce|e] eqn:Hd; [|by unfold queue_extraction in Hcall; rewrite Hd in Hcall].
  destruct (int_or max_wait_default (field (of_string max_wait_setting) settings)) as [max_wait|e] eqn:Hm;
    [|by unfold queue_extraction in Hcall; rewrite Hd, Hm in Hcall].
  pose proof (open_job_of_None _ _ _ Hnone) as Hno.
  pose proof (queue_extraction_correct settings user session watermark None new_id event_id (fun s => s) now s debounce max_wait
    (Some new_id) s1 Hd Hm Hu (fun _ Hx => Hx) Hcall) as [_ Hnew].
  destruct (Hnew new_id eq_refl) as (o & Ho & Hou & Hos & Hop & _ & _ & Hstart).
  destruct (Hstart eq_refl ltac:(intros i x Hx Hxu Hxs; by eapply Hno) Hfree) as (_ & _ & _ & Hcover & _). specialize (Hcover id running Hrun Hmine).
  change (extraction_jobs s1 !! new_id = Some o) in Ho. rewrite Ho in Hrow.
  destruct (queue_extends settings user session (watermark_sequence running) (Some id) "" event_id' (fun s => s) now' s2 debounce max_wait new_id o)
    as (s3 & Hs3 & Hrows); try done.
  assert (Hne : id <> new_id) by congruence.
  exists s3. split; [done|]. split; [by rewrite Hrows, decide_False|]. intros i x Hx Hxu Hxs Hxo. rewrite Hrows in Hx.
  case_decide as Hi; [injection Hx as <-; simpl; lia|]. exfalso. apply Hi.
  eapply Hu2; [exact Hx|exact Hrow|done|done|congruence|congruence].
Qed.
End mining.

(** ** Witnesses *)

#[local] Instance mined_str : PyStr := ascii_str.
#[local] Instance mined_re : PyRe := ascii_re.
#[local] Instance mined_nfc : PyNFC := {| nfc s := s |}.
#[local] Instance mined_ints : PyInt := {| int_of_str _ := None; int_of_float _ := None |}.
#[local] Instance mined_repr : PyRepr := {| repr_container _ := [] |}.
#[local] Instance mined_tokens : PyFloat := {| float_of_token _ := None |}.
#[local] Instance mined_numbers : PyNumber := {|
  float_of_int n := Some (Finite (inject_Z n)); float_of_text _ := None; float_of_repr _ := NotANumber |}.
#[local] Instance mined_time : LocalTime := {| timestamp t := t |}.
#[local] Existing Instance default_settings.
#[local] Existing Instance user_scope.

Definition said (sequence : Z) (role content : string) : Message := MkMessage "c" sequence role (of_string content) (JObj []).

Definition small_chat : list Message := [said 2 "assistant" "Noted."; said 1 "user" "I work nights"; said 3 "user" "And weekends"].

Definition message_ids (n : Z) : string := "id" +:+ pretty n.

Definition no_rows : Store := MkStore ∅ ∅ [] ∅ ∅.

Lemma windows_tile_witness :
  exists ws, tiling small_chat message_ids "c" 7 3 (fun _ => 20) (fun _ => no_rows) 1 ws /\
    turns_of message_ids (dialogue "c" 1 3 small_chat) = Ok (ws ≫= new_turns) /\ Z.of_nat (length ws) <= 3.
Proof.
  destruct (windows_tile small_chat message_ids "c" ltac:(apply (bool_decide_unpack _); vm_compute; reflexivity) 7 1 3 (fun _ => 20) (fun _ => no_rows))
    as (ws & Ht & Hn & Hl & _); [done|done| |by exists ws].
  assert (dialogue "c" 0 3 small_chat = [said 1 "user" "I work nights"; said 2 "assistant" "Noted."; said 3 "user" "And weekends"]) as ->
    by (vm_compute; reflexivity).
  constructor; [|constructor; [|constructor; [|constructor]]]; eexists; vm_compute; reflexivity.
Defined.

(** A part that learns where a person works. *)
Definition quoted_text (s : string) : text := of_string s ≫= fun c => if c =? 39 then [34] else [c].

Definition running_job (watermark extracted : Z) : MemoryJob Z :=
  MkMemoryJob 7 "c" MemRunning watermark extracted 0 1 5 (Some (seconds 1000)) (Some "w"%string) None 0 0.

Definition learn : list (text * json) := [(of_string "extraction_model_id", JInt 3); (of_string "extract_min_new_messages", JInt 1)].

Definition one_session : table ChatSession := <["c"%string := MkChatSession 7 None false false]> ∅.

Definition one_draw : Draw := MkDraw 5 "m1" false [] VUnavailable (fun _ => VUnavailable) (fun s => s).

Definition small_world : PartWorld := {|
  pw_settings := learn; pw_prefs := []; pw_sessions := one_session; pw_chat := true; pw_cap := 0; pw_usage := [];
  pw_messages := small_chat; pw_message_id := message_ids;
  pw_model := fun _ _ => Ok (quoted_text "{'operations':[{'op':'add','content':'Works nights'}]}", of_string "stop");
  pw_thinking := fun s => s; pw_writing := fun s => s; pw_between := fun s => s; pw_draws := fun _ => one_draw; pw_last := one_draw;
  pw_new_id := "n"; pw_nonce := "x"; pw_event_id := "e"; pw_race := fun s => s; pw_now := 5 |}.

Definition small_store : Store := MkStore ∅ ∅ [] (<["j"%string := running_job 3 0]> ∅) ∅.

Lemma part_all_or_nothing_witness :
  exists job' s', mined_part small_world "j" (running_job 3 0) small_store job' s' /\ extracted_sequence job' = 3.
Proof.
  pose (r := _mine_next_part "j" (running_job 3 0) true small_world small_store).
  assert (Hb : match r with (Ok (true, job'), _) => extracted_sequence job' =? 3 | _ => false end = true) by (vm_compute; reflexivity).
  destruct r as [[[mined job']|e] s'] eqn:Hr; [destruct mined|]; [|discriminate Hb..].
  exists job', s'. split; [exact (part_all_or_nothing "j" (running_job 3 0) true small_world small_store true job' s' Hr)|by apply Z.eqb_eq].
Defined.

Lemma unique_but_one (i j : string) (a b : MemoryJob Z) : is_open a = false -> open_unique (<[i := a]> (<[j := b]> ∅)).
Proof.
  intros Ha k l x y. rewrite !lookup_insert, !lookup_empty. repeat case_decide; subst; congruence.
Qed.

Lemma follow_up_skips_rest_witness :
  exists s1 s3, (User.schedule_extraction learn [] one_session true 7 "c" 30 None "n" "e" (fun s => s) 5
      (MkStore ∅ ∅ [] (<["j"%string := running_job 20 0]> ∅) ∅)) = (Ok (Some "n"%string), s1) /\
    User.schedule_extraction learn [] one_session true 7 "c" 20 (Some "j"%string) "" "f" (fun s => s) 6
      (set_rows (<["j"%string := running_job 20 8]> (extraction_jobs s1)) s1) = (Ok (Some "n"%string), s3) /\
    forall i o, extraction_jobs s3 !! i = Some o -> owner o = 7 -> session_id o = "c"%string -> is_open o = true ->
      20 <= extracted_sequence o.
Proof.
  pose (s := MkStore ∅ ∅ [] (<["j"%string := running_job 20 0]> ∅) ∅).
  pose (s1 := (User.schedule_extraction learn [] one_session true 7 "c" 30 None "n" "e" (fun s => s) 5 s).2).
  assert (Hcall : User.schedule_extraction learn [] one_session true 7 "c" 30 None "n" "e" (fun s => s) 5 s = (Ok (Some "n"%string), s1))
    by (vm_compute; reflexivity).
  pose (s2 := set_rows (<["j"%string := running_job 20 8]> (extraction_jobs s1)) s1 : Store).
  exists s1.
  destruct (follow_up_skips_rest learn [] one_session true 7 "c" "j" (running_job 20 0) (running_job 20 8) 30 "n" "e" "f" 5 6 s s1 s2)
    as (s3 & Hs3 & _ & Ho).
  - apply unique_single.
  - assert (exists n, extraction_jobs s2 = <["j"%string := running_job 20 8]> (<["n"%string := n]> ∅)) as [n ->].
    { eexists (default (running_job 0 0) (extraction_jobs s1 !! "n"%string)). vm_compute. reflexivity. }
    by apply unique_but_one.
  - split_and!; try done; [|by left]. exists (seconds 1000). by split.
  - done.
  - done.
  - by vm_compute.
  - done.
  - exact Hcall.
  - by vm_compute.
  - by vm_compute.
  - exists s3. by split_and!.
Defined.
