(* ===== verification/ContextFit.v ===== *)
(** * Fitting a turn into the model's window

    [context_fit_service.py].  The tokenizer's count and the window LiteLLM
    knows are arguments.  Sizes are floats in the code, products of an exact
    ratio of two integers; here they are rationals. *)

From S2P Require Import Prelude Money Text Json JsonParse PyText PyTime Fences Outbox ChatHistory RowJobs Summaries.
From Stdlib Require Import QArith Qround Lqa.

#[local] Open Scope Z_scope.

Definition CHARS_PER_TOKEN : Z := 3.
Definition MIN_KEEP : Z := 2.
Definition DEFAULT_REPLY_ROOM : Z := 4096.

Definition note_start : text := of_string "Note from the system: the ".
Definition note_end : text :=
  of_string " oldest messages of this conversation were left out to fit the model's context window. If the user refers to something from them, say that it is no longer in view and ask them to repeat it.".

(** The template, with its [{count}], and what [.format] makes of it. *)
Definition LEFT_OUT_NOTE : text := note_start ++ of_string "{count}" ++ note_end.
Definition left_out_note (count : Z) : text := note_start ++ of_int count ++ note_end.

(** What fitting did to a turn's messages. *)
Record ContextFit := MkContextFit {
  fit_messages : list BodyMessage;
  dropped : Z;
  summarized : Z;
  window : option Z;
  budget : option Z;
  tokens_before : Z;
  tokens_after : Z;
  summary_version : option text;
  summary_up_to : option Z;
  summary_tokens : Z
}.

Definition as_it_came (messages : list BodyMessage) : ContextFit := MkContextFit messages 0 0 None None 0 0 None None 0.

Definition metadata (f : ContextFit) : option (list (text * json)) :=
  if dropped f =? 0 then None
  else Some [(of_string "dropped", JInt (dropped f)); (of_string "summarized", JInt (summarized f))].

Definition opt_int (n : option Z) : json := match n with Some n => JInt n | None => JNull end.

Definition log_details (f : ContextFit) : option (list (text * json)) :=
  if dropped f =? 0 then None
  else Some ([(of_string "dropped", JInt (dropped f)); (of_string "summarized", JInt (summarized f));
      (of_string "window", opt_int (window f)); (of_string "budget", opt_int (budget f));
      (of_string "tokens_before", JInt (tokens_before f)); (of_string "tokens_after", JInt (tokens_after f))] ++
    if summarized f =? 0 then []
    else [(of_string "summary", JObj [(of_string "up_to", opt_int (summary_up_to f));
      (of_string "version", match summary_version f with Some v => JStr v | None => JNull end);
      (of_string "tokens", JInt (summary_tokens f))])]).

Definition role_is (r : string) (m : BodyMessage) : bool :=
  match field (of_string "role") m with Some (JStr s) => bool_decide (s = of_string r) | _ => false end.

(** The model's context window: the catalog's, else LiteLLM's [max_input_tokens], else the default. *)
Definition model_window (catalog known : option Z) (default_tokens : Z) : option Z :=
  let default := if 0 <? default_tokens then Some default_tokens else None in
  let litellm := match known with None | Some 0 => default | Some k => Some k end in
  match catalog with Some c => if 0 <? c then Some c else litellm | None => litellm end.

(** A plain chat history. *)
Definition fittable (messages : list BodyMessage) (tools : bool) : bool :=
  negb tools && forallb (fun m =>
    (role_is "system" m || role_is "user" m || role_is "assistant" m) &&
    negb (match field (of_string "tool_calls") m with Some v => truthy v | None => false end)) messages.

(** [xs[n:]] *)
Definition slice_from {A} (n : Z) (xs : list A) : list A :=
  drop (Z.to_nat (if n <? 0 then Z.max 0 (Z.of_nat (length xs) + n) else n)) xs.

(** [int(x)] of a float *)
Definition trunc (q : Q) : Z := Z.quot (Qnum q) (Z.pos (Qden q)).

(** The oldest go while the prompt is too large: what is left of [rest], and how many went. *)
Fixpoint leave_out {A} (fits : list A -> bool) (rest : list A) : nat * list A :=
  match rest with
  | [] => (0%nat, [])
  | _ :: older => if fits rest then (0%nat, rest) else let '(n, kept) := leave_out fits older in (S n, kept)
  end.

Section fit.
Context `{PyStr} `{PyRepr} `{PyInt}.

Definition text_part (part : json) : list text :=
  match part with JObj fields => [str_field "text" fields] | _ => [] end.

Definition _text (m : BodyMessage) : text :=
  match field (of_string "content") m with
  | Some (JStr s) => s
  | Some (JList parts) => join [32] (parts ≫= text_part)
  | Some v => if truthy v then py_str v else []
  | None => []
  end.

(** Characters as a stand-in for size; another part of a message counts as a thousand. *)
Definition part_chars (part : json) : Z :=
  match part with
  | JObj fields =>
      match field (of_string "type") fields with
      | Some (JStr t) => if bool_decide (t = of_string "text") then Z.of_nat (length (str_field "text" fields)) else 1000
      | _ => 1000
      end
  | _ => 0
  end.

Definition _chars (m : BodyMessage) : Z :=
  match field (of_string "content") m with
  | Some (JList parts) => foldr (fun p n => part_chars p + n) 0 parts
  | _ => Z.of_nat (length (_text m))
  end.

Definition chars_of (messages : list BodyMessage) : Z := foldr (fun m n => _chars m + n) 0 messages.

Definition system_message (content : text) : BodyMessage :=
  [(of_string "role", JStr (of_string "system")); (of_string "content", JStr content)].

(** The older messages and the newest, [keep] of them or, of fewer, the last. *)
Definition head_tail (keep : Z) (conversation : list BodyMessage) : list BodyMessage * list BodyMessage :=
  let n := (length conversation - Z.to_nat keep)%nat in
  match take n conversation with
  | [] => let n := pred (length conversation) in (take n conversation, drop n conversation)
  | head => (head, drop n conversation)
  end.

(** The part of [_fit] past the measuring, in a window of [w] tokens; [tokens] of [total_chars] characters. *)
Definition fit_down (messages : list BodyMessage) (w the_budget tokens total_chars keep : Z) (summary : option SummaryForTurn)
    : ContextFit :=
  let per_char := (inject_Z tokens / inject_Z total_chars)%Q in
  let system := filter (fun m => role_is "system" m = true) messages in
  let conversation := filter (fun m => role_is "system" m = false) messages in
  let '(head, tail) := head_tail (Z.max MIN_KEEP keep) conversation in
  let size (items : list BodyMessage) := (inject_Z (chars_of items) * per_char)%Q in
  let covered := match summary with Some s => Z.min (st_covered s) (Z.of_nat (length head)) | None => 0 end in
  let note_room := (inject_Z (Z.of_nat (length LEFT_OUT_NOTE)) * per_char + 20)%Q in
  let words := match summary with Some s => st_text s | None => [] end in
  let summary_room := (if covered =? 0 then 0 else inject_Z (Z.of_nat (length words)) * per_char + 20)%Q in
  let fixed := (size system + size tail + summary_room + note_room)%Q in
  let '(more, rest) := leave_out (fun rest => Qle_bool (fixed + size rest) (inject_Z the_budget)) (slice_from covered head) in
  let the_dropped := covered + Z.of_nat more in
  let unfitted := MkContextFit messages 0 0 (Some w) (Some the_budget) tokens tokens None None 0 in
  if (the_dropped =? 0) && (covered =? 0) then unfitted
  else
    let bridge := (if covered =? 0 then [] else [system_message words]) ++
                  (if covered <? the_dropped then [system_message (left_out_note (the_dropped - covered))] else []) in
    let fitted := system ++ bridge ++ rest ++ tail in
    let after := trunc (size fitted) in
    match summary with
    | Some s =>
        if covered =? 0 then MkContextFit fitted the_dropped covered (Some w) (Some the_budget) tokens after None None 0
        else MkContextFit fitted the_dropped covered (Some w) (Some the_budget) tokens after
          (match st_version s with [] => None | v => Some v end) (if st_up_to s =? 0 then None else Some (st_up_to s)) (trunc summary_room)
    | None => MkContextFit fitted the_dropped covered (Some w) (Some the_budget) tokens after None None 0
    end.

Definition reply_room (reply_tokens : option Z) (w : Z) : Z :=
  match reply_tokens with Some 0 | None => Z.min DEFAULT_REPLY_ROOM (w / 8) | Some n => n end.

Definition limit_of (reply_tokens : option Z) (w : Z) : Z := Z.max 1 (w - reply_room reply_tokens w).
Definition budget_of (reply_tokens : option Z) (w share : Z) : Z := Z.min (w * share / 100) (limit_of reply_tokens w).

(** [measured] is the tokenizer's count (0 when it cannot), [loader] what [summary_loader] answers. *)
Definition _fit (settings : list (text * json)) (messages : list BodyMessage) (catalog known : option Z) (tools : bool)
    (reply_tokens : option Z) (measured : Z) (summary : option SummaryForTurn) (loader : option (res (option SummaryForTurn)))
    : res ContextFit :=
  if negb (flag "context_fit_enabled" settings) || negb (fittable messages tools) then mret (as_it_came messages)
  else
    default_tokens ← int_or 0 (field (of_string "context_default_tokens") settings);
    match model_window catalog known default_tokens with
    | None | Some 0 => mret (as_it_came messages)
    | Some w =>
        share ← int_or 75 (field (of_string "context_share_percent") settings);
        let limit := limit_of reply_tokens w in
        let the_budget := budget_of reply_tokens w share in
        let total_chars := if chars_of messages =? 0 then 1 else chars_of messages in
        if total_chars * 3 <=? limit then mret (MkContextFit messages 0 0 (Some w) (Some the_budget) 0 0 None None 0)
        else
          let tokens := if measured =? 0 then total_chars / CHARS_PER_TOKEN else measured in
          if tokens <=? limit then mret (MkContextFit messages 0 0 (Some w) (Some the_budget) tokens tokens None None 0)
          else
            summary ← (match summary, loader with None, Some loaded => loaded | _, _ => mret summary end);
            keep ← int_or 20 (field (of_string "summary_keep_recent") settings);
            mret (fit_down messages w the_budget tokens total_chars keep summary)
    end.

(** Fitting never stops a turn. *)
Definition fit_turn_to_context (settings : list (text * json)) (messages : list BodyMessage) (catalog known : option Z) (tools : bool)
    (reply_tokens : option Z) (measured : Z) (summary : option SummaryForTurn) (loader : option (res (option SummaryForTurn)))
    : ContextFit :=
  match _fit settings messages catalog known tools reply_tokens measured summary loader with
  | Ok f => f
  | Raise _ => as_it_came messages
  end.
End fit.
