(* ===== verification/ContextFacts.v ===== *)
(** * What fitting promises

    The instructions and the newest messages are sent word for word; no more of
    the oldest messages goes than needed, and what went is stood in for by the
    summary or told to the model. *)

From S2P Require Import Prelude Money Text Json JsonParse PyText PyTime Fences Outbox Queue ChatHistory RowJobs Summaries ContextFit.
From Stdlib Require Import QArith Qround Lqa.

#[local] Open Scope Z_scope.

Lemma leave_out_spec {A} (fits : list A -> bool) rest n kept : leave_out fits rest = (n, kept) ->
  exists gone, rest = gone ++ kept /\ length gone = n /\ (kept = [] \/ fits kept = true) /\
    (gone = [] \/ exists g m, gone = g ++ [m] /\ fits (m :: kept) = false).
Proof.
  revert n kept. induction rest as [|m rest IH]; intros n kept Hl; cbn [leave_out] in Hl.
  { injection Hl as <- <-. exists []. split_and!; [done..|by left|by left]. }
  destruct (fits (m :: rest)) eqn:Hf.
  { injection Hl as <- <-. exists []. split_and!; [done..|by right|by left]. }
  destruct (leave_out fits rest) as [n' kept'] eqn:Hr. injection Hl as <- <-.
  destruct (IH n' kept' eq_refl) as (gone & -> & Hlen & Hk & Hg). exists (m :: gone). split_and!; [done|cbn; lia|done|right].
  destruct Hg as [->|(g & x & -> & Hx)]; [by exists [], m|by exists (m :: g), x].
Qed.

Lemma take_nil_inv {A} n (l : list A) : take n l = [] -> n = 0%nat \/ l = [].
Proof. destruct n, l; auto. done. Qed.

Lemma head_tail_spec keep conversation head tail : 0 < keep -> head_tail keep conversation = (head, tail) ->
  conversation = head ++ tail /\
  Z.of_nat (length tail) = Z.min (Z.of_nat (length conversation)) (if keep <? Z.of_nat (length conversation) then keep else 1).
Proof.
  intros Hk Ht. unfold head_tail in Ht. set (n := (length conversation - Z.to_nat keep)%nat) in *.
  destruct (take n conversation) as [|h hs] eqn:Hn.
  - injection Ht as <- <-. split; [by rewrite take_drop|]. rewrite length_drop.
    destruct (take_nil_inv _ _ Hn) as [Hz| ->]; [|cbn [length]; destruct (Z.ltb_spec keep (Z.of_nat 0)); lia].
    destruct (Z.ltb_spec keep (Z.of_nat (length conversation))); [unfold n in Hz; lia|]. lia.
  - injection Ht as <- <-. split; [by rewrite <- Hn, take_drop|]. rewrite length_drop.
    destruct (Z.ltb_spec keep (Z.of_nat (length conversation))) as [|Hle]; [unfold n; lia|].
    assert (n = 0%nat) as Hz by (unfold n; lia). by rewrite Hz in Hn.
Qed.

Lemma trunc_le q z : (0 <= q)%Q -> (q <= inject_Z z)%Q -> trunc q <= z.
Proof.
  unfold Qle, trunc. destruct q as [n d]. cbn. intros Hn Hz. rewrite Z.quot_div_nonneg by lia.
  apply Z.div_le_upper_bound; lia.
Qed.

Lemma slice_from_drop {A} n (xs : list A) : 0 <= n -> slice_from n xs = drop (Z.to_nat n) xs.
Proof. intros Hn. unfold slice_from. by destruct (Z.ltb_spec n 0); [lia|]. Qed.

Lemma inject_pos z : 0 < z -> (0 < inject_Z z)%Q.
Proof. unfold Qlt. cbn. lia. Qed.

Lemma inject_nonneg z : 0 <= z -> (0 <= inject_Z z)%Q.
Proof. unfold Qle. cbn. lia. Qed.

Section facts.
Context `{PyStr} `{PyRepr} `{PyInt}.

Lemma chars_of_app l k : chars_of (l ++ k) = chars_of l + chars_of k.
Proof. unfold chars_of. induction l as [|m l IH]; cbn; lia. Qed.

Lemma part_chars_nonneg p : 0 <= part_chars p.
Proof. unfold part_chars. destruct p; try done. destruct (field _ _) as [[]|]; try done. case_bool_decide; lia. Qed.

Lemma chars_nonneg m : 0 <= _chars m.
Proof.
  unfold _chars. destruct (field _ _) as [[]|]; try lia. match goal with l : list json |- _ => induction l as [|p l IH] end; cbn; [done|].
  pose proof (part_chars_nonneg p). lia.
Qed.

Lemma chars_of_nonneg l : 0 <= chars_of l.
Proof. unfold chars_of. induction l as [|m l IH]; cbn; [done|]. pose proof (chars_nonneg m). lia. Qed.

Lemma chars_system_message t : chars_of [system_message t] = Z.of_nat (length t).
Proof. change (Z.of_nat (length t) + 0 = Z.of_nat (length t)). lia. Qed.

(** The note is no longer than its template. *)
Lemma note_length n : 0 <= n < 10 ^ 7 -> Z.of_nat (length (left_out_note n)) <= Z.of_nat (length LEFT_OUT_NOTE).
Proof.
  intros Hn. unfold left_out_note, LEFT_OUT_NOTE. rewrite !length_app.
  pose proof (of_int_length 7 n Hn ltac:(lia)) as Hl. change (length (of_string "{count}")) with 7%nat. lia.
Qed.

(** Tokens of some messages, at the ratio of the whole prompt. *)
Definition tokens_of (tokens total : Z) (items : list BodyMessage) : Q := inject_Z (chars_of items) * (inject_Z tokens / inject_Z total).

Lemma ratio_pos tokens total : 0 < tokens -> 0 < total -> (0 < inject_Z tokens / inject_Z total)%Q.
Proof.
  intros Ht Hc. unfold Qdiv. apply Qmult_lt_0_compat; [|apply Qinv_lt_0_compat]; by apply inject_pos.
Qed.

Lemma tokens_of_nil tokens total : (tokens_of tokens total [] == 0)%Q.
Proof. unfold tokens_of. change (inject_Z (chars_of [])) with 0%Q. ring. Qed.

Lemma tokens_of_app tokens total l k : (tokens_of tokens total (l ++ k) == tokens_of tokens total l + tokens_of tokens total k)%Q.
Proof. unfold tokens_of. rewrite chars_of_app, inject_Z_plus. ring. Qed.

Lemma tokens_of_nonneg tokens total l : 0 < tokens -> 0 < total -> (0 <= tokens_of tokens total l)%Q.
Proof.
  intros Ht Hc. apply Qmult_le_0_compat; [apply inject_nonneg, chars_of_nonneg|]. by apply Qlt_le_weak, ratio_pos.
Qed.

Lemma tokens_of_chars tokens total l n : 0 < tokens -> 0 < total -> chars_of l <= n ->
  (tokens_of tokens total l <= inject_Z n * (inject_Z tokens / inject_Z total))%Q.
Proof.
  intros Ht Hc Hn. apply Qmult_le_compat_r; [by rewrite <- Zle_Qle|]. by apply Qlt_le_weak, ratio_pos.
Qed.

(** ** What is sent *)

Definition system_part (messages : list BodyMessage) : list BodyMessage := filter (fun m => role_is "system" m = true) messages.
Definition conversation_part (messages : list BodyMessage) : list BodyMessage := filter (fun m => role_is "system" m = false) messages.

Definition words_of (summary : option SummaryForTurn) : text := match summary with Some s => st_text s | None => [] end.

Definition bridge (summary : option SummaryForTurn) (covered gone : Z) : list BodyMessage :=
  (if covered =? 0 then [] else [system_message (words_of summary)]) ++
  (if covered <? gone then [system_message (left_out_note (gone - covered))] else []).

(** The room set aside for what stands in for the oldest messages. *)
Definition bridge_room (tokens total : Z) (summary : option SummaryForTurn) (covered : Z) : Q :=
  let ratio := (inject_Z tokens / inject_Z total)%Q in
  ((if covered =? 0 then 0 else inject_Z (Z.of_nat (length (words_of summary))) * ratio + 20) +
   (inject_Z (Z.of_nat (length LEFT_OUT_NOTE)) * ratio + 20))%Q.

Lemma bridge_fits tokens total summary covered gone : 0 < tokens -> 0 < total -> 0 <= covered -> 0 <= gone < 10 ^ 7 ->
  (tokens_of tokens total (bridge summary covered gone) <= bridge_room tokens total summary covered)%Q.
Proof.
  intros Ht Hc Hcov Hg. unfold bridge, bridge_room. rewrite tokens_of_app. apply Qplus_le_compat.
  - destruct (covered =? 0); [rewrite tokens_of_nil; lra|].
    eapply Qle_trans; [apply (tokens_of_chars _ _ _ (Z.of_nat (length (words_of summary))) Ht Hc); by rewrite chars_system_message|].
    set (x := (inject_Z _ * _)%Q). lra.
  - destruct (Z.ltb_spec covered gone).
    + eapply Qle_trans; [apply (tokens_of_chars _ _ _ (Z.of_nat (length LEFT_OUT_NOTE)) Ht Hc)|].
      * rewrite chars_system_message. apply note_length. lia.
      * set (x := (inject_Z _ * _)%Q). lra.
    + pose proof (ratio_pos _ _ Ht Hc) as Hr. rewrite tokens_of_nil.
      assert (0 <= inject_Z (Z.of_nat (length LEFT_OUT_NOTE)))%Q by (apply inject_nonneg; lia).
      assert (0 <= inject_Z (Z.of_nat (length LEFT_OUT_NOTE)) * (inject_Z tokens / inject_Z total))%Q
        by (apply Qmult_le_0_compat; [done|lra]).
      lra.
Qed.

(** What is kept of the oldest messages, and of those left out how many the summary stands in for. *)
Record fitted_down (messages : list BodyMessage) (w the_budget tokens total keep : Z) (summary : option SummaryForTurn)
    (f : ContextFit) (gone kept tail : list BodyMessage) : Prop := {
  fd_split : conversation_part messages = gone ++ kept ++ tail;
  fd_tail : Z.of_nat (length tail) =
    (if keep <? Z.of_nat (length (conversation_part messages)) then keep else 1);
  fd_sent : fit_messages f = system_part messages ++ bridge summary (summarized f) (dropped f) ++ kept ++ tail;
  fd_gone : dropped f = Z.of_nat (length gone) /\ gone <> [];
  fd_covered : summarized f = match summary with Some s => Z.min (st_covered s) (Z.of_nat (length (gone ++ kept))) | None => 0 end;
  fd_fits : kept = [] \/ tokens_after f <= the_budget;
  fd_needed : forall fewer more, gone ++ kept = fewer ++ more -> summarized f < dropped f -> Z.of_nat (length fewer) < dropped f ->
    (inject_Z the_budget < tokens_of tokens total (system_part messages) + tokens_of tokens total tail +
       bridge_room tokens total summary (summarized f) + tokens_of tokens total more)%Q;
  fd_window : window f = Some w /\ budget f = Some the_budget /\ tokens_before f = tokens
}.

(** Where one message more is too many, so are several. *)
Lemma fewer_too_large tokens total (g kept fewer more : list BodyMessage) m room the_budget : 0 < tokens -> 0 < total ->
  (g ++ [m]) ++ kept = fewer ++ more -> (length fewer < length (g ++ [m]))%nat ->
  (inject_Z the_budget < room + tokens_of tokens total (m :: kept))%Q -> (inject_Z the_budget < room + tokens_of tokens total more)%Q.
Proof.
  intros Ht Hc Heq Hlen Hlt. rewrite length_app in Hlen. cbn [length] in Hlen.
  assert (more = drop (length fewer) g ++ m :: kept) as ->.
  { rewrite <- (drop_app_length fewer more), <- Heq, <- app_assoc, drop_app_le by lia. done. }
  rewrite tokens_of_app. pose proof (tokens_of_nonneg tokens total (drop (length fewer) g) Ht Hc). lra.
Qed.

(** What the fitting leaves out, with the sizes as they are compared. *)
Lemma left_out_parts tokens total the_budget fixed covered head more kept : 0 <= covered <= Z.of_nat (length head) ->
  leave_out (fun rest => Qle_bool (fixed + tokens_of tokens total rest) (inject_Z the_budget)) (slice_from covered head) = (more, kept) ->
  exists gone, head = gone ++ kept /\ Z.of_nat (length gone) = covered + Z.of_nat more /\
    (kept = [] \/ (fixed + tokens_of tokens total kept <= inject_Z the_budget)%Q) /\
    (more = 0%nat \/ exists g m, gone = g ++ [m] /\ (inject_Z the_budget < fixed + tokens_of tokens total (m :: kept))%Q).
Proof.
  intros Hc Hl. rewrite slice_from_drop in Hl by lia. apply leave_out_spec in Hl as (gone & Hd & Hlen & Hk & Hg).
  exists (take (Z.to_nat covered) head ++ gone). rewrite <- app_assoc, <- Hd, take_drop, length_app, length_take.
  split_and!; [done|lia| |].
  - destruct Hk as [?|Hk]; [by left|right]. by apply Qle_bool_iff.
  - destruct Hg as [->|(g & m & -> & Hm)]; [by left|right]. exists (take (Z.to_nat covered) head ++ g), m.
    rewrite app_assoc. split; [done|]. apply Qnot_le_lt. intros Hle%Qle_bool_iff. congruence.
Qed.

Lemma length_system_part messages : (length (system_part messages) <= length messages)%nat.
Proof. apply length_filter. Qed.

Lemma total_split messages : chars_of messages = chars_of (system_part messages) + chars_of (conversation_part messages).
Proof.
  unfold system_part, conversation_part, chars_of. induction messages as [|m l IH]; [done|]. cbn [foldr]. rewrite !filter_cons.
  destruct (role_is "system" m); repeat case_decide; try done; cbn [foldr]; lia.
Qed.

(** Setting the newest apart never makes an older message fit. *)
Lemma never_fits tokens total the_budget system conversation rest tail room messages :
  0 < tokens -> total = chars_of messages -> 0 < total -> the_budget < tokens -> (0 <= room)%Q ->
  chars_of messages = chars_of system + chars_of conversation -> conversation = rest ++ tail ->
  ~ (tokens_of tokens total system + tokens_of tokens total tail + room + tokens_of tokens total rest <= inject_Z the_budget)%Q.
Proof.
  intros Ht Heq Hc Hb Hr Hs -> Hle. rewrite chars_of_app in Hs.
  assert (tokens_of tokens total system + tokens_of tokens total tail + tokens_of tokens total rest == inject_Z tokens)%Q as Hall.
  { unfold tokens_of. rewrite <- !Qmult_plus_distr_l, <- !inject_Z_plus.
    replace (chars_of system + chars_of tail + chars_of rest) with total by lia.
    pose proof (inject_pos total Hc). field. lra. }
  rewrite Zlt_Qlt in Hb. lra.
Qed.

Lemma bridge_room_nonneg tokens total summary covered : 0 < tokens -> 0 < total -> (0 <= bridge_room tokens total summary covered)%Q.
Proof.
  intros Ht Hc. pose proof (ratio_pos _ _ Ht Hc) as Hr. unfold bridge_room.
  assert (forall n : nat, 0 <= inject_Z (Z.of_nat n) * (inject_Z tokens / inject_Z total))%Q as Hn
    by (intros n; apply Qmult_le_0_compat; [apply inject_nonneg; lia|lra]).
  pose proof (Hn (length LEFT_OUT_NOTE)). destruct (covered =? 0); [lra|].
  pose proof (Hn (length (words_of summary))). lra.
Qed.

(** The sizes set apart, in the order they are added. *)
Definition set_apart tokens total system tail summary covered : Q :=
  let ratio := (inject_Z tokens / inject_Z total)%Q in
  (tokens_of tokens total system + tokens_of tokens total tail +
   (if covered =? 0 then 0 else inject_Z (Z.of_nat (length (words_of summary))) * ratio + 20) +
   (inject_Z (Z.of_nat (length LEFT_OUT_NOTE)) * ratio + 20))%Q.

Lemma set_apart_eq tokens total system tail summary covered :
  (set_apart tokens total system tail summary covered ==
     tokens_of tokens total system + tokens_of tokens total tail + bridge_room tokens total summary covered)%Q.
Proof. unfold set_apart, bridge_room. ring. Qed.

(** The result of fitting down, once what goes is known. *)
Definition fitted_to messages w the_budget tokens (total : Z) (summary : option SummaryForTurn) covered gone (kept tail : list BodyMessage)
    (f : ContextFit) : Prop :=
  fit_messages f = system_part messages ++ bridge summary covered gone ++ kept ++ tail /\ dropped f = gone /\ summarized f = covered /\
  tokens_after f = trunc (tokens_of tokens total (fit_messages f)) /\ window f = Some w /\ budget f = Some the_budget /\ tokens_before f = tokens.

Lemma fit_down_run messages w the_budget tokens keep summary head tail more kept :
  let total := chars_of messages in
  let covered := match summary with Some s => Z.min (st_covered s) (Z.of_nat (length head)) | None => 0 end in
  head_tail (Z.max MIN_KEEP keep) (conversation_part messages) = (head, tail) ->
  leave_out (fun rest => Qle_bool (set_apart tokens total (system_part messages) tail summary covered + tokens_of tokens total rest)
    (inject_Z the_budget)) (slice_from covered head) = (more, kept) ->
  0 < covered + Z.of_nat more ->
  fitted_to messages w the_budget tokens total summary covered (covered + Z.of_nat more) kept tail
    (fit_down messages w the_budget tokens total keep summary).
Proof.
  intros total covered Hht Hl Hpos. unfold fit_down. fold (system_part messages) (conversation_part messages). rewrite Hht.
  fold covered. fold (words_of summary).
  change (let '(n, k) := leave_out _ _ in @?f n k) with
    (let '(n, k) := leave_out (fun rest => Qle_bool (set_apart tokens total (system_part messages) tail summary covered +
       tokens_of tokens total rest) (inject_Z the_budget)) (slice_from covered head) in f n k).
  cbv zeta. rewrite Hl. destruct (Z.eqb_spec (covered + Z.of_nat more) 0); [lia|]. cbn [andb].
  destruct summary as [s|]; [destruct (Z.eqb_spec covered 0) as [Hz|]|]; unfold fitted_to; cbn [fit_messages dropped summarized tokens_after
    window budget tokens_before].
  all: unfold bridge, words_of; try (rewrite (proj2 (Z.eqb_eq covered 0) Hz)).
  all: try (destruct (Z.eqb_spec covered 0); [done|]).
  all: by split_and!.
Qed.

Lemma fit_down_correct messages w the_budget tokens keep summary :
  let total := chars_of messages in
  0 < total -> 0 < tokens -> the_budget < tokens ->
  (forall s, summary = Some s -> 0 <= st_covered s) -> Z.of_nat (length messages) < 10 ^ 7 ->
  (1 < length (conversation_part messages))%nat ->
  exists gone kept tail, fitted_down messages w the_budget tokens total (Z.max MIN_KEEP keep) summary
    (fit_down messages w the_budget tokens total keep summary) gone kept tail.
Proof.
  intros total Hc Ht Hb Hcov Hlen Hconv.
  destruct (head_tail (Z.max MIN_KEEP keep) (conversation_part messages)) as [head tail] eqn:Hht.
  pose proof Hht as [Hsplit Htail]%head_tail_spec; [|unfold MIN_KEEP; lia].
  set (c := match summary with Some s => Z.min (st_covered s) (Z.of_nat (length head)) | None => 0 end).
  assert (0 <= c <= Z.of_nat (length head)) as Hcr.
  { unfold c. destruct summary as [s|]; [specialize (Hcov s eq_refl); lia|lia]. }
  set (fixed := set_apart tokens total (system_part messages) tail summary c).
  destruct (leave_out (fun rest => Qle_bool (fixed + tokens_of tokens total rest) (inject_Z the_budget)) (slice_from c head))
    as [more kept] eqn:Hl.
  destruct (left_out_parts tokens total the_budget fixed c head more kept Hcr Hl) as (gone & Hhead & Hgone & Hk & Hg).
  assert (fixed == tokens_of tokens total (system_part messages) + tokens_of tokens total tail + bridge_room tokens total summary c)%Q
    as Hfixed by apply set_apart_eq.
  pose proof (bridge_room_nonneg tokens total summary c Ht Hc) as Hroom.
  assert (gone <> []) as Hne.
  { intros ->. cbn [app] in Hhead. subst kept. destruct Hk as [Hk|Hk].
    - subst head. cbn [length app] in *. rewrite <- Hsplit in Htail. destruct (Z.ltb_spec (Z.max MIN_KEEP keep) (Z.of_nat (length (conversation_part messages)))); lia.
    - rewrite Hfixed in Hk. by apply (never_fits tokens total the_budget (system_part messages) (conversation_part messages) head tail
        (bridge_room tokens total summary c) messages Ht eq_refl Hc Hb Hroom (total_split messages) Hsplit). }
  assert (0 < c + Z.of_nat more) as Hpos by (destruct gone; [done|cbn [length] in Hgone; lia]).
  destruct (fit_down_run messages w the_budget tokens keep summary head tail more kept Hht Hl Hpos)
    as (Hsent & Hd & Hs & Hafter & Hwin & Hbud & Hbef).
  fold total c in Hsent, Hd, Hs, Hafter, Hwin, Hbud, Hbef. exists gone, kept, tail. constructor.
  - by rewrite Hsplit, Hhead, app_assoc.
  - rewrite Htail. destruct (Z.ltb_spec (Z.max MIN_KEEP keep) (Z.of_nat (length (conversation_part messages)))); lia.
  - by rewrite Hsent, Hs, Hd.
  - split; [lia|done].
  - rewrite Hs. by rewrite <- Hhead.
  - destruct Hk as [?|Hk]; [by left|right]. rewrite Hafter. apply trunc_le; [by apply tokens_of_nonneg|].
    rewrite Hsent, !tokens_of_app. rewrite Hfixed in Hk.
    pose proof (bridge_fits tokens total summary c (c + Z.of_nat more) Ht Hc ltac:(lia)) as Hbf.
    assert (c + Z.of_nat more < 10 ^ 7) as Hsmall.
    { rewrite <- Hgone. assert (length gone <= length messages)%nat; [|lia].
      etrans; [|apply (length_filter (fun m => role_is "system" m = false))].
      fold (conversation_part messages). rewrite Hsplit, Hhead, !length_app. lia. }
    assert (0 <= c + Z.of_nat more < 10 ^ 7) as Hrange by (split; [lia|done]). specialize (Hbf Hrange). lra.
  - rewrite Hs, Hd. intros fewer rest Heq Hlt Hfew. destruct Hg as [->|(g & m & -> & Hm)]; [lia|]. rewrite Hfixed in Hm.
    by apply (fewer_too_large tokens total g kept fewer rest m); [..|lia|].
  - done.
Qed.

(** C18: a plain chat that leaves the model no room to answer is brought down to
    its share of the window.  The system messages are sent first, as they are
    and in order; then what stands in for the oldest messages; then the rest of
    the chat, word for word and in order, always with its newest messages: as
    many as the setting says, two at least, when the chat has more than those, and
    the newest one alone when it has not.  The summary stands in for the messages
    it covers, and the model is told of every other message left out.  What is
    sent is within the budget unless only the newest messages are left.  Beyond
    the messages the summary stands in for, as few as possible go: with any fewer
    left out, what is sent and the room set aside for the summary and the note
    would be more than the budget. *)
Theorem context_fit_correct settings messages catalog known tools reply_tokens measured summary loader default_tokens w share keep
    loaded :
  flag "context_fit_enabled" settings = true -> fittable messages tools = true ->
  int_or 0 (field (of_string "context_default_tokens") settings) = Ok default_tokens ->
  model_window catalog known default_tokens = Some w -> w <> 0 ->
  int_or 75 (field (of_string "context_share_percent") settings) = Ok share ->
  (match summary, loader with None, Some l => l | _, _ => Ok summary end) = Ok loaded ->
  int_or 20 (field (of_string "summary_keep_recent") settings) = Ok keep ->
  let total := chars_of messages in
  let tokens := if measured =? 0 then total / CHARS_PER_TOKEN else measured in
  0 < total -> limit_of reply_tokens w < total * 3 -> limit_of reply_tokens w < tokens ->
  (forall s, loaded = Some s -> 0 <= st_covered s) -> Z.of_nat (length messages) < 10 ^ 7 ->
  (1 < length (conversation_part messages))%nat ->
  exists gone kept tail, fitted_down messages w (budget_of reply_tokens w share) tokens total (Z.max MIN_KEEP keep) loaded
    (fit_turn_to_context settings messages catalog known tools reply_tokens measured summary loader) gone kept tail.
Proof.
  intros Hon Hfit Hdef Hw Hw0 Hshare Hload Hkeep total tokens Hc Hbig Htok Hcov Hlen Hconv.
  assert (fit_turn_to_context settings messages catalog known tools reply_tokens measured summary loader =
    fit_down messages w (budget_of reply_tokens w share) tokens total keep loaded) as ->.
  { unfold fit_turn_to_context, _fit. rewrite Hon, Hfit. cbn [negb orb]. unfold mbind, res_bind at 1. rewrite Hdef, Hw.
    destruct w; [done|..]; unfold res_bind at 1; rewrite Hshare; cbv zeta; fold total.
    all: destruct (Z.eqb_spec total 0) as [|_]; [lia|].
    all: rewrite (proj2 (Z.leb_gt _ _) Hbig); fold tokens; rewrite (proj2 (Z.leb_gt _ _) Htok).
    all: unfold res_bind; change (mret summary) with (Ok summary); rewrite Hload, Hkeep; done. }
  assert (1 <= limit_of reply_tokens w) as Hlim by (unfold limit_of; lia).
  apply fit_down_correct; try done; [lia|]. unfold budget_of. lia.
Qed.

End facts.

(** ** Five long messages, the first in a summary *)

Definition fit_int : PyInt := {| int_of_str _ := None; int_of_float _ := None |}.

Definition long_chat : list BodyMessage :=
  as_body ("system"%string, of_string "be brief") ::
  ((fun r => as_body (r, repeat 97 600)) <$> ["user"; "assistant"; "user"; "assistant"; "user"]%string).

Definition long_summary : SummaryForTurn := MkSummaryForTurn 1 (of_string "They said hello.") 1 (of_string "2026-01-01").

Lemma context_fit_correct_witness :
  let fit := fit_turn_to_context (H0 := plain_repr) (H1 := fit_int)
    [(of_string "summary_keep_recent", JInt 2)] long_chat (Some 1000) None false (Some 100) 1000 None (Some (Ok (Some long_summary))) in
  dropped fit = 2 /\ summarized fit = 1 /\
  exists gone kept tail, fitted_down (H0 := plain_repr) long_chat 1000 750 1000 (chars_of (H0 := plain_repr) long_chat) 2 (Some long_summary) fit gone kept tail.
Proof.
  intros fit. split; [vm_compute; reflexivity|]. split; [vm_compute; reflexivity|].
  apply (context_fit_correct (H0 := plain_repr) (H1 := fit_int)
    [(of_string "summary_keep_recent", JInt 2)] long_chat (Some 1000) None false (Some 100) 1000 None (Some (Ok (Some long_summary)))
    0 1000 75 2 (Some long_summary)); try (vm_compute; reflexivity).
  - done.
  - by intros s [= <-].
  - apply (bool_decide_unpack _). vm_compute. exact I.
Defined.
