(* ===== verification/FreeTime.v ===== *)
(** * Finding a time when everyone is free

    [exchange_free_time.py].  An aware datetime in UTC is an instant,
    microseconds since 1970; one in another zone is a wall clock with its
    [fold].  [start] and [end] enter as instants, so they are never naive. *)

From S2P Require Import Prelude Text PyText PyTime.

Definition us_per_minute : Z := 60000000.

(** ** Zones, as [zoneinfo] and [datetime] give them *)

(** A zone: the offset in effect at an instant, whether the wall clock then is a
    repeated one shown the second time, and the offset of a wall clock. *)
Record ZoneInfo := MkZone {
  utc_offset : Z -> Z;
  fold_at : Z -> bool;
  wall_offset : Z -> bool -> Z
}.

Record Local := MkLocal { wall : Z; fold : bool }.

(** [t.astimezone(tz)] of an instant, and [local.astimezone(UTC)] *)
Definition astimezone (z : ZoneInfo) (t : Z) : Local := MkLocal (t + utc_offset z t) (fold_at z t).
Definition to_utc (z : ZoneInfo) (l : Local) : Z := wall l - wall_offset z (wall l) (fold l).

(** [local + timedelta]: on the wall clock, and the [fold] is lost. *)
Definition add (l : Local) (delta : Z) : Local := MkLocal (wall l + delta) false.

(** The zones [ZoneInfo(name)] knows. *)
Class ZoneNames := { zone_named : text -> option ZoneInfo }.

Definition day_of (l : Local) : Z := wall l / us_per_day.
(** 1970-01-01 was a Thursday. *)
Definition isoweekday (l : Local) : Z := (day_of l + 3) mod 7 + 1.
(** [_minutes] *)
Definition _minutes (l : Local) : Z := wall l / us_per_minute mod 1440.

(** ** The data *)

Record BusyInterval := MkBusy { b_start : Z; b_end : Z; b_status : text }.
Record WorkingHours := MkHours { wh_timezone : text; wh_days : list Z; wh_start : Z; wh_end : Z }.
Record Availability := MkAvailability { busy_times : list BusyInterval; working_hours : option WorkingHours; error : text }.
Record FreeSlot := MkSlot { slot_start : Z; slot_end : Z }.

Definition BUSY_STATUSES : list text := of_string <$> ["busy"; "oof"; "tentative"]%string.
Definition DEFAULT_WORKING_HOURS : list Z * Z * Z := ([1; 2; 3; 4; 5], 9 * 60, 17 * 60).

Record _Person := MkPerson { busy : list BusyInterval; p_zone : ZoneInfo; days : list Z; first_minute : Z; last_minute : Z }.

Section free_time.
Context `{PyStr} `{ZoneNames}.

(** [zone] of a name *)
Definition zone (name : option text) : option ZoneInfo :=
  match strip (default [] name) with [] => None | t => zone_named t end.

(** The first instant at or after [start] on a [step]-minute boundary of the zone. *)
Definition _aligned_start (start : Z) (tz : ZoneInfo) (step : Z) : Z :=
  let local := astimezone tz start in
  let base := MkLocal (wall local - wall local mod us_per_minute) (fold local) in
  let base := if wall base <? wall local then add base us_per_minute else base in
  let remainder := _minutes base mod step in
  let base := if remainder =? 0 then base else add base ((step - remainder) * us_per_minute) in
  to_utc tz base.

Definition _usable_hours (hours : option WorkingHours) : option (ZoneInfo * list Z * Z * Z) :=
  match hours with
  | None => None
  | Some h =>
      let ds := filter (fun d => 1 <= d <= 7) (wh_days h) in
      match zone (Some (wh_timezone h)) with
      | Some tz =>
          if negb (bool_decide (ds = [])) && ((0 <=? wh_start h) && (wh_start h <? wh_end h) && (wh_end h <=? 24 * 60))
          then Some (tz, ds, wh_start h, wh_end h) else None
      | None => None
      end
  end.

Definition blocks (b : BusyInterval) : bool :=
  let status := match b_status b with [] => of_string "Busy" | s => s end in
  bool_decide (py_lower (strip status) ∈ BUSY_STATUSES).

Definition person (a : Availability) (default_zone : ZoneInfo) : _Person :=
  let busy := sort_by b_start (filter (fun b => blocks b = true) (busy_times a)) in
  match _usable_hours (working_hours a) with
  | None => MkPerson busy default_zone DEFAULT_WORKING_HOURS.1.1 DEFAULT_WORKING_HOURS.1.2 DEFAULT_WORKING_HOURS.2
  | Some (tz, ds, f, l) => MkPerson busy tz ds f l
  end.

(** [_Person.free]: the intervals are in order of their starts. *)
Fixpoint free_among (intervals : list BusyInterval) (start stop : Z) : bool :=
  match intervals with
  | [] => true
  | b :: intervals => if stop <=? b_start b then true else if start <? b_end b then false else free_among intervals start stop
  end.

Definition free (p : _Person) (start stop : Z) : bool := free_among (busy p) start stop.

Definition working (p : _Person) (start stop : Z) : bool :=
  let local_start := astimezone (p_zone p) start in
  let local_end := astimezone (p_zone p) stop in
  let last := add local_end (-1) in
  if negb (day_of last =? day_of local_start) || negb (bool_decide (isoweekday local_start ∈ days p)) then false
  else
    let end_minute := if day_of local_end =? day_of local_start then _minutes local_end else 24 * 60 in
    (first_minute p <=? _minutes local_start) && (end_minute <=? last_minute p).

(** ** The search *)

Definition slot_free (people : list _Person) (working_hours_only : bool) (start stop : Z) : bool :=
  forallb (fun p => free p start stop) people &&
  (negb working_hours_only || forallb (fun p => working p start stop) people).

(** The slots found, by the day they start on, oldest first: [by_day]. *)
Definition put_slot (day : Z) (slot : FreeSlot) (by_day : gmap Z (list FreeSlot)) : gmap Z (list FreeSlot) :=
  <[day := default [] (by_day !! day) ++ [slot]]> by_day.

(** The [while] loop of [find_free_slots]; [None] when the fuel runs out. *)
Fixpoint search (fuel : nat) (people : list _Person) (working_hours_only : bool) (shown : ZoneInfo) (stop duration step : Z)
    (candidate : Z) (by_day : gmap Z (list FreeSlot)) : option (gmap Z (list FreeSlot)) :=
  if candidate + duration <=? stop then
    match fuel with
    | O => None
    | S fuel =>
        let slot_end := candidate + duration in
        if slot_free people working_hours_only candidate slot_end then
          search fuel people working_hours_only shown stop duration step (_aligned_start slot_end shown step)
            (put_slot (day_of (astimezone shown candidate)) (MkSlot candidate slot_end) by_day)
        else search fuel people working_hours_only shown stop duration step (candidate + step * us_per_minute) by_day
    end
  else Some by_day.

(** One round of [_spread]: each day's [rank]-th slot. *)
Definition spread_round (max_results rank : nat) (by_day : gmap Z (list FreeSlot)) (days : list Z) (picked : list FreeSlot) : list FreeSlot :=
  foldl (fun picked day =>
    match default [] (by_day !! day) !! rank with
    | Some slot => if (length picked <? max_results)%nat then picked ++ [slot] else picked
    | None => picked
    end) picked days.

(** The [while] loop of [_spread]; a round picks a slot, so [max_results] rounds are enough. *)
Fixpoint spread_loop (fuel max_results rank : nat) (by_day : gmap Z (list FreeSlot)) (days : list Z) (picked : list FreeSlot)
    : list FreeSlot :=
  match fuel with
  | O => picked
  | S fuel =>
      if (length picked <? max_results)%nat && existsb (fun day => (rank <? length (default [] (by_day !! day)))%nat) days
      then spread_loop fuel max_results (S rank) by_day days (spread_round max_results rank by_day days picked)
      else picked
  end.

Definition _spread (by_day : gmap Z (list FreeSlot)) (max_results : nat) : list FreeSlot :=
  sort_by slot_start (spread_loop max_results max_results 0 by_day (sort_by id (map_to_list by_day).*1) []).

Definition find_free_slots (fuel : nat) (availabilities : list Availability) (start stop duration : Z) (tz : option ZoneInfo)
    (utc : ZoneInfo) (working_hours_only : bool) (step_minutes max_results : Z) : option (list FreeSlot) :=
  let shown := default utc tz in
  if (duration <=? 0) || (max_results <=? 0) || (step_minutes <=? 0) || (stop <=? start) then Some []
  else
    let people := (fun a => person a shown) <$> filter (fun a => error a = []) availabilities in
    by_day ← search fuel people working_hours_only shown stop duration step_minutes (_aligned_start start shown step_minutes) ∅;
    Some (_spread by_day (Z.to_nat max_results)).
End free_time.
