(* ===== verification/FreeTimeFacts.v ===== *)
(** * What the search for a free time promises

    Away from a repeated hour the search ends, and what it answers is right and
    leaves no room; in a repeated hour it may go back and never end. *)

From S2P Require Import Prelude Text PyText PyTime FreeTime.

(** ** Going forward *)

(** Setting a wall clock forward leads to no earlier instant: the zone repeats
    no hour in these times.  (The first field is [zoneinfo]'s round trip.) *)
Record goes_forward (z : ZoneInfo) (step lo hi : Z) : Prop := {
  gf_back : forall t, lo <= t <= hi -> wall_offset z (t + utc_offset z t) (fold_at z t) = utc_offset z t;
  gf_ahead : forall t d, lo <= t <= hi -> 0 < d < (step + 1) * us_per_minute ->
    wall_offset z (t + utc_offset z t + d) false <= utc_offset z t + d
}.

(** One offset all along. *)
Record steady (z : ZoneInfo) (off lo hi : Z) : Prop := {
  st_utc : forall t, lo <= t <= hi -> utc_offset z t = off;
  st_wall : forall w f, lo + off <= w <= hi + off -> wall_offset z w f = off
}.

(** How far [_aligned_start] sets the wall clock forward. *)
Definition ahead (w step : Z) : Z :=
  let minute := w + (- w) mod us_per_minute in
  let remainder := minute / us_per_minute mod 1440 mod step in
  minute - w + (if remainder =? 0 then 0 else (step - remainder) * us_per_minute).

Lemma to_minute w : (if w - w mod us_per_minute <? w then w - w mod us_per_minute + us_per_minute else w - w mod us_per_minute) =
  w + (- w) mod us_per_minute.
Proof.
  assert (0 < us_per_minute) as Hp by done. pose proof (Z.mod_pos_bound w us_per_minute Hp).
  destruct (Z.eq_dec (w mod us_per_minute) 0) as [Hz|Hnz].
  - rewrite (Z.mod_opp_l_z w) by done. rewrite Hz. destruct (Z.ltb_spec (w - 0) w); lia.
  - rewrite (Z.mod_opp_l_nz w) by done. destruct (Z.ltb_spec (w - w mod us_per_minute) w); lia.
Qed.

Lemma ahead_bounds w step : 0 < step -> 0 <= ahead w step < (step + 1) * us_per_minute.
Proof.
  intros Hs. unfold ahead. assert (0 < us_per_minute) as Hp by done. pose proof (Z.mod_pos_bound (- w) us_per_minute Hp).
  set (r := _ mod step). assert (0 <= r < step) by (by apply Z.mod_pos_bound). destruct (Z.eqb_spec r 0); nia.
Qed.

(** The start is the instant itself, or what its wall clock set forward names. *)
Lemma aligned_start_ahead start z step : 0 < step ->
  let w := start + utc_offset z start in
  _aligned_start start z step =
    if ahead w step =? 0 then w - wall_offset z w (fold_at z start)
    else w + ahead w step - wall_offset z (w + ahead w step) false.
Proof.
  intros Hs w. unfold _aligned_start, astimezone. cbn [wall fold]. fold w.
  match goal with |- context [if ?b then add ?l us_per_minute else ?l] => set (base := if b then add l us_per_minute else l) end.
  assert (wall base = w + (- w) mod us_per_minute) as Hwall.
  { unfold base. rewrite <- to_minute. by destruct (_ <? w). }
  assert ((- w) mod us_per_minute = 0 /\ base = MkLocal w (fold_at z start) \/ 0 < (- w) mod us_per_minute /\ fold base = false) as Hbase.
  { assert (0 < us_per_minute) as Hp by done. unfold base. pose proof (Z.mod_pos_bound w us_per_minute Hp) as Hb.
    destruct (Z.eq_dec (w mod us_per_minute) 0) as [Hz|Hnz].
    - left. rewrite (Z.mod_opp_l_z w) by done. cbn [wall]. rewrite Hz. destruct (Z.ltb_spec (w - 0) w); [lia|].
      split; [done|]. f_equal. lia.
    - right. rewrite (Z.mod_opp_l_nz w) by done. cbn [wall]. destruct (Z.ltb_spec (w - w mod us_per_minute) w); [|lia]. split; [lia|done]. }
  clearbody base. assert (_minutes base mod step = (w + (- w) mod us_per_minute) / us_per_minute mod 1440 mod step) as Hr
    by (unfold _minutes; by rewrite Hwall).
  unfold ahead. rewrite <- Hr. pose proof (Z.mod_pos_bound (_minutes base) step Hs). destruct (Z.eqb_spec (_minutes base mod step) 0) as [Hz|Hnz].
  - unfold to_utc. rewrite Hwall, Z.add_0_r. destruct Hbase as [[Hm ->]|[Hm Hf]].
    + rewrite Hm. destruct (Z.eqb_spec (w + 0 - w) 0); [|lia]. cbn [fold]. by rewrite Z.add_0_r.
    + rewrite Hf. destruct (Z.eqb_spec (w + (- w) mod us_per_minute - w) 0); [lia|].
      by replace (w + (w + (- w) mod us_per_minute - w)) with (w + (- w) mod us_per_minute) by lia.
  - unfold to_utc, add. cbn [wall fold]. rewrite Hwall. assert (0 < us_per_minute) by done.
    pose proof (Z.mod_pos_bound (- w) us_per_minute ltac:(done)).
    destruct (Z.eqb_spec (w + (- w) mod us_per_minute - w + (step - _minutes base mod step) * us_per_minute) 0); [nia|].
    set (m := (- w) mod us_per_minute) in *. set (x := (step - _) * _). by replace (w + (w + m - w + x)) with (w + m + x) by lia.
Qed.

Lemma aligned_start_forward z step lo hi t : 0 < step -> goes_forward z step lo hi -> lo <= t <= hi -> t <= _aligned_start t z step.
Proof.
  intros Hs [Hback Hahead] Ht. rewrite aligned_start_ahead by done. cbv zeta. pose proof (ahead_bounds (t + utc_offset z t) step Hs).
  destruct (Z.eqb_spec (ahead (t + utc_offset z t) step) 0).
  - rewrite Hback by done. lia.
  - specialize (Hahead t (ahead (t + utc_offset z t) step) Ht ltac:(lia)). lia.
Qed.

Lemma steady_forward z off step lo hi : 0 < step -> steady z off lo (hi + (step + 1) * us_per_minute) -> goes_forward z step lo hi.
Proof.
  assert (0 < us_per_minute) by done.
  intros Hs [Hu Hw]. constructor.
  - intros t Ht. rewrite Hu by (unfold us_per_minute in *; lia). apply Hw. unfold us_per_minute in *; lia.
  - intros t d Ht Hd. rewrite Hu by (unfold us_per_minute in *; lia). rewrite Hw by (unfold us_per_minute in *; lia). lia.
Qed.

(** A boundary of the wall clock: a multiple of [step] minutes, when they part the day. *)
Definition on_boundary (off step t : Z) : Prop := (t + off) mod (step * us_per_minute) = 0.

Lemma ahead_boundary w step : 0 < step -> (step | 1440) ->
  (w + ahead w step) mod (step * us_per_minute) = 0 /\ ahead w step < step * us_per_minute.
Proof.
  intros Hs Hdiv. unfold ahead. assert (0 < us_per_minute) as Hp by done.
  pose proof (Z.mod_pos_bound (- w) us_per_minute Hp) as Hm. set (m := (- w) mod us_per_minute) in *.
  assert (exists k, w + m = k * us_per_minute) as [k Hk].
  { exists (- (- w / us_per_minute)). pose proof (Z.div_mod (- w) us_per_minute ltac:(done)). unfold m. lia. }
  rewrite Hk, Z.div_mul by done. rewrite Z.mod_mod_divide by done.
  pose proof (Z.mod_pos_bound k step Hs) as Hr. destruct (Z.eqb_spec (k mod step) 0) as [Hz|Hnz].
  - split; [|nia]. replace (w + (k * us_per_minute - w + 0)) with (k * us_per_minute) by lia.
    rewrite (Z.div_mod k step) by lia. rewrite Hz. replace ((step * (k / step) + 0) * us_per_minute) with ((k / step) * (step * us_per_minute)) by lia.
    apply Z_mod_mult.
  - split; [|nia]. replace (w + (k * us_per_minute - w + (step - k mod step) * us_per_minute)) with ((k / step + 1) * (step * us_per_minute)).
    + apply Z_mod_mult.
    + pose proof (Z.div_mod k step ltac:(lia)). nia.
Qed.

Lemma aligned_start_steady z off step lo hi t : 0 < step -> (step | 1440) -> steady z off lo (hi + (step + 1) * us_per_minute) -> lo <= t <= hi ->
  t <= _aligned_start t z step < t + step * us_per_minute /\ on_boundary off step (_aligned_start t z step).
Proof.
  intros Hs Hdiv [Hu Hw] Ht. assert (0 < us_per_minute) as Hp by done.
  rewrite aligned_start_ahead by done. cbv zeta. rewrite Hu by (unfold us_per_minute in *; lia).
  pose proof (ahead_bounds (t + off) step Hs). destruct (ahead_boundary (t + off) step Hs Hdiv) as [Hb Hlt].
  assert ((if ahead (t + off) step =? 0 then t + off - wall_offset z (t + off) (fold_at z t)
    else t + off + ahead (t + off) step - wall_offset z (t + off + ahead (t + off) step) false) = t + ahead (t + off) step) as ->.
  { destruct (Z.eqb_spec (ahead (t + off) step) 0); rewrite Hw by (unfold us_per_minute in *; lia); lia. }
  split; [lia|]. unfold on_boundary. by replace (t + ahead (t + off) step + off) with (t + off + ahead (t + off) step) by lia.
Qed.

(** The boundary found is the first. *)
Lemma boundary_first off step t u v : 0 < step -> on_boundary off step u -> on_boundary off step v ->
  u < t + step * us_per_minute -> t <= v -> u <= v.
Proof.
  unfold on_boundary. intros Hs Hu Hv Hut Htv. assert (0 < step * us_per_minute) as Hp by (unfold us_per_minute; lia).
  set (unit := step * us_per_minute) in *. apply Z.mod_divide in Hu as [i Hi]; [|lia]. apply Z.mod_divide in Hv as [j Hj]; [|lia].
  assert (i <= j) by (apply Z.nlt_ge; intros Hji; assert (j + 1 <= i) by lia; nia). nia.
Qed.

(** ** The people *)

Lemma free_among_spec intervals start stop : StronglySorted (key_le b_start) intervals ->
  free_among intervals start stop = true <-> forall b, b ∈ intervals -> b_end b <= start \/ stop <= b_start b.
Proof.
  induction 1 as [|b l _ IH Hb]; cbn [free_among]; [split; [intros _ b ?%elem_of_nil; done|done]|]. rewrite Forall_forall in Hb.
  destruct (Z.leb_spec stop (b_start b)).
  - split; [|done]. intros _ c [->|Hc]%elem_of_cons; [by right|]. specialize (Hb c Hc). unfold key_le in Hb. right. lia.
  - destruct (Z.ltb_spec start (b_end b)).
    + split; [done|]. intros Ha. specialize (Ha b ltac:(apply list_elem_of_here)). lia.
    + rewrite IH. split; intros Ha c; [intros [->|Hc]%elem_of_cons; [left; lia|auto]|intros Hc; apply Ha; by apply list_elem_of_further].
Qed.

Section facts.
Context `{PyStr} `{ZoneNames}.

Lemma person_busy a z : busy (person a z) = sort_by b_start (filter (fun b => blocks b = true) (busy_times a)).
Proof. unfold person. by destruct (_usable_hours _) as [[[[? ?] ?] ?]|]. Qed.

(** Everyone whose calendar could be read is free, and at work if they have to be. *)
Definition everyone_free (availabilities : list Availability) (shown : ZoneInfo) (working_hours_only : bool) (start stop : Z) : Prop :=
  forall a, a ∈ availabilities -> error a = [] ->
    (forall b, b ∈ busy_times a -> blocks b = true -> b_end b <= start \/ stop <= b_start b) /\
    (working_hours_only = true -> working (person a shown) start stop = true).

Lemma slot_free_spec availabilities shown working_hours_only start stop :
  slot_free ((fun a => person a shown) <$> filter (fun a => error a = []) availabilities) working_hours_only start stop = true <->
    everyone_free availabilities shown working_hours_only start stop.
Proof.
  unfold slot_free, everyone_free. rewrite andb_true_iff, orb_true_iff, negb_true_iff, !forallb_forall.
  assert (forall (P : _Person -> Prop), (forall p, In p ((fun a => person a shown) <$> filter (fun a => error a = []) availabilities) -> P p) <->
    forall a, a ∈ availabilities -> error a = [] -> P (person a shown)) as Hall.
  { intros P. split.
    - intros Hp a Ha He. apply Hp, list_elem_of_In, list_elem_of_fmap. exists a. split; [done|]. by apply list_elem_of_filter.
    - intros Hp p (a & -> & [He Ha]%list_elem_of_filter)%list_elem_of_In%list_elem_of_fmap. by apply Hp. }
  rewrite !Hall. assert (forall a, free (person a shown) start stop = true <->
    forall b, b ∈ busy_times a -> blocks b = true -> b_end b <= start \/ stop <= b_start b) as Hfree.
  { intros a. unfold free. rewrite person_busy, free_among_spec by apply (StronglySorted_merge_sort (key_le b_start)).
    split; intros Hb b.
    - intros Hin Hbl. apply Hb. rewrite sort_by_perm. by apply list_elem_of_filter.
    - rewrite sort_by_perm. intros [? ?]%list_elem_of_filter. by apply Hb. }
  setoid_rewrite Hfree. clear Hall Hfree. split.
  - intros [Hf Hw] a Ha He. split; [by apply Hf|]. intros ->. destruct Hw as [?|Hw]; [done|by apply Hw].
  - intros Hall. split; [intros a Ha He; by apply (proj1 (Hall a Ha He))|].
    destruct working_hours_only; [right; intros a Ha He; by apply (proj2 (Hall a Ha He))|by left].
Qed.

(** ** The search *)

Definition group (shown : ZoneInfo) (found : list FreeSlot) (by_day : gmap Z (list FreeSlot)) : gmap Z (list FreeSlot) :=
  foldl (fun by_day s => put_slot (day_of (astimezone shown (slot_start s))) s by_day) by_day found.

Section search.
Context (people : list _Person) (working_hours_only : bool) (shown : ZoneInfo) (start stop duration step : Z).
Hypothesis duration_pos : 0 < duration.
Hypothesis step_pos : 0 < step.

Definition unit : Z := Z.min duration (step * us_per_minute).

(** Slots one after the other, from [candidate] on. *)
Record chain (candidate : Z) (found : list FreeSlot) : Prop := {
  ch_apart : StronglySorted (fun s s' => slot_end s <= slot_start s') found;
  ch_slots : forall s, s ∈ found -> candidate <= slot_start s /\ slot_end s = slot_start s + duration /\ slot_end s <= stop /\
    slot_free people working_hours_only (slot_start s) (slot_end s) = true
}.

Lemma chain_later candidate candidate' found : candidate <= candidate' -> chain candidate' found -> chain candidate found.
Proof. intros Hle [Ha Hs]. constructor; [done|]. intros s Hin. destruct (Hs s Hin) as (? & ? & ? & ?). split_and!; (done || lia). Qed.

(** No slot on a boundary is left that meets none of those found. *)
Definition maximal (off candidate : Z) (found : list FreeSlot) : Prop :=
  forall t, on_boundary off step t -> candidate <= t -> t + duration <= stop ->
    slot_free people working_hours_only t (t + duration) = true ->
    exists s, s ∈ found /\ slot_start s < t + duration /\ t < slot_end s.

Lemma unit_pos : 0 < unit.
Proof using duration_pos step_pos. unfold unit, us_per_minute. lia. Qed.

Lemma search_found (Hfwd : goes_forward shown step start stop) fuel : forall candidate by_day, start <= candidate ->
  stop - duration - candidate < Z.of_nat fuel * unit ->
  exists found, search fuel people working_hours_only shown stop duration step candidate by_day = Some (group shown found by_day) /\
    chain candidate found /\
    forall off, (step | 1440) -> steady shown off start (stop + (step + 1) * us_per_minute) -> on_boundary off step candidate ->
      maximal off candidate found.
Proof using duration_pos step_pos.
  pose proof unit_pos as Hu. induction fuel as [|fuel IH]; intros candidate by_day Hc Hf; cbn [search];
    destruct (Z.leb_spec (candidate + duration) stop) as [Hle|Hgt]; try lia.
  1,3: exists []; split; [done|]; split; [constructor; [constructor|by intros s ?%elem_of_nil]|]; intros off _ _ _ t _ Ht1 Ht2 _; lia.
  assert (unit <= duration /\ unit <= step * us_per_minute) as [Hud Hus] by (unfold unit; lia).
  destruct (slot_free people working_hours_only candidate (candidate + duration)) eqn:Hfree.
  - set (next := _aligned_start (candidate + duration) shown step).
    assert (candidate + duration <= next) as Hnext by (apply (aligned_start_forward shown step start stop); [done..|lia]).
    destruct (IH next (put_slot (day_of (astimezone shown candidate)) (MkSlot candidate (candidate + duration)) by_day) ltac:(lia)
      ltac:(lia)) as (found & Hs & Hch & Hmax).
    exists (MkSlot candidate (candidate + duration) :: found). split; [exact Hs|]. destruct Hch as [Hap Hsl]. split.
    + constructor.
      * constructor; [done|]. apply Forall_forall. intros s Hin. destruct (Hsl s Hin). cbn. lia.
      * intros s [->|Hin]%elem_of_cons; [cbn; split_and!; (done || lia)|]. destruct (Hsl s Hin) as (? & ? & ? & ?). split_and!; (done || lia).
    + intros off Hdiv Hst Hb t Ht Htc Hts Htf. destruct (Z.lt_ge_cases t (candidate + duration)) as [Hlt|Hge].
      * exists (MkSlot candidate (candidate + duration)). split; [apply list_elem_of_here|]. cbn. lia.
      * destruct (aligned_start_steady shown off step start stop (candidate + duration) step_pos Hdiv Hst ltac:(lia)) as [Hn Hnb].
        destruct (Hmax off Hdiv Hst Hnb t Ht) as (s & Hin & Hov); [|done..|].
        { exact (boundary_first off step (candidate + duration) next t step_pos Hnb Ht (proj2 Hn) Hge). }
        exists s. split; [by apply list_elem_of_further|done].
  - destruct (IH (candidate + step * us_per_minute) by_day ltac:(lia) ltac:(lia)) as (found & Hs & Hch & Hmax).
    exists found. split; [done|]. split; [apply (chain_later _ (candidate + step * us_per_minute)); [lia|done]|].
    intros off Hdiv Hst Hb t Ht Htc Hts Htf. refine (Hmax off Hdiv Hst _ t Ht _ Hts Htf).
    + unfold on_boundary in *. replace (candidate + step * us_per_minute + off) with (candidate + off + 1 * (step * us_per_minute)) by lia.
      by rewrite Z_mod_plus_full.
    + destruct (Z.eq_dec t candidate) as [->|Hne]; [congruence|].
      apply (boundary_first off step (candidate + 1) (candidate + step * us_per_minute) t step_pos); [|done|lia..].
      unfold on_boundary in *. replace (candidate + step * us_per_minute + off) with (candidate + off + 1 * (step * us_per_minute)) by lia.
      by rewrite Z_mod_plus_full.
Qed.
End search.

(** ** Spreading the slots over the days *)

(** The slots of one rank, a day each. *)
Definition row (by_day : gmap Z (list FreeSlot)) (days : list Z) (rank : nat) : list FreeSlot :=
  omap (fun day => default [] (by_day !! day) !! rank) days.

Lemma take_app_row (n : nat) (picked l : list FreeSlot) : (length picked <= n)%nat ->
  take n (picked ++ l) = picked ++ take (n - length picked) l.
Proof. intros Hn. rewrite take_app, (take_ge picked) by done. done. Qed.

Lemma spread_round_row max_results rank by_day days : forall picked, (length picked <= max_results)%nat ->
  spread_round max_results rank by_day days picked = take max_results (picked ++ row by_day days rank).
Proof.
  unfold spread_round, row. induction days as [|d days IH]; intros picked Hp; cbn [foldl omap list_omap].
  { by rewrite app_nil_r, take_ge. }
  destruct (default [] (by_day !! d) !! rank) as [s|]; [|by apply IH].
  destruct (Nat.ltb_spec (length picked) max_results) as [Hlt|Hge].
  - rewrite IH by (rewrite length_app; cbn; lia). by rewrite <- app_assoc.
  - rewrite IH by done. rewrite !take_app_row by done. by replace (max_results - length picked)%nat with 0%nat by lia.
Qed.

Lemma row_nil by_day days rank :
  existsb (fun day => (rank <? length (default [] (by_day !! day)))%nat) days = false -> forall r, (rank <= r)%nat -> row by_day days r = [].
Proof.
  intros He r Hr. unfold row. induction days as [|d days IH]; [done|]. cbn [existsb] in He. apply orb_false_iff in He as [Hd He].
  apply Nat.ltb_ge in Hd. cbn [omap list_omap]. rewrite (lookup_ge_None_2 (default [] (by_day !! d)) r) by lia. by apply IH.
Qed.

Lemma row_cons by_day days rank :
  existsb (fun day => (rank <? length (default [] (by_day !! day)))%nat) days = true -> forall r, (r <= rank)%nat -> row by_day days r <> [].
Proof.
  intros He r Hr. apply existsb_exists in He as (d & Hd & Hlt%Nat.ltb_lt).
  destruct (lookup_lt_is_Some_2 (default [] (by_day !! d)) r ltac:(lia)) as [s Hs].
  assert (s ∈ row by_day days r) as Hin by (apply list_elem_of_omap; exists d; split; [by apply list_elem_of_In|done]).
  intros Hz. rewrite Hz in Hin. by apply elem_of_nil in Hin.
Qed.

(** The slots picked, by rank and then by day. *)
Definition by_rank (by_day : gmap Z (list FreeSlot)) (days : list Z) (from n : nat) : list FreeSlot := seq from n ≫= row by_day days.

Lemma by_rank_nil by_day days n : forall from, (forall r, (from <= r)%nat -> row by_day days r = []) -> by_rank by_day days from n = [].
Proof.
  unfold by_rank. induction n as [|n IH]; intros from Hr; [done|]. cbn [seq mbind list_bind]. rewrite Hr by lia. apply IH. intros r Hle. apply Hr. lia.
Qed.

Lemma spread_loop_rank fuel max_results by_day days : forall rank picked, (length picked <= max_results)%nat ->
  spread_loop fuel max_results rank by_day days picked = take max_results (picked ++ by_rank by_day days rank fuel).
Proof.
  induction fuel as [|fuel IH]; intros rank picked Hp; cbn [spread_loop]; [by rewrite app_nil_r, take_ge|].
  destruct (Nat.ltb_spec (length picked) max_results) as [Hlt|Hge]; cbn [andb].
  2: { rewrite take_app_row by done. replace (max_results - length picked)%nat with 0%nat by lia. by rewrite take_0, app_nil_r. }
  destruct (existsb _ days) eqn:He.
  - rewrite spread_round_row by done. rewrite IH by (rewrite length_take; lia).
    unfold by_rank. cbn [seq mbind list_bind]. fold (by_rank by_day days (S rank) fuel).
    rewrite app_assoc. generalize (picked ++ row by_day days rank) (by_rank by_day days (S rank) fuel). intros l k.
    rewrite !take_app, take_take, length_take, Nat.min_id. f_equal.
    destruct (Nat.le_ge_cases (length l) max_results); [by rewrite Nat.min_r by lia|].
    rewrite Nat.min_l by lia. replace (max_results - length l)%nat with 0%nat by lia. by rewrite Nat.sub_diag.
  - rewrite by_rank_nil by (by apply row_nil). by rewrite app_nil_r, take_ge.
Qed.

Lemma bind_perm {A} (l : list A) (f : nat -> list A) n : forall k,
  (seq k n ≫= fun r => match l !! r with Some s => s :: f r | None => f r end) ≡ₚ take n (drop k l) ++ (seq k n ≫= f).
Proof.
  induction n as [|n IH]; intros k; [done|]. cbn [seq mbind list_bind]. specialize (IH (S k)). unfold mbind in IH. rewrite IH.
  destruct (l !! k) as [s|] eqn:Hs.
  - rewrite (drop_S l s k) by done. cbn [take]. solve_Permutation.
  - apply lookup_ge_None_1 in Hs. rewrite (drop_ge l k), (drop_ge l (S k)), !take_nil by lia. done.
Qed.

Lemma by_rank_perm by_day days n : (forall d, d ∈ days -> (length (default [] (by_day !! d)) <= n)%nat) ->
  by_rank by_day days 0 n ≡ₚ days ≫= (fun d => default [] (by_day !! d)).
Proof.
  unfold by_rank. induction days as [|d days IH]; intros Hn; cbn [mbind list_bind].
  { generalize 0%nat. clear Hn. induction n as [|n IHn]; intros k; [done|]. apply IHn. }
  rewrite <- IH by (intros; apply Hn; by apply list_elem_of_further). specialize (Hn d ltac:(apply list_elem_of_here)).
  etrans; [apply (bind_perm (default [] (by_day !! d)) (row by_day days) n 0)|]. by rewrite drop_0, take_ge.
Qed.

(** All the slots found, however they are grouped. *)
Definition all_slots (by_day : gmap Z (list FreeSlot)) : list FreeSlot := map_to_list by_day ≫= snd.

Lemma put_slot_perm d s by_day : all_slots (put_slot d s by_day) ≡ₚ all_slots by_day ++ [s].
Proof.
  unfold all_slots, put_slot. destruct (by_day !! d) as [l|] eqn:Hd; cbn [default].
  - rewrite <- (insert_delete_id by_day d l Hd) at 2. rewrite <- (insert_delete_eq by_day).
    rewrite !map_to_list_insert by apply lookup_delete_eq. cbn. solve_Permutation.
  - rewrite map_to_list_insert by done. cbn. solve_Permutation.
Qed.

Lemma group_perm shown found : forall by_day, all_slots (group shown found by_day) ≡ₚ all_slots by_day ++ found.
Proof.
  induction found as [|s found IH]; intros by_day; [by rewrite app_nil_r|]. unfold group in *. cbn [foldl]. rewrite IH, put_slot_perm. solve_Permutation.
Qed.

Lemma days_slots by_day : sort_by id (map_to_list by_day).*1 ≫= (fun d => default [] (by_day !! d)) ≡ₚ all_slots by_day.
Proof.
  rewrite sort_by_perm. unfold all_slots.
  assert (forall l, l ⊆ map_to_list by_day -> (l.*1 ≫= fun d => default [] (by_day !! d)) = l ≫= snd) as Hl.
  { induction l as [|[d x] l IH]; intros Hin; [done|]. cbn. rewrite (proj1 (elem_of_map_to_list by_day d x)) by (apply Hin, list_elem_of_here).
    f_equal. apply IH. intros y Hy. apply Hin. by apply list_elem_of_further. }
  by rewrite Hl.
Qed.

Lemma day_length by_day d : (length (default [] (by_day !! d)) <= length (all_slots by_day))%nat.
Proof.
  unfold all_slots. destruct (by_day !! d) as [l|] eqn:Hd; cbn [default]; [|cbn; lia].
  rewrite <- (insert_delete_id by_day d l Hd), map_to_list_insert by apply lookup_delete_eq. cbn. rewrite length_app. lia.
Qed.

Lemma by_rank_app by_day days from n m : by_rank by_day days from (n + m) = by_rank by_day days from n ++ by_rank by_day days (from + n) m.
Proof. unfold by_rank. by rewrite seq_app, bind_app. Qed.

Lemma by_rank_long by_day days n : forall from, (forall r, (r < from + n)%nat -> row by_day days r <> []) -> (n <= length (by_rank by_day days from n))%nat.
Proof.
  induction n as [|n IH]; intros from Hr; [cbn; lia|].
  change (by_rank by_day days from (S n)) with (row by_day days from ++ by_rank by_day days (S from) n). rewrite length_app.
  pose proof (Hr from ltac:(lia)). specialize (IH (S from) ltac:(intros; apply Hr; lia)).
  destruct (row by_day days from); [done|]. cbn [length]. lia.
Qed.

(** Every slot found, or as many as were asked for. *)
Lemma spread_spec by_day n : _spread by_day n ⊆+ all_slots by_day /\ length (_spread by_day n) = Nat.min n (length (all_slots by_day)).
Proof.
  unfold _spread. set (days := sort_by id (map_to_list by_day).*1). rewrite spread_loop_rank by (cbn; lia). cbn [app].
  set (m := (n + length (all_slots by_day))%nat).
  assert (by_rank by_day days 0 m ≡ₚ all_slots by_day) as Hall.
  { rewrite by_rank_perm; [apply days_slots|]. intros d _. pose proof (day_length by_day d). lia. }
  assert (by_rank by_day days 0 n ⊆+ all_slots by_day) as Hsub.
  { rewrite <- Hall. unfold m. rewrite by_rank_app. apply submseteq_inserts_r. done. }
  rewrite sort_by_perm. split; [etrans; [apply sublist_submseteq, sublist_take|exact Hsub]|].
  rewrite length_take. apply submseteq_length in Hsub.
  destruct (existsb (fun day => (n <? length (default [] (by_day !! day)))%nat) days) eqn:He.
  - pose proof (row_cons by_day days n He) as Hrow.
    pose proof (by_rank_long by_day days n 0 ltac:(intros r Hr; apply Hrow; lia)). lia.
  - f_equal. apply Permutation_length. rewrite by_rank_perm; [apply days_slots|]. intros d Hd.
    destruct (Nat.le_gt_cases (length (default [] (by_day !! d))) n) as [|Hgt]; [done|].
    assert (existsb (fun day => (n <? length (default [] (by_day !! day)))%nat) days = true); [|congruence].
    apply existsb_exists. exists d. split; [by apply list_elem_of_In|]. by apply Nat.ltb_lt.
Qed.

Lemma spread_sorted duration found by_day n : 0 < duration -> all_slots by_day ≡ₚ found ->
  StronglySorted (fun s s' => slot_end s <= slot_start s') found ->
  (forall s, s ∈ found -> slot_end s = slot_start s + duration) ->
  StronglySorted (fun s s' => slot_end s <= slot_start s') (_spread by_day n).
Proof.
  intros Hdur Hall Hs Hlen. destruct (spread_spec by_day n) as [Hsub _]. rewrite Hall in Hsub.
  assert (forall s s', s ∈ found -> s' ∈ found -> s = s' \/ slot_end s <= slot_start s' \/ slot_end s' <= slot_start s) as Hap.
  { clear Hall Hsub Hlen. induction Hs as [|x l _ IH Hx]; intros s s' Hin Hin'; [by apply elem_of_nil in Hin|].
    rewrite Forall_forall in Hx. apply elem_of_cons in Hin as [->|Hin], Hin' as [->|Hin']; auto. }
  assert (NoDup found) as Hnd.
  { clear Hall Hsub Hap. induction Hs as [|x l _ IH Hx]; constructor; [|by apply IH; intros; apply Hlen; apply list_elem_of_further].
    rewrite Forall_forall in Hx. intros Hin. specialize (Hx x Hin). rewrite (Hlen x ltac:(apply list_elem_of_here)) in Hx. lia. }
  assert (NoDup (_spread by_day n)) as Hndr by (destruct (submseteq_Permutation _ _ Hsub) as [k Hk]; rewrite Hk in Hnd; by apply NoDup_app in Hnd as [? _]).
  assert (forall s, s ∈ _spread by_day n -> s ∈ found) as Hin by (intros s Hs'; by eapply elem_of_submseteq).
  assert (StronglySorted (key_le slot_start) (_spread by_day n)) as Hsorted by apply (StronglySorted_merge_sort (key_le slot_start)).
  clear Hsub. induction Hsorted as [|x l _ IH Hx]; [constructor|]. apply NoDup_cons in Hndr as [Hnx Hndr].
  constructor; [apply IH; [done|]; intros; apply Hin; by apply list_elem_of_further|].
  rewrite Forall_forall in *. intros y Hy. specialize (Hx y Hy). unfold key_le in Hx.
  pose proof (Hin x ltac:(apply list_elem_of_here)) as Hxf. pose proof (Hin y ltac:(by apply list_elem_of_further)) as Hyf.
  destruct (Hap x y Hxf Hyf) as [->|[?|?]]; [done|done|]. rewrite (Hlen y Hyf) in *. lia.
Qed.

(** C19: away from a repeated hour, the search for a free time ends, and answers
    at most as many slots as asked for, in order and apart, each of the length
    asked for and within the times asked for, when everyone whose calendar can
    be read is free - no busy, out-of-office or tentative time of theirs meets
    it - and, if so asked, within their working hours.  Under one offset, with
    a step that parts the day, fewer slots than asked for means there is no
    other: any time on a step's boundary when everyone is free meets one of
    them. *)
Theorem free_slots_correct availabilities start stop duration tz utc working_hours_only step max_results fuel :
  0 < duration -> 0 < max_results -> 0 < step -> start < stop ->
  let shown := default utc tz in
  goes_forward shown step start stop ->
  stop - start < Z.of_nat fuel * Z.min duration (step * us_per_minute) ->
  exists slots, find_free_slots fuel availabilities start stop duration tz utc working_hours_only step max_results = Some slots /\
    Z.of_nat (length slots) <= max_results /\
    StronglySorted (fun s s' => slot_end s <= slot_start s') slots /\
    (forall s, s ∈ slots -> start <= slot_start s /\ slot_end s = slot_start s + duration /\ slot_end s <= stop /\
       everyone_free availabilities shown working_hours_only (slot_start s) (slot_end s)) /\
    (forall off t, (step | 1440) -> steady shown off start (stop + (step + 1) * us_per_minute) ->
       Z.of_nat (length slots) < max_results -> on_boundary off step t -> start <= t -> t + duration <= stop ->
       everyone_free availabilities shown working_hours_only t (t + duration) ->
       exists s, s ∈ slots /\ slot_start s < t + duration /\ t < slot_end s).
Proof.
  intros Hdur Hmax Hstep Hss shown Hfwd Hfuel. unfold find_free_slots. fold shown.
  destruct (Z.leb_spec duration 0); [lia|]. destruct (Z.leb_spec max_results 0); [lia|]. destruct (Z.leb_spec step 0); [lia|].
  destruct (Z.leb_spec stop start); [lia|]. cbn [orb].
  pose proof (aligned_start_forward shown step start stop start Hstep Hfwd ltac:(lia)) as Hal.
  set (people := (fun a => person a shown) <$> _). set (first := _aligned_start start shown step) in *.
  destruct (search_found people working_hours_only shown start stop duration step Hdur Hstep Hfwd fuel first ∅ Hal
    ltac:(unfold unit; lia)) as (found & -> & [Hap Hsl] & Hmaxi). cbn [mbind option_bind].
  pose proof (group_perm shown found ∅) as Hall. change (all_slots ∅ ++ found) with found in Hall.
  set (bd := group shown found ∅) in *. destruct (spread_spec bd (Z.to_nat max_results)) as [Hsub Hlen]. rewrite Hall in Hsub, Hlen.
  eexists. split; [done|]. split; [lia|]. split; [|split].
  - apply (spread_sorted duration found); [done..|]. intros s Hs. by destruct (Hsl s Hs) as (_ & ? & _).
  - intros s Hs. destruct (Hsl s ltac:(by eapply elem_of_submseteq)) as (Hst & Hend & Hle & Hfree).
    split_and!; [lia|done..|]. by apply slot_free_spec.
  - intros off t Hdiv Hst Hfew Hb Ht Htd Hfree.
    destruct (aligned_start_steady shown off step start stop start Hstep Hdiv Hst ltac:(lia)) as [Hf Hfb]. fold first in Hf, Hfb.
    destruct (Hmaxi off Hdiv Hst Hfb t Hb) as (s & Hs & Hov); [|done|by apply slot_free_spec|].
    { exact (boundary_first off step start first t Hstep Hfb Hb (proj2 Hf) Ht). }
    exists s. split; [|done]. assert (found ≡ₚ _spread bd (Z.to_nat max_results)) as <-; [|done].
    symmetry. apply submseteq_length_Permutation; [done|]. lia.
Qed.
End facts.

(** ** In a repeated hour *)

(** 2025-10-26 01:00 UTC, when Europe/Berlin goes from 03:00 back to 02:00. *)
Definition clocks_back : Z := 1761440400000000.
Definition us_per_hour : Z := 60 * us_per_minute.

Definition berlin_autumn : ZoneInfo := {|
  utc_offset t := if t <? clocks_back then 2 * us_per_hour else us_per_hour;
  fold_at t := (clocks_back <=? t) && (t <? clocks_back + us_per_hour);
  wall_offset w second :=
    if w <? clocks_back + us_per_hour then 2 * us_per_hour
    else if w <? clocks_back + 2 * us_per_hour then (if second : bool then us_per_hour else 2 * us_per_hour)
    else us_per_hour
|}.

Definition no_zones : ZoneNames := {| zone_named _ := None |}.

(** Someone with a meeting until the clocks go back. *)
Definition night_shift : Availability :=
  MkAvailability [MkBusy (clocks_back - us_per_hour) clocks_back (of_string "Busy")] None [].

Section repeated_hour.
#[local] Existing Instances ascii_str no_zones.

Definition minutes20 : Z := 20 * us_per_minute.
Definition search_night (fuel : nat) (candidate : Z) (by_day : gmap Z (list FreeSlot)) : option (gmap Z (list FreeSlot)) :=
  search fuel [person night_shift berlin_autumn] false berlin_autumn (clocks_back + 4 * us_per_hour) minutes20 15 candidate by_day.

Lemma search_night_step fuel candidate by_day : candidate + minutes20 <= clocks_back + 4 * us_per_hour ->
  exists by_day', search_night (S fuel) candidate by_day =
    search_night fuel (if slot_free [person night_shift berlin_autumn] false candidate (candidate + minutes20)
      then _aligned_start (candidate + minutes20) berlin_autumn 15 else candidate + 15 * us_per_minute) by_day'.
Proof.
  intros Hle. unfold search_night. cbn [search]. rewrite (proj2 (Z.leb_le _ _) Hle).
  destruct (slot_free _ _ _ _); eexists; reflexivity.
Qed.

(** Half an hour before the clocks go back, two times are taken; the first free
    one ends at 02:20, the second time, and the next boundary is taken for the
    02:30 of the first time. *)
Lemma search_night_loops n : forall fuel by_day, (fuel <= n)%nat ->
  search_night fuel (clocks_back - 30 * us_per_minute) by_day = None /\
  search_night fuel (clocks_back - 15 * us_per_minute) by_day = None /\
  search_night fuel clocks_back by_day = None.
Proof.
  induction n as [|n IH]; intros fuel by_day Hn.
  { replace fuel with 0%nat by lia. by vm_compute. }
  destruct fuel as [|fuel]; [by apply IH; lia|]. split_and!.
  - destruct (search_night_step fuel (clocks_back - 30 * us_per_minute) by_day ltac:(vm_compute; discriminate)) as [b ->].
    match goal with |- search_night _ ?c _ = _ => replace c with (clocks_back - 15 * us_per_minute) by (vm_compute; reflexivity) end.
    apply IH. lia.
  - destruct (search_night_step fuel (clocks_back - 15 * us_per_minute) by_day ltac:(vm_compute; discriminate)) as [b ->].
    match goal with |- search_night _ ?c _ = _ => replace c with clocks_back by (vm_compute; reflexivity) end.
    apply IH. lia.
  - destruct (search_night_step fuel clocks_back by_day ltac:(vm_compute; discriminate)) as [b ->].
    match goal with |- search_night _ ?c _ = _ => replace c with (clocks_back - 30 * us_per_minute) by (vm_compute; reflexivity) end.
    apply IH. lia.
Qed.

(** In a repeated hour the search may never end: in Europe/Berlin, on the
    night the clocks go back, for a twenty-minute time outside working hours and
    one person busy in the hour before, every round of the loop goes back to
    where it started, however long it is let run. *)
Theorem free_slots_never_ends max_results fuel : 0 < max_results ->
  find_free_slots fuel [night_shift] (clocks_back - 30 * us_per_minute) (clocks_back + 4 * us_per_hour) minutes20 (Some berlin_autumn)
    berlin_autumn false 15 max_results = None.
Proof.
  intros Hm. unfold find_free_slots. destruct (Z.leb_spec max_results 0); [lia|].
  change (minutes20 <=? 0) with false. change (15 <=? 0) with false.
  change (clocks_back + 4 * us_per_hour <=? clocks_back - 30 * us_per_minute) with false. cbn [orb].
  change (default berlin_autumn (Some berlin_autumn)) with berlin_autumn.
  change ((fun a => person a berlin_autumn) <$> filter (fun a => error a = []) [night_shift])
    with [person night_shift berlin_autumn].
  replace (_aligned_start _ _ 15) with (clocks_back - 30 * us_per_minute) by (vm_compute; reflexivity).
  fold (search_night fuel (clocks_back - 30 * us_per_minute) ∅). destruct (search_night_loops fuel fuel ∅ ltac:(lia)) as [Hs _].
  by rewrite Hs.
Qed.

Lemma free_slots_never_ends_witness :
  find_free_slots 1000 [night_shift] (clocks_back - 30 * us_per_minute) (clocks_back + 4 * us_per_hour) minutes20 (Some berlin_autumn)
    berlin_autumn false 15 5 = None.
Proof. apply (free_slots_never_ends 5 1000). lia. Defined.
End repeated_hour.

(** ** A working day *)

Definition utc_zone : ZoneInfo := {| utc_offset _ := 0; fold_at _ := false; wall_offset _ _ := 0 |}.

(** Monday 1970-01-05, busy from nine to four. *)
Definition monday : Z := 4 * us_per_day.
Definition office : Availability :=
  MkAvailability [MkBusy (monday + 9 * us_per_hour) (monday + 16 * us_per_hour) (of_string "Busy")] None [].

Lemma free_slots_correct_witness :
  exists slots, find_free_slots (H := ascii_str) (H0 := no_zones) 200 [office] monday (monday + us_per_day) us_per_hour None utc_zone true 15 5
      = Some slots /\ slots = [MkSlot (monday + 16 * us_per_hour) (monday + 17 * us_per_hour)] /\
    StronglySorted (fun s s' => slot_end s <= slot_start s') slots.
Proof.
  destruct (free_slots_correct (H := ascii_str) (H0 := no_zones) [office] monday (monday + us_per_day) us_per_hour None utc_zone true 15 5 200)
    as (slots & Hs & _ & Hap & _); [done..| | |].
  - constructor; cbn; lia.
  - vm_compute. reflexivity.
  - exists slots. split; [exact Hs|]. split; [|exact Hap].
    assert (Some slots = Some [MkSlot (monday + 16 * us_per_hour) (monday + 17 * us_per_hour)]) as [= ->]; [|done].
    rewrite <- Hs. vm_compute. reflexivity.
Defined.
