(* ===== verification/Worker.v ===== *)
(** * The worker

    [knowledge_worker_service.py]: what a worker does with one message of the
    stream.  A message is handled in several database sessions: one claims the
    job, one runs its handler, one records the outcome; between them other
    processes work on the same tables ([others], which also stands for this
    worker's own heartbeats, transactions of their own).  Only then is a dead
    letter written and the message acknowledged.

    The handlers of the jobs are parameters.  A handler answers, or raises with
    a [Failure]; the state it leaves is what it has committed by then. *)

From S2P Require Import Prelude Text Json JsonParse PyText Outbox Queue KnowledgeJobs MemoryJobs RowJobs.

(** ** The rows a dead job marks *)

Inductive run_status := RunPending | RunRunning | RunSucceeded | RunPartial | RunFailed | RunCancelled.

Record ConnectorSyncRun := MkSyncRun {
  run_state : run_status;
  error_message : option text;
  run_completed_at : option Z
}.

Inductive version_status :=
  | VerUploaded | VerQuarantined | VerProcessing | VerReview | VerPublished | VerSuperseded | VerRevoked | VerFailed.

#[export] Instance version_status_eq_dec : EqDecision version_status.
Proof. solve_decision. Defined.

Record KnowledgeDocumentVersion := MkDocVersion {
  ver_state : version_status;
  ver_failure_reason : option text
}.

Inductive index_status := IxPlanned | IxBuilding | IxValidating | IxActive | IxRetired | IxFailed.

#[export] Instance index_status_eq_dec : EqDecision index_status.
Proof. solve_decision. Defined.

Record KnowledgeIndexVersion := MkIndexVersion {
  ix_state : index_status;
  active_scope_key : option string;
  ix_failure_reason : option text
}.

(** ** The worker's world *)

(** The tables, and what this worker has sent to Redis. *)
Record World (S : Type) := MkWorld { db : S; acked : list string; dead_letters : list (list (text * text)) }.
Arguments MkWorld {S}. Arguments db {S} _. Arguments acked {S} _. Arguments dead_letters {S} _.

(** [str(exc)], [type(exc).__name__], and whether it is an [ExtractionParseError]. *)
Record Failure := MkFailure { failure_text : text; is_parse_error : bool }.

Record JobProcessResult := MkResult { outcome : string; job_id : option string; result_error : option text }.

(** What becomes of a command sent to Redis: it is carried out and answered; it
    is not carried out and raises; or it is carried out, its answer is lost and
    the call raises all the same. *)
Inductive redis_answer := Answered | NotCarriedOut | AnswerLost.

#[export] Instance redis_answer_eq_dec : EqDecision redis_answer.
Proof. solve_decision. Defined.

(** What one message meets: the work of others between the sessions, the
    clock and the uuids of each session, and what Redis answers. *)
Class Env (S : Type) := {
  others : nat -> S -> S;
  clock : nat -> Z;
  draw : nat -> string;
  row_locked : bool;
  xadd_answer : redis_answer;
  xack_answer : redis_answer
}.

Definition job_status_name (status : job_status) : string :=
  match status with
  | JobPending => "pending" | JobLeased => "leased" | JobProcessing => "processing" | JobRetry => "retry"
  | JobSucceeded => "succeeded" | JobDead => "dead" | JobCancelled => "cancelled"
  end.

Definition mem_status_name (status : mem_status) : string :=
  match status with
  | MemPending => "pending" | MemRetry => "retry" | MemRunning => "running" | MemSucceeded => "succeeded" | MemDead => "dead"
  end.

Section worker.
Context {S : Type} `{Env S}.
Variable consumer_name : string.

Definition with_db (s : S) (w : World S) : World S := MkWorld s (acked w) (dead_letters w).

(** [async with session_factory() as db: ...; await db.commit()]: an exception rolls back. *)
Definition session {A} (body : op S A) : op (World S) A := fun w =>
  match body (db w) with
  | (Ok a, s) => (Ok a, with_db s w)
  | (Raise e, _) => (Raise e, w)
  end.

(** A session that rolls back when it answers [None]. *)
Definition session_or_rollback {A} (body : op S (option A)) : op (World S) (option A) := fun w =>
  match body (db w) with
  | (Ok (Some a), s) => (Ok (Some a), with_db s w)
  | (Ok None, _) => (Ok None, w)
  | (Raise e, _) => (Raise e, w)
  end.

Definition meanwhile (step : nat) : op (World S) unit := modify (fun w => with_db (others step (db w)) w).

(** Running a handler: its failure is caught. *)
Definition attempt {A} (body : S -> (A + Failure) * S) : op (World S) (A + Failure) := fun w =>
  let '(r, s) := body (db w) in (Ok r, with_db s w).

(** ** Redis *)

(** A command and its answer: [done] is what the command does. *)
Definition redis_call (answer : redis_answer) (done : World S -> World S) : op (World S) unit := fun w =>
  match answer with
  | Answered => (Ok tt, done w)
  | NotCarriedOut => (Raise (OtherError "RedisError"), w)
  | AnswerLost => (Raise (OtherError "RedisError"), done w)
  end.

Definition send_dead_letter (m : QueueMessage) (error : text) : op (World S) unit :=
  redis_call xadd_answer (fun w => MkWorld (db w) (acked w) (dead_letters w ++ [publish_dead_letter m error])).

Definition acknowledge_message (m : QueueMessage) : op (World S) unit :=
  redis_call xack_answer (fun w => MkWorld (db w) (acked w ++ [stream_id m]) (dead_letters w)).

(** The end of every path: a dead letter when the outcome is "dead", then the acknowledgement. *)
Definition close (m : QueueMessage) (outcome : string) (id : option string) (error : option text) : op (World S) JobProcessResult :=
  _ ← (if bool_decide (outcome = "dead"%string) then send_dead_letter m (default [] error) else mret tt);
  _ ← acknowledge_message m;
  mret (MkResult outcome id error).

(** [str(message.payload.get(name) or message.aggregate_id or "")], as a key. *)
Definition key_in `{PyRepr} (name : string) (m : QueueMessage) : option string :=
  match message_key name m with [] => None | key => Some (key_of key) end.

(** ** Memory jobs *)

Section memory.
Context `{PyRepr} `{LocalTime} `{Settings} {Who : Type} `{MemoryScope Who} `{HasTable S OutboxEvent, HasTable S (MemoryJob Who)}.
Variable handle_extraction : string -> MemoryJob Who -> S -> (unit + Failure) * S.

Definition run_memory (id : string) : S -> (unit + Failure) * S := fun s =>
  match rows s !! id with
  | None => (inr (MkFailure (of_string "Memory job disappeared during execution") false), s)
  | Some current => handle_extraction id current s
  end.

Definition complete_memory (id : string) : op S (option unit) :=
  current ← gets (fun s => rows s !! id);
  match current with
  | None => mret None
  | Some current =>
      ok ← complete_job (Who := Who) id current consumer_name (extracted_sequence current) (clock 2);
      mret (if ok : bool then Some tt else None)
  end.

Definition fail_memory (id : string) (f : Failure) : op S string :=
  current ← gets (fun s => rows s !! id);
  match current with
  | None => mret "dead"%string
  | Some current =>
      result ← fail_job (Who := Who) id current consumer_name (failure_text f) (negb (is_parse_error f)) (draw 3) (clock 3);
      mret (mem_status_name (result_status result))
  end.

Definition _process_memory_job (m : QueueMessage) : op (World S) JobProcessResult :=
  match key_in "job_id" m with
  | None => close m "dead" None (Some (of_string "Memory queue message does not identify a job"))
  | Some id =>
      claimed ← session (
        job ← claim_job (Who := Who) id consumer_name row_locked (draw 0) (clock 0);
        existing ← gets (fun s => match job with Some j => Some j | None => rows s !! id end);
        mret (job, existing));
      match claimed with
      | (None, None) => close m "dead" (Some id) (Some (of_string "Memory job not found: " ++ message_key "job_id" m))
      | (None, Some _) => close m "duplicate" (Some id) None
      | (Some _, _) =>
          _ ← meanwhile 1;
          ran ← attempt (run_memory id);
          _ ← meanwhile 2;
          failure ← match ran with
            | inr f => mret (Some f)
            | inl _ =>
                done ← session_or_rollback (complete_memory id);
                mret (match done with
                      | Some _ => None
                      | None => Some (MkFailure (of_string "Memory job lease was lost before completion") false)
                      end)
            end;
          match failure with
          | None => close m "succeeded" (Some id) None
          | Some f =>
              _ ← meanwhile 3;
              status ← session (fail_memory id f);
              close m status (Some id) (Some (failure_text f))
          end
      end
  end.
End memory.

(** ** Jobs on a row *)

Section row.
Context `{PyRepr} {D : Type} `{RowScope D} `{HasTable S OutboxEvent, HasTable S (RowJob D)}.
(** The work, and the service's own way of closing a run. *)
Variable handle : string -> RowJob D -> S -> (bool + Failure) * S.
Variable finish_run : string -> RowJob D -> option text -> bool -> string -> string -> Z -> op S string.

Definition is_mine (row : RowJob D) : bool :=
  bool_decide (r_status row = RowRunning) && bool_decide (r_worker_id row = Some consumer_name).

Definition run_row (key : string) : S -> (bool + Failure) * S := fun s =>
  match rows s !! key with
  | Some current => if is_mine current then handle key current s else (inl false, s)
  | None => (inl false, s)
  end.

Definition finish_mine (key : string) (error : option text) (more : bool) : op S string :=
  current ← gets (fun s => rows (R := RowJob D) s !! key);
  match current with
  | Some current =>
      if bool_decide (r_worker_id current = Some consumer_name)
      then finish_run key current error more (draw 3) (draw 4) (clock 2)
      else mret "succeeded"%string
  | None => mret "succeeded"%string
  end.

Definition take_or_redeliver (key : string) : op S (option (RowJob D)) :=
  row ← claim (D := D) key consumer_name (clock 0);
  match row with
  | Some row => mret (Some row)
  | None => _ ← redeliver (D := D) key (draw 0) (draw 1) (clock 1); mret None
  end.

Definition _process_row_job (m : QueueMessage) : op (World S) JobProcessResult :=
  let key := key_in "session_id" m in
  row ← match key with Some key => session (take_or_redeliver key) | None => mret None end;
  match key, row with
  | None, _ | _, None => close m "duplicate" key None
  | Some key, Some _ =>
      _ ← meanwhile 1;
      ran ← attempt (run_row key);
      _ ← meanwhile 2;
      let failure := match ran with inl _ => None | inr f => Some (failure_text f) end in
      let more := match ran with inl more => more | inr _ => false end in
      outcome ← session (finish_mine key failure more);
      match failure with
      | Some error =>
          close m (if bool_decide (outcome = "failed"%string) then "dead" else "retry") (Some key) (Some error)
      | None => close m "succeeded" (Some key) None
      end
  end.
End row.

(** ** Knowledge jobs *)

Section knowledge.
Context `{PyRepr} `{PyInt} `{Settings} `{HasTable S OutboxEvent, HasTable S IngestionJob, HasTable S ConnectorSyncRun,
  HasTable S KnowledgeDocumentVersion, HasTable S KnowledgeIndexVersion}.
Variable handlers : string -> option (string -> IngestionJob -> S -> (unit + Failure) * S).

Definition fail_sync_run (error : text) (r : ConnectorSyncRun) : ConnectorSyncRun :=
  MkSyncRun RunFailed (Some (take 8000 error)) (Some (clock 4)).

Definition fail_version (error : text) (v : KnowledgeDocumentVersion) : KnowledgeDocumentVersion :=
  if bool_decide (ver_state v ∈ [VerUploaded; VerQuarantined; VerProcessing])
  then MkDocVersion VerFailed (Some (of_string "Processing retries exhausted: " ++ take 7900 error))
  else v.

Definition fail_index (error : text) (v : KnowledgeIndexVersion) : KnowledgeIndexVersion :=
  if bool_decide (ix_state v = IxActive) then v
  else MkIndexVersion IxFailed None (Some (of_string "Indexing retries exhausted: " ++ take 7900 error)).

(** [if key: row = db.get(key); if row is not None: ...] *)
Definition mark {R} `{HasTable S R} (key : option string) (f : R -> R) : op S unit :=
  match key with
  | None | Some ""%string => mret tt
  | Some key => on_table (modify (alter f key))
  end.

Definition sync_run_id (job : IngestionJob) : option string :=
  match str_field "sync_run_id" (j_payload job) with [] => None | id => Some (key_of id) end.

(** What the job was working on fails with it. *)
Definition bury_work (job : IngestionJob) (error : text) : op S unit :=
  _ ← mark (sync_run_id job) (fail_sync_run error);
  _ ← mark (document_version_id job) (fail_version error);
  mark (index_version_id job) (fail_index error).

Definition run_knowledge (handler : string -> IngestionJob -> S -> (unit + Failure) * S) (id : string)
    : S -> (unit + Failure) * S := fun s =>
  match rows s !! id with
  | None => (inr (MkFailure (of_string "Knowledge job disappeared during execution") false), s)
  | Some current => handler id current s
  end.

Definition complete_knowledge (id : string) : op S (option unit) :=
  current ← gets (fun s => rows s !! id);
  match current with
  | None => mret None
  | Some current =>
      ok ← complete_knowledge_job id current consumer_name (clock 2);
      mret (if ok : bool then Some tt else None)
  end.

Definition fail_knowledge (id : string) (error : text) (retryable : bool) : op S string :=
  current ← gets (fun s => rows s !! id);
  match current with
  | None => mret "dead"%string
  | Some current =>
      result ← fail_knowledge_job id current consumer_name error (of_string "handler_failed") retryable (draw 3) (clock 3);
      _ ← (if bool_decide (failure_status result = JobDead) then bury_work current error else mret tt);
      mret (job_status_name (failure_status result))
  end.

Definition _process_knowledge_job (m : QueueMessage) : op (World S) JobProcessResult :=
  match key_in "job_id" m with
  | None => close m "dead" None (Some (of_string "Knowledge queue message does not identify a job"))
  | Some id =>
      claimed ← session (
        job ← claim_knowledge_job id consumer_name row_locked (clock 0);
        existing ← gets (fun s => match job with Some j => Some j | None => rows s !! id end);
        mret (job, existing));
      match claimed with
      | (None, None) => close m "dead" (Some id) (Some (of_string "Knowledge job not found: " ++ message_key "job_id" m))
      | (None, Some _) => close m "duplicate" (Some id) None
      | (Some job, _) =>
          _ ← meanwhile 1;
          ran ← match handlers (job_type job) with
            | None => mret (inr (of_string "Unsupported Knowledge job type: " ++ of_string (job_type job), false))
            | Some handler =>
                r ← attempt (run_knowledge handler id);
                mret (match r with inl tt => inl tt | inr f => inr (failure_text f, true) end)
            end;
          _ ← meanwhile 2;
          failure ← match ran with
            | inr f => mret (Some f)
            | inl tt =>
                done ← session_or_rollback (complete_knowledge id);
                mret (match done with
                      | Some _ => None
                      | None => Some (of_string "Knowledge job lease was lost before completion", true)
                      end)
            end;
          match failure with
          | None => close m "succeeded" (Some id) None
          | Some (error, retryable) =>
              _ ← meanwhile 3;
              status ← session (fail_knowledge id error retryable);
              close m status (Some id) (Some error)
          end
      end
  end.
End knowledge.

(** ** Vector drops *)

Section drops.
Context `{PyRepr} `{PyInt} `{HasTable S OutboxEvent, HasTable S (RowJob RecallData)}.
Variable store : string -> option Z -> option Z -> option Z.

Definition _process_vector_drop (m : QueueMessage) : op (World S) JobProcessResult :=
  outcome ← session (Recall.handle_vector_drop store (payload m) (draw 0) (draw 1) (clock 0));
  _ ← (if bool_decide (outcome = "dead"%string)
       then send_dead_letter m (of_string "chat recall vectors could not be deleted") else mret tt);
  _ ← acknowledge_message m;
  mret (MkResult outcome (match msg_aggregate_id m with [] => None | id => Some (key_of id) end) None).
End drops.

(** ** Dispatch *)

#[local] Existing Instance user_scope.
#[local] Existing Instance project_scope.

Section dispatch.
Context `{PyRepr} `{PyInt} `{LocalTime} `{Settings}
  `{HasTable S OutboxEvent, HasTable S IngestionJob, HasTable S ConnectorSyncRun, HasTable S KnowledgeDocumentVersion,
    HasTable S KnowledgeIndexVersion, HasTable S (MemoryJob Z), HasTable S (MemoryJob string),
    HasTable S (RowJob SummaryData), HasTable S (RowJob RecallData)}.

(** Everything the worker is given from outside this development. *)
Record Handlers := MkHandlers {
  knowledge_handlers : string -> option (string -> IngestionJob -> S -> (unit + Failure) * S);
  extract_user : string -> MemoryJob Z -> S -> (unit + Failure) * S;
  extract_project : string -> MemoryJob string -> S -> (unit + Failure) * S;
  summarize : string -> RowJob SummaryData -> S -> (bool + Failure) * S;
  finish_summary_run : string -> RowJob SummaryData -> option text -> bool -> string -> string -> Z -> op S string;
  index : string -> RowJob RecallData -> S -> (bool + Failure) * S;
  finish_index_run : string -> RowJob RecallData -> option text -> bool -> string -> string -> Z -> op S string;
  drop_vectors : string -> option Z -> option Z -> option Z
}.

Definition process_message (h : Handlers) (m : QueueMessage) : op (World S) JobProcessResult :=
  let kind (t : string) := bool_decide (msg_event_type m = of_string t) in
  if kind "memory.job.ready" then _process_memory_job (Who := Z) (extract_user h) m
  else if kind "project_memory.job.ready" then _process_memory_job (Who := string) (extract_project h) m
  else if kind "chat_summary.job.ready" then _process_row_job (summarize h) (finish_summary_run h) m
  else if kind "chat_index.job.ready" then _process_row_job (index h) (finish_index_run h) m
  else if kind "chat_recall.vectors.drop" then _process_vector_drop (drop_vectors h) m
  else if kind "knowledge.job.ready" then _process_knowledge_job (knowledge_handlers h) m
  else close m "dead" None (Some (of_string "Unsupported Knowledge event type: " ++ msg_event_type m)).
End dispatch.
End worker.
