(* ===== verification/WorkerFacts.v ===== *)
(** * What the worker promises

    A message is acknowledged once, when its handling has ended, with a dead
    letter exactly when it ended dead; an exception leaves it to be delivered
    again, unless only the answer to the acknowledgement was lost.  A knowledge job
    reported as done is done under the worker's lease, and a job that dies takes what it was working on with it. *)

From S2P Require Import Prelude Text Json JsonParse PyText Outbox OutboxFacts Queue KnowledgeJobs KnowledgeFacts MemoryJobs RowJobs Worker.

Create HintDb worker.

(** ** Redis *)

Section accounts.
Context {S : Type} `{Env S}.
Implicit Types (w : World S).

(** Leaves Redis alone. *)
Definition quiet {A} (body : op (World S) A) : Prop :=
  forall w, acked (body w).2 = acked w /\ dead_letters (body w).2 = dead_letters w.

Definition letters (m : QueueMessage) (outcome : string) (l : list (list (text * text))) : Prop :=
  if bool_decide (outcome = "dead"%string) then exists error, l = [publish_dead_letter m error] else l = [].

(** What handling [m] does to Redis. *)
Definition accounted (m : QueueMessage) (body : op (World S) JobProcessResult) : Prop :=
  forall w, exists l, dead_letters (body w).2 = dead_letters w ++ l /\
    match (body w).1 with
    | Ok r => acked (body w).2 = acked w ++ [stream_id m] /\ letters m (outcome r) l
    | Raise _ =>
        (acked (body w).2 = acked w /\ (l = [] \/ exists error, l = [publish_dead_letter m error])) \/
        (xack_answer = AnswerLost /\ acked (body w).2 = acked w ++ [stream_id m] /\ exists outcome, letters m outcome l)
    end.

Lemma quiet_ret {A} (a : A) : quiet (mret a).
Proof. done. Qed.

Lemma quiet_bind {A B} (body : op (World S) A) (k : A -> op (World S) B) :
  quiet body -> (forall a, quiet (k a)) -> quiet (body ≫= k).
Proof.
  intros Hb Hk w. specialize (Hb w). unfold mbind, op_bind. destruct (body w) as [[a|e] w1]; simpl in *; [|done].
  destruct (Hk a w1) as [-> ->]. done.
Qed.

Lemma quiet_session {A} (body : op S A) : quiet (session body).
Proof. intros w. unfold session. by destruct (body (db w)) as [[]]. Qed.

Lemma quiet_session_or_rollback {A} (body : op S (option A)) : quiet (session_or_rollback body).
Proof. intros w. unfold session_or_rollback. by destruct (body (db w)) as [[[]|]]. Qed.

Lemma quiet_meanwhile step : quiet (meanwhile step).
Proof. done. Qed.

Lemma quiet_attempt {A} (body : S -> (A + Failure) * S) : quiet (attempt body).
Proof. intros w. unfold attempt. by destruct (body (db w)). Qed.

Lemma accounted_bind {A} m (body : op (World S) A) k :
  quiet body -> (forall a, accounted m (k a)) -> accounted m (body ≫= k).
Proof.
  intros Hb Hk w. specialize (Hb w). unfold mbind, op_bind. destruct (body w) as [[a|e] w1]; simpl in *; destruct Hb as [Ha Hd].
  - destruct (Hk a w1) as (l & Hl & Hr). exists l. rewrite Hl, Hd. split; [done|]. by rewrite Ha in Hr.
  - exists []. rewrite app_nil_r. auto.
Qed.

Lemma accounted_send m outcome id error letter :
  accounted m (_ ← (if bool_decide (outcome = "dead"%string) then send_dead_letter m letter else mret tt);
               _ ← acknowledge_message m; mret (MkResult outcome id error)).
Proof.
  intros w. unfold mbind, op_bind, send_dead_letter, acknowledge_message, letters. simpl.
  destruct (bool_decide (outcome = "dead"%string)) eqn:Ho.
  - destruct xadd_answer; simpl; [|exists []; rewrite app_nil_r; auto|exists [publish_dead_letter m letter]; eauto 6].
    exists [publish_dead_letter m letter]. destruct xack_answer; simpl; split; try done; rewrite ?Ho; [eauto|eauto 6|].
    right. split; [done|]. split; [done|]. exists outcome. rewrite Ho. eauto.
  - exists []. destruct xack_answer; simpl; rewrite ?app_nil_r, ?Ho; [auto|auto|].
    split; [done|]. right. split; [done|]. split; [done|]. exists outcome. by rewrite Ho.
Qed.

Lemma accounted_close m outcome id error : accounted m (close m outcome id error).
Proof. apply accounted_send. Qed.
End accounts.

#[export] Hint Resolve quiet_ret quiet_bind quiet_session quiet_session_or_rollback quiet_meanwhile quiet_attempt
  accounted_bind accounted_send accounted_close : worker.

(** Follows the shape of a handler down to its [close]. *)
Ltac account := repeat (first [progress intros | case_match | progress eauto with worker | apply accounted_bind]).

Section message.
Context {S : Type} `{Env S} `{PyRepr} `{PyInt} `{LocalTime} `{Settings}
  `{HasTable S OutboxEvent, HasTable S IngestionJob, HasTable S ConnectorSyncRun, HasTable S KnowledgeDocumentVersion,
    HasTable S KnowledgeIndexVersion, HasTable S (MemoryJob Z), HasTable S (MemoryJob string),
    HasTable S (RowJob SummaryData), HasTable S (RowJob RecallData)}.
Variable worker : string.

Lemma accounted_memory `{MemoryScope Who, HasTable S (MemoryJob Who)} handle m :
  accounted m (_process_memory_job (Who := Who) worker handle m).
Proof. unfold _process_memory_job. account. Qed.

Lemma accounted_row {D} `{RowScope D, HasTable S (RowJob D)} handle finish_run m :
  accounted m (_process_row_job (D := D) worker handle finish_run m).
Proof. unfold _process_row_job. account. Qed.

Lemma accounted_knowledge handlers m : accounted m (_process_knowledge_job worker handlers m).
Proof. unfold _process_knowledge_job. account. Qed.

Lemma accounted_drop store m : accounted m (_process_vector_drop store m).
Proof. unfold _process_vector_drop. account. Qed.

(** C12: Whatever its kind, its handler and what other processes do meanwhile,
    a message whose handling ends is acknowledged exactly once, and a dead
    letter is written for it exactly when the outcome is "dead".  When the
    handling raises - a session, or Redis itself - the message is either not
    acknowledged, so Redis delivers it again, and at most one dead letter was
    written; or the acknowledgement was carried out and its answer lost, once,
    after the handling had ended with an outcome and the dead letter it calls
    for. *)
Theorem message_accounted_once h m w :
  exists l, dead_letters (process_message worker h m w).2 = dead_letters w ++ l /\
    match (process_message worker h m w).1 with
    | Ok r => acked (process_message worker h m w).2 = acked w ++ [stream_id m] /\
        (if bool_decide (outcome r = "dead"%string) then exists error, l = [publish_dead_letter m error] else l = [])
    | Raise _ =>
        (acked (process_message worker h m w).2 = acked w /\ (l = [] \/ exists error, l = [publish_dead_letter m error])) \/
        (xack_answer = AnswerLost /\ acked (process_message worker h m w).2 = acked w ++ [stream_id m] /\
         exists outcome, if bool_decide (outcome = "dead"%string) then exists error, l = [publish_dead_letter m error] else l = [])
    end.
Proof.
  revert w. change (accounted m (process_message worker h m)). unfold process_message. cbv zeta.
  repeat case_match; auto using accounted_memory, accounted_row, accounted_knowledge, accounted_drop, accounted_close.
Qed.
End message.

(** ** Knowledge jobs *)

Section knowledge.
Context {S : Type} `{Env S} `{PyRepr} `{PyInt} `{Settings} `{Separate S OutboxEvent IngestionJob}
  `{!HasTable S ConnectorSyncRun, !HasTable S KnowledgeDocumentVersion, !HasTable S KnowledgeIndexVersion}
  `{!Separate S IngestionJob ConnectorSyncRun, !Separate S IngestionJob KnowledgeDocumentVersion,
    !Separate S IngestionJob KnowledgeIndexVersion, !Separate S ConnectorSyncRun KnowledgeDocumentVersion,
    !Separate S ConnectorSyncRun KnowledgeIndexVersion, !Separate S KnowledgeDocumentVersion KnowledgeIndexVersion}.
Variable worker : string.
Implicit Types (s : S) (w : World S).

(** A named row, when there is one, satisfies [P]. *)
Definition marked {R} `{HasTable S R} (key : option string) (P : R -> Prop) s : Prop :=
  forall k row, key = Some k -> k <> ""%string -> rows s !! k = Some row -> P row.

Definition work_buried (job : IngestionJob) s : Prop :=
  marked (sync_run_id job) (fun r => run_state r = RunFailed) s /\
  marked (document_version_id job) (fun v => ver_state v ∉ [VerUploaded; VerQuarantined; VerProcessing]) s /\
  marked (index_version_id job) (fun v => ix_state v = IxActive \/ (ix_state v = IxFailed /\ active_scope_key v = None)) s.

Lemma mark_run {R} `{!HasTable S R} key (f : R -> R) s :
  exists t, mark key f s = (Ok tt, set_rows t s) /\
    forall P : R -> Prop, (forall row, P (f row)) -> marked key P (set_rows t s).
Proof.
  destruct key as [[|c k]|].
  - exists (rows s). rewrite set_rows_rows. split; [done|]. intros P _ k row [= <-]. done.
  - exists (alter f (String c k) (rows s)). split; [done|]. intros P Hf k' row [= <-] _. rewrite rows_set, lookup_alter_eq.
    intros (x & _ & ->)%fmap_Some. apply Hf.
  - exists (rows s). rewrite set_rows_rows. split; [done|]. intros P _ k row [=].
Qed.

Lemma bury_work_run job error s :
  exists s', bury_work job error s = (Ok tt, s') /\ jobs_of s' = jobs_of s /\ work_buried job s'.
Proof.
  unfold bury_work.
  destruct (mark_run (sync_run_id job) (fail_sync_run error) s) as (t1 & Hm1 & HP1).
  destruct (mark_run (document_version_id job) (fail_version error) (set_rows t1 s)) as (t2 & Hm2 & HP2).
  destruct (mark_run (index_version_id job) (fail_index error) (set_rows t2 (set_rows t1 s))) as (t3 & Hm3 & HP3).
  eexists. split; [erewrite op_bind_ok by exact Hm1; erewrite op_bind_ok by exact Hm2; exact Hm3|].
  unfold jobs_of. rewrite !rows_other'. split; [done|]. split_and!.
  - intros k row Hk Hne. rewrite !rows_other'. by apply (HP1 (fun r => run_state r = RunFailed)).
  - intros k row Hk Hne. rewrite rows_other'. apply (HP2 (fun v => ver_state v ∉ [VerUploaded; VerQuarantined; VerProcessing])); [|done..].
    intros v. unfold fail_version. case_bool_decide as Hv; [|done]. apply (bool_decide_unpack _). by vm_compute.
  - apply HP3. intros v. unfold fail_index. case_bool_decide as Hv; [by left|by right].
Qed.

Lemma fail_dead id job error code retryable event_id now s r s' :
  jobs_of s !! id = Some job -> fail_knowledge_job id job worker error code retryable event_id now s = (Ok r, s') ->
  failure_status r = JobDead ->
  exists job', jobs_of s' !! id = Some job' /\ j_status job' = JobDead /\ j_payload job' = j_payload job /\
    document_version_id job' = document_version_id job /\ index_version_id job' = index_version_id job.
Proof.
  intros Hj Hf Hr. unfold fail_knowledge_job in Hf. destruct (negb (holds_lease worker job)).
  - injection Hf as <- <-. by exists job.
  - destruct (negb retryable || _).
    + rewrite (op_bind_ok _ _ _ tt _ (save_job_run _ _ _ _ Hj)) in Hf. injection Hf as <- <-.
      eexists. rewrite jobs_put_job, lookup_insert_eq. done.
    + rewrite (op_bind_ok _ _ _ tt _ (save_job_run _ _ _ _ Hj)) in Hf. apply op_bind_inv in Hf as (u & s2 & _ & Hf).
      by injection Hf as <- _.
Qed.

Lemma status_dead st : job_status_name st = "dead"%string -> st = JobDead.
Proof. by destruct st. Qed.

Lemma fail_knowledge_dead id error retryable s s' :
  fail_knowledge worker id error retryable s = (Ok "dead"%string, s') ->
  jobs_of s' !! id = None \/
  exists job, jobs_of s' !! id = Some job /\ j_status job = JobDead /\ work_buried job s'.
Proof.
  unfold fail_knowledge. intros Hf. apply op_bind_inv in Hf as (cur & s1 & Hg & Hf). injection Hg as <- <-.
  change (rows s) with (jobs_of s) in Hf. destruct (jobs_of s !! id) as [job|] eqn:Hj.
  - right. apply op_bind_inv in Hf as (r & s1 & Hfail & Hf). apply op_bind_inv in Hf as (u & s2 & Hb & Hf).
    injection Hf as Hst <-. apply status_dead in Hst. rewrite bool_decide_true in Hb by done.
    destruct (fail_dead _ _ _ _ _ _ _ _ _ _ Hj Hfail Hst) as (job' & Hj' & Hd & Hp & Hdv & Hiv).
    destruct (bury_work_run job error s1) as (s3 & Hb' & Hjobs & Hbur). rewrite Hb in Hb'. injection Hb' as _ <-.
    exists job'. rewrite Hjobs. split; [done|]. split; [done|]. unfold work_buried, sync_run_id. by rewrite Hp, Hdv, Hiv.
  - injection Hf as <-. by left.
Qed.

Lemma complete_knowledge_done id s u s' :
  complete_knowledge worker id s = (Ok (Some u), s') ->
  exists job job', jobs_of s !! id = Some job /\ holds_lease worker job = true /\ s' = put_job id job' s /\
    j_status job' = JobSucceeded /\ j_lease_owner job' = None.
Proof.
  unfold complete_knowledge. intros Hc. apply op_bind_inv in Hc as (cur & s1 & Hg & Hc). injection Hg as <- <-.
  change (rows s) with (jobs_of s) in Hc. destruct (jobs_of s !! id) as [job|] eqn:Hj; [|done].
  apply op_bind_inv in Hc as (ok & s1 & Hok & Hc). destruct ok; [|done]. injection Hc as _ <-.
  unfold complete_knowledge_job in Hok. destruct (holds_lease worker job) eqn:Hl; simpl in Hok; [|done].
  rewrite (op_bind_ok _ _ _ tt _ (save_job_run _ _ _ _ Hj)) in Hok. injection Hok as <-.
  exists job. eexists. do 3 (split; [done|]). done.
Qed.

Lemma session_inv {A} (body : op S A) w a w' :
  session body w = (Ok a, w') -> exists s, body (db w) = (Ok a, s) /\ w' = with_db s w.
Proof. unfold session. destruct (body (db w)) as [[b|e] s]; [|done]. intros [= -> <-]. by exists s. Qed.

Lemma rollback_inv {A} (body : op S (option A)) w o w' :
  session_or_rollback body w = (Ok o, w') ->
  match o with Some a => exists s, body (db w) = (Ok (Some a), s) /\ w' = with_db s w | None => w' = w end.
Proof. unfold session_or_rollback. destruct (body (db w)) as [[[b|]|e] s]; intros [= <- <-]; eauto. Qed.

Lemma close_inv m o id error w r w' :
  close m o id error w = (Ok r, w') -> r = MkResult o id error /\ db w' = db w.
Proof.
  unfold close. intros Hc. apply op_bind_inv in Hc as (u & w1 & H1' & Hc). apply op_bind_inv in Hc as (u' & w2 & H2' & Hc).
  injection Hc as <- <-. split; [done|].
  assert (db w1 = db w) as <-.
  { unfold send_dead_letter in H1'. destruct (bool_decide _); [unfold redis_call in H1'; destruct xadd_answer; [|done..]|]; by injection H1' as _ <-. }
  unfold acknowledge_message, redis_call in H2'. destruct xack_answer; [|done..]. by injection H2' as _ <-.
Qed.

(** What an outcome says of the tables. *)
Definition outcome_true (m : QueueMessage) (before : S) (r : JobProcessResult) (after : S) : Prop :=
  (outcome r = "succeeded"%string -> exists id job, key_in "job_id" m = Some id /\ jobs_of after !! id = Some job /\
     j_status job = JobSucceeded /\
     (result_error r = None -> exists s job0, jobs_of s !! id = Some job0 /\ holds_lease worker job0 = true /\ after = put_job id job s)) /\
  (outcome r = "duplicate"%string -> after = before) /\
  (outcome r = "dead"%string -> forall id, job_id r = Some id ->
     jobs_of after !! id = None \/ exists job, jobs_of after !! id = Some job /\ j_status job = JobDead /\ work_buried job after).

Lemma failed_outcome m id error retryable before s status s' :
  key_in "job_id" m = Some id -> fail_knowledge worker id error retryable s = (Ok status, s') ->
  outcome_true m before (MkResult status (Some id) (Some error)) s'.
Proof.
  intros Hk Hf. split; [|split]; simpl; intros ->; [| |intros ? [= <-]; by eapply fail_knowledge_dead].
  all: unfold fail_knowledge in Hf; apply op_bind_inv in Hf as (cur & s1 & Hg & Hf); injection Hg as <- <-.
  all: change (rows s) with (jobs_of s) in Hf; destruct (jobs_of s !! id) as [job|] eqn:Hj; [|done].
  all: apply op_bind_inv in Hf as (res & s1 & Hfail & Hf); apply op_bind_inv in Hf as (u & s2 & Hb & Hf).
  all: injection Hf as Hst <-; destruct (failure_status res) eqn:Hr; try done.
  rewrite bool_decide_false in Hb by done. injection Hb as _ <-. unfold fail_knowledge_job in Hfail.
  destruct (negb (holds_lease worker job)).
  - injection Hfail as <- <-. exists id, job. do 3 (split; [done|]). done.
  - exfalso. destruct (negb retryable || _); rewrite (op_bind_ok _ _ _ tt _ (save_job_run _ _ _ _ Hj)) in Hfail.
    + by injection Hfail as <- _.
    + apply op_bind_inv in Hfail as (u' & s3 & _ & Hfail). by injection Hfail as <- _.
Qed.

(** The outcome of a knowledge job tells the truth about the tables,
    whatever its handler and the other processes do.  "succeeded" means the job
    is recorded as succeeded; and unless an error is reported too (another
    worker finished it) this worker recorded it, while it held the lease.  A
    "duplicate" delivery has changed nothing.  When a job is "dead" its row is
    dead and nothing is left half done: its connector run has failed, its
    document version is no longer uploaded, quarantined or processing, and its
    index version has failed unless it is the active one. *)
Theorem knowledge_outcome_true handlers m w r w' :
  _process_knowledge_job worker handlers m w = (Ok r, w') -> outcome_true m (db w) r (db w').
Proof.
  unfold _process_knowledge_job. destruct (key_in "job_id" m) as [id|] eqn:Hk.
  2:{ intros [-> ->]%close_inv. unfold outcome_true; simpl. by split_and!. }
  intros Hp. apply op_bind_inv in Hp as ([job existing] & w1 & Hclaim & Hp).
  apply session_inv in Hclaim as (s1 & Hclaim & ->). apply op_bind_inv in Hclaim as (job' & s2 & Hc & Hclaim).
  injection Hclaim as -> <- <-. destruct job as [job|].
  - clear Hc. apply op_bind_inv in Hp as (u & w2 & _ & Hp). apply op_bind_inv in Hp as (ran & w3 & _ & Hp).
    apply op_bind_inv in Hp as (u' & w4 & _ & Hp). apply op_bind_inv in Hp as (failure & w5 & Hfail & Hp).
    destruct failure as [[error retryable]|].
    + apply op_bind_inv in Hp as (u2 & w6 & _ & Hp). apply op_bind_inv in Hp as (status & w7 & Hf & Hp).
      apply session_inv in Hf as (s7 & Hf & ->). apply close_inv in Hp as [-> ->]. by eapply failed_outcome.
    + apply close_inv in Hp as [-> ->]. destruct ran as [[]|f]; [|done].
      apply op_bind_inv in Hfail as (done' & w6 & Hdone & Hfail). destruct done' as [x|]; [|done]. injection Hfail as <-.
      apply rollback_inv in Hdone as (s6 & Hdone & ->).
      apply complete_knowledge_done in Hdone as (j & j' & Hj & Hl & -> & Hs & Ho).
      unfold outcome_true; simpl. split_and!; [|done..]. intros _. exists id, j'.
      split; [done|]. rewrite jobs_put_job, lookup_insert_eq. split; [done|]. split; [done|]. intros _. eauto.
  - destruct (claim_cases id worker row_locked (clock 0) (db w)) as [(j & _ & _ & _ & Hrun)|Hrun]; rewrite Hrun in Hc; [done|].
    injection Hc as <-. change (rows (db w)) with (jobs_of (db w)) in Hp. destruct (jobs_of (db w) !! id) as [j|] eqn:Hj.
    + apply close_inv in Hp as [-> ->]. unfold outcome_true; simpl. by split_and!.
    + apply close_inv in Hp as [-> ->]. unfold outcome_true; simpl. split_and!; [done..|].
      intros _ ? [= <-]. by left.
Qed.
End knowledge.

(** ** Instances *)

Record WorkerDB := MkWorkerDB {
  wdb_outbox : outbox;
  wdb_jobs : table IngestionJob;
  wdb_runs : table ConnectorSyncRun;
  wdb_versions : table KnowledgeDocumentVersion;
  wdb_indexes : table KnowledgeIndexVersion
}.

#[export, refine] Instance wdb_outbox_table : HasTable WorkerDB OutboxEvent := {|
  rows := wdb_outbox; set_rows t s := MkWorkerDB t (wdb_jobs s) (wdb_runs s) (wdb_versions s) (wdb_indexes s) |}.
Proof. all: by repeat intros []. Defined.
#[export, refine] Instance wdb_jobs_table : HasTable WorkerDB IngestionJob := {|
  rows := wdb_jobs; set_rows t s := MkWorkerDB (wdb_outbox s) t (wdb_runs s) (wdb_versions s) (wdb_indexes s) |}.
Proof. all: by repeat intros []. Defined.
#[export, refine] Instance wdb_runs_table : HasTable WorkerDB ConnectorSyncRun := {|
  rows := wdb_runs; set_rows t s := MkWorkerDB (wdb_outbox s) (wdb_jobs s) t (wdb_versions s) (wdb_indexes s) |}.
Proof. all: by repeat intros []. Defined.
#[export, refine] Instance wdb_versions_table : HasTable WorkerDB KnowledgeDocumentVersion := {|
  rows := wdb_versions; set_rows t s := MkWorkerDB (wdb_outbox s) (wdb_jobs s) (wdb_runs s) t (wdb_indexes s) |}.
Proof. all: by repeat intros []. Defined.
#[export, refine] Instance wdb_indexes_table : HasTable WorkerDB KnowledgeIndexVersion := {|
  rows := wdb_indexes; set_rows t s := MkWorkerDB (wdb_outbox s) (wdb_jobs s) (wdb_runs s) (wdb_versions s) t |}.
Proof. all: by repeat intros []. Defined.

Ltac separate := constructor; by intros ? [].
#[export] Instance wdb_separate_oj : Separate WorkerDB OutboxEvent IngestionJob. Proof. separate. Qed.
#[export] Instance wdb_separate_jr : Separate WorkerDB IngestionJob ConnectorSyncRun. Proof. separate. Qed.
#[export] Instance wdb_separate_jv : Separate WorkerDB IngestionJob KnowledgeDocumentVersion. Proof. separate. Qed.
#[export] Instance wdb_separate_ji : Separate WorkerDB IngestionJob KnowledgeIndexVersion. Proof. separate. Qed.
#[export] Instance wdb_separate_rv : Separate WorkerDB ConnectorSyncRun KnowledgeDocumentVersion. Proof. separate. Qed.
#[export] Instance wdb_separate_ri : Separate WorkerDB ConnectorSyncRun KnowledgeIndexVersion. Proof. separate. Qed.
#[export] Instance wdb_separate_vi : Separate WorkerDB KnowledgeDocumentVersion KnowledgeIndexVersion. Proof. separate. Qed.

#[local] Existing Instance plain_repr.
#[local] Existing Instance default_settings.
#[local] Instance quiet_env : Env WorkerDB := {|
  others _ s := s; clock n := seconds (Z.of_nat n); draw n := pretty n; row_locked := false; xadd_answer := Answered; xack_answer := Answered |}.

(** A job at its last attempt, whose handler raises. *)
Definition last_attempt : IngestionJob :=
  MkIngestionJob "kb" (Some "v1"%string) None "index" JobPending 4 5 None None "k" [] None None None 0 None None 0.

Definition last_db : WorkerDB :=
  MkWorkerDB ∅ {["j1" := last_attempt]} ∅ {["v1" := MkDocVersion VerProcessing None]} ∅.

Definition bad_handler : string -> option (string -> IngestionJob -> WorkerDB -> (unit + Failure) * WorkerDB) :=
  fun _ => Some (fun _ _ s => (inr (MkFailure (of_string "boom") false), s)).

Definition last_message : QueueMessage :=
  MkQueueMessage "1-0" [] (of_string "knowledge.job.ready") [] [] [(of_string "job_id", JStr (of_string "j1"))].

Lemma knowledge_outcome_true_witness : exists r w',
  _process_knowledge_job "w" bad_handler last_message (MkWorld last_db [] []) = (Ok r, w') /\ outcome r = "dead"%string /\
  outcome_true "w" last_message last_db r (db w').
Proof.
  destruct (_process_knowledge_job "w" bad_handler last_message (MkWorld last_db [] [])) as [[r|e] w'] eqn:Hrun.
  - exists r, w'. split; [reflexivity|]. split.
    + apply (f_equal (fun p => match p.1 with Ok r => outcome r | Raise _ => ""%string end)) in Hrun. cbn [fst] in Hrun.
      rewrite <- Hrun. vm_compute. reflexivity.
    + exact (knowledge_outcome_true "w" bad_handler last_message (MkWorld last_db [] []) r w' Hrun).
  - exfalso. apply (f_equal (fun p => match p.1 with Ok _ => true | Raise _ => false end)) in Hrun. vm_compute in Hrun. discriminate Hrun.
Defined.
