(* ===== verification/Capacity.v ===== *)
(** * Code Interpreter admission

    [code_interpreter_capacity_service.py]: a leased semaphore in Redis with a
    global ceiling and a cap per subject, shared by every worker process, and
    the administrator's policy for it.

    The scripts run atomically inside Redis.  Times are microseconds: a script
    receives [now], which its caller read before the call, and runs at [at] on
    the server's clock, which is what [SET ... EX] and expiry use.  A key set
    with [EX] at [at] is gone once the clock is past [at + ttl].  [fault] says
    how the call to Redis ends for the caller. *)

From S2P Require Import Prelude Text Json PyText.

(** ** Settings ([config.py]) *)

Class CapacitySettings := {
  capacity_global_max : Z;
  capacity_per_subject_max : Z;
  capacity_lease_ttl_seconds : Z;
  capacity_heartbeat_seconds : Z;
  capacity_retry_after_seconds : Z
}.

Definition default_capacity : CapacitySettings := {|
  capacity_global_max := 200; capacity_per_subject_max := 2; capacity_lease_ttl_seconds := 900;
  capacity_heartbeat_seconds := 30; capacity_retry_after_seconds := 30
|}.

(** ** Redis *)

Abbreviation zset := (gmap text Z) (only parsing).

Record Redis := MkRedis {
  global_zset : gmap text Z;
  subject_zsets : gmap text (gmap text Z);
  (** the subject a lease belongs to, and when the key expires *)
  lease_keys : gmap text (text * Z);
  policy_hash : gmap string text;
  rejected_total : option Z
}.

Definition subject_zset (subject : text) (r : Redis) : gmap text Z := default ∅ (subject_zsets r !! subject).

Definition with_global (f : gmap text Z -> gmap text Z) (r : Redis) : Redis :=
  MkRedis (f (global_zset r)) (subject_zsets r) (lease_keys r) (policy_hash r) (rejected_total r).
Definition with_subject (subject : text) (f : gmap text Z -> gmap text Z) (r : Redis) : Redis :=
  MkRedis (global_zset r) (<[subject := f (subject_zset subject r)]> (subject_zsets r)) (lease_keys r) (policy_hash r)
    (rejected_total r).
Definition with_leases (f : gmap text (text * Z) -> gmap text (text * Z)) (r : Redis) : Redis :=
  MkRedis (global_zset r) (subject_zsets r) (f (lease_keys r)) (policy_hash r) (rejected_total r).

(** [ZREMRANGEBYSCORE key -inf now] *)
Definition prune (now : Z) (z : gmap text Z) : gmap text Z := filter (fun kv => now < kv.2) z.

(** [GET lease_key] *)
Definition get_lease (at_ : Z) (lease : text) (r : Redis) : option text :=
  match lease_keys r !! lease with
  | Some (subject, expires) => if at_ <=? expires then Some subject else None
  | None => None
  end.

Definition zcard (z : gmap text Z) : Z := Z.of_nat (size z).

(** ** The scripts *)

(** ZADD to both sets and SET with EX. *)
Definition put_lease (lease subject : text) (expiry ttl at_ : Z) (r : Redis) : Redis :=
  with_leases <[lease := (subject, at_ + seconds ttl)]>
    (with_subject subject <[lease := expiry]> (with_global <[lease := expiry]> r)).

Definition _ACQUIRE_LUA (lease subject : text) (now expiry ttl global_max subject_max at_ : Z) (r : Redis)
    : (Z * Z * Z) * Redis :=
  let r := with_subject subject (prune now) (with_global (prune now) r) in
  let counts (r : Redis) := (zcard (global_zset r), zcard (subject_zset subject r)) in
  match get_lease at_ lease r with
  | Some existing =>
      if decide (existing = subject) then
        let r := put_lease lease subject expiry ttl at_ r in
        ((1, (counts r).1, (counts r).2), r)
      else ((-2, (counts r).1, (counts r).2), r)
  | None =>
      let '(global_count, subject_count) := counts r in
      if global_max <=? global_count then ((0, global_count, subject_count), r)
      else if subject_max <=? subject_count then ((-1, global_count, subject_count), r)
      else ((1, global_count + 1, subject_count + 1), put_lease lease subject expiry ttl at_ r)
  end.

(** An empty subject counts as none. *)
Definition lease_subject (at_ : Z) (lease : text) (r : Redis) : option text :=
  match get_lease at_ lease r with Some [] | None => None | found => found end.

Definition _RELEASE_LUA (lease : text) (now at_ : Z) (r : Redis) : Z * Redis :=
  let r := with_global (prune now) r in
  let subject := lease_subject at_ lease r in
  let removed := bool_decide (is_Some (global_zset r !! lease)) in
  let r := with_global (delete lease) r in
  let r := match subject with
    | Some subject => with_subject subject (fun z => prune now (delete lease z)) r
    | None => r
    end in
  let r := with_leases (delete lease) r in
  (if removed || bool_decide (is_Some subject) then 1 else 0, r).

Definition _HEARTBEAT_LUA (lease : text) (now expiry ttl at_ : Z) (r : Redis) : Z * Redis :=
  let r := with_global (prune now) r in
  match lease_subject at_ lease r with
  | None => (0, with_global (delete lease) r)
  | Some subject => (1, put_lease lease subject expiry ttl at_ (with_subject subject (prune now) r))
  end.

Definition _STATS_LUA (now : Z) (r : Redis) : Z * Redis :=
  let r := with_global (prune now) r in (zcard (global_zset r), r).

(** ** The policy *)

Record Policy := MkPolicy {
  global_max : Z;
  per_subject_max : Z;
  retry_after : Z;
  hard_global_max : Z;
  enabled : Z
}.

(** A worker process: the Redis it shares, and its own [_last_known_enabled]. *)
Record Process := MkProcess { redis : Redis; _last_known_enabled : option Z }.

Definition with_redis (f : Redis -> Redis) (p : Process) : Process := MkProcess (f (redis p)) (_last_known_enabled p).

(** How a call to Redis ends: answered, not carried out, or carried out with its answer lost. *)
Inductive fault := Answered | NotRun | AnswerLost.

(** [system_settings]. *)
Abbreviation settings_table := (gmap string (option text)) (only parsing).

Section capacity.
Context `{PyStr} `{PyInt} `{CapacitySettings}.

(** [int(x or default)] *)
Definition or_default (x default : Z) : Z := if x =? 0 then default else x.

Definition base_global_max : Z := Z.max 1 (or_default capacity_global_max 200).
Definition base_per_subject_max : Z := Z.max 1 (or_default capacity_per_subject_max 2).
Definition lease_ttl : Z := Z.max 30 (or_default capacity_lease_ttl_seconds 900).
Definition base_retry_after : Z := Z.max 1 (or_default capacity_retry_after_seconds 30).

Definition _normalize_policy (global per_subject retry enabled_ : option Z) : Policy :=
  let operational_global := Z.min base_global_max (Z.max 1 (default base_global_max global)) in
  MkPolicy operational_global
    (Z.min operational_global (Z.max 1 (default base_per_subject_max per_subject)))
    (Z.max 1 (Z.min 300 (default base_retry_after retry)))
    base_global_max
    (match enabled_ with Some 0 => 0 | _ => 1 end).

Definition _remember_enabled (value : Z) (p : Process) : Process :=
  MkProcess (redis p) (Some (if value =? 0 then 0 else 1)).

(** [None] when Redis raises. *)
Definition _effective_policy (f : fault) : op Process (option Policy) := fun p =>
  match f with
  | NotRun | AnswerLost => (Ok None, p)
  | Answered =>
      let raw := policy_hash (redis p) in
      if decide (raw = ∅) then (Ok (Some (_normalize_policy None None None (_last_known_enabled p))), p)
      else
        let optional_int (key : string) := raw !! key ≫= int_of_str in
        let policy := _normalize_policy (optional_int "global_max") (optional_int "per_subject_max") (optional_int "retry_after")
          (match raw !! "enabled"%string with Some _ => optional_int "enabled" | None => _last_known_enabled p end) in
        (Ok (Some policy), _remember_enabled (enabled policy) p)
  end.

(** ** Calls *)

(** [client.eval(...)]; [None] when it raises. *)
Definition eval_script {A} (f : fault) (script : Redis -> A * Redis) : op Process (option A) := fun p =>
  match f with
  | NotRun => (Ok None, p)
  | AnswerLost => (Ok None, with_redis (fun r => (script r).2) p)
  | Answered => let '(a, r) := script (redis p) in (Ok (Some a), MkProcess r (_last_known_enabled p))
  end.

(** The code of the error and the seconds it advises. *)
Definition error_detail (code : string) (retry : Z) : string := code +:+ ":" +:+ pretty retry.
Definition _busy_exception (retry : Z) : exn := HTTPException 429 (error_detail "code_interpreter_capacity_busy" retry).
Definition _unavailable_exception (retry : Z) : exn :=
  HTTPException 503 (error_detail "code_interpreter_capacity_unavailable" retry).
Definition _disabled_exception : exn := HTTPException 503 "code_interpreter_disabled".

Record CapacityPermit := MkPermit { lease_id : text; permit_subject : text; permit_expires_at : Z }.

(** The faults of one acquisition: reading the policy, the script, counting the refusal. *)
Record AcquireFaults := MkFaults { on_policy : fault; on_eval : fault; on_incr : fault }.

Definition count_rejection (f : fault) : op Process unit := modify (fun p =>
  match f with
  | NotRun => p
  | _ => with_redis (fun r => MkRedis (global_zset r) (subject_zsets r) (lease_keys r) (policy_hash r)
           (Some (default 0 (rejected_total r) + 1))) p
  end).

(** The caller's lease id, or a new one. *)
Definition chosen_lease (lease : option text) (new_lease : text) : text :=
  match strip (default [] lease) with [] => new_lease | l => l end.

(** [now]: [time.time()]; [at_]: when the script runs; [new_lease]: the uuid drawn. *)
Definition acquire_code_interpreter_turn (subject : text) (lease : option text) (global_limit subject_limit : option Z)
    (new_lease : text) (now at_ : Z) (f : AcquireFaults) : op Process CapacityPermit :=
  match strip subject with
  | [] => raise (ValueError "subject is required")
  | subject =>
      let lease := chosen_lease lease new_lease in
      let expiry := now + seconds lease_ttl in
      cfg ← _effective_policy (on_policy f);
      match cfg with
      | None => raise (_unavailable_exception base_retry_after)
      | Some cfg =>
          let g_max := Z.max 1 (default (global_max cfg) global_limit) in
          let s_max := Z.max 1 (default (per_subject_max cfg) subject_limit) in
          if enabled cfg =? 0 then raise _disabled_exception
          else
            result ← eval_script (on_eval f) (_ACQUIRE_LUA lease subject now expiry lease_ttl g_max s_max at_);
            match result with
            | None => raise (_unavailable_exception (retry_after cfg))
            | Some (status, _, _) =>
                if status =? 1 then mret (MkPermit lease subject expiry)
                else
                  _ ← count_rejection (on_incr f);
                  raise (_busy_exception (retry_after cfg))
            end
      end
  end.

Definition release_code_interpreter_turn (lease : text) (now at_ : Z) (f : fault) : op Process bool :=
  match lease with
  | [] => mret false
  | _ =>
      result ← eval_script f (_RELEASE_LUA lease now at_);
      mret (match result with Some n => negb (n =? 0) | None => false end)
  end.

Definition heartbeat_code_interpreter_turn (lease : text) (now at_ : Z) (f : fault) : op Process bool :=
  match lease with
  | [] => mret false
  | _ =>
      result ← eval_script f (_HEARTBEAT_LUA lease now (now + seconds lease_ttl) lease_ttl at_);
      match result with
      | None => raise (_unavailable_exception base_retry_after)
      | Some n => mret (negb (n =? 0))
      end
  end.

(** The live count, the ceiling and what is left of it. *)
Definition code_interpreter_capacity_stats (now : Z) (f : AcquireFaults) : op Process (Z * Z * Z) :=
  cfg ← _effective_policy (on_policy f);
  match cfg with
  | None => raise (_unavailable_exception base_retry_after)
  | Some cfg =>
      active ← eval_script (on_eval f) (_STATS_LUA now);
      match active with
      | None => raise (_unavailable_exception base_retry_after)
      | Some active => mret (active, global_max cfg, Z.max 0 (global_max cfg - active))
      end
  end.

(** ** The stored policy *)

Definition _SETTING_GLOBAL_MAX : string := "code_interpreter_capacity_global_max".
Definition _SETTING_PER_SUBJECT_MAX : string := "code_interpreter_capacity_per_subject_max".
Definition _SETTING_RETRY_AFTER : string := "code_interpreter_capacity_retry_after_seconds".
Definition _SETTING_ENABLED : string := "code_interpreter_enabled".

Definition read_setting (key : string) (db : settings_table) : option Z := mjoin (db !! key) ≫= int_of_str.

Definition get_code_interpreter_capacity_policy (db : settings_table) : Policy :=
  _normalize_policy (read_setting _SETTING_GLOBAL_MAX db) (read_setting _SETTING_PER_SUBJECT_MAX db)
    (read_setting _SETTING_RETRY_AFTER db) (read_setting _SETTING_ENABLED db).

Definition set_code_interpreter_capacity_policy (global per_subject retry : option Z) (on : option bool) (db : settings_table)
    : Policy * settings_table :=
  let current := get_code_interpreter_capacity_policy db in
  let normalized := _normalize_policy (Some (default (global_max current) global))
    (Some (default (per_subject_max current) per_subject)) (Some (default (retry_after current) retry))
    (Some (match on with None => enabled current | Some b => if b then 1 else 0 end)) in
  (normalized,
   <[_SETTING_ENABLED := Some (of_int (enabled normalized))]>
    (<[_SETTING_RETRY_AFTER := Some (of_int (retry_after normalized))]>
     (<[_SETTING_PER_SUBJECT_MAX := Some (of_int (per_subject_max normalized))]>
      (<[_SETTING_GLOBAL_MAX := Some (of_int (global_max normalized))]> db)))).

Definition sync_code_interpreter_capacity_policy (db : settings_table) (f : fault) : op Process Policy := fun p =>
  let policy := get_code_interpreter_capacity_policy db in
  let publish (r : Redis) := MkRedis (global_zset r) (subject_zsets r) (lease_keys r)
    (<["global_max" := of_int (global_max policy)]> (<["per_subject_max" := of_int (per_subject_max policy)]>
     (<["retry_after" := of_int (retry_after policy)]> (<["enabled" := of_int (enabled policy)]> (policy_hash r)))))
    (rejected_total r) in
  match f with
  | NotRun => (Raise (_unavailable_exception (retry_after policy)), p)
  | AnswerLost => (Raise (_unavailable_exception (retry_after policy)), with_redis publish p)
  | Answered => (Ok policy, _remember_enabled (enabled policy) (with_redis publish p))
  end.

(** [None] when Redis cannot be read. *)
Definition code_interpreter_rejected_total (f : fault) (p : Process) : option Z :=
  match f with Answered => Some (Z.max 0 (default 0 (rejected_total (redis p)))) | _ => None end.
End capacity.

(** ** Subjects *)

Definition subject_for_user (user_id : Z) : text := of_string "user:" ++ of_int user_id.
Definition subject_for_api_key (api_key_id : Z) : text := of_string "api_key:" ++ of_int api_key_id.
