(* ===== verification/CapacityFacts.v ===== *)
(** * What admission promises

    The ceilings hold over every sequence of calls whose heartbeats come in
    time; what one acquisition does on every branch; and the administrator's
    policy keeps its values and its bounds. *)

From S2P Require Import Prelude Text Json JsonParse PyText Capacity.

(** ** Sets and leases *)

Lemma lookup_prune now z k v : prune now z !! k = Some v <-> z !! k = Some v /\ now < v.
Proof. unfold prune. by rewrite map_lookup_filter_Some. Qed.

Lemma prune_size now z : zcard (prune now z) <= zcard z.
Proof. unfold zcard. pose proof (map_subseteq_size _ _ (map_filter_subseteq (fun kv : text * Z => now < kv.2) z)). unfold prune. lia. Qed.

Lemma zcard_insert_new k v z : zcard (<[k := v]> z) <= zcard z + 1.
Proof. unfold zcard. destruct (z !! k) eqn:Hk; [rewrite map_size_insert_Some by eauto|rewrite map_size_insert_None by done]; lia. Qed.

Lemma zcard_insert_old k v w z : z !! k = Some w -> zcard (<[k := v]> z) = zcard z.
Proof. intros Hk. unfold zcard. by rewrite map_size_insert_Some by eauto. Qed.

Lemma zcard_delete k z : zcard (delete k z) <= zcard z.
Proof. unfold zcard. pose proof (map_subseteq_size _ _ (delete_subseteq z k)). lia. Qed.

Lemma subject_with_subject s s' f r :
  subject_zset s' (with_subject s f r) = if decide (s' = s) then f (subject_zset s r) else subject_zset s' r.
Proof.
  unfold subject_zset at 1, with_subject. cbn [subject_zsets]. rewrite lookup_insert. case_decide as Hs; [subst|].
  - by rewrite decide_True.
  - by rewrite decide_False.
Qed.

Section invariant.
Variables (G Sm : Z).
Implicit Types (r : Redis).

Definition fits r : Prop := zcard (global_zset r) <= G /\ forall s, zcard (subject_zset s r) <= Sm.

(** A lease's place in the global set is also in its subject's. *)
Definition matched r : Prop :=
  forall lease s e score, lease_keys r !! lease = Some (s, e) -> global_zset r !! lease = Some score ->
    subject_zset s r !! lease = Some score.

Definition capped r : Prop := fits r /\ matched r.

(** The caller has read its clock before the lease's last expiry. *)
Definition timely (lease : text) (now at_ : Z) r : Prop :=
  get_lease at_ lease r <> None -> exists score, global_zset r !! lease = Some score /\ now < score.

Lemma capped_prune_global now r : capped r -> capped (with_global (prune now) r).
Proof.
  intros [[Hg Hs] Hm]. split; [split|].
  - cbn. pose proof (prune_size now (global_zset r)). lia.
  - exact Hs.
  - intros lease s e score Hl Hgl. cbn in Hgl. apply lookup_prune in Hgl as [Hgl _]. by eapply Hm.
Qed.

Lemma matched_subject_pruned now s r :
  matched r -> (forall lease score, global_zset r !! lease = Some score -> now < score) ->
  matched (with_subject s (prune now) r).
Proof.
  intros Hm Hlive lease s' e score Hl Hg. pose proof (Hm lease s' e score Hl Hg) as Hin.
  rewrite subject_with_subject. case_decide; [subst|done]. apply lookup_prune. split; [done|]. by eapply Hlive.
Qed.

(** Both sets pruned at the same [now]. *)
Lemma capped_prune now s r : capped r -> capped (with_subject s (prune now) (with_global (prune now) r)).
Proof.
  intros Hc. pose proof (capped_prune_global now r Hc) as [[Hg Hs] Hm]. split; [split|].
  - exact Hg.
  - intros s'. rewrite subject_with_subject. specialize (Hs s'). case_decide; [subst|done].
    pose proof (prune_size now (subject_zset s (with_global (prune now) r))). lia.
  - apply matched_subject_pruned; [done|]. intros lease score Hl. by apply lookup_prune in Hl as [_ Hl].
Qed.

Lemma matched_put lease s expiry ttl at_ r : matched r -> matched (put_lease lease s expiry ttl at_ r).
Proof.
  intros Hm lease' s' e score Hl Hg. cbn in Hl, Hg. unfold put_lease.
  change (subject_zset s' (with_leases ?f ?x)) with (subject_zset s' x).
  rewrite lookup_insert in Hl. rewrite lookup_insert in Hg. rewrite subject_with_subject.
  destruct (decide (lease = lease')) as [Hk|Hk].
  - injection Hl as <- <-. injection Hg as <-. subst lease'. rewrite decide_True by done. by rewrite lookup_insert_eq.
  - pose proof (Hm _ _ _ _ Hl Hg) as Hin. case_decide; [subst; by rewrite lookup_insert_ne|done].
Qed.

Lemma capped_put_old lease s e expiry ttl at_ score r :
  capped r -> lease_keys r !! lease = Some (s, e) -> global_zset r !! lease = Some score ->
  capped (put_lease lease s expiry ttl at_ r).
Proof.
  intros [[Hg Hs] Hm] Hl Hgl. split; [split|by apply matched_put].
  - cbn. by rewrite (zcard_insert_old _ _ score).
  - intros s'. unfold put_lease. change (subject_zset s' (with_leases ?f ?x)) with (subject_zset s' x).
    rewrite subject_with_subject. case_decide; [subst|by apply Hs].
    rewrite (zcard_insert_old _ _ score); [apply Hs|]. by eapply Hm.
Qed.

Lemma capped_put_new lease s expiry ttl at_ r :
  capped r -> zcard (global_zset r) < G -> zcard (subject_zset s r) < Sm -> capped (put_lease lease s expiry ttl at_ r).
Proof.
  intros [[Hg Hs] Hm] HG HS. split; [split|by apply matched_put].
  - cbn. pose proof (zcard_insert_new lease expiry (global_zset r)). lia.
  - intros s'. unfold put_lease. change (subject_zset s' (with_leases ?f ?x)) with (subject_zset s' x).
    rewrite subject_with_subject. case_decide; [subst|by apply Hs].
    pose proof (zcard_insert_new lease expiry (subject_zset s r)). change (subject_zset s (with_global ?f r)) with (subject_zset s r). lia.
Qed.

Lemma get_lease_key at_ lease r s : get_lease at_ lease r = Some s -> exists e, lease_keys r !! lease = Some (s, e).
Proof. unfold get_lease. destruct (lease_keys r !! lease) as [[s' e]|]; [|done]. case_match; [|done]. intros [= ->]. eauto. Qed.

Lemma acquire_capped lease s now expiry ttl gmax smax at_ r :
  capped r -> timely lease now at_ r -> gmax <= G -> smax <= Sm ->
  capped (_ACQUIRE_LUA lease s now expiry ttl gmax smax at_ r).2.
Proof.
  intros Hc Ht HG HS. pose proof (capped_prune now s r Hc) as Hp. unfold _ACQUIRE_LUA.
  set (r' := with_subject s (prune now) (with_global (prune now) r)) in *.
  change (get_lease at_ lease r') with (get_lease at_ lease r). destruct (get_lease at_ lease r) as [ex|] eqn:Hl.
  - case_decide; [subst ex|done]. destruct (get_lease_key _ _ _ _ Hl) as [e He].
    destruct Ht as (score & Hg & Hlt); [congruence|].
    eapply (capped_put_old _ _ e _ _ _ score); [done|done|]. apply lookup_prune. split; [exact Hg|exact Hlt].
  - destruct (Z.leb_spec gmax (zcard (global_zset r'))); [done|]. destruct (Z.leb_spec smax (zcard (subject_zset s r'))); [done|].
    apply capped_put_new; [done|lia|lia].
Qed.

Lemma lease_subject_get at_ lease r s : lease_subject at_ lease r = Some s -> get_lease at_ lease r = Some s.
Proof. unfold lease_subject. destruct (get_lease at_ lease r) as [[|c t]|]; [done|by intros [= <-]|done]. Qed.

Lemma heartbeat_capped lease now expiry ttl at_ r :
  capped r -> timely lease now at_ r -> capped (_HEARTBEAT_LUA lease now expiry ttl at_ r).2.
Proof.
  intros Hc Ht. unfold _HEARTBEAT_LUA. destruct (lease_subject at_ lease (with_global (prune now) r)) as [s|] eqn:Hl.
  - apply lease_subject_get in Hl. change (get_lease at_ lease r = Some s) in Hl. destruct (get_lease_key _ _ _ _ Hl) as [e He].
    destruct Ht as (score & Hg & Hlt); [congruence|].
    eapply (capped_put_old _ _ e _ _ _ score); [by apply capped_prune|done|]. apply lookup_prune. split; [exact Hg|exact Hlt].
  - destruct (capped_prune_global now r Hc) as [[Hg Hs] Hm]. split; [split|].
    + cbn in *. pose proof (zcard_delete lease (prune now (global_zset r))). lia.
    + exact Hs.
    + intros lease' s e score Hl' Hg'. cbn in Hg'. apply lookup_delete_Some in Hg' as [_ Hg']. by eapply (Hm lease' s e score).
Qed.

Lemma release_capped lease now at_ r : capped r -> capped (_RELEASE_LUA lease now at_ r).2.
Proof.
  intros Hc. unfold _RELEASE_LUA. cbn [snd].
  pose proof (capped_prune_global now r Hc) as [[Hg Hs] Hm]. set (r' := with_global (prune now) r) in *.
  assert (Hlive : forall l score, global_zset r' !! l = Some score -> now < score).
  { intros l score Hl. by apply lookup_prune in Hl as [_ Hl]. }
  split; [split|].
  - assert (zcard (delete lease (global_zset r')) <= G) by (pose proof (zcard_delete lease (global_zset r')); lia).
    by destruct (lease_subject at_ lease r').
  - intros s'. destruct (lease_subject at_ lease r') as [s|]; [|exact (Hs s')].
    change (zcard (subject_zset s' (with_subject s (fun z => prune now (delete lease z)) (with_global (delete lease) r'))) <= Sm).
    rewrite subject_with_subject. specialize (Hs s'). case_decide; [subst|done].
    change (subject_zset s (with_global (delete lease) r')) with (subject_zset s r').
    pose proof (prune_size now (delete lease (subject_zset s r'))). pose proof (zcard_delete lease (subject_zset s r')). lia.
  - intros lease' s' e score Hl' Hg'.
    assert (Hd : delete lease (lease_keys r') !! lease' = Some (s', e) /\ delete lease (global_zset r') !! lease' = Some score)
      by by destruct (lease_subject at_ lease r').
    destruct Hd as [[Hne Hk]%lookup_delete_Some [_ Hgl]%lookup_delete_Some]. pose proof (Hm _ _ _ _ Hk Hgl) as Hin.
    destruct (lease_subject at_ lease r') as [s|]; [|exact Hin].
    change (subject_zset s' (with_subject s (fun z => prune now (delete lease z)) (with_global (delete lease) r')) !! lease' = Some score).
    rewrite subject_with_subject. case_decide; [subst|exact Hin]. apply lookup_prune. split; [|by eapply Hlive].
    by rewrite lookup_delete_ne.
Qed.
End invariant.

(** ** Every sequence of calls *)

Section calls.
Context `{PyStr} `{PyInt} `{CapacitySettings}.
Variables (G Sm : Z).
Implicit Types (p : Process).

(** The limits a call would use, were it to read the policy now. *)
Definition limits (gl sl : option Z) p : Z * Z :=
  match (_effective_policy Answered p).1 with
  | Ok (Some cfg) => (Z.max 1 (default (global_max cfg) gl), Z.max 1 (default (per_subject_max cfg) sl))
  | _ => (0, 0)
  end.

(** One call of any worker, ending in any way.  A lease is only renewed in time. *)
Inductive capacity_step : Process -> Process -> Prop :=
  | step_acquire p subject lease gl sl new now at_ f :
      timely (chosen_lease lease new) now at_ (redis p) -> (limits gl sl p).1 <= G -> (limits gl sl p).2 <= Sm ->
      capacity_step p (acquire_code_interpreter_turn subject lease gl sl new now at_ f p).2
  | step_release p lease now at_ f : capacity_step p (release_code_interpreter_turn lease now at_ f p).2
  | step_heartbeat p lease now at_ f :
      timely lease now at_ (redis p) -> capacity_step p (heartbeat_code_interpreter_turn lease now at_ f p).2
  | step_stats p now f : capacity_step p (code_interpreter_capacity_stats now f p).2
  | step_sync p db f : capacity_step p (sync_code_interpreter_capacity_policy db f p).2
  | step_other_process p known : capacity_step p (MkProcess (redis p) known).

Lemma effective_policy_redis f p : redis (_effective_policy f p).2 = redis p.
Proof. unfold _effective_policy. destruct f; try done. by case_decide. Qed.

Lemma effective_policy_cases f p :
  (exists cfg, f = Answered /\ (_effective_policy Answered p).1 = Ok (Some cfg) /\ (_effective_policy f p).1 = Ok (Some cfg)) \/
  (f <> Answered /\ _effective_policy f p = (Ok None, p)).
Proof. destruct f; [left|by right..]. unfold _effective_policy. case_decide; eexists; done. Qed.

Lemma eval_capped {A} f (script : Redis -> A * Redis) p :
  capped G Sm (redis p) -> capped G Sm (script (redis p)).2 -> capped G Sm (redis (eval_script f script p).2).
Proof. intros H1' H2'. destruct f; simpl; [|done..]. by destruct (script (redis p)). Qed.

Lemma eval_capped_bind {A B} f (script : Redis -> A * Redis) (k : option A -> op Process B) p :
  capped G Sm (redis p) -> capped G Sm (script (redis p)).2 ->
  (forall a p', capped G Sm (redis p') -> capped G Sm (redis (k a p').2)) ->
  capped G Sm (redis ((eval_script f script ≫= k) p).2).
Proof.
  intros H1' H2' Hk. pose proof (eval_capped f script p H1' H2') as He. unfold mbind, op_bind.
  destruct (eval_script f script p) as [[a|e] p']; [by apply Hk|done].
Qed.

Lemma count_rejection_capped f p : capped G Sm (redis p) -> capped G Sm (redis (count_rejection f p).2).
Proof. by destruct f. Qed.

Lemma capacity_step_capped p p' : capped G Sm (redis p) -> capacity_step p p' -> capped G Sm (redis p').
Proof.
  intros Hc Hs. destruct Hs as [p subject lease gl sl new now at_ f Ht HG HS|p lease now at_ f|p lease now at_ f Ht|p now f|p db f|p known].
  - unfold acquire_code_interpreter_turn. destruct (strip subject) as [|c t]; [done|].
    destruct (effective_policy_cases (on_policy f) p) as [(cfg & Hf & Hlim & Hcfg)|[_ Hn]].
    + unfold limits in HG, HS. rewrite Hlim in HG, HS. simpl in HG, HS. pose proof (effective_policy_redis (on_policy f) p) as Hr.
      destruct (_effective_policy (on_policy f) p) as [r p1] eqn:He. simpl in Hcfg, Hr. subst r.
      rewrite (op_bind_ok _ _ _ _ _ He). cbv zeta. destruct (enabled cfg =? 0); [cbn; by rewrite Hr|].
      apply eval_capped_bind; [by rewrite Hr|rewrite Hr; by apply acquire_capped|].
      intros [[[status a] b]|] p2 Hp2; [|done]. destruct (status =? 1); [done|]. by destruct (on_incr f).
    + by rewrite (op_bind_ok _ _ _ _ _ Hn).
  - unfold release_code_interpreter_turn. destruct lease; [done|]. apply eval_capped_bind; [done|by apply release_capped|done].
  - unfold heartbeat_code_interpreter_turn. destruct lease; [done|]. apply eval_capped_bind; [done|by apply heartbeat_capped|].
    by intros [n|] p2 Hp2.
  - unfold code_interpreter_capacity_stats. destruct (effective_policy_cases (on_policy f) p) as [(cfg & Hf & Hlim & Hcfg)|[_ Hn]].
    + pose proof (effective_policy_redis (on_policy f) p) as Hr.
      destruct (_effective_policy (on_policy f) p) as [r p1] eqn:He. simpl in Hcfg, Hr. subst r.
      rewrite (op_bind_ok _ _ _ _ _ He). apply eval_capped_bind; [by rewrite Hr|rewrite Hr; by apply capped_prune_global|].
      by intros [n|] p2 Hp2.
    + by rewrite (op_bind_ok _ _ _ _ _ Hn).
  - by destruct f.
  - done.
Qed.

(** C13: Over every sequence of calls of every worker - acquisitions,
    heartbeats, releases, statistics, policy changes, each carried out, not
    carried out, or carried out with its answer lost - the global set never
    holds more leases than the highest ceiling in force, and no subject more
    than its cap, as long as leases are renewed before they expire. *)
Theorem capacity_never_exceeded p :
  0 <= G -> 0 <= Sm ->
  reachable (fun p => global_zset (redis p) = ∅ /\ subject_zsets (redis p) = ∅ /\ lease_keys (redis p) = ∅) capacity_step p ->
  zcard (global_zset (redis p)) <= G /\ forall subject, zcard (subject_zset subject (redis p)) <= Sm.
Proof.
  intros HG HS Hr. cut (capped G Sm (redis p)); [by intros [Hf _]|]. revert p Hr.
  apply reachable_invariant; [|intros x y; apply capacity_step_capped]. intros p (Hg & Hs & Hl). split; [split|].
  - rewrite Hg. exact HG.
  - intros s. unfold subject_zset. rewrite Hs, lookup_empty. exact HS.
  - intros lease s e score Hk. by rewrite Hl, lookup_empty in Hk.
Qed.

(** ** One acquisition *)

(** Who may run: the lease's own subject, or anyone while both counts are below their caps. *)
Definition admissible (lease s : text) (now at_ gmax smax : Z) (r : Redis) : Prop :=
  get_lease at_ lease r = Some s \/
  (get_lease at_ lease r = None /\ zcard (prune now (global_zset r)) < gmax /\
   zcard (prune now (subject_zset s r)) < smax).

Lemma lease_ttl_pos : 0 < seconds lease_ttl.
Proof. unfold lease_ttl, seconds. lia. Qed.

Lemma pruned_subject s now r :
  subject_zset s (with_subject s (prune now) (with_global (prune now) r)) = prune now (subject_zset s r).
Proof. rewrite subject_with_subject. by rewrite decide_True. Qed.

Lemma put_lease_sets lease s expiry at_ r :
  global_zset (put_lease lease s expiry lease_ttl at_ r) = <[lease := expiry]> (global_zset r) /\
  subject_zset s (put_lease lease s expiry lease_ttl at_ r) = <[lease := expiry]> (subject_zset s r) /\
  get_lease at_ lease (put_lease lease s expiry lease_ttl at_ r) = Some s.
Proof.
  split; [done|]. split.
  - unfold put_lease. change (subject_zset s (with_leases ?f ?x)) with (subject_zset s x).
    rewrite subject_with_subject. by rewrite decide_True.
  - unfold get_lease, put_lease. cbn. rewrite lookup_insert_eq. pose proof lease_ttl_pos. by rewrite (proj2 (Z.leb_le _ _)) by lia.
Qed.

Lemma acquire_script_cases lease s now expiry gmax smax at_ r :
  let out := _ACQUIRE_LUA lease s now expiry lease_ttl gmax smax at_ r in
  (admissible lease s now at_ gmax smax r -> out.1.1.1 = 1 /\
     global_zset out.2 = <[lease := expiry]> (prune now (global_zset r)) /\
     subject_zset s out.2 = <[lease := expiry]> (prune now (subject_zset s r)) /\ get_lease at_ lease out.2 = Some s) /\
  (~ admissible lease s now at_ gmax smax r -> out.1.1.1 <> 1 /\ global_zset out.2 = prune now (global_zset r) /\
     subject_zset s out.2 = prune now (subject_zset s r) /\ lease_keys out.2 = lease_keys r /\ rejected_total out.2 = rejected_total r).
Proof.
  intros out. unfold admissible. subst out. unfold _ACQUIRE_LUA. rewrite <- (pruned_subject s now r).
  set (r' := with_subject s (prune now) (with_global (prune now) r)).
  change (prune now (global_zset r)) with (global_zset r'). change (get_lease at_ lease r') with (get_lease at_ lease r).
  change (lease_keys r) with (lease_keys r'). cbv zeta beta.
  destruct (get_lease at_ lease r) as [ex|] eqn:Hl.
  - case_decide as Hex; split; intros Ha.
    + split; [done|apply put_lease_sets].
    + subst ex. destruct Ha. by left.
    + exfalso. destruct Ha as [[=]|[[=] _]]. done.
    + done.
  - destruct (Z.leb_spec gmax (zcard (global_zset r'))) as [Hg|Hg].
    { split; [intros [[=]|(_ & Hlt & _)]; lia|done]. }
    destruct (Z.leb_spec smax (zcard (subject_zset s r'))) as [Hs|Hs].
    { split; [intros [[=]|(_ & _ & Hlt)]; lia|done]. }
    split; [intros _; split; [done|apply put_lease_sets]|]. intros []. right. done.
Qed.

(** One acquisition, on every branch.  When Redis cannot answer it fails
    closed with a 503, and with the switch off it is refused with a 503 that
    leaves running turns alone.  Otherwise the turn is admitted exactly when
    the lease is already the subject's or both live counts are below their
    caps: the lease is then in both sets until it expires, held by the subject.
    A refusal is a 429 that adds no lease and counts the rejection. *)
Theorem acquire_turn_correct subject lease gl sl new now at_ f p :
  strip subject <> [] ->
  let s := strip subject in
  let id := chosen_lease lease new in
  let run := acquire_code_interpreter_turn subject lease gl sl new now at_ f p in
  (on_policy f <> Answered -> run = (Raise (_unavailable_exception base_retry_after), p)) /\
  forall cfg, on_policy f = Answered -> (_effective_policy Answered p).1 = Ok (Some cfg) ->
  (enabled cfg = 0 -> run.1 = Raise _disabled_exception /\ redis run.2 = redis p) /\
  (enabled cfg <> 0 -> on_eval f = NotRun -> run.1 = Raise (_unavailable_exception (retry_after cfg)) /\ redis run.2 = redis p) /\
  (enabled cfg <> 0 -> on_eval f = Answered ->
     (admissible id s now at_ (limits gl sl p).1 (limits gl sl p).2 (redis p) ->
        run.1 = Ok (MkPermit id s (now + seconds lease_ttl)) /\
        global_zset (redis run.2) = <[id := now + seconds lease_ttl]> (prune now (global_zset (redis p))) /\
        subject_zset s (redis run.2) = <[id := now + seconds lease_ttl]> (prune now (subject_zset s (redis p))) /\
        get_lease at_ id (redis run.2) = Some s) /\
     (~ admissible id s now at_ (limits gl sl p).1 (limits gl sl p).2 (redis p) ->
        run.1 = Raise (_busy_exception (retry_after cfg)) /\
        global_zset (redis run.2) = prune now (global_zset (redis p)) /\
        subject_zset s (redis run.2) = prune now (subject_zset s (redis p)) /\
        lease_keys (redis run.2) = lease_keys (redis p) /\
        (on_incr f = Answered -> rejected_total (redis run.2) = Some (default 0 (rejected_total (redis p)) + 1)))).
Proof.
  intros Hs s id run. subst run. unfold acquire_code_interpreter_turn. fold id.
  subst s. destruct (strip subject) as [|c t]; [done|]. clear Hs. set (s := c :: t). cbv zeta. split.
  { intros Hf. destruct (effective_policy_cases (on_policy f) p) as [(cfg & Ha & _)|[_ Hn]]; [done|]. by rewrite (op_bind_ok _ _ _ _ _ Hn). }
  intros cfg Hf Hcfg. pose proof (effective_policy_redis Answered p) as Hr. rewrite Hf.
  unfold limits. rewrite Hcfg. cbn [fst snd].
  destruct (_effective_policy Answered p) as [r p1] eqn:He. simpl in Hcfg, Hr. subst r. rewrite <- Hr.
  rewrite (op_bind_ok _ _ _ _ _ He). cbv zeta. split; [|split].
  - intros ->. done.
  - intros Hen Hev. rewrite (proj2 (Z.eqb_neq _ _)) by done. by rewrite Hev.
  - intros Hen Hev. rewrite (proj2 (Z.eqb_neq _ _)) by done. rewrite Hev.
    set (gmax := Z.max 1 (default (global_max cfg) gl)). set (smax := Z.max 1 (default (per_subject_max cfg) sl)).
    destruct (acquire_script_cases id s now (now + seconds lease_ttl) gmax smax at_ (redis p1)) as [Hyes Hno].
    unfold mbind, op_bind, eval_script.
    destruct (_ACQUIRE_LUA id s now (now + seconds lease_ttl) lease_ttl gmax smax at_ (redis p1)) as [[[status a] b] r2]. cbn [fst snd] in *.
    split; intros Ha.
    + destruct (Hyes Ha) as (-> & Hg & Hz & Hl). done.
    + destruct (Hno Ha) as (Hst & Hg & Hz & Hl & Hrej). rewrite (proj2 (Z.eqb_neq _ _)) by done.
      destruct (on_incr f); cbn; rewrite ?Hrej; done.
Qed.

(** ** Releasing *)

(** Releasing a lease frees its place in both sets at once and touches no other
    live lease; releasing it again answers [False]. *)
Lemma release_script_correct lease now at_ r :
  let out := _RELEASE_LUA lease now at_ r in
  global_zset out.2 = delete lease (prune now (global_zset r)) /\ lease_keys out.2 = delete lease (lease_keys r) /\
  (forall s, get_lease at_ lease r = Some s -> s <> [] -> out.1 = 1 /\
     subject_zset s out.2 = prune now (delete lease (subject_zset s r))) /\
  (forall later at', (_RELEASE_LUA lease later at' out.2).1 = 0).
Proof.
  cbv zeta. assert (Hk : lease_keys (_RELEASE_LUA lease now at_ r).2 = delete lease (lease_keys r)).
  { unfold _RELEASE_LUA. cbn [snd]. by destruct (lease_subject _ _ _). }
  assert (Hg : global_zset (_RELEASE_LUA lease now at_ r).2 = delete lease (prune now (global_zset r))).
  { unfold _RELEASE_LUA. cbn [snd]. by destruct (lease_subject _ _ _). }
  split; [done|]. split; [done|]. split.
  - intros s Hs Hne. assert (Hl : lease_subject at_ lease (with_global (prune now) r) = Some s).
    { unfold lease_subject. change (get_lease at_ lease (with_global (prune now) r)) with (get_lease at_ lease r). rewrite Hs. by destruct s. }
    unfold _RELEASE_LUA. cbn [fst snd]. rewrite Hl. split; [by rewrite orb_true_r|].
    change (subject_zset s (with_leases ?f ?x)) with (subject_zset s x). rewrite subject_with_subject. by rewrite decide_True.
  - intros later at'. set (r' := (_RELEASE_LUA lease now at_ r).2) in *. unfold _RELEASE_LUA. cbn [fst].
    assert (Hl : lease_subject at' lease (with_global (prune later) r') = None).
    { unfold lease_subject, get_lease. change (lease_keys (with_global _ r')) with (lease_keys r'). by rewrite Hk, lookup_delete_eq. }
    rewrite Hl. rewrite bool_decide_false; [done|]. intros [v Hv]. change (prune later (global_zset r') !! lease = Some v) in Hv. apply lookup_prune in Hv as [Hv _].
    by rewrite Hg, lookup_delete_eq in Hv.
Qed.

(** ** The policy *)

Definition policy_ok (c : Policy) : Prop :=
  1 <= per_subject_max c <= global_max c /\ global_max c <= hard_global_max c /\ 1 <= retry_after c <= 300 /\
  (enabled c = 0 \/ enabled c = 1).

Lemma normalize_ok g s r e : policy_ok (_normalize_policy g s r e).
Proof.
  unfold policy_ok, _normalize_policy. cbn. assert (1 <= base_global_max) by (unfold base_global_max; lia).
  split_and!; try lia. destruct e as [[]|]; auto.
Qed.

Lemma normalize_stored c :
  policy_ok c -> hard_global_max c = base_global_max ->
  _normalize_policy (Some (global_max c)) (Some (per_subject_max c)) (Some (retry_after c)) (Some (enabled c)) = c.
Proof.
  intros (Hp & Hg & Hr & He) Hh. unfold _normalize_policy. cbn. destruct c as [g s r h e]. cbn in *. subst h.
  f_equal; try lia. by destruct He as [-> | ->].
Qed.

Lemma read_setting_eq key n db :
  (forall n, int_of_str (of_int n) = Some n) -> read_setting key (<[key := Some (of_int n)]> db) = Some n.
Proof. intros Hint. unfold read_setting. rewrite lookup_insert_eq. apply Hint. Qed.

Lemma read_setting_ne key key' v db : key <> key' -> read_setting key (<[key' := v]> db) = read_setting key db.
Proof. intros Hne. unfold read_setting. by rewrite lookup_insert_ne. Qed.

(** What an administrator sets is what is stored, and what every worker
    uses once it is published: limits clamped between one and the environment's
    hard ceiling (a subject's never above the global one, the retry between
    one and 300 seconds).  What is left out keeps its value, the subject's
    limit only lowered to a lower ceiling.  And a worker that has seen the
    switch off keeps it off when Redis has lost the policy. *)
Theorem policy_roundtrip g s r on db :
  (forall n, int_of_str (of_int n) = Some n) ->
  let before := get_code_interpreter_capacity_policy db in
  let '(policy, db') := set_code_interpreter_capacity_policy g s r on db in
  policy_ok policy /\ get_code_interpreter_capacity_policy db' = policy /\
  (forall p known, (_effective_policy Answered (MkProcess (redis (sync_code_interpreter_capacity_policy db' Answered p).2) known)).1
     = Ok (Some policy)) /\
  (g = None -> global_max policy = global_max before) /\
  (s = None -> per_subject_max policy = Z.min (global_max policy) (per_subject_max before)) /\
  (r = None -> retry_after policy = retry_after before) /\
  (on = None -> enabled policy = enabled before) /\
  (on = Some false -> forall p, exists c, policy_hash (redis p) = ∅ ->
     (_effective_policy Answered (_remember_enabled (enabled policy) p)).1 = Ok (Some c) /\ enabled c = 0).
Proof.
  intros Hint before. unfold set_code_interpreter_capacity_policy. fold before. cbv zeta.
  set (policy := _normalize_policy _ _ _ _). assert (Hok : policy_ok policy) by apply normalize_ok.
  assert (Hbefore : policy_ok before) by apply normalize_ok.
  split; [exact Hok|]. match goal with |- get_code_interpreter_capacity_policy ?d = _ /\ _ => set (db' := d) end.
  assert (Hget : get_code_interpreter_capacity_policy db' = policy).
  { unfold get_code_interpreter_capacity_policy, db'.
    repeat first [rewrite read_setting_eq by done | rewrite read_setting_ne by discriminate].
    by apply normalize_stored. }
  split; [exact Hget|]. split.
  { intros p known. unfold sync_code_interpreter_capacity_policy. cbv zeta. rewrite Hget. unfold _effective_policy.
    cbn [redis policy_hash with_redis _remember_enabled snd]. rewrite decide_False.
    - cbn [fst]. repeat first [rewrite lookup_insert_eq | rewrite lookup_insert_ne by discriminate]. cbn [mbind option_bind].
      rewrite !Hint. do 2 f_equal. by apply normalize_stored.
    - intros He. apply (f_equal (lookup "global_max"%string)) in He. by rewrite lookup_insert_eq, lookup_empty in He. }
  destruct Hbefore as (Hp & Hg & Hr & He). assert (hard_global_max before = base_global_max) as Hh by done.
  clearbody before. split; [|split; [|split; [|split]]]; intros ->; unfold policy, _normalize_policy;
    cbn [default option_map from_option id global_max per_subject_max retry_after enabled].
  - lia.
  - lia.
  - lia.
  - by destruct He as [-> | ->].
  - intros p. exists (_normalize_policy None None None (Some 0)). intros Hempty. unfold _effective_policy. cbn. by rewrite decide_True.
Qed.
End calls.

(** ** A renewal that comes too late *)

#[local] Existing Instance ascii_str.
#[local] Existing Instance default_capacity.
#[local] Instance capacity_ints : PyInt := {| int_of_str := int_token; int_of_float _ := None |}.

Definition empty_redis : Redis := MkRedis ∅ ∅ ∅ ∅ None.
Definition first_process : Process := MkProcess empty_redis None.
Definition all_answered : AcquireFaults := MkFaults Answered Answered Answered.
Definition full_ttl : Z := seconds 900.

(** The lease key is set to expire 900 seconds after the script runs, the
    score 900 seconds after the caller read its clock a little earlier.  A
    heartbeat between the two finds the key, and puts the lease back without
    counting: after another turn has taken the one place left, two turns hold a
    ceiling of one. *)
Theorem late_heartbeat_exceeds_cap :
  let a := acquire_code_interpreter_turn (of_string "user:1") (Some (of_string "a")) (Some 1) None [] 0 2000 all_answered first_process in
  let b := acquire_code_interpreter_turn (of_string "user:2") (Some (of_string "b")) (Some 1) None [] full_ttl full_ttl all_answered a.2 in
  let h := heartbeat_code_interpreter_turn (of_string "a") (full_ttl + 1000) (full_ttl + 1000) Answered b.2 in
  a.1 = Ok (MkPermit (of_string "a") (of_string "user:1") full_ttl) /\
  b.1 = Ok (MkPermit (of_string "b") (of_string "user:2") (full_ttl + full_ttl)) /\
  h.1 = Ok true /\ zcard (global_zset (redis h.2)) = 2.
Proof. vm_compute. auto. Qed.

(** ** Instances *)

Definition one_turn : op Process CapacityPermit :=
  acquire_code_interpreter_turn (of_string "user:1") (Some (of_string "a")) None None [] 0 0 all_answered.

Lemma capacity_never_exceeded_witness : zcard (global_zset (redis (one_turn first_process).2)) <= 200.
Proof.
  refine (proj1 (capacity_never_exceeded 200 2 (one_turn first_process).2 _ _ _)).
  - discriminate.
  - discriminate.
  - exists first_process. split; [by split|]. apply rtc_once. apply step_acquire.
    + intros Hl. by destruct Hl.
    + vm_compute. discriminate.
    + vm_compute. discriminate.
Defined.

Lemma acquire_turn_correct_witness :
  (one_turn first_process).1 = Ok (MkPermit (of_string "a") (of_string "user:1") (seconds 900)).
Proof.
  destruct (acquire_turn_correct (of_string "user:1") (Some (of_string "a")) None None [] 0 0 all_answered first_process) as [_ Hall].
  - vm_compute. discriminate.
  - destruct (Hall (_normalize_policy None None None None)) as (_ & _ & Hrun).
    + reflexivity.
    + reflexivity.
    + destruct Hrun as [Hyes _].
      * discriminate.
      * reflexivity.
      * destruct Hyes as [Hr _]; [|exact Hr]. right. split; [reflexivity|]. split; vm_compute; reflexivity.
Defined.

Lemma policy_roundtrip_witness :
  get_code_interpreter_capacity_policy (set_code_interpreter_capacity_policy (Some 10) None None (Some false) ∅).2 =
  MkPolicy 10 2 30 200 0.
Proof.
  destruct (policy_roundtrip (Some 10) None None (Some false) ∅) as (_ & Hget & _).
  - exact int_token_of_int.
  - exact Hget.
Defined.
