(* ===== verification/Crypto.v ===== *)
(** * HMAC and base64

    What extension_tokens.py uses of [hashlib], [hmac] and [base64]:
    [sha256(...).digest()], HMAC-SHA256 (RFC 2104) and [urlsafe_b64encode]
    without its padding (RFC 4648). *)

From S2P Require Import Prelude Text.

(** ** [hashlib.sha256(msg).digest()] *)

Definition word_bytes (w : Z) : list Z := (fun i => Z.land (Z.shiftr w i) 255) <$> [24; 16; 8; 0].

Definition sha256_digest (msg : list Z) : list Z :=
  let s := SHA256.digest msg in
  [SHA256.sa s; SHA256.sb s; SHA256.sc s; SHA256.sd s; SHA256.se s; SHA256.sf s; SHA256.sg s; SHA256.sh s] ≫= word_bytes.

(** ** [hmac.new(key, msg, hashlib.sha256).digest()] *)

Definition hmac_block (key : list Z) : list Z :=
  let key := if (64 <? length key)%nat then sha256_digest key else key in
  key ++ replicate (64 - length key) 0.

Definition hmac_sha256 (key msg : list Z) : list Z :=
  let key := hmac_block key in
  sha256_digest ((Z.lxor 92 <$> key) ++ sha256_digest ((Z.lxor 54 <$> key) ++ msg)).

(** ** [base64.urlsafe_b64encode(raw).rstrip(b"=")] *)

Definition b64_char (n : Z) : Z :=
  if n <? 26 then 65 + n
  else if n <? 52 then 71 + n
  else if n <? 62 then n - 4
  else if n =? 62 then 45 else 95.

(** The first [n] of the four characters of 24 bits. *)
Definition b64_group (n : nat) (bits : Z) : text :=
  take n ((fun i => b64_char (Z.land (Z.shiftr bits i) 63)) <$> [18; 12; 6; 0]).

Fixpoint b64url (bytes : list Z) : text :=
  match bytes with
  | a :: b :: c :: bytes => b64_group 4 (a * 65536 + b * 256 + c) ++ b64url bytes
  | [a; b] => b64_group 3 (a * 65536 + b * 256)
  | [a] => b64_group 2 (a * 65536)
  | [] => []
  end.

(** RFC 4231, test case 2 *)
Example hmac_jefe :
  (hmac_sha256 (utf8 (of_string "Jefe")) (utf8 (of_string "what do ya want for nothing?"))) ≫=
    (fun b => [SHA256.hex_digit (b / 16); SHA256.hex_digit (b mod 16)]) =
  of_string "5bdcc146bf60754e6a042426089575c75a003f089d2739839dec58b964ec3843".
Proof. vm_compute. reflexivity. Qed.

(** RFC 7636, appendix B *)
Example b64url_challenge :
  b64url (sha256_digest (utf8 (of_string "dBjftJeZ4CVP-mB92K27uhbUJU1p1r_wW1gFWFOEjXk"))) =
  of_string "E9Melhoa2OwvFrEMTJguCHaoeK1t8URWbuGJSstw-cM".
Proof. vm_compute. reflexivity. Qed.

#[global] Opaque sha256_digest hmac_sha256.
