(* ===== verification/Browsers.v ===== *)
(** * Browsers that a person connected

    extension_tokens.py: the tokens of the browser extension.  A signed-in person
    allows a browser; the extension trades the one-time code for a session, whose
    refresh token rotates and whose access token is what its requests show.  And
    the callers that decide with it: the exchange, the disconnection and the scope
    of an access token ([api/extension_connect.py], [api/deps.py]).

    Tokens are texts of Unicode scalar values, as the request parser delivers
    them; they are stored as SHA-256 hashes and rotated with HMAC-SHA256, both
    computed ([Crypto]).  The server's secret is a parameter.  A redis call is
    done, or done with its answer lost, or not done. *)

From S2P Require Import Prelude Text Json JsonParse PyText Regex Crypto.

(** ** Configuration *)

Definition PRODUCT_SLUG : string := "alpha-router".
Definition ACCESS_TOKEN_PREFIX : text := of_string (PRODUCT_SLUG +:+ "-ext-at-").
Definition REFRESH_TOKEN_PREFIX : text := of_string (PRODUCT_SLUG +:+ "-ext-rt-").

Definition ACCESS_TOKEN_LIFETIME : Z := seconds 3600.
Definition REFRESH_IDLE_LIFETIME : Z := days 30.
Definition SESSION_MAX_LIFETIME : Z := days 180.
Definition REFRESH_GRACE : Z := seconds 120.
Definition REUSE_LOOKBACK : nat := 256.
Definition ENDED_SESSION_RETENTION : Z := days 90.
Definition _PURGE_BATCH : nat := 500.
Definition TOUCH_INTERVAL : Z := seconds 60.
Definition CODE_TTL_SECONDS : Z := 120.
Definition DEVICE_NAME_MAX_CHARS : nat := 64.
Definition USER_AGENT_MAX_CHARS : nat := 255.
Definition EXTENSION_VERSION_MAX_CHARS : nat := 32.

Definition REVOKED_BY_USER : text := of_string "user".
Definition REVOKED_REFRESH_REUSE : text := of_string "refresh_reuse".
Definition REVOKED_TOKEN_VERSION : text := of_string "token_version".
Definition REVOKED_BY_ADMIN : text := of_string "admin".

Definition _ACCESS_SECONDS : Z := ACCESS_TOKEN_LIFETIME / 1000000.

(** [unicodedata.category(c)[0] == "C"] *)
Class PyCategory := { category_c : Z -> bool }.

Definition ascii_category : PyCategory := {| category_c c := (c <? 32) || (c =? 127) |}.

(** ** Data *)

Record ExtensionSession := MkExtensionSession {
  es_user : Z; es_device : text;
  es_access : text; es_access_expires : Z;
  es_refresh : text; es_prior : option text; es_prior_until : option Z;
  es_refresh_expires : Z; es_absolute : Z;
  es_version : Z; es_created : Z; es_last_used : option Z; es_last_ip : option text;
  es_agent : option text; es_extension_version : option text;
  es_revoked : option Z; es_reason : option text
}.

Record User := MkUser { u_active : bool; u_deleted : option Z; u_version : Z }.

Record SecurityEvent := MkSecurityEvent {
  sv_actor : option Z; sv_ip : option text; sv_action : string; sv_resource : string; sv_detail : json
}.

(** [redis_codes] and [_mem_codes] hold a payload and when it expires, by the code's key. *)
Record Server := MkServer {
  sessions : gmap string ExtensionSession; users : gmap Z User; security_log : list SecurityEvent;
  redis_codes : gmap text (text * Z); mem_codes : gmap text (text * Z)
}.

Definition set_sessions (f : gmap string ExtensionSession -> gmap string ExtensionSession) (s : Server) : Server :=
  MkServer (f (sessions s)) (users s) (security_log s) (redis_codes s) (mem_codes s).
Definition log_event (e : SecurityEvent) (s : Server) : Server :=
  MkServer (sessions s) (users s) (security_log s ++ [e]) (redis_codes s) (mem_codes s).
Definition set_codes (redis mem : gmap text (text * Z)) (s : Server) : Server :=
  MkServer (sessions s) (users s) (security_log s) redis mem.

Definition ExtensionTokenError (code message : string) : exn := OtherError ("ExtensionTokenError " +:+ code +:+ ": " +:+ message).
Definition _invalid_grant (message : string) : exn := ExtensionTokenError "invalid_grant" message.

Definition token_hash (token : text) : text := sha256_hexdigest (utf8 token).

Definition is_extension_access_token (token : text) : bool := starts_with ACCESS_TOKEN_PREFIX token.

(** ** Rotation *)

Section rotation.
Context (secret_key : text).

Definition _rotation_key : list Z := hmac_sha256 (utf8 secret_key) (utf8 (of_string "alpharouter extension token rotation")).

Definition _derive (label : string) (token : text) : text :=
  b64url (hmac_sha256 _rotation_key (utf8 (of_string label) ++ 0 :: utf8 token)).

Definition next_refresh (token : text) : text := REFRESH_TOKEN_PREFIX ++ _derive "refresh" token.

Definition next_access (token : text) (attempt : option text) : text :=
  ACCESS_TOKEN_PREFIX ++ match attempt with
  | None => _derive "access" token
  | Some attempt => _derive "access for attempt" (token ++ 0 :: attempt)
  end.

Definition next_pair (token : text) (attempt : option text) : text * text := (next_access token attempt, next_refresh token).

Fixpoint _successor_hashes (token : text) (steps : nat) : list text :=
  match steps with
  | O => []
  | S steps => let token := next_refresh token in token_hash token :: _successor_hashes token steps
  end.
End rotation.

(** ** PKCE *)

(** [re.match(r"^[...]{lo,hi}$", s)]: [$] also matches before a newline at the end. *)
Definition class_match (ok : Z -> bool) (lo hi : nat) (s : text) : bool :=
  let fits t := (lo <=? length t)%nat && (length t <=? hi)%nat && forallb ok t in
  fits s || match rev s with 10 :: t => fits (rev t) | _ => false end.

Definition _VERIFIER_RE : text -> bool := class_match (fun c => alnum c || one_char (of_string "-._~") c) 43 128.
Definition _CHALLENGE_RE : text -> bool := class_match (fun c => alnum c || one_char (of_string "_-") c) 43 43.

Definition pkce_challenge (verifier : text) : text := b64url (sha256_digest (utf8 verifier)).

Definition is_valid_challenge (challenge : text) : bool := negb (bool_decide (challenge = [])) && _CHALLENGE_RE challenge.

(** [hmac.compare_digest] refuses strings that are not ASCII. *)
Definition verify_pkce (verifier : option text) (challenge : text) : res bool :=
  match verifier with
  | Some verifier =>
      if bool_decide (verifier = []) || negb (_VERIFIER_RE verifier) then Ok false
      else if forallb (fun c => c <? 128) challenge then Ok (bool_decide (pkce_challenge verifier = challenge))
      else Raise (OtherError "TypeError")
  | None => Ok false
  end.

(** ** What a browser says of itself *)

Section names.
Context `{PyStr} `{PyCategory} `{PyRe}.

Definition rstrip (s : text) : text := rev (lstrip (rev s)).

Definition clean_device_name (raw : option text) : text :=
  let t := (fun c => if py_isspace c then 32 else c) <$>
    filter (fun c => py_isspace c = true \/ category_c c = false) (default [] raw) in
  rstrip (take DEVICE_NAME_MAX_CHARS (join_space (split_ws [] t))).

Definition _VERSION_RE : re :=
  let number := Times 1 8 (Chr re_digit) in Then number (Times 0 3 (Then (Chr (Z.eqb 46)) number)).

Definition at_end (rest : text) : bool := match rest with [] | [10] => true | _ => false end.

Definition clean_extension_version (raw : option text) : option text :=
  let t := strip (default [] raw) in
  if bool_decide (t = []) || (EXTENSION_VERSION_MAX_CHARS <? length t)%nat || negb (matches _VERSION_RE None t (fun _ rest => at_end rest))
  then None else Some t.
End names.

(** [(value or "")[:n] or None] *)
Definition clipped (n : nat) (value : option text) : option text :=
  match take n (default [] value) with [] => None | t => Some t end.

(** ** Codes *)

Inductive redis_answer := RedisDone | RedisLost | RedisDown.

Definition _code_key (code : text) : text := of_string "ext:code:" ++ token_hash code.

Definition code_payload (user version : Z) (redirect_uri code_challenge : text) : json :=
  JObj [(of_string "user_id", JInt user); (of_string "token_version", JInt version);
        (of_string "redirect_uri", JStr redirect_uri); (of_string "code_challenge", JStr code_challenge)].

(** [wall] is redis's clock and [mono] the process's. *)
Definition create_auth_code (user version : Z) (redirect_uri code_challenge code : text) (answer : redis_answer) (wall mono : Z)
    : op Server text := fun s =>
  let payload := json_dumps (code_payload user version redirect_uri code_challenge) in
  let redis := match answer with
    | RedisDown => redis_codes s
    | _ => <[_code_key code := (payload, wall + seconds CODE_TTL_SECONDS)]> (redis_codes s)
    end in
  match answer with
  | RedisDone => (Ok code, set_codes redis (mem_codes s) s)
  | _ =>
      let kept := filter (fun kv => mono < kv.2.2) (mem_codes s) in
      (Ok code, set_codes redis (<[_code_key code := (payload, mono + seconds CODE_TTL_SECONDS)]> kept) s)
  end.

Section codes.
Context `{PyFloat} `{PyRepr} `{PyInt}.

(** Redis's GET and DEL of one key, in one transaction. *)
Definition redis_take (key : text) (answer : redis_answer) (wall : Z) : op Server (option text) := fun s =>
  match answer with
  | RedisDown => (Ok None, s)
  | _ =>
      let found := match redis_codes s !! key with Some (payload, expires) => if wall <? expires then Some payload else None | None => None end in
      (Ok (match answer with RedisDone => found | _ => None end), set_codes (delete key (redis_codes s)) (mem_codes s) s)
  end.

Definition mem_take (key : text) (mono : Z) : op Server (option text) := fun s =>
  (Ok (match mem_codes s !! key with Some (payload, expires) => if expires <=? mono then None else Some payload | None => None end),
   set_codes (redis_codes s) (delete key (mem_codes s)) s).

Definition consume_auth_code (code : option text) (answer : redis_answer) (wall mono : Z) : op Server (option (list (text * json))) :=
  match code with
  | None | Some [] => mret None
  | Some code =>
      raw ← redis_take (_code_key code) answer wall;
      raw ← (match raw with None | Some [] => mem_take (_code_key code) mono | _ => mret raw end);
      mret (match raw with Some raw => match loads raw with Some (JObj data) => Some data | _ => None end | None => None end)
  end.

Definition unknown_code : exn := _invalid_grant "The connect code is unknown, used or expired.".

Definition redeem_auth_code (code verifier redirect_uri : option text) (answer : redis_answer) (wall mono : Z) : op Server (Z * User) :=
  payload ← consume_auth_code code answer wall mono;
  match payload with
  | None => raise unknown_code
  | Some payload =>
      if match redirect_uri with
         | None | Some [] => true
         | Some uri => negb (bool_decide (field (of_string "redirect_uri") payload = Some (JStr uri)))
         end then raise (_invalid_grant "The connect code was issued for another address.")
      else
        verified ← lift (verify_pkce verifier (str_field "code_challenge" payload));
        if negb verified then raise (_invalid_grant "The code verifier does not match.")
        else
          match field (of_string "user_id") payload with
          | None => raise unknown_code
          | Some user =>
              match int_of user, int_or 0 (field (of_string "token_version") payload) with
              | Ok user_id, Ok issued_version =>
                  user ← gets (fun s => users s !! user_id);
                  match user with
                  | Some user =>
                      if bool_decide (u_deleted user <> None) || negb (u_active user) then
                        raise (_invalid_grant "This account cannot connect a browser.")
                      else if issued_version <? u_version user then
                        raise (_invalid_grant "You signed out after allowing this browser; connect it again.")
                      else mret (user_id, user)
                  | None => raise (_invalid_grant "This account cannot connect a browser.")
                  end
              | _, _ => raise unknown_code
              end
          end
  end.
End codes.

(** ** Sessions *)

Record TokenPair := MkTokenPair { tp_session : string; tp_access : text; tp_refresh : text; tp_expires : Z }.

(** The first row of a query on [extension_sessions]. *)
Definition session_where (P : ExtensionSession -> bool) (s : Server) : option (string * ExtensionSession) :=
  head (filter (fun kv => P kv.2 = true) (map_to_list (sessions s))).

(** The unique indexes on the two hashes. *)
Definition hashes_free (id : string) (row : ExtensionSession) (s : Server) : bool :=
  bool_decide (filter (fun kv => kv.1 <> id /\ (es_access kv.2 = es_access row \/ es_refresh kv.2 = es_refresh row))
    (map_to_list (sessions s)) = []).

Definition put_session (id : string) (row : ExtensionSession) : op Server unit := fun s =>
  if hashes_free id row s then (Ok tt, set_sessions <[id := row]> s) else (Raise (OtherError "IntegrityError"), s).

(** [UPDATE ... WHERE id = ... AND P]; whether the row was there. *)
Definition update_session (id : string) (P : ExtensionSession -> bool) (f : ExtensionSession -> ExtensionSession) : op Server bool := fun s =>
  match sessions s !! id with
  | Some row => if P row then (_ ← put_session id (f row); mret true) s else (Ok false, s)
  | None => (Ok false, s)
  end.

Definition revoked (row : ExtensionSession) : bool := bool_decide (es_revoked row <> None).

Definition es_end (now : Z) (reason : text) (row : ExtensionSession) : ExtensionSession :=
  MkExtensionSession (es_user row) (es_device row) (es_access row) (es_access_expires row) (es_refresh row) (es_prior row)
    (es_prior_until row) (es_refresh_expires row) (es_absolute row) (es_version row) (es_created row) (es_last_used row)
    (es_last_ip row) (es_agent row) (es_extension_version row) (Some now) (Some (take 32 reason)).

Definition es_rotate (access refresh presented : text) (absolute now : Z) (version : option text) (row : ExtensionSession) : ExtensionSession :=
  MkExtensionSession (es_user row) (es_device row) (token_hash access) (now + ACCESS_TOKEN_LIFETIME) (token_hash refresh)
    (Some presented) (Some (now + REFRESH_GRACE)) (Z.min (now + REFRESH_IDLE_LIFETIME) absolute) (es_absolute row) (es_version row)
    (es_created row) (es_last_used row) (es_last_ip row) (es_agent row)
    (match version with Some v => Some v | None => es_extension_version row end) (es_revoked row) (es_reason row).

Definition es_touch (now : Z) (ip : option text) (row : ExtensionSession) : ExtensionSession :=
  MkExtensionSession (es_user row) (es_device row) (es_access row) (es_access_expires row) (es_refresh row) (es_prior row)
    (es_prior_until row) (es_refresh_expires row) (es_absolute row) (es_version row) (es_created row) (Some now)
    (clipped 64 ip) (es_agent row) (es_extension_version row) (es_revoked row) (es_reason row).

Definition revoke_session (id : string) (reason : text) (user : option Z) (now : Z) : op Server bool :=
  update_session id (fun row => negb (revoked row) && match user with Some u => es_user row =? u | None => true end) (es_end now reason).

(** In a transaction of its own; [fails] when that transaction does. *)
Definition _revoke_now (id : string) (reason : text) (ip : option text) (fails : bool) (now : Z) : op Server unit := fun s =>
  if fails then (Ok tt, s)
  else match revoke_session id reason None now s with
  | (Ok ended, s') =>
      if ended && bool_decide (reason = REVOKED_REFRESH_REUSE) then
        let row := sessions s' !! id in
        let owner := row ← row; _ ← users s' !! es_user row; Some (es_user row) in
        let device := match row with Some row => JStr (es_device row) | None => JNull end in
        (Ok tt, log_event (MkSecurityEvent owner (clipped 64 ip) "extension_session_revoked" id
          (JObj [(of_string "reason", JStr reason); (of_string "device_name", device)])) s')
      else (Ok tt, s')
  | (Raise _, _) => (Ok tt, s)
  end.

Definition _session_is_open (row : ExtensionSession) (now : Z) : bool :=
  negb (revoked row) && (now <? es_absolute row) && (now <? es_refresh_expires row).

Definition _user_still_holds (row : ExtensionSession) (s : Server) : option User :=
  match users s !! es_user row with
  | Some user => if bool_decide (u_deleted user <> None) || (es_version row <? u_version user) then None else Some user
  | None => None
  end.

Definition _require_usable (id : string) (row : ExtensionSession) (fails : bool) (now : Z) : op Server unit :=
  if negb (_session_is_open row now) then raise (_invalid_grant "This browser's connection has ended.")
  else
    user ← gets (_user_still_holds row);
    match user with
    | None =>
        _ ← _revoke_now id REVOKED_TOKEN_VERSION None fails now;
        raise (_invalid_grant "You signed out; connect this browser again.")
    | Some _ => mret tt
    end.

Definition _answer_may_have_been_lost (row : ExtensionSession) (now : Z) (attempt : option text) : bool :=
  match es_prior_until row with
  | None => false
  | Some valid_until =>
      if now <=? valid_until then true
      else match attempt with
      | None => false
      | Some _ => match es_last_used row with None => true | Some used => used <=? valid_until - REFRESH_GRACE end
      end
  end.

Section service.
Context `{PyStr} `{PyCategory} `{PyRe} (secret_key : text).

Definition create_session (user_id : Z) (user : User) (device user_agent ip version : option text) (new_id : string)
    (access_draw refresh_draw : text) (now : Z) : op Server TokenPair := fun s =>
  let access := ACCESS_TOKEN_PREFIX ++ access_draw in
  let refresh := REFRESH_TOKEN_PREFIX ++ refresh_draw in
  let absolute := now + SESSION_MAX_LIFETIME in
  let row := MkExtensionSession user_id (clean_device_name device) (token_hash access) (now + ACCESS_TOKEN_LIFETIME)
        (token_hash refresh) None None (Z.min (now + REFRESH_IDLE_LIFETIME) absolute) absolute (u_version user) now (Some now)
        (clipped 64 ip) (clipped USER_AGENT_MAX_CHARS user_agent) (clean_extension_version version) None None in
  match sessions s !! new_id with
  | Some _ => (Raise (OtherError "IntegrityError"), s)
  | None => (_ ← put_session new_id row; mret (MkTokenPair new_id access refresh _ACCESS_SECONDS)) s
  end.

Definition _session_of_an_older_token (token : text) (s : Server) : option (string * ExtensionSession) :=
  let hashes := _successor_hashes secret_key token REUSE_LOOKBACK in
  session_where (fun row => negb (revoked row) &&
    (bool_decide (es_refresh row ∈ hashes) || match es_prior row with Some h => bool_decide (h ∈ hashes) | None => false end)) s.

(** What one pass of [refresh_session] meets: its two clock readings, what other
    requests commit between its first query and the rest, and whether ending a
    session fails. *)
Record Pass := MkPass { p_check : Z; p_now : Z; p_race : Server -> Server; p_fails : bool }.

Definition stolen (id : string) (ip : option text) (p : Pass) : op Server TokenPair :=
  _ ← _revoke_now id REVOKED_REFRESH_REUSE ip (p_fails p) (p_now p);
  raise (_invalid_grant "This browser's connection was ended for safety.").

(** The token is not the current one of any session. *)
Definition refresh_replaced (token : text) (attempt ip : option text) (p : Pass) : op Server TokenPair :=
  let presented := token_hash token in
  let '(access, refresh) := next_pair secret_key token attempt in
  replaced ← gets (session_where (fun row => bool_decide (es_prior row = Some presented)));
  match replaced with
  | None =>
      older ← gets (_session_of_an_older_token token);
      match older with
      | Some (id, _) => stolen id ip p
      | None => raise (_invalid_grant "Unknown refresh token.")
      end
  | Some (id, row) =>
      if revoked row then raise (_invalid_grant "Unknown refresh token.")
      else if negb (_answer_may_have_been_lost row (p_now p) attempt) then stolen id ip p
      else
        _ ← _require_usable id row (p_fails p) (p_now p);
        if bool_decide ((es_access row, es_refresh row) = (token_hash access, token_hash refresh)) then
          mret (MkTokenPair id access refresh (Z.max 0 (Z.quot (es_access_expires row - p_now p) 1000000)))
        else stolen id ip p
  end.

Fixpoint refresh_tries (n : nat) (token : text) (attempt ip version : option text) (pass : nat -> Pass) : op Server TokenPair :=
  match n with
  | O => raise (_invalid_grant "The connection changed while it was being refreshed; try again.")
  | S n =>
      let p := pass n in
      let presented := token_hash token in
      let '(access, refresh) := next_pair secret_key token attempt in
      current ← gets (session_where (fun row => bool_decide (es_refresh row = presented)));
      match current with
      | Some (id, row) =>
          _ ← _require_usable id row (p_fails p) (p_check p);
          _ ← modify (p_race p);
          written ← update_session id (fun live => negb (revoked live) && bool_decide (es_refresh live = presented))
                      (es_rotate access refresh presented (es_absolute row) (p_now p) (clean_extension_version version));
          if written : bool then mret (MkTokenPair id access refresh _ACCESS_SECONDS)
          else refresh_tries n token attempt ip version pass
      | None =>
          _ ← modify (p_race p);
          refresh_replaced token attempt ip p
      end
  end.

Definition refresh_session (token attempt ip version : option text) (pass : nat -> Pass) : op Server TokenPair :=
  match token with
  | Some token =>
      if starts_with REFRESH_TOKEN_PREFIX token then refresh_tries 3 token attempt ip version pass
      else raise (_invalid_grant "Unknown refresh token.")
  | None => raise (_invalid_grant "Unknown refresh token.")
  end.
End service.

Definition authenticate (token : text) (fails : bool) (now : Z) : op Server (string * ExtensionSession * User) :=
  session ← gets (session_where (fun row => bool_decide (es_access row = token_hash token)));
  match session with
  | None => raise (ExtensionTokenError "invalid_token" "Unknown access token.")
  | Some (id, row) =>
      if revoked row then raise (ExtensionTokenError "revoked" "This browser was disconnected.")
      else if es_absolute row <=? now then raise (ExtensionTokenError "revoked" "This browser's connection has ended; connect it again.")
      else if es_access_expires row <=? now then raise (ExtensionTokenError "expired" "The access token has expired.")
      else
        user ← gets (_user_still_holds row);
        match user with
        | None =>
            _ ← _revoke_now id REVOKED_TOKEN_VERSION None fails now;
            raise (ExtensionTokenError "revoked" "You signed out; connect this browser again.")
        | Some user => mret (id, row, user)
        end
  end.

Definition needs_touch (row : ExtensionSession) (now : Z) : bool :=
  match es_last_used row with None => true | Some used => used <? now - TOUCH_INTERVAL end.

(** Beside the request; a failure is swallowed. *)
Definition touch_session (id : string) (ip : option text) (fails : bool) (now : Z) : op Server unit := fun s =>
  if fails then (Ok tt, s)
  else match update_session id (fun row => needs_touch row now) (es_touch now ip) s with
  | (Ok _, s') => (Ok tt, s')
  | (Raise _, _) => (Ok tt, s)
  end.

(** ** Lists and upkeep *)

Definition newest_first (a b : string * ExtensionSession) : Prop :=
  es_created b.2 < es_created a.2 \/ es_created b.2 = es_created a.2 /\ String.leb a.1 b.1 = true.

#[export] Instance newest_first_dec : RelDecision newest_first.
Proof. intros a b. unfold newest_first. apply _. Defined.

Definition connected (now : Z) (row : ExtensionSession) : bool :=
  negb (revoked row) && (now <? es_refresh_expires row) && (now <? es_absolute row).

Definition list_sessions (user_id : Z) (user : User) (now : Z) (s : Server) : list (string * ExtensionSession) :=
  merge_sort newest_first (filter (fun kv => (es_user kv.2 =? user_id) && connected now kv.2 && (u_version user <=? es_version kv.2) = true)
    (map_to_list (sessions s))).

Definition open_sessions (now : Z) (s : Server) : list (string * ExtensionSession) :=
  take 5000 (merge_sort newest_first (filter (fun kv => connected now kv.2 = true) (map_to_list (sessions s)))).

Definition ended (cutoff : Z) (row : ExtensionSession) : bool :=
  match es_revoked row with Some t => t <? cutoff | None => false end || (es_refresh_expires row <? cutoff) || (es_absolute row <? cutoff).

(** One batch at a time; [between] is what others commit after a batch. *)
Fixpoint purge_batches (fuel : nat) (cutoff : Z) (between : nat -> Server -> Server) (deleted : nat) : op Server nat :=
  match fuel with
  | O => raise (OtherError "out of fuel")
  | S fuel =>
      ids ← gets (fun s => take _PURGE_BATCH (filter (fun kv => ended cutoff kv.2 = true) (map_to_list (sessions s))).*1);
      match ids with
      | [] => mret deleted
      | _ =>
          _ ← modify (set_sessions (filter (fun kv => kv.1 ∉ ids)));
          _ ← modify (between fuel);
          let deleted := (deleted + length ids)%nat in
          if (length ids <? _PURGE_BATCH)%nat then mret deleted else purge_batches fuel cutoff between deleted
      end
  end.

Definition purge_ended_sessions (fuel : nat) (between : nat -> Server -> Server) (now : Z) : op Server nat :=
  purge_batches fuel (now - ENDED_SESSION_RETENTION) between 0.

Definition revoke_all_sessions (reason : text) (now : Z) : op Server nat := fun s =>
  let live := filter (fun kv : string * ExtensionSession => revoked kv.2 = false) (sessions s) in
  (Ok (size live), set_sessions (fmap (fun row => if revoked row then row else es_end now reason row)) s).

(** ** The callers *)

Section callers.
Context `{PyStr} `{PyCategory} `{PyRe} `{PyFloat} `{PyRepr} `{PyInt}.

(** [permitted] is whether the person may use the extension ([extension_permitted]). *)
Definition _exchange_code (code verifier redirect_uri device user_agent ip version : option text) (permitted : Z -> bool) (refusal : string)
    (answer : redis_answer) (wall mono : Z) (new_id : string) (access_draw refresh_draw : text) (now : Z) : op Server TokenPair :=
  let missing (o : option text) := bool_decide (default [] o = []) in
  if missing code || missing verifier || missing redirect_uri then
    raise (ExtensionTokenError "invalid_request" "code, code_verifier and redirect_uri are required.")
  else
    '(user_id, user) ← redeem_auth_code code verifier redirect_uri answer wall mono;
    if negb (permitted user_id) then raise (ExtensionTokenError "not_permitted" refusal)
    else
      pair ← create_session user_id user device user_agent ip version new_id access_draw refresh_draw now;
      _ ← modify (log_event (MkSecurityEvent (Some user_id) (clipped 64 ip) "extension_connected" (tp_session pair)
            (JObj [(of_string "device_name", JStr (clean_device_name device))])));
      mret pair.

Definition _disconnect (user_id : Z) (id : string) (ip : option text) (from : text) (now : Z) : op Server bool :=
  row ← gets (fun s => sessions s !! id);
  match row with
  | Some row =>
      if negb (es_user row =? user_id) then mret false
      else
        ended ← revoke_session id REVOKED_BY_USER (Some user_id) now;
        if negb ended then mret false
        else
          _ ← modify (log_event (MkSecurityEvent (Some user_id) (clipped 64 ip) "extension_disconnected" id
                (JObj [(of_string "device_name", JStr (es_device row)); (of_string "from", JStr from)])));
          mret true
  | None => mret false
  end.
End callers.

Definition EXTENSION_SCOPE : list (string * string) :=
  [("GET", "/api/chat/models"); ("POST", "/api/chat/completions"); ("POST", "/api/chat/session-title");
   ("POST", "/api/chat/attachments/process"); ("POST", "/api/user/chats/sessions"); ("PATCH", "/api/user/chats/sessions/{session_id}");
   ("POST", "/api/user/chat-sessions/{session_id}/cancel-stream"); ("GET", "/api/extension/me"); ("POST", "/api/extension/revoke");
   ("POST", "/api/extension/events"); ("POST", "/api/extension/review-action"); ("POST", "/api/extension/runs")]%string.

Definition EXTENSION_UNGATED : list (string * string) := [("GET", "/api/extension/me"); ("POST", "/api/extension/revoke")]%string.

(** Who a request with an extension's access token is for, its session, and
    whether its use is to be recorded.  [route] is the method and template. *)
Definition _extension_user (route : option (string * string)) (token : text) (permitted : Z -> bool) (refusal : string) (fails : bool)
    (now : Z) : op Server (Z * string * bool) := fun s =>
  match authenticate token fails now s with
  | (Raise (OtherError e), s) => (Raise (HTTPException 401 e), s)
  | (Raise e, s) => (Raise e, s)
  | (Ok (id, row, user), s) =>
      match route with
      | Some key =>
          if negb (bool_decide (key ∈ EXTENSION_SCOPE)) then
            (Raise (HTTPException 403 "extension_scope: The browser extension cannot use this endpoint."), s)
          else if negb (bool_decide (key ∈ EXTENSION_UNGATED)) && negb (u_active user) then
            (Raise (HTTPException 403 "account_disabled: Your account is disabled."), s)
          else if negb (bool_decide (key ∈ EXTENSION_UNGATED)) && negb (permitted (es_user row)) then
            (Raise (HTTPException 403 ("extension_not_permitted: " +:+ refusal)), s)
          else (Ok (es_user row, id, needs_touch row now), s)
      | None => (Raise (HTTPException 403 "extension_scope: The browser extension cannot use this endpoint."), s)
      end
  end.
