(* ===== verification/BrowsersFacts.v ===== *)
(** * Refreshing a connected browser

    The tokens of a session never fork; a retry gets the same pair; a spent token
    that comes back ends the session.  First the rows of [extension_sessions] and
    what its unique indexes give. *)

From S2P Require Import Prelude Text Json JsonParse PyText Regex Crypto Browsers.

#[local] Open Scope Z_scope.

(** ** Rows *)

Lemma session_where_Some P s id row : session_where P s = Some (id, row) -> sessions s !! id = Some row /\ P row = true.
Proof. unfold session_where. intros [Hp Hin%elem_of_map_to_list]%head_Some_elem_of%list_elem_of_filter. done. Qed.

Lemma session_where_None P s : session_where P s = None -> forall id row, sessions s !! id = Some row -> P row = false.
Proof.
  unfold session_where. intros Hn%head_None id row Hr. destruct (P row) eqn:Hp; [|done].
  assert ((id, row) ∈ filter (fun kv : string * ExtensionSession => P kv.2 = true) (map_to_list (sessions s))) as Hin
    by (apply list_elem_of_filter; split; [done|by apply elem_of_map_to_list]).
  rewrite Hn in Hin. by apply not_elem_of_nil in Hin.
Qed.

(** The row a query finds when no other satisfies it. *)
Lemma session_where_only P s id row :
  sessions s !! id = Some row -> P row = true -> (forall j r, sessions s !! j = Some r -> P r = true -> j = id) ->
  session_where P s = Some (id, row).
Proof.
  intros Hr Hp Ho. destruct (session_where P s) as [[j r]|] eqn:Hw.
  - apply session_where_Some in Hw as [Hj Hpj]. assert (j = id) as -> by by eapply Ho. congruence.
  - by rewrite (session_where_None _ _ Hw _ _ Hr) in Hp.
Qed.

Lemma session_where_empty P s : (forall id row, sessions s !! id = Some row -> P row = false) -> session_where P s = None.
Proof.
  intros Hn. destruct (session_where P s) as [[j r]|] eqn:Hw; [|done]. apply session_where_Some in Hw as [Hj Hp].
  by rewrite (Hn _ _ Hj) in Hp.
Qed.

(** The two unique indexes. *)
Definition tokens_unique (s : Server) : Prop := forall i j a b, sessions s !! i = Some a -> sessions s !! j = Some b ->
  es_access a = es_access b \/ es_refresh a = es_refresh b -> i = j.

Lemma hashes_free_spec id row s : hashes_free id row s = true <->
  forall j r, sessions s !! j = Some r -> es_access r = es_access row \/ es_refresh r = es_refresh row -> j = id.
Proof.
  unfold hashes_free. rewrite bool_decide_eq_true. split.
  - intros Hn j r Hj Hh. destruct (decide (j = id)) as [|Hne]; [done|]. exfalso. apply (not_elem_of_nil (j, r)). rewrite <- Hn.
    apply list_elem_of_filter. split; [by split|]. by apply elem_of_map_to_list.
  - intros Ha. apply filter_none, Forall_forall. intros [j r] Hin%elem_of_map_to_list [Hne Hh]. by apply Hne, (Ha j r).
Qed.

Lemma hashes_free_set id row s : hashes_free id row s = true -> tokens_unique s -> tokens_unique (set_sessions <[id := row]> s).
Proof.
  rewrite hashes_free_spec. intros Hf Hu i j a b. simpl. rewrite !lookup_insert. repeat case_decide; subst; intros Ha Hb Hh; simplify_eq.
  - done.
  - symmetry. apply (Hf j b Hb). destruct Hh; [left|right]; congruence.
  - by apply (Hf i a Ha).
  - by eapply Hu.
Qed.

Lemma hashes_free_same id row new s :
  tokens_unique s -> sessions s !! id = Some row -> es_access new = es_access row -> es_refresh new = es_refresh row -> hashes_free id new s = true.
Proof. intros Hu Hr Ha He. apply hashes_free_spec. intros j r Hj Hh. rewrite Ha, He in Hh. by eapply Hu. Qed.

Lemma update_session_inv id P f s b s' : update_session id P f s = (Ok b, s') ->
  if b : bool then exists row, sessions s !! id = Some row /\ P row = true /\ hashes_free id (f row) s = true /\ s' = set_sessions <[id := f row]> s
  else s' = s.
Proof.
  unfold update_session. destruct (sessions s !! id) as [row|]; [|by intros [= <- <-]]. destruct (P row) eqn:Hp; [|by intros [= <- <-]].
  unfold mbind, op_bind, put_session. destruct (hashes_free id (f row) s) eqn:Hf; [|done]. intros [= <- <-]. by exists row.
Qed.

Lemma update_session_ok id P f s row :
  sessions s !! id = Some row -> P row = true -> hashes_free id (f row) s = true ->
  update_session id P f s = (Ok true, set_sessions <[id := f row]> s).
Proof. intros Hr Hp Hf. unfold update_session. rewrite Hr, Hp. unfold mbind, op_bind, put_session. by rewrite Hf. Qed.

Lemma update_session_keeps id P f s : tokens_unique s -> tokens_unique (update_session id P f s).2.
Proof.
  intros Hu. unfold update_session. destruct (sessions s !! id) as [row|]; [|done]. destruct (P row); [|done].
  unfold mbind, op_bind, put_session. destruct (hashes_free id (f row) s) eqn:Hf; [|done]. by apply hashes_free_set.
Qed.

(** Ending a session ends it: the row is as it was, but revoked; a stolen token is logged. *)
Lemma revoke_ends id reason ip now s row :
  tokens_unique s -> sessions s !! id = Some row -> revoked row = false ->
  exists s', _revoke_now id reason ip false now s = (Ok tt, s') /\ sessions s' = <[id := es_end now reason row]> (sessions s) /\
    users s' = users s /\
    (reason = REVOKED_REFRESH_REUSE -> exists e, security_log s' = security_log s ++ [e] /\ sv_resource e = id /\ sv_ip e = clipped 64 ip).
Proof.
  intros Hu Hr Hn. unfold _revoke_now, revoke_session.
  rewrite (update_session_ok _ _ _ _ row); [|done|by rewrite Hn|by eapply hashes_free_same]. simpl. case_bool_decide.
  - eexists. split_and!; [done..|]. intros _. by eexists.
  - eexists. by split_and!.
Qed.

(** A session that no token opens any more, from [now] on. *)
Definition closed_from (now : Z) (row : ExtensionSession) : Prop := forall t, now <= t -> _session_is_open row t = false.

Lemma ended_closed now t reason row : closed_from t (es_end now reason row).
Proof. by intros u _. Qed.

Lemma not_open_closed now row : _session_is_open row now = false -> closed_from now row.
Proof.
  unfold closed_from, _session_is_open. intros Hn t Ht. destruct (negb (revoked row)); [|done]. simpl in *.
  apply andb_false_iff in Hn as [Hn|Hn]; apply Z.ltb_ge in Hn; apply andb_false_iff; [left|right]; apply Z.ltb_ge; lia.
Qed.

(** ** Refreshing *)

Lemma require_usable_inv id row fails now s u s' :
  _require_usable id row fails now s = (Ok u, s') -> s' = s /\ _session_is_open row now = true /\ is_Some (_user_still_holds row s).
Proof.
  unfold _require_usable. destruct (_session_is_open row now) eqn:Ho; [|done]. intros Hr.
  apply op_bind_inv in Hr as (user & s1 & [= <- <-] & Hr). destruct (_user_still_holds row s); [by injection Hr as _ <-|].
  by apply op_bind_inv in Hr as (? & ? & _ & ?).
Qed.

Lemma require_usable_ok id row fails now s :
  _session_is_open row now = true -> is_Some (_user_still_holds row s) -> _require_usable id row fails now s = (Ok tt, s).
Proof. intros Ho [user Hu]. unfold _require_usable. rewrite Ho. simpl. unfold mbind, op_bind, gets. by rewrite Hu. Qed.

Lemma stolen_raises id ip p s a s' : stolen id ip p s <> (Ok a, s').
Proof. unfold stolen. intros Hs. by apply op_bind_inv in Hs as (? & ? & _ & ?). Qed.

Section refreshing.
Context `{PyStr} `{PyCategory} `{PyRe} (secret_key : text).
Implicit Types (token : text) (attempt ip version : option text) (s : Server) (row : ExtensionSession).

(** The row of a session holds the pair that spending [token] in [attempt] gave. *)
Record pair_is_current token attempt (pair : TokenPair) row : Prop := {
  pc_pair : (tp_access pair, tp_refresh pair) = next_pair secret_key token attempt;
  pc_access : es_access row = token_hash (tp_access pair);
  pc_refresh : es_refresh row = token_hash (tp_refresh pair);
  pc_prior : es_prior row = Some (token_hash token);
  pc_live : revoked row = false
}.

Lemma refresh_replaced_inv token attempt ip p s pair s' :
  refresh_replaced secret_key token attempt ip p s = (Ok pair, s') ->
  s' = s /\ exists row, sessions s !! tp_session pair = Some row /\ pair_is_current token attempt pair row.
Proof.
  unfold refresh_replaced. destruct (next_pair secret_key token attempt) as [access refresh] eqn:Hn. intros Hr.
  apply op_bind_inv in Hr as (found & s1 & Hf & Hr). injection Hf as Hf <-. destruct found as [[id row]|].
  - apply session_where_Some in Hf as [Hrow Hp%bool_decide_eq_true]. destruct (revoked row) eqn:Hv; [done|].
    destruct (negb _); [by apply stolen_raises in Hr|]. apply op_bind_inv in Hr as (u & s1 & Hu & Hr).
    apply require_usable_inv in Hu as (-> & _). case_bool_decide as Heq; [|by apply stolen_raises in Hr].
    injection Hr as <- <-. injection Heq as Ha He. split; [done|]. exists row. split; [done|]. by split.
  - apply op_bind_inv in Hr as (older & s1 & Ho & Hr). injection Ho as Ho <-. destruct older as [[id row]|]; [by apply stolen_raises in Hr|done].
Qed.

Lemma refresh_tries_inv n token attempt ip version pass s pair s' :
  (forall i x, tokens_unique x -> tokens_unique (p_race (pass i) x)) -> tokens_unique s ->
  refresh_tries secret_key n token attempt ip version pass s = (Ok pair, s') ->
  tokens_unique s' /\ exists row, sessions s' !! tp_session pair = Some row /\ pair_is_current token attempt pair row.
Proof.
  intros Hrace. revert s. induction n as [|n IH]; intros s Hu Hr; cbn [refresh_tries] in Hr; [done|].
  destruct (next_pair secret_key token attempt) as [access refresh] eqn:Hn.
  apply op_bind_inv in Hr as (found & s1 & Hf & Hr). injection Hf as Hf <-. destruct found as [[id row]|].
  - apply op_bind_inv in Hr as (u & s1 & Hus & Hr). apply require_usable_inv in Hus as (-> & _).
    apply op_bind_inv in Hr as (u' & s1 & [= _ <-] & Hr). apply op_bind_inv in Hr as (b & s1 & Hw & Hr).
    apply update_session_inv in Hw. destruct b; [|subst s1; by apply (IH _ (Hrace n s Hu))].
    destruct Hw as (live & Hl & [Hv%negb_true_iff He%bool_decide_eq_true]%andb_true_iff & Hfree & ->). injection Hr as <- <-.
    split; [by apply hashes_free_set, Hrace|]. eexists. split; [apply lookup_insert_eq|]. by split.
  - apply op_bind_inv in Hr as (u' & s1 & [= _ <-] & Hr). apply refresh_replaced_inv in Hr as [-> Hrow].
    split; [by apply Hrace|done].
Qed.

Lemma authenticate_current token s id row user fails now :
  tokens_unique s -> sessions s !! id = Some row -> es_access row = token_hash token -> revoked row = false ->
  now < es_absolute row -> now < es_access_expires row -> _user_still_holds row s = Some user ->
  authenticate token fails now s = (Ok (id, row, user), s).
Proof.
  intros Hu Hr Ha Hv Hab Hex Huser. unfold authenticate, mbind, op_bind, gets.
  rewrite (session_where_only _ s id row); [|done|by apply bool_decide_eq_true|].
  - rewrite Hv. rewrite (proj2 (Z.leb_gt _ _)) by done. rewrite (proj2 (Z.leb_gt _ _)) by done. by rewrite Huser.
  - intros j r Hj Hp%bool_decide_eq_true. eapply (Hu j id); [exact Hj|exact Hr|left; congruence].
Qed.

(** C25: a session never forks.  Whatever other requests commit meanwhile, the pair
    a refresh answers is the pair the session's row holds when it answers, and
    the one that spending this token in this attempt always gives: so two
    answers of a session are the same pair or the older one no longer works.
    The access token answered is accepted from then on, until it expires. *)
Theorem refresh_never_forks token attempt ip version pass s pair s' :
  tokens_unique s -> (forall i x, tokens_unique x -> tokens_unique (p_race (pass i) x)) ->
  refresh_session secret_key (Some token) attempt ip version pass s = (Ok pair, s') ->
  tokens_unique s' /\ exists row, sessions s' !! tp_session pair = Some row /\ pair_is_current token attempt pair row /\
    forall fails now user, now < es_absolute row -> now < es_access_expires row -> _user_still_holds row s' = Some user ->
      authenticate (tp_access pair) fails now s' = (Ok (tp_session pair, row, user), s').
Proof.
  intros Hu Hrace. unfold refresh_session. destruct (starts_with _ _); [|done]. intros Hr.
  destruct (refresh_tries_inv _ _ _ _ _ _ _ _ _ Hrace Hu Hr) as [Hu' (row & Hrow & Hpair)]. split; [done|]. exists row. split; [done|].
  split; [done|]. intros fails now user Hab Hex Huser. by eapply authenticate_current; try done; destruct Hpair.
Qed.

(** *** Spent tokens *)

(** [presented] is the hash of the token that session [id] last replaced, and of no other. *)
Record replaced_in s id row (presented : text) : Prop := {
  ri_row : sessions s !! id = Some row;
  ri_prior : es_prior row = Some presented;
  ri_only : forall j r, sessions s !! j = Some r -> es_prior r = Some presented -> j = id;
  ri_spent : forall j r, sessions s !! j = Some r -> es_refresh r <> presented
}.

Lemma refresh_of_replaced token attempt ip version pass s id row :
  starts_with REFRESH_TOKEN_PREFIX token = true -> p_race (pass 2%nat) s = s -> replaced_in s id row (token_hash token) ->
  refresh_session secret_key (Some token) attempt ip version pass s = refresh_replaced secret_key token attempt ip (pass 2%nat) s.
Proof.
  intros Hp Hq [Hr Hpr Ho Hs]. unfold refresh_session. rewrite Hp. cbn [refresh_tries].
  destruct (next_pair secret_key token attempt) as [access refresh]. erewrite op_bind_ok; [|reflexivity].
  rewrite session_where_empty by (intros j r Hj; apply bool_decide_eq_false; by eapply Hs). erewrite op_bind_ok; [|reflexivity]. by rewrite Hq.
Qed.

Lemma replaced_found s id row presented : replaced_in s id row presented ->
  session_where (fun row => bool_decide (es_prior row = Some presented)) s = Some (id, row).
Proof.
  intros [Hr Hp Ho _]. apply session_where_only; [done|by apply bool_decide_eq_true|]. intros j r Hj Hd%bool_decide_eq_true. by eapply Ho.
Qed.
End refreshing.

Section rotating.
Context `{PyStr} `{PyCategory} `{PyRe} (secret_key : text).

(** A refresh goes through: the current token of an open session whose owner is
    still signed in, presented while nobody else uses the session, is traded for
    the next pair; the session keeps its end, is open as long as that has not
    come, and the access token works for its whole lifetime from now on. *)
Theorem refresh_rotates token attempt ip version pass s id row :
  tokens_unique s -> starts_with REFRESH_TOKEN_PREFIX token = true -> sessions s !! id = Some row -> es_refresh row = token_hash token ->
  p_race (pass 2%nat) s = s -> _session_is_open row (p_check (pass 2%nat)) = true -> is_Some (_user_still_holds row s) ->
  let now := p_now (pass 2%nat) in
  let access := next_access secret_key token attempt in
  let refresh := next_refresh secret_key token in
  let new := es_rotate access refresh (token_hash token) (es_absolute row) now (clean_extension_version version) row in
  hashes_free id new s = true ->
  refresh_session secret_key (Some token) attempt ip version pass s =
    (Ok (MkTokenPair id access refresh _ACCESS_SECONDS), set_sessions <[id := new]> s) /\
  es_absolute new = es_absolute row /\ es_access_expires new = now + _ACCESS_SECONDS * 1000000 /\
  forall t, _session_is_open new t = true <-> t < es_absolute row /\ t < now + REFRESH_IDLE_LIFETIME.
Proof.
  intros Hu Hpre Hrow Hrefresh Hq Hopen Huser now access refresh new Hfree.
  assert (Hv : revoked row = false) by (unfold _session_is_open in Hopen; by destruct (revoked row)). split_and!; [|done|done|].
  - unfold refresh_session. rewrite Hpre. cbn [refresh_tries]. unfold next_pair. cbn beta iota. erewrite op_bind_ok; [|reflexivity].
    rewrite (session_where_only _ s id row); [|done|by apply bool_decide_eq_true|].
    2:{ intros j r Hj Hp%bool_decide_eq_true. eapply (Hu j id); [exact Hj|exact Hrow|right; congruence]. }
    erewrite op_bind_ok; [|by apply require_usable_ok]. erewrite op_bind_ok; [|reflexivity]. rewrite Hq.
    erewrite op_bind_ok; [|apply (update_session_ok _ _ _ _ row); [done| |exact Hfree]]; [done|].
    rewrite Hv. by apply bool_decide_eq_true.
  - intros t. unfold _session_is_open. change (revoked new) with (revoked row). rewrite Hv. cbn [negb andb].
    rewrite andb_true_iff, !Z.ltb_lt. cbn [new es_rotate es_absolute es_refresh_expires]. lia.
Qed.
End rotating.

Section spent.
Context `{PyStr} `{PyCategory} `{PyRe} (secret_key : text).
Implicit Types (token : text) (attempt ip version : option text) (s : Server) (row : ExtensionSession).

(** A retry gets the very pair its first try got: a refresh with the same token
    and attempt, while nothing rotated the session since, answers the same
    tokens of the same session and writes nothing, however often it comes,
    within the grace or, for an extension that names its attempts, until the new
    access token is seen in use. *)
Theorem refresh_retry_same_pair token attempt ip version pass ip' version' pass' s0 pair s1 s row1 row until :
  tokens_unique s0 -> (forall i x, tokens_unique x -> tokens_unique (p_race (pass i) x)) ->
  refresh_session secret_key (Some token) attempt ip version pass s0 = (Ok pair, s1) -> sessions s1 !! tp_session pair = Some row1 ->
  replaced_in s (tp_session pair) row (token_hash token) -> es_access row = es_access row1 -> es_refresh row = es_refresh row1 ->
  _session_is_open row (p_now (pass' 2%nat)) = true -> is_Some (_user_still_holds row s) -> p_race (pass' 2%nat) s = s ->
  es_prior_until row = Some until ->
  p_now (pass' 2%nat) <= until \/ is_Some attempt /\ (forall used, es_last_used row = Some used -> used <= until - REFRESH_GRACE) ->
  exists expires, refresh_session secret_key (Some token) attempt ip' version' pass' s =
    (Ok (MkTokenPair (tp_session pair) (tp_access pair) (tp_refresh pair) expires), s).
Proof.
  intros Hu Hrace Hr Hrow1 Hri Ha He Hopen Huser Hq Huntil Hlost.
  destruct (starts_with REFRESH_TOKEN_PREFIX token) eqn:Hpre; [|unfold refresh_session in Hr; by rewrite Hpre in Hr].
  assert (Hpair : pair_is_current secret_key token attempt pair row1).
  { unfold refresh_session in Hr. rewrite Hpre in Hr. destruct (refresh_tries_inv _ _ _ _ _ _ _ _ _ _ Hrace Hu Hr) as [_ (row' & Hrow' & Hp)]. congruence. }
  rewrite (refresh_of_replaced _ _ _ _ _ _ _ _ row Hpre Hq Hri). unfold refresh_replaced. destruct Hpair as [Hn Hpa Hpr _ _]. rewrite <- Hn. cbn beta iota.
  erewrite op_bind_ok; [|reflexivity]. rewrite (replaced_found _ _ _ _ Hri). destruct (revoked row) eqn:Hv.
  { unfold _session_is_open in Hopen. by rewrite Hv in Hopen. }
  assert (_answer_may_have_been_lost row (p_now (pass' 2%nat)) attempt = true) as ->.
  { unfold _answer_may_have_been_lost. rewrite Huntil. destruct (Z.leb_spec (p_now (pass' 2%nat)) until); [done|].
    destruct Hlost as [|[[a ->] Hused]]; [lia|]. destruct (es_last_used row) as [used|]; [|done]. apply Z.leb_le. by apply Hused. }
  cbn [negb]. erewrite op_bind_ok; [|by apply require_usable_ok]. rewrite bool_decide_true by congruence. by eexists.
Qed.

Lemma stolen_ends id ip p s row now :
  tokens_unique s -> sessions s !! id = Some row -> revoked row = false -> p_fails p = false ->
  exists e s' row' event, stolen id ip p s = (Raise e, s') /\ sessions s' !! id = Some row' /\ closed_from now row' /\
    security_log s' = security_log s ++ [event] /\ sv_resource event = id /\ sv_ip event = clipped 64 ip.
Proof.
  intros Hu Hr Hn Hf. unfold stolen. rewrite Hf.
  destruct (revoke_ends id REVOKED_REFRESH_REUSE ip (p_now p) s row Hu Hr Hn) as (s' & Hs' & Hrows & _ & Hlog).
  destruct (Hlog eq_refl) as (event & Hev & Hid & Hip). eexists _, s', _, event. split_and!; [|by rewrite Hrows, lookup_insert_eq|apply ended_closed|done..].
  by erewrite op_bind_ok by done.
Qed.

(** A refresh token that was replaced ends the session when anyone but the
    refresh that replaced it presents it: another attempt (its access token would
    differ), or the same one after the grace once the new access token was used.
    The caller gets no token, and from then on no token of the session is
    accepted; when the session was still in use, the theft is logged with the
    caller's address. *)
Theorem replayed_token_ends_session token attempt ip version pass s id row :
  tokens_unique s -> starts_with REFRESH_TOKEN_PREFIX token = true -> p_race (pass 2%nat) s = s -> p_fails (pass 2%nat) = false ->
  replaced_in s id row (token_hash token) ->
  token_hash (next_access secret_key token attempt) <> es_access row \/
    _answer_may_have_been_lost row (p_now (pass 2%nat)) attempt = false ->
  exists e s' row', refresh_session secret_key (Some token) attempt ip version pass s = (Raise e, s') /\
    sessions s' !! id = Some row' /\ closed_from (p_now (pass 2%nat)) row' /\
    (_session_is_open row (p_now (pass 2%nat)) = true -> is_Some (_user_still_holds row s) ->
     exists event, security_log s' = security_log s ++ [event] /\ sv_resource event = id /\ sv_ip event = clipped 64 ip).
Proof.
  intros Hu Hpre Hq Hf Hri Hor. rewrite (refresh_of_replaced _ _ _ _ _ _ _ _ row Hpre Hq Hri). set (p := pass 2%nat) in *.
  pose proof (ri_row _ _ _ _ Hri) as Hrow. unfold refresh_replaced, next_pair. cbn beta iota. erewrite op_bind_ok; [|reflexivity].
  rewrite (replaced_found _ _ _ _ Hri). destruct (revoked row) eqn:Hv.
  { eexists _, s, row. split_and!; [done|done| |].
    - intros t _. unfold _session_is_open. by rewrite Hv.
    - unfold _session_is_open. by rewrite Hv. }
  assert (Hst : exists e s' row', stolen id ip p s = (Raise e, s') /\ sessions s' !! id = Some row' /\ closed_from (p_now p) row' /\
    (_session_is_open row (p_now p) = true -> is_Some (_user_still_holds row s) ->
     exists event, security_log s' = security_log s ++ [event] /\ sv_resource event = id /\ sv_ip event = clipped 64 ip)).
  { destruct (stolen_ends id ip p s row (p_now p) Hu Hrow Hv Hf) as (e & s' & row' & event & ? & ? & ? & ? & ? & ?).
    exists e, s', row'. split_and!; [done..|]. intros _ _. by exists event. }
  destruct (_answer_may_have_been_lost row (p_now p) attempt) eqn:Hl; [|done]. simpl.
  destruct (_session_is_open row (p_now p)) eqn:Ho.
  - destruct (_user_still_holds row s) as [user|] eqn:Hus.
    + erewrite op_bind_ok; [|apply require_usable_ok; [done|by eexists]]. rewrite bool_decide_false; [done|].
      intros [= Ha _]. by destruct Hor as [Hne|].
    + unfold _require_usable. rewrite Ho. destruct (revoke_ends id REVOKED_TOKEN_VERSION None (p_now p) s row Hu Hrow Hv) as (s' & Hs' & Hrows & _).
      eexists _, s', _. split_and!; [|by rewrite Hrows, lookup_insert_eq|apply ended_closed|by intros _ []].
      unfold mbind, op_bind, gets. simpl. rewrite Hus, Hf. by rewrite Hs'.
  - eexists _, s, row. split_and!; [|done|by apply not_open_closed|done]. unfold _require_usable. by rewrite Ho.
Qed.

Lemma successor_hashes_elem token steps h : h ∈ _successor_hashes secret_key token steps <->
  exists n, (1 <= n <= steps)%nat /\ h = token_hash (Nat.iter n (next_refresh secret_key) token).
Proof.
  revert token. induction steps as [|steps IH]; intros token; cbn [_successor_hashes].
  - split; [by intros ?%not_elem_of_nil|intros (n & Hn & _); lia].
  - rewrite elem_of_cons, IH. split.
    + intros [->|(n & Hn & ->)]; [exists 1%nat; split; [lia|done]|]. exists (S n). split; [lia|]. by rewrite <- Nat.iter_succ_r.
    + intros (n & Hn & ->). destruct n as [|[|n]]; [lia|by left|]. right. exists (S n). split; [lia|]. by rewrite Nat.iter_succ_r.
Qed.

(** A refresh token that a session spent up to [REUSE_LOOKBACK] rotations ago
    ends that session whenever it comes back, whoever presents it: the chain of
    rotations from it reaches the session's current or last replaced token. *)
Theorem old_token_ends_session token attempt ip version pass s id row n :
  tokens_unique s -> starts_with REFRESH_TOKEN_PREFIX token = true -> p_race (pass 2%nat) s = s -> p_fails (pass 2%nat) = false ->
  sessions s !! id = Some row -> revoked row = false -> (1 <= n <= REUSE_LOOKBACK)%nat ->
  (let h := token_hash (Nat.iter n (next_refresh secret_key) token) in es_refresh row = h \/ es_prior row = Some h) ->
  (forall j r, sessions s !! j = Some r -> es_refresh r <> token_hash token /\ es_prior r <> Some (token_hash token)) ->
  (forall j r m, sessions s !! j = Some r -> revoked r = false -> (1 <= m <= REUSE_LOOKBACK)%nat ->
    (let h := token_hash (Nat.iter m (next_refresh secret_key) token) in es_refresh r = h \/ es_prior r = Some h) -> j = id) ->
  exists e s' row' event, refresh_session secret_key (Some token) attempt ip version pass s = (Raise e, s') /\
    sessions s' !! id = Some row' /\ closed_from (p_now (pass 2%nat)) row' /\
    security_log s' = security_log s ++ [event] /\ sv_resource event = id /\ sv_ip event = clipped 64 ip.
Proof.
  intros Hu Hpre Hq Hf Hrow Hv Hn Hdesc Hspent Honly. unfold refresh_session. rewrite Hpre. cbn [refresh_tries]. unfold next_pair at 1. cbn beta iota.
  erewrite op_bind_ok; [|reflexivity]. rewrite session_where_empty by (intros j r Hj; apply bool_decide_eq_false; by apply (Hspent j r)).
  erewrite op_bind_ok; [|reflexivity]. rewrite Hq. unfold refresh_replaced, next_pair. cbn beta iota. erewrite op_bind_ok; [|reflexivity].
  rewrite session_where_empty by (intros j r Hj; apply bool_decide_eq_false; by apply (Hspent j r)).
  erewrite op_bind_ok; [|reflexivity]. unfold _session_of_an_older_token. rewrite (session_where_only _ s id row Hrow).
  - by apply stolen_ends with (row := row).
  - rewrite Hv. cbn [negb andb]. apply orb_true_iff. destruct Hdesc as [->| ->].
    + left. apply bool_decide_eq_true, successor_hashes_elem. by exists n.
    + right. apply bool_decide_eq_true, successor_hashes_elem. by exists n.
  - intros j r Hj [Hvr%negb_true_iff Hd]%andb_true_iff. apply orb_true_iff in Hd as [Hd|Hd].
    + apply bool_decide_eq_true, successor_hashes_elem in Hd as (m & Hm & Hh). apply (Honly j r m Hj Hvr Hm). by left.
    + destruct (es_prior r) as [h|] eqn:Hp; [|done]. apply bool_decide_eq_true, successor_hashes_elem in Hd as (m & Hm & ->).
      apply (Honly j r m Hj Hvr Hm). by right.
Qed.
End spent.

(** ** Witnesses *)

#[local] Instance browser_str : PyStr := ascii_str.
#[local] Instance browser_category : PyCategory := ascii_category.
#[local] Instance browser_re : PyRe := ascii_re.

Definition sample_key : text := of_string "secret".
Definition first_token : text := REFRESH_TOKEN_PREFIX ++ of_string "r".

(** Person 7's browser, connected at 0, its first refresh token not used yet. *)
Definition new_browser : ExtensionSession :=
  MkExtensionSession 7 (of_string "Chrome") (token_hash (ACCESS_TOKEN_PREFIX ++ of_string "a")) ACCESS_TOKEN_LIFETIME (token_hash first_token)
    None None REFRESH_IDLE_LIFETIME SESSION_MAX_LIFETIME 0 0 (Some 0) None None None None None.

Definition one_browser (row : ExtensionSession) : Server :=
  MkServer {["b"%string := row]} {[7 := MkUser true None 0]} [] ∅ ∅.

Definition quiet (now : Z) (i : nat) : Pass := MkPass now now (fun s => s) false.

(** What a browser holds after a refresh with [token] at [now]. *)
Definition refreshed (token : text) (now : Z) (row : ExtensionSession) : ExtensionSession :=
  es_rotate (next_access sample_key token None) (next_refresh sample_key token) (token_hash token) SESSION_MAX_LIFETIME now None row.

Definition first_pair : TokenPair :=
  MkTokenPair "b" (next_access sample_key first_token None) (next_refresh sample_key first_token) _ACCESS_SECONDS.

Definition once : ExtensionSession := refreshed first_token (seconds 60) new_browser.
Definition twice : ExtensionSession := refreshed (next_refresh sample_key first_token) (seconds 90) once.

Lemma one_row row id r : sessions (one_browser row) !! id = Some r -> id = "b"%string /\ r = row.
Proof. simpl. by intros [<- <-]%lookup_singleton_Some. Qed.

Lemma one_unique row : tokens_unique (one_browser row).
Proof. by intros i j a b [-> _]%one_row [-> _]%one_row. Qed.

Lemma first_refresh : refresh_session sample_key (Some first_token) None None None (quiet (seconds 60)) (one_browser new_browser) =
  (Ok first_pair, one_browser once).
Proof. vm_compute. reflexivity. Qed.

Lemma hashes_differ : token_hash (next_refresh sample_key first_token) <> token_hash first_token /\
  token_hash (next_refresh sample_key (next_refresh sample_key first_token)) <> token_hash first_token /\
  token_hash (next_access sample_key first_token (Some (of_string "other"))) <> token_hash (next_access sample_key first_token None).
Proof. vm_compute. by split_and!. Qed.

#[local] Opaque token_hash next_refresh next_access.

Lemma once_replaced : replaced_in (one_browser once) "b" once (token_hash first_token).
Proof.
  split; [reflexivity|reflexivity|intros j r [-> _]%one_row _; reflexivity|]. intros j r [_ ->]%one_row. exact (proj1 hashes_differ).
Qed.

Lemma refresh_never_forks_witness :
  authenticate (tp_access first_pair) false (seconds 61) (one_browser once) = (Ok ("b"%string, once, MkUser true None 0), one_browser once).
Proof.
  destruct (refresh_never_forks sample_key first_token None None None (quiet (seconds 60)) (one_browser new_browser) first_pair (one_browser once))
    as [_ (row & Hrow & _ & Hauth)]; [apply one_unique|by intros i x|apply first_refresh|].
  apply one_row in Hrow as [_ ->]. apply Hauth; reflexivity.
Defined.

Lemma refresh_rotates_witness :
  exists new, refresh_session sample_key (Some first_token) None None None (quiet (seconds 60)) (one_browser new_browser) =
    (Ok first_pair, set_sessions <["b"%string := new]> (one_browser new_browser)) /\ (_session_is_open new (days 30) = true <-> days 30 < SESSION_MAX_LIFETIME /\ days 30 < seconds 60 + REFRESH_IDLE_LIFETIME).
Proof.
  destruct (refresh_rotates sample_key first_token None None None (quiet (seconds 60)) (one_browser new_browser) "b" new_browser)
    as (Hr & _ & _ & Hopen); [apply one_unique|reflexivity|reflexivity|reflexivity|reflexivity|reflexivity|eexists; reflexivity| |].
  - apply hashes_free_spec. intros j r [-> _]%one_row _. reflexivity.
  - eexists. split; [exact Hr|exact (Hopen (days 30))].
Defined.

Lemma refresh_retry_same_pair_witness :
  exists expires, refresh_session sample_key (Some first_token) None None None (quiet (seconds 70)) (one_browser once) =
    (Ok (MkTokenPair "b" (tp_access first_pair) (tp_refresh first_pair) expires), one_browser once).
Proof.
  apply (refresh_retry_same_pair sample_key first_token None None None (quiet (seconds 60)) None None (quiet (seconds 70))
    (one_browser new_browser) first_pair (one_browser once) (one_browser once) once once (seconds 60 + REFRESH_GRACE)).
  - apply one_unique.
  - by intros i x.
  - apply first_refresh.
  - reflexivity.
  - apply once_replaced.
  - reflexivity.
  - reflexivity.
  - reflexivity.
  - by eexists.
  - reflexivity.
  - reflexivity.
  - left. vm_compute. discriminate.

Defined.

Lemma replayed_token_ends_session_witness :
  exists e s' row', refresh_session sample_key (Some first_token) (Some (of_string "other")) None None (quiet (seconds 70)) (one_browser once)
      = (Raise e, s') /\ sessions s' !! "b"%string = Some row' /\ closed_from (seconds 70) row' /\
    exists event, security_log s' = [event] /\ sv_resource event = "b"%string.
Proof.
  destruct (replayed_token_ends_session sample_key first_token (Some (of_string "other")) None None (quiet (seconds 70)) (one_browser once) "b" once)
    as (e & s' & row' & Hr & Hrow & Hc & Hlog); [apply one_unique|reflexivity|reflexivity|reflexivity|apply once_replaced|left; exact (proj2 (proj2 hashes_differ))|].
  exists e, s', row'. split; [exact Hr|split; [exact Hrow|split; [exact Hc|]]].
  destruct Hlog as (event & Hl & Hid & _); [reflexivity|eexists; reflexivity|]. exists event. split; [exact Hl|exact Hid].
Defined.

Lemma old_token_ends_session_witness :
  exists e s' row', refresh_session sample_key (Some first_token) None None None (quiet (days 20)) (one_browser twice) = (Raise e, s') /\
    sessions s' !! "b"%string = Some row' /\ closed_from (days 20) row'.
Proof.
  destruct (old_token_ends_session sample_key first_token None None None (quiet (days 20)) (one_browser twice) "b" twice 2)
    as (e & s' & row' & event & Hr & Hrow & Hc & _); [apply one_unique|reflexivity|reflexivity|reflexivity|reflexivity|reflexivity|unfold REUSE_LOOKBACK; lia|left; reflexivity| | |].
  - intros j r [_ ->]%one_row. split; [exact (proj1 (proj2 hashes_differ))|]. exact (fun He => proj1 hashes_differ (Some_inj _ _ He)).
  - intros j r m [-> _]%one_row _ _ _. reflexivity.
  - exists e, s', row'. split; [exact Hr|split; [exact Hrow|exact Hc]].
Defined.
