(* ===== verification/BrowsersTrace.v ===== *)
(** * What connected browsers rely on

    An ended session's tokens never work again, whatever is called; the nightly
    purge ends and deletes what it means to; and a connect code is redeemed by
    whom it was issued to, once, unless redis's answer to writing it was lost. *)

From S2P Require Import Prelude Text Json JsonParse PyText Regex Queue Crypto Browsers BrowsersFacts.

#[local] Open Scope Z_scope.

(** ** An ended session stays ended *)

Section ended.
Context `{PyStr} `{PyCategory} `{PyRe} `{PyFloat} `{PyRepr} `{PyInt} (secret_key : text) (digest : text).
Implicit Types (s : Server) (row : ExtensionSession).

(** Every session whose access token has this hash has ended. *)
Definition dead s : Prop := forall id row, sessions s !! id = Some row -> es_access row = digest -> revoked row = true.

Lemma dead_sessions s s' : sessions s' = sessions s -> dead s -> dead s'.
Proof. unfold dead. by intros ->. Qed.

Lemma dead_set id row s : (es_access row = digest -> revoked row = true) -> dead s -> dead (set_sessions <[id := row]> s).
Proof. intros Hr Hd j r. simpl. rewrite lookup_insert. case_decide; [by intros [= <-]|apply Hd]. Qed.

Lemma update_dead id P f :
  (forall row, (es_access row = digest -> revoked row = true) -> es_access (f row) = digest -> revoked (f row) = true) ->
  preserves dead (update_session id P f).
Proof.
  intros Hf s Hs. unfold update_session. destruct (sessions s !! id) as [row|] eqn:Hr; [|done]. destruct (P row); [|done].
  unfold mbind, op_bind, put_session. destruct (hashes_free _ _ _); [|done]. apply dead_set; [|done]. apply Hf. by apply Hs with (id := id).
Qed.

Lemma revoke_dead id reason user now : preserves dead (revoke_session id reason user now).
Proof. apply update_dead. done. Qed.

Lemma revoke_now_dead id reason ip fails now : preserves dead (_revoke_now id reason ip fails now).
Proof.
  intros s Hs. unfold _revoke_now. destruct fails; [done|]. pose proof (revoke_dead id reason None now s Hs) as Hr.
  destruct (revoke_session id reason None now s) as [[b|e] s']; [|done]. case_match; [|done]. by eapply dead_sessions; [|exact Hr].
Qed.

Lemma touch_dead id ip fails now : preserves dead (touch_session id ip fails now).
Proof.
  intros s Hs. unfold touch_session. destruct fails; [done|].
  pose proof (update_dead id (fun row => needs_touch row now) (es_touch now ip) ltac:(done) s Hs) as Ht.
  by destruct (update_session _ _ _ s) as [[b|e] s'].
Qed.

Lemma require_dead id row fails now : preserves dead (_require_usable id row fails now).
Proof.
  unfold _require_usable. case_match; [apply preserves_raise|]. apply preserves_bind; [apply preserves_gets|]. intros [user|]; [apply preserves_ret|].
  apply preserves_bind; [apply revoke_now_dead|]. intros ?. apply preserves_raise.
Qed.

Lemma stolen_dead id ip p : preserves dead (stolen id ip p).
Proof. unfold stolen. apply preserves_bind; [apply revoke_now_dead|]. intros ?. apply preserves_raise. Qed.

Lemma replaced_dead token attempt ip p : preserves dead (refresh_replaced secret_key token attempt ip p).
Proof.
  unfold refresh_replaced. destruct (next_pair _ _ _) as [access refresh]. apply preserves_bind; [apply preserves_gets|]. intros [[id row]|].
  - case_match; [apply preserves_raise|]. case_match; [apply stolen_dead|]. apply preserves_bind; [apply require_dead|]. intros ?.
    case_match; [apply preserves_ret|apply stolen_dead].
  - apply preserves_bind; [apply preserves_gets|]. intros [[id row]|]; [apply stolen_dead|apply preserves_raise].
Qed.

Lemma refresh_tries_dead n token attempt ip version pass s :
  (forall i x, dead x -> dead (p_race (pass i) x)) ->
  (forall pair s', refresh_tries secret_key n token attempt ip version pass s = (Ok pair, s') -> token_hash (tp_access pair) <> digest) ->
  dead s -> dead (refresh_tries secret_key n token attempt ip version pass s).2.
Proof.
  intros Hrace. revert s. induction n as [|n IH]; intros s Hnew Hs; [done|]. cbn [refresh_tries] in *.
  destruct (next_pair secret_key token attempt) as [access refresh] eqn:Hn.
  erewrite op_bind_ok in Hnew |- *; [|reflexivity..]. destruct (session_where _ s) as [[id row]|].
  - pose proof (require_dead id row (p_fails (pass n)) (p_check (pass n)) s Hs) as Hd.
    destruct (_require_usable id row (p_fails (pass n)) (p_check (pass n)) s) as [[u|e] s1] eqn:Hus; [|by erewrite op_bind_raise by done].
    erewrite op_bind_ok in Hnew |- * by done. erewrite op_bind_ok in Hnew |- *; [|reflexivity..].
    specialize (Hrace n s1 Hd) as Hd1. set (s2 := p_race (pass n) s1) in *.
    match goal with |- context [update_session id ?P ?f ≫= _] => destruct (update_session id P f s2) as [[b|e] s3] eqn:Hw end.
    + erewrite op_bind_ok in Hnew |- * by done. apply update_session_inv in Hw. destruct b; [|subst s3; by apply IH].
      destruct Hw as (live & Hl & _ & _ & ->). apply dead_set; [|done]. intros Hacc. exfalso. eapply Hnew; [reflexivity|exact Hacc].
    + erewrite op_bind_raise by done. unfold update_session in Hw. destruct (sessions s2 !! id); [|done]. case_match; [|done].
      unfold mbind, op_bind, put_session in Hw. destruct (hashes_free _ _ s2); [done|]. injection Hw as _ <-. exact Hd1.
  - erewrite op_bind_ok in Hnew |- *; [|reflexivity..]. apply replaced_dead. by apply Hrace.
Qed.

Lemma authenticate_dead token fails now : preserves dead (authenticate token fails now).
Proof.
  unfold authenticate. apply preserves_bind; [apply preserves_gets|]. intros [[id row]|]; [|apply preserves_raise].
  repeat (case_match; [apply preserves_raise|]). apply preserves_bind; [apply preserves_gets|]. intros [user|]; [apply preserves_ret|].
  apply preserves_bind; [apply revoke_now_dead|]. intros ?. apply preserves_raise.
Qed.

Lemma create_dead user_id user device agent ip version new_id access refresh now s :
  token_hash (ACCESS_TOKEN_PREFIX ++ access) <> digest -> dead s ->
  dead (create_session user_id user device agent ip version new_id access refresh now s).2.
Proof.
  intros Hne Hs. unfold create_session. destruct (sessions s !! new_id); [done|]. unfold mbind, op_bind, put_session.
  destruct (hashes_free _ _ s); [|done]. by apply dead_set.
Qed.

Lemma codes_dead redis mem s : dead s -> dead (set_codes redis mem s).
Proof. done. Qed.

Lemma consume_dead code answer wall mono : preserves dead (consume_auth_code code answer wall mono).
Proof.
  unfold consume_auth_code. destruct code as [code|]; [|apply preserves_ret]. destruct code as [|c code]; [apply preserves_ret|].
  assert (Hm : forall key, preserves dead (mem_take key mono)) by (intros key s Hs; exact Hs).
  apply preserves_bind; [intros s Hs; unfold redis_take; by case_match|].
  intros raw. apply preserves_bind; [|intros ?; apply preserves_ret]. repeat case_match; (apply Hm || apply preserves_ret).
Qed.

Lemma redeem_dead code verifier uri answer wall mono : preserves dead (redeem_auth_code code verifier uri answer wall mono).
Proof.
  unfold redeem_auth_code. apply preserves_bind; [apply consume_dead|]. intros [payload|]; [|apply preserves_raise].
  match goal with |- context [if ?b then raise _ else _] => destruct b end; [apply preserves_raise|]. apply preserves_bind; [by intros s|]. intros verified. destruct verified; [|apply preserves_raise]. simpl.
  destruct (field _ payload) as [user|]; [|apply preserves_raise]. destruct (int_of user); [|apply preserves_raise].
  destruct (int_or 0 _); [|apply preserves_raise]. apply preserves_bind; [apply preserves_gets|]. intros [u|]; [|apply preserves_raise].
  case_match; [apply preserves_raise|]. case_match; [apply preserves_raise|apply preserves_ret].
Qed.

Lemma exchange_dead code verifier uri device agent ip version permitted refusal answer wall mono new_id access refresh now :
  token_hash (ACCESS_TOKEN_PREFIX ++ access) <> digest ->
  preserves dead (_exchange_code code verifier uri device agent ip version permitted refusal answer wall mono new_id access refresh now).
Proof.
  intros Hne. unfold _exchange_code. case_match; [apply preserves_raise|]. apply preserves_bind; [apply redeem_dead|]. intros [user_id user].
  case_match; [apply preserves_raise|]. apply preserves_bind; [intros s Hs; by apply create_dead|]. intros pair.
  apply preserves_bind; [by apply preserves_modify|]. intros ?. apply preserves_ret.
Qed.

Lemma disconnect_dead user_id id ip from now : preserves dead (_disconnect user_id id ip from now).
Proof.
  unfold _disconnect. apply preserves_bind; [apply preserves_gets|]. intros [row|]; [|apply preserves_ret]. case_match; [apply preserves_ret|].
  apply preserves_bind; [apply revoke_dead|]. intros ended. case_match; [apply preserves_ret|].
  apply preserves_bind; [by apply preserves_modify|]. intros ?. apply preserves_ret.
Qed.

Lemma revoke_all_dead reason now : preserves dead (revoke_all_sessions reason now).
Proof.
  intros s Hs j r. unfold revoke_all_sessions, set_sessions; simpl. rewrite lookup_fmap. intros (x & Hx & ->)%fmap_Some.
  destruct (revoked x) eqn:Hv; [done|]. done.
Qed.

Lemma purge_dead fuel cutoff between deleted : (forall i x, dead x -> dead (between i x)) -> preserves dead (purge_batches fuel cutoff between deleted).
Proof.
  intros Hb. revert deleted. induction fuel as [|fuel IH]; intros deleted; cbn [purge_batches]; [apply preserves_raise|].
  apply preserves_bind; [apply preserves_gets|]. intros ids. destruct ids as [|i ids]; [apply preserves_ret|].
  apply preserves_bind; [|intros ?; apply preserves_bind; [apply preserves_modify, Hb|]; intros ?; case_match; [apply preserves_ret|apply IH]].
  apply preserves_modify. intros s Hs j r. unfold set_sessions; simpl. intros [Hj _]%map_lookup_filter_Some. by apply (Hs j).
Qed.

(** Everything that may happen to the connections, but for a token drawn or
    derived with this very hash.  A caller's rights do not matter: anyone may
    present anything. *)
Inductive connection_call : Server -> Server -> Prop :=
  | call_allow user version uri challenge code answer wall mono s :
      connection_call s (create_auth_code user version uri challenge code answer wall mono s).2
  | call_exchange code verifier uri device agent ip version permitted refusal answer wall mono new_id access refresh now s :
      token_hash (ACCESS_TOKEN_PREFIX ++ access) <> digest ->
      connection_call s (_exchange_code code verifier uri device agent ip version permitted refusal answer wall mono new_id access refresh now s).2
  | call_refresh token attempt ip version pass s :
      (forall i x, dead x -> dead (p_race (pass i) x)) ->
      (forall pair s', refresh_session secret_key token attempt ip version pass s = (Ok pair, s') -> token_hash (tp_access pair) <> digest) ->
      connection_call s (refresh_session secret_key token attempt ip version pass s).2
  | call_authenticate token fails now s : connection_call s (authenticate token fails now s).2
  | call_touch id ip fails now s : connection_call s (touch_session id ip fails now s).2
  | call_disconnect user_id id ip from now s : connection_call s (_disconnect user_id id ip from now s).2
  | call_revoke_all reason now s : connection_call s (revoke_all_sessions reason now s).2
  | call_purge fuel between now s : (forall i x, dead x -> dead (between i x)) -> connection_call s (purge_ended_sessions fuel between now s).2
  | call_accounts f s : connection_call s (MkServer (sessions s) (f (users s)) (security_log s) (redis_codes s) (mem_codes s)).

Lemma call_dead s s' : connection_call s s' -> dead s -> dead s'.
Proof.
  intros [] Hs; try done.
  - unfold create_auth_code. by case_match.
  - by apply exchange_dead.
  - destruct token as [token|]; [|done]. unfold refresh_session in *. destruct (starts_with _ _); [|done]. by apply refresh_tries_dead.
  - by apply authenticate_dead.
  - by apply touch_dead.
  - by apply disconnect_dead.
  - by apply revoke_all_dead.
  - by apply purge_dead.
Qed.

Lemma calls_dead s s' : rtc connection_call s s' -> dead s -> dead s'.
Proof. intros Hr. induction Hr; [done|]. intros Hs. by apply IHHr, (call_dead x). Qed.
End ended.

(** C26: an access token whose session ended never works again: however the session
    ended (disconnected, ended as stolen, ended for everyone), and whatever is
    called afterwards, by anyone and with any argument, it is refused, so long as
    no other token is drawn or derived that has the same hash. *)
Theorem ended_token_never_works `{PyStr} `{PyCategory} `{PyRe} `{PyFloat} `{PyRepr} `{PyInt} secret_key token id row s s' :
  tokens_unique s -> sessions s !! id = Some row -> es_access row = token_hash token -> revoked row = true ->
  rtc (connection_call secret_key (token_hash token)) s s' ->
  forall fails now, exists e, authenticate token fails now s' = (Raise e, s').
Proof.
  intros Hu Hr Ha Hv Hcalls fails now.
  assert (Hd : dead (token_hash token) s').
  { eapply calls_dead; [exact Hcalls|]. intros j r Hj Hh. assert (j = id) as ->; [|congruence]. eapply Hu; [exact Hj|exact Hr|left; congruence]. }
  unfold authenticate, mbind, op_bind, gets. destruct (session_where _ s') as [[j r]|] eqn:Hw; [|by eexists].
  apply session_where_Some in Hw as [Hj Hp%bool_decide_eq_true]. rewrite (Hd j r Hj Hp). by eexists.
Qed.

(** ** Upkeep *)

Definition ended_ids (cutoff : Z) (s : Server) : list string :=
  (filter (fun kv : string * ExtensionSession => ended cutoff kv.2 = true) (map_to_list (sessions s))).*1.

Lemma ended_ids_elem cutoff s id : id ∈ ended_ids cutoff s <-> exists row, sessions s !! id = Some row /\ ended cutoff row = true.
Proof.
  unfold ended_ids. rewrite list_elem_of_fmap. split.
  - intros ([j r] & -> & [He Hj%elem_of_map_to_list]%list_elem_of_filter). by exists r.
  - intros (row & Hr & He). exists (id, row). split; [done|]. apply list_elem_of_filter. split; [done|by apply elem_of_map_to_list].
Qed.

Lemma ended_ids_NoDup cutoff s : NoDup (ended_ids cutoff s).
Proof. unfold ended_ids. eapply sublist_NoDup; [apply (NoDup_fst_map_to_list (sessions s))|]. apply fmap_sublist, sublist_filter. Qed.

(** A batch takes that many of the ended rows away. *)
Lemma batch_fewer cutoff s ids : ids = take _PURGE_BATCH (ended_ids cutoff s) ->
  (length (ended_ids cutoff (set_sessions (filter (fun kv => kv.1 ∉ ids)) s)) + length ids = length (ended_ids cutoff s))%nat.
Proof.
  intros Hids. set (s' := set_sessions _ s). assert (Hp : ended_ids cutoff s ≡ₚ ended_ids cutoff s' ++ ids); [|rewrite Hp, length_app; lia].
  assert (Hin : forall i, i ∈ ids -> i ∈ ended_ids cutoff s) by (intros i Hi; rewrite Hids in Hi; apply elem_of_take in Hi as (k & Hk & _); by eapply list_elem_of_lookup_2).
  apply NoDup_Permutation.
  - apply ended_ids_NoDup.
  - apply NoDup_app. split_and!; [apply ended_ids_NoDup| |].
    + intros i (row & Hr & _)%ended_ids_elem Hi. unfold s', set_sessions in Hr; simpl in Hr. by apply map_lookup_filter_Some in Hr as [_ Hr].
    + rewrite Hids. eapply sublist_NoDup; [apply (ended_ids_NoDup cutoff s)|apply sublist_take].
  - intros i. rewrite elem_of_app, !ended_ids_elem. unfold s', set_sessions; simpl. split.
    + intros (row & Hr & He). destruct (decide (i ∈ ids)) as [|Hni]; [by right|]. left. exists row. split; [|done]. by apply map_lookup_filter_Some.
    + intros [(row & [Hr _]%map_lookup_filter_Some & He)|Hi]; [by exists row|]. by apply ended_ids_elem, Hin.
Qed.

(** the nightly purge ends, after at most one batch more than the ended
    sessions fill, and leaves no session that ended before the cutoff, provided
    what others commit between batches ends none that long ago; left alone it
    deletes exactly those, and says how many. *)
Theorem purge_ended_correct fuel between now s :
  let cutoff := now - ENDED_SESSION_RETENTION in
  (length (ended_ids cutoff s) < _PURGE_BATCH * fuel)%nat ->
  (forall i x id, id ∈ ended_ids cutoff (between i x) -> id ∈ ended_ids cutoff x) ->
  exists n s', purge_ended_sessions fuel between now s = (Ok n, s') /\ ended_ids cutoff s' = [] /\
    ((forall i x, between i x = x) -> n = length (ended_ids cutoff s) /\
      forall id row, sessions s' !! id = Some row <-> sessions s !! id = Some row /\ ended cutoff row = false).
Proof.
  intros cutoff Hfuel Hb. unfold purge_ended_sessions. fold cutoff. clearbody cutoff.
  assert (Hgen : forall deleted, exists n s', purge_batches fuel cutoff between deleted s = (Ok n, s') /\ ended_ids cutoff s' = [] /\
    ((forall i x, between i x = x) -> n = (deleted + length (ended_ids cutoff s))%nat /\
      forall id row, sessions s' !! id = Some row <-> sessions s !! id = Some row /\ ended cutoff row = false)); [|apply (Hgen 0%nat)].
  revert s Hfuel. induction fuel as [|fuel IH]; intros s Hfuel deleted; [lia|]. cbn [purge_batches].
  erewrite op_bind_ok; [|reflexivity]. fold (ended_ids cutoff s). set (ids := take _PURGE_BATCH (ended_ids cutoff s)).
  destruct (decide (ids = [])) as [Hids|Hids].
  { assert (He : ended_ids cutoff s = []) by (unfold ids in Hids; by destruct (ended_ids cutoff s)).
    rewrite Hids. exists deleted, s. split_and!; [done|done|]. intros _. rewrite He. split; [simpl; lia|]. intros id row. split; [|by intros []].
    intros Hr. split; [done|]. destruct (ended cutoff row) eqn:E; [|done]. exfalso. apply (not_elem_of_nil id). rewrite <- He.
    apply ended_ids_elem. by exists row. }
  replace (match ids with [] => mret deleted | _ => _ end) with
    (_ ← modify (set_sessions (filter (fun kv : string * ExtensionSession => kv.1 ∉ ids))); _ ← modify (between fuel);
     if (length ids <? _PURGE_BATCH)%nat then mret (deleted + length ids)%nat else purge_batches fuel cutoff between (deleted + length ids)%nat)
    by (by destruct ids).
  erewrite op_bind_ok; [|reflexivity]. erewrite op_bind_ok; [|reflexivity].
  set (s1 := set_sessions _ s). pose proof (batch_fewer cutoff s ids eq_refl) as Hlen. fold s1 in Hlen.
  assert (Hlen' : (length (ended_ids cutoff (between fuel s1)) <= length (ended_ids cutoff s1))%nat).
  { apply submseteq_length, NoDup_submseteq; [apply ended_ids_NoDup|apply Hb]. }
  assert (Hk : (length ids = length (ended_ids cutoff s) \/ length ids = _PURGE_BATCH)%nat) by (unfold ids; rewrite length_take; lia).
  assert (Hs1 : forall id row, sessions s1 !! id = Some row /\ ended cutoff row = false <-> sessions s !! id = Some row /\ ended cutoff row = false).
  { intros id row. unfold s1, set_sessions; simpl. rewrite map_lookup_filter_Some. split; [tauto|]. intros [Hr He]. split_and!; try done.
    intros Hin. unfold ids in Hin. apply elem_of_take in Hin as (k & Hk' & _). apply list_elem_of_lookup_2, ended_ids_elem in Hk' as (r & Hr' & He').
    simpl in *. congruence. }
  destruct (Nat.ltb_spec (length ids) _PURGE_BATCH) as [Hlt|Hge].
  - assert (He : ended_ids cutoff (between fuel s1) = []) by (apply length_zero_iff_nil; lia).
    eexists _, _. split_and!; [done|done|]. intros Hid. rewrite Hid in *. split; [lia|]. intros id row. rewrite <- Hs1. split; [|by intros []].
    intros Hr. split; [done|]. destruct (ended cutoff row) eqn:E; [|done]. exfalso. apply (not_elem_of_nil id). rewrite <- He.
    apply ended_ids_elem. by exists row.
  - destruct (IH (between fuel s1) ltac:(lia) (deleted + length ids)%nat) as (n & s' & Hr & He & Hex). exists n, s'. split_and!; [done|done|].
    intros Hid. destruct (Hex Hid) as [-> Hrows]. rewrite Hid in *. split; [lia|]. intros id row. by rewrite Hrows.
Qed.

(** ** Codes *)

Section codes.
Context `{PyFloat} `{PyRepr} `{PyInt}.
Implicit Types s : Server.

(** The code is not in both stores. *)
Definition held_once (code : text) s : Prop := redis_codes s !! _code_key code = None \/ mem_codes s !! _code_key code = None.

Definition gone (code : text) s : Prop := redis_codes s !! _code_key code = None /\ mem_codes s !! _code_key code = None.

(** Calls that write or take codes, none of whose redis answers is lost. *)
Inductive code_call (code : text) : Server -> Server -> Prop :=
  | code_create user version uri challenge other answer wall mono s :
      answer <> RedisLost -> gone other s -> _code_key other <> _code_key code ->
      code_call code s (create_auth_code user version uri challenge other answer wall mono s).2
  | code_redeem other verifier uri answer wall mono s : answer <> RedisLost ->
      code_call code s (redeem_auth_code other verifier uri answer wall mono s).2
  | code_other s s' : redis_codes s' = redis_codes s -> mem_codes s' = mem_codes s -> code_call code s s'.

Lemma create_held user version uri challenge code answer wall mono s : answer <> RedisLost -> gone code s ->
  held_once code (create_auth_code user version uri challenge code answer wall mono s).2.
Proof.
  intros Ha [Hr Hm]. unfold held_once, create_auth_code. destruct answer; [by right|done|by left].
Qed.

(** Taking a code leaves fewer codes. *)
Lemma consume_codes (code : option text) answer wall mono s :
  (forall key, redis_codes s !! key = None -> redis_codes (consume_auth_code code answer wall mono s).2 !! key = None) /\
  (forall key, mem_codes s !! key = None -> mem_codes (consume_auth_code code answer wall mono s).2 !! key = None).
Proof.
  assert (Hdel : forall (m : gmap text (text * Z)) k key, m !! key = None -> delete k m !! key = None)
    by (intros m k key Hn; apply lookup_delete_None; by right).
  assert (Hp : forall I : Server -> Prop, (forall k, preserves I (redis_take k answer wall)) -> (forall k, preserves I (mem_take k mono)) ->
    preserves I (consume_auth_code code answer wall mono)).
  { intros I Hr Hm. unfold consume_auth_code. destruct code as [code|]; [|apply preserves_ret]. destruct code; [apply preserves_ret|].
    apply preserves_bind; [apply Hr|]. intros raw. apply preserves_bind; [|intros ?; apply preserves_ret].
    repeat case_match; (apply Hm || apply preserves_ret). }
  split; intros key.
  - apply (Hp (fun x => redis_codes x !! key = None)); intros k x Hx; [|done]. unfold redis_take. destruct answer; [by apply Hdel..|done].
  - apply (Hp (fun x => mem_codes x !! key = None)); intros k x Hx; [|by apply Hdel]. unfold redis_take. by destruct answer.
Qed.

Lemma consume_gone code answer wall mono s : gone code s -> exists s', consume_auth_code (Some code) answer wall mono s = (Ok None, s').
Proof.
  intros [Hr Hm]. destruct code as [|c code]; [by eexists|]. unfold consume_auth_code, mbind, op_bind, redis_take, mem_take, mret, op_ret.
  destruct answer; rewrite ?Hr; simpl; rewrite ?Hm; by eexists.
Qed.

(** Only taking a payload writes. *)
Lemma redeem_state code verifier uri answer wall mono s :
  (redeem_auth_code code verifier uri answer wall mono s).2 = (consume_auth_code code answer wall mono s).2.
Proof.
  unfold redeem_auth_code. unfold mbind at 1, op_bind at 1. destruct (consume_auth_code code answer wall mono s) as [[payload|e] s1]; [|done].
  destruct payload as [payload|]; [|done]. match goal with |- context [if ?b then raise _ else _] => destruct b end; [done|].
  unfold mbind, op_bind, lift. destruct (verify_pkce _ _) as [[]|e]; [|done..]. simpl.
  destruct (field _ payload); [|done]. destruct (int_of _); [|done]. destruct (int_or 0 _); [|done]. unfold gets.
  destruct (users s1 !! _); [|done]. by repeat case_match.
Qed.

Lemma code_calls_gone code s s' : rtc (code_call code) s s' -> gone code s -> gone code s'.
Proof.
  intros Hr. induction Hr as [|x y z Hc _ IH]; [done|]. intros [Hxr Hxm]. apply IH. clear IH z.
  destruct Hc as [user version uri challenge other answer wall mono s Ha Ho Hne|other verifier uri answer wall mono s Ha|s s' Hr Hm].
  - unfold gone, create_auth_code. destruct answer; [|done|]; cbn [fst snd set_codes redis_codes mem_codes]; rewrite lookup_insert_ne by done; [done|].
    by rewrite map_lookup_filter, Hxm.
  - unfold gone. rewrite redeem_state. destruct (consume_codes other answer wall mono s) as [Hr Hm]. split; [by apply Hr|by apply Hm].
  - unfold gone. by rewrite Hr, Hm.
Qed.

Lemma consume_takes code answer wall mono s data s1 : held_once code s -> answer <> RedisLost ->
  consume_auth_code (Some code) answer wall mono s = (Ok (Some data), s1) -> gone code s1.
Proof.
  intros Ho Ha. destruct code as [|c code]; [done|]. unfold held_once in Ho. unfold gone, consume_auth_code, mbind, op_bind, redis_take, mem_take, mret, op_ret.
  revert Ho. generalize (_code_key (c :: code)). intros key [Hn|Hn]; destruct answer; try done; rewrite ?Hn.
  - destruct (mem_codes s !! key) as [[payload expires]|] eqn:E; cbn; rewrite ?E; cbn; [|by intros [=]]. destruct (expires <=? mono); cbn; [by intros [=]|]. intros [= _ <-].
    split; cbn; (done || (apply lookup_delete_None; by left)).
  - destruct (mem_codes s !! key) as [[payload expires]|] eqn:E; cbn; rewrite ?E; cbn; [|by intros [=]]. destruct (expires <=? mono); cbn; [by intros [=]|]. intros [= _ <-].
    split; cbn; (done || (apply lookup_delete_None; by left)).
  - destruct (redis_codes s !! key) as [[payload expires]|] eqn:E; cbn; [|rewrite Hn; by intros [=]]. destruct (wall <? expires); cbn; [|rewrite Hn; by intros [=]].
    destruct payload as [|d payload]; cbn; [rewrite Hn; by intros [=]|]. intros [= _ <-]. split; cbn; (done || (apply lookup_delete_None; by left)).
  - by intros [=].
Qed.

Lemma code_calls_held code s s' : rtc (code_call code) s s' -> held_once code s -> held_once code s'.
Proof.
  intros Hr. induction Hr as [|x y z Hc _ IH]; [done|]. intros Hx. apply IH. clear IH z.
  destruct Hc as [user version uri challenge other answer wall mono s Ha Ho Hne|other verifier uri answer wall mono s Ha|s s' Hr Hm].
  - unfold held_once, create_auth_code. destruct answer; [|done|]; cbn [fst snd set_codes redis_codes mem_codes]; rewrite lookup_insert_ne by done; [done|].
    destruct Hx as [|Hx]; [by left|right]. by rewrite map_lookup_filter, Hx.
  - unfold held_once. rewrite redeem_state. destruct (consume_codes other answer wall mono s) as [Hr Hm].
    destruct Hx as [Hx|Hx]; [left; by apply Hr|right; by apply Hm].
  - unfold held_once. by rewrite Hr, Hm.
Qed.

(** A connect code works once: from the call that makes it, and whatever codes
    are made and redeemed before and after, with redis up or down at each call,
    no call takes it after one has, as long as no answer of redis is lost and no
    other code has its hash. *)
Theorem code_used_once code user version uri challenge answer wall mono s0 s answer1 wall1 mono1 data s1 s2 answer2 wall2 mono2 :
  gone code s0 -> answer <> RedisLost -> rtc (code_call code) (create_auth_code user version uri challenge code answer wall mono s0).2 s ->
  answer1 <> RedisLost -> consume_auth_code (Some code) answer1 wall1 mono1 s = (Ok (Some data), s1) ->
  rtc (code_call code) s1 s2 -> exists s3, consume_auth_code (Some code) answer2 wall2 mono2 s2 = (Ok None, s3).
Proof.
  intros Hg Ha Hr Ha1 Hc Hr2. apply consume_gone. apply (code_calls_gone _ _ _ Hr2).
  eapply consume_takes; [|exact Ha1|exact Hc]. eapply code_calls_held; [exact Hr|]. by apply create_held.
Qed.

(** *** The payload *)

Definition plain (c : Z) : Prop := 32 <= c < 127 /\ c <> 34 /\ c <> 92.

Lemma plain_escape t : Forall plain t -> t ≫= escape_ascii = t ≫= escape_char.
Proof.
  induction 1 as [|c t [Hc _] _ IH]; [done|]. cbn [mbind list_bind]. change (list_bind _ _ ?f ?t) with (t ≫= f). rewrite IH. f_equal.
  unfold escape_ascii. by rewrite (proj2 (Z.ltb_lt c 127)) by lia.
Qed.

Lemma plain_points t : Forall plain t -> code_points t.
Proof. intros Ht. eapply Forall_impl; [exact Ht|]. unfold plain. intros c. simpl. lia. Qed.

(** One field of a printed object, and what follows it. *)
Lemma read_field fuel k v tv rest :
  Forall plain k -> skip_ws (32 :: tv ++ rest) = tv ++ rest -> read_value fuel (tv ++ rest) = Some (v, rest) ->
  read_fields (S fuel) ((34 :: (k ≫= escape_ascii) ++ [34]) ++ of_string ": " ++ tv ++ rest) =
    match skip_ws rest with
    | 125 :: r => Some ([(k, v)], r)
    | 44 :: r => '(l, r) ← read_fields fuel (skip_ws r); Some ((k, v) :: l, r)
    | _ => None
    end.
Proof.
  intros Hk Hs Hv. rewrite plain_escape by done. cbn [app]. rewrite <- !app_assoc. cbn [app read_fields].
  rewrite read_string_literal by by apply plain_points. change (of_string ": ") with [58; 32]. cbn [app mbind option_bind].
  change (skip_ws (58 :: ?t)) with (58 :: t). cbn iota. by rewrite Hs, Hv.
Qed.

Lemma read_plain fuel t rest : Forall plain t -> read_value (S fuel) ((34 :: (t ≫= escape_ascii) ++ [34]) ++ rest) = Some (JStr t, rest).
Proof.
  intros Ht. rewrite plain_escape by done. cbn [app]. rewrite <- app_assoc. cbn [app read_value]. by rewrite read_string_literal by by apply plain_points.
Qed.

Lemma skip_int n rest : skip_ws (32 :: of_int n ++ rest) = of_int n ++ rest.
Proof. change (skip_ws (32 :: ?t)) with (skip_ws t). apply skip_ws_starts. by apply (print_starts (JInt n)). Qed.

Lemma read_int fuel n rest : ends rest -> read_value (S fuel) (of_int n ++ rest) = Some (JInt n, rest).
Proof. intros Hr. by apply (read_value_token fuel (JInt n)). Qed.

(** What [create_auth_code] stores is read back. *)
Lemma payload_read user version uri challenge : Forall plain uri -> Forall plain challenge ->
  loads (json_dumps (code_payload user version uri challenge)) = Some (code_payload user version uri challenge).
Proof.
  intros Hu Hc. set (str t := 34 :: (t ≫= escape_ascii) ++ [34]). set (field k tv rest := str (of_string k) ++ of_string ": " ++ tv ++ rest).
  assert (Ht : json_dumps (code_payload user version uri challenge) =
    123 :: field "user_id"%string (of_int user) (44 :: 32 :: field "token_version"%string (of_int version)
      (44 :: 32 :: field "redirect_uri"%string (str uri) (44 :: 32 :: field "code_challenge"%string (str challenge) [125])))).
  { unfold field, str. cbn [json_dumps code_payload map fst snd print]. change (of_string ", ") with [44; 32].
    rewrite <- !app_assoc. cbn [app]. by rewrite <- !app_assoc. }
  rewrite Ht. set (rest := field "user_id"%string _ _).
  assert (Hlen : exists f, length rest = S (S (S (S f)))) by (unfold rest, field, str; cbn [app]; eexists; reflexivity).
  destruct Hlen as [f Hf]. unfold loads. cbn [length]. rewrite Hf. change (skip_ws (123 :: rest)) with (123 :: rest).
  cbn [read_value]. assert (Hhead : exists t, rest = 34 :: t) by (eexists; reflexivity).
  assert (Hsr : skip_ws rest = rest) by done. rewrite Hsr.
  assert (Hrf : read_fields (S (S (S (S (S f))))) rest = Some ([(of_string "user_id", JInt user); (of_string "token_version", JInt version);
    (of_string "redirect_uri", JStr uri); (of_string "code_challenge", JStr challenge)], [])).
  { assert (Hp : forall k, forallb (fun c => (32 <=? c) && (c <? 127) && negb (c =? 34) && negb (c =? 92)) (of_string k) = true -> Forall plain (of_string k)).
    { intros k Hk'. apply Forall_forall. intros c Hc'. rewrite forallb_forall in Hk'. specialize (Hk' c). rewrite <- list_elem_of_In in Hk'.
      specialize (Hk' Hc'). unfold plain. lia. }
    unfold rest, field, str.
    rewrite (read_field _ _ (JInt user)); [|by apply Hp|apply skip_int|by apply read_int]. cbn [skip_ws]. change (is_ws 44) with false. cbn iota.
    change (skip_ws (32 :: ?t)) with t.
    rewrite (read_field _ _ (JInt version)); [|by apply Hp|apply skip_int|by apply read_int]. cbn [skip_ws]. change (is_ws 44) with false. cbn iota.
    change (skip_ws (32 :: ?t)) with t.
    rewrite (read_field _ _ (JStr uri)); [|by apply Hp|done|by apply read_plain]. cbn [skip_ws]. change (is_ws 44) with false. cbn iota.
    change (skip_ws (32 :: ?t)) with t.
    rewrite (read_field _ _ (JStr challenge)); [|by apply Hp|done|by apply read_plain]. done. }
  destruct Hhead as [t Hrest]. rewrite Hrest in Hrf |- *. cbn iota. by rewrite Hrf.
Qed.
End codes.

Section redeeming.
Context `{PyFloat} `{PyRepr} `{PyInt}.
Implicit Types (s : Server).

Lemma consume_stored code answer wall mono s payload expires :
  code <> [] -> payload <> [] -> answer = RedisDone /\ redis_codes s !! _code_key code = Some (payload, expires) /\ wall < expires \/
    answer = RedisDown /\ mem_codes s !! _code_key code = Some (payload, expires) /\ mono < expires ->
  exists s', consume_auth_code (Some code) answer wall mono s =
    (Ok (match loads payload with Some (JObj data) => Some data | _ => None end), s') /\ users s' = users s.
Proof.
  intros Hc Hp Hor. destruct code as [|c code]; [done|]. destruct payload as [|d payload]; [done|].
  unfold consume_auth_code, mbind, op_bind, redis_take, mem_take, mret, op_ret. revert Hor. generalize (_code_key (c :: code)). intros key.
  intros [(-> & Hk & Hlt)|(-> & Hk & Hlt)]; rewrite Hk.
  - rewrite (proj2 (Z.ltb_lt _ _)) by done. cbn. by eexists.
  - rewrite (proj2 (Z.leb_gt _ _)) by done. cbn. by eexists.
Qed.

Lemma verify_pkce_ok verifier challenge : Forall plain challenge ->
  verify_pkce (Some verifier) challenge =
    Ok (negb (bool_decide (verifier = []) || negb (_VERIFIER_RE verifier)) && bool_decide (pkce_challenge verifier = challenge)).
Proof.
  intros Hc. unfold verify_pkce. destruct (_ || _); [done|]. simpl.
  assert (forallb (fun c => c <? 128) challenge = true) as ->; [|done]. apply forallb_forall. intros c Hin%list_elem_of_In.
  rewrite Forall_forall in Hc. destruct (Hc c Hin). lia.
Qed.

(** Whose attempt gives the account: the attempt of the one the code was issued for. *)
Record redeems (user version : Z) (uri challenge : text) (verifier redirect : option text) s (account : User) : Prop := {
  rd_uri : redirect = Some uri;
  rd_verifier : exists v, verifier = Some v /\ v <> [] /\ _VERIFIER_RE v = true /\ pkce_challenge v = challenge;
  rd_user : users s !! user = Some account;
  rd_account : u_deleted account = None /\ u_active account = true /\ u_version account <= version
}.

Lemma create_stored user version uri challenge code answer wall mono wall' mono' s :
  answer <> RedisLost -> wall' < wall + seconds CODE_TTL_SECONDS -> mono' < mono + seconds CODE_TTL_SECONDS ->
  let s1 := (create_auth_code user version uri challenge code answer wall mono s).2 in
  let payload := json_dumps (code_payload user version uri challenge) in
  users s1 = users s /\ exists expires,
  (answer = RedisDone /\ redis_codes s1 !! _code_key code = Some (payload, expires) /\ wall' < expires \/
    answer = RedisDown /\ mem_codes s1 !! _code_key code = Some (payload, expires) /\ mono' < expires).
Proof.
  intros Ha Hw Hm. unfold create_auth_code. destruct answer; [|done|]; cbn [snd set_codes redis_codes mem_codes users]; (split; [done|]).
  - exists (wall + seconds CODE_TTL_SECONDS). left. split_and!; [done|apply lookup_insert_eq|done].
  - exists (mono + seconds CODE_TTL_SECONDS). right. split_and!; [done|apply lookup_insert_eq|done].
Qed.

Definition issued_fields (user version : Z) (uri challenge : text) : list (text * json) :=
  [(of_string "user_id", JInt user); (of_string "token_version", JInt version);
   (of_string "redirect_uri", JStr uri); (of_string "code_challenge", JStr challenge)].

(** What an attempt that takes the payload comes to. *)
Lemma redeem_taken user version uri challenge code verifier redirect answer wall mono s s2 :
  Forall plain challenge -> uri <> [] -> challenge <> [] ->
  consume_auth_code (Some code) answer wall mono s = (Ok (Some (issued_fields user version uri challenge)), s2) -> users s2 = users s ->
  exists r, redeem_auth_code (Some code) verifier redirect answer wall mono s = (r, s2) /\
    ((exists account, r = Ok (user, account) /\ redeems user version uri challenge verifier redirect s account) \/
     (exists message, r = Raise (_invalid_grant message)) /\ forall account, ~ redeems user version uri challenge verifier redirect s account).
Proof.
  intros Hch Hune Hcne Hcons Hus. unfold redeem_auth_code. erewrite op_bind_ok; [|exact Hcons]. cbn beta iota.
  change (field (of_string "redirect_uri") _) with (Some (JStr uri)).
  change (str_field "code_challenge" _) with (if truthy (JStr challenge) then challenge else []).
  change (field (of_string "user_id") _) with (Some (JInt user)).
  change (field (of_string "token_version") _) with (Some (JInt version)).
  assert (truthy (JStr challenge) = true) as -> by (by destruct challenge).
  destruct (decide (redirect = Some uri)) as [->|Hne].
  2:{ eexists. split; [|right; split; [by eexists|by intros account []]].
      destruct redirect as [[|c redirect]|]; [done| |done]. by rewrite bool_decide_false by congruence. }
  replace (match uri with [] => _ | _ => _ end) with false by (destruct uri; [done|]; by rewrite bool_decide_true).
  destruct verifier as [verifier|].
  2:{ eexists. split; [reflexivity|right; split; [by eexists|by intros account [_ (? & [=] & _)]]]. }
  rewrite verify_pkce_ok by done. destruct (negb _ && _) eqn:Hv.
  2:{ eexists. split; [reflexivity|right; split; [by eexists|]]. intros account [_ (? & [= <-] & Hv1 & Hv2 & Hv3)].
      rewrite bool_decide_false, Hv2, bool_decide_true in Hv by done. done. }
  apply andb_true_iff in Hv as [[Hv1%bool_decide_eq_false Hv2%negb_false_iff]%negb_true_iff%orb_false_iff Hv3%bool_decide_eq_true].
  erewrite op_bind_ok; [|reflexivity]. cbn [negb int_of]. rewrite int_or_int. erewrite op_bind_ok; [|reflexivity].
  rewrite Hus. destruct (users s !! user) as [account|] eqn:Hacc.
  2:{ eexists. split; [reflexivity|right; split; [by eexists|]]. intros account []. congruence. }
  destruct (bool_decide (u_deleted account <> None) || negb (u_active account)) eqn:Hacct.
  { eexists. split; [reflexivity|right; split; [by eexists|]]. intros account' [_ _ Ha (Hd & Hact & _)]. rewrite Hacc in Ha.
    injection Ha as <-. by rewrite Hd, Hact in Hacct. }
  apply orb_false_iff in Hacct as [Hd%bool_decide_eq_false%dec_stable Hact%negb_false_iff].
  destruct (Z.ltb_spec version (u_version account)) as [Hlt|Hge]; (eexists; split; [reflexivity|]).
  - right. split; [by eexists|]. intros account' [_ _ Ha (_ & _ & ?)]. rewrite Hacc in Ha. injection Ha as <-. lia.
  - left. exists account. split; [done|]. constructor; [done|by exists verifier|done|done].
Qed.

Lemma consume_keyed code answer wall mono s : code <> [] ->
  consume_auth_code (Some code) answer wall mono s =
    (raw ← redis_take (_code_key code) answer wall;
     raw ← (match raw with None | Some [] => mem_take (_code_key code) mono | _ => mret raw end);
     mret (match raw with Some raw => match loads raw with Some (JObj data) => Some data | _ => None end | None => None end)) s.
Proof. by destruct code. Qed.

(** Taking a code leaves the other codes and the people. *)
Lemma consume_other code answer wall mono s :
  let s' := (consume_auth_code code answer wall mono s).2 in
  users s' = users s /\ forall key, (forall c, code = Some c -> _code_key c <> key) ->
    redis_codes s' !! key = redis_codes s !! key /\ mem_codes s' !! key = mem_codes s !! key.
Proof.
  assert (Hp : forall I : Server -> Prop, (forall k, (exists c, code = Some c /\ k = _code_key c) -> preserves I (redis_take k answer wall)) ->
    (forall k, (exists c, code = Some c /\ k = _code_key c) -> preserves I (mem_take k mono)) -> preserves I (consume_auth_code code answer wall mono)).
  { intros I Hr Hm. unfold consume_auth_code. destruct code as [code|]; [|apply preserves_ret]. destruct code as [|c code]; [apply preserves_ret|].
    apply preserves_bind; [apply Hr; by eexists|]. intros raw. apply preserves_bind; [|intros ?; apply preserves_ret].
    repeat case_match; (apply Hm; by eexists) || apply preserves_ret. }
  split.
  - apply (Hp (fun x => users x = users s)); [..|done]; intros k _ x Hx; unfold redis_take, mem_take; by destruct answer.
  - intros key Hne. apply (Hp (fun x => redis_codes x !! key = redis_codes s !! key /\ mem_codes x !! key = mem_codes s !! key)); [..|done];
      intros k (c & -> & ->) x [Hx Hy]; unfold redis_take, mem_take; specialize (Hne c eq_refl).
    + destruct answer; cbn [snd set_codes redis_codes mem_codes]; rewrite ?lookup_delete_ne by done; done.
    + cbn [snd set_codes redis_codes mem_codes]. by rewrite lookup_delete_ne.
Qed.

(** Calls on other codes, before [until] on the process's clock, with redis up,
    down or silent; and calls on anything else, the people included. *)
Inductive around_code (code : text) (until : Z) : Server -> Server -> Prop :=
  | around_create user version uri challenge other answer wall mono s : _code_key other <> _code_key code -> mono < until ->
      around_code code until s (create_auth_code user version uri challenge other answer wall mono s).2
  | around_redeem other verifier uri answer wall mono s : (forall c, other = Some c -> _code_key c <> _code_key code) ->
      around_code code until s (redeem_auth_code other verifier uri answer wall mono s).2
  | around_other s s' : redis_codes s' = redis_codes s -> mem_codes s' = mem_codes s -> around_code code until s s'.

(** Those, and attempts to redeem the code itself. *)
Inductive around_attempts (code : text) (until : Z) : Server -> Server -> Prop :=
  | attempts_other s s' : around_code code until s s' -> around_attempts code until s s'
  | attempts_code verifier uri answer wall mono s :
      around_attempts code until s (redeem_auth_code (Some code) verifier uri answer wall mono s).2.

(** An entry of the code that is there stays; one that is not does not come. *)
Lemma around_keeps code until s s' : around_code code until s s' -> (forall x, mem_codes s !! _code_key code = Some x -> until <= x.2) ->
  redis_codes s' !! _code_key code = redis_codes s !! _code_key code /\ mem_codes s' !! _code_key code = mem_codes s !! _code_key code.
Proof.
  destruct 1 as [user version uri challenge other answer wall mono s Hne Hm|other verifier uri answer wall mono s Hne|s s' Hr Hm]; intros Hx.
  - unfold create_auth_code. assert (filter (fun kv => mono < kv.2.2) (mem_codes s) !! _code_key code = mem_codes s !! _code_key code) as Hf.
    { rewrite map_lookup_filter. destruct (mem_codes s !! _code_key code) as [x|]; [|done]. cbn. specialize (Hx x eq_refl).
      by rewrite option_guard_True by lia. }
    destruct answer; cbn [snd set_codes redis_codes mem_codes]; rewrite ?lookup_insert_ne by done; by rewrite ?Hf.
  - rewrite redeem_state. by apply consume_other.
  - by rewrite Hr, Hm.
Qed.

(** Where the issued payload may be, and what taking it gives. *)
Definition entries code payload rexp mexp s : Prop :=
  (forall x, redis_codes s !! _code_key code = Some x -> x = (payload, rexp)) /\
  (forall x, mem_codes s !! _code_key code = Some x -> x = (payload, mexp)).

Lemma consume_entries code payload data rexp mexp answer wall mono s : code <> [] -> payload <> [] -> loads payload = Some (JObj data) ->
  entries code payload rexp mexp s ->
  let '(r, s') := consume_auth_code (Some code) answer wall mono s in
  entries code payload rexp mexp s' /\ (r = Ok None \/ r = Ok (Some data) /\ (wall < rexp \/ mono < mexp)).
Proof.
  intros Hc Hp Hl [Hr Hm]. rewrite consume_keyed by done. revert Hr Hm Hl. unfold entries. generalize (_code_key code) loads. intros key ld Hr Hm Hl.
  destruct payload as [|d payload]; [done|]. unfold mbind, op_bind, redis_take, mem_take, mret, op_ret.
  destruct (mem_codes s !! key) as [x|] eqn:Em; [pose proof (Hm x eq_refl); subst x|];
  (destruct (redis_codes s !! key) as [y|] eqn:Er; [pose proof (Hr y eq_refl); subst y|]).
  all: destruct answer; cbn; rewrite ?Er; cbn; try destruct (Z.ltb_spec wall rexp); cbn; rewrite ?Em; cbn.
  all: try destruct (Z.leb_spec mexp mono); cbn; rewrite ?Hl.
  all: split; [split; intros x; rewrite ?lookup_delete_eq, ?Er, ?Em; done || by intros [= <-]|auto].
Qed.

#[local] Instance redis_answer_eq_dec : EqDecision redis_answer.
Proof. solve_decision. Defined.

(** An attempt that reaches the store the code was put in, within its two minutes. *)
Definition reaches_code (answer answer' : redis_answer) (wall mono wall' mono' : Z) : Prop :=
  answer <> RedisDown /\ answer' = RedisDone /\ wall' < wall + seconds CODE_TTL_SECONDS \/
  answer <> RedisDone /\ mono' < mono + seconds CODE_TTL_SECONDS.

Lemma consume_reaches code payload data answer answer' wall mono wall' mono' s : code <> [] -> payload <> [] -> loads payload = Some (JObj data) ->
  (redis_codes s !! _code_key code = if decide (answer = RedisDown) then None else Some (payload, wall + seconds CODE_TTL_SECONDS)) ->
  (mem_codes s !! _code_key code = if decide (answer = RedisDone) then None else Some (payload, mono + seconds CODE_TTL_SECONDS)) ->
  reaches_code answer answer' wall mono wall' mono' ->
  exists s', consume_auth_code (Some code) answer' wall' mono' s = (Ok (Some data), s') /\ (answer <> RedisLost -> gone code s').
Proof.
  intros Hc Hp Hl Hr Hm Hreach. rewrite consume_keyed by done. unfold gone. revert Hr Hm Hl. generalize (_code_key code) loads. intros key ld Hr Hm Hl.
  destruct payload as [|d payload]; [done|]. unfold mbind, op_bind, redis_take, mem_take, mret, op_ret.
  destruct Hreach as [(Ha & -> & Hlt)|(Ha & Hlt)].
  - rewrite decide_False in Hr by done. rewrite Hr, (proj2 (Z.ltb_lt _ _) Hlt). cbn. rewrite Hl. eexists. split; [done|].
    intros Hlost. cbn. rewrite lookup_delete_eq, Hm. split; [done|]. destruct answer; done || by rewrite decide_True.
  - rewrite decide_False in Hm by done. destruct answer; [done|rewrite decide_False in Hr by done|rewrite decide_True in Hr by done].
    + destruct answer'; cbn; rewrite ?Hr; cbn; [destruct (Z.ltb_spec wall' (wall + seconds CODE_TTL_SECONDS))|..]; cbn; rewrite ?Hm, ?(proj2 (Z.leb_gt _ _) Hlt); cbn; rewrite Hl; by eexists.
    + destruct answer'; cbn; rewrite ?Hr; cbn; rewrite ?Hm, ?(proj2 (Z.leb_gt _ _) Hlt); cbn; rewrite Hl; eexists; split; try done; intros _; cbn;
        rewrite ?lookup_delete_eq, ?Hr; done.
Qed.

Lemma create_entries user version uri challenge code answer wall mono s : gone code s ->
  let s1 := (create_auth_code user version uri challenge code answer wall mono s).2 in
  let payload := json_dumps (code_payload user version uri challenge) in
  (redis_codes s1 !! _code_key code = if decide (answer = RedisDown) then None else Some (payload, wall + seconds CODE_TTL_SECONDS)) /\
  (mem_codes s1 !! _code_key code = if decide (answer = RedisDone) then None else Some (payload, mono + seconds CODE_TTL_SECONDS)).
Proof.
  intros [Hr Hm]. unfold create_auth_code.
  destruct answer; cbn [snd set_codes redis_codes mem_codes]; rewrite ?lookup_insert_eq; by repeat case_decide.
Qed.

Lemma around_gone code until s s' : rtc (around_attempts code until) s s' -> gone code s -> gone code s'.
Proof.
  induction 1 as [|x y z Hc _ IH]; [done|]. intros [Hr Hm]. apply IH. destruct Hc as [x y Hc|verifier uri answer wall mono x].
  - unfold gone. destruct (around_keeps _ _ _ _ Hc) as [-> ->]; [by rewrite Hm|done].
  - unfold gone. rewrite redeem_state. destruct (consume_codes (Some code) answer wall mono x) as [Hr' Hm']. split; [by apply Hr'|by apply Hm'].
Qed.

Lemma redeem_none code verifier redirect answer wall mono s s2 : consume_auth_code (Some code) answer wall mono s = (Ok None, s2) ->
  redeem_auth_code (Some code) verifier redirect answer wall mono s = (Raise unknown_code, s2).
Proof. intros Hc. unfold redeem_auth_code. by erewrite op_bind_ok; [|exact Hc]. Qed.

(** C27: a code is worth what it was issued for, and no more, with redis up, down or
    silent at each call and whatever is done to other codes and to people in
    between.  First, any attempt that gives an account, at any time and after
    any attempts, gives the account the code was issued to, within two minutes
    of its issue on one of the two clocks, to one who names the address it was
    issued for and holds the verifier of its challenge, and only while the account
    is neither gone nor disabled nor signed out everywhere since the issue.
    Second, as long as nobody attempted it yet, such an attempt succeeds, within
    the two minutes, where it reaches the store the code was put in; every other
    attempt is refused.  Third, an attempt that reaches the code, successful or
    refused, spends it: every later one is refused as unknown.  This last needs
    that the answer of redis was not lost when the code was issued. *)
Theorem redeem_correct user version uri challenge code answer wall mono s0 :
  code <> [] -> Forall plain uri -> Forall plain challenge -> uri <> [] -> challenge <> [] -> gone code s0 ->
  let s1 := (create_auth_code user version uri challenge code answer wall mono s0).2 in
  let until := mono + seconds CODE_TTL_SECONDS in
  (forall s verifier redirect answer' wall' mono' who account s2, rtc (around_attempts code until) s1 s ->
     redeem_auth_code (Some code) verifier redirect answer' wall' mono' s = (Ok (who, account), s2) ->
     who = user /\ redeems user version uri challenge verifier redirect s account /\
     (wall' < wall + seconds CODE_TTL_SECONDS \/ mono' < until)) /\
  (forall s verifier redirect answer' wall' mono', rtc (around_code code until) s1 s -> reaches_code answer answer' wall mono wall' mono' ->
     exists r s2, redeem_auth_code (Some code) verifier redirect answer' wall' mono' s = (r, s2) /\
       (forall account, redeems user version uri challenge verifier redirect s account -> r = Ok (user, account)) /\
       ((forall account, ~ redeems user version uri challenge verifier redirect s account) -> exists message, r = Raise (_invalid_grant message)) /\
       (answer <> RedisLost -> forall s3 verifier redirect answer'' wall'' mono'', rtc (around_attempts code until) s2 s3 ->
          (redeem_auth_code (Some code) verifier redirect answer'' wall'' mono'' s3).1 = Raise unknown_code)).
Proof.
  intros Hc Hu Hch Hune Hcne Hg s1 until. set (payload := json_dumps (code_payload user version uri challenge)).
  pose proof (payload_read user version uri challenge Hu Hch : loads payload = Some (JObj (issued_fields user version uri challenge))) as Hread.
  assert (payload <> []) as Hp by (unfold payload; cbn [json_dumps code_payload]; discriminate).
  destruct (create_entries user version uri challenge code answer wall mono s0 Hg) as [Hr1 Hm1]. fold s1 payload until in Hr1, Hm1.
  clearbody payload. split.
  - intros s verifier redirect answer' wall' mono' who account s2 Hs Hok.
    assert (entries code payload (wall + seconds CODE_TTL_SECONDS) until s) as He.
    { assert (entries code payload (wall + seconds CODE_TTL_SECONDS) until s1) as He by (split; intros x Hx; [rewrite Hr1 in Hx; destruct (decide (answer = RedisDown))|rewrite Hm1 in Hx; destruct (decide (answer = RedisDone))]; congruence).
      clear Hok Hr1 Hm1. clearbody s1. induction Hs as [|x y z Hxy _ IH]; [done|]. apply IH. clear IH. destruct Hxy as [x y Hxy|v u a w m x].
      - destruct (around_keeps _ _ _ _ Hxy) as [Er Em]; [intros e Hx%He; by subst|]. unfold entries. by rewrite Er, Em.
      - pose proof (consume_entries code payload _ (wall + seconds CODE_TTL_SECONDS) until a w m x Hc Hp Hread He) as Hx.
        rewrite redeem_state. destruct (consume_auth_code _ _ _ _ _). by destruct Hx. }
    pose proof (consume_entries code payload _ _ _ answer' wall' mono' s Hc Hp Hread He) as Hx.
    pose proof (consume_other (Some code) answer' wall' mono' s) as [Hus _].
    destruct (consume_auth_code (Some code) answer' wall' mono' s) as [x s3] eqn:Hcons. destruct Hx as [_ [-> |[-> Htime]]].
    + by rewrite (redeem_none _ _ _ _ _ _ _ _ Hcons) in Hok.
    + destruct (redeem_taken user version uri challenge code verifier redirect answer' wall' mono' s s3 Hch Hune Hcne Hcons Hus) as (r & Hr & Hor).
      rewrite Hr in Hok. destruct Hor as [(a & -> & Ha)|[[message ->] _]]; [|done]. by injection Hok as <- <- <-.
  - intros s verifier redirect answer' wall' mono' Hs Hreach.
    assert (redis_codes s !! _code_key code = redis_codes s1 !! _code_key code /\ mem_codes s !! _code_key code = mem_codes s1 !! _code_key code)
      as [Er Em].
    { assert (forall e, mem_codes s1 !! _code_key code = Some e -> until <= e.2) as Hlate
        by (intros e; rewrite Hm1; case_decide; [done|]; by intros [= <-]).
      clear Hr1 Hm1. clearbody s1. induction Hs as [|x y z Hxy _ IH]; [done|]. destruct (around_keeps _ _ _ _ Hxy Hlate) as [Er Em].
      destruct IH as [-> ->]; [by rewrite Em|done]. }
    destruct (consume_reaches code payload _ answer answer' wall mono wall' mono' s Hc Hp Hread ltac:(by rewrite Er, Hr1) ltac:(by rewrite Em, Hm1) Hreach)
      as (s2 & Hcons & Hgone).
    pose proof (consume_other (Some code) answer' wall' mono' s) as [Hus _]. rewrite Hcons in Hus.
    destruct (redeem_taken user version uri challenge code verifier redirect answer' wall' mono' s s2 Hch Hune Hcne Hcons Hus) as (r & Hr & Hor).
    exists r, s2. split_and!; [done|..].
    + intros account Ha. destruct Hor as [(a & -> & Ha')|[_ Hno]]; [|by destruct (Hno account)].
      destruct Ha as [_ _ Ha _], Ha' as [_ _ Ha' _]. congruence.
    + intros Hno. destruct Hor as [(a & _ & Ha)|[? _]]; [by destruct (Hno a)|done].
    + intros Hlost s3 v u a w m H3. pose proof (around_gone _ _ _ _ H3 (Hgone Hlost)) as Hg3.
      destruct (consume_gone code a w m s3 Hg3) as [s4 H4]. by rewrite (redeem_none _ _ _ _ _ _ _ _ H4).
Qed.

(** not so when an answer of redis is lost: the code is then in redis and in
    the process's memory, and taken from redis it is still in memory, where the
    next call takes it again. *)
Theorem lost_answer_allows_second_use user version uri challenge code wall mono wall' mono' s :
  code <> [] -> Forall plain uri -> Forall plain challenge ->
  wall' < wall + seconds CODE_TTL_SECONDS -> mono' < mono + seconds CODE_TTL_SECONDS ->
  exists s1 s2 data, consume_auth_code (Some code) RedisDone wall' mono'
      (create_auth_code user version uri challenge code RedisLost wall mono s).2 = (Ok (Some data), s1) /\
    consume_auth_code (Some code) RedisDone wall' mono' s1 = (Ok (Some data), s2) /\
    JObj data = code_payload user version uri challenge.
Proof.
  intros Hc Hu Hch Hw Hm.
  assert (Hpay : exists c t, json_dumps (code_payload user version uri challenge) = c :: t)
    by (cbn [json_dumps code_payload]; eexists _, _; reflexivity).
  pose proof (payload_read user version uri challenge Hu Hch) as Hread.
  destruct Hpay as (d & payload & Hp). destruct code as [|c code]; [done|].
  unfold create_auth_code, consume_auth_code, mbind, op_bind, redis_take, mem_take, mret, op_ret. generalize (_code_key (c :: code)). intros key.
  rewrite Hp in *. revert Hread. generalize loads. intros ld Hread. cbn [snd set_codes redis_codes mem_codes].
  rewrite lookup_insert_eq, (proj2 (Z.ltb_lt wall' _)) by done.
  cbn. rewrite Hread. eexists _, _, _. split; [reflexivity|]. cbn [snd set_codes redis_codes mem_codes].
  rewrite lookup_delete_eq. cbn [snd set_codes redis_codes mem_codes].
  rewrite lookup_insert_eq, (proj2 (Z.leb_gt _ mono')) by done. rewrite Hread. by eexists.
Qed.
End redeeming.

(** ** Witnesses *)

#[local] Instance trace_str : PyStr := ascii_str.
#[local] Instance trace_category : PyCategory := ascii_category.
#[local] Instance trace_re : PyRe := ascii_re.
#[local] Instance trace_ints : PyInt := {| int_of_str _ := None; int_of_float _ := None |}.
#[local] Instance trace_repr : PyRepr := plain_repr.
#[local] Instance trace_tokens : PyFloat := no_floats.

(** A browser that its owner disconnected at 1 is asked to refresh again. *)
Definition disconnected : ExtensionSession := es_end 1 REVOKED_BY_USER new_browser.

Lemma ended_token_never_works_witness :
  exists e, authenticate (ACCESS_TOKEN_PREFIX ++ of_string "a") false 5
    (touch_session "b" None false 3 (one_browser disconnected)).2 =
    (Raise e, (touch_session "b" None false 3 (one_browser disconnected)).2).
Proof.
  apply (ended_token_never_works sample_key (ACCESS_TOKEN_PREFIX ++ of_string "a") "b" disconnected (one_browser disconnected)).
  - apply one_unique.
  - reflexivity.
  - reflexivity.
  - reflexivity.
  - apply rtc_once, call_touch.
Defined.

Lemma purge_ended_correct_witness :
  exists n s', purge_ended_sessions 1 (fun _ s => s) (days 91) (one_browser disconnected) = (Ok n, s') /\ ended_ids (days 1) s' = [].
Proof.
  destruct (purge_ended_correct 1 (fun _ s => s) (days 91) (one_browser disconnected)) as (n & s' & Hr & He & _).
  - assert (length (ended_ids (days 91 - ENDED_SESSION_RETENTION) (one_browser disconnected)) = 1%nat) as -> by (vm_compute; reflexivity).
    unfold _PURGE_BATCH. lia.
  - intros i x id Hid. exact Hid.
  - exists n, s'. split; [exact Hr|exact He].
Defined.

Definition sample_uri : text := of_string "https://browser.example/connected".
Definition sample_verifier : text := of_string "dBjftJeZ4CVP-mB92K27uhbUJU1p1r_wW1gFWFOEjXk".
Definition sample_challenge : text := of_string "E9Melhoa2OwvFrEMTJguCHaoeK1t8URWbuGJSstw-cM".
Definition sample_code : text := of_string "c0de".

Lemma plain_decide t : forallb (fun c => (32 <=? c) && (c <? 127) && negb (c =? 34) && negb (c =? 92)) t = true -> Forall plain t.
Proof. intros Ht. apply Forall_forall. intros c Hc%list_elem_of_In. rewrite forallb_forall in Ht. specialize (Ht c Hc). unfold plain. lia. Qed.

Lemma sample_uri_plain : Forall plain sample_uri.
Proof. by apply plain_decide. Qed.

Lemma sample_challenge_plain : Forall plain sample_challenge.
Proof. by apply plain_decide. Qed.

Definition no_browsers : Server := MkServer ∅ {[7 := MkUser true None 2]} [] ∅ ∅.

#[local] Opaque _code_key.

Lemma none_gone code : gone code no_browsers.
Proof. by split. Qed.

(** The code that person 7 got at 0, redis being down. *)
Definition code_issued : Server := (create_auth_code 7 2 sample_uri sample_challenge sample_code RedisDown 0 0 no_browsers).2.

Lemma issued_read : exists data s1, consume_auth_code (Some sample_code) RedisDown 1 1 code_issued = (Ok (Some data), s1).
Proof.
  destruct (create_stored 7 2 sample_uri sample_challenge sample_code RedisDown 0 0 1 1 no_browsers) as [_ (expires & Hst)];
    [discriminate|reflexivity|reflexivity|].
  destruct (consume_stored sample_code RedisDown 1 1 code_issued (json_dumps (code_payload 7 2 sample_uri sample_challenge)) expires)
    as (s1 & Hc & _); [discriminate|discriminate|exact Hst|].
  rewrite (payload_read 7 2 _ _ sample_uri_plain sample_challenge_plain) in Hc. eexists _, s1. exact Hc.
Qed.

Lemma code_used_once_witness :
  exists s1 s3, (consume_auth_code (Some sample_code) RedisDown 1 1 code_issued).2 = s1 /\
    consume_auth_code (Some sample_code) RedisDone 2 2 s1 = (Ok None, s3).
Proof.
  destruct issued_read as (data & s1 & Hc).
  destruct (code_used_once sample_code 7 2 sample_uri sample_challenge RedisDown 0 0 no_browsers code_issued RedisDown 1 1 data s1 s1
    RedisDone 2 2 (none_gone _) ltac:(discriminate) (rtc_refl _ _) ltac:(discriminate) Hc (rtc_refl _ _)) as (s3 & Hn).
  exists s1, s3. rewrite Hc. split; [reflexivity|exact Hn].
Defined.

Lemma redeem_correct_witness :
  exists s2, redeem_auth_code (Some sample_code) (Some sample_verifier) (Some sample_uri) RedisDown 1 1 code_issued =
    (Ok (7, MkUser true None 2), s2).
Proof.
  destruct (redeem_correct 7 2 sample_uri sample_challenge sample_code RedisDown 0 0 no_browsers ltac:(discriminate)
    sample_uri_plain sample_challenge_plain ltac:(discriminate) ltac:(discriminate) (none_gone _)) as [_ Hlive].
  destruct (Hlive code_issued (Some sample_verifier) (Some sample_uri) RedisDown 1 1 (rtc_refl _ _)) as (r & s2 & Hr & Hok & _).
  - right. split; [discriminate|reflexivity].
  - exists s2. rewrite <- (Hok (MkUser true None 2)); [exact Hr|]. constructor; [reflexivity| |reflexivity|].
    + exists sample_verifier. split; [reflexivity|split; [discriminate|split; vm_compute; reflexivity]].
    + split; [reflexivity|split; [reflexivity|simpl; lia]].
Defined.

Lemma lost_answer_allows_second_use_witness :
  exists s1 s2 data, consume_auth_code (Some sample_code) RedisDone 1 1
      (create_auth_code 7 2 sample_uri sample_challenge sample_code RedisLost 0 0 no_browsers).2 = (Ok (Some data), s1) /\
    consume_auth_code (Some sample_code) RedisDone 1 1 s1 = (Ok (Some data), s2).
Proof.
  destruct (lost_answer_allows_second_use 7 2 sample_uri sample_challenge sample_code 0 0 1 1 no_browsers) as (s1 & s2 & data & Hone & Htwo & _).
  - discriminate.
  - apply sample_uri_plain.
  - apply sample_challenge_plain.
  - reflexivity.
  - reflexivity.
  - exists s1, s2, data. split; [exact Hone|exact Htwo].
Defined.
