(* ===== verification/Rbac.v ===== *)
(** * Roles of the administration

    rbac.py: the catalogue of roles, which menu each covers, who may read and who
    may write one, the actions of Agents & Knowledge, and the menu of a path.  A
    [frozenset] is the list of its members. *)

From S2P Require Import Prelude Text PyText.

Inductive MenuKey :=
  | m_dashboard | m_chat | m_media | m_connections | m_models | m_api_keys | m_roles | m_users | m_deleted_users | m_groups | m_plans |
  m_authentication | m_smtp | m_storage | m_reports | m_api_logs | m_sign_in_activity | m_operations | m_database | m_chat_tools | m_memory |
  m_agents | m_admin_guide | m_user_manual | m_security_settings | m_guardrails | m_tickets | m_exchange_ews.

Inductive CategoryKey :=
  | c_overview | c_models_api | c_chat_experience | c_people_access | c_integrations | c_data_reports | c_agents_knowledge | c_developer | c_security.

#[export] Instance menu_eq_dec : EqDecision MenuKey.
Proof. solve_decision. Defined.

#[export] Instance category_eq_dec : EqDecision CategoryKey.
Proof. solve_decision. Defined.

Definition ALL_SECTIONS_CATEGORY : string := "All sections".
Definition USER_CATEGORY : string := "User".

Definition LEGACY_ADMIN_SLUG : text := of_string "admin".
Definition FULL_ADMIN_SLUG : text := of_string "full_administrator".
Definition READ_ONLY_FULL_ADMIN_SLUG : text := of_string "read_only_full_administrator".
Definition LEGACY_READ_ONLY_ADMIN_SLUG : text := of_string "read_only_administrator".
Definition USER_SLUG : text := of_string "user".
Definition SUPER_ADMIN_SLUG : text := of_string "super_admin".
Definition READ_ONLY_SUPER_ADMIN_SLUG : text := of_string "read_only_super_admin".
Definition API_KEY_ADMIN_SLUG : text := of_string "api_keys_full_administrator".
Definition DASHBOARD_VIEW_SLUG : text := of_string "dashboard_read_only_administrator".
Definition REPORTS_ACCESS_SLUG : text := of_string "reports_full_administrator".
Definition AGENTS_ADMIN_SLUG : text := of_string "agents_administrator".
Definition AGENT_DESIGNER_SLUG : text := of_string "agent_designer".
Definition AGENT_PUBLISHER_SLUG : text := of_string "agent_publisher".
Definition KNOWLEDGE_ADMIN_SLUG : text := of_string "knowledge_administrator".
Definition KNOWLEDGE_CURATOR_SLUG : text := of_string "knowledge_curator".
Definition KNOWLEDGE_PUBLISHER_SLUG : text := of_string "knowledge_publisher".
Definition DOMAIN_APPROVER_SLUG : text := of_string "agent_domain_approver".
Definition TOOL_ADMIN_SLUG : text := of_string "agent_tool_administrator".
Definition AGENT_OPERATIONS_ADMIN_SLUG : text := of_string "agent_operations_administrator".
Definition AGENT_AUDITOR_SLUG : text := of_string "agent_auditor".
Definition SUPPORT_SLUG : text := of_string "support_agent".

Definition REENABLED_SCOPED_ROLE_SLUGS : list text := [DASHBOARD_VIEW_SLUG; REPORTS_ACCESS_SLUG].

Definition MENU_DEFINITIONS : list (MenuKey * string * CategoryKey) :=
  [(m_dashboard, "Dashboard", c_overview); (m_operations, "Operations", c_overview); (m_database, "Database", c_overview);
   (m_tickets, "Tickets", c_overview); (m_chat, "Chat", c_overview); (m_media, "Media", c_overview); (m_connections, "Connections", c_models_api);
   (m_models, "Models", c_models_api); (m_api_keys, "API Keys", c_models_api); (m_chat_tools, "Chat Tools", c_chat_experience);
   (m_memory, "Memory", c_chat_experience); (m_roles, "Roles", c_people_access); (m_users, "Users", c_people_access);
   (m_deleted_users, "Deleted Users", c_people_access); (m_groups, "Groups", c_people_access); (m_plans, "Plans", c_people_access);
   (m_authentication, "Authentication", c_people_access); (m_smtp, "SMTP Server", c_integrations); (m_exchange_ews, "Exchange EWS", c_integrations);
   (m_storage, "Storage", c_data_reports); (m_reports, "Reports", c_data_reports); (m_api_logs, "API Logs", c_data_reports);
   (m_sign_in_activity, "Sign-in Activity", c_data_reports); (m_agents, "Agents & Knowledge", c_agents_knowledge);
   (m_admin_guide, "Admin Guide", c_developer); (m_user_manual, "User Manual", c_developer); (m_security_settings, "Security Settings", c_security);
   (m_guardrails, "Guardrails", c_security)]%string.

Definition menu_name (menu : MenuKey) : string :=
  match menu with
  | m_dashboard => "dashboard" | m_chat => "chat" | m_media => "media" | m_connections => "connections" | m_models => "models" |
  m_api_keys => "api_keys" | m_roles => "roles" | m_users => "users" | m_deleted_users => "deleted_users" | m_groups => "groups" | m_plans => "plans" |
  m_authentication => "authentication" | m_smtp => "smtp" | m_storage => "storage" | m_reports => "reports" | m_api_logs => "api_logs" |
  m_sign_in_activity => "sign_in_activity" | m_operations => "operations" | m_database => "database" | m_chat_tools => "chat_tools" |
  m_memory => "memory" | m_agents => "agents" | m_admin_guide => "admin_guide" | m_user_manual => "user_manual" |
  m_security_settings => "security_settings" | m_guardrails => "guardrails" | m_tickets => "tickets" | m_exchange_ews => "exchange_ews"
  end.

Definition ASSIGNABLE_ADMIN_MENUS : list MenuKey := [m_api_keys].

Definition MENUS_WITHOUT_ASSIGNABLE_ROLES : list MenuKey := filter (.∉ ASSIGNABLE_ADMIN_MENUS) (fst ∘ fst <$> MENU_DEFINITIONS).

Definition USER_APP_MENUS : list MenuKey := [m_chat; m_media; m_user_manual].

Definition _all_historical_menu_role_slugs : list text :=
  MENU_DEFINITIONS ≫= fun '(menu, _, _) =>
    [of_string (menu_name menu +:+ "_full_administrator"); of_string (menu_name menu +:+ "_read_only_administrator")].

Definition REMOVED_ASSIGNABLE_ROLE_SLUGS : list text :=
  [FULL_ADMIN_SLUG; READ_ONLY_FULL_ADMIN_SLUG; of_string "recommendations_full_administrator";
   of_string "recommendations_read_only_administrator"] ++
  filter (.∉ API_KEY_ADMIN_SLUG :: REENABLED_SCOPED_ROLE_SLUGS) _all_historical_menu_role_slugs.

Definition LEGACY_SUPER_ADMIN_SLUGS : list text :=
  [FULL_ADMIN_SLUG; READ_ONLY_FULL_ADMIN_SLUG; LEGACY_READ_ONLY_ADMIN_SLUG; LEGACY_ADMIN_SLUG].
Definition GLOBAL_FULL_ADMIN_SLUGS : list text := [SUPER_ADMIN_SLUG; FULL_ADMIN_SLUG; LEGACY_ADMIN_SLUG].
Definition GLOBAL_READ_ONLY_SLUGS : list text := [READ_ONLY_SUPER_ADMIN_SLUG; READ_ONLY_FULL_ADMIN_SLUG; LEGACY_READ_ONLY_ADMIN_SLUG].
Definition GLOBAL_ROLE_SLUGS : list text := GLOBAL_FULL_ADMIN_SLUGS ++ GLOBAL_READ_ONLY_SLUGS.

Definition MENU_GROUP_KEYS (menu : MenuKey) : option CategoryKey :=
  snd <$> find (fun d => bool_decide (d.1.1 = menu)) MENU_DEFINITIONS.

Definition CATEGORY_LABELS (category : CategoryKey) : string :=
  match category with
  | c_overview => "Overview" | c_models_api => "Models & API" | c_chat_experience => "Chat experience" | c_people_access => "People & access" |
  c_integrations => "Integrations" | c_data_reports => "Data & reports" | c_agents_knowledge => "Agents & Knowledge" | c_developer => "Developer" |
  c_security => "Security"
  end.

Definition MENU_PATH_PREFIXES : list (MenuKey * list string) :=
  [(m_dashboard, ["/admin"; "/admin/my-activity"]); (m_chat, ["/admin/chat"; "/admin/my-connections"]); (m_media, ["/admin/media"]);
   (m_connections, ["/admin/connections"]); (m_models, ["/admin/models"]); (m_api_keys, ["/admin/api-keys"]); (m_roles, ["/admin/roles"]);
   (m_users, ["/admin/users"]); (m_deleted_users, ["/admin/deleted-users"]); (m_groups, ["/admin/groups"]); (m_plans, ["/admin/plans"]);
   (m_authentication, ["/admin/authentication"]); (m_smtp, ["/admin/smtp"]); (m_exchange_ews, ["/admin/exchange-ews"]);
   (m_storage, ["/admin/storage-management"; "/admin/retention-policy"; "/admin/storage"]); (m_reports, ["/admin/reports"; "/admin/project-usage"]);
   (m_api_logs, ["/admin/logs"; "/admin/admin-logs"]); (m_sign_in_activity, ["/admin/sign-in-activity"]);
   (m_operations, ["/admin/operations"; "/admin/debug"]); (m_database, ["/admin/database"]);
   (m_chat_tools, ["/admin/chat-tools"; "/admin/code-interpreter"; "/admin/feature-access"]); (m_memory, ["/admin/memory"]);
   (m_agents, ["/admin/agents"; "/admin/knowledge"; "/admin/agent-tools"; "/admin/agent-evaluations"; "/admin/agent-approvals"; "/admin/agent-activity"]);
   (m_admin_guide, ["/admin/docs"]); (m_user_manual, ["/admin/manual"]); (m_security_settings, ["/admin/security-settings"]);
   (m_guardrails, ["/admin/guardrails"]); (m_tickets, ["/admin/tickets"])]%string.

(** In the order in which [MENU_DEFINITIONS] first names each category. *)
Definition MENUS_BY_CATEGORY : list (CategoryKey * list MenuKey) :=
  (fun category => (category, fst ∘ fst <$> filter (fun d => d.2 = category) MENU_DEFINITIONS)) <$>
  [c_overview; c_models_api; c_chat_experience; c_people_access; c_integrations; c_data_reports; c_agents_knowledge; c_developer; c_security].

(** ** The catalogue *)

Record RoleDefinition := MkRoleDefinition {
  rd_slug : text; rd_name : string; rd_description : string; rd_category : string; rd_menu : option MenuKey;
  rd_read_only : bool; rd_user_panel : bool
}.

Definition _build_role_catalog : list RoleDefinition :=
  [MkRoleDefinition USER_SLUG "User"
     "Standard end-user access to Chat, Media, Activity, and the User Manual."
     USER_CATEGORY None false true;
   MkRoleDefinition SUPER_ADMIN_SLUG "Super Admin"
     "Full read and write access to every admin menu and the entire platform."
     ALL_SECTIONS_CATEGORY None false false;
   MkRoleDefinition READ_ONLY_SUPER_ADMIN_SLUG "Read Only Super Admin"
     "Sees every admin menu and the whole platform, and cannot change any of it."
     ALL_SECTIONS_CATEGORY None true false;
   MkRoleDefinition API_KEY_ADMIN_SLUG "API Key Admin"
     "Full read and write access to the API Keys admin menu."
     (CATEGORY_LABELS c_models_api) (Some m_api_keys) false false;
   MkRoleDefinition DASHBOARD_VIEW_SLUG "Dashboard View"
     "View-only access to the Dashboard admin menu."
     (CATEGORY_LABELS c_overview) (Some m_dashboard) true false;
   MkRoleDefinition REPORTS_ACCESS_SLUG "Reports Access"
     "Access to the Reports admin menu, including preview and export."
     (CATEGORY_LABELS c_data_reports) (Some m_reports) false false;
   MkRoleDefinition SUPPORT_SLUG "Support"
     "Sees, answers, assigns and closes support tickets. Cannot change Tickets settings or delete tickets."
     (CATEGORY_LABELS c_overview) (Some m_tickets) false false;
   MkRoleDefinition AGENTS_ADMIN_SLUG "Agents Administrator"
     "Manage the full Agents & Knowledge domain without bypassing required approvals."
     (CATEGORY_LABELS c_agents_knowledge) (Some m_agents) false false;
   MkRoleDefinition AGENT_DESIGNER_SLUG "Agent Designer"
     "Create, clone, edit, test, and submit Agent drafts without publishing."
     (CATEGORY_LABELS c_agents_knowledge) (Some m_agents) false false;
   MkRoleDefinition AGENT_PUBLISHER_SLUG "Agent Publisher"
     "Review, publish, archive, and roll back Agent versions."
     (CATEGORY_LABELS c_agents_knowledge) (Some m_agents) false false;
   MkRoleDefinition KNOWLEDGE_ADMIN_SLUG "Knowledge Administrator"
     "Manage Knowledge Bases, ACLs, retrieval policy, and Agent bindings."
     (CATEGORY_LABELS c_agents_knowledge) (Some m_agents) false false;
   MkRoleDefinition KNOWLEDGE_CURATOR_SLUG "Knowledge Curator"
     "Manage documents, metadata, sources, connectors, and ingestion drafts."
     (CATEGORY_LABELS c_agents_knowledge) (Some m_agents) false false;
   MkRoleDefinition KNOWLEDGE_PUBLISHER_SLUG "Knowledge Publisher"
     "Review, publish, archive, and roll back Knowledge releases."
     (CATEGORY_LABELS c_agents_knowledge) (Some m_agents) false false;
   MkRoleDefinition DOMAIN_APPROVER_SLUG "Agent Domain Approver"
     "Approve sensitive HR, Legal, and Finance changes and bindings."
     (CATEGORY_LABELS c_agents_knowledge) (Some m_agents) false false;
   MkRoleDefinition TOOL_ADMIN_SLUG "Agent Tool Administrator"
     "Register and govern Agent tools, permissions, and compatibility."
     (CATEGORY_LABELS c_agents_knowledge) (Some m_agents) false false;
   MkRoleDefinition AGENT_OPERATIONS_ADMIN_SLUG "Agent Operations Administrator"
     "Operate ingestion jobs, dead-letter queues, indexes, and reconciliation."
     (CATEGORY_LABELS c_agents_knowledge) (Some m_agents) false false;
   MkRoleDefinition AGENT_AUDITOR_SLUG "Agent Auditor"
     "Read-only access to Agent evaluation, activity, and audit evidence."
     (CATEGORY_LABELS c_agents_knowledge) (Some m_agents) true false]%string.

Definition ROLE_CATALOG : list RoleDefinition := _build_role_catalog.

Definition ROLE_BY_SLUG (slug : text) : option RoleDefinition := find (fun r => bool_decide (rd_slug r = slug)) ROLE_CATALOG.

Definition VALID_ROLE_SLUGS : list text := (rd_slug <$> ROLE_CATALOG) ++ LEGACY_SUPER_ADMIN_SLUGS.

Definition AGENT_DOMAIN_PERMISSIONS : list text := of_string <$>
  ["agent.read"; "agent.create"; "agent.edit"; "agent.test"; "agent.submit"; "agent.review"; "agent.publish"; "agent.rollback"; "agent.archive";
   "agent.access.manage"; "agent.knowledge.bind"; "knowledge.read"; "knowledge.create"; "knowledge.edit"; "knowledge.access.manage";
   "knowledge.documents.write"; "knowledge.connectors.manage"; "knowledge.sync.run"; "knowledge.review"; "knowledge.publish"; "knowledge.rollback";
   "knowledge.purge"; "tool.read"; "tool.manage"; "evaluation.read"; "evaluation.run"; "evaluation.manage"; "approval.read"; "approval.approve";
   "activity.read"; "governance.read"; "governance.hold.manage"; "governance.retention.run"; "operations.read"; "operations.retry"; "operations.reindex"]%string.

Definition AGENT_READ_PERMISSIONS : list text := of_string <$>
  ["agent.read"; "knowledge.read"; "tool.read"; "evaluation.read"; "approval.read"; "activity.read"; "governance.read"; "operations.read"]%string.

Definition AGENT_ROLE_PERMISSIONS : list (text * list text) :=
  [(AGENTS_ADMIN_SLUG, AGENT_DOMAIN_PERMISSIONS);
   (AGENT_DESIGNER_SLUG, of_string <$>
     ["agent.read"; "agent.create"; "agent.edit"; "agent.test"; "agent.submit"; "knowledge.read"; "tool.read"; "evaluation.read"; "evaluation.run"]%string);
   (AGENT_PUBLISHER_SLUG, of_string <$>
     ["agent.read"; "agent.review"; "agent.publish"; "agent.rollback"; "agent.archive"; "knowledge.read"; "evaluation.read"; "approval.read"]%string);
   (KNOWLEDGE_ADMIN_SLUG, of_string <$>
     ["agent.read"; "agent.knowledge.bind"; "knowledge.read"; "knowledge.create"; "knowledge.edit"; "knowledge.access.manage"; "knowledge.documents.write";
      "knowledge.connectors.manage"; "knowledge.sync.run"; "knowledge.purge"; "operations.read"]%string);
   (KNOWLEDGE_CURATOR_SLUG, of_string <$>
     ["knowledge.read"; "knowledge.edit"; "knowledge.documents.write"; "knowledge.connectors.manage"; "knowledge.sync.run"; "operations.read"]%string);
   (KNOWLEDGE_PUBLISHER_SLUG, of_string <$>
     ["knowledge.read"; "knowledge.review"; "knowledge.publish"; "knowledge.rollback"; "approval.read"]%string);
   (DOMAIN_APPROVER_SLUG, of_string <$>
     ["agent.read"; "knowledge.read"; "approval.read"; "approval.approve"; "activity.read"]%string);
   (TOOL_ADMIN_SLUG, of_string <$>
     ["agent.read"; "tool.read"; "tool.manage"; "activity.read"]%string);
   (AGENT_OPERATIONS_ADMIN_SLUG, of_string <$>
     ["knowledge.read"; "operations.read"; "operations.retry"; "operations.reindex"; "activity.read"; "governance.read"; "governance.hold.manage";
      "governance.retention.run"]%string);
   (AGENT_AUDITOR_SLUG, of_string <$>
     ["agent.read"; "knowledge.read"; "tool.read"; "evaluation.read"; "approval.read"; "activity.read"; "governance.read"; "operations.read"]%string)].

(** ** One role *)

Definition ends_with (suffix s : text) : bool := starts_with (rev suffix) (rev s).

Section roles.
Context `{PyStr}.

Definition normalize_role_slug (role : text) : text :=
  let slug := py_lower (strip (match role with [] => USER_SLUG | _ => role end)) in
  if bool_decide (slug = LEGACY_ADMIN_SLUG) then FULL_ADMIN_SLUG
  else if bool_decide (slug = LEGACY_READ_ONLY_ADMIN_SLUG) then READ_ONLY_FULL_ADMIN_SLUG
  else slug.

Definition expand_legacy_role_slug (slug : text) : list text :=
  let raw := py_lower (strip slug) in
  if bool_decide (raw ∈ [LEGACY_ADMIN_SLUG; FULL_ADMIN_SLUG; SUPER_ADMIN_SLUG]) then [SUPER_ADMIN_SLUG]
  else if bool_decide (raw ∈ [LEGACY_READ_ONLY_ADMIN_SLUG; READ_ONLY_FULL_ADMIN_SLUG]) then [READ_ONLY_SUPER_ADMIN_SLUG]
  else if bool_decide (raw = API_KEY_ADMIN_SLUG) then [API_KEY_ADMIN_SLUG]
  else if bool_decide (raw ∈ REMOVED_ASSIGNABLE_ROLE_SLUGS) then []
  else match ROLE_BY_SLUG raw with
  | Some _ => [raw]
  | None =>
      let section (category : CategoryKey) : string := match category with
        | c_overview => "overview" | c_models_api => "models_api" | c_chat_experience => "chat_experience"
        | c_people_access => "people_access" | c_integrations => "integrations" | c_data_reports => "data_reports"
        | c_agents_knowledge => "agents_knowledge" | c_developer => "developer" | c_security => "security" end in
      match find (fun '(category, _) => bool_decide (raw = of_string (section category +:+ "_full_administrator"))) MENUS_BY_CATEGORY with
      | Some (_, menus) => (fun menu => of_string (menu_name menu +:+ "_full_administrator")) <$> filter (.∈ ASSIGNABLE_ADMIN_MENUS) menus
      | None => []
      end
  end.

Definition is_assignable_role_slug (role : text) : bool :=
  let slug := normalize_role_slug role in
  match ROLE_BY_SLUG slug with Some _ => negb (bool_decide (slug ∈ REMOVED_ASSIGNABLE_ROLE_SLUGS)) | None => false end.

Definition is_valid_role_slug (role : text) : bool := is_assignable_role_slug role.

Definition get_role_definition (role : text) : option RoleDefinition :=
  let slug := normalize_role_slug role in
  if bool_decide (slug ∈ REMOVED_ASSIGNABLE_ROLE_SLUGS) then None else ROLE_BY_SLUG slug.

Definition is_legacy_super_admin_slug (slug : text) : bool :=
  bool_decide (normalize_role_slug slug ∈ [FULL_ADMIN_SLUG; READ_ONLY_FULL_ADMIN_SLUG]).

Definition is_admin_panel_role (role : text) : bool :=
  let slug := normalize_role_slug role in
  if bool_decide (slug ∈ filter (.∉ [FULL_ADMIN_SLUG; READ_ONLY_FULL_ADMIN_SLUG]) REMOVED_ASSIGNABLE_ROLE_SLUGS) then false
  else if bool_decide (slug ∈ GLOBAL_ROLE_SLUGS) then true
  else match get_role_definition slug with Some definition => negb (rd_user_panel definition) | None => false end.

Definition is_full_administrator (role : text) : bool := bool_decide (normalize_role_slug role ∈ GLOBAL_FULL_ADMIN_SLUGS).

Definition is_read_only_role (role : text) : bool :=
  bool_decide (normalize_role_slug role ∈ GLOBAL_READ_ONLY_SLUGS) ||
  match get_role_definition role with Some definition => rd_read_only definition | None => false end.

(** [None]: every menu. *)
Definition accessible_menu_keys (role : text) : option (list MenuKey) :=
  let slug := normalize_role_slug role in
  if bool_decide (slug ∈ GLOBAL_ROLE_SLUGS) then None
  else Some match get_role_definition slug with
  | Some definition => if rd_user_panel definition then [] else match rd_menu definition with Some menu => [menu] | None => [] end
  | None => []
  end.

Definition can_access_menu (role : text) (menu : MenuKey) : bool :=
  is_admin_panel_role role && match accessible_menu_keys role with None => true | Some allowed => bool_decide (menu ∈ allowed) end.

Definition can_write_menu (role : text) (menu : option MenuKey) : bool :=
  if negb (is_admin_panel_role role) then false
  else
    let slug := normalize_role_slug role in
    let writes := negb (bool_decide (slug ∈ GLOBAL_READ_ONLY_SLUGS)) && negb (ends_with (of_string "_read_only_administrator") slug) in
    match menu with
    | Some menu => if bool_decide (menu ∈ USER_APP_MENUS) then true else can_access_menu role menu && writes
    | None => writes
    end.

(** ** The roles a person holds *)

(** [{normalize_role_slug(s) for s in slugs if s}] *)
Definition normalized_slugs (slugs : list text) : list text := normalize_role_slug <$> filter (.≠ []) slugs.

Definition user_has_super_admin_access (slugs : list text) : bool :=
  let normalized := normalized_slugs slugs in
  bool_decide (SUPER_ADMIN_SLUG ∈ normalized) || (bool_decide (FULL_ADMIN_SLUG ∈ normalized) || bool_decide (LEGACY_ADMIN_SLUG ∈ normalized)).

Definition grants_platform_wide_role (slugs : list text) : bool := existsb (fun s => bool_decide (s ∈ GLOBAL_ROLE_SLUGS)) (normalized_slugs slugs).

Definition actor_may_assign_roles (actor_slugs new_slugs : list text) (previous_slugs : option (list text)) : bool :=
  let actor_is_super := user_has_super_admin_access actor_slugs in
  if grants_platform_wide_role new_slugs && negb actor_is_super then false
  else negb (match previous_slugs with Some previous => grants_platform_wide_role previous | None => false end && negb actor_is_super).

Definition user_has_super_read_only_access (slugs : list text) : bool :=
  existsb (fun s => bool_decide (s ∈ GLOBAL_READ_ONLY_SLUGS)) (normalized_slugs slugs).

Definition user_is_admin_panel (slugs : list text) : bool := existsb is_admin_panel_role slugs.

Definition user_is_read_only_admin (slugs : list text) : bool := user_is_admin_panel slugs && user_has_super_read_only_access slugs.

Definition _admin_role_slugs (slugs : list text) : list text := normalize_role_slug <$> filter (fun s => is_admin_panel_role s = true) slugs.

Definition effective_accessible_menu_keys (slugs : list text) : option (list MenuKey) :=
  let admin_slugs := _admin_role_slugs slugs in
  match admin_slugs with
  | [] => Some []
  | _ =>
      if user_has_super_admin_access admin_slugs || user_has_super_read_only_access admin_slugs then None
      else Some ((normalize_role_slug <$> admin_slugs) ≫= fun slug =>
        if bool_decide (slug ∈ GLOBAL_ROLE_SLUGS) then [] else default [] (accessible_menu_keys slug))
  end.

Definition effective_accessible_category_keys (slugs : list text) : option (list CategoryKey) :=
  match effective_accessible_menu_keys slugs with Some menus => Some (omap MENU_GROUP_KEYS menus) | None => None end.

Definition user_can_access_menu (slugs : list text) (menu : MenuKey) : bool := existsb (fun s => can_access_menu s menu) slugs.

Definition write_one_menu (slugs : list text) (menu : MenuKey) : bool :=
  let admin_slugs := _admin_role_slugs slugs in
  match admin_slugs with
  | [] => false
  | _ =>
      if bool_decide (menu ∈ USER_APP_MENUS) then true
      else match filter (fun s => can_access_menu s menu = true) admin_slugs with
      | [] => false
      | contributors => forallb (fun s => can_write_menu s (Some menu)) contributors
      end
  end.

Definition user_can_write_menu (slugs : list text) (menu : option MenuKey) : bool :=
  match menu with
  | Some menu => write_one_menu slugs menu
  | None =>
      match _admin_role_slugs slugs with
      | [] => false
      | _ => existsb (write_one_menu slugs) (filter (.∉ USER_APP_MENUS) (fst ∘ fst <$> MENU_DEFINITIONS))
      end
  end.

Definition user_can_work_tickets (slugs : list text) : bool := user_can_write_menu slugs (Some m_tickets).

Definition agent_permissions_for_slugs (slugs : list text) : list text :=
  let normalized := normalized_slugs slugs in
  let permissions :=
    if existsb (fun slug => user_has_super_admin_access [slug]) normalized then AGENT_DOMAIN_PERMISSIONS
    else normalized ≫= fun slug =>
      match find (fun rp => bool_decide (rp.1 = slug)) AGENT_ROLE_PERMISSIONS with Some (_, granted) => granted | None => [] end in
  if existsb (fun s => bool_decide (s ∈ GLOBAL_READ_ONLY_SLUGS)) normalized then AGENT_READ_PERMISSIONS else permissions.

Definition user_has_agent_permission (slugs : list text) (permission : text) : bool :=
  let permission := py_lower (strip permission) in
  bool_decide (permission ∈ AGENT_DOMAIN_PERMISSIONS) && bool_decide (permission ∈ agent_permissions_for_slugs slugs).

(** ** The primary role *)

Definition _role_privilege_rank (slug : text) : Z :=
  let slug := normalize_role_slug slug in
  if bool_decide (slug = USER_SLUG) then 0
  else if bool_decide (slug ∈ GLOBAL_READ_ONLY_SLUGS) then 10
  else if is_read_only_role slug then 20
  else if bool_decide (slug = SUPER_ADMIN_SLUG) then 50
  else if bool_decide (slug = FULL_ADMIN_SLUG) then 40
  else if ends_with (of_string "_full_administrator") slug then 30
  else if is_admin_panel_role slug then 25
  else 0.

(** [min(slugs, key=_role_privilege_rank)]: the first of the least. *)
Fixpoint least_privileged (best : text) (slugs : list text) : text :=
  match slugs with
  | [] => best
  | s :: slugs => least_privileged (if _role_privilege_rank s <? _role_privilege_rank best then s else best) slugs
  end.

Definition primary_role_slug (slugs : list text) : text :=
  match normalized_slugs slugs with
  | [] => USER_SLUG
  | s :: rest =>
      match filter (fun s => is_admin_panel_role s = true) (s :: rest) with
      | a :: admins => least_privileged a admins
      | [] => if bool_decide (USER_SLUG ∈ s :: rest) then USER_SLUG else least_privileged s rest
      end
  end.
End roles.

(** ** The menu of a path *)

(** [path.rstrip("/")] *)
Fixpoint skip_slashes (s : text) : text := match s with 47 :: s => skip_slashes s | _ => s end.

Definition normalized_path (path : text) : text := match rev (skip_slashes (rev path)) with [] => [47] | p => p end.

Definition covers (path prefix : text) : bool := bool_decide (path = prefix) || starts_with (prefix ++ [47]) path.

Definition better_menu (path : text) (best : option MenuKey * Z) (entry : MenuKey * text) : option MenuKey * Z :=
  let '(menu, prefix) := entry in
  let longer := best.2 <? Z.of_nat (length prefix) in
  if bool_decide (prefix = of_string "/admin") then
    if bool_decide (path = of_string "/admin") && longer then (Some menu, Z.of_nat (length prefix)) else best
  else if covers path prefix && longer then (Some menu, Z.of_nat (length prefix)) else best.

Definition menu_prefixes : list (MenuKey * text) :=
  MENU_PATH_PREFIXES ≫= fun '(menu, prefixes) => (fun prefix => (menu, of_string prefix)) <$> prefixes.

Definition path_to_menu (path : text) : option MenuKey :=
  (foldl (better_menu (normalized_path path)) (None, -1) menu_prefixes).1.
