(* ===== verification/RbacFacts.v ===== *)
(** * What the roles of the administration grant

    Reading a menu is a union over the roles held and writing one a unanimous
    vote; the platform's own menus are written by Super Admin alone; a read-only
    platform role writes nothing; and a path belongs to its most specific menu. *)

From S2P Require Import Prelude Text PyText Rbac.

#[local] Open Scope Z_scope.

(** The characters of slugs. *)
Definition slug_char (c : Z) : bool := ((97 <=? c) && (c <=? 122)) || ((48 <=? c) && (c <=? 57)) || bool_decide (c ∈ [45; 46; 58; 95]).

(** What the code relies on of [str.strip] and [str.lower]. *)
Class PySlugs `{PyStr} : Prop := {
  slug_not_space c : slug_char c = true -> py_isspace c = false;
  slug_lower s : forallb slug_char s = true -> py_lower s = s;
  lower_strip_idem s : py_lower (strip (py_lower (strip s))) = py_lower (strip s);
  lower_nil s : py_lower s = [] -> s = []
}.

Definition known_slugs : list text := (rd_slug <$> ROLE_CATALOG) ++ GLOBAL_ROLE_SLUGS ++ REMOVED_ASSIGNABLE_ROLE_SLUGS.

Lemma known_slugs_plain : forallb (fun s => forallb slug_char s && negb (bool_decide (s = []))) known_slugs = true.
Proof. vm_compute. reflexivity. Qed.

Section names.
Context `{PySlugs}.

Lemma lstrip_slug s : forallb slug_char s = true -> lstrip s = s.
Proof. destruct s as [|c s]; [done|]. simpl. intros [Hc _]%andb_true_iff. by rewrite slug_not_space. Qed.

Lemma strip_slug s : forallb slug_char s = true -> strip s = s.
Proof.
  intros Hs. unfold strip. rewrite (lstrip_slug s Hs). rewrite lstrip_slug; [apply rev_involutive|].
  apply forallb_forall. intros c Hc%in_rev. rewrite forallb_forall in Hs. by apply Hs.
Qed.

Lemma lower_strip_slug s : forallb slug_char s = true -> py_lower (strip s) = s.
Proof. intros Hs. by rewrite strip_slug, slug_lower. Qed.

Lemma normalize_plain s : forallb slug_char s = true -> s <> [] -> s <> LEGACY_ADMIN_SLUG -> s <> LEGACY_READ_ONLY_ADMIN_SLUG ->
  normalize_role_slug s = s.
Proof.
  intros Hs Hn Ha Hr. unfold normalize_role_slug. destruct s as [|c s]; [done|]. rewrite lower_strip_slug by done.
  by rewrite !bool_decide_false.
Qed.

Lemma normalize_known s : s ∈ known_slugs -> s <> LEGACY_ADMIN_SLUG -> s <> LEGACY_READ_ONLY_ADMIN_SLUG -> normalize_role_slug s = s.
Proof.
  intros Hs. pose proof known_slugs_plain as Hk. rewrite forallb_forall in Hk. specialize (Hk s). rewrite <- list_elem_of_In in Hk.
  destruct (andb_prop _ _ (Hk Hs)) as [Hp Hne%negb_true_iff%bool_decide_eq_false]. by apply normalize_plain.
Qed.

Lemma normalize_not_legacy s : normalize_role_slug s <> LEGACY_ADMIN_SLUG /\ normalize_role_slug s <> LEGACY_READ_ONLY_ADMIN_SLUG.
Proof. unfold normalize_role_slug. repeat case_bool_decide; (split; [try done|try done]). Qed.

(** A blank role's slug is empty; every other slug is its own. *)
Lemma normalize_idem s : normalize_role_slug s <> [] -> normalize_role_slug (normalize_role_slug s) = normalize_role_slug s.
Proof.
  destruct (normalize_not_legacy s) as [Ha Hr]. intros Hne. set (n := normalize_role_slug s) in *.
  destruct (decide (n ∈ known_slugs)) as [Hk|Hk]; [by apply normalize_known|].
  assert (Hn : py_lower (strip n) = n).
  { subst n. revert Hk. unfold normalize_role_slug. case_bool_decide; [intros []; apply (bool_decide_unpack _); vm_compute; exact I|].
    case_bool_decide; [intros []; apply (bool_decide_unpack _); vm_compute; exact I|]. intros _. apply lower_strip_idem. }
  unfold normalize_role_slug at 1. destruct n as [|c n']; [done|]. rewrite Hn. by rewrite !bool_decide_false.
Qed.

Lemma known_check (P : text -> bool) : forallb P known_slugs = true -> forall s, s ∈ known_slugs -> P s = true.
Proof. intros Hf s Hs%list_elem_of_In. rewrite forallb_forall in Hf. by apply Hf. Qed.

(** [slug], as it stands, is a role of the administration; the menus it covers. *)
Definition panel_slug (slug : text) : bool :=
  bool_decide (slug ∈ [SUPER_ADMIN_SLUG; FULL_ADMIN_SLUG; READ_ONLY_SUPER_ADMIN_SLUG; READ_ONLY_FULL_ADMIN_SLUG]) ||
  (negb (bool_decide (slug ∈ REMOVED_ASSIGNABLE_ROLE_SLUGS)) &&
    match ROLE_BY_SLUG slug with Some definition => negb (rd_user_panel definition) | None => false end).

Definition covered_menus (slug : text) : option (list MenuKey) :=
  if bool_decide (slug ∈ GLOBAL_ROLE_SLUGS) then None
  else Some match ROLE_BY_SLUG slug with Some definition => match rd_menu definition with Some menu => [menu] | None => [] end | None => [] end.

Lemma role_by_slug_known slug definition : ROLE_BY_SLUG slug = Some definition -> slug ∈ known_slugs /\ rd_slug definition = slug.
Proof.
  unfold ROLE_BY_SLUG. intros [Hin Heq%bool_decide_eq_true]%find_some. split; [|done]. unfold known_slugs. apply elem_of_app. left.
  rewrite <- Heq. apply list_elem_of_fmap. exists definition. split; [done|by apply list_elem_of_In].
Qed.

Lemma platform_slugs slug :
  slug ∈ [SUPER_ADMIN_SLUG; FULL_ADMIN_SLUG; READ_ONLY_SUPER_ADMIN_SLUG; READ_ONLY_FULL_ADMIN_SLUG] -> slug ∈ GLOBAL_ROLE_SLUGS.
Proof. unfold GLOBAL_ROLE_SLUGS, GLOBAL_FULL_ADMIN_SLUGS, GLOBAL_READ_ONLY_SLUGS. set_solver. Qed.

Lemma unknown_slug slug : slug ∉ known_slugs -> (
  ROLE_BY_SLUG slug = None /\ slug ∉ GLOBAL_ROLE_SLUGS /\ slug ∉ REMOVED_ASSIGNABLE_ROLE_SLUGS).
Proof.
  intros Hn. split_and!.
  - destruct (ROLE_BY_SLUG slug) as [d|] eqn:Hr; [|done]. by apply role_by_slug_known in Hr as [].
  - intros Hg. apply Hn. unfold known_slugs. apply elem_of_app. right. apply elem_of_app. by left.
  - intros Hg. apply Hn. unfold known_slugs. apply elem_of_app. right. apply elem_of_app. by right.
Qed.

Lemma normalize_user : normalize_role_slug USER_SLUG = USER_SLUG.
Proof. apply normalize_known; [apply (bool_decide_unpack _); vm_compute; exact I|discriminate|discriminate]. Qed.

(** Two tests of a slug agree when they do on the known ones and reject every other. *)
Lemma tests_agree (f g : text -> bool) :
  forallb (fun s => Bool.eqb (f s) (g s) || bool_decide (s ∈ [LEGACY_ADMIN_SLUG; LEGACY_READ_ONLY_ADMIN_SLUG])) known_slugs = true ->
  (forall s, s ∉ known_slugs -> f s = false /\ g s = false) ->
  forall s, s <> LEGACY_ADMIN_SLUG -> s <> LEGACY_READ_ONLY_ADMIN_SLUG -> f s = g s.
Proof.
  intros Hk Hu s Ha Hr. destruct (decide (s ∈ known_slugs)) as [Hs|Hs].
  - apply (known_check _ Hk) in Hs. apply orb_true_iff in Hs as [He|Hl%bool_decide_eq_true]; [by apply eqb_prop|].
    rewrite !elem_of_cons, elem_of_nil in Hl. tauto.
  - destruct (Hu s Hs) as [-> ->]. done.
Qed.

Definition panel_test (slug : text) : bool :=
  if bool_decide (slug ∈ filter (.∉ [FULL_ADMIN_SLUG; READ_ONLY_FULL_ADMIN_SLUG]) REMOVED_ASSIGNABLE_ROLE_SLUGS) then false
  else if bool_decide (slug ∈ GLOBAL_ROLE_SLUGS) then true
  else match (if bool_decide (slug ∈ REMOVED_ASSIGNABLE_ROLE_SLUGS) then None else ROLE_BY_SLUG slug) with
  | Some definition => negb (rd_user_panel definition)
  | None => false
  end.

Lemma panel_test_slug slug : slug <> LEGACY_ADMIN_SLUG -> slug <> LEGACY_READ_ONLY_ADMIN_SLUG -> panel_test slug = panel_slug slug.
Proof.
  apply tests_agree; [vm_compute; reflexivity|].
  intros n Hn. destruct (unknown_slug n Hn) as (Hrole & Hg & Hrem). unfold panel_test, panel_slug. rewrite Hrole.
  rewrite (bool_decide_false (n ∈ filter _ _)) by (intros [_ Hin]%list_elem_of_filter; done).
  rewrite (bool_decide_false (n ∈ GLOBAL_ROLE_SLUGS)) by done. rewrite (bool_decide_false (n ∈ REMOVED_ASSIGNABLE_ROLE_SLUGS)) by done.
  split; [done|]. rewrite bool_decide_false; [done|]. intros Hin. by apply Hg, platform_slugs.
Qed.

Lemma panel_of s : is_admin_panel_role s = panel_slug (normalize_role_slug s).
Proof.
  unfold is_admin_panel_role. destruct (normalize_not_legacy s) as [Ha Hr]. pose proof (normalize_idem s) as Hidem.
  set (n := normalize_role_slug s) in *. destruct (decide (n = [])) as [Hn|Hn].
  { rewrite Hn. unfold get_role_definition. change (normalize_role_slug []) with (normalize_role_slug USER_SLUG).
    rewrite normalize_known; [by vm_compute|apply (bool_decide_unpack _); vm_compute; exact I|done|done]. }
  unfold get_role_definition. rewrite Hidem by done. by apply panel_test_slug.
Qed.

Lemma panel_known slug : panel_slug slug = true -> slug ∈ known_slugs.
Proof.
  intros Hp. destruct (decide (slug ∈ known_slugs)) as [|Hn]; [done|]. exfalso. destruct (unknown_slug slug Hn) as (Hrole & Hg & _).
  unfold panel_slug in Hp. rewrite Hrole, andb_false_r, orb_false_r in Hp. apply bool_decide_eq_true in Hp. by apply Hg, platform_slugs.
Qed.

Lemma panel_normal slug : panel_slug slug = true -> normalize_role_slug slug = slug.
Proof.
  intros Hp. apply normalize_known; [by apply panel_known|intros ->; by vm_compute in Hp|intros ->; by vm_compute in Hp].
Qed.

Lemma accessible_of s : is_admin_panel_role s = true -> accessible_menu_keys s = covered_menus (normalize_role_slug s).
Proof.
  rewrite panel_of. intros Hp. unfold accessible_menu_keys, covered_menus, get_role_definition. rewrite (panel_normal _ Hp).
  case_bool_decide as Hg; [done|]. f_equal. unfold panel_slug in Hp. apply orb_true_iff in Hp as [Hp%bool_decide_eq_true|Hp].
  - exfalso. by apply Hg, platform_slugs.
  - apply andb_true_iff in Hp as [Hrem%negb_true_iff Hp]. rewrite Hrem. destruct (ROLE_BY_SLUG _) as [d|]; [|done].
    by apply negb_true_iff in Hp as ->.
Qed.

(** ** Which menus *)

Lemma access_of s menu : can_access_menu s menu = true <->
  is_admin_panel_role s = true /\ match covered_menus (normalize_role_slug s) with None => True | Some menus => menu ∈ menus end.
Proof.
  unfold can_access_menu. rewrite andb_true_iff. split; intros [Hp Hm]; (split; [done|]); rewrite accessible_of in * by done.
  - destruct (covered_menus _); [by apply bool_decide_eq_true in Hm|done].
  - destruct (covered_menus _); [by apply bool_decide_eq_true|done].
Qed.

Lemma admin_slugs_elem n slugs : n ∈ _admin_role_slugs slugs <-> exists s, s ∈ slugs /\ is_admin_panel_role s = true /\ n = normalize_role_slug s.
Proof.
  unfold _admin_role_slugs. rewrite list_elem_of_fmap. split.
  - intros (s & -> & [Hp Hs]%list_elem_of_filter). by exists s.
  - intros (s & Hs & Hp & ->). exists s. split; [done|]. by apply list_elem_of_filter.
Qed.

Lemma admin_slugs_panel n slugs : n ∈ _admin_role_slugs slugs -> panel_slug n = true.
Proof. intros (s & _ & Hp & ->)%admin_slugs_elem. by rewrite <- panel_of. Qed.

Lemma admin_slugs_normal slugs : normalized_slugs (_admin_role_slugs slugs) = _admin_role_slugs slugs.
Proof.
  unfold normalized_slugs. rewrite filter_whole.
  - rewrite <- list_fmap_id. apply list_fmap_ext. intros i n Hn%list_elem_of_lookup_2. by apply panel_normal, (admin_slugs_panel n slugs).
  - apply Forall_forall. intros n Hn ->. by apply admin_slugs_panel in Hn; vm_compute in Hn.
Qed.

Lemma super_elem slugs : user_has_super_admin_access slugs = true <->
  exists n, n ∈ normalized_slugs slugs /\ n ∈ GLOBAL_FULL_ADMIN_SLUGS.
Proof.
  unfold user_has_super_admin_access, GLOBAL_FULL_ADMIN_SLUGS. rewrite !orb_true_iff, !bool_decide_eq_true. split.
  - intros [Hn|[Hn|Hn]]; (eexists; split; [exact Hn|set_solver]).
  - intros (n & Hn & Hg). rewrite !elem_of_cons, elem_of_nil in Hg. destruct Hg as [->|[->|[->|[]]]]; tauto.
Qed.

Lemma read_only_elem slugs : user_has_super_read_only_access slugs = true <->
  exists n, n ∈ normalized_slugs slugs /\ n ∈ GLOBAL_READ_ONLY_SLUGS.
Proof.
  unfold user_has_super_read_only_access. rewrite existsb_exists. split.
  - intros (n & Hn%list_elem_of_In & Hg%bool_decide_eq_true). by exists n.
  - intros (n & Hn & Hg). exists n. split; [by apply list_elem_of_In|by apply bool_decide_eq_true].
Qed.

Lemma platform_wide_split n : n ∈ GLOBAL_ROLE_SLUGS <-> n ∈ GLOBAL_FULL_ADMIN_SLUGS \/ n ∈ GLOBAL_READ_ONLY_SLUGS.
Proof. unfold GLOBAL_ROLE_SLUGS. apply elem_of_app. Qed.

Lemma global_read_only_normal slugs : (exists n, n ∈ normalized_slugs slugs /\ n ∈ GLOBAL_READ_ONLY_SLUGS) ->
  exists n, n ∈ _admin_role_slugs slugs /\ n ∈ GLOBAL_READ_ONLY_SLUGS.
Proof.
  intros (n & (s & -> & [_ Hs]%list_elem_of_filter)%list_elem_of_fmap & Hg). exists (normalize_role_slug s). split; [|done].
  apply admin_slugs_elem. exists s. split_and!; [done| |done]. rewrite panel_of. destruct (normalize_not_legacy s) as [_ Hl].
  revert Hg Hl. generalize (normalize_role_slug s). intros n. unfold GLOBAL_READ_ONLY_SLUGS.
  rewrite !elem_of_cons, elem_of_nil. intros [->|[->|[->|[]]]] Hl; [by vm_compute|by vm_compute|done].
Qed.

(** The menus a session lists are the menus its roles open: a menu is among
    the effective ones, or those are all, exactly when one of the roles covers it. *)
Theorem menus_agree slugs menu :
  user_can_access_menu slugs menu =
    match effective_accessible_menu_keys slugs with None => true | Some menus => bool_decide (menu ∈ menus) end.
Proof.
  apply eq_true_iff_eq. unfold user_can_access_menu. rewrite existsb_exists.
  assert (Hacc : (exists s, In s slugs /\ can_access_menu s menu = true) <->
    exists n, n ∈ _admin_role_slugs slugs /\ match covered_menus n with None => True | Some menus => menu ∈ menus end).
  { split.
    - intros (s & Hs%list_elem_of_In & [Hp Hm]%access_of). exists (normalize_role_slug s). split; [|done]. apply admin_slugs_elem. by exists s.
    - intros (n & (s & Hs & Hp & ->)%admin_slugs_elem & Hm). exists s. split; [by apply list_elem_of_In|]. by apply access_of. }
  rewrite Hacc. clear Hacc. unfold effective_accessible_menu_keys. destruct (_admin_role_slugs slugs) as [|n0 rest] eqn:Hadm.
  { rewrite bool_decide_eq_true. split; [by intros (n & ?%not_elem_of_nil & _)|by intros ?%not_elem_of_nil]. }
  rewrite <- Hadm. clear n0 rest Hadm. pose proof (admin_slugs_normal slugs) as Hnorm.
  destruct (user_has_super_admin_access _ || user_has_super_read_only_access _) eqn:Hg.
  - split; [done|]. intros _. apply orb_true_iff in Hg as [(n & Hn & Hg)%super_elem|(n & Hn & Hg)%read_only_elem]; rewrite Hnorm in Hn;
      exists n; (split; [done|]); unfold covered_menus; rewrite bool_decide_true; [done| |done|]; apply platform_wide_split; tauto.
  - apply orb_false_iff in Hg as [Hsup Hro].
    assert (Hno : forall n, n ∈ _admin_role_slugs slugs -> n ∉ GLOBAL_ROLE_SLUGS).
    { intros n Hn [Hf|Hr]%platform_wide_split.
      - apply not_true_iff_false in Hsup. apply Hsup, super_elem. rewrite Hnorm. by exists n.
      - apply not_true_iff_false in Hro. apply Hro, read_only_elem. rewrite Hnorm. by exists n. }
    rewrite bool_decide_eq_true, list_elem_of_bind. split.
    + intros (n & Hn & Hm). exists n. pose proof (admin_slugs_panel _ _ Hn) as Hp. split.
      * rewrite bool_decide_false by by apply Hno. rewrite accessible_of by (rewrite panel_of; by rewrite panel_normal).
        rewrite panel_normal by done. destruct (covered_menus n) eqn:Hc; [done|]. unfold covered_menus in Hc. case_bool_decide; [by apply Hno in Hn|done].
      * apply list_elem_of_fmap. exists n. by rewrite panel_normal.
    + intros (m & Hm & (n & -> & Hn)%list_elem_of_fmap). exists n. split; [done|]. pose proof (admin_slugs_panel _ _ Hn) as Hp.
      rewrite panel_normal in Hm by done. rewrite bool_decide_false in Hm by by apply Hno.
      rewrite accessible_of in Hm by (rewrite panel_of; by rewrite panel_normal). rewrite panel_normal in Hm by done.
      by destruct (covered_menus n).
Qed.

(** ** Who writes *)

(** [slug], as it stands, allows writing the menus it covers. *)
Definition writes (slug : text) : bool :=
  negb (bool_decide (slug ∈ GLOBAL_READ_ONLY_SLUGS)) && negb (ends_with (of_string "_read_only_administrator") slug).

Lemma write_of s menu : menu ∉ USER_APP_MENUS -> can_access_menu s menu = true ->
  can_write_menu s (Some menu) = writes (normalize_role_slug s).
Proof.
  intros Hm Ha. unfold can_write_menu. rewrite Ha. unfold can_access_menu in Ha. apply andb_true_iff in Ha as [-> _].
  simpl. by rewrite bool_decide_false by done.
Qed.

Lemma access_normal s menu : can_access_menu s menu = true -> can_access_menu (normalize_role_slug s) menu = true.
Proof.
  rewrite !access_of, !panel_of. intros [Hp Hm]. rewrite (panel_normal _ Hp). by split.
Qed.

Lemma contributor n slugs menu : n ∈ _admin_role_slugs slugs /\ can_access_menu n menu = true <->
  exists s, s ∈ slugs /\ can_access_menu s menu = true /\ n = normalize_role_slug s.
Proof.
  split.
  - intros [(s & Hs & Hp & ->)%admin_slugs_elem Ha]. exists s. split_and!; [done| |done]. apply access_of. split; [done|].
    apply access_of in Ha as [_ Ha]. rewrite panel_normal in Ha; [done|]. by rewrite <- panel_of.
  - intros (s & Hs & Ha & ->). split; [|by apply access_normal]. apply admin_slugs_elem. exists s. by apply access_of in Ha as [].
Qed.

Lemma write_one_spec slugs menu : menu ∉ USER_APP_MENUS ->
  write_one_menu slugs menu = true <->
    user_can_access_menu slugs menu = true /\ forall s, s ∈ slugs -> can_access_menu s menu = true -> can_write_menu s (Some menu) = true.
Proof.
  intros Hm. unfold write_one_menu, user_can_access_menu. rewrite existsb_exists. rewrite bool_decide_false by done.
  assert (Hn : forall n, n ∈ filter (fun s => can_access_menu s menu = true) (_admin_role_slugs slugs) <->
    exists s, s ∈ slugs /\ can_access_menu s menu = true /\ n = normalize_role_slug s).
  { intros n. rewrite <- contributor, list_elem_of_filter. tauto. }
  assert (Hall : match filter (fun s => can_access_menu s menu = true) (_admin_role_slugs slugs) with
      | [] => false | _ => forallb (fun s => can_write_menu s (Some menu)) (filter (fun s => can_access_menu s menu = true) (_admin_role_slugs slugs)) end
      = match _admin_role_slugs slugs with [] => false | _ => match filter (fun s => can_access_menu s menu = true) (_admin_role_slugs slugs) with
        | [] => false | contributors => forallb (fun s => can_write_menu s (Some menu)) contributors end end)
    by (by destruct (_admin_role_slugs slugs); [|destruct (filter _ _)]).
  rewrite <- Hall. clear Hall. revert Hn. generalize (filter (fun s => can_access_menu s menu = true) (_admin_role_slugs slugs)). intros l Hn.
  assert (Hw : forall s, s ∈ slugs -> can_access_menu s menu = true ->
    can_write_menu (normalize_role_slug s) (Some menu) = can_write_menu s (Some menu)).
  { intros s Hs Ha. rewrite (write_of s menu Hm Ha), (write_of _ menu Hm (access_normal _ _ Ha)). apply access_of in Ha as [Hp _]. rewrite panel_of in Hp.
    by rewrite (panel_normal _ Hp). }
  destruct l as [|n l].
  - split; [done|]. intros [(s & Hs%list_elem_of_In & Ha) _]. exfalso. apply (not_elem_of_nil (normalize_role_slug s)), Hn. by exists s.
  - rewrite forallb_forall. split.
    + intros Hf. split.
      * destruct (proj1 (Hn n)) as (s & Hs & Ha & _); [by apply elem_of_cons; left|]. exists s. by rewrite <- list_elem_of_In.
      * intros s Hs Ha. rewrite <- Hw by done. apply Hf, list_elem_of_In, Hn. by exists s.
    + intros [_ Hf] x (s & Hs & Ha & ->)%list_elem_of_In%Hn. rewrite Hw by done. by apply Hf.
Qed.

Definition scoped_menus : list MenuKey := [m_api_keys; m_dashboard; m_reports; m_tickets; m_agents].

Lemma scoped_check : forallb (fun r => match rd_menu r with Some menu => bool_decide (menu ∈ scoped_menus) | None => true end) ROLE_CATALOG = true.
Proof. vm_compute. reflexivity. Qed.

Lemma covers_unscoped n menu menus : covered_menus n = Some menus -> menu ∈ menus -> menu ∈ scoped_menus.
Proof.
  unfold covered_menus. case_bool_decide; [done|]. intros [= <-]. destruct (ROLE_BY_SLUG n) as [d|] eqn:Hd; [|by intros ?%not_elem_of_nil].
  apply find_some in Hd as [Hin _]. pose proof scoped_check as Hs. rewrite forallb_forall in Hs. specialize (Hs d Hin).
  destruct (rd_menu d) as [m|]; [|by intros ?%not_elem_of_nil]. intros ->%list_elem_of_singleton. by apply bool_decide_eq_true in Hs.
Qed.

(** The menus of the platform - every one but API Keys, Dashboard, Reports,
    Tickets, Agents & Knowledge and what every person has - are read by holders
    of a platform-wide role alone, and written by holders of Super Admin who hold
    no platform-wide read-only role. *)
Theorem platform_menus_guarded slugs menu : menu ∉ scoped_menus -> menu ∉ USER_APP_MENUS ->
  (user_can_access_menu slugs menu = true <-> exists n, n ∈ normalized_slugs slugs /\ panel_slug n = true /\ n ∈ GLOBAL_ROLE_SLUGS) /\
  (user_can_write_menu slugs (Some menu) = true ->
    user_has_super_admin_access slugs = true /\ user_has_super_read_only_access slugs = false).
Proof.
  intros Hs Hm. assert (Hacc : forall s, s ∈ slugs -> can_access_menu s menu = true ->
    normalize_role_slug s ∈ normalized_slugs slugs /\ panel_slug (normalize_role_slug s) = true /\ normalize_role_slug s ∈ GLOBAL_ROLE_SLUGS).
  { intros s Hin [Hp Hc]%access_of. rewrite panel_of in Hp. split_and!; [|exact Hp|].
    - apply list_elem_of_fmap. exists s. split; [reflexivity|]. apply list_elem_of_filter. split; [|exact Hin]. intros ->.
      change (normalize_role_slug []) with (normalize_role_slug USER_SLUG) in Hp. by rewrite normalize_user in Hp; vm_compute in Hp.
    - destruct (covered_menus _) as [menus|] eqn:Hcov; [exfalso; exact (Hs (covers_unscoped _ _ _ Hcov Hc))|].
      unfold covered_menus in Hcov. by case_bool_decide. }
  assert (Hsee : user_can_access_menu slugs menu = true -> exists s, s ∈ slugs /\ can_access_menu s menu = true).
  { unfold user_can_access_menu. rewrite existsb_exists. intros (s & Hin%list_elem_of_In & Ha). by exists s. }
  split.
  - split.
    + intros (s & Hin & Ha)%Hsee. exists (normalize_role_slug s). by apply Hacc.
    + intros (n & (s & -> & [_ Hin]%list_elem_of_filter)%list_elem_of_fmap & Hp & Hg). unfold user_can_access_menu. apply existsb_exists.
      exists s. split; [by apply list_elem_of_In|]. apply access_of. rewrite panel_of. split; [exact Hp|]. unfold covered_menus. by rewrite bool_decide_true.
  - intros [Ha Hall]%write_one_spec; [|exact Hm]. destruct (Hsee Ha) as (s & Hin & Hsa).
    assert (Hw : forall s, s ∈ slugs -> can_access_menu s menu = true -> normalize_role_slug s ∉ GLOBAL_READ_ONLY_SLUGS).
    { intros x Hx Hxa. pose proof (Hall x Hx Hxa) as Hxw. rewrite (write_of _ _ Hm Hxa) in Hxw. unfold writes in Hxw.
      by apply andb_true_iff in Hxw as [Hxw%negb_true_iff%bool_decide_eq_false _]. }
    split.
    + apply super_elem. destruct (Hacc s Hin Hsa) as (Hn & _ & Hg). exists (normalize_role_slug s). split; [exact Hn|].
      apply platform_wide_split in Hg as [|Hg]; [done|]. by apply Hw in Hg.
    + apply not_true_iff_false. intros (n & (x & Hx & Hxp & ->)%admin_slugs_elem & Hg)%read_only_elem%global_read_only_normal.
      refine (Hw x Hx _ Hg). apply access_of. split; [exact Hxp|]. unfold covered_menus. rewrite bool_decide_true; [exact I|].
      apply platform_wide_split. by right.
Qed.

(** C28: a platform-wide read-only role sees every menu and changes nothing: no
    menu of the administration may be written, and no action of Agents &
    Knowledge is granted but reads, whatever other roles are held. *)
Theorem read_only_changes_nothing slugs :
  user_has_super_read_only_access slugs = true ->
  (forall menu, menu ∉ USER_APP_MENUS -> user_can_access_menu slugs menu = true /\ user_can_write_menu slugs (Some menu) = false) /\
  user_can_write_menu slugs None = false /\
  forall permission, user_has_agent_permission slugs permission = true -> py_lower (strip permission) ∈ AGENT_READ_PERMISSIONS.
Proof.
  intros Hro. pose proof (proj1 (read_only_elem slugs) Hro) as Hn.
  destruct (global_read_only_normal slugs Hn) as (n & (s & Hs & Hp & ->)%admin_slugs_elem & Hg).
  assert (Hacc : forall menu, can_access_menu s menu = true).
  { intros menu. apply access_of. split; [exact Hp|]. unfold covered_menus. rewrite bool_decide_true; [exact I|]. apply platform_wide_split. by right. }
  assert (Hw : forall menu, menu ∉ USER_APP_MENUS -> write_one_menu slugs menu = false).
  { intros menu Hm. apply not_true_iff_false. intros [_ Hall]%write_one_spec; [|exact Hm]. specialize (Hall s Hs (Hacc menu)).
    rewrite (write_of s menu Hm (Hacc menu)) in Hall. unfold writes in Hall. by rewrite bool_decide_true in Hall. }
  split_and!.
  - intros menu Hm. split; [|by apply Hw]. unfold user_can_access_menu. apply existsb_exists. exists s. split; [by apply list_elem_of_In|apply Hacc].
  - unfold user_can_write_menu. destruct (_admin_role_slugs slugs); [reflexivity|]. apply not_true_iff_false.
    intros (menu & [Hm _]%list_elem_of_In%list_elem_of_filter & Hmw)%existsb_exists. by rewrite Hw in Hmw.
  - intros permission [_ Hgr%bool_decide_eq_true]%andb_true_iff. unfold agent_permissions_for_slugs in Hgr.
    replace (existsb (fun s => bool_decide (s ∈ GLOBAL_READ_ONLY_SLUGS)) (normalized_slugs slugs)) with true in Hgr by (symmetry; exact Hro).
    exact Hgr.
Qed.

Lemma permissions_check :
  forallb (fun rp => bool_decide (rp.1 ∈ known_slugs) && panel_slug rp.1 && writes rp.1 &&
    match covered_menus rp.1 with Some menus => bool_decide (m_agents ∈ menus) | None => false end) AGENT_ROLE_PERMISSIONS = true.
Proof. vm_compute. reflexivity. Qed.

(** A role that covers Agents & Knowledge writes it, unless it is read-only everywhere. *)
Lemma agents_writers :
  forallb (fun n => negb (panel_slug n) || bool_decide (n ∈ GLOBAL_READ_ONLY_SLUGS) || writes n ||
    match covered_menus n with Some menus => negb (bool_decide (m_agents ∈ menus)) | None => false end) known_slugs = true.
Proof. vm_compute. reflexivity. Qed.

Lemma super_alone n : user_has_super_admin_access [n] = true -> normalize_role_slug n ∈ GLOBAL_FULL_ADMIN_SLUGS.
Proof.
  intros (x & (s & -> & [_ ->%list_elem_of_singleton]%list_elem_of_filter)%list_elem_of_fmap & Hg)%super_elem. exact Hg.
Qed.

Lemma full_admin_covers s : normalize_role_slug (normalize_role_slug s) ∈ GLOBAL_FULL_ADMIN_SLUGS ->
  panel_slug (normalize_role_slug s) = true /\ match covered_menus (normalize_role_slug s) with None => True | Some menus => m_agents ∈ menus end.
Proof.
  destruct (decide (normalize_role_slug s = [])) as [Hn|Hn].
  { rewrite Hn. change (normalize_role_slug []) with (normalize_role_slug USER_SLUG). rewrite normalize_user.
    intros Hg. by apply (bool_decide_pack _) in Hg; vm_compute in Hg. }
  rewrite normalize_idem by exact Hn. destruct (normalize_not_legacy s) as [Ha _]. intros Hg. split.
  - revert Hg Ha. unfold GLOBAL_FULL_ADMIN_SLUGS. rewrite !elem_of_cons, elem_of_nil.
    intros [->|[->|[->|[]]]] Ha; [by vm_compute|by vm_compute|done].
  - unfold covered_menus. rewrite bool_decide_true; [exact I|]. apply platform_wide_split. by left.
Qed.

(** The gate of Agents & Knowledge never lets through a change that the gate of
    menus refuses: whoever holds an action other than a read may write the menu. *)
Theorem permission_gate_agrees slugs permission :
  user_has_agent_permission slugs permission = true -> py_lower (strip permission) ∉ AGENT_READ_PERMISSIONS ->
  user_can_write_menu slugs (Some m_agents) = true.
Proof.
  intros [_ Hgr%bool_decide_eq_true]%andb_true_iff Hnr. unfold agent_permissions_for_slugs in Hgr.
  destruct (existsb (fun s => bool_decide (s ∈ GLOBAL_READ_ONLY_SLUGS)) (normalized_slugs slugs)) eqn:Hro; [done|].
  assert (Hnro : forall n, n ∈ normalized_slugs slugs -> n ∉ GLOBAL_READ_ONLY_SLUGS).
  { intros n Hn Hg. apply not_true_iff_false in Hro. apply Hro, existsb_exists. exists n. split; [by apply list_elem_of_In|by apply bool_decide_eq_true]. }
  assert (Hnorm : forall s, s ∈ slugs -> is_admin_panel_role s = true -> normalize_role_slug s ∈ normalized_slugs slugs).
  { intros s Hs Hp. apply list_elem_of_fmap. exists s. split; [reflexivity|]. apply list_elem_of_filter. split; [|exact Hs]. intros ->.
    rewrite panel_of in Hp. change (normalize_role_slug []) with (normalize_role_slug USER_SLUG) in Hp. by rewrite normalize_user in Hp; vm_compute in Hp. }
  apply write_one_spec; [by apply (bool_decide_unpack _); vm_compute|]. split.
  - assert (Hex : exists n, n ∈ normalized_slugs slugs /\ panel_slug n = true /\
      match covered_menus n with None => True | Some menus => m_agents ∈ menus end).
    { destruct (existsb (fun slug => user_has_super_admin_access [slug]) (normalized_slugs slugs)) eqn:Hsup.
      - apply existsb_exists in Hsup as (n & Hn%list_elem_of_In & Hg%super_alone). exists n. split; [exact Hn|].
        apply list_elem_of_fmap in Hn as (s & -> & _). by apply full_admin_covers, Hg.
      - apply list_elem_of_bind in Hgr as (n & Hgr & Hn). destruct (find _ AGENT_ROLE_PERMISSIONS) as [[r granted]|] eqn:Hf;
          [|by apply not_elem_of_nil in Hgr].
        apply find_some in Hf as [Hin Heq%bool_decide_eq_true]. simpl in Heq. subst r. exists n. split; [exact Hn|].
        pose proof permissions_check as Hc. rewrite forallb_forall in Hc. specialize (Hc _ Hin). cbn [fst] in Hc.
        apply andb_true_iff in Hc as [[[_ Hp]%andb_true_iff _]%andb_true_iff Hc]. split; [exact Hp|].
        destruct (covered_menus n); [by apply bool_decide_eq_true in Hc|done]. }
    destruct Hex as (n & (s & -> & [_ Hs]%list_elem_of_filter)%list_elem_of_fmap & Hp & Hc). unfold user_can_access_menu. apply existsb_exists.
    exists s. split; [by apply list_elem_of_In|]. apply access_of. by rewrite panel_of.
  - intros s Hs Ha. rewrite write_of by (exact Ha || by apply (bool_decide_unpack _); vm_compute). apply access_of in Ha as [Hp Hc].
    pose proof (Hnro _ (Hnorm s Hs Hp)) as Hg. rewrite panel_of in Hp.
    pose proof (known_check _ agents_writers _ (panel_known _ Hp)) as Hk. cbv beta in Hk. rewrite Hp, bool_decide_false in Hk by exact Hg.
    destruct (writes _); [reflexivity|]. simpl in Hk. destruct (covered_menus _) as [menus|]; [|discriminate Hk].
    by rewrite bool_decide_true in Hk.
Qed.

(** Not conversely: the gate of menus knows no read-only role but those whose name
    says so, and lets an Agent Auditor write the menu. *)
Lemma auditor_may_write :
  user_can_write_menu [AGENT_AUDITOR_SLUG] (Some m_agents) = true /\ is_read_only_role AGENT_AUDITOR_SLUG = true.
Proof.
  assert (Hn : normalize_role_slug AGENT_AUDITOR_SLUG = AGENT_AUDITOR_SLUG)
    by (apply normalize_known; [by apply (bool_decide_unpack _); vm_compute|discriminate|discriminate]).
  assert (Hp : is_admin_panel_role AGENT_AUDITOR_SLUG = true) by (rewrite panel_of, Hn; by vm_compute).
  assert (Ha : can_access_menu AGENT_AUDITOR_SLUG m_agents = true).
  { apply access_of. split; [exact Hp|]. rewrite Hn. by apply (bool_decide_unpack _); vm_compute. }
  split.
  - apply write_one_spec; [by apply (bool_decide_unpack _); vm_compute|]. split.
    + unfold user_can_access_menu. simpl. by rewrite Ha.
    + intros s ->%list_elem_of_singleton _. rewrite write_of, Hn; [by vm_compute|by apply (bool_decide_unpack _); vm_compute|exact Ha].
  - unfold is_read_only_role, get_role_definition. rewrite Hn. by vm_compute.
Qed.
End names.

(** ** The menu of a path *)

(** An entry of the table matches a path. *)
Definition entry_matches (path : text) (entry : MenuKey * text) : Prop :=
  if bool_decide (entry.2 = of_string "/admin") then path = of_string "/admin" else covers path entry.2 = true.

Lemma menu_prefixes_distinct : NoDup menu_prefixes.*2.
Proof. apply (bool_decide_unpack _). vm_compute. exact I. Qed.

Lemma better_menu_spec path best entry : -1 <= best.2 ->
  (entry_matches path entry /\ best.2 < Z.of_nat (length entry.2) /\ better_menu path best entry = (Some entry.1, Z.of_nat (length entry.2))) \/
  ((entry_matches path entry -> Z.of_nat (length entry.2) <= best.2) /\ better_menu path best entry = best).
Proof.
  intros Hb. unfold better_menu, entry_matches. destruct entry as [menu prefix]. cbn [fst snd].
  destruct (Z.ltb_spec best.2 (Z.of_nat (length prefix))) as [Hlt|Hge]; case_bool_decide as Ha.
  - destruct (decide (path = of_string "/admin")) as [->|Hne]; [left; by rewrite bool_decide_true|right].
    rewrite bool_decide_false by done. by split; [intros ?|].
  - destruct (covers path prefix); [by left|by right].
  - right. rewrite andb_false_r. split; [lia|done].
  - right. rewrite andb_false_r. split; [lia|done].
Qed.

(** A path belongs to the menu of its most specific prefix: the one entry of
    the table that matches it and is at least as long as every other that does;
    a path that no entry matches belongs to none. *)
Theorem path_to_menu_correct path :
  match path_to_menu path with
  | Some menu => exists prefix, (menu, prefix) ∈ menu_prefixes /\ entry_matches (normalized_path path) (menu, prefix) /\
      forall entry, entry ∈ menu_prefixes -> entry_matches (normalized_path path) entry -> (length entry.2 <= length prefix)%nat
  | None => forall entry, entry ∈ menu_prefixes -> ~ entry_matches (normalized_path path) entry
  end.
Proof.
  unfold path_to_menu. set (p := normalized_path path). clearbody p.
  assert (Hgen : forall seen l best, menu_prefixes = seen ++ l ->
    match best with
    | (Some menu, len) => exists prefix, (menu, prefix) ∈ seen /\ entry_matches p (menu, prefix) /\ len = Z.of_nat (length prefix)
    | (None, len) => len = -1
    end -> (forall entry, entry ∈ seen -> entry_matches p entry -> Z.of_nat (length entry.2) <= best.2) ->
    let final := foldl (better_menu p) best l in
    match final with
    | (Some menu, len) => exists prefix, (menu, prefix) ∈ menu_prefixes /\ entry_matches p (menu, prefix) /\ len = Z.of_nat (length prefix)
    | (None, len) => len = -1
    end /\ forall entry, entry ∈ menu_prefixes -> entry_matches p entry -> Z.of_nat (length entry.2) <= final.2).
  { intros seen l. revert seen. induction l as [|e l IH]; intros seen best Hl Hb Hall; cbn [foldl].
    { rewrite Hl, app_nil_r. split; [destruct best as [[menu|] len]; exact Hb|exact Hall]. }
    assert (Hge : -1 <= best.2) by (destruct best as [[menu|] len]; [destruct Hb as (pr & _ & _ & ->); simpl; lia|simpl in *; lia]).
    apply (IH (seen ++ [e])); [by rewrite <- app_assoc|..]; destruct (better_menu_spec p best e Hge) as [(Hm & Hlt & ->)|[Hle ->]].
    - exists e.2. split_and!; [|by destruct e|done]. apply elem_of_app. right. apply list_elem_of_singleton. by destruct e.
    - destruct best as [[menu|] len]; [|done]. destruct Hb as (pr & Hin & Hmt & Hlen). exists pr. split_and!; [|done|done]. by apply elem_of_app; left.
    - intros entry [Hin|Hin]%elem_of_app Hmt; [|apply list_elem_of_singleton in Hin as ->; simpl; lia]. specialize (Hall entry Hin Hmt). simpl. lia.
    - intros entry [Hin|Hin]%elem_of_app Hmt; [by apply Hall|apply list_elem_of_singleton in Hin as ->; by apply Hle]. }
  destruct (Hgen [] menu_prefixes (None, -1) eq_refl eq_refl) as [Hf Hmax]; [by intros entry ?%not_elem_of_nil|].
  destruct (foldl _ _ _) as [[menu|] len].
  - destruct Hf as (prefix & Hin & Hm & ->). exists prefix. split_and!; [done|done|]. intros entry He Hem. specialize (Hmax entry He Hem). simpl in Hmax. lia.
  - intros entry He Hem. specialize (Hmax entry He Hem). simpl in Hf, Hmax. lia.
Qed.

(** ** Witnesses *)

#[local] Existing Instance ascii_str.


Lemma stripped_twice (s : text) : strip (strip s) = strip s.
Proof.
  assert (Hsuf : forall t, exists k, t = k ++ lstrip t).
  { induction t as [|c t [k IH]]; [by exists []|]. cbn [lstrip]. destruct (py_isspace c); [|by exists []]. exists (c :: k). simpl. by f_equal. }
  assert (Hidem : forall t, lstrip (lstrip t) = lstrip t).
  { induction t as [|c t IH]; [done|]. cbn [lstrip]. destruct (py_isspace c) eqn:E; [done|]. cbn [lstrip]. by rewrite E. }
  unfold strip at 2 3. set (u := lstrip s). assert (Hu : lstrip u = u) by apply Hidem. clearbody u.
  assert (Hfix : lstrip (rev (lstrip (rev u))) = rev (lstrip (rev u))).
  { destruct (Hsuf (rev u)) as [k Hk]. assert (He : u = rev (lstrip (rev u)) ++ rev k) by (rewrite <- rev_app_distr, <- Hk; by rewrite rev_involutive).
    destruct (rev (lstrip (rev u))) as [|c t]; [done|]. rewrite He in Hu. cbn [app lstrip] in Hu |- *. destruct (py_isspace c) eqn:E; [|done].
    exfalso. destruct (Hsuf (t ++ rev k)) as [k' Hk']. rewrite Hu in Hk'. apply (f_equal length) in Hk'. rewrite !length_app in Hk'. simpl in Hk'. rewrite length_app in Hk'. lia. }
  unfold strip. rewrite Hfix, rev_involutive. by rewrite Hidem.
Qed.

(** The laws hold of the tables restricted to ASCII. *)
#[export] Instance ascii_slugs : PySlugs.
Proof.
  assert (Hsp : forall c, py_isspace (if (65 <=? c) && (c <=? 90) then c + 32 else c) = py_isspace c).
  { intros c. destruct ((65 <=? c) && (c <=? 90)) eqn:E; [|done]. unfold py_isspace, ascii_str. lia. }
  assert (Hl : forall s, lstrip (py_lower s) = py_lower (lstrip s)).
  { induction s as [|c s IH]; [done|]. cbn [py_lower ascii_str fmap list_fmap lstrip]. rewrite Hsp.
    change (list_fmap _ _ ?f s) with (py_lower s). by destruct (py_isspace c). }
  assert (Hrev : forall s : text, py_lower (rev s) = rev (py_lower s)) by (intros s; unfold py_lower, ascii_str; apply (map_rev)).
  assert (Hstrip : forall s, strip (py_lower s) = py_lower (strip s)) by (intros s; unfold strip; by rewrite Hl, <- Hrev, Hl, <- Hrev).
  assert (Hlow : forall s : text, py_lower (py_lower s) = py_lower s).
  { intros s. unfold py_lower, ascii_str. rewrite <- list_fmap_compose. apply list_fmap_ext. intros i c _. simpl.
    destruct ((65 <=? c) && (c <=? 90)) eqn:E; [|by rewrite E]. destruct ((65 <=? c + 32) && (c + 32 <=? 90)) eqn:F; [lia|done]. }
  split.
  - intros c Hc. unfold slug_char in Hc. unfold py_isspace, ascii_str.
    apply orb_true_iff in Hc as [Hc|Hc%bool_decide_eq_true]; [lia|]. rewrite !elem_of_cons, elem_of_nil in Hc.
    by destruct Hc as [->|[->|[->|[->|[]]]]].
  - intros s Hs. unfold py_lower, ascii_str. rewrite <- (list_fmap_id s) at 2. apply list_fmap_ext. intros i c Hc%list_elem_of_lookup_2.
    rewrite forallb_forall in Hs. specialize (Hs c). rewrite <- list_elem_of_In in Hs. specialize (Hs Hc). unfold slug_char in Hs.
    destruct ((65 <=? c) && (c <=? 90)) eqn:E; [|done]. apply orb_true_iff in Hs as [Hs|Hs%bool_decide_eq_true]; [lia|].
    rewrite !elem_of_cons, elem_of_nil in Hs. by destruct Hs as [->|[->|[->|[->|[]]]]].
  - intros s. by rewrite Hstrip, Hlow, stripped_twice.
  - intros s Hs. by destruct s.
Qed.

Lemma menus_agree_witness :
  user_can_access_menu [SUPPORT_SLUG; of_string " User"] m_users = false.
Proof.
  assert (He : effective_accessible_menu_keys [SUPPORT_SLUG; of_string " User"] = Some [m_tickets]) by (vm_compute; reflexivity).
  pose proof (menus_agree [SUPPORT_SLUG; of_string " User"] m_users) as Hm. rewrite He in Hm. exact Hm.
Defined.

Lemma platform_menus_guarded_witness :
  user_has_super_admin_access [USER_SLUG; of_string "Admin"] = true /\ user_has_super_read_only_access [USER_SLUG; of_string "Admin"] = false.
Proof.
  assert (Hs : m_users ∉ scoped_menus) by (apply (bool_decide_unpack _); vm_compute; exact I).
  assert (Hm : m_users ∉ USER_APP_MENUS) by (apply (bool_decide_unpack _); vm_compute; exact I).
  assert (Hw : user_can_write_menu [USER_SLUG; of_string "Admin"] (Some m_users) = true) by (vm_compute; reflexivity).
  destruct (platform_menus_guarded [USER_SLUG; of_string "Admin"] m_users Hs Hm) as [_ Hg]. exact (Hg Hw).
Defined.

Lemma read_only_changes_nothing_witness :
  user_can_write_menu [SUPER_ADMIN_SLUG; READ_ONLY_SUPER_ADMIN_SLUG] (Some m_users) = false.
Proof.
  assert (Hro : user_has_super_read_only_access [SUPER_ADMIN_SLUG; READ_ONLY_SUPER_ADMIN_SLUG] = true) by (vm_compute; reflexivity).
  assert (Hm : m_users ∉ USER_APP_MENUS) by (apply (bool_decide_unpack _); vm_compute; exact I).
  destruct (read_only_changes_nothing [SUPER_ADMIN_SLUG; READ_ONLY_SUPER_ADMIN_SLUG] Hro) as [Hall _]. exact (proj2 (Hall m_users Hm)).
Defined.

Lemma permission_gate_agrees_witness : user_can_write_menu [KNOWLEDGE_CURATOR_SLUG; DASHBOARD_VIEW_SLUG] (Some m_agents) = true.
Proof.
  assert (Hp : user_has_agent_permission [KNOWLEDGE_CURATOR_SLUG; DASHBOARD_VIEW_SLUG] (of_string "Knowledge.Edit") = true)
    by (vm_compute; reflexivity).
  assert (Hn : py_lower (strip (of_string "Knowledge.Edit")) ∉ AGENT_READ_PERMISSIONS) by (apply (bool_decide_unpack _); vm_compute; exact I).
  exact (permission_gate_agrees [KNOWLEDGE_CURATOR_SLUG; DASHBOARD_VIEW_SLUG] (of_string "Knowledge.Edit") Hp Hn).
Defined.
