(* ===== verification/Roles.v ===== *)
(** * Who holds which role

    user_role_service.py, the account's life of user_lifecycle_service.py, and
    what the handlers of api/admin.py and api/groups.py do to roles and to
    accounts being active: creating, editing, editing in bulk, disabling,
    deleting, restoring and purging a person.  The other columns of an account
    are left out.  The order in which the database returns slugs is a parameter. *)

From S2P Require Import Prelude Text PyText Rbac.

(** ** Data *)

Record Account := MkAccount {
  ac_username : text; ac_active : bool; ac_deleted : option Z; ac_purged : option Z; ac_version : Z
}.

(** [users] and [user_role_assignments], the slugs of each person in insertion order. *)
Record Directory := MkDirectory { accounts : gmap Z Account; assignments : gmap Z (list text) }.

Definition set_accounts (f : gmap Z Account -> gmap Z Account) (d : Directory) : Directory := MkDirectory (f (accounts d)) (assignments d).
Definition set_assignments (f : gmap Z (list text) -> gmap Z (list text)) (d : Directory) : Directory := MkDirectory (accounts d) (f (assignments d)).

Definition set_active (active : bool) (a : Account) : Account :=
  MkAccount (ac_username a) active (ac_deleted a) (ac_purged a) (ac_version a).
Definition bump_version (a : Account) : Account :=
  MkAccount (ac_username a) (ac_active a) (ac_deleted a) (ac_purged a) (ac_version a + 1).

Definition signs_in (a : Account) : bool := ac_active a && bool_decide (ac_deleted a = None).

Section service.
Context `{PyStr} (order_by_slug : list text -> list text).

(** ** The service *)

Fixpoint kept_slugs (seen : list text) (slugs : list text) : list text :=
  match slugs with
  | [] => []
  | raw :: slugs =>
      let slug := normalize_role_slug raw in
      if negb (is_assignable_role_slug slug) || bool_decide (slug ∈ seen) then kept_slugs seen slugs
      else slug :: kept_slugs (slug :: seen) slugs
  end.

Definition _normalize_role_list (slugs : list text) : list text :=
  match kept_slugs [] slugs with [] => [USER_SLUG] | out => out end.

Definition get_user_role_slugs (user : Z) (d : Directory) : list text :=
  match order_by_slug (default [] (assignments d !! user)) with [] => [USER_SLUG] | rows => _normalize_role_list rows end.

Definition get_roles_map (users : list Z) (d : Directory) : list (Z * list text) :=
  (fun user => (user, _normalize_role_list (order_by_slug (default [] (assignments d !! user))))) <$> users.

Definition set_user_roles (user : Z) (slugs : list text) : op Directory (list text) := fun d =>
  let normalized := _normalize_role_list slugs in
  (Ok normalized, set_assignments <[user := normalized]> d).

Definition user_has_full_administrator (user : Z) (d : Directory) : bool := user_has_super_admin_access (get_user_role_slugs user d).

(** Active accounts by their rows as they stand. *)
Definition count_active_full_administrators (d : Directory) : Z :=
  Z.of_nat (length (filter (fun ua =>
    signs_in ua.2 && user_has_super_admin_access (default [] (assignments d !! ua.1)) = true) (map_to_list (accounts d)))).

Definition ensure_super_admin_roles (user : Z) (account : Account) (admin_username : text) : op Directory unit :=
  slugs ← gets (get_user_role_slugs user);
  let normalized := normalize_role_slug <$> slugs in
  if user_has_super_admin_access slugs then
    if forallb (fun s => bool_decide (s = SUPER_ADMIN_SLUG)) normalized then mret tt
    else if bool_decide (FULL_ADMIN_SLUG ∈ normalized) || bool_decide (LEGACY_ADMIN_SLUG ∈ normalized) then
      _ ← set_user_roles user [SUPER_ADMIN_SLUG]; mret tt
    else mret tt
  else if bool_decide (ac_username account = admin_username) then _ ← set_user_roles user [SUPER_ADMIN_SLUG]; mret tt
  else mret tt.

Definition ensure_bootstrap_admin_roles (admin_username : text) : op Directory nat := fun d =>
  let legacy slug := bool_decide (normalize_role_slug slug ∈ [FULL_ADMIN_SLUG; LEGACY_ADMIN_SLUG]) in
  let candidates := filter (fun ua => bool_decide (ac_username ua.2 = admin_username) || existsb legacy (default [] (assignments d !! ua.1)) = true)
    (map_to_list (accounts d)) in
  (_ ← for_each (fun ua => ensure_super_admin_roles ua.1 ua.2 admin_username) candidates; mret (length candidates)) d.

(** ** An account's life *)

Definition soft_delete_user (user : Z) (now : Z) : op Directory unit :=
  modify (set_accounts (alter (fun a => MkAccount (ac_username a) false (Some now) (ac_purged a) (ac_version a + 1)) user)).

Definition restore_user (user : Z) (account : Account) : op Directory unit :=
  if bool_decide (ac_purged account <> None) then raise (ValueError "Cannot restore a permanently deleted account")
  else modify (set_accounts (alter (fun a => MkAccount (ac_username a) true None (ac_purged a) (ac_version a)) user)).

Definition permanently_delete_user (user : Z) (now : Z) : op Directory unit := fun d =>
  if user_has_full_administrator user d && (count_active_full_administrators d <=? 1) then
    (Raise (ValueError "Cannot delete the last Full Administrator account"), d)
  else
    let purged a := MkAccount (of_string "purged-user-" ++ of_int user) false (Some (default now (ac_deleted a))) (Some now) (ac_version a + 1) in
    (Ok tt, set_accounts (alter purged user) (set_assignments (delete user) d)).

Definition prune_sync_user (user : Z) (account : Account) (now : Z) : op Directory string := fun d =>
  if user_has_full_administrator user d then (Ok "skipped"%string, d)
  else if bool_decide (ac_deleted account <> None) then (Ok "skipped"%string, d)
  else (_ ← soft_delete_user user now; mret "soft_deleted"%string) d.

(** ** The handlers *)

Definition bad_request (detail : string) : exn := HTTPException 400 detail.

(** [require_rbac_menu(menu, write=True)] *)
Definition require_menu_write (menu : MenuKey) (actor : Z) : op Directory unit := fun d =>
  let slugs := get_user_role_slugs actor d in
  if negb (user_is_admin_panel slugs) then (Raise (HTTPException 403 "Admin only"), d)
  else if negb match accounts d !! actor with Some a => ac_active a | None => false end then (Raise (HTTPException 403 "User inactive"), d)
  else if negb (user_can_access_menu slugs menu) then (Raise (HTTPException 403 "Insufficient permissions for this menu"), d)
  else if negb (user_can_write_menu slugs (Some menu)) then (Raise (HTTPException 403 "Read-only role: changes not allowed"), d)
  else (Ok tt, d).

Definition _normalize_role (role : text) : res text :=
  let slug := normalize_role_slug role in
  if is_valid_role_slug slug then Ok slug else Raise (bad_request "Invalid role").

Fixpoint normalize_roles (roles : list text) : res (list text) :=
  match roles with [] => Ok [] | role :: roles => slug ← _normalize_role role; slugs ← normalize_roles roles; mret (slug :: slugs) end.

Definition _ensure_actor_may_assign_roles (actor : Z) (new_slugs : list text) (previous : option (list text)) : op Directory unit := fun d =>
  if actor_may_assign_roles (get_user_role_slugs actor d) new_slugs previous then (Ok tt, d)
  else (Raise (HTTPException 403 "Only Super Admin can grant, change, or revoke Super Admin access"), d).

Definition _ensure_not_last_full_admin_removal (user : Z) (new_slugs : list text) : op Directory unit := fun d =>
  if user_has_super_admin_access (get_user_role_slugs user d) && negb (user_has_super_admin_access new_slugs) &&
     (count_active_full_administrators d <=? 1) then (Raise (bad_request "Cannot demote the last Full Administrator account"), d)
  else (Ok tt, d).

(** The username and password were accepted; [user] is the new row's id. *)
Definition create_local_user (actor user : Z) (username role : text) : op Directory unit :=
  _ ← require_menu_write m_users actor;
  slug ← lift (_normalize_role role);
  _ ← _ensure_actor_may_assign_roles actor [slug] None;
  _ ← modify (set_accounts <[user := MkAccount username true None None 0]>);
  _ ← set_user_roles user [slug];
  mret tt.

(** The roles and the activation of [patch_user]. *)
Definition edit_roles (actor user : Z) (roles : option (list text)) (role : option text) : op Directory unit :=
  let assign new_slugs :=
    previous ← gets (get_user_role_slugs user);
    _ ← _ensure_actor_may_assign_roles actor new_slugs (Some previous);
    _ ← _ensure_not_last_full_admin_removal user new_slugs;
    _ ← set_user_roles user new_slugs;
    mret tt in
  match roles, role with
  | Some [], _ => assign [USER_SLUG]
  | Some roles, _ => new_slugs ← lift (normalize_roles roles); assign new_slugs
  | None, Some role => slug ← lift (_normalize_role role); assign [slug]
  | None, None => mret tt
  end.

Definition edit_active (user : Z) (account : Account) (active : option bool) : op Directory unit := fun d =>
  match active with
  | Some active =>
      if Bool.eqb (ac_active account) active then (Ok tt, d)
      else if negb active && user_has_full_administrator user d && (count_active_full_administrators d <=? 1) then
        (Raise (bad_request "Cannot disable the last active Full Administrator account"), d)
      else (Ok tt, set_accounts (alter (fun a => (if active then id else bump_version) (set_active active a)) user) d)
  | None => (Ok tt, d)
  end.

Definition patch_user (actor user : Z) (roles : option (list text)) (role : option text) (active : option bool) : op Directory unit :=
  _ ← require_menu_write m_users actor;
  account ← gets (fun d => accounts d !! user);
  match account with
  | None => raise (HTTPException 404 "")
  | Some account => _ ← edit_roles actor user roles role; edit_active user account active
  end.

Fixpoint dedup (seen slugs : list text) : list text :=
  match slugs with [] => [] | s :: slugs => if bool_decide (s ∈ seen) then dedup seen slugs else s :: dedup (s :: seen) slugs end.

Definition bulk_roles (actor : Z) (users : list Z) (new_slugs : list text) : op Directory unit := fun d =>
  let demote_count := Z.of_nat (length (filter (fun u => user_has_super_admin_access (get_user_role_slugs u d) = true) users)) in
  if negb (user_has_super_admin_access new_slugs) && (0 <? demote_count) && (count_active_full_administrators d - demote_count <? 1) then
    (Raise (bad_request "Cannot demote the last Full Administrator account"), d)
  else
    (_ ← for_each (fun u =>
       cur ← gets (get_user_role_slugs u);
       if bool_decide (cur = new_slugs) then mret tt
       else _ ← _ensure_actor_may_assign_roles actor new_slugs (Some cur); _ ← set_user_roles u new_slugs; mret tt) users;
     mret tt) d.

Definition bulk_active (users : list Z) (active : bool) : op Directory unit := fun d =>
  let is_active u := match accounts d !! u with Some a => ac_active a | None => false end in
  let to_disable := Z.of_nat (length (filter (fun u => is_active u && user_has_full_administrator u d = true) users)) in
  if negb active && (0 <? to_disable) && (count_active_full_administrators d <=? to_disable) then
    (Raise (bad_request "Cannot disable the last active Full Administrator account"), d)
  else
    let change a := if Bool.eqb (ac_active a) active then a else (if active then id else bump_version) (set_active active a) in
    (Ok tt, foldl (fun d u => set_accounts (alter change u) d) d users).

(** The roles and the activation of [bulk_update_users]; the rows found are [user_ids] without repetition. *)
Definition bulk_update_users (actor : Z) (user_ids : list Z) (roles : option (list text)) (role : option text) (active : option bool)
    : op Directory unit :=
  _ ← require_menu_write m_users actor;
  match user_ids with
  | [] => raise (bad_request "No users selected")
  | _ =>
      accounts ← gets accounts;
      if existsb (fun u => bool_decide (accounts !! u = None)) user_ids then raise (HTTPException 404 "Users not found")
      else
        let users := remove_dups user_ids in
        _ ← match roles, role with
            | Some [], _ => raise (bad_request "Select at least one role")
            | Some roles, _ => slugs ← lift (normalize_roles roles); bulk_roles actor users (dedup [] slugs)
            | None, Some role => slug ← lift (_normalize_role role); bulk_roles actor users [slug]
            | None, None => mret tt
            end;
        match active with Some active => bulk_active users active | None => mret tt end
  end.

Definition delete_local_user (actor user : Z) (now : Z) : op Directory unit :=
  _ ← require_menu_write m_users actor;
  account ← gets (fun d => accounts d !! user);
  match account with
  | None => raise (HTTPException 404 "")
  | Some account =>
      if bool_decide (ac_deleted account <> None) then raise (bad_request "User is already in Deleted Users")
      else
        last ← gets (fun d => user_has_full_administrator user d && (count_active_full_administrators d <=? 1));
        if last : bool then raise (bad_request "Cannot delete the last Full Administrator account")
        else soft_delete_user user now
  end.

Definition permanently_delete_user_endpoint (actor user : Z) (now : Z) : op Directory unit :=
  _ ← require_menu_write m_deleted_users actor;
  account ← gets (fun d => accounts d !! user);
  match account with
  | None => raise (HTTPException 404 "")
  | Some account =>
      if bool_decide (ac_deleted account = None) then raise (bad_request "User must be in Deleted Users before permanent deletion")
      else if bool_decide (ac_purged account <> None) then raise (bad_request "User has already been permanently deleted")
      else permanently_delete_user user now
  end.

Definition restore_user_endpoint (actor user : Z) : op Directory unit :=
  _ ← require_menu_write m_deleted_users actor;
  account ← gets (fun d => accounts d !! user);
  match account with
  | None => raise (HTTPException 404 "")
  | Some account =>
      if bool_decide (ac_deleted account = None) then raise (bad_request "User is not in Deleted Users")
      else restore_user user account
  end.

(** [except ValueError: continue] *)
Definition skipping_value_errors (body : op Directory unit) (d : Directory) : res bool * Directory :=
  match body d with
  | (Ok _, d') => (Ok true, d')
  | (Raise (ValueError _), d') => (Ok false, d')
  | (Raise e, d') => (Raise e, d')
  end.

Definition deleted_only (step : Z -> Account -> op Directory unit) (user : Z) : op Directory bool :=
  account ← gets (fun d => accounts d !! user);
  match account with
  | Some account =>
      if bool_decide (ac_deleted account = None) || bool_decide (ac_purged account <> None) then mret false
      else skipping_value_errors (step user account)
  | None => mret false
  end.

Definition bulk_restore_users (actor : Z) (user_ids : list Z) : op Directory nat :=
  _ ← require_menu_write m_deleted_users actor;
  match user_ids with
  | [] => raise (bad_request "No users selected")
  | _ => restored ← for_each (deleted_only restore_user) (remove_dups user_ids); mret (length (filter (.= true) restored))
  end.

Definition bulk_permanently_delete_users (actor : Z) (user_ids : list Z) (now : Z) : op Directory nat :=
  _ ← require_menu_write m_deleted_users actor;
  match user_ids with
  | [] => raise (bad_request "No users selected")
  | _ =>
      deleted ← for_each (deleted_only (fun user _ => permanently_delete_user user now)) (remove_dups user_ids);
      mret (length (filter (.= true) deleted))
  end.

(** Members of a group, to be disabled with it. *)
Definition disable_member (d : Directory) (member : Z * list text) : Directory :=
  if user_is_admin_panel member.2 then d
  else set_accounts (alter (fun a => if ac_active a then bump_version (set_active false a) else a) member.1) d.

Definition _disable_users_skipping_admins (users : list Z) : op Directory unit := fun d =>
  (Ok tt, foldl disable_member d (get_roles_map users d)).

(** A person signs up; [user] is the new row's id. *)
Definition sign_up (user : Z) (username : text) : op Directory unit :=
  _ ← modify (set_accounts <[user := MkAccount username true None None 0]>);
  _ ← set_user_roles user [USER_SLUG];
  mret tt.
End service.
