(* ===== verification/RolesFacts.v ===== *)
(** * The organisation keeps its administrators

    Whatever the handlers, the directory and the start-up do, in any order, an
    active Super Admin is left once no stored role is a legacy one; only Super Admins change who may do what; and
    what the start-up means to do for legacy administrators it does not do. *)

From S2P Require Import Prelude Text PyText Rbac RbacFacts Roles.

#[local] Open Scope Z_scope.

(** What every run of a loop's body that ends keeps, the loop does. *)
Lemma for_each_keeps {S A B} (I : S -> Prop) (body : A -> op S B) l s rs s' :
  (forall a x r x', a ∈ l -> I x -> body a x = (Ok r, x') -> I x') -> I s -> for_each body l s = (Ok rs, s') -> I s'.
Proof.
  revert s rs. induction l as [|a l IH]; intros s rs Hb Hi Hl; cbn [for_each] in Hl; [by injection Hl as _ <-|].
  apply op_bind_inv in Hl as (b & s1 & Ha & Hl). apply op_bind_inv in Hl as (bs & s2 & Hl & [= _ <-]).
  refine (IH s1 bs _ _ Hl); [|by eapply Hb; [left| |exact Ha]]. intros c x r x' Hc. apply Hb. by right.
Qed.

Section directory.
Context `{PySlugs} (order_by_slug : list text -> list text).
Hypothesis order_perm : forall l, order_by_slug l ≡ₚ l.
Implicit Types d : Directory.

(** ** Lists of roles *)

(** A slug as it is stored: one the catalogue offers, or the empty one that a blank becomes. *)
Definition stored_slug (slug : text) : Prop := slug = [] \/ is_assignable_role_slug slug = true /\ normalize_role_slug slug = slug.

Lemma user_assignable : is_assignable_role_slug USER_SLUG = true.
Proof. unfold is_assignable_role_slug. rewrite normalize_user. by vm_compute. Qed.

Lemma assignable_stored s : is_assignable_role_slug (normalize_role_slug s) = true -> stored_slug (normalize_role_slug s).
Proof.
  intros Ha. destruct (decide (normalize_role_slug s = [])) as [Hn|Hn]; [by left|]. right. split; [done|by apply normalize_idem].
Qed.

Lemma assignable_super s : is_assignable_role_slug s = true -> normalize_role_slug s = s -> s ∈ GLOBAL_FULL_ADMIN_SLUGS -> s = SUPER_ADMIN_SLUG.
Proof.
  intros Ha Hn. unfold GLOBAL_FULL_ADMIN_SLUGS. rewrite !elem_of_cons, elem_of_nil. intros [->|[->|[->|[]]]]; [done| |].
  - unfold is_assignable_role_slug in Ha. rewrite Hn in Ha. by vm_compute in Ha.
  - by destruct (normalize_not_legacy LEGACY_ADMIN_SLUG).
Qed.

Lemma normalize_super : normalize_role_slug SUPER_ADMIN_SLUG = SUPER_ADMIN_SLUG.
Proof. apply normalize_known; [by apply (bool_decide_unpack _); vm_compute|discriminate|discriminate]. Qed.

Lemma super_assignable : is_assignable_role_slug SUPER_ADMIN_SLUG = true.
Proof. unfold is_assignable_role_slug. rewrite normalize_super. by vm_compute. Qed.

Lemma super_stored slugs : Forall stored_slug slugs ->
  (user_has_super_admin_access slugs = true) <-> exists r, r ∈ slugs /\ normalize_role_slug r = SUPER_ADMIN_SLUG.
Proof.
  intros Hs. rewrite Forall_forall in Hs. rewrite super_elem. split.
  - intros (n & (x & -> & [Hne Hx]%list_elem_of_filter)%list_elem_of_fmap & Hg). exists x. split; [exact Hx|].
    destruct (Hs x Hx) as [->|[Ha Hn]]; [done|]. rewrite Hn in Hg |- *. by apply assignable_super.
  - intros (r & Hr & Hn). exists SUPER_ADMIN_SLUG. split; [|unfold GLOBAL_FULL_ADMIN_SLUGS; set_solver]. apply list_elem_of_fmap.
    exists r. split; [done|]. apply list_elem_of_filter. split; [|done]. intros ->.
    change (normalize_role_slug []) with (normalize_role_slug USER_SLUG) in Hn. by rewrite normalize_user in Hn.
Qed.

Lemma kept_elem x seen slugs : x ∈ kept_slugs seen slugs <->
  x ∉ seen /\ exists r, r ∈ slugs /\ x = normalize_role_slug r /\ is_assignable_role_slug x = true.
Proof.
  revert seen. induction slugs as [|raw slugs IH]; intros seen; cbn [kept_slugs].
  { split; [by intros ?%not_elem_of_nil|by intros (_ & r & ?%not_elem_of_nil & _)]. }
  destruct (is_assignable_role_slug (normalize_role_slug raw)) eqn:Ha; simpl; [case_bool_decide as Hseen|].
  - rewrite IH. split; intros (Hx & r & Hr & -> & Har); (split; [done|]); [exists r; split_and!; [by right|done|done]|].
    apply elem_of_cons in Hr as [->|Hr]; [done|]. by exists r.
  - rewrite elem_of_cons, IH, not_elem_of_cons. split.
    + intros [->|[[Hne Hx] (r & Hr & -> & Har)]]; [split; [done|]; exists raw; split_and!; [by left|done|done]|].
      split; [done|]. exists r. split_and!; [by right|done|done].
    + intros (Hx & r & Hr & -> & Har). apply elem_of_cons in Hr as [->|Hr]; [by left|].
      destruct (decide (normalize_role_slug r = normalize_role_slug raw)) as [|Hne]; [by left|right]. split; [done|]. by exists r.
  - rewrite IH. split; intros (Hx & r & Hr & -> & Har); (split; [done|]); [exists r; split_and!; [by right|done|done]|].
    apply elem_of_cons in Hr as [->|Hr]; [congruence|]. by exists r.
Qed.

Lemma role_list_stored slugs : Forall stored_slug (_normalize_role_list slugs).
Proof.
  unfold _normalize_role_list. destruct (kept_slugs [] slugs) as [|k l] eqn:Hk.
  - constructor; [|done]. right. split; [apply user_assignable|apply normalize_user].
  - rewrite <- Hk. apply Forall_forall. intros x (_ & r & _ & -> & Ha)%kept_elem. by apply assignable_stored.
Qed.

(** Normalising a list of roles neither gives nor takes Super Admin. *)
Lemma role_list_super slugs :
  user_has_super_admin_access (_normalize_role_list slugs) = true <-> exists r, r ∈ slugs /\ normalize_role_slug r = SUPER_ADMIN_SLUG.
Proof.
  rewrite super_stored by apply role_list_stored. unfold _normalize_role_list. split.
  - intros (x & Hx & Hn). destruct (kept_slugs [] slugs) as [|k l] eqn:Hk.
    + apply list_elem_of_singleton in Hx as ->. by rewrite normalize_user in Hn.
    + rewrite <- Hk in Hx. apply kept_elem in Hx as (_ & r & Hr & -> & Ha). exists r. split; [done|].
      destruct (decide (normalize_role_slug r = [])) as [He|He]; [|by rewrite normalize_idem in Hn].
      rewrite He in Hn. change (normalize_role_slug []) with (normalize_role_slug USER_SLUG) in Hn. by rewrite normalize_user in Hn.
  - intros (r & Hr & Hn). assert (Hk : SUPER_ADMIN_SLUG ∈ kept_slugs [] slugs).
    { apply kept_elem. split; [by intros ?%not_elem_of_nil|]. exists r. split; [exact Hr|split; [symmetry; exact Hn|exact super_assignable]]. }
    exists SUPER_ADMIN_SLUG. split; [|apply normalize_super].
    destruct (kept_slugs [] slugs); [by apply not_elem_of_nil in Hk|exact Hk].
Qed.

(** ** Administrators *)

Definition well_stored d : Prop := forall u rows, assignments d !! u = Some rows -> Forall stored_slug rows.

(** An active account, not deleted, whose rows hold Super Admin. *)
Definition administrator d (u : Z) : Prop :=
  exists a, accounts d !! u = Some a /\ signs_in a = true /\ user_has_super_admin_access (default [] (assignments d !! u)) = true.

Lemma stored_default d u : well_stored d -> Forall stored_slug (default [] (assignments d !! u)).
Proof. intros Hw. destruct (assignments d !! u) eqn:Hr; [by eapply Hw|constructor]. Qed.

(** What is read through the service is what the rows say. *)
Lemma full_administrator_rows d u : well_stored d ->
  user_has_full_administrator order_by_slug u d = user_has_super_admin_access (default [] (assignments d !! u)).
Proof.
  intros Hw. pose proof (stored_default d u Hw) as Hs. unfold user_has_full_administrator, get_user_role_slugs.
  set (rows := default [] (assignments d !! u)) in *. pose proof (order_perm rows) as Hp. apply eq_true_iff_eq.
  rewrite (super_stored rows Hs). destruct (order_by_slug rows) as [|x l] eqn:Ho.
  - rewrite (Permutation_nil Hp). split.
    + intros (r & Hr & Hn)%super_stored; [|constructor; [right; split; [apply user_assignable|apply normalize_user]|done]].
      apply list_elem_of_singleton in Hr as ->. by rewrite normalize_user in Hn.
    + by intros (r & ?%not_elem_of_nil & _).
  - rewrite role_list_super. by setoid_rewrite Hp.
Qed.

Definition administrators d : list Z := (filter (fun ua =>
  signs_in ua.2 && user_has_super_admin_access (default [] (assignments d !! ua.1)) = true) (map_to_list (accounts d))).*1.

Lemma administrators_elem d u : u ∈ administrators d <-> administrator d u.
Proof.
  unfold administrators, administrator. rewrite list_elem_of_fmap. split.
  - intros ([v a] & -> & [[Hs Hr]%andb_true_iff Hv%elem_of_map_to_list]%list_elem_of_filter). by exists a.
  - intros (a & Ha & Hs & Hr). exists (u, a). split; [done|]. apply list_elem_of_filter. split; [by apply andb_true_iff|by apply elem_of_map_to_list].
Qed.

Lemma count_administrators d : count_active_full_administrators d = Z.of_nat (length (administrators d)).
Proof. unfold count_active_full_administrators, administrators. by rewrite length_fmap. Qed.

Lemma administrators_NoDup d : NoDup (administrators d).
Proof. unfold administrators. eapply sublist_NoDup; [apply (NoDup_fst_map_to_list (accounts d))|]. apply fmap_sublist, sublist_filter. Qed.

(** More administrators than a list names are not all on it. *)
Lemma administrator_beyond d us (P : Z -> bool) :
  (forall u, administrator d u -> u ∈ us -> P u = true) ->
  Z.of_nat (length (filter (fun u => P u = true) us)) < count_active_full_administrators d -> exists v, administrator d v /\ v ∉ us.
Proof.
  rewrite count_administrators. intros HP Hlt. destruct (decide (Exists (.∉ us) (administrators d))) as [(v & Hv & Hn)%Exists_exists|Hall].
  - exists v. split; [by apply administrators_elem|done].
  - exfalso. rewrite <- Forall_Exists_neg in Hall. rewrite Forall_forall in Hall.
    assert (length (administrators d) <= length (filter (fun u => P u = true) us))%nat; [|lia].
    apply submseteq_length, NoDup_submseteq; [apply administrators_NoDup|]. intros v Hv. specialize (Hall v Hv).
    apply list_elem_of_filter. assert (v ∈ us) as Hin by (by apply dec_stable). split; [|done]. apply HP; [by apply administrators_elem|done].
Qed.

(** One is left when the guard lets a person go. *)
Lemma other_administrator d u : well_stored d -> (exists v, administrator d v) ->
  user_has_full_administrator order_by_slug u d && (count_active_full_administrators d <=? 1) = false -> exists v, administrator d v /\ v <> u.
Proof.
  intros Hw [v Hv] Hg. rewrite full_administrator_rows in Hg by done. apply andb_false_iff in Hg as [Hs|Hc%Z.leb_gt].
  - exists v. split; [done|]. intros ->. destruct Hv as (a & _ & _ & Hr). congruence.
  - destruct (administrator_beyond d [u] (fun _ => true)) as (w & Hwd & Hn); [done|simpl; lia|]. exists w. split; [done|]. set_solver.
Qed.

(** ** Changes that leave an administrator *)

Lemma administrator_roles d u rows v : v <> u -> administrator d v -> administrator (set_assignments <[u := rows]> d) v.
Proof. intros Hne (a & Ha & Hs & Hr). exists a. split_and!; [done|done|]. simpl. by rewrite lookup_insert_ne. Qed.

Lemma administrator_alter d u f v : v <> u -> administrator d v -> administrator (set_accounts (alter f u) d) v.
Proof. intros Hne (a & Ha & Hs & Hr). exists a. split_and!; [simpl; by rewrite lookup_alter_ne|done|done]. Qed.

(** An account changed without losing its sign-in stays what it was. *)
Lemma administrator_kept d u f v : (forall a, signs_in a = true -> signs_in (f a) = true) ->
  administrator d v -> administrator (set_accounts (alter f u) d) v.
Proof.
  intros Hf (a & Ha & Hs & Hr). destruct (decide (v = u)) as [->|Hne].
  - exists (f a). split_and!; [simpl; by rewrite lookup_alter_eq, Ha|by apply Hf|done].
  - exists a. split_and!; [simpl; by rewrite lookup_alter_ne|done|done].
Qed.

Lemma stored_roles d u slugs : well_stored d -> well_stored (set_assignments <[u := _normalize_role_list slugs]> d).
Proof.
  intros Hw v rows. simpl. rewrite lookup_insert. case_decide; [|by apply Hw]. intros [= <-]. apply role_list_stored.
Qed.

Lemma stored_accounts d f : well_stored d -> well_stored (set_accounts f d).
Proof. done. Qed.

(** Roles with Super Admin among them make an administrator of one who signs in. *)
Lemma administrator_promoted d u slugs v : Forall stored_slug slugs -> user_has_super_admin_access slugs = true ->
  administrator d v -> administrator (set_assignments <[u := _normalize_role_list slugs]> d) v.
Proof.
  intros Hs Hsup Hv. destruct (decide (v = u)) as [->|Hne]; [|by apply administrator_roles]. destruct Hv as (a & Ha & Hsi & _).
  exists a. split_and!; [done|done|]. simpl. rewrite lookup_insert_eq. simpl. apply role_list_super. by apply super_stored.
Qed.

(** The state every commit keeps. *)
Definition guarded d : Prop := well_stored d /\ exists v, administrator d v.

Lemma kept_by_other d u rows f : well_stored d -> Forall stored_slug rows -> (exists v, administrator d v /\ v <> u) ->
  guarded (set_assignments <[u := rows]> d) /\ guarded (set_accounts (alter f u) d).
Proof.
  intros Hw Hr (v & Hv & Hne). split; split.
  - intros w l. simpl. rewrite lookup_insert. case_decide; [by intros [= <-]|apply Hw].
  - exists v. by apply administrator_roles.
  - done.
  - exists v. by apply administrator_alter.
Qed.

Lemma assign_keeps d u slugs : guarded d -> Forall stored_slug slugs ->
  user_has_super_admin_access (get_user_role_slugs order_by_slug u d) && negb (user_has_super_admin_access slugs) &&
    (count_active_full_administrators d <=? 1) = false ->
  guarded (set_assignments <[u := _normalize_role_list slugs]> d).
Proof.
  intros [Hw [v Hv]] Hs Hg. destruct (user_has_super_admin_access slugs) eqn:Hsup.
  - split; [by apply stored_roles|]. exists v. by apply administrator_promoted.
  - rewrite andb_true_r in Hg. refine (proj1 (kept_by_other d u _ id Hw (role_list_stored slugs) _)).
    apply other_administrator; [done|by exists v|exact Hg].
Qed.

Lemma normalize_roles_stored roles slugs : normalize_roles roles = Ok slugs -> Forall stored_slug slugs.
Proof.
  revert slugs. induction roles as [|role roles IH]; intros slugs; cbn [normalize_roles]; [by intros [= <-]|].
  unfold _normalize_role. destruct (is_valid_role_slug _) eqn:Hv; [|done]. unfold mbind, res_bind.
  destruct (normalize_roles roles) as [rest|]; [|done]. intros [= <-]. constructor; [by apply assignable_stored|by apply IH].
Qed.

Lemma normalize_role_stored role slug : _normalize_role role = Ok slug -> Forall stored_slug [slug].
Proof. intros Hr. apply (normalize_roles_stored [role]). cbn [normalize_roles]. by rewrite Hr. Qed.

(** [m] commits only guarded states. *)
Definition commits_guarded {A} (m : op Directory A) : Prop := forall d r d', guarded d -> m d = (Ok r, d') -> guarded d'.

Lemma commits_bind {A B} (m : op Directory A) (k : A -> op Directory B) :
  commits_guarded m -> (forall a, commits_guarded (k a)) -> commits_guarded (m ≫= k).
Proof. intros Hm Hk d r d' Hd (a & d1 & Hma & Hka)%op_bind_inv. by apply (Hk a d1 r d' (Hm d a d1 Hd Hma)). Qed.

Lemma commits_ret {A} (a : A) : commits_guarded (mret a).
Proof. by intros d r d' Hd [= _ <-]. Qed.

Lemma commits_gets {A} (f : Directory -> A) : commits_guarded (gets f).
Proof. by intros d r d' Hd [= _ <-]. Qed.

Lemma commits_raise {A} e : commits_guarded (raise e : op Directory A).
Proof. by intros d r d' _. Qed.

Lemma commits_for_each {A B} (body : A -> op Directory B) l : (forall a, commits_guarded (body a)) -> commits_guarded (for_each body l).
Proof.
  intros Hb. induction l as [|a l IH]; cbn [for_each]; [apply commits_ret|]. apply commits_bind; [done|]. intros b.
  apply commits_bind; [done|]. intros bs. apply commits_ret.
Qed.

Lemma gate_inv menu actor d u d' : require_menu_write order_by_slug menu actor d = (Ok u, d') ->
  d' = d /\ match accounts d !! actor with Some a => ac_active a | None => false end = true /\
  user_can_write_menu (get_user_role_slugs order_by_slug actor d) (Some menu) = true.
Proof.
  unfold require_menu_write. set (slugs := get_user_role_slugs order_by_slug actor d). destruct (user_is_admin_panel slugs); [|done].
  set (active := match accounts d !! actor with Some a => ac_active a | None => false end). destruct active; [|done]. cbn [negb].
  destruct (user_can_access_menu slugs menu); [|done]. destruct (user_can_write_menu slugs (Some menu)); [|done]. by intros [= _ <-].
Qed.

Lemma commits_gate menu actor : commits_guarded (require_menu_write order_by_slug menu actor).
Proof. by intros d r d' Hd (-> & _)%gate_inv. Qed.

Lemma edit_roles_guarded actor user roles role : commits_guarded (edit_roles order_by_slug actor user roles role).
Proof.
  assert (Hassign : forall slugs, Forall stored_slug slugs -> commits_guarded (
    previous ← gets (get_user_role_slugs order_by_slug user);
    _ ← _ensure_actor_may_assign_roles order_by_slug actor slugs (Some previous);
    _ ← _ensure_not_last_full_admin_removal order_by_slug user slugs;
    _ ← set_user_roles user slugs; mret tt)).
  { intros slugs Hs d r d' Hd Hr. apply op_bind_inv in Hr as (prev & d1 & [= _ <-] & Hr). apply op_bind_inv in Hr as (u & d1 & Ha & Hr).
    unfold _ensure_actor_may_assign_roles in Ha. case_match; [|done]. injection Ha as _ <-. apply op_bind_inv in Hr as (u1 & d1 & Hl & Hr).
    unfold _ensure_not_last_full_admin_removal in Hl. case_match eqn:Hg; [done|]. injection Hl as _ <-.
    apply op_bind_inv in Hr as (rs & d1 & [= _ <-] & [= _ <-]). by apply assign_keeps. }
  unfold edit_roles. destruct roles as [[|x roles]|]; [| |destruct role as [role|]; [|apply commits_ret]].
  - apply Hassign. constructor; [|constructor]. right. split; [apply user_assignable|apply normalize_user].
  - intros d r d' Hd Hr. apply op_bind_inv in Hr as (slugs & d1 & Hn & Hr). unfold lift in Hn. injection Hn as Hn <-.
    exact (Hassign slugs (normalize_roles_stored (x :: roles) slugs Hn) d r d' Hd Hr).
  - intros d r d' Hd Hr. apply op_bind_inv in Hr as (slug & d1 & Hn & Hr). unfold lift in Hn. injection Hn as Hn <-.
    exact (Hassign [slug] (normalize_role_stored _ _ Hn) d r d' Hd Hr).
Qed.

Lemma edit_active_guarded user account active : commits_guarded (edit_active order_by_slug user account active).
Proof.
  intros d r d' [Hw Hv]. unfold edit_active. destruct active as [active|]; [|by intros [= _ <-]]. case_match; [by intros [= _ <-]|].
  destruct active; simpl.
  - intros [= _ <-]. split; [done|]. destruct Hv as [v Hv]. exists v. apply administrator_kept; [|done]. unfold signs_in. simpl.
    by intros a [_ ->]%andb_true_iff.
  - case_match eqn:Hg; [done|]. intros [= _ <-]. refine (proj2 (kept_by_other d user [] _ Hw (Forall_nil_2 _) _)). by apply other_administrator.
Qed.

Lemma update_user_guarded actor user roles role active : commits_guarded (patch_user order_by_slug actor user roles role active).
Proof.
  unfold patch_user. apply commits_bind; [apply commits_gate|]. intros ?. apply commits_bind; [apply commits_gets|].
  intros [account|]; [|apply commits_raise]. apply commits_bind; [apply edit_roles_guarded|]. intros ?. apply edit_active_guarded.
Qed.

(** *** In bulk *)

(** Nobody whose roles a list of people loses is the last administrator. *)
Lemma bulk_leaves d users (P : Z -> bool) : guarded d -> (forall u, administrator d u -> P u = true) ->
  (0 <? Z.of_nat (length (filter (fun u => P u = true) users))) &&
    (count_active_full_administrators d <=? Z.of_nat (length (filter (fun u => P u = true) users))) = false ->
  exists v, administrator d v /\ v ∉ users.
Proof.
  intros [Hw [v Hv]] HP Hg. apply (administrator_beyond d users P); [by intros u Hu _; apply HP|].
  assert (0 < count_active_full_administrators d).
  { rewrite count_administrators. apply administrators_elem in Hv. destruct (administrators d); [by apply not_elem_of_nil in Hv|simpl; lia]. }
  apply andb_false_iff in Hg as [Hg%Z.ltb_ge|Hg%Z.leb_gt]; lia.
Qed.

Lemma administrator_is_full d u : well_stored d -> administrator d u -> user_has_full_administrator order_by_slug u d = true.
Proof. intros Hw (a & _ & _ & Hr). by rewrite full_administrator_rows. Qed.

Lemma bulk_roles_guarded actor users slugs : Forall stored_slug slugs -> commits_guarded (bulk_roles order_by_slug actor users slugs).
Proof.
  intros Hs d r d' Hd. unfold bulk_roles. set (P u := user_has_super_admin_access (get_user_role_slugs order_by_slug u d)).
  set (demoted := length (filter (fun u => user_has_super_admin_access (get_user_role_slugs order_by_slug u d) = true) users)). destruct (negb (user_has_super_admin_access slugs) && _ && _) eqn:Hg; [done|].
  intros (rs & d1 & Hl & [= _ <-])%op_bind_inv.
  assert (Hloop : exists v, administrator d v /\ (forall u x, u ∈ users -> administrator x v ->
    administrator (set_assignments <[u := _normalize_role_list slugs]> x) v)).
  { destruct (user_has_super_admin_access slugs) eqn:Hsup.
    - destruct Hd as [_ [v Hv]]. exists v. split; [done|]. intros u x _. by apply administrator_promoted.
    - destruct (bulk_leaves d users P Hd) as (v & Hv & Hn); [intros u; apply (administrator_is_full d u), Hd| |].
      + cbn [negb andb] in Hg. apply andb_false_iff in Hg as [Hg|Hg%Z.ltb_ge]; apply andb_false_iff; [by left|right].
        apply Z.leb_gt. change (length (filter (fun u => P u = true) users)) with demoted. lia.
      + exists v. split; [done|]. intros u x Hu. apply administrator_roles. by intros ->. }
  destruct Hloop as (v & Hv & Hkeep).
  refine ((fun Hi => conj (proj1 Hi) (ex_intro _ v (proj2 Hi))) (for_each_keeps (fun x => well_stored x /\ administrator x v) _ _ _ _ _ _ (conj (proj1 Hd) Hv) Hl)).
  intros u x w x' Hu [Hwx Hvx] (cur & x1 & [= _ <-] & Hr)%op_bind_inv. case_match; [by injection Hr as _ <-|].
  apply op_bind_inv in Hr as (w2 & x1 & Ha & Hr). unfold _ensure_actor_may_assign_roles in Ha. case_match; [|done]. injection Ha as _ <-.
  apply op_bind_inv in Hr as (w1 & x1 & [= _ <-] & [= _ <-]). split; [by apply stored_roles|by apply Hkeep].
Qed.

Lemma bulk_active_guarded users active : commits_guarded (bulk_active order_by_slug users active).
Proof.
  intros d r d' Hd. unfold bulk_active. set (is_active u := match accounts d !! u with Some a => ac_active a | None => false end).
  set (n := length _). set (change a := if Bool.eqb (ac_active a) active then a else _).
  destruct (negb active && _ && _) eqn:Hg; [done|]. intros [= _ <-].
  assert (Hv : exists v, administrator d v /\ (forall u x, u ∈ users -> administrator x v -> administrator (set_accounts (alter change u) x) v)).
  { destruct active.
    - destruct Hd as [_ [v Hv]]. exists v. split; [done|]. intros u x _. apply administrator_kept. intros a Ha. unfold change.
      unfold signs_in in *. destruct (ac_active a) eqn:E; simpl in *; [by rewrite E|done].
    - destruct (bulk_leaves d users (fun u => is_active u && user_has_full_administrator order_by_slug u d) Hd) as (v & Hv & Hn); [|exact Hg|].
      + intros u Hu. rewrite (administrator_is_full d u (proj1 Hd) Hu), andb_true_r. destruct Hu as (a & Ha & Hsi & _).
        unfold is_active. rewrite Ha. by apply andb_true_iff in Hsi as [? _].
      + exists v. split; [done|]. intros u x Hu. apply administrator_alter. by intros ->. }
  destruct Hv as (v & Hv & Hkeep). destruct Hd as [Hw _]. clear Hg n is_active. clearbody change. revert d Hw Hv.
  induction users as [|u users IH]; intros d Hw Hv; simpl; [split; [done|by exists v]|].
  apply IH; [intros w x Hx; apply Hkeep; by right|done|apply Hkeep; [by left|done]].
Qed.

Lemma dedup_stored seen slugs : Forall stored_slug slugs -> Forall stored_slug (dedup seen slugs).
Proof.
  intros Hs. revert seen. induction Hs as [|s slugs Hs _ IH]; intros seen; cbn [dedup]; [done|]. case_bool_decide; [apply IH|by constructor].
Qed.

Lemma bulk_update_guarded actor ids roles role active : commits_guarded (bulk_update_users order_by_slug actor ids roles role active).
Proof.
  unfold bulk_update_users. apply commits_bind; [apply commits_gate|]. intros ?. destruct ids as [|i ids]; [apply commits_raise|].
  apply commits_bind; [apply commits_gets|]. intros rows. case_match; [apply commits_raise|]. apply commits_bind.
  - destruct roles as [[|x roles]|]; [apply commits_raise| |destruct role as [role|]; [|apply commits_ret]].
    + intros d r d' Hd (slugs & d1 & Hn & Hr)%op_bind_inv. unfold lift in Hn. injection Hn as Hn <-.
      eapply bulk_roles_guarded; [|exact Hd|exact Hr]. exact (dedup_stored _ _ (normalize_roles_stored (x :: roles) slugs Hn)).
    + intros d r d' Hd (slug & d1 & Hn & Hr)%op_bind_inv. unfold lift in Hn. injection Hn as Hn <-.
      eapply bulk_roles_guarded; [|exact Hd|exact Hr]. exact (normalize_role_stored _ _ Hn).
  - intros ?. destruct active; [apply bulk_active_guarded|apply commits_ret].
Qed.

(** *** Coming and going *)

Lemma deleted_guarded (m : op Directory unit) d u f r d' : guarded d -> m = modify (set_accounts (alter f u)) ->
  user_has_full_administrator order_by_slug u d && (count_active_full_administrators d <=? 1) = false -> m d = (Ok r, d') -> guarded d'.
Proof.
  intros [Hw Hv] -> Hg [= _ <-]. refine (proj2 (kept_by_other d u [] f Hw (Forall_nil_2 _) _)). by apply other_administrator.
Qed.

Lemma delete_guarded actor user now : commits_guarded (delete_local_user order_by_slug actor user now).
Proof.
  unfold delete_local_user. apply commits_bind; [apply commits_gate|]. intros ?. apply commits_bind; [apply commits_gets|].
  intros [account|]; [|apply commits_raise]. case_match; [apply commits_raise|]. intros d r d' Hd (last & d1 & [= Hlast <-] & Hr)%op_bind_inv.
  destruct last; [done|]. by eapply deleted_guarded; [exact Hd|reflexivity|exact Hlast|exact Hr].
Qed.

Lemma purge_guarded user now : commits_guarded (permanently_delete_user order_by_slug user now).
Proof.
  intros d r d' [Hw Hv]. unfold permanently_delete_user. case_match eqn:Hg; [done|]. intros [= _ <-]. split.
  - intros w l. simpl. intros [_ Hl]%lookup_delete_Some. by eapply Hw.
  - destruct (other_administrator d user Hw Hv Hg) as (v & (a & Ha & Hs & Hr) & Hne). exists v. exists a.
    split_and!; [simpl; by rewrite lookup_alter_ne|done|simpl; by rewrite lookup_delete_ne].
Qed.

Lemma restore_guarded user account : commits_guarded (restore_user user account).
Proof.
  unfold restore_user. case_match; [apply commits_raise|]. intros d r d' [Hw [v Hv]] [= _ <-]. split; [done|]. exists v.
  by apply administrator_kept.
Qed.

Lemma prune_guarded user account now : commits_guarded (prune_sync_user order_by_slug user account now).
Proof.
  intros d r d' Hd. unfold prune_sync_user. destruct (user_has_full_administrator _ user d) eqn:Hf; [by intros [= _ <-]|].
  case_match; [by intros [= _ <-]|]. intros (u & d1 & Hs & [= _ <-])%op_bind_inv.
  eapply deleted_guarded; [exact Hd|reflexivity| |exact Hs]. by rewrite Hf.
Qed.

Lemma skipping_guarded body : commits_guarded body -> forall d r d', guarded d -> skipping_value_errors body d = (Ok r, d') ->
  (forall d e d1, body d = (Raise e, d1) -> d1 = d) -> guarded d'.
Proof.
  intros Hb d r d' Hd. unfold skipping_value_errors. destruct (body d) as [[u|e] d1] eqn:Hr.
  - intros [= _ <-] _. by eapply Hb.
  - destruct e; try done. intros [= _ <-] Hsame. by rewrite (Hsame _ _ _ Hr).
Qed.

Lemma deleted_only_guarded step user : (forall u account, commits_guarded (step u account)) ->
  (forall u account d e d1, step u account d = (Raise e, d1) -> d1 = d) -> commits_guarded (deleted_only step user).
Proof.
  intros Hb Hsame. unfold deleted_only. apply commits_bind; [apply commits_gets|]. intros [account|]; [|apply commits_ret].
  case_match; [apply commits_ret|]. intros d r d' Hd Hr. eapply skipping_guarded; [apply Hb|exact Hd|exact Hr|by apply Hsame].
Qed.

Lemma restore_same user account d e d1 : restore_user user account d = (Raise e, d1) -> d1 = d.
Proof. unfold restore_user. case_match; [by intros [= _ <-]|done]. Qed.

Lemma purge_same user now d e d1 : permanently_delete_user order_by_slug user now d = (Raise e, d1) -> d1 = d.
Proof. unfold permanently_delete_user. case_match; [by intros [= _ <-]|done]. Qed.

Lemma restored_guarded actor user : commits_guarded (restore_user_endpoint order_by_slug actor user).
Proof.
  unfold restore_user_endpoint. apply commits_bind; [apply commits_gate|]. intros ?. apply commits_bind; [apply commits_gets|].
  intros [account|]; [|apply commits_raise]. case_match; [apply commits_raise|apply restore_guarded].
Qed.

Lemma purged_guarded actor user now : commits_guarded (permanently_delete_user_endpoint order_by_slug actor user now).
Proof.
  unfold permanently_delete_user_endpoint. apply commits_bind; [apply commits_gate|]. intros ?. apply commits_bind; [apply commits_gets|].
  intros [account|]; [|apply commits_raise]. case_match; [apply commits_raise|]. case_match; [apply commits_raise|apply purge_guarded].
Qed.

Lemma bulk_restored_guarded actor ids : commits_guarded (bulk_restore_users order_by_slug actor ids).
Proof.
  unfold bulk_restore_users. apply commits_bind; [apply commits_gate|]. intros ?. destruct ids; [apply commits_raise|].
  apply commits_bind; [|intros ?; apply commits_ret]. apply commits_for_each. intros u.
  apply deleted_only_guarded; [apply restore_guarded|apply restore_same].
Qed.

Lemma bulk_purged_guarded actor ids now : commits_guarded (bulk_permanently_delete_users order_by_slug actor ids now).
Proof.
  unfold bulk_permanently_delete_users. apply commits_bind; [apply commits_gate|]. intros ?. destruct ids; [apply commits_raise|].
  apply commits_bind; [|intros ?; apply commits_ret]. apply commits_for_each. intros u.
  apply deleted_only_guarded; [intros ? ?; apply purge_guarded|intros w ?; apply purge_same].
Qed.

(** A new account, whoever it is for. *)
Lemma account_added d user account slugs : guarded d -> accounts d !! user = None ->
  guarded (set_assignments <[user := _normalize_role_list slugs]> (set_accounts <[user := account]> d)).
Proof.
  intros [Hw (v & a & Ha & Hs & Hr)] Hnew. split; [by apply stored_roles|]. exists v, a. assert (v <> user) by congruence.
  split_and!; [simpl; by rewrite lookup_insert_ne|done|simpl; by rewrite lookup_insert_ne].
Qed.

Lemma signed_up_guarded d user username r d' : guarded d -> accounts d !! user = None ->
  sign_up user username d = (Ok r, d') -> guarded d'.
Proof.
  intros Hd Hnew (u & d1 & [= _ <-] & Hr)%op_bind_inv. apply op_bind_inv in Hr as (rs & d2 & [= _ <-] & [= _ <-]).
  by apply account_added.
Qed.

Lemma created_guarded d actor user username role r d' : guarded d -> accounts d !! user = None ->
  create_local_user order_by_slug actor user username role d = (Ok r, d') -> guarded d'.
Proof.
  intros Hd Hnew (u & d1 & (-> & _)%gate_inv & Hr)%op_bind_inv. apply op_bind_inv in Hr as (slug & d1 & Hn & Hr). injection Hn as Hn <-.
  apply op_bind_inv in Hr as (u1 & d1 & Ha & Hr). unfold _ensure_actor_may_assign_roles in Ha. case_match; [|done]. injection Ha as _ <-.
  apply op_bind_inv in Hr as (u2 & d1 & [= _ <-] & Hr). apply op_bind_inv in Hr as (rs & d2 & [= _ <-] & [= _ <-]). by apply account_added.
Qed.

Lemma super_is_panel slugs : Forall stored_slug slugs -> user_has_super_admin_access slugs = true -> user_is_admin_panel slugs = true.
Proof.
  intros Hs (r & Hr & Hn)%super_stored; [|done]. unfold user_is_admin_panel. apply existsb_exists. exists r. split; [by apply list_elem_of_In|].
  rewrite panel_of, Hn. by vm_compute.
Qed.

Lemma disabled_guarded users : commits_guarded (_disable_users_skipping_admins order_by_slug users).
Proof.
  intros d r d' [Hw [v Hv]] [= _ <-]. assert (Hskip : forall member, member ∈ get_roles_map order_by_slug users d -> member.1 = v ->
    user_is_admin_panel member.2 = true).
  { unfold get_roles_map. intros [u slugs] (x & [= -> ->] & _)%list_elem_of_fmap Hu. simpl in *. subst x.
    apply super_is_panel; [apply role_list_stored|]. apply role_list_super. destruct Hv as (a & _ & _ & Hr).
    apply super_stored in Hr; [|by apply stored_default]. by setoid_rewrite order_perm. }
  revert Hskip Hw Hv. generalize (get_roles_map order_by_slug users d). intros members. revert d.
  induction members as [|m members IH]; intros d Hskip Hw Hv; cbn [foldl]; [split; [done|by exists v]|].
  apply IH; [intros x Hx; apply Hskip; by right| |]; unfold disable_member; destruct (user_is_admin_panel m.2) eqn:Hp; try done.
  apply administrator_alter; [|done]. intros ->. by rewrite Hskip in Hp; [|left|].
Qed.

Lemma bootstrap_guarded admin_username : commits_guarded (ensure_bootstrap_admin_roles order_by_slug admin_username).
Proof.
  intros d r d' Hd. unfold ensure_bootstrap_admin_roles. generalize (filter (fun ua : Z * Account => bool_decide (ac_username ua.2 = admin_username) ||
    existsb (fun slug => bool_decide (normalize_role_slug slug ∈ [FULL_ADMIN_SLUG; LEGACY_ADMIN_SLUG])) (default [] (assignments d !! ua.1)) = true)
    (map_to_list (accounts d))). intros candidates. revert d r d' Hd. apply commits_bind; [|intros ?; apply commits_ret].
  apply commits_for_each. intros [u account]. unfold ensure_super_admin_roles. apply commits_bind; [apply commits_gets|]. intros slugs.
  assert (Hset : commits_guarded (_ ← set_user_roles u [SUPER_ADMIN_SLUG]; mret tt)).
  { intros d r d' [Hw [v Hv]] (rs & d1 & [= _ <-] & [= _ <-])%op_bind_inv. split; [by apply stored_roles|]. exists v.
    apply administrator_promoted; [|apply super_stored; [|exists SUPER_ADMIN_SLUG; split; [by left|apply normalize_super]]|done];
      (constructor; [right; split; [apply super_assignable|apply normalize_super]|constructor]). }
  repeat case_match; first [apply commits_ret|exact Hset].
Qed.

(** Everything that changes roles or sign-ins, committed. *)
Inductive directory_call : Directory -> Directory -> Prop :=
  | call_create actor user username role r d d' : accounts d !! user = None ->
      create_local_user order_by_slug actor user username role d = (Ok r, d') -> directory_call d d'
  | call_update actor user roles role active r d d' :
      patch_user order_by_slug actor user roles role active d = (Ok r, d') -> directory_call d d'
  | call_bulk actor ids roles role active r d d' :
      bulk_update_users order_by_slug actor ids roles role active d = (Ok r, d') -> directory_call d d'
  | call_delete actor user now r d d' : delete_local_user order_by_slug actor user now d = (Ok r, d') -> directory_call d d'
  | call_restored actor user r d d' : restore_user_endpoint order_by_slug actor user d = (Ok r, d') -> directory_call d d'
  | call_purged actor user now r d d' : permanently_delete_user_endpoint order_by_slug actor user now d = (Ok r, d') -> directory_call d d'
  | call_bulk_restored actor ids r d d' : bulk_restore_users order_by_slug actor ids d = (Ok r, d') -> directory_call d d'
  | call_bulk_purged actor ids now r d d' : bulk_permanently_delete_users order_by_slug actor ids now d = (Ok r, d') -> directory_call d d'
  | call_group_disabled users r d d' : _disable_users_skipping_admins order_by_slug users d = (Ok r, d') -> directory_call d d'
  | call_pruned user account now r d d' : accounts d !! user = Some account ->
      prune_sync_user order_by_slug user account now d = (Ok r, d') -> directory_call d d'
  | call_synced user account r d d' : accounts d !! user = Some account -> restore_user user account d = (Ok r, d') -> directory_call d d'
  | call_sign_up user username r d d' : accounts d !! user = None -> sign_up user username d = (Ok r, d') -> directory_call d d'
  | call_startup admin_username r d d' : ensure_bootstrap_admin_roles order_by_slug admin_username d = (Ok r, d') -> directory_call d d'.

Lemma directory_call_guarded d d' : directory_call d d' -> guarded d -> guarded d'.
Proof.
  intros [actor user username role r x x' Hn Hr|actor user roles role active r x x' Hr|actor ids roles role active r x x' Hr|actor user now r x x' Hr
    |actor user r x x' Hr|actor user now r x x' Hr|actor ids r x x' Hr|actor ids now r x x' Hr|users r x x' Hr|user account now r x x' _ Hr
    |user account r x x' _ Hr|user username r x x' Hn Hr|admin_username r x x' Hr] Hd.
  - exact (created_guarded _ _ _ _ _ _ _ Hd Hn Hr).
  - exact (update_user_guarded _ _ _ _ _ _ _ _ Hd Hr).
  - exact (bulk_update_guarded _ _ _ _ _ _ _ _ Hd Hr).
  - exact (delete_guarded _ _ _ _ _ _ Hd Hr).
  - exact (restored_guarded _ _ _ _ _ Hd Hr).
  - exact (purged_guarded _ _ _ _ _ _ Hd Hr).
  - exact (bulk_restored_guarded _ _ _ _ _ Hd Hr).
  - exact (bulk_purged_guarded _ _ _ _ _ _ Hd Hr).
  - exact (disabled_guarded _ _ _ _ Hd Hr).
  - exact (prune_guarded _ _ _ _ _ _ Hd Hr).
  - exact (restore_guarded _ _ _ _ _ Hd Hr).
  - exact (signed_up_guarded _ _ _ _ _ Hd Hn Hr).
  - exact (bootstrap_guarded _ _ _ _ Hd Hr).
Qed.

(** C29: the organisation never locks itself out, once every stored role is one the
    service stores today: no row still names the old "admin" role, which the guard
    counts as a Super Admin although it gives no rights
    ([user_role_service.py:169]).  From such a state, in which some active account
    holds Super Admin, no sequence of calls - creating, editing, editing in bulk, disabling,
    deleting, restoring and purging people, alone or with their group or by the
    directory's synchronisation, signing up, starting - ends in one without. *)
Theorem never_locked_out d d' : rtc directory_call d d' -> well_stored d -> (exists u, administrator d u) ->
  well_stored d' /\ exists u, administrator d' u.
Proof.
  intros Hr Hw Hv. refine (rtc_invariant directory_call guarded d d' _ Hr (conj Hw Hv)). intros x y Hx Hxy. by eapply directory_call_guarded.
Qed.

(** The calls that a person makes. *)
Inductive person_call (actor : Z) : Directory -> Directory -> Prop :=
  | person_create user username role r d d' : create_local_user order_by_slug actor user username role d = (Ok r, d') -> person_call actor d d'
  | person_update user roles role active r d d' : patch_user order_by_slug actor user roles role active d = (Ok r, d') -> person_call actor d d'
  | person_bulk ids roles role active r d d' : bulk_update_users order_by_slug actor ids roles role active d = (Ok r, d') -> person_call actor d d'
  | person_delete user now r d d' : delete_local_user order_by_slug actor user now d = (Ok r, d') -> person_call actor d d'
  | person_restore user r d d' : restore_user_endpoint order_by_slug actor user d = (Ok r, d') -> person_call actor d d'
  | person_purge user now r d d' : permanently_delete_user_endpoint order_by_slug actor user now d = (Ok r, d') -> person_call actor d d'
  | person_bulk_restore ids r d d' : bulk_restore_users order_by_slug actor ids d = (Ok r, d') -> person_call actor d d'
  | person_bulk_purge ids now r d d' : bulk_permanently_delete_users order_by_slug actor ids now d = (Ok r, d') -> person_call actor d d'.

Lemma gate_super menu actor d u d' : menu ∉ scoped_menus -> menu ∉ USER_APP_MENUS ->
  require_menu_write order_by_slug menu actor d = (Ok u, d') ->
  exists a, accounts d !! actor = Some a /\ ac_active a = true /\
    user_has_super_admin_access (get_user_role_slugs order_by_slug actor d) = true /\
    user_has_super_read_only_access (get_user_role_slugs order_by_slug actor d) = false.
Proof.
  intros Hs Hm (_ & Ha & Hw)%gate_inv. destruct (accounts d !! actor) as [a|]; [|done]. exists a. split; [done|]. split; [done|].
  by apply (proj2 (platform_menus_guarded (get_user_role_slugs order_by_slug actor d) menu Hs Hm)).
Qed.

(** C30: nobody but an active Super Admin, who holds no platform-wide read-only role,
    creates, edits, disables, deletes, restores or purges a person, or changes
    anybody's roles: whatever other roles are held, the call is refused. *)
Theorem only_super_admins_administer actor d d' : person_call actor d d' ->
  exists a, accounts d !! actor = Some a /\ ac_active a = true /\
    user_has_super_admin_access (get_user_role_slugs order_by_slug actor d) = true /\
    user_has_super_read_only_access (get_user_role_slugs order_by_slug actor d) = false.
Proof.
  assert (Hu : m_users ∉ scoped_menus /\ m_users ∉ USER_APP_MENUS) by (split; by apply (bool_decide_unpack _); vm_compute).
  assert (Hdel : m_deleted_users ∉ scoped_menus /\ m_deleted_users ∉ USER_APP_MENUS) by (split; by apply (bool_decide_unpack _); vm_compute).
  intros Hc. assert (Hgate : exists menu u d1, menu ∉ scoped_menus /\ menu ∉ USER_APP_MENUS /\
    require_menu_write order_by_slug menu actor d = (Ok u, d1)).
  { destruct Hc as [user username role r d d' Hr|user roles role active r d d' Hr|ids roles role active r d d' Hr|user now r d d' Hr|user r d d' Hr
      |user now r d d' Hr|ids r d d' Hr|ids now r d d' Hr]; apply op_bind_inv in Hr as (u & d1 & Hg & _); (eexists _, u, d1; split_and!; [..|exact Hg]; tauto). }
  destruct Hgate as (menu & u & d1 & Hs & Hm & Hg). by apply (gate_super menu actor d u d1).
Qed.

(** The start-up means to turn holders of a retired administrator role into
    Super Admins, and leaves them as they are: the roles it reads have the
    retired ones filtered out.  Such a person administers nothing, yet counts as
    an administrator where the last one is protected. *)
Theorem legacy_admins_not_upgraded d user account rows admin_username :
  accounts d !! user = Some account -> signs_in account = true -> ac_username account <> admin_username ->
  assignments d !! user = Some rows -> rows <> [] -> Forall (fun s => s <> [] /\ normalize_role_slug s = FULL_ADMIN_SLUG) rows ->
  ensure_super_admin_roles order_by_slug user account admin_username d = (Ok tt, d) /\
  user_is_admin_panel (get_user_role_slugs order_by_slug user d) = false /\ 1 <= count_active_full_administrators d.
Proof.
  intros Ha Hsi Hname Hrows Hne Hall. rewrite Forall_forall in Hall.
  assert (Hread : get_user_role_slugs order_by_slug user d = [USER_SLUG]).
  { unfold get_user_role_slugs. rewrite Hrows. simpl. pose proof (order_perm rows) as Hp. destruct (order_by_slug rows) as [|x l]; [done|].
    unfold _normalize_role_list. destruct (kept_slugs [] (x :: l)) as [|k ks] eqn:Hk; [done|]. exfalso.
    assert (Hin : k ∈ kept_slugs [] (x :: l)) by (rewrite Hk; by left). apply kept_elem in Hin as (_ & r & Hr & -> & Has).
    rewrite Hp in Hr. destruct (Hall r Hr) as [_ Hn]. rewrite Hn in Has. unfold is_assignable_role_slug in Has.
    rewrite normalize_known in Has; [by vm_compute in Has|by apply (bool_decide_unpack _); vm_compute|discriminate|discriminate]. }
  split_and!.
  - unfold ensure_super_admin_roles. erewrite op_bind_ok; [|reflexivity]. rewrite Hread.
    destruct (user_has_super_admin_access [USER_SLUG]) eqn:Hs.
    + exfalso. apply super_alone in Hs. rewrite normalize_user in Hs. by apply (bool_decide_pack _) in Hs; vm_compute in Hs.
    + by rewrite bool_decide_false.
  - rewrite Hread. unfold user_is_admin_panel. simpl. rewrite panel_of, normalize_user. by vm_compute.
  - rewrite count_administrators. assert (Hv : user ∈ administrators d); [|destruct (administrators d); [by apply not_elem_of_nil in Hv|simpl; lia]].
    apply administrators_elem. exists account. split_and!; [done|done|]. rewrite Hrows. simpl. apply super_elem.
    destruct rows as [|r rows]; [done|]. destruct (Hall r) as [Hrne Hrn]; [by left|]. exists FULL_ADMIN_SLUG.
    split; [|by apply (bool_decide_unpack _); vm_compute]. apply list_elem_of_fmap. exists r. split; [done|]. apply list_elem_of_filter.
    split; [done|by left].
Qed.
End directory.

(** ** Witnesses *)

#[local] Existing Instance ascii_str.

Definition person (name : string) : Account := MkAccount (of_string name) true None None 0.

(** Ada administers; Bob holds a role that was retired. *)
Definition small_directory : Directory := MkDirectory
  (<[1 := person "ada"]> (<[2 := person "bob"]> ∅)) (<[1 := [SUPER_ADMIN_SLUG]]> (<[2 := [LEGACY_ADMIN_SLUG]]> ∅)).
Definition one_admin : Directory := MkDirectory (<[1 := person "ada"]> ∅) (<[1 := [SUPER_ADMIN_SLUG]]> ∅).

Lemma one_admin_stored : well_stored one_admin.
Proof.
  intros u rows. simpl. intros [[_ <-]|[_ Hn]]%lookup_insert_Some; [|by rewrite lookup_empty in Hn].
  constructor; [right; split; vm_compute; reflexivity|constructor].
Qed.

Lemma one_admin_administered : exists u, administrator one_admin u.
Proof. exists 1, (person "ada"). split; [reflexivity|split; [reflexivity|vm_compute; reflexivity]]. Qed.

Lemma never_locked_out_witness : exists u, administrator (sign_up 5 (of_string "eve") one_admin).2 u.
Proof.
  set (d' := (sign_up 5 (of_string "eve") one_admin).2).
  assert (Hc : directory_call (fun l => l) one_admin d').
  { apply (call_sign_up _ 5 (of_string "eve") tt one_admin d'); [reflexivity|]. unfold d'. vm_compute. reflexivity. }
  exact (proj2 (never_locked_out (fun l => l) (fun l => Permutation_refl l) one_admin d' (rtc_once _ _ Hc) one_admin_stored one_admin_administered)).
Defined.

Lemma only_super_admins_administer_witness :
  exists a, accounts one_admin !! 1 = Some a /\ ac_active a = true /\ user_has_super_admin_access (get_user_role_slugs (fun l => l) 1 one_admin) = true.
Proof.
  set (d' := (create_local_user (fun l => l) 1 5 (of_string "eve") (of_string "Support_Agent") one_admin).2).
  assert (Hc : person_call (fun l => l) 1 one_admin d').
  { apply (person_create _ 1 5 (of_string "eve") (of_string "Support_Agent") tt one_admin d'). unfold d'. vm_compute. reflexivity. }
  destruct (only_super_admins_administer (fun l => l) 1 one_admin d' Hc) as (a & Ha & Hact & Hs & _).
  exists a. split; [exact Ha|split; [exact Hact|exact Hs]].
Defined.

Lemma legacy_admins_not_upgraded_witness :
  ensure_super_admin_roles (fun l => l) 2 (person "bob") (of_string "ada") small_directory = (Ok tt, small_directory).
Proof.
  assert (Hl : Forall (fun s => s <> [] /\ normalize_role_slug s = FULL_ADMIN_SLUG) [LEGACY_ADMIN_SLUG])
    by (constructor; [split; [discriminate|vm_compute; reflexivity]|constructor]).
  assert (Hn : ac_username (person "bob") <> of_string "ada") by (vm_compute; discriminate).
  exact (proj1 (legacy_admins_not_upgraded (fun l => l) (fun l => Permutation_refl l) small_directory 2 (person "bob") [LEGACY_ADMIN_SLUG]
    (of_string "ada") eq_refl eq_refl Hn eq_refl ltac:(discriminate) Hl)).
Defined.
