(* ===== verification/Access.v ===== *)
(** * Access to single agents, knowledge bases and documents

    resource_access_service.py: who a caller is ([ResourceAccessSubject]), what
    the grants on a resource say of them, one at a time and in bulk, and the
    calls by which administrators replace a resource's grants.  Sets of Python
    are finite sets; the rows of a query come in the order of the table, and the
    theorems hold for every order. *)

From S2P Require Import Prelude Text Json PyText Fences Rbac Roles.

(** ** Data *)

Definition ACCESS_PUBLIC : text := of_string "public".
Definition ACCESS_PRIVATE : text := of_string "private".
Definition VALID_ACCESS_TYPES : list text := [ACCESS_PUBLIC; ACCESS_PRIVATE].
Definition EFFECT_ALLOW : text := of_string "allow".
Definition EFFECT_DENY : text := of_string "deny".
Definition VALID_EFFECTS : list text := [EFFECT_ALLOW; EFFECT_DENY].
Definition VALID_TARGET_TYPES : list text := [of_string "user"; of_string "group"; of_string "department"; of_string "role"].

Record AccessAssignment := MkAssignment {
  aa_user : option Z; aa_group : option Z; aa_department : option text; aa_role : option text; aa_effect : text
}.

Record ResourceAccessSubject := MkSubject {
  su_user : option Z; su_groups : gset Z; su_department : option text; su_roles : gset text;
  su_active : bool; su_public_only : bool; su_break_glass : bool
}.

(** [grant.target: int | str] *)
Inductive target :=
  | TInt (n : Z)
  | TStr (s : text).

#[export] Instance target_eq_dec : EqDecision target.
Proof. solve_decision. Defined.

Record AccessGrant := MkGrant { gr_type : text; gr_target : target; gr_effect : text }.

Record Agent := MkAgent { ag_id : text; ag_access : text; ag_acl_version : Z }.
Record KnowledgeBase := MkKnowledgeBase { kb_id : text; kb_status : text; kb_access : text; kb_acl_version : Z }.
Record KnowledgeDocument := MkDocument {
  kd_id : text; kd_base : text; kd_title : text; kd_status : text; kd_revoked : option Z; kd_deleted : option Z; kd_acl_version : Z
}.

#[export] Instance document_eq_dec : EqDecision KnowledgeDocument.
Proof. solve_decision. Defined.

(** People with their roles, departments and groups, the owners of API keys, and
    the resources with the grants on each, (resource, grant). *)
Record AclDB := MkAclDB {
  people : Directory; departments : gmap Z text; groups : gset Z; group_members : list (Z * Z); key_owners : gmap Z (option Z);
  agents : gmap text Agent; bases : gmap text KnowledgeBase; documents : gmap text KnowledgeDocument;
  agent_grants : list (text * AccessAssignment); base_grants : list (text * AccessAssignment);
  document_grants : list (text * AccessAssignment)
}.

Definition with_agents (f : gmap text Agent -> gmap text Agent) (g : list (text * AccessAssignment) -> list (text * AccessAssignment))
    (s : AclDB) : AclDB :=
  MkAclDB (people s) (departments s) (groups s) (group_members s) (key_owners s) (f (agents s)) (bases s) (documents s)
    (g (agent_grants s)) (base_grants s) (document_grants s).
Definition with_bases (f : gmap text KnowledgeBase -> gmap text KnowledgeBase)
    (g : list (text * AccessAssignment) -> list (text * AccessAssignment)) (s : AclDB) : AclDB :=
  MkAclDB (people s) (departments s) (groups s) (group_members s) (key_owners s) (agents s) (f (bases s)) (documents s)
    (agent_grants s) (g (base_grants s)) (document_grants s).
Definition with_documents (f : gmap text KnowledgeDocument -> gmap text KnowledgeDocument)
    (g : list (text * AccessAssignment) -> list (text * AccessAssignment)) (s : AclDB) : AclDB :=
  MkAclDB (people s) (departments s) (groups s) (group_members s) (key_owners s) (agents s) (bases s) (f (documents s))
    (agent_grants s) (base_grants s) (g (document_grants s)).
Definition with_people (d : Directory) (s : AclDB) : AclDB :=
  MkAclDB d (departments s) (groups s) (group_members s) (key_owners s) (agents s) (bases s) (documents s)
    (agent_grants s) (base_grants s) (document_grants s).

Section access.
Context `{PyStr} `{PyFold} `{PyInt} (order_by_slug : list text -> list text).

(** ** Names and tokens *)

Definition _normalize_text (value : option text) : option text :=
  match value with
  | None => None
  | Some value => match py_casefold (join_space (split_ws [] (strip value))) with [] => None | normalized => Some normalized end
  end.

Definition user_token (user : Z) : text := of_string "user:" ++ of_int user.
Definition group_token (group : Z) : text := of_string "group:" ++ of_int group.
Definition department_token (department : text) : text := of_string "department:" ++ department.
Definition role_token (slug : text) : text := of_string "role:" ++ slug.

Definition principal_tokens (s : ResourceAccessSubject) : gset text :=
  match su_user s with Some user => {[user_token user]} | None => ∅ end ∪
  set_map group_token (su_groups s) ∪
  match su_department s with Some ((_ :: _) as department) => {[department_token department]} | _ => ∅ end ∪
  set_map role_token (su_roles s).

Definition _assignment_token (a : AccessAssignment) : option text :=
  match aa_user a, aa_group a with
  | Some user, _ => Some (user_token user)
  | None, Some group => Some (group_token group)
  | None, None =>
      match _normalize_text (aa_department a), _normalize_text (aa_role a) with
      | Some department, _ => Some (department_token department)
      | None, Some role => Some (role_token role)
      | None, None => None
      end
  end.

Definition assignment_matches (a : AccessAssignment) (s : ResourceAccessSubject) : bool :=
  match _assignment_token a with Some token => bool_decide (token ∈ principal_tokens s) | None => false end.

(** [(assignment.effect or EFFECT_ALLOW).lower()] *)
Definition effect_of (a : AccessAssignment) : text := py_lower match aa_effect a with [] => EFFECT_ALLOW | effect => effect end.
Definition denies (a : AccessAssignment) : bool := bool_decide (effect_of a = EFFECT_DENY).
Definition allows (a : AccessAssignment) : bool := bool_decide (effect_of a = EFFECT_ALLOW).

Definition matched (assignments : list AccessAssignment) (s : ResourceAccessSubject) : list AccessAssignment :=
  filter (fun a => assignment_matches a s = true) assignments.

(** ** The decision *)

Definition evaluate_access (access_type : text) (assignments : list AccessAssignment) (s : ResourceAccessSubject) : bool :=
  if negb (su_active s) then false
  else if su_break_glass s then true
  else if existsb denies (matched assignments s) then false
  else
    let normalized_access := py_lower (strip match access_type with [] => ACCESS_PRIVATE | _ => access_type end) in
    if bool_decide (normalized_access = ACCESS_PUBLIC) then true
    else if su_public_only s || bool_decide (su_user s = None) then false
    else existsb allows (matched assignments s).

(** The tokens of the allows and of the denies. *)
Definition compile_acl_payload (assignments : list AccessAssignment) : gset text * gset text :=
  foldl (fun acl a =>
    match _assignment_token a with
    | None => acl
    | Some token => if denies a then (acl.1, {[token]} ∪ acl.2) else ({[token]} ∪ acl.1, acl.2)
    end) (∅, ∅) assignments.

(** [select(...).where(column == id)] *)
Definition grants_on (id : text) (table : list (text * AccessAssignment)) : list AccessAssignment :=
  snd <$> filter (fun row => row.1 = id) table.

(** The rows of [ids], grouped by resource: each id has a list from the start. *)
Definition grants_by (ids : list text) (table : list (text * AccessAssignment)) : gmap text (list AccessAssignment) :=
  foldl (fun by_id row => partial_alter (fun rows => Some (default [] rows ++ [row.2])) row.1 by_id)
    (foldl (fun by_id id => <[id := []]> by_id) ∅ ids) (filter (fun row => row.1 ∈ ids) table).

Definition user_can_access_agent (db : AclDB) (agent : Agent) (s : ResourceAccessSubject) : bool :=
  evaluate_access (ag_access agent) (grants_on (ag_id agent) (agent_grants db)) s.

Definition filter_agents_for_subject (db : AclDB) (agents : list Agent) (s : ResourceAccessSubject) : list Agent :=
  if bool_decide (agents = []) || negb (su_active s) then []
  else
    let by_agent := grants_by (ag_id <$> agents) (agent_grants db) in
    filter (fun agent => evaluate_access (ag_access agent) (default [] (by_agent !! ag_id agent)) s = true) agents.

Definition user_can_access_knowledge_base (db : AclDB) (base : KnowledgeBase) (s : ResourceAccessSubject) : bool :=
  evaluate_access (kb_access base) (grants_on (kb_id base) (base_grants db)) s.

Definition filter_knowledge_bases_for_subject (db : AclDB) (bases : list KnowledgeBase) (s : ResourceAccessSubject) : list KnowledgeBase :=
  if bool_decide (bases = []) || negb (su_active s) then []
  else if su_break_glass s then bases
  else
    let by_base := grants_by (kb_id <$> bases) (base_grants db) in
    filter (fun base => evaluate_access (kb_access base) (default [] (by_base !! kb_id base)) s = true) bases.

Definition user_can_access_document (db : AclDB) (document : KnowledgeDocument) (s : ResourceAccessSubject) : bool :=
  match bases db !! kd_base document with
  | None => false
  | Some base =>
      if negb (user_can_access_knowledge_base db base s) then false
      else if su_break_glass s then true
      else
        let assignments := grants_on (kd_id document) (document_grants db) in
        if bool_decide (assignments = []) then true
        else if existsb denies (matched assignments s) then false
        else if negb (existsb allows assignments) then true
        else existsb allows (matched assignments s)
  end.

(** [select(KnowledgeBase).where(id in ids)] *)
Definition bases_in (ids : gset text) (db : AclDB) : list KnowledgeBase :=
  snd <$> filter (fun row => row.1 ∈ ids) (map_to_list (bases db)).

Definition filter_documents_for_subject (db : AclDB) (documents : list KnowledgeDocument) (s : ResourceAccessSubject)
    : list KnowledgeDocument :=
  if bool_decide (documents = []) || negb (su_active s) then []
  else
    let bases := bases_in (list_to_set (kd_base <$> documents)) db in
    let allowed : gset text := list_to_set (kb_id <$> filter_knowledge_bases_for_subject db bases s) in
    if bool_decide (allowed = ∅) then []
    else if su_break_glass s then filter (fun document => kd_base document ∈ allowed) documents
    else
      let by_document := grants_by (kd_id <$> documents) (document_grants db) in
      filter (fun document =>
        (if negb (bool_decide (kd_base document ∈ allowed)) then false
         else
           let rules := default [] (by_document !! kd_id document) in
           if bool_decide (rules = []) then true
           else if existsb denies (matched rules s) then false
           else negb (existsb allows rules) || existsb allows (matched rules s)) = true) documents.

(** ** Who is asking *)

Definition resolve_resource_access_subject (db : AclDB) (user_id alpha_router_api_key_id : option Z) (source : option text)
    (break_glass : bool) : ResourceAccessSubject :=
  let public_subject := MkSubject None ∅ None ∅ true true false in
  if bool_decide (source = Some (of_string "master")) then public_subject
  else
    let user_id := match alpha_router_api_key_id with Some key => mjoin (key_owners db !! key) | None => user_id end in
    match user_id with
    | None => public_subject
    | Some user =>
        match accounts (people db) !! user with
        | Some account =>
            if bool_decide (ac_deleted account <> None) || negb (ac_active account) then MkSubject (Some user) ∅ None ∅ false false false
            else
              let group_ids := list_to_set (snd <$> filter (fun row => row.1 = user) (group_members db)) in
              let role_slugs := list_to_set (omap (fun slug => _normalize_text (Some slug)) (get_user_role_slugs order_by_slug user (people db))) in
              MkSubject (Some user) group_ids (_normalize_text (departments db !! user)) role_slugs true false
                (break_glass && user_has_super_admin_access (elements role_slugs))
        | None => MkSubject (Some user) ∅ None ∅ false false false
        end
    end.

(** ** Setting grants *)

(** [int(target)] and [str(target)] *)
Definition target_int (t : target) : res Z :=
  match t with
  | TInt n => Ok n
  | TStr s => match int_of_str s with Some n => Ok n | None => Raise (ValueError "invalid literal for int()") end
  end.
Definition target_str (t : target) : text := match t with TInt n => of_int n | TStr s => s end.

(** The row of one grant, and what it is told apart by. *)
Definition validated_grant (db : AclDB) (g : AccessGrant) : res ((text * target * text) * AccessAssignment) :=
  let target_type := py_lower (strip (gr_type g)) in
  let effect := py_lower (strip (gr_effect g)) in
  if negb (bool_decide (target_type ∈ VALID_TARGET_TYPES)) then Raise (ValueError "Unsupported ACL target_type")
  else if negb (bool_decide (effect ∈ VALID_EFFECTS)) then Raise (ValueError "ACL effect must be 'allow' or 'deny'")
  else if bool_decide (target_type = of_string "user") then
    user ← target_int (gr_target g);
    match accounts (people db) !! user with
    | Some account =>
        if bool_decide (ac_deleted account <> None) || negb (ac_active account) then Raise (ValueError "Unknown or inactive ACL user")
        else Ok ((target_type, TInt user, effect), MkAssignment (Some user) None None None effect)
    | None => Raise (ValueError "Unknown or inactive ACL user")
    end
  else if bool_decide (target_type = of_string "group") then
    group ← target_int (gr_target g);
    if bool_decide (group ∈ groups db) then Ok ((target_type, TInt group, effect), MkAssignment None (Some group) None None effect)
    else Raise (ValueError "Unknown ACL group")
  else if bool_decide (target_type = of_string "department") then
    match _normalize_text (Some (target_str (gr_target g))) with
    | Some department => Ok ((target_type, TStr department, effect), MkAssignment None None (Some department) None effect)
    | None => Raise (ValueError "ACL department cannot be empty")
    end
  else
    match _normalize_text (Some (target_str (gr_target g))) with
    | Some role =>
        if is_valid_role_slug role then Ok ((target_type, TStr role, effect), MkAssignment None None None (Some role) effect)
        else Raise (ValueError "Unknown ACL role")
    | None => Raise (ValueError "Unknown ACL role")
    end.

Fixpoint validated_from (db : AclDB) (seen : list (text * target * text)) (grants : list AccessGrant) : res (list AccessAssignment) :=
  match grants with
  | [] => Ok []
  | g :: grants =>
      row ← validated_grant db g;
      if bool_decide (row.1 ∈ seen) then validated_from db seen grants
      else rows ← validated_from db (row.1 :: seen) grants; mret (row.2 :: rows)
  end.

Definition validated_grants (db : AclDB) (grants : list AccessGrant) : res (list AccessAssignment) := validated_from db [] grants.

(** [delete ... where(column == id)], then one row per grant. *)
Definition replace_grants (id : text) (rows : list AccessAssignment) (table : list (text * AccessAssignment))
    : list (text * AccessAssignment) :=
  filter (fun row => row.1 <> id) table ++ ((fun a => (id, a)) <$> rows).

Definition valid_access (access_type : text) : res text :=
  let access := py_lower (strip access_type) in
  if bool_decide (access ∈ VALID_ACCESS_TYPES) then Ok access else Raise (ValueError "access_type must be 'public' or 'private'").

Definition set_agent_access (agent : text) (access_type : text) (grants : list AccessGrant) : op AclDB unit := fun db =>
  match valid_access access_type with
  | Raise e => (Raise e, db)
  | Ok access =>
      match validated_grants db grants with
      | Raise e => (Raise e, db)
      | Ok rows =>
          (Ok tt, with_agents (alter (fun a => MkAgent (ag_id a) access (ag_acl_version a + 1)) agent) (replace_grants agent rows) db)
      end
  end.

Definition set_knowledge_base_access (base : text) (access_type : text) (grants : list AccessGrant) : op AclDB unit := fun db =>
  match valid_access access_type with
  | Raise e => (Raise e, db)
  | Ok access =>
      match validated_grants db grants with
      | Raise e => (Raise e, db)
      | Ok rows =>
          (Ok tt, with_bases (alter (fun b => MkKnowledgeBase (kb_id b) (kb_status b) access (kb_acl_version b + 1)) base)
                    (replace_grants base rows) db)
      end
  end.

Definition set_document_access (document : text) (grants : list AccessGrant) : op AclDB unit := fun db =>
  match validated_grants db grants with
  | Raise e => (Raise e, db)
  | Ok rows =>
      (Ok tt, with_documents (alter (fun d => MkDocument (kd_id d) (kd_base d) (kd_title d) (kd_status d) (kd_revoked d) (kd_deleted d)
                                                (kd_acl_version d + 1)) document)
                (replace_grants document rows) db)
  end.
End access.
