(* ===== verification/AccessFacts.v ===== *)
(** * What grants decide

    A grant names people by what it says of them, not by the tokens the code
    compares ([names], [assignment_matches_iff]); the decision on one resource is
    what its grants say, whatever their order ([access_follows_grants]); the bulk
    functions agree with it ([bulk_filters_agree]); replacing the grants of a
    resource makes the new ones decide ([replaced_grants_decide]). *)

From S2P Require Import Prelude Text Json JsonParse PyText Fences Rbac RbacFacts Roles Access.

(** What the code relies on of [str.casefold] with [str.split]: folding a name of
    single-spaced words leaves one, and folding again changes nothing. *)
Class PyNames `{PyStr} `{PyFold} : Prop := {
  name_stays s : let n := py_casefold (join_space (split_ws [] (strip s))) in
    py_casefold (join_space (split_ws [] (strip n))) = n
}.

(** ** The rows of one resource *)

Lemma grants_by_rows rows by_id id :
  foldl (fun by_id (row : text * AccessAssignment) => partial_alter (fun rows => Some (default [] rows ++ [row.2])) row.1 by_id) (by_id : gmap text (list AccessAssignment)) rows !! id =
  match by_id !! id, grants_on id rows with None, [] => None | found, here => Some (default [] found ++ here) end.
Proof.
  unfold grants_on. revert by_id. induction rows as [|[r a] rows IH]; intros by_id; simpl.
  - destruct (by_id !! id); simpl; by rewrite ?app_nil_r.
  - rewrite IH, filter_cons. simpl. destruct (decide (r = id)) as [->|Hne].
    + rewrite lookup_partial_alter_eq. simpl. rewrite <- app_assoc. by destruct (by_id !! id).
    + by rewrite lookup_partial_alter_ne by done.
Qed.

Lemma empty_lists ids by_id id :
  foldl (fun by_id id => <[id := []]> by_id) (by_id : gmap text (list AccessAssignment)) ids !! id =
  if decide (id ∈ ids) then Some [] else by_id !! id.
Proof.
  revert by_id. induction ids as [|i ids IH]; intros by_id; simpl; [done|].
  rewrite IH. destruct (decide (id = i)) as [->|Hne].
  - rewrite lookup_insert_eq. rewrite (decide_True (P := i ∈ i :: ids)) by set_solver. by case_decide.
  - rewrite lookup_insert_ne by done. apply decide_ext. set_solver.
Qed.

Lemma grants_by_lookup ids table id :
  id ∈ ids -> default [] (grants_by ids table !! id) = grants_on id table.
Proof.
  intros Hid. unfold grants_by. rewrite grants_by_rows, empty_lists, decide_True by done. simpl.
  unfold grants_on. rewrite list_filter_filter. f_equal. apply list_filter_iff. intros [r a]. simpl. naive_solver.
Qed.

Lemma grants_on_replace id rows table : grants_on id (replace_grants id rows table) = rows.
Proof.
  unfold grants_on, replace_grants. rewrite filter_app, list_filter_filter, filter_none, app_nil_l.
  -
    induction rows as [|a rows IH]; [done|]. rewrite fmap_cons, filter_cons_True by done. cbn. by f_equal.
  - rewrite Forall_forall. naive_solver.
Qed.

Lemma grants_on_replace_ne id id' rows table : id' <> id -> grants_on id' (replace_grants id rows table) = grants_on id' table.
Proof.
  intros Hne. unfold grants_on, replace_grants. rewrite filter_app, list_filter_filter.
  rewrite (filter_none _ ((fun a => (id, a)) <$> rows)), app_nil_r.
  - f_equal. apply list_filter_iff. intros [r a]. simpl. naive_solver.
  - rewrite Forall_forall. intros x (a & -> & _)%list_elem_of_fmap. by simpl.
Qed.

(** ** Names and tokens *)

Section access_facts.
Context `{PyStr} `{PyFold} `{PyInt} (order_by_slug : list text -> list text).

#[local] Arguments _normalize_text : simpl never.

(** Whom a grant is for. *)
Inductive names (a : AccessAssignment) (s : ResourceAccessSubject) : Prop :=
  | names_user user (Ha : aa_user a = Some user) (Hs : su_user s = Some user)
  | names_group group (Hu : aa_user a = None) (Ha : aa_group a = Some group) (Hs : group ∈ su_groups s)
  | names_department department (Hu : aa_user a = None) (Hg : aa_group a = None)
      (Ha : _normalize_text (aa_department a) = Some department) (Hs : su_department s = Some department)
  | names_role role (Hu : aa_user a = None) (Hg : aa_group a = None) (Hd : _normalize_text (aa_department a) = None)
      (Ha : _normalize_text (aa_role a) = Some role) (Hs : role ∈ su_roles s).

Lemma normalize_text_nonempty value n : _normalize_text value = Some n -> n <> [].
Proof. unfold _normalize_text. destruct value as [v|]; [|done]. destruct (py_casefold _); [done|]. by intros [= <-]. Qed.

#[local] Instance group_token_inj : Inj (=) (=) group_token.
Proof. intros m n Heq. unfold group_token in Heq. simplify_list_eq. by apply of_int_inj. Qed.
#[local] Instance user_token_inj : Inj (=) (=) user_token.
Proof. intros m n Heq. unfold user_token in Heq. simplify_list_eq. by apply of_int_inj. Qed.
#[local] Instance department_token_inj : Inj (=) (=) department_token.
Proof. intros m n Heq. unfold department_token in Heq. by simplify_list_eq. Qed.
#[local] Instance role_token_inj : Inj (=) (=) role_token.
Proof. intros m n Heq. unfold role_token in Heq. by simplify_list_eq. Qed.

(** The four kinds of token are told apart by how they start. *)
Lemma principal_tokens_spec token s :
  token ∈ principal_tokens s <->
  (exists user, token = user_token user /\ su_user s = Some user) \/
  (exists group, token = group_token group /\ group ∈ su_groups s) \/
  (exists department, token = department_token department /\ su_department s = Some department /\ department <> []) \/
  (exists role, token = role_token role /\ role ∈ su_roles s).
Proof.
  unfold principal_tokens. rewrite !elem_of_union, !elem_of_map.
  assert ((token ∈ match su_user s with Some user => {[user_token user]} | None => (∅ : gset text) end) <->
    exists user, token = user_token user /\ su_user s = Some user) as ->.
  { destruct (su_user s) as [u|]; [rewrite elem_of_singleton|rewrite elem_of_empty]; split.
    - intros ->. by exists u.
    - by intros (? & -> & [= ->]).
    - done.
    - by intros (? & _ & Hs). }
  assert ((token ∈ match su_department s with Some ((_ :: _) as department) => {[department_token department]} | _ => (∅ : gset text) end) <->
    exists department, token = department_token department /\ su_department s = Some department /\ department <> []) as ->.
  { destruct (su_department s) as [[|c d]|]; [rewrite elem_of_empty|rewrite elem_of_singleton|rewrite elem_of_empty]; split; try done.
    - by intros (? & _ & [= <-] & Hne).
    - intros ->. exists (c :: d). split; [reflexivity|]. split; [reflexivity|discriminate].
    - by intros (? & -> & [= <-] & ?).
    - by intros (? & _ & Hs & _). }
  tauto.
Qed.

Ltac token_clash := exfalso; unfold user_token, group_token, department_token, role_token in *; discriminate.

Lemma assignment_matches_iff a s : assignment_matches a s = true <-> names a s.
Proof.
  unfold assignment_matches, _assignment_token. split.
  - destruct (aa_user a) as [u|] eqn:Hu; [|destruct (aa_group a) as [g|] eqn:Hg;
      [|destruct (_normalize_text (aa_department a)) as [d|] eqn:Hd; [|destruct (_normalize_text (aa_role a)) as [r|] eqn:Hr; [|done]]]];
      intros [(x & Heq & Hx)|[(x & Heq & Hx)|[(x & Heq & Hx & _)|(x & Heq & Hx)]]]%bool_decide_eq_true%principal_tokens_spec;
      try token_clash; apply (inj _) in Heq as <-; eauto using names.
  - intros [u Hu Hs|g Hu Hg Hs|d Hu Hg Hd Hs|r Hu Hg Hd Hr Hs]; rewrite Hu, ?Hg, ?Hd, ?Hr; apply bool_decide_eq_true, principal_tokens_spec; eauto 6.
    right; right; left. exists d. eauto using normalize_text_nonempty.
Qed.

Lemma existsb_matched (p : AccessAssignment -> bool) rows s :
  existsb p (matched rows s) = true <-> exists a, a ∈ rows /\ names a s /\ p a = true.
Proof.
  rewrite existsb_exists. unfold matched. setoid_rewrite <- list_elem_of_In. setoid_rewrite list_elem_of_filter.
  setoid_rewrite assignment_matches_iff. naive_solver.
Qed.

Lemma existsb_elem {A} (p : A -> bool) l : existsb p l = true <-> exists x, x ∈ l /\ p x = true.
Proof. rewrite existsb_exists. by setoid_rewrite <- list_elem_of_In. Qed.

(** The rows that deny, and that grant, a subject. *)
Definition denied (rows : list AccessAssignment) (s : ResourceAccessSubject) : Prop :=
  exists a, a ∈ rows /\ names a s /\ effect_of a = EFFECT_DENY.
Definition granted (rows : list AccessAssignment) (s : ResourceAccessSubject) : Prop :=
  exists a, a ∈ rows /\ names a s /\ effect_of a = EFFECT_ALLOW.

Lemma denied_iff rows s : existsb denies (matched rows s) = true <-> denied rows s.
Proof. rewrite existsb_matched. unfold denied, denies. by setoid_rewrite bool_decide_eq_true. Qed.
Lemma granted_iff rows s : existsb allows (matched rows s) = true <-> granted rows s.
Proof. rewrite existsb_matched. unfold granted, allows. by setoid_rewrite bool_decide_eq_true. Qed.

#[export] Instance denied_perm : Proper ((≡ₚ) ==> (=) ==> iff) denied.
Proof. intros rows rows' Hp s ? <-. unfold denied. by setoid_rewrite Hp. Qed.
#[export] Instance granted_perm : Proper ((≡ₚ) ==> (=) ==> iff) granted.
Proof. intros rows rows' Hp s ? <-. unfold granted. by setoid_rewrite Hp. Qed.

(** ** The decision *)

Definition is_public (access_type : text) : Prop :=
  py_lower (strip match access_type with [] => ACCESS_PRIVATE | _ => access_type end) = ACCESS_PUBLIC.

Lemma evaluate_access_iff access_type rows s :
  evaluate_access access_type rows s = true <->
  su_active s = true /\ (su_break_glass s = true \/
    ~ denied rows s /\ (is_public access_type \/ su_public_only s = false /\ is_Some (su_user s) /\ granted rows s)).
Proof.
  unfold evaluate_access. rewrite <- denied_iff, <- granted_iff. fold (is_public access_type).
  destruct (su_active s); simpl; [|intuition congruence].
  destruct (su_break_glass s); simpl; [intuition|].
  destruct (existsb denies _); simpl; [intuition congruence|].
  destruct (bool_decide_reflect (is_public access_type)) as [Hp|Hp]; simpl;
    [split; [|done]; intros _; split; [done|]; right; split; [done|by left]|].
  destruct (su_public_only s); simpl; [intuition congruence|].
  destruct (su_user s) as [u|]; simpl.
  - assert (is_Some (Some u)) by by eexists. intuition congruence.
  - split; [done|]. intros (_ & [?|(_ & [?|(_ & [? Hno] & _)])]); done.
Qed.

#[export] Instance evaluate_access_perm access_type : Proper ((≡ₚ) ==> (=) ==> (=)) (evaluate_access access_type).
Proof.
  intros rows rows' Hp s ? <-. apply eq_true_iff_eq. rewrite !evaluate_access_iff. by rewrite Hp.
Qed.

Lemma inactive_evaluates access_type rows s : su_active s = false -> evaluate_access access_type rows s = false.
Proof. unfold evaluate_access. by intros ->. Qed.

(** Access to a document is its knowledge base's, narrowed by its own grants. *)
Lemma user_can_access_document_iff db document s :
  user_can_access_document db document s = true <->
  exists base, bases db !! kd_base document = Some base /\ user_can_access_knowledge_base db base s = true /\
    (su_break_glass s = true \/
     ~ denied (grants_on (kd_id document) (document_grants db)) s /\
     ((forall a, a ∈ grants_on (kd_id document) (document_grants db) -> effect_of a <> EFFECT_ALLOW) \/
      granted (grants_on (kd_id document) (document_grants db)) s)).
Proof.
  unfold user_can_access_document. destruct (bases db !! kd_base document) as [base|] eqn:Hb; [|naive_solver].
  set (rows := grants_on _ _).
  transitivity (user_can_access_knowledge_base db base s = true /\ (su_break_glass s = true \/
    ~ denied rows s /\ ((forall a, a ∈ rows -> effect_of a <> EFFECT_ALLOW) \/ granted rows s))); [|naive_solver].
  destruct (user_can_access_knowledge_base db base s) eqn:Hk; simpl; [|intuition congruence].
  destruct (su_break_glass s); [intuition|].
  case_bool_decide as Hr.
  - rewrite Hr. split; [|done]. intros _. split; [done|]. right. split; [|left; by intros a ?%elem_of_nil].
    by intros (a & ?%elem_of_nil & _).
  - rewrite <- denied_iff, <- granted_iff.
    assert (existsb allows rows = false <-> forall a, a ∈ rows -> effect_of a <> EFFECT_ALLOW) as <-.
    { rewrite <- not_true_iff_false, existsb_elem. unfold allows. setoid_rewrite bool_decide_eq_true. naive_solver. }
    destruct (existsb denies _), (existsb allows rows); simpl; intuition congruence.
Qed.

(** The grants of a resource decide who reaches it, whatever order the database
    lists them in.  An inactive person reaches nothing; a Super Admin who breaks the
    glass reaches everything; anyone else must not be denied by a grant that names
    them, and a private resource is reached only by a known person whom a grant
    allows.  A document is reached by who reaches its knowledge base, is not denied
    the document and, when any grant of it allows someone, is allowed. *)
Theorem access_follows_grants access_type rows db document s :
  (evaluate_access access_type rows s = true <->
   su_active s = true /\ (su_break_glass s = true \/
     ~ denied rows s /\ (is_public access_type \/ su_public_only s = false /\ is_Some (su_user s) /\ granted rows s))) /\
  (forall rows', rows' ≡ₚ rows -> evaluate_access access_type rows' s = evaluate_access access_type rows s) /\
  (user_can_access_document db document s = true <->
   exists base, bases db !! kd_base document = Some base /\ user_can_access_knowledge_base db base s = true /\
     (su_break_glass s = true \/
      ~ denied (grants_on (kd_id document) (document_grants db)) s /\
      ((forall a, a ∈ grants_on (kd_id document) (document_grants db) -> effect_of a <> EFFECT_ALLOW) \/
       granted (grants_on (kd_id document) (document_grants db)) s))).
Proof.
  split; [apply evaluate_access_iff|]. split; [|apply user_can_access_document_iff].
  intros rows' Hp. by rewrite Hp.
Qed.

(** ** In bulk *)

(** Each row of [knowledge_bases] is under its primary key. *)
Definition keyed (db : AclDB) : Prop := map_Forall (fun id base => kb_id base = id) (bases db).

Lemma filter_elem_ext {A} (P Q : A -> Prop) `{!forall x, Decision (P x)} `{!forall x, Decision (Q x)} (l : list A) :
  (forall x, x ∈ l -> P x <-> Q x) -> filter P l = filter Q l.
Proof.
  induction l as [|x l IH]; intros Hl; [done|]. rewrite !filter_cons, IH by (intros; apply Hl; by right).
  apply decide_ext, Hl. by left.
Qed.

Lemma filter_agents_agrees db agents s :
  filter_agents_for_subject db agents s = filter (fun a => user_can_access_agent db a s = true) agents.
Proof.
  unfold filter_agents_for_subject, user_can_access_agent. case_bool_decide as He; simpl; [by rewrite He|].
  destruct (su_active s) eqn:Ha; simpl.
  - apply filter_elem_ext. intros agent Hin. by rewrite grants_by_lookup by by apply list_elem_of_fmap_2.
  - symmetry. apply filter_none, Forall_forall. intros agent _. by rewrite inactive_evaluates.
Qed.

Lemma filter_bases_agrees db bs s :
  filter_knowledge_bases_for_subject db bs s = filter (fun b => user_can_access_knowledge_base db b s = true) bs.
Proof.
  unfold filter_knowledge_bases_for_subject, user_can_access_knowledge_base. case_bool_decide as He; simpl; [by rewrite He|].
  destruct (su_active s) eqn:Ha; simpl.
  - destruct (su_break_glass s) eqn:Hg.
    + symmetry. apply filter_whole, Forall_forall. intros b _. apply evaluate_access_iff. by rewrite Ha, Hg; auto.
    + apply filter_elem_ext. intros b Hin. by rewrite grants_by_lookup by by apply list_elem_of_fmap_2.
  - symmetry. apply filter_none, Forall_forall. intros agent _. by rewrite inactive_evaluates.
Qed.

Lemma allowed_bases db ids s base :
  keyed db ->
  base ∈ kb_id <$> filter_knowledge_bases_for_subject db (bases_in ids db) s <->
  base ∈ ids /\ exists b, bases db !! base = Some b /\ user_can_access_knowledge_base db b s = true.
Proof.
  intros Hk. rewrite filter_bases_agrees, list_elem_of_fmap. setoid_rewrite list_elem_of_filter.
  unfold bases_in. setoid_rewrite list_elem_of_fmap. setoid_rewrite list_elem_of_filter. split.
  - intros (b & -> & Hb & [i b'] & Hbb & Hi & Hin%elem_of_map_to_list). simpl in Hbb, Hi. subst b'.
    rewrite (Hk _ _ Hin). eauto.
  - intros (Hi & b & Hb & Ha). exists b. rewrite (Hk _ _ Hb). split; [done|]. split; [done|].
    exists (base, b). by rewrite elem_of_map_to_list.
Qed.

Lemma filter_documents_agrees db docs s :
  keyed db ->
  filter_documents_for_subject db docs s = filter (fun d => user_can_access_document db d s = true) docs.
Proof.
  intros Hk. unfold filter_documents_for_subject. case_bool_decide as He; simpl; [by rewrite He|].
  destruct (su_active s) eqn:Ha; simpl.
  2:{ symmetry. apply filter_none, Forall_forall. intros d _ (b & _ & Hb & _)%user_can_access_document_iff.
      unfold user_can_access_knowledge_base in Hb. by rewrite inactive_evaluates in Hb. }
  set (allowed := list_to_set (C := gset text) _).
  assert (forall d, d ∈ docs -> kd_base d ∈ allowed <->
    exists b, bases db !! kd_base d = Some b /\ user_can_access_knowledge_base db b s = true) as Hallowed.
  { intros d Hd. subst allowed. rewrite elem_of_list_to_set, allowed_bases, elem_of_list_to_set by done.
    assert (kd_base d ∈ kd_base <$> docs) by by apply list_elem_of_fmap_2. naive_solver. }
  clearbody allowed. case_bool_decide as Hnone.
  { symmetry. apply filter_none, Forall_forall. intros d Hd (b & Hb & Hr & _)%user_can_access_document_iff.
    assert (kd_base d ∈ allowed) as Hin by (apply Hallowed; eauto). by rewrite Hnone, elem_of_empty in Hin. }
  destruct (su_break_glass s) eqn:Hg; apply filter_elem_ext; intros d Hd; specialize (Hallowed d Hd).
  - rewrite Hallowed, user_can_access_document_iff. split; [intros (b & ? & ?)|intros (b & ? & ? & _)]; eauto 6.
  - rewrite grants_by_lookup by by apply list_elem_of_fmap_2. unfold user_can_access_document.
    case_bool_decide as Hin; simpl.
    + apply Hallowed in Hin as (b & -> & ->). simpl. rewrite Hg. case_bool_decide; [done|].
      set (rows := grants_on _ _). by destruct (existsb denies _), (existsb allows rows); simpl.
    + rewrite Hallowed in Hin. destruct (bases db !! kd_base d) as [b|]; [|done].
      destruct (user_can_access_knowledge_base db b s) eqn:Hr; [naive_solver|done].
Qed.

(** C32: the functions that filter a list, each with a query of its own for all of
    the list, keep exactly the resources that the functions for one resource let
    the subject reach, in the order of the list. *)
Theorem bulk_filters_agree db agents bs docs s (Hk : keyed db) :
  filter_agents_for_subject db agents s = filter (fun a => user_can_access_agent db a s = true) agents /\
  filter_knowledge_bases_for_subject db bs s = filter (fun b => user_can_access_knowledge_base db b s = true) bs /\
  filter_documents_for_subject db docs s = filter (fun d => user_can_access_document db d s = true) docs.
Proof. auto using filter_agents_agrees, filter_bases_agrees, filter_documents_agrees. Qed.

(** ** Who is asking *)

Lemma resolve_active db user_id key source bg s :
  resolve_resource_access_subject order_by_slug db user_id key source bg = s -> su_active s = true ->
  su_public_only s = true /\ su_user s = None /\ su_break_glass s = false /\ principal_tokens s = ∅ \/
  exists user account, su_user s = Some user /\ accounts (people db) !! user = Some account /\ signs_in account = true /\
    match key with Some key => key_owners db !! key = Some (Some user) | None => user_id = Some user end /\
    (su_break_glass s = true -> bg = true).
Proof.
  intros <-. unfold resolve_resource_access_subject. case_bool_decide; simpl; [by left|].
  set (asked := match key with Some key => mjoin (key_owners db !! key) | None => user_id end).
  assert (forall user, asked = Some user -> match key with Some key => key_owners db !! key = Some (Some user) | None => user_id = Some user end) as Hasked.
  { subst asked. intros user. destruct key as [k|]; [|done]. by destruct (key_owners db !! k) as [[u|]|]; simpl; intros [= ->]. }
  clearbody asked. destruct asked as [user|]; [|by left].
  destruct (accounts (people db) !! user) as [account|] eqn:Hacc; [|done].
  destruct (_ || _) eqn:Hout; [done|]. apply orb_false_iff in Hout as [Hdel Hact].
  intros _. right. exists user, account. split_and!; simpl; [done|done| |by apply Hasked|].
  - unfold signs_in. apply negb_false_iff in Hact. rewrite Hact. by apply bool_decide_eq_false, dec_stable in Hdel as ->.
  - by intros [? _]%andb_true_iff.
Qed.

(** C33: whatever a caller reaches, the caller is a person who may sign in at that
    moment - or the resource is public and the caller has no person behind it, as
    the master key and API keys without an owner.  A key reaches what its owner
    does.  So an account that is disabled, deleted or purged reaches nothing from
    the next request on, with a session or with an API key, even where a grant
    names it. *)
Theorem only_people_who_sign_in_reach db user_id key source bg
    (s := resolve_resource_access_subject order_by_slug db user_id key source bg) :
  (forall access_type rows, evaluate_access access_type rows s = true ->
    (su_user s = None /\ is_public access_type) \/
    exists user account, su_user s = Some user /\ accounts (people db) !! user = Some account /\ signs_in account = true /\
      match key with Some key => key_owners db !! key = Some (Some user) | None => user_id = Some user end) /\
  (forall person now agents bs docs, key = None -> user_id = Some person -> source = None ->
    let after := with_people (soft_delete_user person now (people db)).2 db in
    let gone := resolve_resource_access_subject order_by_slug after user_id key source bg in
    filter_agents_for_subject after agents gone = [] /\ filter_knowledge_bases_for_subject after bs gone = [] /\
    filter_documents_for_subject after docs gone = []).
Proof.
  split.
  - intros access_type rows Hev. apply evaluate_access_iff in Hev as [Ha Hev].
    destruct (resolve_active db user_id key source bg s eq_refl Ha) as [(Hp & Hu & Hb & _)|(user & account & ? & ? & ? & ? & _)].
    + left. split; [done|]. destruct Hev as [?|(_ & [?|(? & _)])]; [congruence|done|congruence].
    + right. eauto 8.
  - intros person now agents bs docs -> -> -> after gone.
    assert (su_active gone = false) as Hout.
    { subst gone after. unfold resolve_resource_access_subject. simpl. rewrite lookup_alter_eq.
      by destruct (accounts (people db) !! person). }
    unfold filter_agents_for_subject, filter_knowledge_bases_for_subject, filter_documents_for_subject.
    rewrite Hout. simpl. by rewrite !orb_true_r.
Qed.

(** ** Replacing grants *)

Context `{!PySlugs} `{!PyNames}.

Definition grant_type (g : AccessGrant) : text := py_lower (strip (gr_type g)).
Definition grant_effect (g : AccessGrant) : text := py_lower (strip (gr_effect g)).

(** Whom an administrator's grant is for. *)
Inductive grant_names (g : AccessGrant) (s : ResourceAccessSubject) : Prop :=
  | grant_user user (Ht : grant_type g = of_string "user") (Hg : target_int (gr_target g) = Ok user) (Hs : su_user s = Some user)
  | grant_group group (Ht : grant_type g = of_string "group") (Hg : target_int (gr_target g) = Ok group) (Hs : group ∈ su_groups s)
  | grant_department department (Ht : grant_type g = of_string "department")
      (Hg : _normalize_text (Some (target_str (gr_target g))) = Some department) (Hs : su_department s = Some department)
  | grant_role role (Ht : grant_type g = of_string "role")
      (Hg : _normalize_text (Some (target_str (gr_target g))) = Some role) (Hs : role ∈ su_roles s).

Lemma normalize_text_idem value n : _normalize_text value = Some n -> _normalize_text (Some n) = Some n.
Proof.
  unfold _normalize_text. destruct value as [v|]; [|done].
  pose proof (name_stays v) as Hn. cbv zeta in Hn. destruct (py_casefold (join_space (split_ws [] (strip v)))) as [|c r]; [done|]. intros [= <-]. by rewrite Hn.
Qed.

(** What a row is told apart by determines it. *)
Definition row_of (key : text * target * text) : AccessAssignment :=
  let '(target_type, target, effect) := key in
  match target with
  | TInt n => if bool_decide (target_type = of_string "user") then MkAssignment (Some n) None None None effect
              else MkAssignment None (Some n) None None effect
  | TStr t => if bool_decide (target_type = of_string "department") then MkAssignment None None (Some t) None effect
              else MkAssignment None None None (Some t) effect
  end.

Lemma effect_valid a effect : aa_effect a = effect -> effect ∈ VALID_EFFECTS -> effect_of a = effect.
Proof.
  unfold effect_of. intros ->. unfold VALID_EFFECTS. rewrite !elem_of_cons, elem_of_nil. intros [->|[->|[]]]; by apply slug_lower.
Qed.

Lemma names_user_row user effect s : names (MkAssignment (Some user) None None None effect) s <-> su_user s = Some user.
Proof. split; [by destruct 1; simplify_eq/=|intros Hs; by apply (names_user _ _ user)]. Qed.
Lemma names_group_row group effect s : names (MkAssignment None (Some group) None None effect) s <-> group ∈ su_groups s.
Proof. split; [by destruct 1; simplify_eq/=|intros Hs; by apply (names_group _ _ group)]. Qed.
Lemma names_department_row department effect s :
  _normalize_text (Some department) = Some department ->
  names (MkAssignment None None (Some department) None effect) s <-> su_department s = Some department.
Proof. intros Hn. split; [destruct 1; simplify_eq/=; congruence|intros Hs; by apply (names_department _ _ department)]. Qed.
Lemma names_role_row role effect s :
  _normalize_text (Some role) = Some role -> names (MkAssignment None None None (Some role) effect) s <-> role ∈ su_roles s.
Proof. intros Hn. split; [destruct 1; simplify_eq/=; congruence|intros Hs; by apply (names_role _ _ role)]. Qed.

Ltac kind_clash :=
  match goal with H1 : grant_type ?g = _, H2 : grant_type ?g = _ |- _ => exfalso; rewrite H1 in H2; discriminate end.

Lemma validated_grant_row db g key a s :
  validated_grant db g = Ok (key, a) ->
  a = row_of key /\ effect_of a = grant_effect g /\ grant_effect g ∈ VALID_EFFECTS /\ (names a s <-> grant_names g s).
Proof.
  unfold validated_grant. fold (grant_type g) (grant_effect g).
  case_bool_decide as Ht; simpl; [|done]. case_bool_decide as He; simpl; [|done].
  case_bool_decide as Hu; [|case_bool_decide as Hg; [|case_bool_decide as Hd]].
  - destruct (target_int (gr_target g)) as [user|] eqn:Hint; simpl; [|done]. unfold mbind, res_bind.
    destruct (accounts (people db) !! user) as [acc|]; [|done]. destruct (_ || _); [done|]. intros [= <- <-].
    split; [simpl; by rewrite bool_decide_eq_true_2|]. split; [by apply effect_valid|]. split; [done|].
    rewrite names_user_row. split; [eauto using grant_names|]. destruct 1; (kind_clash || congruence).
  - destruct (target_int (gr_target g)) as [group|] eqn:Hint; simpl; [|done]. unfold mbind, res_bind.
    case_bool_decide; [|done]. intros [= <- <-].
    split; [simpl; by rewrite bool_decide_eq_false_2|]. split; [by apply effect_valid|]. split; [done|].
    rewrite names_group_row. split; [eauto using grant_names|]. destruct 1; (kind_clash || congruence).
  - destruct (_normalize_text (Some (target_str (gr_target g)))) as [department|] eqn:Hn; [|done]. intros [= <- <-].
    split; [simpl; by rewrite bool_decide_eq_true_2|]. split; [by apply effect_valid|]. split; [done|].
    rewrite names_department_row by by eapply normalize_text_idem. split; [eauto using grant_names|].
    destruct 1; (kind_clash || congruence).
  - destruct (_normalize_text (Some (target_str (gr_target g)))) as [role|] eqn:Hn; [|done]. destruct (is_valid_role_slug role); [|done]. intros [= <- <-].
    split; [simpl; by rewrite bool_decide_eq_false_2|]. split; [by apply effect_valid|]. split; [done|].
    rewrite names_role_row by by eapply normalize_text_idem.
    assert (grant_type g = of_string "role") as Hrole.
    { unfold VALID_TARGET_TYPES in Ht. fold (grant_type g) in Ht. rewrite !elem_of_cons, elem_of_nil in Ht. tauto. }
    split; [eauto using grant_names|]. destruct 1; (kind_clash || congruence).
Qed.

Lemma validated_from_rows db grants : forall seen rows, validated_from db seen grants = Ok rows ->
  (forall g, g ∈ grants -> exists key, validated_grant db g = Ok (key, row_of key) /\ (key ∈ seen \/ row_of key ∈ rows)) /\
  (forall a, a ∈ rows -> exists g key, g ∈ grants /\ validated_grant db g = Ok (key, a)).
Proof.
  induction grants as [|g grants IH]; intros seen rows; simpl; [intros [= <-]; set_solver|].
  unfold mbind, res_bind. destruct (validated_grant db g) as [[key a]|] eqn:Hg; [|done]. simpl.
  assert (a = row_of key) as -> by by apply (validated_grant_row db g key a (MkSubject None ∅ None ∅ false false false)).
  case_bool_decide as Hk.
  - intros [Hin Hout]%IH. split.
    + intros g' [->|Hg']%elem_of_cons; [exists key; auto|auto].
    + intros a Ha. destruct (Hout a Ha) as (g' & k & ? & ?). exists g', k. split; [by right|done].
  - destruct (validated_from db (key :: seen) grants) as [rest|] eqn:Hrest; [|done]. intros [= <-].
    apply IH in Hrest as [Hin Hout]. split.
    + intros g' [->|Hg']%elem_of_cons; [exists key; split; [done|right; by left]|].
      destruct (Hin g' Hg') as (k & Hk' & [[Heq|Hseen]%elem_of_cons|Hr]); exists k; (split; [done|]).
      * right. rewrite Heq. by left.
      * by left.
      * right. by right.
    + intros a [->|Ha]%elem_of_cons; [exists g, key; split; [by left|done]|].
      destruct (Hout a Ha) as (g' & k & ? & ?). exists g', k. split; [by right|done].
Qed.

(** Some grant given names the subject with this effect. *)
Definition given (effect : text) (grants : list AccessGrant) (s : ResourceAccessSubject) : Prop :=
  exists g, g ∈ grants /\ grant_names g s /\ grant_effect g = effect.

Lemma validated_grants_given db grants rows s effect :
  validated_grants db grants = Ok rows -> given effect grants s <-> exists a, a ∈ rows /\ names a s /\ effect_of a = effect.
Proof.
  intros [Hin Hout]%validated_from_rows. split.
  - intros (g & Hg & Hn & He). destruct (Hin g Hg) as (key & Hv & [[]%elem_of_nil|Hr]).
    destruct (validated_grant_row db g key (row_of key) s Hv) as (_ & Hf & _ & Hiff). exists (row_of key).
    split; [done|]. split; [by apply Hiff|by rewrite Hf].
  - intros (a & Ha & Hn & He). destruct (Hout a Ha) as (g & key & Hg & Hv).
    destruct (validated_grant_row db g key a s Hv) as (_ & Hf & _ & Hiff). exists g. split; [done|]. split; [by apply Hiff|by rewrite <- Hf].
Qed.

Lemma valid_access_public access_type access :
  valid_access access_type = Ok access ->
  (access = ACCESS_PUBLIC \/ access = ACCESS_PRIVATE) /\ (is_public access <-> py_lower (strip access_type) = ACCESS_PUBLIC).
Proof.
  unfold valid_access. case_bool_decide as Hv; [|done]. intros [= <-]. unfold VALID_ACCESS_TYPES in Hv.
  rewrite !elem_of_cons, elem_of_nil in Hv. unfold is_public. destruct Hv as [->|[->|[]]]; (split; [auto|]).
  - split; [done|]. intros _. by apply lower_strip_slug.
  - split; [|done]. intros Hp. by rewrite <- (lower_strip_slug ACCESS_PRIVATE).
Qed.

(** The decision an administrator asked for. *)
Definition as_given (access_type : text) (grants : list AccessGrant) (s : ResourceAccessSubject) : Prop :=
  ~ given EFFECT_DENY grants s /\
  (py_lower (strip access_type) = ACCESS_PUBLIC \/ su_public_only s = false /\ is_Some (su_user s) /\ given EFFECT_ALLOW grants s).

Lemma evaluate_as_given db access_type access grants rows s :
  valid_access access_type = Ok access -> validated_grants db grants = Ok rows -> su_active s = true -> su_break_glass s = false ->
  evaluate_access access rows s = true <-> as_given access_type grants s.
Proof.
  intros [_ Hp]%valid_access_public Hr Ha Hb. rewrite evaluate_access_iff, Ha, Hb, Hp. unfold as_given, denied, granted.
  rewrite !(validated_grants_given db grants rows s _ Hr). intuition congruence.
Qed.

(** Every other resource of a table is as it was, with the grants it had. *)
Definition others_kept {R} (id : text) (table table' : gmap text R) (grants grants' : list (text * AccessAssignment)) : Prop :=
  forall other, other <> id -> table' !! other = table !! other /\ grants_on other grants' = grants_on other grants.

Lemma replace_others_kept {R} (id : text) (f : R -> R) (rows : list AccessAssignment) (table : gmap text R) (grants : list (text * AccessAssignment)) :
  others_kept id table (alter f id table) grants (replace_grants id rows grants).
Proof. intros other Hne. by rewrite lookup_alter_ne, grants_on_replace_ne. Qed.

(** C31: after an administrator replaces the grants of a resource, the grants given
    decide who reaches it - whoever names a person twice, with other spellings of
    a department or role, or in another order.  A document's grants narrow its
    knowledge base's.  Every other agent, base and document stays as it was, with
    its own grants, and nothing else is written.  A refused call (an unknown
    person, group or role, an unknown effect) changes nothing. *)
Theorem replaced_grants_decide db id access_type grants s (Ha : su_active s = true) (Hb : su_break_glass s = false) :
  (forall db' agent, set_agent_access id access_type grants db = (Ok tt, db') -> agents db !! id = Some agent -> ag_id agent = id ->
    exists agent', agents db' !! id = Some agent' /\ ag_acl_version agent' = ag_acl_version agent + 1 /\
      (user_can_access_agent db' agent' s = true <-> as_given access_type grants s) /\
      others_kept id (agents db) (agents db') (agent_grants db) (agent_grants db') /\
      db' = with_agents (fun _ => agents db') (fun _ => agent_grants db') db) /\
  (forall db' base, set_knowledge_base_access id access_type grants db = (Ok tt, db') -> bases db !! id = Some base -> kb_id base = id ->
    exists base', bases db' !! id = Some base' /\ kb_acl_version base' = kb_acl_version base + 1 /\
      (user_can_access_knowledge_base db' base' s = true <-> as_given access_type grants s) /\
      others_kept id (bases db) (bases db') (base_grants db) (base_grants db') /\
      db' = with_bases (fun _ => bases db') (fun _ => base_grants db') db) /\
  (forall db' document, set_document_access id grants db = (Ok tt, db') -> kd_id document = id ->
    (user_can_access_document db' document s = true <->
      (exists base, bases db !! kd_base document = Some base /\ user_can_access_knowledge_base db base s = true) /\
      ~ given EFFECT_DENY grants s /\
      ((forall g, g ∈ grants -> grant_effect g <> EFFECT_ALLOW) \/ given EFFECT_ALLOW grants s)) /\
    others_kept id (documents db) (documents db') (document_grants db) (document_grants db') /\
    db' = with_documents (fun _ => documents db') (fun _ => document_grants db') db) /\
  (forall e db', set_agent_access id access_type grants db = (Raise e, db') \/ set_knowledge_base_access id access_type grants db = (Raise e, db') \/
    set_document_access id grants db = (Raise e, db') -> db' = db).
Proof.
  unfold set_agent_access, set_knowledge_base_access, set_document_access. split_and!.
  - intros db' agent Hset Hag Hid. destruct (valid_access access_type) as [access|] eqn:Hv; [|done].
    destruct (validated_grants db grants) as [rows|] eqn:Hr; [|done]. injection Hset as <-. simpl. rewrite lookup_alter_eq, Hag. simpl.
    eexists. split; [done|]. split; [done|]. unfold user_can_access_agent. simpl. rewrite Hid, grants_on_replace. split.
    + by eapply evaluate_as_given.
    + split; [apply replace_others_kept|done].
  - intros db' base Hset Hkb Hid. destruct (valid_access access_type) as [access|] eqn:Hv; [|done].
    destruct (validated_grants db grants) as [rows|] eqn:Hr; [|done]. injection Hset as <-. simpl. rewrite lookup_alter_eq, Hkb. simpl.
    eexists. split; [done|]. split; [done|]. unfold user_can_access_knowledge_base. simpl. rewrite Hid, grants_on_replace.
    split; [by eapply evaluate_as_given|]. split; [apply replace_others_kept|done].
  - intros db' document Hset Hid. destruct (validated_grants db grants) as [rows|] eqn:Hr; [|done]. injection Hset as <-.
    split; [|split; [apply replace_others_kept|done]].
    rewrite user_can_access_document_iff. simpl. rewrite Hid, grants_on_replace, Hb.
    pose proof (validated_grants_given db grants rows s EFFECT_DENY Hr) as Hdeny. fold (denied rows s) in Hdeny.
    pose proof (validated_grants_given db grants rows s EFFECT_ALLOW Hr) as Hallow. fold (granted rows s) in Hallow. rewrite Hdeny, Hallow.
    assert ((forall a, a ∈ rows -> effect_of a <> EFFECT_ALLOW) <-> (forall g, g ∈ grants -> grant_effect g <> EFFECT_ALLOW)) as Hno.
    { apply validated_from_rows in Hr as [Hin Hout]. split.
      - intros Hrows g Hg. destruct (Hin g Hg) as (key & Hk & [[]%elem_of_nil|Hrow]).
        destruct (validated_grant_row db g key _ s Hk) as (_ & <- & _). by apply Hrows.
      - intros Hgs a Hrow. destruct (Hout a Hrow) as (g & key & Hg & Hk). destruct (validated_grant_row db g key a s Hk) as (_ & -> & _).
        by apply Hgs. }
    rewrite <- Hno. split; [intros (b & ? & ? & [|(? & ?)]); [done|eauto 6]|intros ((b & ? & ?) & ? & ?); exists b; eauto].
  - intros e db' [Hs|[Hs|Hs]]; case_all.
Qed.
End access_facts.

(** ** Witnesses *)

#[local] Existing Instance ascii_str.
#[local] Existing Instance ascii_fold.
#[local] Existing Instance ascii_slugs.

(** A word: not empty, and without spaces. *)
Definition word (w : text) : Prop := w <> [] /\ Forall (fun c => py_isspace c = false) w.

Lemma split_words s : forall open, Forall (fun c => py_isspace c = false) open -> Forall word (split_ws open s).
Proof.
  assert (Hrev : forall (w : text), Forall (fun c => py_isspace c = false) w -> w <> [] -> word (rev w)).
  { intros w Hw Hne. split; [intros Hr; apply Hne; by rewrite <- (rev_involutive w), Hr|]. rewrite Forall_forall in *.
    intros c Hc. apply Hw. by rewrite list_elem_of_In, in_rev, <- list_elem_of_In. }
  induction s as [|c s IH]; intros open Ho; cbn [split_ws].
  - destruct open as [|d open]; [constructor|]. constructor; [by apply Hrev|constructor].
  - destruct (py_isspace c) eqn:Hc; [|apply IH; by constructor].
    destruct open as [|d open]; [by apply IH|]. constructor; [by apply Hrev|]. apply IH. constructor.
Qed.

Lemma split_run w s open : Forall (fun c => py_isspace c = false) w -> split_ws open (w ++ s) = split_ws (rev w ++ open) s.
Proof.
  intros Hw. revert open. induction Hw as [|c w Hc Hw IH]; intros open; [done|]. cbn [app split_ws]. rewrite Hc, IH.
  cbn [rev]. by rewrite <- app_assoc.
Qed.

Lemma split_join ws : Forall word ws -> split_ws [] (join_space ws) = ws.
Proof.
  induction 1 as [|w ws [Hne Hw] Hws IH]; [done|]. cbn [join_space].
  assert (forall s : text, rev w ++ [] = [] -> False) as Hrev.
  { intros _. rewrite app_nil_r. intros Hr. apply Hne. by rewrite <- (rev_involutive w), Hr. }
  assert (rev (rev w ++ []) = w) as Hback by by rewrite app_nil_r, rev_involutive.
  destruct ws as [|w' ws].
  - rewrite <- (app_nil_r w) at 1. rewrite split_run by done. cbn [split_ws]. destruct (rev w ++ []) eqn:He; [by destruct (Hrev [])|].
    by rewrite Hback.
  - rewrite split_run by done. cbn [split_ws py_isspace ascii_str]. cbn -[join_space split_ws rev].
    destruct (rev w ++ []) eqn:He; [by destruct (Hrev [])|]. by rewrite Hback, IH.
Qed.

Lemma join_ends ws : Forall word ws ->
  match join_space ws with [] => True | c :: _ => py_isspace c = false end /\
  match rev (join_space ws) with [] => True | c :: _ => py_isspace c = false end.
Proof.
  induction 1 as [|w ws [Hne Hw] Hws [IH1 IH2]]; [done|]. cbn [join_space].
  destruct w as [|c w]; [done|]. destruct ws as [|w' ws].
  - split; [by inversion_clear Hw|]. assert (Forall (fun c => py_isspace c = false) (rev (c :: w))) as Hr.
    { rewrite Forall_forall in *. intros d Hd. apply Hw. by rewrite list_elem_of_In, in_rev, <- list_elem_of_In. }
    destruct (rev (c :: w)); [done|]. by inversion_clear Hr.
  - split; [by inversion_clear Hw|]. rewrite rev_app_distr. cbn [rev]. rewrite <- app_assoc.
    destruct (rev (join_space (w' :: ws))) eqn:He; [|done]. exfalso.
    assert (join_space (w' :: ws) = []) as Hj by by rewrite <- (rev_involutive (join_space _)), He.
    inversion Hws as [|? ? [Hn _] _]; subst. destruct w'; [done|]. by destruct ws.
Qed.

Lemma strip_join ws : Forall word ws -> strip (join_space ws) = join_space ws.
Proof.
  intros [H1 H2]%join_ends. unfold strip.
  assert (forall s, match s with [] => True | c :: _ => py_isspace c = false end -> lstrip s = s) as Hl.
  { intros [|c s]; [done|]. intros Hc. cbn [lstrip]. by rewrite Hc. }
  by rewrite (Hl _ H1), (Hl _ H2), rev_involutive.
Qed.

Lemma fold_join ws : py_casefold (join_space ws) = join_space (py_casefold <$> ws).
Proof.
  induction ws as [|w ws IH]; [done|]. rewrite fmap_cons. cbn [join_space]. destruct ws as [|w' ws]; [done|].
  rewrite fmap_cons in *. cbn [py_casefold ascii_fold] in *. by rewrite fmap_app, fmap_cons, IH.
Qed.

Lemma fold_word w : word w -> word (py_casefold w).
Proof.
  intros [Hne Hw]. split; [by destruct w|]. rewrite Forall_forall in *. intros c (d & -> & Hd)%list_elem_of_fmap.
  specialize (Hw d Hd). cbn [py_isspace ascii_str] in *.
  destruct ((65 <=? d) && (d <=? 90)) eqn:He; [|done]. apply andb_true_iff in He as [?%Z.leb_le ?%Z.leb_le].
  apply orb_false_iff. split; apply andb_false_iff; right; apply Z.leb_gt; lia.
Qed.

Lemma fold_idem w : py_casefold (py_casefold w) = py_casefold w.
Proof.
  cbn [py_casefold ascii_fold]. rewrite <- list_fmap_compose. apply list_fmap_ext. intros _ c _. cbn.
  destruct ((65 <=? c) && (c <=? 90)) eqn:He; [|by rewrite He]. apply andb_true_iff in He as [?%Z.leb_le ?%Z.leb_le].
  destruct ((65 <=? c + 32) && (c + 32 <=? 90)) eqn:He; [|done]. apply andb_true_iff in He as [?%Z.leb_le ?%Z.leb_le]. lia.
Qed.

#[export] Instance ascii_names : PyNames.
Proof.
  constructor. intros s. cbv zeta. pose proof (split_words (strip s) [] ltac:(constructor)) as Hws. revert Hws.
  generalize (split_ws [] (strip s)). intros ws Hws. rewrite (fold_join ws).
  assert (Forall word (py_casefold <$> ws)) as Hf.
  { rewrite Forall_fmap. eapply Forall_impl; [exact Hws|]. exact fold_word. }
  rewrite strip_join, split_join, fold_join by done. f_equal. rewrite <- list_fmap_compose. apply list_fmap_ext.
  intros _ w _. apply fold_idem.
Qed.

#[local] Instance grant_ints : PyInt := {| int_of_str s := nat_token s; int_of_float _ := None |}.

(** Ada and Bob, one agent, one knowledge base with one document; the base is
    public and Bob's department may not read the document. *)
Definition employee (name : string) : Account := MkAccount (of_string name) true None None 0.
Definition office : AclDB := MkAclDB
  (MkDirectory (<[1 := employee "ada"]> (<[2 := employee "bob"]> ∅)) ∅) (<[2 := of_string "Legal  Team"]> ∅) {[7]} [(1, 7)] ∅
  (<[of_string "a1" := MkAgent (of_string "a1") ACCESS_PRIVATE 3]> ∅)
  (<[of_string "k1" := MkKnowledgeBase (of_string "k1") (of_string "active") ACCESS_PUBLIC 1]> ∅)
  (<[of_string "d1" := MkDocument (of_string "d1") (of_string "k1") (of_string "Plan") (of_string "active") None None 1]> ∅)
  [] [] [(of_string "d1", MkAssignment None None (Some (of_string "legal team")) None EFFECT_DENY)].
Definition plan : KnowledgeDocument := MkDocument (of_string "d1") (of_string "k1") (of_string "Plan") (of_string "active") None None 1.
Definition caller (user : Z) : ResourceAccessSubject := resolve_resource_access_subject (fun l => l) office (Some user) None None false.

Lemma office_keyed : keyed office.
Proof. intros id base. simpl. intros [[<- <-]|[_ Hn]]%lookup_insert_Some; [done|by rewrite lookup_empty in Hn]. Qed.

(** Ada reads the plan and Bob does not. *)
Example readers_of_the_plan : map (fun u => user_can_access_document office plan (caller u)) [1; 2] = [true; false].
Proof. vm_compute. reflexivity. Qed.

Lemma bulk_filters_agree_witness :
  filter_documents_for_subject office [plan] (caller 1) = filter (fun d => user_can_access_document office d (caller 1) = true) [plan] /\
  filter_documents_for_subject office [plan; plan] (caller 1) = [plan; plan].
Proof.
  split; [exact (proj2 (proj2 (bulk_filters_agree office [] [] [plan] (caller 1) office_keyed)))|vm_compute; reflexivity].
Defined.

Lemma only_people_who_sign_in_reach_witness :
  filter_documents_for_subject (with_people (soft_delete_user 1 5 (people office)).2 office) [plan]
    (resolve_resource_access_subject (fun l => l) (with_people (soft_delete_user 1 5 (people office)).2 office) (Some 1) None None false) = [].
Proof.
  exact (proj2 (proj2 (proj2 (only_people_who_sign_in_reach (fun l => l) office (Some 1) None None false) 1 5 [] [] [plan] eq_refl eq_refl eq_refl))).
Defined.

Lemma access_follows_grants_witness :
  evaluate_access ACCESS_PRIVATE [MkAssignment (Some 1) None None None EFFECT_ALLOW; MkAssignment None (Some 9) None None EFFECT_DENY] (caller 1) = true.
Proof.
  rewrite (proj1 (proj2 (access_follows_grants ACCESS_PRIVATE [MkAssignment None (Some 9) None None EFFECT_DENY; MkAssignment (Some 1) None None None EFFECT_ALLOW]
    office plan (caller 1))) _ (Permutation_swap _ _ [])).
  vm_compute. reflexivity.
Defined.

(** Everyone in the legal team but Bob: the department's name is spelt otherwise. *)
Definition new_grants : list AccessGrant :=
  [MkGrant (of_string " Department") (TStr (of_string "LEGAL team ")) (of_string "Allow");
   MkGrant (of_string "user") (TStr (of_string "2")) (of_string "deny"); MkGrant (of_string "user") (TInt 2) (of_string "deny")].

Lemma replaced_grants_decide_witness :
  exists agent', agents (set_agent_access (of_string "a1") ACCESS_PRIVATE new_grants office).2 !! of_string "a1" = Some agent' /\
    ag_acl_version agent' = 4 /\
    user_can_access_agent (set_agent_access (of_string "a1") ACCESS_PRIVATE new_grants office).2 agent' (caller 2) = false.
Proof.
  assert (Hs : su_active (caller 2) = true) by (vm_compute; reflexivity).
  assert (Hb : su_break_glass (caller 2) = false) by (vm_compute; reflexivity).
  set (after := (set_agent_access (of_string "a1") ACCESS_PRIVATE new_grants office).2).
  assert (He : set_agent_access (of_string "a1") ACCESS_PRIVATE new_grants office = (Ok tt, after)) by (unfold after; vm_compute; reflexivity).
  destruct (proj1 (replaced_grants_decide office (of_string "a1") ACCESS_PRIVATE new_grants (caller 2) Hs Hb) after
    (MkAgent (of_string "a1") ACCESS_PRIVATE 3) He eq_refl eq_refl) as (agent' & Ha & Hv & Hiff & _).
  exists agent'. split; [exact Ha|]. split; [exact Hv|].
  destruct (user_can_access_agent after agent' (caller 2)); [|reflexivity]. exfalso.
  destruct (proj1 Hiff eq_refl) as [Hno _]. apply Hno.
  exists (MkGrant (of_string "user") (TInt 2) (of_string "deny")). split; [right; right; left|]. split; [|vm_compute; reflexivity].
  apply (grant_user _ _ 2); [vm_compute; reflexivity|reflexivity|vm_compute; reflexivity].
Defined.
