(* ===== verification/Retrieval.v ===== *)
(** * Retrieval of organization knowledge

    knowledge_retrieval_service.py, knowledge_rerank_service.py, the lexical
    tokens of knowledge_sparse_service.py and the payload that
    knowledge_index_service.py gives a point.  The vector store (Qdrant), the
    embeddings behind its queries, the decryption of stored text and the
    reranker a caller chooses are parameters; scores are exact rationals.
    Filters and payloads are data, so that what the store is asked can be
    compared with what the database says. *)

From S2P Require Import Prelude Money Text Json PyTime PyText Fences Regex Extractor Access.
From Stdlib Require Import QArith.

#[local] Open Scope Z_scope.

(** ** Filters of the vector store ([qdrant_client.models]) *)

Inductive Condition :=
  | MatchValue (key : string) (value : text)
  | MatchAny (key : string) (values : list text)
  | IsEmpty (key : string)
  | DatetimeLte (key : string) (bound : Z)
  | DatetimeGte (key : string) (bound : Z)
  | Filter (must should must_not : list Condition).

Definition payload : Type := list (text * json).

(** ** Data *)

Record KnowledgeDocumentVersion := MkVersion {
  kv_id : text; kv_document : text; kv_status : text; kv_from : option Z; kv_to : option Z; kv_revoked : option Z;
  kv_file : text; kv_mime : text; kv_authority : text; kv_classification : text; kv_language : option text
}.
Record KnowledgeChunk := MkChunk {
  kc_id : text; kc_version : text; kc_index : Z; kc_content : text; kc_hash : text; kc_parent : option text;
  kc_page : option Z; kc_section : option text; kc_language : option text
}.
Record KnowledgeRelease := MkRelease { kr_id : text; kr_base : text; kr_status : text; kr_scope : option text }.
Record KnowledgeIndexVersion := MkIndexVersion { ki_id : text; ki_release : text; ki_number : Z; ki_status : text }.
Record AgentKnowledgeBinding := MkBinding {
  kn_version : text; kn_base : text; kn_status : text; kn_mode : text; kn_pinned : option text
}.
Record AgentVersion := MkAgentVersion { av_id : text; av_status : text; av_published : option Z; av_policy : option payload }.

Record Library := MkLibrary {
  acl : AclDB; versions : gmap text KnowledgeDocumentVersion; chunks : gmap text KnowledgeChunk;
  releases : gmap text KnowledgeRelease; index_versions : gmap text KnowledgeIndexVersion;
  release_documents : list (text * text); bindings : list AgentKnowledgeBinding; agent_versions : gmap text AgentVersion
}.

Record KnowledgeSearchHit := MkHit { hit_point : text; hit_score : Q; hit_payload : payload }.
Inductive channel := dense | sparse.

Record FusedCandidate := MkFused {
  fc_chunk : text; fc_release : text; fc_index : text; fc_payload : payload; fc_rrf : Q;
  fc_dense_score : option Q; fc_sparse_score : option Q; fc_dense_rank : option nat; fc_sparse_rank : option nat
}.
Record _RetrievalSource := MkSource { rs_base : KnowledgeBase; rs_release : KnowledgeRelease; rs_index : KnowledgeIndexVersion }.
Record _AuthorizedCandidate := MkAuthorized {
  au_fused : FusedCandidate; au_chunk : KnowledgeChunk; au_context : KnowledgeChunk; au_document : KnowledgeDocument;
  au_version : KnowledgeDocumentVersion; au_child_text : text; au_context_text : text
}.
Record KnowledgeCitation := MkCitation {
  ci_id : text; ci_chunk : text; ci_document : text; ci_version : text; ci_base : text; ci_release : text; ci_title : text;
  ci_file : text; ci_mime : text; ci_page : option Z; ci_section : option text; ci_authority : text; ci_classification : text;
  ci_from : option text; ci_to : option text; ci_hash : text
}.
Record RetrievedEvidence := MkEvidence {
  ev_rank : nat; ev_text : text; ev_child_text : text; ev_score : Q; ev_rrf : Q; ev_dense : option Q; ev_sparse : option Q;
  ev_citation : KnowledgeCitation
}.
Record KnowledgeContextPack := MkPack { pk_text : text; pk_citations : list KnowledgeCitation; pk_tokens : Z; pk_truncated : bool }.
Record KnowledgeRetrievalResult := MkResult {
  re_evidence : list RetrievedEvidence; re_context : KnowledgeContextPack; re_answerable : bool; re_abstention : option string;
  re_releases : gset text; re_indexes : gset text; re_candidates : nat; re_authorized : nat; re_errors : list (text * exn)
}.
Record RerankCandidate := MkRerank { rr_key : text; rr_text : text; rr_rrf : Q; rr_authority : text; rr_from : option Z }.
Record RerankedCandidate := MkReranked { rk_candidate : RerankCandidate; rk_score : Q; rk_lexical : Q; rk_authority : Q }.

(** [(-score, key)] *)
Definition ranked_before {A} (score : A -> Q) (key : A -> text) (a b : A) : Prop :=
  (score b < score a)%Q \/ (score b == score a)%Q /\ text_leb (key a) (key b) = true.
#[export] Instance ranked_before_dec {A} (score : A -> Q) (key : A -> text) : RelDecision (ranked_before score key).
Proof.
  intros a b. destruct (decide (Qltb (score b) (score a) = true)) as [Hl|Hl].
  - left. left. by apply Qltb_lt.
  - destruct (decide (Qeq_bool (score b) (score a) = true /\ text_leb (key a) (key b) = true)) as [[He Ht]|Hn].
    + left. right. split; [by apply Qeq_bool_iff|done].
    + right. intros [H|[H Ht]]; [by apply Hl, Qltb_lt|]. apply Hn. by split; [apply Qeq_bool_iff|].
Defined.

(** ** The policy *)

Definition _MAX_KNOWLEDGE_BASES_PER_AGENT : nat := 64.
Definition _MAX_CANDIDATES : nat := 1000.
Definition _MAX_FINAL_RESULTS : Z := 32.
Definition _MAX_CONTEXT_TOKENS : Z := 32768.

Record Settings := MkSettings {
  set_candidate_limit : Z; set_final_limit : Z; set_rrf_k : Z; set_per_document : Z; set_token_budget : Z;
  set_dense_threshold : pyfloat; set_sparse_threshold : pyfloat; set_max_query : Z
}.
Record RetrievalPolicy := MkPolicy {
  po_candidate_limit : Z; po_final_limit : Z; po_rrf_k : Z; po_per_document : Z; po_token_budget : Z; po_answerability : Q;
  po_dense_weight : Q; po_sparse_weight : Q; po_dense_threshold : Q; po_sparse_threshold : Q;
  po_citations_required : bool; po_fail_closed : bool
}.

(** [max(minimum, min(maximum, x))] of a float: [min(maximum, nan)] is [maximum]. *)
Definition clamp_float (minimum maximum : Q) (x : pyfloat) : Q :=
  let low := match x with
    | Finite q => if Qltb q maximum then q else maximum
    | Infinite true => minimum
    | Infinite false | NotANumber => maximum
    end in
  if Qltb minimum low then low else minimum.

Section policy.
Context `{PyNumber} `{PyInt} `{PyRepr} `{PyStr}.

Definition bounded_int (value : payload) (key : string) (default minimum maximum : Z) : res Z :=
  n ← match field (of_string key) value with Some v => int_of v | None => Ok default end;
  mret (Z.max minimum (Z.min maximum n)).
Definition bounded_float (value : payload) (key : string) (default : pyfloat) (minimum maximum : Q) : res Q :=
  x ← match field (of_string key) value with Some v => float_of v | None => Ok default end;
  mret (clamp_float minimum maximum x).

Definition from_dict (settings : Settings) (raw : option payload) : res RetrievalPolicy :=
  let value := default [] raw in
  candidate_limit ← bounded_int value "candidate_limit" (set_candidate_limit settings) 1 200;
  final_limit ← bounded_int value "final_limit" (set_final_limit settings) 1 _MAX_FINAL_RESULTS;
  rrf_k ← bounded_int value "rrf_k" (set_rrf_k settings) 1 1000;
  max_chunks_per_document ← bounded_int value "max_chunks_per_document" (set_per_document settings) 1 10;
  context_token_budget ← bounded_int value "context_token_budget" (set_token_budget settings) 128 _MAX_CONTEXT_TOKENS;
  minimum_answerability_score ← bounded_float value "minimum_answerability_score" (Finite (35 # 100)) 0 1;
  dense_weight ← bounded_float value "dense_weight" (Finite 1) 0 10;
  sparse_weight ← bounded_float value "sparse_weight" (Finite 1) 0 10;
  dense_score_threshold ← bounded_float value "dense_score_threshold" (set_dense_threshold settings) (-1) 1;
  sparse_score_threshold ← bounded_float value "sparse_score_threshold" (set_sparse_threshold settings) 0 1000000;
  mret (MkPolicy candidate_limit final_limit rrf_k max_chunks_per_document context_token_budget minimum_answerability_score
    dense_weight sparse_weight dense_score_threshold sparse_score_threshold (flag "citations_required" value) (flag "fail_closed" value)).
End policy.

(** ** What a point says, and what a query asks *)

Section index.
Context `{PyStr} `{PyFold}.

Definition text_before (s t : text) : Prop := text_leb s t = true.
#[export] Instance text_before_dec : RelDecision text_before.
Proof. intros s t. unfold text_before. apply _. Defined.

Definition sorted_tokens (tokens : gset text) : list text := merge_sort text_before (elements tokens).
Definition JTexts (ts : list text) : json := JList (JStr <$> ts).
Definition JOptional {A} (f : A -> json) (value : option A) : json := match value with Some v => f v | None => JNull end.

(** [isoformat()] leaves out microseconds that are zero. *)
Definition isoformat_short (t : Z) : text := if t mod 1000000 =? 0 then take 19 (isoformat t) else isoformat t.

Definition _utc_payload (value : option Z) : json := JOptional (fun t => JStr (isoformat_short t ++ of_string "Z")) value.

Definition _point_acl_payload (base : KnowledgeBase) (base_rows : list AccessAssignment) (document_rows : list AccessAssignment) : payload :=
  let kb_acl := compile_acl_payload base_rows in
  let document_acl := compile_acl_payload document_rows in
  let restricted := JStr (of_string (if bool_decide (document_acl.1 = ∅) then "inherited" else "restricted")) in
  [(of_string "kb_access_scope", JStr (of_string (if bool_decide (kb_access base = ACCESS_PUBLIC) then "public" else "restricted")));
   (of_string "kb_allow_principal_tokens", JTexts (sorted_tokens kb_acl.1));
   (of_string "document_access_scope", restricted);
   (of_string "document_allow_principal_tokens", JTexts (sorted_tokens document_acl.1));
   (of_string "deny_principal_tokens", JTexts (sorted_tokens (kb_acl.2 ∪ document_acl.2)));
   (of_string "access_scope", restricted);
   (of_string "allow_principal_tokens", JTexts (sorted_tokens (kb_acl.1 ∪ document_acl.1)))].

(** The payload of a chunk's point, in [flush_batch]. *)
Definition point_payload (base : KnowledgeBase) (base_rows : list AccessAssignment) (document : KnowledgeDocument)
    (document_rows : list AccessAssignment) (release index : text) (version : KnowledgeDocumentVersion) (chunk : KnowledgeChunk) : payload :=
  [(of_string "knowledge_base_id", JStr (kb_id base)); (of_string "release_id", JStr release);
   (of_string "document_id", JStr (kd_id document)); (of_string "document_version_id", JStr (kv_id version));
   (of_string "chunk_id", JStr (kc_id chunk)); (of_string "chunk_index", JInt (kc_index chunk));
   (of_string "page_number", JOptional JInt (kc_page chunk));
   (of_string "acl_version", JInt (Z.max (kb_acl_version base) (kd_acl_version document)));
   (of_string "status", JStr (of_string "active")); (of_string "classification", JStr (kv_classification version));
   (of_string "language", JOptional JStr match kc_language chunk with Some ((_ :: _) as l) => Some l | _ => kv_language version end);
   (of_string "authority", JStr (kv_authority version)); (of_string "effective_from", _utc_payload (kv_from version));
   (of_string "effective_to", _utc_payload (kv_to version)); (of_string "revoked_at", _utc_payload (kv_revoked version));
   (of_string "content_hash", JStr (kc_hash chunk)); (of_string "index_version_id", JStr index)] ++
  _point_acl_payload base base_rows document_rows.

Definition _acl_layer_filter (scope_field : string) (unrestricted_value : text) (allow_field : string) (tokens : list text) : Condition :=
  Filter [] (MatchValue scope_field unrestricted_value :: if bool_decide (tokens = []) then [] else [MatchAny allow_field tokens]) [].

Definition build_qdrant_retrieval_filter (release_id : text) (s : ResourceAccessSubject) (now : Z) : Condition :=
  let must :=
    [MatchValue "release_id" release_id; MatchValue "status" (of_string "active");
     Filter [] [IsEmpty "effective_from"; DatetimeLte "effective_from" now] [];
     Filter [] [IsEmpty "effective_to"; DatetimeGte "effective_to" now] []; IsEmpty "revoked_at"] in
  if su_break_glass s then Filter must [] []
  else
    let tokens := sorted_tokens (principal_tokens s) in
    Filter (must ++ [_acl_layer_filter "kb_access_scope" (of_string "public") "kb_allow_principal_tokens" tokens;
                     _acl_layer_filter "document_access_scope" (of_string "inherited") "document_allow_principal_tokens" tokens])
      [] (if bool_decide (tokens = []) then [] else [MatchAny "deny_principal_tokens" tokens]).
End index.

(** ** Fusing the rankings *)

Section fusion.
Context `{PyRepr}.

(** [str(hit.payload.get("chunk_id") or hit.point_id)] *)
Definition chunk_of (hit : KnowledgeSearchHit) : text :=
  match field (of_string "chunk_id") (hit_payload hit) with
  | Some v => if truthy v then py_str v else hit_point hit
  | None => hit_point hit
  end.

Definition counted (hit : KnowledgeSearchHit) : bool :=
  negb (bool_decide (chunk_of hit = [])) && bool_decide (chunk_of hit = hit_point hit).

(** [item["rrf_score"] += ...; item[f"{channel}_score"] = ...; item[f"{channel}_rank"] = rank] *)
Definition add_hit (ch : channel) (rrf_k : Z) (weight : Q) (rank : nat) (hit : KnowledgeSearchHit) (item : FusedCandidate) : FusedCandidate :=
  let score := (fc_rrf item + weight / inject_Z (rrf_k + Z.of_nat rank))%Q in
  match ch with
  | dense => MkFused (fc_chunk item) (fc_release item) (fc_index item) (fc_payload item) score (Some (hit_score hit)) (fc_sparse_score item)
               (Some rank) (fc_sparse_rank item)
  | sparse => MkFused (fc_chunk item) (fc_release item) (fc_index item) (fc_payload item) score (fc_dense_score item) (Some (hit_score hit))
                (fc_dense_rank item) (Some rank)
  end.

(** [accumulated.setdefault(chunk_id, fresh)], then the item changed in place. *)
Fixpoint add_to (chunk : text) (fresh : FusedCandidate) (f : FusedCandidate -> FusedCandidate) (items : list FusedCandidate)
    : list FusedCandidate :=
  match items with
  | [] => [f fresh]
  | item :: items => if bool_decide (fc_chunk item = chunk) then f item :: items else item :: add_to chunk fresh f items
  end.

Fixpoint add_ranking (release index : text) (ch : channel) (rrf_k : Z) (weight : Q) (rank : nat) (hits : list KnowledgeSearchHit)
    (items : list FusedCandidate) : list FusedCandidate :=
  match hits with
  | [] => items
  | hit :: hits =>
      add_ranking release index ch rrf_k weight (S rank) hits
        (if counted hit then
           add_to (chunk_of hit) (MkFused (chunk_of hit) release index (hit_payload hit) 0 None None None None)
             (add_hit ch rrf_k weight rank hit) items
         else items)
  end.

Definition reciprocal_rank_fusion (rankings : list (channel * list KnowledgeSearchHit * Q)) (release index : text) (rrf_k : Z)
    : res (list FusedCandidate) :=
  if rrf_k <? 1 then Raise (ValueError "rrf_k must be positive")
  else Ok (merge_sort (ranked_before fc_rrf fc_chunk)
    (foldl (fun items '(ch, hits, weight) => if Qltb 0 weight then add_ranking release index ch rrf_k weight 1 hits items else items)
      [] rankings)).
End fusion.

(** ** Lexical tokens and the built-in reranker *)

(** [unicodedata.normalize("NFKC", text)] *)
Class PyNFKC := { nfkc : text -> text }.

Section rerank.
Context `{PyStr} `{PyFold} `{PyRe} `{PyNFKC}.

Definition zero_width (c : Z) : bool :=
  ((8203 <=? c) && (c <=? 8207)) || ((8234 <=? c) && (c <=? 8238)) || ((8288 <=? c) && (c <=? 8303)) || (c =? 65279).

Definition to_persian (c : Z) : Z :=
  if c =? 1610 then 1740 else if c =? 1609 then 1740 else if c =? 1603 then 1705 else if c =? 1728 then 1607
  else if c =? 1577 then 1607 else c.

Definition normalize_lexical_text (t : text) : text :=
  join_space (split_ws [] (py_casefold (to_persian <$> ((fun c => if zero_width c then 32 else c) <$> nfkc t)))).

(** The maximal runs of word characters but "_"; [open] is the run being read, reversed. *)
Fixpoint token_runs (open : text) (s : text) : list text :=
  match s with
  | [] => match open with [] => [] | _ => [rev open] end
  | c :: s =>
      if re_word c && negb (c =? 95) then token_runs (c :: open) s
      else match open with [] => token_runs [] s | _ => rev open :: token_runs [] s end
  end.

Definition lexical_tokens (t : text) : list text := token_runs [] (normalize_lexical_text t).

Definition _authority_score (authority : text) : Q :=
  let normalized := py_casefold (strip authority) in
  if bool_decide (normalized ∈ of_string <$> ["canonical"; "authoritative"; "official"; "policy"]%string) then 1
  else if bool_decide (normalized ∈ of_string <$> ["reference"; "approved"]%string) then 65 # 100
  else if bool_decide (normalized ∈ of_string <$> ["informational"; "community"]%string) then 35 # 100
  else 1 # 2.

Definition _lexical_score (query t : text) : Q :=
  let query_tokens := lexical_tokens query in
  let text_tokens := lexical_tokens t in
  let query_set : gset text := list_to_set query_tokens in
  let text_set : gset text := list_to_set text_tokens in
  if bool_decide (query_tokens = []) then 0%Q
  else if bool_decide (text_set = ∅) then 0%Q
  else
    let coverage := (inject_Z (Z.of_nat (size (query_set ∩ text_set))) / inject_Z (Z.of_nat (size query_set)))%Q in
    let normalized_query := join_space query_tokens in
    let phrase_bonus := if negb (bool_decide (normalized_query = [])) && contains normalized_query (join_space text_tokens) then 15 # 100 else 0%Q in
    let score := (coverage + phrase_bonus)%Q in
    if Qltb score 1 then score else 1%Q.

(** [max((candidate.rrf_score for candidate in bounded), default=0.0)] *)
Definition max_score (candidates : list RerankCandidate) : Q :=
  match candidates with
  | [] => 0%Q
  | c :: rest => foldl (fun best c => if Qltb best (rr_rrf c) then rr_rrf c else best) (rr_rrf c) rest
  end.

(** [DeterministicKnowledgeReranker.rerank] *)
Definition rerank (query : text) (candidates : list RerankCandidate) (limit : nat) : list RerankedCandidate :=
  match limit with
  | O => []
  | _ =>
      let bounded := take 1000 candidates in
      let max_rrf := max_score bounded in
      take limit (merge_sort (ranked_before rk_score (rr_key ∘ rk_candidate))
        ((fun c =>
            let lexical := _lexical_score query (rr_text c) in
            let authority := _authority_score (rr_authority c) in
            let normalized_rrf := if Qltb 0 max_rrf then (rr_rrf c / max_rrf)%Q else 0%Q in
            MkReranked c ((65 # 100) * normalized_rrf + (25 # 100) * lexical + (10 # 100) * authority)%Q lexical authority) <$> bounded))
  end.
End rerank.

(** What a caller's reranker is asked for ([KnowledgeReranker]). *)
Definition reranker : Type := text -> list RerankCandidate -> nat -> list RerankedCandidate.

Section retrieval.
Context `{PyStr} `{PyFold} `{PyInt} `{PyRepr} `{PyNumber}.

(** ** The knowledge an agent may use *)

(** [scalar_one_or_none()] *)
Definition scalar_one_or_none {A} (rows : list A) : res (option A) :=
  match rows with [] => Ok None | [row] => Ok (Some row) | _ => Raise (OtherError "MultipleResultsFound") end.

Definition rows_of {A} (P : A -> bool) (table : gmap text A) : list A := filter (fun a => P a = true) (snd <$> map_to_list table).

Definition one_of (statuses : list string) (status : text) : bool := existsb (fun s => bool_decide (status = of_string s)) statuses.

Definition release_for (lib : Library) (base : KnowledgeBase) (b : AgentKnowledgeBinding) : res (option KnowledgeRelease) :=
  if bool_decide (kn_mode b = of_string "pinned") then
    match kn_pinned b with
    | Some ((_ :: _) as pinned) =>
        match releases lib !! pinned with
        | Some release =>
            if bool_decide (kr_base release = kb_id base) && one_of ["published"; "archived"] (kr_status release) then Ok (Some release) else Ok None
        | None => Ok None
        end
    | _ => Ok None
    end
  else scalar_one_or_none (rows_of (fun r => bool_decide (kr_base r = kb_id base) &&
    bool_decide (kr_scope r = Some (of_string "kb-release:" ++ kb_id base)) && one_of ["published"] (kr_status r)) (releases lib)).

Fixpoint sources_of (lib : Library) (allowed : gmap text KnowledgeBase) (bs : list AgentKnowledgeBinding) : res (list _RetrievalSource) :=
  match bs with
  | [] => Ok []
  | b :: bs =>
      match allowed !! kn_base b with
      | None => sources_of lib allowed bs
      | Some base =>
          release ← release_for lib base b;
          match release with
          | None => sources_of lib allowed bs
          | Some release =>
              match head (sort_by (fun i => - ki_number i) (rows_of (fun i => bool_decide (ki_release i = kr_id release) &&
                one_of ["active"; "retired"] (ki_status i)) (index_versions lib))) with
              | Some index => sources ← sources_of lib allowed bs; mret (MkSource base release index :: sources)
              | None => sources_of lib allowed bs
              end
          end
      end
  end.

Definition binding_before (a b : AgentKnowledgeBinding) : Prop := text_leb (kn_base a) (kn_base b) = true.
#[export] Instance binding_before_dec : RelDecision binding_before.
Proof. intros a b. unfold binding_before. apply _. Defined.

Definition _resolve_sources (lib : Library) (agent_version : AgentVersion) (s : ResourceAccessSubject) : res (list _RetrievalSource) :=
  let bound := take (S _MAX_KNOWLEDGE_BASES_PER_AGENT) (merge_sort binding_before
    (filter (fun b => kn_version b = av_id agent_version /\ kn_status b = of_string "published") (bindings lib))) in
  if (_MAX_KNOWLEDGE_BASES_PER_AGENT <? length bound)%nat then Raise (ValueError "Agent Knowledge bindings exceed the runtime safety limit")
  else
    let active := filter (fun base => kb_status base = of_string "active") (bases_in (list_to_set (kn_base <$> bound)) (acl lib)) in
    let allowed := dict_of ((fun base => (kb_id base, base)) <$> filter_knowledge_bases_for_subject (acl lib) active s) in
    sources_of lib allowed bound.

(** ** Authorizing what the index answered *)

Definition _temporally_valid (version : KnowledgeDocumentVersion) (now : Z) : bool :=
  match kv_from version with Some from => from <=? now | None => true end &&
  match kv_to version with Some to => now <=? to | None => true end &&
  bool_decide (kv_revoked version = None).

Definition chunk_plaintext_hash (chunk_index : Z) (t : text) : text := sha256_hexdigest (utf8 (of_int chunk_index ++ [0] ++ t)).

(** The chunk's row joined with its version's and document's. *)
Definition chunk_row (lib : Library) (chunk : text) : option (KnowledgeChunk * KnowledgeDocumentVersion * KnowledgeDocument) :=
  c ← chunks lib !! chunk; v ← versions lib !! kc_version c; d ← documents (acl lib) !! kv_document v; mret (c, v, d).

(** The condition under which a candidate is kept, but for its text. *)
Definition candidate_stands (lib : Library) (allowed : gset text) (now : Z) (c : FusedCandidate)
    (row : KnowledgeChunk * KnowledgeDocumentVersion * KnowledgeDocument) : bool :=
  let '(chunk, version, document) := row in
  match releases lib !! fc_release c with Some release => one_of ["published"; "archived"] (kr_status release) | None => false end &&
  bool_decide (kd_id document ∈ allowed) && bool_decide (kd_status document = of_string "active") &&
  bool_decide (kd_revoked document = None) && bool_decide (kd_deleted document = None) &&
  one_of ["published"; "superseded"] (kv_status version) && _temporally_valid version now &&
  bool_decide ((fc_release c, kv_id version) ∈ release_documents lib) &&
  bool_decide (str_field "document_id" (fc_payload c) = kd_id document) &&
  bool_decide (str_field "document_version_id" (fc_payload c) = kv_id version) &&
  bool_decide (str_field "knowledge_base_id" (fc_payload c) = kd_base document) &&
  bool_decide (str_field "release_id" (fc_payload c) = fc_release c) &&
  bool_decide (str_field "index_version_id" (fc_payload c) = fc_index c) &&
  bool_decide (str_field "content_hash" (fc_payload c) = kc_hash chunk).

Section texts.
Context (decrypt_text : text -> text -> res text).

(** The chunk's own text and the text of its parent, if it has one. *)
Definition authorized_candidate (lib : Library) (c : FusedCandidate) (row : KnowledgeChunk * KnowledgeDocumentVersion * KnowledgeDocument)
    : res (option _AuthorizedCandidate) :=
  let '(chunk, version, document) := row in
  child_text ← decrypt_text (kc_content chunk) (of_string "knowledge-chunk:" ++ kc_id chunk);
  if negb (bool_decide (chunk_plaintext_hash (kc_index chunk) child_text = kc_hash chunk)) then
    Raise (ValueError "Knowledge child chunk integrity verification failed")
  else
    let context_chunk := match kc_parent chunk with Some ((_ :: _) as parent) => default chunk (chunks lib !! parent) | _ => chunk end in
    if negb (bool_decide (kc_version context_chunk = kc_version chunk)) then Ok None
    else if bool_decide (kc_id context_chunk = kc_id chunk) then
      Ok (Some (MkAuthorized c chunk context_chunk document version child_text child_text))
    else
      context_text ← decrypt_text (kc_content context_chunk) (of_string "knowledge-chunk:" ++ kc_id context_chunk);
      if negb (bool_decide (chunk_plaintext_hash (kc_index context_chunk) context_text = kc_hash context_chunk)) then
        Raise (ValueError "Knowledge parent chunk integrity verification failed")
      else Ok (Some (MkAuthorized c chunk context_chunk document version child_text context_text)).

Fixpoint authorized_candidates (lib : Library) (prelim : list (FusedCandidate * (KnowledgeChunk * KnowledgeDocumentVersion * KnowledgeDocument)))
    : res (list _AuthorizedCandidate) :=
  match prelim with
  | [] => Ok []
  | (c, row) :: prelim =>
      one ← authorized_candidate lib c row;
      rest ← authorized_candidates lib prelim;
      mret (match one with Some a => a :: rest | None => rest end)
  end.

Definition _post_authorize_candidates (lib : Library) (candidates : list FusedCandidate) (s : ResourceAccessSubject) (now : Z)
    : res (list _AuthorizedCandidate) :=
  let bounded := take _MAX_CANDIDATES candidates in
  let rows := omap (fun c => row ← chunk_row lib (fc_chunk c); Some (c, row)) bounded in
  let candidate_documents := remove_dups (snd ∘ snd <$> rows) in
  let allowed := list_to_set (kd_id <$> filter_documents_for_subject (acl lib) candidate_documents s) in
  authorized_candidates lib (filter (fun '(c, row) => candidate_stands lib allowed now c row = true) rows).
End texts.

Definition _citation_for (a : _AuthorizedCandidate) : KnowledgeCitation :=
  let version := au_version a in
  let chunk := au_chunk a in
  MkCitation (kc_id chunk) (kc_id chunk) (kd_id (au_document a)) (kv_id version) (kd_base (au_document a)) (fc_release (au_fused a))
    (kd_title (au_document a)) (kv_file version) (kv_mime version) (kc_page chunk) (kc_section chunk) (kv_authority version)
    (kv_classification version) (isoformat_short <$> kv_from version) (isoformat_short <$> kv_to version) (kc_hash chunk).

(** ** Packing the context *)

(** [text.encode("utf-8")[:n].decode("utf-8", errors="ignore")]: the characters
    encoded whole in the first [n] bytes. *)
Fixpoint first_bytes (n : nat) (t : text) : text :=
  match t with
  | [] => []
  | c :: t => if (length (utf8_char c) <=? n)%nat then c :: first_bytes (n - length (utf8_char c)) t else []
  end.

Definition overhead : Z := 80.
Definition estimated_tokens (t : text) : Z := Z.max 1 (Z.of_nat (length (utf8 t))) + overhead.

Definition evidence_block (item : RetrievedEvidence) (content : text) : text :=
  let c := ev_citation item in
  of_string "BEGIN_UNTRUSTED_KNOWLEDGE_EVIDENCE" ++ [10] ++
  print (JObj [(of_string "citation_id", JStr (ci_id c)); (of_string "title", JStr (ci_title c));
               (of_string "section", JOptional JStr (ci_section c)); (of_string "page_number", JOptional JInt (ci_page c));
               (of_string "authority", JStr (ci_authority c)); (of_string "effective_from", JOptional JStr (ci_from c));
               (of_string "effective_to", JOptional JStr (ci_to c)); (of_string "content", JStr content)]) ++
  [10] ++ of_string "END_UNTRUSTED_KNOWLEDGE_EVIDENCE".

(** The loop over the evidence: blocks, citations, tokens used, whether something was left out. *)
Fixpoint pack (budget : Z) (evidence : list RetrievedEvidence) (blocks : list text) (citations : list KnowledgeCitation) (used : Z)
    (truncated : bool) : list text * list KnowledgeCitation * Z * bool :=
  match evidence with
  | [] => (blocks, citations, used, truncated)
  | item :: evidence =>
      let remaining := budget - used - overhead in
      if remaining <=? 0 then (blocks, citations, used, true)
      else if budget - used <? estimated_tokens (ev_text item) then
        if bool_decide (blocks = []) then
          let t := first_bytes (Z.to_nat (Z.max 1 remaining)) (ev_text item) in
          pack budget evidence (blocks ++ [evidence_block item t]) (citations ++ [ev_citation item]) (used + estimated_tokens t) true
        else (blocks, citations, used, true)
      else pack budget evidence (blocks ++ [evidence_block item (ev_text item)]) (citations ++ [ev_citation item])
             (used + estimated_tokens (ev_text item)) truncated
  end.

Fixpoint join_blank_line (blocks : list text) : text :=
  match blocks with [] => [] | [b] => b | b :: blocks => b ++ [10; 10] ++ join_blank_line blocks end.

Definition _pack_context (evidence : list RetrievedEvidence) (token_budget : Z) : KnowledgeContextPack :=
  let '(blocks, citations, used, truncated) := pack token_budget evidence [] [] 0 false in
  MkPack (join_blank_line blocks) citations used truncated.

(** ** The whole call *)

Section call.
(** The store's answer to a query: what it finds by meaning and what by words. *)
Context (hybrid_candidates : KnowledgeIndexVersion -> text -> Condition -> RetrievalPolicy -> res (list KnowledgeSearchHit * list KnowledgeSearchHit)).
Context (decrypt_text : text -> text -> res text) (reranks : reranker) (settings : Settings).

Definition candidates_of (query : text) (s : ResourceAccessSubject) (now : Z) (policy : RetrievalPolicy) (source : _RetrievalSource)
    : res (list FusedCandidate) :=
  hits ← hybrid_candidates (rs_index source) query (build_qdrant_retrieval_filter (kr_id (rs_release source)) s now) policy;
  reciprocal_rank_fusion [(dense, hits.1, po_dense_weight policy); (sparse, hits.2, po_sparse_weight policy)]
    (kr_id (rs_release source)) (ki_id (rs_index source)) (po_rrf_k policy).

Definition KnowledgeRetrievalUnavailable (base : text) : exn := OtherError "KnowledgeRetrievalUnavailable".

Fixpoint all_candidates (query : text) (s : ResourceAccessSubject) (now : Z) (policy : RetrievalPolicy) (sources : list _RetrievalSource)
    : res (list FusedCandidate * list (text * exn)) :=
  match sources with
  | [] => Ok ([], [])
  | source :: sources =>
      match candidates_of query s now policy source with
      | Ok fused => rest ← all_candidates query s now policy sources; mret (fused ++ rest.1, rest.2)
      | Raise e =>
          if po_fail_closed policy then Raise (KnowledgeRetrievalUnavailable (kb_id (rs_base source)))
          else rest ← all_candidates query s now policy sources; mret (rest.1, (kb_id (rs_base source), e) :: rest.2)
      end
  end.

(** The loop over the reranked candidates. *)
Fixpoint select (policy : RetrievalPolicy) (by_key : gmap text _AuthorizedCandidate) (reranked : list RerankedCandidate)
    (per_document : gmap text Z) (used : gset text) (selected : list RetrievedEvidence) : list RetrievedEvidence :=
  match reranked with
  | [] => selected
  | item :: reranked =>
      match by_key !! rr_key (rk_candidate item) with
      | None => select policy by_key reranked per_document used selected
      | Some c =>
          let document_id := kd_id (au_document c) in
          let context_chunk_id := kc_id (au_context c) in
          let so_far := default 0 (per_document !! document_id) in
          if (po_per_document policy <=? so_far) || bool_decide (context_chunk_id ∈ used) then
            select policy by_key reranked per_document used selected
          else
            let selected := selected ++ [MkEvidence (S (length selected)) (au_context_text c) (au_child_text c) (rk_score item)
              (fc_rrf (au_fused c)) (fc_dense_score (au_fused c)) (fc_sparse_score (au_fused c)) (_citation_for c)] in
            if po_final_limit policy <=? Z.of_nat (length selected) then selected
            else select policy by_key reranked (<[document_id := so_far + 1]> per_document) ({[context_chunk_id]} ∪ used) selected
      end
  end.

Definition nothing_found (reason : string) (releases indexes : gset text) (candidates : nat) (errors : list (text * exn)) : KnowledgeRetrievalResult :=
  MkResult [] (MkPack [] [] 0 false) false (Some reason) releases indexes candidates 0 errors.

Definition retrieve_knowledge (lib : Library) (agent_version_id : text) (s : ResourceAccessSubject) (query : text) (now : Z)
    : res KnowledgeRetrievalResult :=
  let clean_query := join_space (split_ws [] query) in
  if bool_decide (clean_query = []) then Raise (ValueError "Knowledge retrieval query cannot be empty")
  else if set_max_query settings <? Z.of_nat (length clean_query) then Raise (ValueError "Knowledge retrieval query exceeds the configured limit")
  else if negb (su_active s) then Ok (nothing_found "inactive_subject" ∅ ∅ 0 [])
  else
    match agent_versions lib !! agent_version_id with
    | None => Raise (ValueError "A previously published Agent version is required for Knowledge retrieval")
    | Some agent_version =>
        if negb (one_of ["published"; "archived"] (av_status agent_version)) ||
           (bool_decide (av_status agent_version = of_string "archived") && bool_decide (av_published agent_version = None)) then
          Raise (ValueError "A previously published Agent version is required for Knowledge retrieval")
        else
          policy ← from_dict settings (av_policy agent_version);
          sources ← _resolve_sources lib agent_version s;
          if bool_decide (length sources = 0%nat) then Ok (nothing_found "no_accessible_knowledge" ∅ ∅ 0 [])
          else
            found ← all_candidates clean_query s now policy sources;
            let all_fused := take _MAX_CANDIDATES (merge_sort (ranked_before fc_rrf fc_chunk) found.1) in
            authorized ← _post_authorize_candidates decrypt_text lib all_fused s now;
            if bool_decide (length authorized = 0%nat) then
              Ok (nothing_found "no_authorized_evidence" (list_to_set (kr_id ∘ rs_release <$> sources)) (list_to_set (ki_id ∘ rs_index <$> sources))
                    (length all_fused) found.2)
            else
              let by_key := dict_of ((fun a => (fc_chunk (au_fused a), a)) <$> authorized) in
              let reranked := reranks clean_query
                ((fun a => MkRerank (fc_chunk (au_fused a)) (au_child_text a) (fc_rrf (au_fused a)) (kv_authority (au_version a)) (kv_from (au_version a)))
                   <$> authorized) (Nat.min (length authorized) _MAX_CANDIDATES) in
              let selected := select policy by_key reranked ∅ ∅ [] in
              let context := _pack_context selected (po_token_budget policy) in
              let included := ci_id <$> pk_citations context in
              let selected := filter (fun e => ci_id (ev_citation e) ∈ included) selected in
              let top_score := match selected with e :: _ => ev_score e | [] => 0%Q end in
              let answerable := negb (bool_decide (length selected = 0%nat)) && negb (Qltb top_score (po_answerability policy)) in
              Ok (MkResult selected context answerable (if answerable then None else Some "insufficient_evidence"%string)
                (list_to_set (ci_release ∘ ev_citation <$> selected))
                (list_to_set (omap (fun e => fc_index ∘ au_fused <$> by_key !! ci_chunk (ev_citation e)) selected))
                (length all_fused) (length authorized) found.2)
    end.
End call.
End retrieval.
