(* ===== verification/IndexFacts.v ===== *)
(** * What the index asks the vector store

    Qdrant's conditions are a class with the laws its documentation states
    ([Qdrant], [QdrantLaws]), of which [simple_store] is an instance.  A point
    passes the filter of a query exactly when the database lets the subject read
    its document ([index_filter_agrees]); the hypotheses hold of the rows and
    subjects that the code writes ([validated_rows_sound], [resolved_tokens]). *)

From S2P Require Import Prelude Money Text Json JsonParse PyTime PyText Fences Rbac RbacFacts Roles Access AccessFacts Regex Extractor Retrieval.
From Stdlib Require Import QArith.

#[local] Open Scope Z_scope.

(** ** The vector store *)

(** Whether a point's payload passes a condition, and the instant an RFC 3339 text stands for. *)
Class Qdrant := { payload_matches : Condition -> payload -> bool; stored_instant : text -> option Z }.

Definition text_in (values : list text) (v : option json) : bool :=
  match v with
  | Some (JStr s) => bool_decide (s ∈ values)
  | Some (JList l) => existsb (fun v => match v with JStr s => bool_decide (s ∈ values) | _ => false end) l
  | _ => false
  end.
Definition empty_value (v : option json) : bool := match v with None | Some JNull | Some (JList []) => true | _ => false end.

(** What Qdrant documents of the conditions that the code uses: a list matches when
    one of its elements does; [is_empty] holds of a missing field, of null and of
    []; a filter holds when all of [must], one of [should] if there are any, and
    none of [must_not] hold; a range of dates reads RFC 3339. *)
Class QdrantLaws `{Qdrant} : Prop := {
  match_value key value p : payload_matches (MatchValue key value) p = text_in [value] (field (of_string key) p);
  match_any key values p : payload_matches (MatchAny key values) p = text_in values (field (of_string key) p);
  match_empty key p : payload_matches (IsEmpty key) p = empty_value (field (of_string key) p);
  match_lte key bound p : payload_matches (DatetimeLte key bound) p =
    match field (of_string key) p with Some (JStr t) => match stored_instant t with Some i => i <=? bound | None => false end | _ => false end;
  match_gte key bound p : payload_matches (DatetimeGte key bound) p =
    match field (of_string key) p with Some (JStr t) => match stored_instant t with Some i => bound <=? i | None => false end | _ => false end;
  match_filter must should must_not p : payload_matches (Filter must should must_not) p =
    forallb (fun c => payload_matches c p) must && (bool_decide (should = []) || existsb (fun c => payload_matches c p) should) &&
    negb (existsb (fun c => payload_matches c p) must_not);
  read_instant t : datetime t -> stored_instant (isoformat_short t ++ of_string "Z") = Some t
}.

Section index_facts.
Context `{PyStr} `{PyFold} `{!PySlugs} `{QdrantLaws}.

Lemma text_before_trans : Transitive text_before.
Proof. intros s t u. apply text_leb_trans. Qed.

Lemma sorted_tokens_elem (tokens : gset text) token : token ∈ sorted_tokens tokens <-> token ∈ tokens.
Proof. unfold sorted_tokens. by rewrite merge_sort_Permutation, elem_of_elements. Qed.

Lemma sorted_tokens_nil (tokens : gset text) : sorted_tokens tokens = [] <-> tokens = ∅.
Proof.
  split.
  - intros Hs. apply set_eq. intros token. rewrite <- sorted_tokens_elem, Hs. set_solver.
  - intros ->. unfold sorted_tokens. by rewrite elements_empty.
Qed.

(** A row with a target and one of the two effects, as the tables require. *)
Definition sound_row (a : AccessAssignment) : Prop :=
  is_Some (_assignment_token a) /\ (aa_effect a = EFFECT_ALLOW \/ aa_effect a = EFFECT_DENY).

Lemma sound_effect a : sound_row a -> effect_of a = aa_effect a.
Proof. intros [_ [Ha|Ha]]; apply effect_valid; [done|by rewrite Ha; left|done|by rewrite Ha; right; left]. Qed.

Lemma compile_acl_spec rows : forall start token, Forall sound_row rows ->
  let acl := foldl (fun acl a =>
    match _assignment_token a with
    | None => acl
    | Some token => if denies a then (acl.1, {[token]} ∪ acl.2) else ({[token]} ∪ acl.1, acl.2)
    end) (start : gset text * gset text) rows in
  (token ∈ acl.1 <-> token ∈ start.1 \/ exists a, a ∈ rows /\ _assignment_token a = Some token /\ effect_of a = EFFECT_ALLOW) /\
  (token ∈ acl.2 <-> token ∈ start.2 \/ exists a, a ∈ rows /\ _assignment_token a = Some token /\ effect_of a = EFFECT_DENY).
Proof.
  induction rows as [|a rows IH]; intros start token Hs; [simpl; set_solver|]. inversion_clear Hs as [|? ? Ha Hrows].
  cbn [foldl]. pose proof (sound_effect a Ha) as He. destruct Ha as [[ta Hta] Hef]. rewrite Hta.
  assert (denies a = bool_decide (aa_effect a = EFFECT_DENY)) as -> by by (unfold denies; rewrite He).
  destruct Hef as [Hef|Hef]; rewrite Hef; [rewrite bool_decide_eq_false_2 by done|rewrite bool_decide_eq_true_2 by done];
    destruct (IH (if bool_decide (aa_effect a = EFFECT_DENY) then (start.1, {[ta]} ∪ start.2) else ({[ta]} ∪ start.1, start.2)) token Hrows) as [IH1 IH2];
    rewrite Hef in IH1, IH2; [rewrite bool_decide_eq_false_2 in IH1, IH2 by done|rewrite bool_decide_eq_true_2 in IH1, IH2 by done];
    cbv zeta; rewrite IH1, IH2; cbn [fst snd]; setoid_rewrite elem_of_cons; rewrite elem_of_union, elem_of_singleton.
  - split; split.
    + intros [[->|?]|(b & ? & ? & ?)]; [right; exists a; split; [by left|by rewrite He]|by left|right; exists b; auto].
    + intros [?|(b & [->|?] & Ht & ?)]; [auto|left; left; congruence|right; eauto].
    + intros [?|(b & ? & ? & ?)]; [by left|right; exists b; auto].
    + intros [?|(b & [->|?] & Ht & Hd)]; [auto|exfalso; rewrite He, Hef in Hd; discriminate|right; eauto].
  - split; split.
    + intros [?|(b & ? & ? & ?)]; [by left|right; exists b; auto].
    + intros [?|(b & [->|?] & Ht & Hd)]; [auto|exfalso; rewrite He, Hef in Hd; discriminate|right; eauto].
    + intros [[->|?]|(b & ? & ? & ?)]; [right; exists a; split; [by left|by rewrite He]|by left|right; exists b; auto].
    + intros [?|(b & [->|?] & Ht & ?)]; [auto|left; left; congruence|right; eauto].
Qed.

Lemma compile_allow rows token : Forall sound_row rows ->
  token ∈ (compile_acl_payload rows).1 <-> exists a, a ∈ rows /\ _assignment_token a = Some token /\ effect_of a = EFFECT_ALLOW.
Proof. intros Hs. destruct (compile_acl_spec rows (∅, ∅) token Hs) as [Hc _]. unfold compile_acl_payload. rewrite Hc. simpl. set_solver. Qed.
Lemma compile_deny rows token : Forall sound_row rows ->
  token ∈ (compile_acl_payload rows).2 <-> exists a, a ∈ rows /\ _assignment_token a = Some token /\ effect_of a = EFFECT_DENY.
Proof. intros Hs. destruct (compile_acl_spec rows (∅, ∅) token Hs) as [_ Hc]. unfold compile_acl_payload. rewrite Hc. simpl. set_solver. Qed.

Lemma names_token a s token : _assignment_token a = Some token -> names a s <-> token ∈ principal_tokens s.
Proof. intros Ht. rewrite <- assignment_matches_iff. unfold assignment_matches. by rewrite Ht, bool_decide_eq_true. Qed.

(** A subject shares a token with the allows, or the denies, exactly when a row names it. *)
Lemma tokens_allow rows s : Forall sound_row rows ->
  (exists token, token ∈ principal_tokens s /\ token ∈ (compile_acl_payload rows).1) <-> granted rows s.
Proof.
  intros Hs. setoid_rewrite compile_allow; [|done]. unfold granted. split.
  - intros (token & Hp & a & Ha & Ht & He). exists a. split; [done|]. split; [by apply (names_token a s token)|done].
  - intros (a & Ha & Hn & He). rewrite Forall_forall in Hs. destruct (Hs a Ha) as [[token Ht] _]. exists token.
    split; [by apply (names_token a s token)|eauto].
Qed.
Lemma tokens_deny rows s : Forall sound_row rows ->
  (exists token, token ∈ principal_tokens s /\ token ∈ (compile_acl_payload rows).2) <-> denied rows s.
Proof.
  intros Hs. setoid_rewrite compile_deny; [|done]. unfold denied. split.
  - intros (token & Hp & a & Ha & Ht & He). exists a. split; [done|]. split; [by apply (names_token a s token)|done].
  - intros (a & Ha & Hn & He). rewrite Forall_forall in Hs. destruct (Hs a Ha) as [[token Ht] _]. exists token.
    split; [by apply (names_token a s token)|eauto].
Qed.

(** ** Reading a point's payload *)

Lemma text_in_texts (values : list text) (tokens : gset text) :
  text_in values (Some (JTexts (sorted_tokens tokens))) = true <-> exists token, token ∈ values /\ token ∈ tokens.
Proof.
  unfold JTexts. cbn [text_in]. rewrite existsb_elem. setoid_rewrite list_elem_of_fmap. setoid_rewrite sorted_tokens_elem. split.
  - intros (v & (token & -> & Ht) & Hv%bool_decide_eq_true). eauto.
  - intros (token & Hv & Ht). exists (JStr token). split; [eauto|by apply bool_decide_eq_true].
Qed.

Lemma text_in_single (value s : text) : text_in [value] (Some (JStr s)) = true <-> s = value.
Proof. cbn [text_in]. by rewrite bool_decide_eq_true, list_elem_of_singleton. Qed.

Lemma shares_allow rows s : Forall sound_row rows ->
  principal_tokens s <> ∅ /\ text_in (sorted_tokens (principal_tokens s)) (Some (JTexts (sorted_tokens (compile_acl_payload rows).1))) = true <->
  granted rows s.
Proof.
  intros Hs. rewrite text_in_texts, <- tokens_allow by done. generalize (principal_tokens s). intros tokens.
  setoid_rewrite sorted_tokens_elem. split; [by intros [_ ?]|]. intros (t & Ht & Hc). split; [|eauto]. intros ->. set_solver.
Qed.

Lemma shares_deny rows rows' s : Forall sound_row rows -> Forall sound_row rows' ->
  text_in (sorted_tokens (principal_tokens s)) (Some (JTexts (sorted_tokens ((compile_acl_payload rows).2 ∪ (compile_acl_payload rows').2)))) = true <->
  denied rows s \/ denied rows' s.
Proof.
  intros Hs Hs'. rewrite text_in_texts, <- !tokens_deny by done. generalize (principal_tokens s). intros tokens.
  setoid_rewrite sorted_tokens_elem. setoid_rewrite elem_of_union. naive_solver.
Qed.

Lemma no_allows rows : Forall sound_row rows -> (compile_acl_payload rows).1 = ∅ <-> forall a, a ∈ rows -> effect_of a <> EFFECT_ALLOW.
Proof.
  intros Hs. rewrite set_eq. setoid_rewrite compile_allow; [|done]. split.
  - intros He a Ha Hal. destruct (proj1 (Forall_forall _ _) Hs a Ha) as [[t Ht] _]. apply (not_elem_of_empty (C := gset text) t), He. eauto.
  - intros Hno t. split; [intros (a & Ha & _ & He); by destruct (Hno a Ha)|by intros ?%elem_of_empty].
Qed.

Lemma no_tokens rows s : Forall sound_row rows -> principal_tokens s = ∅ -> ~ denied rows s /\ ~ granted rows s.
Proof.
  intros Hs He. rewrite <- tokens_deny, <- tokens_allow by done. rewrite He. split; by intros (t & ?%elem_of_empty & _).
Qed.

Lemma scope_matches (P : Prop) `{Decision P} (yes no : string) : of_string no <> of_string yes ->
  text_in [of_string yes] (Some (JStr (of_string (if bool_decide P then yes else no)))) = true <-> P.
Proof. intros Hne. rewrite text_in_single. case_bool_decide; intuition done. Qed.

Section point.
Context (base : KnowledgeBase) (base_rows : list AccessAssignment) (document : KnowledgeDocument) (document_rows : list AccessAssignment)
  (release index : text) (version : KnowledgeDocumentVersion) (chunk : KnowledgeChunk).
Let p : payload := point_payload base base_rows document document_rows release index version chunk.

Lemma point_fields :
  field (of_string "release_id") p = Some (JStr release) /\ field (of_string "status") p = Some (JStr (of_string "active")) /\
  field (of_string "effective_from") p = Some (_utc_payload (kv_from version)) /\
  field (of_string "effective_to") p = Some (_utc_payload (kv_to version)) /\
  field (of_string "revoked_at") p = Some (_utc_payload (kv_revoked version)) /\
  field (of_string "kb_access_scope") p = Some (JStr (of_string (if bool_decide (kb_access base = ACCESS_PUBLIC) then "public" else "restricted"))) /\
  field (of_string "kb_allow_principal_tokens") p = Some (JTexts (sorted_tokens (compile_acl_payload base_rows).1)) /\
  field (of_string "document_access_scope") p =
    Some (JStr (of_string (if bool_decide ((compile_acl_payload document_rows).1 = ∅) then "inherited" else "restricted"))) /\
  field (of_string "document_allow_principal_tokens") p = Some (JTexts (sorted_tokens (compile_acl_payload document_rows).1)) /\
  field (of_string "deny_principal_tokens") p =
    Some (JTexts (sorted_tokens ((compile_acl_payload base_rows).2 ∪ (compile_acl_payload document_rows).2))).
Proof. split_and!; reflexivity. Qed.

Lemma from_matches now : (forall t, kv_from version = Some t -> datetime t) ->
  payload_matches (Filter [] [IsEmpty "effective_from"; DatetimeLte "effective_from" now] []) p =
  match kv_from version with Some from => from <=? now | None => true end.
Proof.
  intros Hd. rewrite match_filter. cbn [forallb existsb andb negb]. rewrite match_empty, match_lte.
  destruct point_fields as (_ & _ & -> & _). unfold _utc_payload, JOptional.
  destruct (kv_from version) as [t|]; [|done]. cbn [empty_value]. rewrite read_instant by auto.
  by rewrite !orb_false_r, andb_true_r.
Qed.

Lemma to_matches now : (forall t, kv_to version = Some t -> datetime t) ->
  payload_matches (Filter [] [IsEmpty "effective_to"; DatetimeGte "effective_to" now] []) p =
  match kv_to version with Some to => now <=? to | None => true end.
Proof.
  intros Hd. rewrite match_filter. cbn [forallb existsb andb negb]. rewrite match_empty, match_gte.
  destruct point_fields as (_ & _ & _ & -> & _). unfold _utc_payload, JOptional.
  destruct (kv_to version) as [t|]; [|done]. cbn [empty_value]. rewrite read_instant by auto.
  by rewrite !orb_false_r, andb_true_r.
Qed.

Lemma layer_matches scope value allow tokens :
  payload_matches (_acl_layer_filter scope value allow (sorted_tokens tokens)) p = true <->
  text_in [value] (field (of_string scope) p) = true \/ (tokens <> ∅ /\ text_in (sorted_tokens tokens) (field (of_string allow) p) = true).
Proof.
  unfold _acl_layer_filter. rewrite match_filter. cbn [forallb existsb andb negb]. rewrite match_value, andb_true_r. cbn [orb].
  rewrite bool_decide_eq_false_2 by done. cbn [orb]. rewrite orb_true_iff. case_bool_decide as Hn; rewrite sorted_tokens_nil in Hn.
  - cbn [existsb]. rewrite Hn. intuition discriminate.
  - cbn [existsb]. rewrite match_any, orb_false_r. intuition done.
Qed.
Lemma must_matches asked now more : (forall t, kv_from version = Some t \/ kv_to version = Some t -> datetime t) ->
  forallb (fun c => payload_matches c p) ([MatchValue "release_id" asked; MatchValue "status" (of_string "active");
    Filter [] [IsEmpty "effective_from"; DatetimeLte "effective_from" now] [];
    Filter [] [IsEmpty "effective_to"; DatetimeGte "effective_to" now] []; IsEmpty "revoked_at"] ++ more) = true <->
  release = asked /\ _temporally_valid version now = true /\ forallb (fun c => payload_matches c p) more = true.
Proof.
  intros Hdates. destruct point_fields as (Hr & Hst & _ & _ & Hrev & _).
  cbn [app forallb]. rewrite !match_value, match_empty, Hr, Hst, Hrev, from_matches, to_matches by eauto.
  cbn [text_in]. rewrite !andb_true_iff, !bool_decide_eq_true.
  rewrite !elem_of_cons, !elem_of_nil. unfold _temporally_valid, _utc_payload, JOptional. rewrite !andb_true_iff, bool_decide_eq_true.
  destruct (kv_revoked version); cbn [empty_value]; intuition congruence.
Qed.
End point.

Lemma base_access_iff db base s : kb_access base = ACCESS_PUBLIC \/ kb_access base = ACCESS_PRIVATE ->
  su_active s = true -> su_break_glass s = false ->
  user_can_access_knowledge_base db base s = true <->
  ~ denied (grants_on (kb_id base) (base_grants db)) s /\
  (kb_access base = ACCESS_PUBLIC \/ su_public_only s = false /\ is_Some (su_user s) /\ granted (grants_on (kb_id base) (base_grants db)) s).
Proof.
  intros Hkb Ha Hb. unfold user_can_access_knowledge_base. rewrite evaluate_access_iff, Ha, Hb.
  assert (is_public (kb_access base) <-> kb_access base = ACCESS_PUBLIC) as ->.
  { unfold is_public. destruct Hkb as [->| ->]; cbn -[py_lower strip].
    - split; [done|]. intros _. by apply lower_strip_slug.
    - split; [|done]. by rewrite lower_strip_slug. }
  intuition congruence.
Qed.

(** C35: the vector store is asked for exactly what the database lets the subject
    read.  A point written when the grants were as they are passes the query of a
    subject at [now] if and only if it is of the release asked for, its version is
    in force, and the subject can reach its document: neither does the index hide
    readable text, nor does it offer text that must not be read. *)
Theorem index_filter_agrees db base document version chunk release asked index s now
    (Hbase : bases db !! kd_base document = Some base)
    (Haccess : kb_access base = ACCESS_PUBLIC \/ kb_access base = ACCESS_PRIVATE)
    (Hrows : Forall (fun row => sound_row row.2) (base_grants db ++ document_grants db))
    (Hdates : forall t, kv_from version = Some t \/ kv_to version = Some t -> datetime t)
    (Hactive : su_active s = true)
    (Hsubject : su_public_only s = true \/ su_user s = None -> principal_tokens s = ∅) :
  let p := point_payload base (grants_on (kb_id base) (base_grants db)) document (grants_on (kd_id document) (document_grants db))
    release index version chunk in
  payload_matches (build_qdrant_retrieval_filter asked s now) p = true <->
  release = asked /\ _temporally_valid version now = true /\ user_can_access_document db document s = true.
Proof.
  intros p. set (kb_rows := grants_on (kb_id base) (base_grants db)) in *. set (doc_rows := grants_on (kd_id document) (document_grants db)) in *.
  assert (Forall sound_row kb_rows /\ Forall sound_row doc_rows) as [Hkb Hdoc].
  { apply Forall_app in Hrows as [Hrows1 Hrows2]. subst kb_rows doc_rows. unfold grants_on. rewrite Forall_forall in Hrows1, Hrows2.
    split; apply Forall_forall; intros a (row & -> & [_ Hin]%list_elem_of_filter)%list_elem_of_fmap; auto. }
  destruct (point_fields base kb_rows document doc_rows release index version chunk) as (_ & _ & _ & _ & _ & Hks & Hka & Hds & Hda & Hdn).
  fold p in Hks, Hka, Hds, Hda, Hdn.
  pose proof (layer_matches base kb_rows document doc_rows release index version chunk) as Hlayer. fold p in Hlayer.
  pose proof (fun more => must_matches base kb_rows document doc_rows release index version chunk asked now more Hdates) as Hmust. fold p in Hmust.
  unfold build_qdrant_retrieval_filter. destruct (su_break_glass s) eqn:Hglass.
  - rewrite match_filter. cbn [existsb negb]. rewrite bool_decide_eq_true_2, !andb_true_r by done.
    specialize (Hmust []). rewrite app_nil_r in Hmust. rewrite Hmust.
    assert (user_can_access_document db document s = true) as Hacc.
    { apply user_can_access_document_iff. exists base. split; [done|]. split; [|by left].
      unfold user_can_access_knowledge_base. apply evaluate_access_iff. auto. }
    cbn [forallb]. tauto.
  - rewrite match_filter. rewrite (bool_decide_eq_true_2 ([] = [])) by done. rewrite andb_true_r, andb_true_iff, Hmust.
    cbn [forallb]. rewrite !andb_true_iff. rewrite !Hlayer. rewrite Hks, Hka, Hds, Hda.
    assert (su_public_only s = false /\ is_Some (su_user s) \/ principal_tokens s = ∅) as Hknown.
    { destruct (su_public_only s); [by right; auto|]. destruct (su_user s) as [u|]; [left; eauto|by right; auto]. }
    rewrite !shares_allow by done.
    assert (negb (existsb (fun c => payload_matches c p)
      (if bool_decide (sorted_tokens (principal_tokens s) = []) then [] else [MatchAny "deny_principal_tokens" (sorted_tokens (principal_tokens s))])) = true <->
      ~ denied kb_rows s /\ ~ denied doc_rows s) as ->.
    { destruct (decide (sorted_tokens (principal_tokens s) = [])) as [Hn|Hn];
        [rewrite bool_decide_eq_true_2 by exact Hn|rewrite bool_decide_eq_false_2 by exact Hn].
      - apply sorted_tokens_nil in Hn. split; [|done]. intros _. split; by apply no_tokens.
      - cbn [existsb]. rewrite orb_false_r, match_any, negb_true_iff, <- not_true_iff_false, Hdn, shares_deny by done. tauto. }
    assert (text_in [of_string "public"] (Some (JStr (of_string (if bool_decide (kb_access base = ACCESS_PUBLIC) then "public" else "restricted")))) = true
      <-> kb_access base = ACCESS_PUBLIC) as ->.
    { apply scope_matches. discriminate. }
    assert (text_in [of_string "inherited"] (Some (JStr (of_string (if bool_decide ((compile_acl_payload doc_rows).1 = ∅) then "inherited" else "restricted")))) = true
      <-> forall a, a ∈ doc_rows -> effect_of a <> EFFECT_ALLOW) as ->.
    { rewrite <- no_allows by done. apply scope_matches. discriminate. }
    rewrite user_can_access_document_iff, Hglass. fold doc_rows.
    assert (forall P : Prop, (exists b, bases db !! kd_base document = Some b /\ user_can_access_knowledge_base db b s = true /\ (false = true \/ P)) <->
      user_can_access_knowledge_base db base s = true /\ P) as ->.
    { intros P. rewrite Hbase. split; [intros (b & [= <-] & ? & [?|?]); done|intros [? ?]; eauto 6]. }
    rewrite base_access_iff by done. fold kb_rows.
    assert (granted kb_rows s -> su_public_only s = false /\ is_Some (su_user s)) as Hgr.
    { intros Hg. destruct Hknown as [?|He]; [done|]. by destruct (no_tokens kb_rows s Hkb He). }
    tauto.
Qed.
End index_facts.

(** ** The hypotheses hold of what the code writes *)

#[local] Arguments _normalize_text : simpl never.

Section written.
Context `{PyStr} `{PyFold} `{PyInt} `{!PySlugs} `{!PyNames} (order_by_slug : list text -> list text).

(** A subject the code resolves that is nobody in particular has no tokens. *)
Lemma resolved_tokens db user_id key source bg (s := resolve_resource_access_subject order_by_slug db user_id key source bg) :
  su_active s = true -> su_public_only s = true \/ su_user s = None -> principal_tokens s = ∅.
Proof.
  intros Ha Hn. destruct (resolve_active order_by_slug db user_id key source bg s eq_refl Ha) as [(_ & _ & _ & ?)|(user & account & Hu & _ & _ & _)]; [done|].
  exfalso. destruct Hn as [Hp|Hnone]; [|by rewrite Hu in Hnone]. revert Ha Hp Hu. subst s. unfold resolve_resource_access_subject.
  case_bool_decide; [done|]. destruct (match key with Some key => mjoin (key_owners db !! key) | None => user_id end) as [u|]; [|done].
  destruct (accounts (people db) !! u); [|done]. by destruct (_ || _).
Qed.

(** The rows that the code writes have a target and an effect. *)
Lemma validated_rows_sound db grants rows : validated_grants db grants = Ok rows -> Forall sound_row rows.
Proof.
  intros Hv. apply Forall_forall. intros a Ha. apply validated_from_rows in Hv as [_ Hout]. destruct (Hout a Ha) as (g & key & _ & Hg).
  pose proof (validated_grant_row db g key a (MkSubject None ∅ None ∅ false false false) Hg) as (_ & Heff & Hin & _).
  assert (aa_effect a = grant_effect g /\ is_Some (_assignment_token a)) as [He Ht].
  { revert Hg. unfold validated_grant. fold (grant_effect g). repeat case_bool_decide; simpl; try done; unfold mbind, res_bind.
    - destruct (target_int (gr_target g)); [|done]. destruct (accounts _ !! _); [|done]. destruct (_ || _); [done|]. intros [= _ <-]. by split.
    - destruct (target_int (gr_target g)); [|done]. case_bool_decide; [|done]. intros [= _ <-]. by split.
    - destruct (_normalize_text (Some (target_str (gr_target g)))) as [d|] eqn:Hn; [|done]. intros [= _ <-]. split; [done|].
      unfold _assignment_token. cbn [aa_user aa_group aa_department aa_role]. rewrite (normalize_text_idem _ _ Hn). by eexists.
    - destruct (_normalize_text (Some (target_str (gr_target g)))) as [r|] eqn:Hn; [|done]. destruct (is_valid_role_slug r); [|done].
      intros [= _ <-]. split; [done|]. unfold _assignment_token. cbn [aa_user aa_group aa_department aa_role].
      rewrite (normalize_text_idem _ _ Hn). by eexists. }
  split; [done|]. rewrite He. unfold VALID_EFFECTS in Hin. rewrite !elem_of_cons, elem_of_nil in Hin. tauto.
Qed.
End written.

(** ** A vector store *)

Fixpoint eval_condition (instant : text -> option Z) (c : Condition) (p : payload) : bool :=
  match c with
  | MatchValue key value => text_in [value] (field (of_string key) p)
  | MatchAny key values => text_in values (field (of_string key) p)
  | IsEmpty key => empty_value (field (of_string key) p)
  | DatetimeLte key bound =>
      match field (of_string key) p with Some (JStr t) => match instant t with Some i => i <=? bound | None => false end | _ => false end
  | DatetimeGte key bound =>
      match field (of_string key) p with Some (JStr t) => match instant t with Some i => bound <=? i | None => false end | _ => false end
  | Filter must should must_not =>
      forallb (fun c => eval_condition instant c p) must && (bool_decide (should = []) || existsb (fun c => eval_condition instant c p) should) &&
      negb (existsb (fun c => eval_condition instant c p) must_not)
  end.

(** "YYYY-MM-DDTHH:MM:SS[.ffffff]Z" *)
Definition read_iso (t : text) : option Z :=
  match t with
  | y1 :: y2 :: y3 :: y4 :: _ :: m1 :: m2 :: _ :: d1 :: d2 :: _ :: h1 :: h2 :: _ :: n1 :: n2 :: _ :: s1 :: s2 :: rest =>
      let day := days_from_civil (digits_value [y1; y2; y3; y4], digits_value [m1; m2], digits_value [d1; d2]) in
      let second := (digits_value [h1; h2] * 60 + digits_value [n1; n2]) * 60 + digits_value [s1; s2] in
      let us := match rest with _ :: u1 :: u2 :: u3 :: u4 :: u5 :: u6 :: _ => digits_value [u1; u2; u3; u4; u5; u6] | _ => 0 end in
      Some (day * us_per_day + second * 1000000 + us)
  | _ => None
  end.

Lemma digits_value_snoc ds d : digits_value (ds ++ [d]) = digits_value ds * 10 + (d - 48).
Proof. unfold digits_value. by rewrite foldl_app. Qed.

Lemma digits_value_pad width n : 0 <= n < 10 ^ Z.of_nat width -> digits_value (pad_digits width n) = n.
Proof.
  revert n. induction width as [|w IH]; intros n Hn; [simpl in *; unfold digits_value; simpl; lia|].
  rewrite Nat2Z.inj_succ, Z.pow_succ_r in Hn by lia. cbn [pad_digits]. rewrite digits_value_snoc, IH.
  - pose proof (Z.div_mod n 10). lia.
  - split; [apply Z.div_pos; lia|apply Z.div_lt_upper_bound; lia].
Qed.

Lemma read_iso_spec y m d h n s us rest :
  0 <= y < 10000 -> 0 <= m < 100 -> 0 <= d < 100 -> 0 <= h < 100 -> 0 <= n < 100 -> 0 <= s < 100 ->
  match rest with _ :: u1 :: u2 :: u3 :: u4 :: u5 :: u6 :: _ => digits_value [u1; u2; u3; u4; u5; u6] | _ => 0 end = us ->
  read_iso (pad_digits 4 y ++ [45] ++ pad_digits 2 m ++ [45] ++ pad_digits 2 d ++ [84] ++ pad_digits 2 h ++ [58] ++ pad_digits 2 n ++ [58] ++
    pad_digits 2 s ++ rest) = Some (days_from_civil (y, m, d) * us_per_day + ((h * 60 + n) * 60 + s) * 1000000 + us).
Proof.
  intros Hy Hm Hd Hh Hn Hs Hus.
  transitivity (Some (days_from_civil (digits_value (pad_digits 4 y), digits_value (pad_digits 2 m), digits_value (pad_digits 2 d)) * us_per_day +
    ((digits_value (pad_digits 2 h) * 60 + digits_value (pad_digits 2 n)) * 60 + digits_value (pad_digits 2 s)) * 1000000 + us)).
  - rewrite <- Hus. reflexivity.
  - by rewrite !digits_value_pad.
Qed.

Lemma isoformat_parts t : datetime t -> exists y m d h n s,
  0 <= y < 10000 /\ 0 <= m < 100 /\ 0 <= d < 100 /\ 0 <= h < 100 /\ 0 <= n < 100 /\ 0 <= s < 100 /\
  t = days_from_civil (y, m, d) * us_per_day + ((h * 60 + n) * 60 + s) * 1000000 + t mod 1000000 /\
  isoformat t = pad_digits 4 y ++ [45] ++ pad_digits 2 m ++ [45] ++ pad_digits 2 d ++ [84] ++ pad_digits 2 h ++ [58] ++ pad_digits 2 n ++ [58] ++
    pad_digits 2 s ++ [46] ++ pad_digits 6 (t mod 1000000).
Proof.
  unfold datetime, isoformat. intros Hd. destruct (civil_from_days (t / us_per_day)) as [[y m] d] eqn:Hc. cbn [fst] in Hd.
  destruct (civil_bounds _ _ _ _ Hc) as [Hm Hday]. pose proof (days_from_civil_from_days (t / us_per_day)) as Hback. rewrite Hc in Hback.
  set (u := t mod us_per_day). assert (0 <= u < 86400000000) as Hu by (apply Z.mod_pos_bound; done).
  assert (u mod 1000000 = t mod 1000000) as Hus.
  { subst u. rewrite (Z.div_mod t us_per_day) at 2 by done. unfold us_per_day.
    replace (86400000000 * (t / 86400000000) + t mod 86400000000) with (t mod 86400000000 + 86400 * (t / 86400000000) * 1000000) by lia.
    by rewrite Z.mod_add. }
  exists y, m, d, (u / 3600000000), (u / 60000000 mod 60), (u / 1000000 mod 60).
  assert (0 <= u / 3600000000 < 100) by (clear -Hu; Z.to_euclidean_division_equations; lia).
  assert (0 <= u / 60000000 mod 60 < 100 /\ 0 <= u / 1000000 mod 60 < 100) as [? ?] by (split; (assert (forall x, 0 <= x mod 60 < 100) as Hx; [intros x; pose proof (Z.mod_pos_bound x 60); lia|apply Hx])).
  do 6 (split; [lia|]). split.
  - rewrite Hback, <- Hus. pose proof (time_of_day u) as Htod. pose proof (Z.div_mod t us_per_day ltac:(done)). fold u in H. lia.
  - by rewrite Hus.
Qed.

Lemma read_iso_isoformat t : datetime t -> read_iso (isoformat_short t ++ of_string "Z") = Some t.
Proof.
  intros (y & m & d & h & n & s & Hy & Hm & Hd & Hh & Hn & Hs & Ht & Hiso)%isoformat_parts. unfold isoformat_short. rewrite Hiso.
  pose proof (Z.mod_pos_bound t 1000000 ltac:(lia)) as Hus. destruct (Z.eqb_spec (t mod 1000000) 0) as [Hz|Hz].
  - assert (forall rest : text, take 19 (pad_digits 4 y ++ [45] ++ pad_digits 2 m ++ [45] ++ pad_digits 2 d ++ [84] ++ pad_digits 2 h ++ [58] ++ pad_digits 2 n ++ [58] ++
      pad_digits 2 s ++ rest) = pad_digits 4 y ++ [45] ++ pad_digits 2 m ++ [45] ++ pad_digits 2 d ++ [84] ++ pad_digits 2 h ++ [58] ++ pad_digits 2 n ++ [58] ++
      pad_digits 2 s) as Htake by reflexivity.
    rewrite Htake. rewrite <- !app_assoc. rewrite (read_iso_spec y m d h n s 0) by done. f_equal. lia.
  - rewrite <- !app_assoc. rewrite (read_iso_spec y m d h n s (t mod 1000000)); [f_equal; lia|done..|].
    transitivity (digits_value (pad_digits 6 (t mod 1000000))); [reflexivity|]. apply digits_value_pad. simpl. lia.
Qed.

Definition simple_store : Qdrant := {| payload_matches := eval_condition read_iso; stored_instant := read_iso |}.

#[export] Instance simple_store_laws : @QdrantLaws simple_store.
Proof. constructor; try reflexivity. exact read_iso_isoformat. Qed.

(** ** Witness *)

#[local] Existing Instance ascii_str.
#[local] Existing Instance ascii_fold.
#[local] Existing Instance ascii_slugs.

Definition office_base : KnowledgeBase := MkKnowledgeBase (of_string "k1") (of_string "active") ACCESS_PUBLIC 1.
Definition plan_version : KnowledgeDocumentVersion := MkVersion (of_string "v1") (of_string "d1") (of_string "published") (Some 1773576000000042) None None
  (of_string "plan.txt") (of_string "text/plain") (of_string "official") (of_string "internal") None.
Definition plan_text : text := of_string "Move in May".
Definition plan_hash : text := Eval vm_compute in chunk_plaintext_hash 0 plan_text.
Definition plan_chunk : KnowledgeChunk := MkChunk (of_string "c1") (of_string "v1") 0 plan_text plan_hash None (Some 1) None None.
Definition plan_point : payload :=
  point_payload office_base [] plan (grants_on (of_string "d1") (document_grants office)) (of_string "r1") (of_string "i1") plan_version plan_chunk.

Definition noon : Z := 1773576000000043.

#[local] Existing Instance simple_store.

Lemma office_rows_sound : Forall (fun row : text * AccessAssignment => sound_row row.2) (base_grants office ++ document_grants office).
Proof. constructor; [|constructor]. split; [eexists; vm_compute; reflexivity|right; reflexivity]. Qed.

Lemma index_filter_agrees_witness :
  payload_matches (build_qdrant_retrieval_filter (of_string "r1") (caller 1) noon) plan_point = true /\
  payload_matches (build_qdrant_retrieval_filter (of_string "r1") (caller 2) noon) plan_point = false.
Proof.
  assert (Hdates : forall t, kv_from plan_version = Some t \/ kv_to plan_version = Some t -> datetime t).
  { intros t [Ht|Ht]; [injection Ht as <-; vm_compute; split; discriminate|discriminate Ht]. }
  assert (Ha : su_active (caller 1) = true) by (vm_compute; reflexivity).
  assert (Hs : su_public_only (caller 1) = true \/ su_user (caller 1) = None -> principal_tokens (caller 1) = ∅).
  { intros [Hs|Hs]; vm_compute in Hs; discriminate Hs. }
  split.
  - apply (proj2 (index_filter_agrees office office_base plan plan_version plan_chunk (of_string "r1") (of_string "r1") (of_string "i1") (caller 1) noon
      eq_refl (or_introl eq_refl) office_rows_sound Hdates Ha Hs)).
    split; [reflexivity|]. split; vm_compute; reflexivity.
  - vm_compute. reflexivity.
Defined.
