(* ===== verification/RetrievalFacts.v ===== *)
(** * What retrieval shows

    Whatever the vector store, the reranker and stale payloads answer, the evidence
    is authorized against the database ([evidence_is_readable]) and bounded
    ([retrieval_bounded]); rankings are fused as reciprocal ranks say
    ([fusion_correct]). *)

From S2P Require Import Prelude Money Text Json JsonParse PyTime PyText Fences Rbac RbacFacts Roles Access AccessFacts Regex Extractor Retrieval IndexFacts.
From Stdlib Require Import QArith.

#[local] Open Scope Z_scope.

(** ** The policy and the context *)

Section retrieval_facts.
Context `{PyStr} `{PyFold} `{PyInt} `{PyRepr} `{PyNumber}.

Lemma bounded_int_bounds value key default lo hi n : lo <= hi -> bounded_int value key default lo hi = Ok n -> lo <= n <= hi.
Proof. intros Hle (x & _ & [= <-])%res_bind_inv. lia. Qed.

Lemma clamp_float_bounds lo hi x : (lo <= hi)%Q -> (lo <= clamp_float lo hi x <= hi)%Q.
Proof.
  intros Hle. unfold clamp_float. set (low := match x with Finite q => _ | _ => _ end).
  assert (low <= hi)%Q as Hlow.
  { subst low. destruct x as [q|[]|]; [|done|apply Qle_refl..]. destruct (Qltb q hi) eqn:Hq; [|apply Qle_refl].
    apply Qltb_lt in Hq. by apply Qlt_le_weak. }
  destruct (Qltb lo low) eqn:Hl; [apply Qltb_lt in Hl; split; [by apply Qlt_le_weak|done]|split; [apply Qle_refl|done]].
Qed.

Lemma bounded_float_bounds value key default lo hi q : (lo <= hi)%Q -> bounded_float value key default lo hi = Ok q -> (lo <= q <= hi)%Q.
Proof. intros Hle (x & _ & [= <-])%res_bind_inv. by apply clamp_float_bounds. Qed.

(** Whatever an agent's version asks for - floats that are infinite or not numbers
    included - the policy stays within its limits. *)
Lemma from_dict_bounds settings raw p : from_dict settings raw = Ok p ->
  1 <= po_candidate_limit p <= 200 /\ 1 <= po_final_limit p <= _MAX_FINAL_RESULTS /\ 1 <= po_rrf_k p <= 1000 /\
  1 <= po_per_document p <= 10 /\ 128 <= po_token_budget p <= _MAX_CONTEXT_TOKENS /\ (0 <= po_answerability p <= 1)%Q /\
  (0 <= po_dense_weight p <= 10)%Q /\ (0 <= po_sparse_weight p <= 10)%Q.
Proof.
  unfold from_dict. intros Hp. do 10 (apply res_bind_inv in Hp as (? & ? & Hp)). injection Hp as <-.
  repeat match goal with
  | Hb : bounded_int _ _ _ _ _ = Ok _ |- _ => apply bounded_int_bounds in Hb; [|done]
  | Hb : bounded_float _ _ _ _ _ = Ok _ |- _ => apply bounded_float_bounds in Hb; [|done]
  end.
  cbn [po_candidate_limit po_final_limit po_rrf_k po_per_document po_token_budget po_answerability po_dense_weight po_sparse_weight].
  repeat (split; [assumption|]). assumption.
Qed.

Lemma first_bytes_length n t : (length (utf8 (first_bytes n t)) <= n)%nat.
Proof.
  revert n. induction t as [|c t IH]; intros n; cbn [first_bytes]; [simpl; lia|].
  destruct (Nat.leb_spec (length (utf8_char c)) n) as [Hle|]; [|simpl; lia].
  change (utf8 (c :: first_bytes (n - length (utf8_char c)) t)) with (utf8_char c ++ utf8 (first_bytes (n - length (utf8_char c)) t)).
  rewrite length_app. specialize (IH (n - length (utf8_char c))%nat). lia.
Qed.

Lemma pack_bounds budget evidence : forall blocks citations used truncated blocks' citations' used' truncated',
  used <= budget -> pack budget evidence blocks citations used truncated = (blocks', citations', used', truncated') ->
  used' <= budget /\ exists n, citations' = citations ++ (ev_citation <$> take n evidence).
Proof.
  induction evidence as [|item evidence IH]; intros blocks citations used truncated b' c' u' t' Hu; cbn [pack].
  - intros [= <- <- <- <-]. split; [done|]. exists 0%nat. by rewrite app_nil_r.
  - destruct (Z.leb_spec (budget - used - overhead) 0) as [Hr|Hr].
    { intros [= <- <- <- <-]. split; [done|]. exists 0%nat. by rewrite app_nil_r. }
    assert (Hmore : forall n, citations ++ (ev_citation <$> take (S n) (item :: evidence)) =
      (citations ++ [ev_citation item]) ++ (ev_citation <$> take n evidence)) by (intros n; simpl; by rewrite <- app_assoc).
    destruct (Z.ltb_spec (budget - used) (estimated_tokens (ev_text item))) as [Hl|Hl]; [case_bool_decide|].
    + intros [Hle [n ->]]%IH; [split; [done|]; exists (S n); by rewrite Hmore|].
      unfold estimated_tokens, overhead in *. pose proof (first_bytes_length (Z.to_nat (Z.max 1 (budget - used - 80))) (ev_text item)). lia.
    + intros [= <- <- <- <-]. split; [done|]. exists 0%nat. by rewrite app_nil_r.
    + intros [Hle [n ->]]%IH; [split; [done|]; exists (S n); by rewrite Hmore|lia].
Qed.

Lemma pack_context_bounds evidence budget : 0 <= budget ->
  pk_tokens (_pack_context evidence budget) <= budget /\
  exists n, pk_citations (_pack_context evidence budget) = ev_citation <$> take n evidence.
Proof.
  intros Hb. unfold _pack_context. destruct (pack budget evidence [] [] 0 false) as [[[bl ci] us] tr] eqn:Hp.
  apply pack_bounds in Hp as [? [n ->]]; [|done]. simpl. eauto.
Qed.

(** ** Selecting *)

(** The evidence a candidate gives. *)
Definition shown (c : _AuthorizedCandidate) (e : RetrievedEvidence) : Prop :=
  ev_citation e = _citation_for c /\ ev_text e = au_context_text c /\ ev_child_text e = au_child_text c.

Definition from_document (document : text) (es : list RetrievedEvidence) : list RetrievedEvidence :=
  filter (fun e => ci_document (ev_citation e) = document) es.

(** What the loop keeps: every piece comes from a candidate it was given, no
    document gives more than its share, and the list is short. *)
Definition selection_ok (policy : RetrievalPolicy) (by_key : gmap text _AuthorizedCandidate) (es : list RetrievedEvidence) : Prop :=
  Forall (fun e => exists k c, by_key !! k = Some c /\ shown c e) es /\
  (forall d, Z.of_nat (length (from_document d es)) <= po_per_document policy) /\
  Z.of_nat (length es) <= po_final_limit policy.

Lemma select_ok policy by_key reranked : forall per used es,
  selection_ok policy by_key es -> Z.of_nat (length es) < po_final_limit policy ->
  (forall d, default 0 (per !! d) = Z.of_nat (length (from_document d es))) ->
  selection_ok policy by_key (select policy by_key reranked per used es).
Proof.
  induction reranked as [|item reranked IH]; intros per used es Hok Hshort Hper; cbn [select]; [done|].
  destruct (by_key !! rr_key (rk_candidate item)) as [c|] eqn:Hc; [|by apply IH].
  destruct (Z.leb_spec (po_per_document policy) (default 0 (per !! kd_id (au_document c)))) as [Hfull|Hroom]; [by apply IH|].
  cbn [orb]. case_bool_decide as Hused; [by apply IH|].
  set (e := MkEvidence _ _ _ _ _ _ _ _).
  assert (Hcount : forall d, Z.of_nat (length (from_document d (es ++ [e]))) =
    default 0 (<[kd_id (au_document c) := default 0 (per !! kd_id (au_document c)) + 1]> per !! d)).
  { intros d. unfold from_document. rewrite filter_app, length_app, filter_cons, filter_nil. cbn [ev_citation e _citation_for ci_document].
    rewrite lookup_insert, Hper. fold (from_document d es). case_decide as Hd; [subst d|].
    - simpl. unfold from_document. lia.
    - rewrite Hper. simpl. unfold from_document. lia. }
  assert (Hok' : selection_ok policy by_key (es ++ [e])).
  { destruct Hok as (Hall & Hdocs & _). split; [|split].
    - apply Forall_app. split; [done|]. constructor; [|constructor]. exists (rr_key (rk_candidate item)), c. by split.
    - intros d. rewrite Hcount, lookup_insert. case_decide; [simpl; lia|]. rewrite Hper. apply Hdocs.
    - rewrite length_app. simpl. lia. }
  rewrite length_app in *. cbn [length] in *.
  destruct (Z.leb_spec (po_final_limit policy) (Z.of_nat (length es + 1))); [done|].
  apply IH; [done|rewrite length_app; simpl; lia|]. intros d. by rewrite Hcount.
Qed.

(** ** Where candidates come from *)

Lemma add_to_Forall (P : FusedCandidate -> Prop) chunk fresh f items :
  Forall P items -> P fresh -> (forall item, P item -> P (f item)) -> Forall P (add_to chunk fresh f items).
Proof.
  intros Hall Hfresh Hf. induction Hall as [|item items Hi Hall IH]; simpl; [by auto|].
  case_bool_decide; constructor; auto.
Qed.

Lemma add_ranking_Forall (P : FusedCandidate -> Prop) release index ch k weight hits : forall rank items,
  Forall P items ->
  (forall hit, P (MkFused (chunk_of hit) release index (hit_payload hit) 0 None None None None)) ->
  (forall rank hit item, P item -> P (add_hit ch k weight rank hit item)) ->
  Forall P (add_ranking release index ch k weight rank hits items).
Proof.
  induction hits as [|hit hits IH]; intros rank items Hall Hfresh Hf; simpl; [done|].
  apply IH; [|done..]. destruct (counted hit); [|done]. by apply add_to_Forall; auto.
Qed.

Lemma fusion_Forall (P : FusedCandidate -> Prop) rankings release index k fused :
  reciprocal_rank_fusion rankings release index k = Ok fused ->
  (forall hit, P (MkFused (chunk_of hit) release index (hit_payload hit) 0 None None None None)) ->
  (forall ch weight rank hit item, P item -> P (add_hit ch k weight rank hit item)) -> Forall P fused.
Proof.
  unfold reciprocal_rank_fusion. destruct (k <? 1); [done|]. intros [= <-] Hfresh Hf. rewrite merge_sort_Permutation.
  assert (forall items, Forall P items -> Forall P (foldl (fun items '(ch, hits, weight) =>
    if Qltb 0 weight then add_ranking release index ch k weight 1 hits items else items) items rankings)) as Hfold.
  { induction rankings as [|[[ch hits] weight] rankings IH]; intros items Hall; simpl; [done|]. apply IH.
    destruct (Qltb 0 weight); [|done]. apply add_ranking_Forall; auto. }
  by apply Hfold.
Qed.

Lemma all_candidates_release search query s now policy : forall sources fused errors,
  all_candidates search query s now policy sources = Ok (fused, errors) ->
  Forall (fun c => exists source, source ∈ sources /\ fc_release c = kr_id (rs_release source)) fused.
Proof.
  induction sources as [|source sources IH]; intros fused errors; cbn [all_candidates]; [intros [= <- <-]; constructor|].
  assert (Hmore : forall fused, Forall (fun c => exists source, source ∈ sources /\ fc_release c = kr_id (rs_release source)) fused ->
    Forall (fun c => exists source', source' ∈ source :: sources /\ fc_release c = kr_id (rs_release source')) fused).
  { intros l Hl. eapply Forall_impl; [exact Hl|]. intros c (src & Hin & ?). exists src. split; [by right|done]. }
  destruct (candidates_of search query s now policy source) as [here|e] eqn:Hc.
  - intros ([rest es] & Hrest & [= <- <-])%res_bind_inv. apply Forall_app. split; [|by eapply Hmore, IH].
    unfold candidates_of in Hc. apply res_bind_inv in Hc as (hits & _ & Hf).
    eapply (fusion_Forall (fun c => exists source', source' ∈ source :: sources /\ fc_release c = kr_id (rs_release source'))); [exact Hf|..].
    + intros hit. exists source. split; [by left|done].
    + intros [] weight rank hit item Hi; exact Hi.
  - destruct (po_fail_closed policy); [done|]. intros ([rest es] & Hrest & [= <- <-])%res_bind_inv. by eapply Hmore, IH.
Qed.

(** Each row is under its primary key. *)
Definition keyed_library (lib : Library) : Prop :=
  keyed (acl lib) /\ map_Forall (fun id d => kd_id d = id) (documents (acl lib)).

(** A release that the agent's version may use on the subject's behalf. *)
Definition bound_release (lib : Library) (agent_version : text) (s : ResourceAccessSubject) (release : text) : Prop :=
  exists b base r id, b ∈ bindings lib /\ kn_version b = agent_version /\ kn_status b = of_string "published" /\
    bases (acl lib) !! kn_base b = Some base /\ kb_status base = of_string "active" /\
    user_can_access_knowledge_base (acl lib) base s = true /\
    releases lib !! id = Some r /\ kr_id r = release /\ kr_base r = kb_id base /\ one_of ["published"; "archived"] (kr_status r) = true.

Lemma release_for_ok lib base b r : release_for lib base b = Ok (Some r) ->
  (exists id, releases lib !! id = Some r) /\ kr_base r = kb_id base /\ one_of ["published"; "archived"] (kr_status r) = true.
Proof.
  unfold release_for. case_bool_decide.
  - destruct (kn_pinned b) as [[|c p]|]; [done| |done]. destruct (releases lib !! (c :: p)) as [release|] eqn:Hr; [|done].
    destruct (_ && _) eqn:Hok; [|done]. intros [= <-]. apply andb_true_iff in Hok as [?%bool_decide_eq_true ?]. eauto.
  - unfold scalar_one_or_none. destruct (rows_of _ _) as [|r' [|? ?]] eqn:Hrows; [done| |done]. intros [= <-].
    assert (r' ∈ [r']) as Hin by by left. rewrite <- Hrows in Hin. apply list_elem_of_filter in Hin as [Hok Hin].
    apply list_elem_of_fmap in Hin as ([id row] & -> & Hin%elem_of_map_to_list). simpl in *.
    apply andb_true_iff in Hok as [[?%bool_decide_eq_true _]%andb_true_iff Hs]. split; [by exists id|]. split; [done|].
    unfold one_of in *. simpl in *. rewrite orb_false_r in Hs. by rewrite Hs.
Qed.

Lemma sources_of_ok lib allowed bs sources source :
  sources_of lib allowed bs = Ok sources -> source ∈ sources ->
  exists b, b ∈ bs /\ allowed !! kn_base b = Some (rs_base source) /\ (exists id, releases lib !! id = Some (rs_release source)) /\
    kr_base (rs_release source) = kb_id (rs_base source) /\ one_of ["published"; "archived"] (kr_status (rs_release source)) = true.
Proof.
  revert sources. induction bs as [|b bs IH]; intros sources; cbn [sources_of]; [intros [= <-]; by intros ?%elem_of_nil|].
  assert (Hskip : forall sources, sources_of lib allowed bs = Ok sources -> source ∈ sources -> exists b', b' ∈ b :: bs /\
    allowed !! kn_base b' = Some (rs_base source) /\ (exists id, releases lib !! id = Some (rs_release source)) /\
    kr_base (rs_release source) = kb_id (rs_base source) /\ one_of ["published"; "archived"] (kr_status (rs_release source)) = true).
  { intros l Hl Hin. destruct (IH l Hl Hin) as (b' & ? & Hrest). exists b'. split; [by right|done]. }
  destruct (allowed !! kn_base b) as [base|] eqn:Hb; [|by apply Hskip].
  intros (release & Hrel & Hs)%res_bind_inv. destruct release as [release|]; [|exact (Hskip _ Hs)].
  destruct (head _) as [index|]; [|exact (Hskip _ Hs)]. apply res_bind_inv in Hs as (rest & Hrest & [= <-]).
  intros [->|Hin]%elem_of_cons; [|exact (Hskip _ Hrest Hin)]. exists b. split; [by left|]. split; [done|]. cbn [rs_release rs_base]. by apply (release_for_ok lib base b).
Qed.

Lemma resolved_sources lib agent_version s sources source : keyed_library lib ->
  _resolve_sources lib agent_version s = Ok sources -> source ∈ sources ->
  bound_release lib (av_id agent_version) s (kr_id (rs_release source)).
Proof.
  intros [Hk _]. unfold _resolve_sources. destruct (_ <? _)%nat; [done|]. intros Hs Hin.
  destruct (sources_of_ok _ _ _ _ _ Hs Hin) as (b & Hb & Hallowed & [id Hr] & Hbase & Hst).
  apply dict_of_Some in Hallowed. apply list_elem_of_fmap in Hallowed as (base & [= Hkb <-] & Hbs).
  rewrite filter_bases_agrees in Hbs. apply list_elem_of_filter in Hbs as [Hacc Hbs]. apply list_elem_of_filter in Hbs as [Hact Hbs].
  unfold bases_in in Hbs. apply list_elem_of_fmap in Hbs as ([key row] & Heq & [_ Hrow%elem_of_map_to_list]%list_elem_of_filter).
  simpl in Heq. subst row. assert (b ∈ filter (fun b => kn_version b = av_id agent_version /\ kn_status b = of_string "published") (bindings lib)) as Hfil.
  { rewrite <- (merge_sort_Permutation binding_before). eapply subseteq_take; exact Hb. }
  apply list_elem_of_filter in Hfil as [[? ?] ?]. exists b, (rs_base source), (rs_release source), id.
  repeat (split; [done|]). split; [|done]. rewrite Hkb. by rewrite (Hk _ _ Hrow).
Qed.

(** ** Authorizing *)

(** The text shown with a chunk is the chunk's own or its parent's; either way that
    of a row of the same version, whose hash it has. *)
Definition shown_context (lib : Library) (chunk : KnowledgeChunk) (t : text) : Prop :=
  exists context, (context = chunk \/ exists parent, kc_parent chunk = Some parent /\ chunks lib !! parent = Some context) /\
    kc_version context = kc_version chunk /\ chunk_plaintext_hash (kc_index context) t = kc_hash context.

(** A candidate kept: its rows are as the database has them, the subject may read
    its document, and its text is the one that was indexed. *)
Definition stands (lib : Library) (s : ResourceAccessSubject) (now : Z) (a : _AuthorizedCandidate) : Prop :=
  chunk_row lib (fc_chunk (au_fused a)) = Some (au_chunk a, au_version a, au_document a) /\
  user_can_access_document (acl lib) (au_document a) s = true /\
  kd_status (au_document a) = of_string "active" /\ kd_revoked (au_document a) = None /\ kd_deleted (au_document a) = None /\
  one_of ["published"; "superseded"] (kv_status (au_version a)) = true /\ _temporally_valid (au_version a) now = true /\
  (fc_release (au_fused a), kv_id (au_version a)) ∈ release_documents lib /\
  chunk_plaintext_hash (kc_index (au_chunk a)) (au_child_text a) = kc_hash (au_chunk a) /\
  shown_context lib (au_chunk a) (au_context_text a).

Lemma authorized_candidate_ok decrypt lib c row a :
  authorized_candidate decrypt lib c row = Ok (Some a) ->
  au_fused a = c /\ (au_chunk a, au_version a, au_document a) = row /\
  chunk_plaintext_hash (kc_index (au_chunk a)) (au_child_text a) = kc_hash (au_chunk a) /\
  shown_context lib (au_chunk a) (au_context_text a).
Proof.
  destruct row as [[chunk version] document]. unfold authorized_candidate. intros (child & _ & Ha)%res_bind_inv. revert Ha.
  case_bool_decide as Hhash; cbn [negb]; [|done]. set (context := match kc_parent chunk with Some _ => _ | _ => _ end).
  assert (context = chunk \/ exists parent, kc_parent chunk = Some parent /\ chunks lib !! parent = Some context) as Hcontext.
  { unfold context. destruct (kc_parent chunk) as [[|x p]|]; [by left| |by left].
    destruct (chunks lib !! (x :: p)) as [row|] eqn:Hrow; [right; by exists (x :: p)|by left]. }
  case_bool_decide as Hver; cbn [negb]; [|done].
  case_bool_decide as Hsame; [intros [= <-]; split_and!; try done; exists chunk; split_and!; [by left|done..]|].
  intros (ctext & _ & Ha)%res_bind_inv. revert Ha. case_bool_decide; cbn [negb]; [|done]. intros [= <-].
  split_and!; try done. by exists context.
Qed.

Lemma authorized_candidates_elem decrypt lib prelim : forall l a,
  authorized_candidates decrypt lib prelim = Ok l -> a ∈ l ->
  exists c row, (c, row) ∈ prelim /\ authorized_candidate decrypt lib c row = Ok (Some a).
Proof.
  induction prelim as [|[c row] prelim IH]; intros l a; cbn [authorized_candidates]; [intros [= <-]; by intros ?%elem_of_nil|].
  intros (one & Hone & Hl)%res_bind_inv. apply res_bind_inv in Hl as (rest & Hrest & [= <-]).
  assert (a ∈ rest -> exists c' row', (c', row') ∈ (c, row) :: prelim /\ authorized_candidate decrypt lib c' row' = Ok (Some a)) as Htail.
  { intros Hin. destruct (IH rest a Hrest Hin) as (c' & row' & ? & ?). exists c', row'. split; [by right|done]. }
  destruct one as [a'|]; [|done]. intros [->|Hin]%elem_of_cons; [|by apply Htail]. exists c, row. split; [by left|done].
Qed.

Lemma post_authorized_stands decrypt lib candidates s now l a : keyed_library lib ->
  _post_authorize_candidates decrypt lib candidates s now = Ok l -> a ∈ l ->
  stands lib s now a /\ au_fused a ∈ candidates.
Proof.
  intros [Hk Hdk]. unfold _post_authorize_candidates. set (rows := omap _ _). intros Hl Ha.
  destruct (authorized_candidates_elem _ _ _ _ _ Hl Ha) as (c & row & Hin & Hone).
  apply list_elem_of_filter in Hin as [Hst Hin].
  assert (Hrows : forall c row, (c, row) ∈ rows -> chunk_row lib (fc_chunk c) = Some row /\ c ∈ candidates).
  { intros c' row' (c'' & Hc'' & Heq)%list_elem_of_omap. apply bind_Some in Heq as (row'' & Hrow & [= <- <-]). split; [done|].
    eapply subseteq_take; exact Hc''. }
  destruct (Hrows c row Hin) as [Hrow Hc].
  destruct (authorized_candidate_ok _ _ _ _ _ Hone) as (Hf & Hr & Hhash & Htext). subst c. split; [|done].
  destruct row as [[chunk version] document]. injection Hr as Hchunk Hversion Hdocument. unfold candidate_stands in Hst.
  rewrite !andb_true_iff, !bool_decide_eq_true in Hst.
  destruct Hst as (((((((((((((Hrel & Hal) & Hact) & Hrev) & Hdel) & Hvs) & Hval) & Hmem) & _) & _) & _) & _) & _) & _).
  rewrite elem_of_list_to_set, filter_documents_agrees in Hal by done.
  apply list_elem_of_fmap in Hal as (d' & Heq & [Hacc Hd']%list_elem_of_filter).
  assert (document = d') as <-.
  { apply elem_of_remove_dups, list_elem_of_fmap in Hd' as ([c' [[ch' v'] d'']] & -> & Hin'). simpl in *.
    destruct (Hrows _ _ Hin') as [Hrow' _]. unfold chunk_row in Hrow, Hrow'.
    apply bind_Some in Hrow as (x & _ & Hrow). apply bind_Some in Hrow as (y & _ & Hrow). apply bind_Some in Hrow as (z & Hz & Hzd). injection Hzd as Hx1 Hy1 Hzd.
    apply bind_Some in Hrow' as (x' & _ & Hrow'). apply bind_Some in Hrow' as (y' & _ & Hrow'). apply bind_Some in Hrow' as (z' & Hz' & Hzd'). injection Hzd' as Hx2 Hy2 Hzd'.
    subst z z'. pose proof (Hdk _ _ Hz) as H1'. pose proof (Hdk _ _ Hz') as H2'. simpl in H1', H2'. congruence. }
  unfold stands. rewrite Hchunk, Hversion, Hdocument in *. by repeat (split; [assumption|]).
Qed.

(** ** The whole call *)

Section call_facts.
Context (search : KnowledgeIndexVersion -> text -> Condition -> RetrievalPolicy -> res (list KnowledgeSearchHit * list KnowledgeSearchHit))
  (decrypt_text : text -> text -> res text) (reranks : reranker) (settings : Settings).

(** What a call that found something went through. *)
Lemma retrieve_inv lib version_id s query now result :
  retrieve_knowledge search decrypt_text reranks settings lib version_id s query now = Ok result ->
  (re_evidence result = [] /\ re_answerable result = false /\ pk_tokens (re_context result) = 0 /\ pk_citations (re_context result) = []) \/
  exists av policy sources fused errors authorized,
    su_active s = true /\ agent_versions lib !! version_id = Some av /\ from_dict settings (av_policy av) = Ok policy /\
    _resolve_sources lib av s = Ok sources /\ all_candidates search (join_space (split_ws [] query)) s now policy sources = Ok (fused, errors) /\
    _post_authorize_candidates decrypt_text lib (take _MAX_CANDIDATES (merge_sort (ranked_before fc_rrf fc_chunk) fused)) s now = Ok authorized /\
    exists reranked,
    let by_key := dict_of ((fun a => (fc_chunk (au_fused a), a)) <$> authorized) in
    let selected := select policy by_key reranked ∅ ∅ [] in
    re_context result = _pack_context selected (po_token_budget policy) /\
    re_evidence result = filter (fun e => ci_id (ev_citation e) ∈ ci_id <$> pk_citations (re_context result)) selected /\
    re_answerable result = negb (bool_decide (length (re_evidence result) = 0%nat)) &&
      negb (Qltb match re_evidence result with e :: _ => ev_score e | [] => 0%Q end (po_answerability policy)).
Proof.
  unfold retrieve_knowledge. case_bool_decide; [done|]. destruct (_ <? _); [done|].
  destruct (su_active s); cbn [negb]; [|intros [= <-]; by left].
  destruct (agent_versions lib !! version_id) as [av|]; [|done]. destruct (_ || _); [done|].
  intros (policy & Hpolicy & (sources & Hsources & Hres)%res_bind_inv)%res_bind_inv. revert Hres.
  case_bool_decide; [intros [= <-]; by left|].
  intros ([fused errors] & Hfound & (authorized & Hauth & Hres)%res_bind_inv)%res_bind_inv. revert Hres.
  case_bool_decide; [intros [= <-]; by left|]. intros Hres. injection Hres as <-. right.
  exists av, policy, sources, fused, errors, authorized. do 6 (split; [done|]). eexists. cbv zeta. cbn [re_context re_evidence re_answerable].
  split; [reflexivity|]. split; reflexivity.
Qed.

Lemma selected_ok settings' raw policy by_key reranked : from_dict settings' raw = Ok policy ->
  selection_ok policy by_key (select policy by_key reranked ∅ ∅ []).
Proof.
  intros (_ & Hfinal & _ & Hper & _)%from_dict_bounds. apply select_ok.
  - split; [constructor|]. split; [intros d; simpl; lia|simpl; lia].
  - simpl. lia.
  - intros d. by rewrite lookup_empty.
Qed.

Lemma length_filter_filter {A} (P Q : A -> Prop) `{!forall x, Decision (P x)} `{!forall x, Decision (Q x)} (l : list A) :
  (length (filter P (filter Q l)) <= length (filter P l))%nat.
Proof.
  induction l as [|x l IH]; [done|]. rewrite !filter_cons. case_decide; [|case_decide; simpl; lia].
  rewrite filter_cons. case_decide; simpl; lia.
Qed.

(** C34: every piece of evidence that retrieval returns - whatever the vector store
    finds, however old the payloads it returns and however the reranker orders
    them - is text the subject may read now: the subject is active, the document
    is one that the database lets the subject reach, active and not revoked or
    deleted, in a version in force, that belongs to a release which a published
    binding gives the agent's version from a knowledge base the subject can reach.
    The text it was found by is the one its chunk's hash was taken of, and the text
    shown is that of the chunk or of its parent: a chunk of the same version of
    the same document, of whose text the hash was taken. *)
Theorem evidence_is_readable lib version_id s query now result e (Hk : keyed_library lib)
    (Hr : retrieve_knowledge search decrypt_text reranks settings lib version_id s query now = Ok result)
    (He : e ∈ re_evidence result) :
  su_active s = true /\ exists id chunk version document av,
    chunk_row lib id = Some (chunk, version, document) /\ agent_versions lib !! version_id = Some av /\
    user_can_access_document (acl lib) document s = true /\
    kd_status document = of_string "active" /\ kd_revoked document = None /\ kd_deleted document = None /\
    one_of ["published"; "superseded"] (kv_status version) = true /\ _temporally_valid version now = true /\
    (ci_release (ev_citation e), kv_id version) ∈ release_documents lib /\
    bound_release lib (av_id av) s (ci_release (ev_citation e)) /\
    chunk_plaintext_hash (kc_index chunk) (ev_child_text e) = kc_hash chunk /\
    (exists context, (context = chunk \/ exists parent, kc_parent chunk = Some parent /\ chunks lib !! parent = Some context) /\
       versions lib !! kc_version context = Some version /\ chunk_plaintext_hash (kc_index context) (ev_text e) = kc_hash context) /\
    ci_chunk (ev_citation e) = kc_id chunk /\ ci_document (ev_citation e) = kd_id document /\ ci_version (ev_citation e) = kv_id version.
Proof.
  destruct (retrieve_inv _ _ _ _ _ _ Hr) as [(Hnone & _)|(av & policy & sources & fused & errors & authorized & Hact & Hav & Hpolicy & Hsources &
    Hfound & Hauth & reranked & Hrest)]; [rewrite Hnone in He; by apply elem_of_nil in He|].
  cbv zeta in Hrest. destruct Hrest as (_ & Hev & _). rewrite Hev in He. apply list_elem_of_filter in He as [_ He].
  set (by_key := dict_of _) in *.
  destruct (selected_ok _ _ _ by_key reranked Hpolicy) as (Hall & _). rewrite Forall_forall in Hall.
  destruct (Hall e He) as (k & a & Ha & Hci & Hctext & Hchild).
  apply dict_of_Some, list_elem_of_fmap in Ha as (a' & [= _ <-] & Ha).
  destruct (post_authorized_stands _ _ _ _ _ _ _ Hk Hauth Ha) as [Hst Hc].
  assert (Hcf : au_fused a ∈ fused) by (rewrite <- (merge_sort_Permutation (ranked_before fc_rrf fc_chunk)); by eapply subseteq_take).
  pose proof (all_candidates_release _ _ _ _ _ _ _ _ Hfound) as Hrel. rewrite Forall_forall in Hrel.
  destruct (Hrel _ Hcf) as (source & Hsource & Hsrc). pose proof (resolved_sources _ _ _ _ _ Hk Hsources Hsource) as Hbound.
  destruct Hst as (Hrow & Hacc & Hst & Hrev & Hdel & Hvs & Hval & Hmem & Hhash & context & Hcx & Hcv & Hch).
  assert (versions lib !! kc_version (au_chunk a) = Some (au_version a)) as Hvrow.
  { unfold chunk_row in Hrow. destruct (chunks lib !! _) as [c|]; [|done]. simpl in Hrow. destruct (versions lib !! kc_version c) as [v|] eqn:Hv; [|done].
    simpl in Hrow. destruct (documents (acl lib) !! _); [|done]. injection Hrow as E1 E2 _. congruence. }
  split; [done|]. exists (fc_chunk (au_fused a)), (au_chunk a), (au_version a), (au_document a), av.
  rewrite Hci, Hchild. cbn [_citation_for ci_release ci_chunk ci_document ci_version]. rewrite <- Hsrc in Hbound.
  repeat (split; [assumption|]). split; [|by split_and!]. exists context. rewrite Hctext, Hcv. by split_and!.
Qed.

(** C36: an answer from knowledge is bounded whatever an agent's version asks for,
    infinite and malformed numbers included: at most 32 pieces, at most ten from
    one document, an estimate of at most 32,768 tokens; every piece returned is
    cited in the context; and only an answer with evidence is called answerable. *)
Theorem retrieval_bounded lib version_id s query now result
    (Hr : retrieve_knowledge search decrypt_text reranks settings lib version_id s query now = Ok result) :
  (length (re_evidence result) <= 32)%nat /\
  (forall document, length (from_document document (re_evidence result)) <= 10)%nat /\
  pk_tokens (re_context result) <= 32768 /\
  (forall e, e ∈ re_evidence result -> ci_id (ev_citation e) ∈ ci_id <$> pk_citations (re_context result)) /\
  (re_answerable result = true -> re_evidence result <> []).
Proof.
  destruct (retrieve_inv _ _ _ _ _ _ Hr) as [(-> & -> & -> & ->)|(av & policy & sources & fused & errors & authorized & Hact & Hav & Hpolicy & Hsources &
    Hfound & Hauth & reranked & Hrest)].
  { split; [simpl; lia|]. split; [intros d; simpl; lia|]. split; [lia|]. split; [by intros e ?%elem_of_nil|done]. }
  cbv zeta in Hrest. set (by_key := dict_of _) in *. destruct Hrest as (Hctx & Hev & Hans).
  destruct (selected_ok _ _ _ by_key reranked Hpolicy) as (_ & Hdocs & Hlen).
  apply from_dict_bounds in Hpolicy as (_ & Hfinal & _ & Hper & Hbudget & _). unfold _MAX_FINAL_RESULTS, _MAX_CONTEXT_TOKENS in *.
  set (selected := select policy by_key reranked ∅ ∅ []) in *. rewrite Hev. split_and!.
  - etransitivity; [apply length_filter|]. lia.
  - intros d. specialize (Hdocs d). unfold from_document in *. etransitivity; [apply length_filter_filter|]. lia.
  - rewrite Hctx. destruct (pack_context_bounds selected (po_token_budget policy) ltac:(lia)) as [? _]. lia.
  - by intros e [? _]%list_elem_of_filter.
  - rewrite <- Hev, Hans. intros [Hne _]%andb_true_iff He. by rewrite He in Hne.
Qed.
End call_facts.
End retrieval_facts.

(** ** Fusion *)

Section fusion_facts.
Context `{PyRepr}.

Definition score_in (items : list FusedCandidate) (chunk : text) : Q :=
  match find (fun item => bool_decide (fc_chunk item = chunk)) items with Some item => fc_rrf item | None => 0%Q end.

(** What one ranking adds to a chunk: a share for every place it is found at. *)
Definition shares (k : Z) (weight : Q) (chunk : text) (rank : nat) (hits : list KnowledgeSearchHit) : list Q :=
  concat (imap (fun i hit => if counted hit && bool_decide (chunk_of hit = chunk) then [(weight / inject_Z (k + Z.of_nat (rank + i)))%Q] else []) hits).

Definition contributions (k : Z) (rankings : list (channel * list KnowledgeSearchHit * Q)) (chunk : text) : list Q :=
  rankings ≫= fun '(_, hits, weight) => if Qltb 0 weight then shares k weight chunk 1 hits else [].

Lemma contributions_cons k ch hits weight rankings c :
  contributions k ((ch, hits, weight) :: rankings) c = (if Qltb 0 weight then shares k weight c 1 hits else []) ++ contributions k rankings c.
Proof. done. Qed.

Lemma fc_chunk_add_hit ch k weight rank hit item : fc_chunk (add_hit ch k weight rank hit item) = fc_chunk item.
Proof. by destruct ch. Qed.
Lemma fc_rrf_add_hit ch k weight rank hit item :
  fc_rrf (add_hit ch k weight rank hit item) = (fc_rrf item + weight / inject_Z (k + Z.of_nat rank))%Q.
Proof. by destruct ch. Qed.

Lemma add_to_chunks chunk fresh f items : fc_chunk fresh = chunk -> (forall item, fc_chunk (f item) = fc_chunk item) ->
  fc_chunk <$> add_to chunk fresh f items = (fc_chunk <$> items) ++ if bool_decide (chunk ∈ fc_chunk <$> items) then [] else [chunk].
Proof.
  intros Hfresh Hf. induction items as [|item items IH]; cbn [add_to]; [simpl; by rewrite Hf, Hfresh|].
  destruct (decide (fc_chunk item = chunk)) as [Hc|Hc]; [rewrite (bool_decide_eq_true_2 _ Hc)|rewrite (bool_decide_eq_false_2 _ Hc)];
    rewrite !fmap_cons, ?Hf, ?IH.
  - rewrite bool_decide_eq_true_2 by (rewrite elem_of_cons; by left). by rewrite app_nil_r.
  - simpl. f_equal. f_equal. erewrite bool_decide_ext; [reflexivity|]. rewrite elem_of_cons. naive_solver.
Qed.

Lemma add_to_score chunk fresh f x items c : fc_chunk fresh = chunk -> fc_rrf fresh = 0%Q ->
  (forall item, fc_chunk (f item) = fc_chunk item) -> (forall item, fc_rrf (f item) = (fc_rrf item + x)%Q) ->
  (score_in (add_to chunk fresh f items) c == score_in items c + if bool_decide (c = chunk) then x else 0)%Q.
Proof.
  intros Hfresh Hzero Hf Hx. unfold score_in. induction items as [|item items IH]; simpl.
  - rewrite Hf, Hfresh. destruct (decide (c = chunk)) as [->|Hne].
    + rewrite !bool_decide_eq_true_2 by done. by rewrite Hx, Hzero.
    + rewrite !bool_decide_eq_false_2 by done. ring.
  - destruct (decide (fc_chunk item = chunk)) as [Hc|Hc].
    + rewrite bool_decide_eq_true_2 by done. simpl. rewrite Hf. destruct (decide (c = chunk)) as [->|Hne].
      * rewrite (bool_decide_eq_true_2 _ Hc), bool_decide_eq_true_2 by done. by rewrite Hx.
      * rewrite (bool_decide_eq_false_2 (c = chunk)), (bool_decide_eq_false_2 (fc_chunk item = c)) by congruence. ring.
    + rewrite bool_decide_eq_false_2 by done. simpl. destruct (decide (fc_chunk item = c)) as [Hic|Hic].
      * rewrite (bool_decide_eq_true_2 _ Hic), bool_decide_eq_false_2 by congruence. ring.
      * by rewrite (bool_decide_eq_false_2 _ Hic).
Qed.

(** The items after some hits: each chunk once, with its shares, and no others. *)
Definition tallied (items : list FusedCandidate) (score : text -> Q) (found : text -> Prop) : Prop :=
  NoDup (fc_chunk <$> items) /\ (forall c, score_in items c == score c)%Q /\ (forall c, c ∈ fc_chunk <$> items <-> found c).

Lemma tallied_ext items score score' (found found' : text -> Prop) :
  tallied items score found -> (forall c, score c == score' c)%Q -> (forall c, found c <-> found' c) -> tallied items score' found'.
Proof.
  intros (Hnd & Hs & Hf) Hscore Hfound. split; [done|]. split; intros c; [by rewrite Hs|by rewrite Hf].
Qed.

Lemma add_ranking_tallied release index ch k weight hits : forall rank items score found,
  tallied items score found ->
  tallied (add_ranking release index ch k weight rank hits items) (fun c => score c + Qsum (shares k weight c rank hits))%Q
    (fun c => found c \/ exists hit, hit ∈ hits /\ counted hit = true /\ chunk_of hit = c).
Proof.
  induction hits as [|hit hits IH]; intros rank items score found Ht; cbn [add_ranking].
  - eapply tallied_ext; [exact Ht|intros c; unfold shares; simpl; ring|intros c; split; [by left|]]. intros [?|(h & ?%elem_of_nil & _)]; done.
  - assert (Hshift : forall c, (Qsum (shares k weight c rank (hit :: hits)) ==
      (if counted hit && bool_decide (chunk_of hit = c) then weight / inject_Z (k + Z.of_nat rank) else 0) + Qsum (shares k weight c (S rank) hits))%Q).
    { intros c. unfold shares. rewrite imap_cons. simpl. rewrite Nat.add_0_r, Qsum_app.
      assert (imap ((fun i h => if counted h && bool_decide (chunk_of h = c) then [(weight / inject_Z (k + Z.of_nat (rank + i)))%Q] else []) ∘ S) hits =
        imap (fun i h => if counted h && bool_decide (chunk_of h = c) then [(weight / inject_Z (k + Z.of_nat (S rank + i)))%Q] else []) hits) as ->.
      { apply imap_ext. intros i h _. simpl. by rewrite Nat.add_succ_r. }
      destruct (counted hit && bool_decide (chunk_of hit = c)); simpl; ring. }
    destruct (counted hit) eqn:Hcounted.
    + set (items' := add_to _ _ _ _).
      assert (tallied items' (fun c => score c + if bool_decide (c = chunk_of hit) then weight / inject_Z (k + Z.of_nat rank) else 0)%Q
        (fun c => found c \/ c = chunk_of hit)) as Ht'.
      { destruct Ht as (Hnd & Hs & Hf). unfold items'. split; [|split].
        - rewrite add_to_chunks by (done || apply fc_chunk_add_hit). case_bool_decide; [by rewrite app_nil_r|].
          apply NoDup_app. split; [done|]. split; [set_solver|apply NoDup_singleton].
        - intros c. rewrite <- Hs. rewrite <- (add_to_score (chunk_of hit) (MkFused (chunk_of hit) release index (hit_payload hit) 0 None None None None)
            (add_hit ch k weight rank hit)); [reflexivity|done|done|apply fc_chunk_add_hit|apply fc_rrf_add_hit].
        - intros c. rewrite add_to_chunks by (done || apply fc_chunk_add_hit). rewrite elem_of_app, Hf.
          case_bool_decide as Hin; [rewrite Hf in Hin; set_solver|set_solver]. }
      eapply tallied_ext; [apply (IH (S rank) _ _ _ Ht')|..].
      * intros c. rewrite Hshift. simpl. destruct (decide (chunk_of hit = c)) as [<-|Hne].
        -- rewrite !bool_decide_eq_true_2 by done. ring.
        -- rewrite !bool_decide_eq_false_2 by congruence. ring.
      * intros c. setoid_rewrite elem_of_cons. naive_solver.
    + eapply tallied_ext; [apply (IH (S rank) _ _ _ Ht)|..].
      * intros c. rewrite Hshift. simpl. ring.
      * intros c. setoid_rewrite elem_of_cons. split; [naive_solver|]. intros [?|(h & [->|?] & ? & ?)]; [by left|congruence|right; eauto].
Qed.

(** A chunk that a ranking of positive weight holds under its own id. *)
Definition held (rankings : list (channel * list KnowledgeSearchHit * Q)) (c : text) : Prop :=
  exists ch hits weight hit, (ch, hits, weight) ∈ rankings /\ (0 < weight)%Q /\ hit ∈ hits /\ counted hit = true /\ chunk_of hit = c.

Lemma add_rankings_tallied release index k rankings items score found :
  tallied items score found ->
  tallied (foldl (fun items '(ch, hits, weight) => if Qltb 0 weight then add_ranking release index ch k weight 1 hits items else items) items rankings)
    (fun c => score c + Qsum (contributions k rankings c))%Q (fun c => found c \/ held rankings c).
Proof.
  revert items score found. induction rankings as [|[[ch hits] weight] rankings IH]; intros items score found Ht; cbn [foldl]; unfold held in *.
  - eapply tallied_ext; [exact Ht|intros c; unfold contributions; simpl; ring|]. intros c. split; [by left|].
    intros [?|(? & ? & ? & ? & ?%elem_of_nil & _)]; done.
  - destruct (Qltb 0 weight) eqn:Hw.
    + eapply tallied_ext; [apply IH, add_ranking_tallied, Ht|..].
      * intros c. rewrite contributions_cons, Hw, Qsum_app. simpl. ring.
      * apply Qltb_lt in Hw. intros c. setoid_rewrite elem_of_cons. split.
        -- intros [[?|(hit & ? & ? & ?)]|(ch' & hits' & w' & hit & ? & ? & ?)]; [by left|right; exists ch, hits, weight, hit; auto|].
           right. exists ch', hits', w', hit. auto.
        -- intros [?|(ch' & hits' & w' & hit & [[= -> -> ->]|?] & ? & ? & ? & ?)]; [by left; left|left; right; eauto|right; eauto 10].
    + eapply tallied_ext; [apply IH, Ht|..].
      * intros c. by rewrite contributions_cons, Hw.
      * apply Qltb_ge in Hw. intros c. setoid_rewrite elem_of_cons. split.
        -- intros [?|(ch' & hits' & w' & hit & ? & ?)]; [by left|right; exists ch', hits', w', hit; auto].
        -- intros [?|(ch' & hits' & w' & hit & [[= -> -> ->]|?] & Hpos' & ?)]; [by left| |right; eauto 10].
           exfalso. by apply (Qlt_not_le _ _ Hpos').
Qed.

Lemma ranked_before_total {A} (score : A -> Q) key : Total (ranked_before score key).
Proof.
  intros a b. destruct (Q_dec (score a) (score b)) as [[Hlt|Hgt]|Heq].
  - right. by left.
  - left. by left.
  - destruct (text_leb_total (key a) (key b)); [left|right]; right; (split; [|done]); [by symmetry|done].
Qed.

Lemma ranked_before_trans {A} (score : A -> Q) key : Transitive (ranked_before score key).
Proof.
  intros a b c [H1|[H1 H1']] [H2|[H2 H2']]; unfold ranked_before.
  - left. by etransitivity.
  - left. by rewrite H2.
  - left. by rewrite <- H1.
  - right. split; [by rewrite H2|]. by eapply text_leb_trans.
Qed.

Lemma score_in_elem items item : NoDup (fc_chunk <$> items) -> item ∈ items -> score_in items (fc_chunk item) = fc_rrf item.
Proof.
  unfold score_in. induction items as [|i items IH]; [by intros _ ?%elem_of_nil|]. rewrite fmap_cons. intros [Hi Hnd]%NoDup_cons. simpl.
  intros [->|Hin]%elem_of_cons; [by rewrite bool_decide_eq_true_2|]. rewrite bool_decide_eq_false_2; [by apply IH|].
  intros He. apply Hi. rewrite He. by apply list_elem_of_fmap_2.
Qed.

(** Fusing rankings gives every chunk that a ranking of positive weight holds
    under its own id, and no other, exactly once; its score is the sum of
    weight / (k + rank) over the places where it is found; and the result is in
    the order of the scores, ties by id. *)
Theorem fusion_correct rankings release index k (Hpos : 1 <= k) :
  exists fused, reciprocal_rank_fusion rankings release index k = Ok fused /\
    NoDup (fc_chunk <$> fused) /\ StronglySorted (ranked_before fc_rrf fc_chunk) fused /\
    (forall c, c ∈ fc_chunk <$> fused <-> held rankings c) /\
    (forall item, item ∈ fused -> fc_rrf item == Qsum (contributions k rankings (fc_chunk item)))%Q.
Proof.
  unfold reciprocal_rank_fusion. destruct (Z.ltb_spec k 1); [lia|]. eexists. split; [done|]. set (items := foldl _ _ _).
  assert (tallied items (fun c => Qsum (contributions k rankings c)) (held rankings)) as (Hnd & Hs & Hf).
  { subst items.
    eapply tallied_ext; [apply (add_rankings_tallied release index k rankings [] (fun _ => 0%Q) (fun _ => False))|intros c; apply Qplus_0_l|intros c; tauto].
    split; [constructor|]. split; [intros c; reflexivity|]. intros c. split; [by intros ?%elem_of_nil|done]. }
  clearbody items. assert (Hperm : merge_sort (ranked_before fc_rrf fc_chunk) items ≡ₚ items) by apply merge_sort_Permutation.
  split_and!.
  - by rewrite Hperm.
  - apply StronglySorted_merge_sort; [apply ranked_before_trans|apply ranked_before_total].
  - intros c. by rewrite Hperm.
  - intros item Hin. rewrite Hperm in Hin. by rewrite <- (score_in_elem items item Hnd Hin).
Qed.
End fusion_facts.

(** ** Witnesses *)

#[local] Existing Instance ascii_str.
#[local] Existing Instance ascii_fold.
#[local] Existing Instance ascii_slugs.
#[local] Existing Instance ascii_re.
#[local] Instance plain_ints : PyInt := {| int_of_str := nat_token; int_of_float _ := None |}.
#[local] Instance plain_repr : PyRepr := {| repr_container _ := of_string "{}" |}.
#[local] Instance plain_numbers : PyNumber := {|
  float_of_int n := Some (Finite (inject_Z n)); float_of_text _ := None; float_of_repr _ := NotANumber |}.
#[local] Instance plain_nfkc : PyNFKC := {| nfkc t := t |}.

Definition plan_binding : AgentKnowledgeBinding :=
  MkBinding (of_string "av1") (of_string "k1") (of_string "published") (of_string "active") None.
Definition office_library : Library := MkLibrary office
  (<[of_string "v1" := plan_version]> ∅) (<[of_string "c1" := plan_chunk]> ∅)
  (<[of_string "r1" := MkRelease (of_string "r1") (of_string "k1") (of_string "published") (Some (of_string "kb-release:k1"))]> ∅)
  (<[of_string "i1" := MkIndexVersion (of_string "i1") (of_string "r1") 1 (of_string "active")]> ∅)
  [(of_string "r1", of_string "v1")] [plan_binding]
  (<[of_string "av1" := MkAgentVersion (of_string "av1") (of_string "published") (Some 1)
      (Some [(of_string "final_limit", JInt 1000); (of_string "dense_weight", JFloat (of_string "nan"))])]> ∅).
(** The store finds the plan by its meaning and by its words. *)
Definition office_search (_ : KnowledgeIndexVersion) (_ : text) (_ : Condition) (_ : RetrievalPolicy)
    : res (list KnowledgeSearchHit * list KnowledgeSearchHit) :=
  Ok ([MkHit (of_string "c1") (9 # 10) plan_point], [MkHit (of_string "c1") (1 # 2) plan_point]).
Definition office_settings : Settings := MkSettings 40 8 60 3 6000 (Finite (5 # 100)) (Finite (1 # 100)) 8000.
Definition ask (user : Z) : res KnowledgeRetrievalResult :=
  retrieve_knowledge office_search (fun content _ => Ok content) rerank office_settings office_library (of_string "av1") (caller user)
    (of_string "when do we move") noon.
Definition plan_answer : KnowledgeRetrievalResult :=
  Eval vm_compute in match ask 1 with Ok r => r | Raise _ => MkResult [] (MkPack [] [] 0 false) false None ∅ ∅ 0 0 [] end.
Definition plan_evidence : RetrievedEvidence :=
  Eval vm_compute in match re_evidence plan_answer with e :: _ => e | [] => MkEvidence 0 [] [] 0 0 None None (MkCitation [] [] [] [] [] [] [] [] [] None None [] [] None None []) end.

Lemma office_library_keyed : keyed_library office_library.
Proof.
  split; [exact office_keyed|]. intros id d. simpl. intros [[<- <-]|[_ Hn]]%lookup_insert_Some; [done|by rewrite lookup_empty in Hn].
Qed.

Lemma ask_ada : ask 1 = Ok plan_answer.
Proof. vm_compute. reflexivity. Qed.

(** Bob, whose department is denied the plan, gets nothing though the store offers it. *)
Example ask_bob : match ask 2 with Ok r => (re_evidence r, re_candidates r, re_abstention r) | Raise _ => ([], 0%nat, None) end =
  ([], 1%nat, Some "no_authorized_evidence"%string).
Proof. vm_compute. reflexivity. Qed.

Lemma evidence_is_readable_witness :
  plan_evidence ∈ re_evidence plan_answer /\ ev_text plan_evidence = plan_text /\ su_active (caller 1) = true.
Proof.
  assert (He : plan_evidence ∈ re_evidence plan_answer) by (apply list_elem_of_here).
  split; [exact He|]. split; [vm_compute; reflexivity|].
  exact (proj1 (evidence_is_readable office_search (fun content _ => Ok content) rerank office_settings office_library (of_string "av1") (caller 1)
    (of_string "when do we move") noon plan_answer plan_evidence office_library_keyed ask_ada He)).
Defined.

Lemma retrieval_bounded_witness : (length (re_evidence plan_answer) <= 32)%nat /\ pk_tokens (re_context plan_answer) = 91.
Proof.
  split; [|vm_compute; reflexivity].
  exact (proj1 (retrieval_bounded office_search (fun content _ => Ok content) rerank office_settings office_library (of_string "av1") (caller 1)
    (of_string "when do we move") noon plan_answer ask_ada)).
Defined.

Lemma fusion_correct_witness :
  exists fused, reciprocal_rank_fusion [(dense, [MkHit (of_string "c1") (9 # 10) plan_point], 1%Q); (sparse, [MkHit (of_string "c1") (1 # 2) plan_point], 1%Q)]
    (of_string "r1") (of_string "i1") 60 = Ok fused /\ NoDup (fc_chunk <$> fused).
Proof.
  destruct (fusion_correct [(dense, [MkHit (of_string "c1") (9 # 10) plan_point], 1%Q); (sparse, [MkHit (of_string "c1") (1 # 2) plan_point], 1%Q)]
    (of_string "r1") (of_string "i1") 60 ltac:(lia)) as (fused & Hf & Hnd & _).
  exists fused. split; [exact Hf|exact Hnd].
Defined.
