(* ===== verification/Pricing.v ===== *)
(** * Normalized usage and cost quotes

    The first half of usage_accounting_service.py: what a provider's answer says
    was used, and what it costs, from the provider's own figure, the catalog's
    rates, LiteLLM's price list, or nothing.  Money and quantities are exact
    rationals.  An answer is a JSON value or an object with attributes;
    LiteLLM's price list is a parameter. *)

From S2P Require Import Prelude Money Text Json JsonParse PyText Extractor.
From Stdlib Require Import QArith Qminmax.

#[local] Open Scope Z_scope.

(** ** What a provider answers *)

(** A Python object that an adapter passes on: JSON data, or an object with its
    attributes, the dict its [model_dump] or [dict] gives, and its [str]. *)
Inductive pyobj :=
  | Plain (v : json)
  | Object (attributes : list (text * pyobj)) (dumped : option (list (text * json))) (shown : text).

Definition None' : pyobj := Plain JNull.
Definition is_none (o : pyobj) : bool := match o with Plain JNull => true | _ => false end.
Definition obj_truthy (o : pyobj) : bool := match o with Plain v => truthy v | Object _ _ _ => true end.
(** [a or b] *)
Definition py_or (a b : pyobj) : pyobj := if obj_truthy a then a else b.

Definition _dictish (o : pyobj) : list (text * json) :=
  match o with
  | Plain (JObj fields) => fields
  | Plain _ => []
  | Object _ dumped _ => default [] dumped
  end.

(** [container.get(key)] of a dict, [getattr(container, key, None)] of the rest. *)
Definition _value (container : pyobj) (key : string) : pyobj :=
  match container with
  | Plain (JObj fields) => match field (of_string key) fields with Some v => Plain v | None => None' end
  | Plain _ => None'
  | Object attributes _ _ => default None' (field (of_string key) attributes)
  end.

Fixpoint _first_present (container : pyobj) (keys : list string) : pyobj :=
  match keys with
  | [] => None'
  | key :: keys => let v := _value container key in if is_none v then _first_present container keys else v
  end.

Definition _details (usage : pyobj) (names : list string) : pyobj :=
  let v := _first_present usage names in if is_none v then Plain (JObj []) else v.

Fixpoint first_dict (response : pyobj) (names : list string) : list (text * json) :=
  match names with
  | [] => []
  | name :: names => match _value response name with Plain (JObj fields) => fields | _ => first_dict response names end
  end.
Definition _hidden_params (response : pyobj) : list (text * json) :=
  first_dict response ["_last_returned_hidden_params"; "_hidden_params"; "hidden_params"]%string.

Definition usage_keys : list string := ["prompt_tokens"; "completion_tokens"; "input_tokens"; "output_tokens"; "cost"]%string.

Definition not_null (v : option json) : option json := match v with Some JNull | None => None | Some v => Some v end.

(** [result.get("usage")], else the one of [result.get("_meta")], of a dict [result] *)
Definition result_usage (fields : list (text * json)) : option json :=
  match field (of_string "result") fields with
  | Some (JObj result) =>
      match not_null (field (of_string "usage") result) with
      | Some usage => Some usage
      | None =>
          match field (of_string "_meta") result with
          | Some (JObj meta) => not_null (field (of_string "usage") meta)
          | _ => None
          end
      end
  | _ => None
  end.

Definition _usage_object (response : pyobj) : pyobj :=
  let direct := _value response "usage" in
  if negb (is_none direct) then direct
  else
    match not_null (field (of_string "usage") (_hidden_params response)) with
    | Some usage => Plain usage
    | None =>
        match response with
        | Plain (JObj fields) =>
            match result_usage fields with
            | Some usage => Plain usage
            | None =>
                if existsb (fun key => match field (of_string key) fields with Some _ => true | None => false end) usage_keys
                then response else None'
            end
        | _ => None'
        end
    end.

(** ** Numbers *)

Section numbers.
Context `{PyNumber} `{PyInt} `{PyRepr}.

(** [None] unless the value reads as a finite number that is not negative. *)
Definition _finite_float (o : pyobj) : option Q :=
  match o with
  | Plain JNull | Plain (JBool _) => None
  | Plain v => match float_of v with Ok (Finite q) => if Qltb q 0 then None else Some q | _ => None end
  | Object _ _ _ => None
  end.
Definition _signed_float (x : pyfloat) : Q := match x with Finite q => q | _ => 0%Q end.
(** [max(0, int(value or 0))], [0] when the conversion raises *)
Definition _nonnegative_int (o : pyobj) : Z :=
  match o with
  | Plain v => if negb (truthy v) then 0 else match int_or_overflow v with Ok n => Z.max 0 n | Raise _ => 0 end
  | Object _ _ _ => 0
  end.
Definition json_finite (v : option json) : option Q := _finite_float (Plain (default JNull v)).
Definition show (o : pyobj) : text := match o with Plain v => py_str v | Object _ _ shown => shown end.
End numbers.

(** [_finite_float] of a number column *)
Definition rate_column (x : option Q) : option Q := match x with Some q => if Qltb q 0 then None else Some q | None => None end.

(** ** What was used *)

Record NormalizedUsage := MkUsage {
  nu_prompt : Z; nu_completion : Z; nu_cached : Z; nu_cache_write : Z; nu_reasoning : Z; nu_searches : Z;
  nu_quantity : option Q; nu_unit : option text; nu_provider_cost : option Q; nu_litellm_cost : option Q;
  nu_upstream : option text; nu_raw : list (text * json)
}.

(** The token counts a caller may give instead of those of the answer *)
Record TokenCounts := MkCounts {
  ct_prompt : option Z; ct_completion : option Z; ct_cached : option Z; ct_cache_write : option Z; ct_reasoning : option Z
}.
Definition no_counts : TokenCounts := MkCounts None None None None None.
(** [_nonnegative_int(given) if given is not None else extracted] *)
Definition given_or (given : option Z) (extracted : Z) : Z := match given with Some n => Z.max 0 n | None => extracted end.

(** Sources and confidences of a cost, statuses, subjects *)
Definition COST_SOURCE_PROVIDER : string := "provider_response".
Definition COST_SOURCE_RECONCILED : string := "provider_reconciliation".
Definition COST_SOURCE_CATALOG : string := "provider_catalog".
Definition COST_SOURCE_CONFIGURED : string := "configured_rate".
Definition COST_SOURCE_LITELLM : string := "litellm".
Definition COST_SOURCE_LEGACY : string := "legacy".
Definition COST_SOURCE_UNKNOWN : string := "unknown".
Definition COST_SOURCE_UNPRICED : string := "unpriced".
Definition CONFIDENCE_EXACT : string := "exact".
Definition CONFIDENCE_RECONCILED : string := "reconciled".
Definition CONFIDENCE_CALCULATED : string := "calculated".
Definition CONFIDENCE_ESTIMATED : string := "estimated".
Definition CONFIDENCE_UNKNOWN : string := "unknown".
Definition STATUS_SUCCEEDED : string := "succeeded".
Definition STATUS_FAILED : string := "failed".

Definition _PROVIDER_REPORTED_USAGE_COST : list text := [of_string "openrouter"; of_string "litellm_proxy"].

(** [or_none]: [s or None] *)
Definition or_none (s : text) : option text := match s with [] => None | _ => Some s end.
(** [a or b] of two optional strings *)
Definition text_or (a b : option text) : option text := match a with Some (_ :: _) => a | _ => b end.
(** [a if a is not None else b] *)
Definition first_of {A} (a b : option A) : option A := match a with Some _ => a | None => b end.

(** [repr] of a float, as [json.dumps] prints it *)
Class PyFloatText := { repr_of : Q -> text }.

Section usage.
Context `{PyNumber} `{PyInt} `{PyRepr} `{PyStr} `{PyFloatText}.

(** [(provider_type or "unknown").strip().lower() or "unknown"] *)
Definition normal_name (name : option text) : text :=
  let n := py_lower (strip match name with Some ((_ :: _) as n) => n | _ => of_string "unknown" end) in
  match n with [] => of_string "unknown" | _ => n end.

Definition metered_names : list (list string * string) :=
  [(["credits_used"; "credits"], "credit"); (["duration_seconds"; "audio_seconds"], "second");
   (["characters"; "character_count"], "character"); (["images"; "image_count"], "image");
   (["requests"; "request_count"], "request")]%string.

Fixpoint metered (usage : pyobj) (names : list (list string * string)) : option (Q * text) :=
  match names with
  | [] => None
  | (keys, unit) :: names =>
      match _finite_float (_first_present usage keys) with
      | Some q => Some (q, of_string unit)
      | None => metered usage names
      end
  end.

Definition cached_names : list string := ["cached_tokens"; "cache_read_input_tokens"; "prompt_cache_hit_tokens"]%string.
Definition cache_write_names : list string :=
  ["cache_creation_tokens"; "cache_creation_input_tokens"; "cache_write_input_tokens"]%string.

(** The provider's own figure: explicit, or [usage.cost] of those that bill it. *)
Definition reported_cost (provider : text) (usage : pyobj) : option Q :=
  let explicit := _first_present usage ["provider_cost"; "billed_cost"; "total_cost_usd"]%string in
  if negb (is_none explicit) then _finite_float explicit
  else if bool_decide (provider ∈ _PROVIDER_REPORTED_USAGE_COST) then _finite_float (_value usage "cost")
  else None.

(** What LiteLLM computed for the answer. *)
Definition estimated_cost (provider : text) (usage : pyobj) (hidden : list (text * json)) : option Q :=
  match json_finite (field (of_string "response_cost") hidden) with
  | Some q => Some q
  | None => if bool_decide (provider ∈ _PROVIDER_REPORTED_USAGE_COST) then None else _finite_float (_value usage "cost")
  end.

Definition upstream_id (response : pyobj) (hidden : list (text * json)) : pyobj :=
  let id := _first_present response ["id"; "request_id"; "response_id"]%string in
  if obj_truthy id then id
  else _first_present (Plain (JObj hidden)) ["provider_request_id"; "response_id"; "litellm_call_id"]%string.

Definition extract_normalized_usage (response : pyobj) (provider_type : option text) (given : TokenCounts) : NormalizedUsage :=
  let provider := normal_name provider_type in
  let usage := _usage_object response in
  let usage_dict := _dictish usage in
  let prompt_details := _details usage ["prompt_tokens_details"; "input_tokens_details"]%string in
  let completion_details := _details usage ["completion_tokens_details"; "output_tokens_details"]%string in
  let server_tool_use := Plain (JObj (_dictish (_value usage "server_tool_use"))) in
  let quantity := metered usage metered_names in
  let hidden := _hidden_params response in
  let litellm_cost := estimated_cost provider usage hidden in
  let upstream := upstream_id response hidden in
  let response_model := _first_present response ["model"]%string in
  MkUsage
    (given_or (ct_prompt given) (_nonnegative_int (_first_present usage ["prompt_tokens"; "input_tokens"]%string)))
    (given_or (ct_completion given) (_nonnegative_int (_first_present usage ["completion_tokens"; "output_tokens"]%string)))
    (given_or (ct_cached given) (_nonnegative_int (py_or (_first_present prompt_details cached_names) (_first_present usage cached_names))))
    (given_or (ct_cache_write given) (_nonnegative_int (py_or (_first_present prompt_details cache_write_names) (_first_present usage cache_write_names))))
    (given_or (ct_reasoning given) (_nonnegative_int (py_or (_first_present completion_details ["reasoning_tokens"]%string) (_first_present usage ["reasoning_tokens"]%string))))
    (_nonnegative_int (py_or (_first_present usage ["web_search_requests"; "search_requests"]%string)
       (py_or (_value (Plain (JObj (_dictish prompt_details))) "web_search_requests") (_value server_tool_use "web_search_requests"))))
    (fst <$> quantity) (snd <$> quantity) (reported_cost provider usage) litellm_cost
    (if obj_truthy upstream then Some (take 255 (show upstream)) else None)
    ([(of_string "usage", JObj usage_dict); (of_string "prompt_tokens_details", JObj (_dictish prompt_details));
      (of_string "completion_tokens_details", JObj (_dictish completion_details))] ++
     (if obj_truthy response_model then [(of_string "model", JStr (show response_model))] else []) ++
     (if obj_truthy upstream then [(of_string "upstream_request_id", JStr (show upstream))] else []) ++
     match litellm_cost with Some q => [(of_string "litellm_response_cost", JFloat (repr_of q))] | None => [] end).
End usage.

(** ** The catalog's rates *)

Record AIModel := MkModel {
  am_connection : option Z; am_provider : text; am_external : text;
  am_input_per_1k : option Q; am_output_per_1k : option Q; am_pricing_raw : option text
}.

Record LineItemQuote := MkItem {
  li_category : text; li_quantity : Q; li_unit : text; li_price : option Q; li_cost : option Q; li_source : text;
  li_metadata : list (text * json)
}.

Record CostQuote := MkQuote {
  cq_provider : option Q; cq_calculated : option Q; cq_final : option Q; cq_source : text; cq_confidence : text;
  cq_items : list LineItemQuote; cq_payload : option json; cq_pricing_source : option text
}.

(** [{**a, **b}] *)
Definition merge_fields (a b : list (text * json)) : list (text * json) := dict_display (a ++ b).

Section catalog.
Context `{PyNumber} `{PyInt} `{PyRepr} `{PyStr} `{PyFloatText} `{PyFloat}.

Definition _parse_pricing_raw (ai_model : option AIModel) : list (text * json) :=
  match ai_model ≫= am_pricing_raw with
  | None | Some [] => []
  | Some raw => match loads raw with Some (JObj payload) => payload | _ => [] end
  end.

Definition _pricing_map (ai_model : option AIModel) : list (text * json) :=
  match field (of_string "pricing") (_parse_pricing_raw ai_model) with
  | Some (JObj pricing) | Some (JList (JObj pricing :: _)) => pricing
  | _ => []
  end.

(** [Some rate] is the pair [(True, rate)], [None] the pair [(False, None)]. *)
Fixpoint _rate (pricing : list (text * json)) (keys : list string) : option Q :=
  match keys with
  | [] => None
  | key :: keys =>
      match json_finite (field (of_string key) pricing) with
      | Some q => Some q
      | None => _rate pricing keys
      end
  end.

Definition speech_names : list string := ["speech"; "audio"; "tts"; "character"]%string.
Definition _speech_character_rate_usd (pricing : list (text * json)) : option Q :=
  first_of (_rate pricing speech_names) (_rate pricing ["prompt"]%string).
Definition _audio_second_rate_usd (pricing : list (text * json)) : option Q :=
  first_of (_rate pricing ["transcription"; "audio_second"; "second"]%string)
    ((fun rate => rate / 60)%Q <$> _rate pricing ["audio_minute"; "minute"]%string).
Definition _video_second_rate_usd (pricing : list (text * json)) : option Q :=
  first_of (_rate pricing ["video"; "output_video"; "generate"; "clip"; "second"; "usd_per_second"; "usd_per_second_output"]%string)
    ((fun cents => cents / 100)%Q <$> _rate pricing ["cents_per_second_output"; "cents_per_second"; "cents_per_second_video"]%string).

Definition _line_item (category : string) (quantity : Q) (unit : text) (unit_price : Q) (metadata : list (text * json)) : LineItemQuote :=
  MkItem (of_string category) quantity unit (Some unit_price) (Some (Qmax 0 (quantity * unit_price))) (of_string COST_SOURCE_CATALOG) metadata.

Definition is_service (service : text) (name : string) : bool := bool_decide (service = of_string name).

(** The rates of one service; [None]: not in the catalog. *)
Record Rates := MkRates {
  rt_prompt : option Q; rt_completion : option Q; rt_cache_read : option Q; rt_cache_write : option Q; rt_reasoning : option Q;
  rt_request : option Q; rt_image : option Q; rt_video : option Q; rt_search : option Q; rt_audio : option Q; rt_speech : option Q
}.
Definition rates_of (pricing : list (text * json)) (service : text) : Rates :=
  MkRates (_rate pricing ["prompt"; "input"]%string) (_rate pricing ["completion"; "output"]%string)
    (_rate pricing ["input_cache_read"; "cache_read"]%string) (_rate pricing ["input_cache_write"; "cache_write"]%string)
    (_rate pricing ["internal_reasoning"; "reasoning"]%string) (_rate pricing ["request"]%string)
    (_rate pricing ["image"; "output_image"]%string)
    (if is_service service "video" then _video_second_rate_usd pricing
     else _rate pricing ["video"; "output_video"; "generate"; "clip"; "second"]%string)
    (_rate pricing ["web_search"; "search"]%string)
    (if is_service service "audio" then _audio_second_rate_usd pricing else None)
    (if is_service service "speech" then _speech_character_rate_usd pricing else _rate pricing speech_names).

Definition absent {A} (x : option A) : bool := match x with Some _ => false | None => true end.
Definition nonzero (n : Z) : bool := negb (n =? 0).
(** [quantity] as a condition *)
Definition some_quantity (quantity : option Q) : bool := match quantity with Some q => negb (Qeq_bool q 0) | None => false end.

(** Whether every component that was used has a rate. *)
Definition rates_complete (r : Rates) (usage : NormalizedUsage) (service : text) (quantity : option Q) : bool :=
  negb (nonzero (nu_prompt usage) && absent (rt_prompt r)) &&
  negb (nonzero (nu_completion usage) && absent (rt_completion r)) &&
  negb (nonzero (nu_searches usage) && absent (rt_search r)) &&
  negb (is_service service "image" && some_quantity quantity && negb (nonzero (nu_prompt usage) || nonzero (nu_completion usage)) &&
        absent (rt_image r) && absent (rt_request r)) &&
  negb (is_service service "speech" && some_quantity quantity && absent (rt_speech r)) &&
  negb (is_service service "video" && some_quantity quantity && absent (rt_video r)) &&
  negb (is_service service "audio" && some_quantity quantity && absent (rt_audio r)).

Definition tokens_item (category : string) (n : Z) (price : Q) (metadata : list (text * json)) : list LineItemQuote :=
  if nonzero n then [_line_item category (inject_Z n) (of_string "token") price metadata] else [].

(** The item of a service billed by quantity. *)
Definition quantity_item (name : string) (rate : option Q) (service : text) (quantity : option Q) (unit : option text) (default_unit : string)
    : list LineItemQuote :=
  match rate, quantity with
  | Some rate, Some quantity =>
      if is_service service name && Qltb 0 quantity then
        [_line_item name quantity (default (of_string default_unit) (text_or unit None)) rate []]
      else []
  | _, _ => []
  end.

Definition separately_priced_cache (r : Rates) : bool := negb (absent (rt_cache_read r)) || negb (absent (rt_cache_write r)).

Definition prompt_items (r : Rates) (usage : NormalizedUsage) (service : text) : list LineItemQuote :=
  match rt_prompt r with
  | Some prompt_rate =>
      if is_service service "speech" then []
      else if separately_priced_cache r then
        tokens_item "input_tokens" (Z.max 0 (nu_prompt usage - nu_cached usage - nu_cache_write usage)) prompt_rate [] ++
        tokens_item "cache_read_tokens" (nu_cached usage) (default prompt_rate (rt_cache_read r))
          [(of_string "fallback_to_prompt_rate", JBool (absent (rt_cache_read r)))] ++
        tokens_item "cache_write_tokens" (nu_cache_write usage) (default prompt_rate (rt_cache_write r))
          [(of_string "fallback_to_prompt_rate", JBool (absent (rt_cache_write r)))]
      else tokens_item "input_tokens" (nu_prompt usage) prompt_rate []
  | None => []
  end.

Definition completion_items (r : Rates) (usage : NormalizedUsage) (service : text) : list LineItemQuote :=
  match rt_completion r with
  | Some completion_rate =>
      if is_service service "speech" then []
      else
        match rt_reasoning r with
        | Some reasoning_rate =>
            tokens_item "output_tokens" (Z.max 0 (nu_completion usage - nu_reasoning usage)) completion_rate [] ++
            tokens_item "reasoning_tokens" (nu_reasoning usage) reasoning_rate []
        | None => tokens_item "output_tokens" (nu_completion usage) completion_rate []
        end
  | None => []
  end.

(** The items the provider's own price list gives, in the order of the code. *)
Definition priced_items (r : Rates) (usage : NormalizedUsage) (service : text) (quantity : option Q) (unit : option text) : list LineItemQuote :=
  quantity_item "video" (rt_video r) service quantity unit "clip" ++
  prompt_items r usage service ++ completion_items r usage service ++
  match rt_request r with Some rate => [_line_item "request" 1 (of_string "request") rate []] | None => [] end ++
  quantity_item "image" (rt_image r) service quantity unit "image" ++
  quantity_item "speech" (rt_speech r) service quantity unit "character" ++
  quantity_item "audio" (rt_audio r) service quantity unit "second" ++
  match rt_search r with
  | Some rate => if nonzero (nu_searches usage) then [_line_item "web_search" (inject_Z (nu_searches usage)) (of_string "request") rate []] else []
  | None => []
  end.

(** The normalized columns of the model, when the price list gave nothing. *)
Definition column_items (model : AIModel) (usage : NormalizedUsage) : list LineItemQuote :=
  let input_rate := rate_column (am_input_per_1k model) in
  let output_rate := rate_column (am_output_per_1k model) in
  let items :=
    match input_rate with Some rate => tokens_item "input_tokens" (nu_prompt usage) (rate / 1000)%Q [] | None => [] end ++
    match output_rate with Some rate => tokens_item "output_tokens" (nu_completion usage) (rate / 1000)%Q [] | None => [] end in
  match items, input_rate, output_rate with
  | [], Some i, Some o =>
      if Qeq_bool i 0 && Qeq_bool o 0 && (nonzero (nu_prompt usage) || nonzero (nu_completion usage)) then
        [_line_item "input_tokens" (inject_Z (nu_prompt usage)) (of_string "token") 0 [];
         _line_item "output_tokens" (inject_Z (nu_completion usage)) (of_string "token") 0 []]
      else []
  | _, _, _ => items
  end.
Definition columns_complete (model : AIModel) (usage : NormalizedUsage) : bool :=
  negb (nonzero (nu_prompt usage) && absent (rate_column (am_input_per_1k model))) &&
  negb (nonzero (nu_completion usage) && absent (rate_column (am_output_per_1k model))).

(** The price list a video service reads also has the rates of its capabilities. *)
Definition service_pricing (ai_model : option AIModel) (service : text) : list (text * json) :=
  let pricing := _pricing_map ai_model in
  let raw := _parse_pricing_raw ai_model in
  if is_service service "video" then
    let meta k := match field (of_string k) raw with Some v => v | None => JNull end in
    let pick a b := if truthy a then a else b in
    match pick (meta "video_capabilities") (meta "video_generation") with
    | JObj video_meta =>
        let at_key k := match field (of_string k) video_meta with Some v => v | None => JNull end in
        match pick (at_key "pricing") (at_key "pricing_skus") with
        | JObj video_pricing => merge_fields pricing video_pricing
        | _ => pricing
        end
    | _ => pricing
    end
  else pricing.

Definition cost_of (item : LineItemQuote) : Q := default 0%Q (li_cost item).
Definition items_total (items : list LineItemQuote) : Q := Qsum (cost_of <$> items).

Definition JRate (x : option Q) : json := match x with Some q => JFloat (repr_of q) | None => JNull end.

Definition _catalog_quote (ai_model : option AIModel) (usage : NormalizedUsage) (provider service : text) (quantity : option Q)
    (unit : option text) : option Q * list LineItemQuote * option json :=
  let pricing := service_pricing ai_model service in
  let rates := rates_of pricing service in
  let listed := match pricing with [] => [] | _ => priced_items rates usage service quantity unit end in
  let listed_complete := match pricing with [] => true | _ => rates_complete rates usage service quantity end in
  let '(items, complete) :=
    match listed, ai_model with
    | [], Some model => (column_items model usage, listed_complete && columns_complete model usage)
    | _, _ => (listed, listed_complete)
    end in
  match items with
  | [] => (None, [], None)
  | _ =>
      (if complete then Some (Qmax 0 (items_total items)) else None, items,
       Some (JObj [(of_string "provider_type", JStr (py_lower provider));
                   (of_string "model_id", match ai_model with Some m => JStr (am_external m) | None => JNull end);
                   (of_string "service_type", JStr service);
                   (of_string "normalized_input_cost_per_1k", JRate (ai_model ≫= am_input_per_1k));
                   (of_string "normalized_output_cost_per_1k", JRate (ai_model ≫= am_output_per_1k));
                   (of_string "provider_pricing", JObj pricing);
                   (of_string "provider_catalog", JObj (_parse_pricing_raw ai_model))]))
  end.
End catalog.

(** ** The choice of a cost *)

Section quotes.
Context `{PyNumber} `{PyInt} `{PyRepr} `{PyStr} `{PyFloatText} `{PyFloat}.
(** [litellm.completion_cost] for a model of a provider, with the prompt and the
    completion; [None] when it raises. *)
Variable completion_cost : text -> text -> text -> text -> option pyfloat.

Definition _litellm_estimate (provider : text) (model_id : option text) (prompt completion : text) : option Q :=
  match model_id with
  | None | Some [] => None
  | Some model =>
      match completion_cost provider model prompt completion with
      | Some (Finite q) => if Qltb q 0 then None else Some q
      | _ => None
      end
  end.

Definition unknown_quote : CostQuote :=
  MkQuote None None None (of_string COST_SOURCE_UNKNOWN) (of_string CONFIDENCE_UNKNOWN) [] None None.

(** [float(quantity or 1)] *)
Definition quantity_or_one (quantity : option Q) : Q := match quantity with Some q => if Qeq_bool q 0 then 1%Q else q | None => 1%Q end.

Definition quote_usage (usage : NormalizedUsage) (ai_model : option AIModel) (provider_type : option text) (service : text)
    (model_id : option text) (quantity : option Q) (unit : option text) (prompt completion : text) : CostQuote :=
  let provider := normal_name provider_type in
  let '(calculated, items, payload) := _catalog_quote ai_model usage provider service quantity unit in
  match nu_provider_cost usage with
  | Some cost =>
      MkQuote (Some cost) calculated (Some cost) (of_string COST_SOURCE_PROVIDER) (of_string CONFIDENCE_EXACT) items payload
        (match payload with Some _ => Some (of_string COST_SOURCE_CATALOG) | None => None end)
  | None =>
      match calculated with
      | Some cost =>
          MkQuote None (Some cost) (Some cost) (of_string COST_SOURCE_CATALOG) (of_string CONFIDENCE_CALCULATED) items payload
            (Some (of_string COST_SOURCE_CATALOG))
      | None =>
          match first_of (nu_litellm_cost usage) (_litellm_estimate provider model_id prompt completion) with
          | Some cost =>
              MkQuote None (Some cost) (Some cost) (of_string COST_SOURCE_LITELLM) (of_string CONFIDENCE_ESTIMATED)
                [MkItem service (quantity_or_one quantity) (default (of_string "request") (text_or unit None))
                   (Some (cost / Qmax 1 (quantity_or_one quantity))%Q) (Some cost) (of_string COST_SOURCE_LITELLM) []] None None
          | None => unknown_quote
          end
      end
  end.

(** ** Events *)

Record PendingUsageEvent := MkPending {
  pe_provider : text; pe_service : text; pe_operation : text; pe_model : option text; pe_connection : option Z; pe_attempt : Z;
  pe_status : text; pe_usage : NormalizedUsage; pe_quote : CostQuote; pe_started : Z; pe_completed : Z; pe_key : text;
  pe_quantity : option Q; pe_unit : option text; pe_error : option text; pe_snapshot : option Z
}.

(** What the first answer lacks is taken from the fallback. *)
Definition merge_usage (usage fallback : NormalizedUsage) : NormalizedUsage :=
  let int_or a b := if nonzero a then a else b in
  MkUsage (int_or (nu_prompt usage) (nu_prompt fallback)) (int_or (nu_completion usage) (nu_completion fallback))
    (int_or (nu_cached usage) (nu_cached fallback)) (int_or (nu_cache_write usage) (nu_cache_write fallback))
    (int_or (nu_reasoning usage) (nu_reasoning fallback)) (int_or (nu_searches usage) (nu_searches fallback))
    (first_of (nu_quantity usage) (nu_quantity fallback)) (text_or (nu_unit usage) (nu_unit fallback))
    (first_of (nu_provider_cost usage) (nu_provider_cost fallback)) (first_of (nu_litellm_cost usage) (nu_litellm_cost fallback))
    (text_or (nu_upstream usage) (nu_upstream fallback))
    [(of_string "primary", JObj (nu_raw usage)); (of_string "fallback", JObj (nu_raw fallback))].

Definition override_counts (given : TokenCounts) (usage : NormalizedUsage) : NormalizedUsage :=
  MkUsage (given_or (ct_prompt given) (nu_prompt usage)) (given_or (ct_completion given) (nu_completion usage))
    (given_or (ct_cached given) (nu_cached usage)) (given_or (ct_cache_write given) (nu_cache_write usage))
    (given_or (ct_reasoning given) (nu_reasoning usage)) (nu_searches usage) (nu_quantity usage) (nu_unit usage)
    (nu_provider_cost usage) (nu_litellm_cost usage) (nu_upstream usage) (nu_raw usage).

Definition observed_billing (usage : NormalizedUsage) : bool :=
  nonzero (nu_prompt usage) || nonzero (nu_completion usage) || nonzero (nu_cached usage) || nonzero (nu_cache_write usage) ||
  nonzero (nu_reasoning usage) || nonzero (nu_searches usage) || negb (absent (nu_quantity usage)) ||
  negb (absent (nu_provider_cost usage)) || negb (absent (nu_litellm_cost usage)).

Definition ended_badly (status : text) : bool :=
  existsb (fun name => bool_decide (py_lower status = of_string name)) ["failed"; "cancelled"; "timeout"]%string.

(** What a call of [capture_usage_event] is about, besides the answers. *)
Record Attempt := MkAttempt {
  at_provider : option text; at_service : text; at_operation : text; at_model : option text; at_index : Z; at_status : text;
  at_started : option Z; at_completed : option Z; at_counts : TokenCounts; at_quantity : option Q; at_unit : option text;
  at_prompt : text; at_completion : text; at_error : option text; at_key : option text
}.

(** [now] is the clock, [new_id] the fresh uuid. *)
Definition capture_usage_event (response : pyobj) (fallback_response : option pyobj) (ai_model : option AIModel) (a : Attempt)
    (now : Z) (new_id : text) : PendingUsageEvent :=
  let usage := extract_normalized_usage response (at_provider a) no_counts in
  let usage := match fallback_response with
    | Some fallback => merge_usage usage (extract_normalized_usage fallback (at_provider a) no_counts)
    | None => usage
    end in
  let usage := override_counts (at_counts a) usage in
  let quantity := first_of (nu_quantity usage) (at_quantity a) in
  let unit := text_or (nu_unit usage) (at_unit a) in
  let quote :=
    if ended_badly (at_status a) && negb (observed_billing usage) then unknown_quote
    else quote_usage usage ai_model (at_provider a) (at_service a) (at_model a) quantity unit (at_prompt a) (at_completion a) in
  MkPending (normal_name (at_provider a)) (at_service a) (at_operation a) (at_model a) (ai_model ≫= am_connection)
    (Z.max 0 (at_index a)) (at_status a) usage quote (default now (at_started a)) (default now (at_completed a))
    (match text_or (at_key a) None with Some key => take 220 key | None => of_string "usage-event:" ++ new_id end)
    quantity unit (or_none (take 2000 (default [] (at_error a)))) None.

Definition usage_of_counts (prompt completion cached : Z) : NormalizedUsage :=
  MkUsage (Z.max 0 prompt) (Z.max 0 completion) (Z.max 0 cached) 0 0 0 None None None None None [].

Definition legacy_usage_event (model_id : text) (prompt_tokens completion_tokens cached_tokens : Z) (total_cost_usd : pyfloat)
    (operation_name : text) (now : Z) (new_id : text) : PendingUsageEvent :=
  let cost := Qmax 0 (_signed_float total_cost_usd) in
  let source := of_string COST_SOURCE_LEGACY in
  MkPending (of_string "unknown") (of_string "llm") operation_name (Some model_id) None 0 (of_string STATUS_SUCCEEDED)
    (usage_of_counts prompt_tokens completion_tokens cached_tokens)
    (MkQuote None (Some cost) (Some cost) source (of_string CONFIDENCE_ESTIMATED)
       [MkItem (of_string "legacy_request") 1 (of_string "request") (Some cost) (Some cost) source []] None None)
    now now (of_string "usage-event:" ++ new_id) None None None None.
End quotes.

(** ** Totals of an operation's events *)

Record AccountingSummary := MkSummary {
  as_operation : string; as_total : Q; as_provider : option Q; as_calculated : option Q; as_source : text; as_confidence : text;
  as_unpriced : Z; as_prompt : Z; as_completion : Z; as_cached : Z; as_created : bool
}.

Definition sum_some (l : list (option Q)) : option Q := match omap id l with [] => None | l => Some (Qsum l) end.
Definition Zsum (l : list Z) : Z := foldr Z.add 0 l.
(** The members of [{f(x) for x in l}], in the order they were first met. *)
Definition distinct (l : list text) : list text := remove_dups l.

Definition summary_labels (events : list PendingUsageEvent) (unpriced : Z) : text * text :=
  let confidences := distinct (cq_confidence ∘ pe_quote <$> events) in
  let sources := distinct (cq_source ∘ pe_quote <$> events) in
  match events, confidences, sources with
  | [], _, _ => (of_string COST_SOURCE_UNKNOWN, of_string CONFIDENCE_UNKNOWN)
  | _, [confidence], [source] => (source, confidence)
  | _, [confidence], _ => (of_string "mixed", confidence)
  | _, _, _ => (of_string "mixed", if 0 <? unpriced then of_string CONFIDENCE_UNKNOWN else of_string CONFIDENCE_ESTIMATED)
  end.

Definition summarize_pending_events (events : list PendingUsageEvent) : AccountingSummary :=
  let quotes := pe_quote <$> events in
  let unpriced := Z.of_nat (length (filter (fun q => cq_final q = None) quotes)) in
  let labels := summary_labels events unpriced in
  MkSummary "" (Qmax 0 (Qsum (omap cq_final quotes))) (sum_some (cq_provider <$> quotes)) (sum_some (cq_calculated <$> quotes))
    labels.1 labels.2 unpriced (Zsum (nu_prompt ∘ pe_usage <$> events)) (Zsum (nu_completion ∘ pe_usage <$> events))
    (Zsum (nu_cached ∘ pe_usage <$> events)) true.
