(* ===== verification/PricingFacts.v ===== *)
(** * What a quote bills

    The catalog's items bill exact quantities, at rates that are not negative, which
    are those that were used where the counts agree; and the choice of a cost follows its order. *)

From S2P Require Import Prelude Money Text Json JsonParse PyText Extractor Pricing.
From Stdlib Require Import QArith Qminmax Lqa.

#[local] Open Scope Z_scope.

Section pricing_facts.
Context `{PyNumber} `{PyInt} `{PyRepr} `{PyStr} `{PyFloatText} `{PyFloat}.

(** ** Rates are not negative *)

Definition nonneg (x : option Q) : Prop := forall q, x = Some q -> (0 <= q)%Q.

Lemma finite_nonneg o : nonneg (_finite_float o).
Proof.
  intros q. unfold _finite_float. destruct o as [v|]; [|done].
  assert (Hv : forall r : res pyfloat, match r with Ok (Finite q) => if Qltb q 0 then None else Some q | _ => None end = Some q -> (0 <= q)%Q).
  { intros r. destruct r as [[x| |]|]; try done. destruct (Qltb x 0) eqn:Hx; [done|]. intros [= <-]. by q_tests. }
  destruct v; try done; apply Hv.
Qed.

Lemma rate_nonneg pricing keys : nonneg (_rate pricing keys).
Proof.
  intros q. induction keys as [|key keys IH]; [done|]. cbn [_rate]. unfold json_finite.
  destruct (_finite_float _) eqn:Hf; [|done]. intros [= <-]. by apply (finite_nonneg _ _ Hf).
Qed.

Lemma column_nonneg x : nonneg (rate_column x).
Proof. intros q. unfold rate_column. destruct x as [x|]; [|done]. destruct (Qltb x 0) eqn:Hx; [done|]. intros [= <-]. by q_tests. Qed.

Lemma nonneg_map (f : Q -> Q) x : (forall q, 0 <= q -> 0 <= f q)%Q -> nonneg x -> nonneg (f <$> x).
Proof. intros Hf Hx q (y & -> & ->)%fmap_Some. by apply Hf, Hx. Qed.

Lemma nonneg_first a b : nonneg a -> nonneg b -> nonneg (first_of a b).
Proof. intros Ha Hb. destruct a; [exact Ha|exact Hb]. Qed.

Lemma nonneg_if (b : bool) x y : nonneg x -> nonneg y -> nonneg (if b then x else y).
Proof. by destruct b. Qed.

(** All rates of a service *)
Record rates_nonneg (r : Rates) : Prop := {
  rn_prompt : nonneg (rt_prompt r); rn_completion : nonneg (rt_completion r); rn_cache_read : nonneg (rt_cache_read r);
  rn_cache_write : nonneg (rt_cache_write r); rn_reasoning : nonneg (rt_reasoning r); rn_request : nonneg (rt_request r);
  rn_image : nonneg (rt_image r); rn_video : nonneg (rt_video r); rn_search : nonneg (rt_search r); rn_audio : nonneg (rt_audio r);
  rn_speech : nonneg (rt_speech r)
}.

Lemma divided_nonneg d x : (0 < d)%Q -> nonneg x -> nonneg ((fun q => q / d)%Q <$> x).
Proof. intros Hd. apply nonneg_map. intros q Hq. apply Qle_shift_div_l; [done|]. lra. Qed.

Lemma rates_of_nonneg pricing service : rates_nonneg (rates_of pricing service).
Proof.
  assert (Hsixty : (0 < 60)%Q) by done. assert (Hundred : (0 < 100)%Q) by done.
  split; cbn [rates_of rt_prompt rt_completion rt_cache_read rt_cache_write rt_reasoning rt_request rt_image rt_video rt_search rt_audio rt_speech];
    unfold _video_second_rate_usd, _audio_second_rate_usd, _speech_character_rate_usd; repeat first [apply rate_nonneg | apply nonneg_if | apply nonneg_first | apply divided_nonneg; [done|] | (by intros ? [=])].
Qed.

(** ** Items *)

(** An item is a quantity at a price. *)
Definition billed (item : LineItemQuote) : Prop :=
  exists price cost, li_price item = Some price /\ li_cost item = Some cost /\ (0 <= price)%Q /\ (0 <= li_quantity item)%Q /\
    (cost == li_quantity item * price)%Q.

Lemma line_item_billed category quantity unit price metadata :
  (0 <= quantity)%Q -> (0 <= price)%Q -> billed (_line_item category quantity unit price metadata).
Proof.
  intros Hq Hp. exists price, (Qmax 0 (quantity * price)). cbn. split_and!; try done. apply Q.max_r. by apply Qmult_le_0_compat.
Qed.

Definition counts_nonneg (u : NormalizedUsage) : Prop :=
  0 <= nu_prompt u /\ 0 <= nu_completion u /\ 0 <= nu_cached u /\ 0 <= nu_cache_write u /\ 0 <= nu_reasoning u /\ 0 <= nu_searches u.

Lemma Z_Q_nonneg n : 0 <= n -> (0 <= inject_Z n)%Q.
Proof. intros Hn. change 0%Q with (inject_Z 0). by rewrite <- Zle_Qle. Qed.

Lemma tokens_billed category n price metadata : 0 <= n -> (0 <= price)%Q -> Forall billed (tokens_item category n price metadata).
Proof.
  intros Hn Hp. unfold tokens_item. destruct (nonzero n); [|done]. constructor; [|done]. apply line_item_billed; [by apply Z_Q_nonneg|done].
Qed.

Lemma quantity_billed name rate service quantity unit default_unit :
  nonneg rate -> Forall billed (quantity_item name rate service quantity unit default_unit).
Proof.
  intros Hr. unfold quantity_item. destruct rate as [rate|]; [|done]. destruct quantity as [q|]; [|done].
  destruct (is_service service name && Qltb 0 q) eqn:Hq; [|done]. apply andb_true_iff in Hq as [_ Hq]. q_tests.
  constructor; [|done]. apply line_item_billed; [lra|by apply Hr].
Qed.

Lemma default_nonneg x q : nonneg x -> (0 <= q)%Q -> (0 <= default q x)%Q.
Proof. intros Hx Hq. destruct x; [by apply Hx|done]. Qed.

Lemma priced_items_billed r usage service quantity unit :
  rates_nonneg r -> counts_nonneg usage -> Forall billed (priced_items r usage service quantity unit).
Proof.
  intros Hr (U1 & U2 & U3 & U4 & U5 & U6). unfold priced_items. repeat apply Forall_app_2; try (apply quantity_billed; apply Hr).
  - unfold prompt_items. destruct (rt_prompt r) as [p|] eqn:Hp; [|done]. apply (rn_prompt _ Hr) in Hp.
    destruct (is_service service "speech"); [done|]. destruct (separately_priced_cache r); [|by apply tokens_billed].
    repeat apply Forall_app_2; apply tokens_billed; try lia; try done; apply default_nonneg; try done; apply Hr.
  - unfold completion_items. destruct (rt_completion r) as [p|] eqn:Hp; [|done]. apply (rn_completion _ Hr) in Hp.
    destruct (is_service service "speech"); [done|]. destruct (rt_reasoning r) as [g|] eqn:Hg; [|by apply tokens_billed].
    apply (rn_reasoning _ Hr) in Hg. apply Forall_app_2; apply tokens_billed; done || lia.
  - destruct (rt_request r) as [p|] eqn:Hp; [|done]. apply (rn_request _ Hr) in Hp. constructor; [|done]. by apply line_item_billed.
  - destruct (rt_search r) as [p|] eqn:Hp; [|done]. apply (rn_search _ Hr) in Hp. destruct (nonzero _); [|done].
    constructor; [|done]. apply line_item_billed; [by apply Z_Q_nonneg|done].
Qed.

Lemma column_items_billed model usage : counts_nonneg usage -> Forall billed (column_items model usage).
Proof.
  intros (U1 & U2 & _). unfold column_items.
  pose proof (column_nonneg (am_input_per_1k model)) as Hi. pose proof (column_nonneg (am_output_per_1k model)) as Ho.
  set (i := rate_column (am_input_per_1k model)) in *. set (o := rate_column (am_output_per_1k model)) in *.
  assert (Hall : Forall billed (match i with Some rate => tokens_item "input_tokens" (nu_prompt usage) (rate / 1000)%Q [] | None => [] end ++
                                match o with Some rate => tokens_item "output_tokens" (nu_completion usage) (rate / 1000)%Q [] | None => [] end)).
  { assert (Hd : forall x, (0 <= x)%Q -> (0 <= x / 1000)%Q) by (intros x Hx; apply Qle_shift_div_l; [done|lra]).
    apply Forall_app_2; [destruct i as [x|]|destruct o as [x|]]; try done; apply tokens_billed; try done; apply Hd; (by apply Hi) || (by apply Ho). }
  destruct (_ ++ _) as [|x l]; [|done]. destruct i; [|done]. destruct o; [|done]. case_match; [|done].
  repeat constructor; apply line_item_billed; done || by apply Z_Q_nonneg.
Qed.

(** ** Every unit is billed once *)

Definition in_categories (cats : list string) (item : LineItemQuote) : bool :=
  existsb (fun name => bool_decide (li_category item = of_string name)) cats.
(** The quantity that the items of some categories bill. *)
Definition billed_quantity (cats : list string) (items : list LineItemQuote) : Q :=
  Qsum ((fun item => if in_categories cats item then li_quantity item else 0%Q) <$> items).
Definition input_categories : list string := ["input_tokens"; "cache_read_tokens"; "cache_write_tokens"]%string.
Definition output_categories : list string := ["output_tokens"; "reasoning_tokens"]%string.
Definition search_categories : list string := ["web_search"]%string.
Definition speech_categories : list string := ["speech"]%string.

Lemma billed_quantity_app cats items items' :
  (billed_quantity cats (items ++ items') == billed_quantity cats items + billed_quantity cats items')%Q.
Proof. unfold billed_quantity. rewrite fmap_app. apply Qsum_app. Qed.

(** Whether a category is one of some; both are known names. *)
Definition listed (cats : list string) (category : string) : bool :=
  existsb (fun name => bool_decide (of_string category = of_string name)) cats.

Lemma tokens_quantity cats category n price metadata :
  (billed_quantity cats (tokens_item category n price metadata) == if listed cats category then inject_Z n else 0)%Q.
Proof.
  unfold tokens_item, nonzero. destruct (Z.eqb_spec n 0) as [->|Hn]; cbn [negb].
  - change (billed_quantity cats []) with 0%Q. by destruct (listed cats category).
  - change (billed_quantity cats _) with ((if listed cats category then inject_Z n else 0) + 0)%Q. destruct (listed cats category); ring.
Qed.

Lemma quantity_quantity cats name rate service quantity unit default_unit :
  listed cats name = false -> (billed_quantity cats (quantity_item name rate service quantity unit default_unit) == 0)%Q.
Proof.
  intros Hl. unfold quantity_item. destruct rate; [|done]. destruct quantity; [|done]. destruct (_ && _); [|done].
  unfold billed_quantity. cbn [fmap list_fmap Qsum foldr]. unfold in_categories. cbn [li_category _line_item].
  change (existsb _ cats) with (listed cats name). by rewrite Hl.
Qed.

(** The parts of the counts are parts: the provider says that no more was cached or
    written to the cache than was asked, nor more reasoned than answered. *)
Definition parts_fit (u : NormalizedUsage) : Prop :=
  nu_cached u + nu_cache_write u <= nu_prompt u /\ nu_reasoning u <= nu_completion u.

(** The tokens that a price list bills for the prompt: none for speech, whose
    characters are billed; with a rate for the cache, its parts, whatever the
    whole; else the whole. *)
Definition billed_prompt (r : Rates) (usage : NormalizedUsage) (service : text) : Z :=
  match rt_prompt r with
  | Some _ =>
      if is_service service "speech" then 0
      else if separately_priced_cache r then Z.max (nu_prompt usage) (nu_cached usage + nu_cache_write usage)
      else nu_prompt usage
  | None => 0
  end.
Definition billed_completion (r : Rates) (usage : NormalizedUsage) (service : text) : Z :=
  match rt_completion r with
  | Some _ =>
      if is_service service "speech" then 0
      else match rt_reasoning r with
           | Some _ => Z.max (nu_completion usage) (nu_reasoning usage)
           | None => nu_completion usage
           end
  | None => 0
  end.

Lemma tokens_three cats c1 c2 c3 n1 n2 n3 p1 p2 p3 m1 m2 m3 :
  listed cats c1 = true -> listed cats c2 = true -> listed cats c3 = true ->
  (billed_quantity cats (tokens_item c1 n1 p1 m1 ++ tokens_item c2 n2 p2 m2 ++ tokens_item c3 n3 p3 m3) == inject_Z (n1 + n2 + n3))%Q.
Proof. intros L1 L2 L3. rewrite !billed_quantity_app, !tokens_quantity, L1, L2, L3, !inject_Z_plus. ring. Qed.

Lemma prompt_quantity r usage service : counts_nonneg usage ->
  (billed_quantity input_categories (prompt_items r usage service) == inject_Z (billed_prompt r usage service))%Q.
Proof.
  intros (U1 & U2 & U3 & U4 & U5 & U6). unfold prompt_items, billed_prompt. destruct (rt_prompt r); [|done].
  destruct (is_service service "speech"); [done|]. destruct (separately_priced_cache r).
  - rewrite tokens_three by done. f_equiv. lia.
  - by rewrite tokens_quantity.
Qed.

Lemma completion_quantity r usage service : counts_nonneg usage ->
  (billed_quantity output_categories (completion_items r usage service) == inject_Z (billed_completion r usage service))%Q.
Proof.
  intros (U1 & U2 & U3 & U4 & U5 & U6). unfold completion_items, billed_completion. destruct (rt_completion r); [|done].
  destruct (is_service service "speech"); [done|]. destruct (rt_reasoning r).
  - rewrite billed_quantity_app, !tokens_quantity. change (listed _ _) with true. change (listed _ _) with true. cbv iota.
    rewrite <- inject_Z_plus. f_equiv. lia.
  - by rewrite tokens_quantity.
Qed.

(** Decides whether known categories are among known ones. *)
Ltac categories := repeat match goal with
  | |- context [listed ?cats ?category] => let b := eval vm_compute in (listed cats category) in change (listed cats category) with b
  end; cbv iota.

Lemma other_items cats items : Forall (fun item => in_categories cats item = false) items -> (billed_quantity cats items == 0)%Q.
Proof.
  unfold billed_quantity. induction 1 as [|item items Hi _ IH]; [done|]. cbn [fmap list_fmap Qsum foldr]. rewrite Hi.
  change (foldr Qplus 0%Q) with Qsum. unfold fmap in IH. rewrite IH. ring.
Qed.

Lemma others_in_input r usage service quantity unit :
  (billed_quantity input_categories (priced_items r usage service quantity unit) ==
   billed_quantity input_categories (prompt_items r usage service))%Q.
Proof.
  unfold priced_items. rewrite !billed_quantity_app, !quantity_quantity by done.
  assert (Hc : (billed_quantity input_categories (completion_items r usage service) == 0)%Q).
  { unfold completion_items. repeat case_match; try done; rewrite ?billed_quantity_app, ?tokens_quantity; categories; ring. }
  rewrite Hc. destruct (rt_request r), (rt_search r); [..|]; try destruct (nonzero (nu_searches usage));
    rewrite ?(other_items input_categories [_line_item "request" _ _ _ _]), ?(other_items input_categories [_line_item "web_search" _ _ _ _])
      by (by repeat constructor); change (billed_quantity input_categories []) with 0%Q; ring.
Qed.

Lemma others_in_output r usage service quantity unit :
  (billed_quantity output_categories (priced_items r usage service quantity unit) ==
   billed_quantity output_categories (completion_items r usage service))%Q.
Proof.
  unfold priced_items. rewrite !billed_quantity_app, !quantity_quantity by done.
  assert (Hc : (billed_quantity output_categories (prompt_items r usage service) == 0)%Q).
  { unfold prompt_items. repeat case_match; try done; rewrite ?billed_quantity_app, ?tokens_quantity; categories; ring. }
  rewrite Hc. destruct (rt_request r), (rt_search r); [..|]; try destruct (nonzero (nu_searches usage));
    rewrite ?(other_items output_categories [_line_item "request" _ _ _ _]), ?(other_items output_categories [_line_item "web_search" _ _ _ _])
      by (by repeat constructor); change (billed_quantity output_categories []) with 0%Q; ring.
Qed.

Lemma search_quantity r usage service quantity unit rate :
  rt_search r = Some rate ->
  (billed_quantity search_categories (priced_items r usage service quantity unit) == inject_Z (nu_searches usage))%Q.
Proof.
  intros Hr. unfold priced_items. rewrite !billed_quantity_app, !quantity_quantity by done. rewrite Hr.
  assert (Hp : (billed_quantity search_categories (prompt_items r usage service) == 0)%Q).
  { unfold prompt_items. repeat case_match; try done; rewrite ?billed_quantity_app, ?tokens_quantity; categories; ring. }
  assert (Hc : (billed_quantity search_categories (completion_items r usage service) == 0)%Q).
  { unfold completion_items. repeat case_match; try done; rewrite ?billed_quantity_app, ?tokens_quantity; categories; ring. }
  assert (Hq : (billed_quantity search_categories (match rt_request r with Some rate => [_line_item "request" 1 (of_string "request") rate []] | None => [] end) == 0)%Q)
    by (destruct (rt_request r); by apply other_items; repeat constructor).
  rewrite Hp, Hc, Hq. unfold nonzero. destruct (Z.eqb_spec (nu_searches usage) 0) as [->|Hn]; cbn [negb].
  - change (billed_quantity search_categories []) with 0%Q. ring.
  - change (billed_quantity search_categories [_]) with (inject_Z (nu_searches usage) + 0)%Q. ring.
Qed.

Lemma columns_quantity cats category n r model usage :
  column_items model usage = r ->
  columns_complete model usage = true -> (cats, category, n) = (input_categories, "input_tokens"%string, nu_prompt usage) \/
    (cats, category, n) = (output_categories, "output_tokens"%string, nu_completion usage) ->
  (billed_quantity cats r == inject_Z n)%Q.
Proof.
  intros <- Hc Hwhich. unfold column_items, columns_complete in *.
  set (i := rate_column (am_input_per_1k model)) in *. set (o := rate_column (am_output_per_1k model)) in *.
  assert (Hz : (i = None -> nu_prompt usage = 0) /\ (o = None -> nu_completion usage = 0)).
  { unfold nonzero in Hc. split; intros Hn; rewrite Hn in Hc; cbn [absent] in Hc;
      destruct (Z.eqb_spec (nu_prompt usage) 0), (Z.eqb_spec (nu_completion usage) 0); cbn in Hc; done || by destruct (absent _). }
  destruct Hz as [Z1 Z2].
  set (listed_items := match i with Some rate => _ | None => [] end ++ _).
  assert (Hlisted : (billed_quantity cats listed_items == inject_Z n)%Q).
  { unfold listed_items. rewrite billed_quantity_app.
    destruct Hwhich as [[= -> _ ->]|[= -> _ ->]]; destruct i as [x|], o as [y|]; rewrite ?tokens_quantity;
      categories;
      change (billed_quantity input_categories []) with 0%Q; change (billed_quantity output_categories []) with 0%Q; try ring;
      rewrite ?Z1, ?Z2 by done; ring. }
  destruct listed_items; [|done]. destruct i; [|done]. destruct o; [|done]. case_match; [|done].
  destruct Hwhich as [[= -> _ ->]|[= -> _ ->]].
  - change (billed_quantity input_categories _) with (inject_Z (nu_prompt usage) + (0 + 0))%Q. ring.
  - change (billed_quantity output_categories _) with (0 + (inject_Z (nu_completion usage) + 0))%Q. ring.
Qed.

Lemma counted_searches r usage service quantity :
  rates_complete r usage service quantity = true -> nu_searches usage = 0 \/ exists rate, rt_search r = Some rate.
Proof.
  unfold rates_complete. rewrite !andb_true_iff. intros [[[[[[_ _] Hs] _] _] _] _]. apply negb_true_iff, andb_false_iff in Hs as [Hs|Hs].
  - left. unfold nonzero in Hs. by apply negb_false_iff, Z.eqb_eq in Hs.
  - right. destruct (rt_search r) as [rate|]; [by exists rate|done].
Qed.

Lemma complete_prompt r usage service quantity :
  rates_complete r usage service quantity = true -> nu_prompt usage = 0 \/ exists rate, rt_prompt r = Some rate.
Proof.
  unfold rates_complete. rewrite !andb_true_iff. intros [[[[[[Hs _] _] _] _] _] _]. apply negb_true_iff, andb_false_iff in Hs as [Hs|Hs].
  - left. unfold nonzero in Hs. by apply negb_false_iff, Z.eqb_eq in Hs.
  - right. destruct (rt_prompt r) as [rate|]; [by exists rate|done].
Qed.

Lemma complete_completion r usage service quantity :
  rates_complete r usage service quantity = true -> nu_completion usage = 0 \/ exists rate, rt_completion r = Some rate.
Proof.
  unfold rates_complete. rewrite !andb_true_iff. intros [[[[[[_ Hs] _] _] _] _] _]. apply negb_true_iff, andb_false_iff in Hs as [Hs|Hs].
  - left. unfold nonzero in Hs. by apply negb_false_iff, Z.eqb_eq in Hs.
  - right. destruct (rt_completion r) as [rate|]; [by exists rate|done].
Qed.

(** The list's items, when every unit that was used has a rate *)
Lemma listed_quantities r usage service quantity unit :
  counts_nonneg usage -> rates_complete r usage service quantity = true ->
  let items := priced_items r usage service quantity unit in
  (billed_quantity input_categories items == inject_Z (billed_prompt r usage service))%Q /\
  (billed_quantity output_categories items == inject_Z (billed_completion r usage service))%Q /\
  (billed_quantity search_categories items == inject_Z (nu_searches usage))%Q.
Proof.
  intros Hu Hc. cbv zeta. rewrite others_in_input, others_in_output. split_and!.
  - by apply prompt_quantity.
  - by apply completion_quantity.
  - destruct (rt_search r) as [p|] eqn:Hr; [by apply (search_quantity r usage service quantity unit p)|].
    destruct (counted_searches _ _ _ _ Hc) as [Hz|[p Hp']]; [|congruence]. rewrite Hz.
    unfold priced_items. rewrite Hr, !billed_quantity_app, !quantity_quantity by done.
    assert (H1' : (billed_quantity search_categories (prompt_items r usage service) == 0)%Q).
    { unfold prompt_items. repeat case_match; try done; rewrite ?billed_quantity_app, ?tokens_quantity; categories; ring. }
    assert (H2' : (billed_quantity search_categories (completion_items r usage service) == 0)%Q).
    { unfold completion_items. repeat case_match; try done; rewrite ?billed_quantity_app, ?tokens_quantity; categories; ring. }
    assert (H3' : (billed_quantity search_categories (match rt_request r with Some rate => [_line_item "request" 1 (of_string "request") rate []] | None => [] end) == 0)%Q)
      by (destruct (rt_request r); by apply other_items; repeat constructor).
    rewrite H1', H2', H3'. change (billed_quantity search_categories []) with 0%Q. change (inject_Z 0) with 0%Q. ring.
Qed.

(** What is billed of the prompt and the completion when the parts are parts *)
Lemma billed_tokens_fit r usage service quantity : parts_fit usage -> is_service service "speech" = false ->
  rates_complete r usage service quantity = true ->
  billed_prompt r usage service = nu_prompt usage /\ billed_completion r usage service = nu_completion usage.
Proof.
  intros [P1 P2] Hs Hc. unfold billed_prompt, billed_completion. rewrite Hs. split.
  - destruct (rt_prompt r) eqn:Hr; [destruct (separately_priced_cache r); lia|].
    destruct (complete_prompt _ _ _ _ Hc) as [?|[p Hp]]; [done|congruence].
  - destruct (rt_completion r) eqn:Hr; [destruct (rt_reasoning r); lia|].
    destruct (complete_completion _ _ _ _ Hc) as [?|[p Hp]]; [done|congruence].
Qed.

(** Speech is billed by its characters. *)
Lemma speech_quantity r usage service quantity unit q : is_service service "speech" = true -> quantity = Some q -> (0 < q)%Q ->
  rates_complete r usage service quantity = true ->
  (billed_quantity speech_categories (priced_items r usage service quantity unit) == q)%Q.
Proof.
  intros Hs -> Hq Hc.
  assert (is_service service "video" = false /\ is_service service "image" = false /\ is_service service "audio" = false) as (Hv & Hi & Ha).
  { unfold is_service in *. apply bool_decide_eq_true in Hs as ->. by split_and!. }
  assert (exists rate, rt_speech r = Some rate) as [rate Hr].
  { unfold rates_complete in Hc. rewrite !andb_true_iff in Hc. destruct Hc as [[[_ Hc] _] _]. rewrite Hs in Hc. cbn [some_quantity] in Hc.
    destruct (rt_speech r) as [rate|]; [by exists rate|]. destruct (Qeq_bool q 0) eqn:Hz; [|done]. apply Qeq_bool_iff in Hz. lra. }
  assert (Qltb 0 q = true) as Hlt by (by apply Qltb_lt).
  assert (forall name rate d, is_service service name = false -> quantity_item name rate service (Some q) unit d = []) as Hnone.
  { intros name x d Hn. unfold quantity_item. destruct x; [|done]. by rewrite Hn. }
  unfold priced_items. rewrite !billed_quantity_app, !(Hnone "video"%string), !(Hnone "image"%string), !(Hnone "audio"%string) by done.
  unfold prompt_items, completion_items. rewrite Hs, Hr. unfold quantity_item. rewrite Hs, Hlt. cbn [andb].
  change (billed_quantity speech_categories [_line_item "speech" q _ rate []]) with (q + 0)%Q.
  destruct (rt_prompt r), (rt_completion r), (rt_request r), (rt_search r); try destruct (nonzero (nu_searches usage));
    rewrite ?(other_items speech_categories [_line_item "request" _ _ _ _]), ?(other_items speech_categories [_line_item "web_search" _ _ _ _])
      by (by repeat constructor); change (billed_quantity speech_categories []) with 0%Q; ring.
Qed.

Lemma column_searches model usage : (billed_quantity search_categories (column_items model usage) == 0)%Q.
Proof.
  unfold column_items. set (i := rate_column (am_input_per_1k model)). set (o := rate_column (am_output_per_1k model)).
  assert (Hl : (billed_quantity search_categories
    (match i with Some rate => tokens_item "input_tokens" (nu_prompt usage) (rate / 1000)%Q [] | None => [] end ++
     match o with Some rate => tokens_item "output_tokens" (nu_completion usage) (rate / 1000)%Q [] | None => [] end) == 0)%Q).
  { rewrite billed_quantity_app. destruct i, o; rewrite ?tokens_quantity; categories;
      change (billed_quantity search_categories []) with 0%Q; ring. }
  destruct (_ ++ _) eqn:E; [|exact Hl]. destruct i; [|done]. destruct o; [|done]. case_match; done.
Qed.

(** What the catalog answers: its price list when that gives items, else the model's columns. *)
Lemma catalog_cases ai_model usage provider service quantity unit c items payload :
  _catalog_quote ai_model usage provider service quantity unit = (Some c, items, payload) ->
  c = Qmax 0 (items_total items) /\
  let pricing := service_pricing ai_model service in
  let rates := rates_of pricing service in
  (pricing <> [] -> rates_complete rates usage service quantity = true) /\
  ((pricing <> [] /\ items = priced_items rates usage service quantity unit /\ items <> []) \/
   (exists model, (pricing = [] \/ priced_items rates usage service quantity unit = []) /\ items = column_items model usage /\
      columns_complete model usage = true)).
Proof.
  unfold _catalog_quote. cbv zeta. set (pricing := service_pricing ai_model service). set (rates := rates_of pricing service).
  destruct pricing as [|kv pricing'] eqn:Hpr.
  - destruct ai_model as [model|]; [|discriminate]. destruct (column_items model usage) as [|x l] eqn:Hcol; [discriminate|].
    destruct (true && columns_complete model usage) eqn:Hcc; [|discriminate]. intros [= <- <- <-]. split; [done|]. split; [done|].
    right. exists model. split; [by left|]. by rewrite Hcol.
  - destruct (priced_items rates usage service quantity unit) as [|x l] eqn:Hpi.
    + destruct ai_model as [model|]; [|discriminate]. destruct (column_items model usage) as [|x l] eqn:Hcol; [discriminate|].
      destruct (_ && columns_complete model usage) eqn:Hcc; [|discriminate]. intros [= <- <- <-]. apply andb_true_iff in Hcc as [Hc1 Hc2].
      split; [done|]. split; [done|]. right. exists model. split; [by right|]. by rewrite Hcol.
    + destruct (rates_complete rates usage service quantity) eqn:Hc; [|destruct ai_model; discriminate].
      destruct ai_model; intros [= <- <- <-]; (split; [done|]); (split; [done|]); by left.
Qed.

(** Whether the model's price list is what gives the items. *)
Definition by_list ai_model usage service quantity unit : bool :=
  negb (bool_decide (service_pricing ai_model service = [])) &&
  negb (bool_decide (priced_items (rates_of (service_pricing ai_model service) service) usage service quantity unit = [])).

(** C40: a cost that the catalog calculates bills every unit once.  It is the sum of
    items that are each a quantity at a price, neither negative.  Their quantities
    are exact.  When the parts of the counts are parts, and the service is not
    speech, the items of the prompt, cached or not, are its tokens, and those of
    the completion and of its reasoning its tokens.  In general, a price list
    bills, with a rate of its own for the cache or the reasoning, the larger of
    the whole and its parts, and the columns bill the whole; speech by a price
    list bills its characters and none of its tokens.  Web searches are billed
    when the model has a price list, and never when it has columns alone.  And a
    quote takes the provider's own figure first, then the catalog's, then
    LiteLLM's, and is left without a cost otherwise. *)
Theorem quote_bills_every_unit completion_cost ai_model usage provider_type service model_id quantity unit prompt completion :
  let catalog := _catalog_quote ai_model usage (normal_name provider_type) service quantity unit in
  let quote := quote_usage completion_cost usage ai_model provider_type service model_id quantity unit prompt completion in
  cq_final quote = first_of (nu_provider_cost usage) (first_of catalog.1.1
    (first_of (nu_litellm_cost usage) (_litellm_estimate completion_cost (normal_name provider_type) model_id prompt completion))) /\
  (forall c, catalog.1.1 = Some c -> counts_nonneg usage ->
    let items := catalog.1.2 in
    let rates := rates_of (service_pricing ai_model service) service in
    let listed := by_list ai_model usage service quantity unit in
    Forall billed items /\ (c == items_total items)%Q /\
    (billed_quantity input_categories items == inject_Z (if listed then billed_prompt rates usage service else nu_prompt usage))%Q /\
    (billed_quantity output_categories items == inject_Z (if listed then billed_completion rates usage service else nu_completion usage))%Q /\
    (parts_fit usage -> service <> of_string "speech" ->
       billed_quantity input_categories items == inject_Z (nu_prompt usage) /\
       billed_quantity output_categories items == inject_Z (nu_completion usage))%Q /\
    (listed = true -> service = of_string "speech" -> forall q, quantity = Some q -> 0 < q -> billed_quantity speech_categories items == q)%Q /\
    (billed_quantity search_categories items ==
       inject_Z (if bool_decide (service_pricing ai_model service = []) then 0 else nu_searches usage))%Q).
Proof.
  cbv zeta. split.
  - unfold quote_usage. destruct (_catalog_quote _ _ _ _ _ _) as [[calculated items] payload]. cbn [fst snd].
    destruct (nu_provider_cost usage); [done|]. destruct calculated; [done|]. cbn [first_of]. by destruct (first_of (nu_litellm_cost usage) _).
  - intros c Hc Hu. destruct (_catalog_quote _ _ _ _ _ _) as [[calculated items] payload] eqn:Hcat. cbn [fst snd] in *. subst calculated.
    apply catalog_cases in Hcat as (-> & Hcomplete & Hcases). cbv zeta in *.
    assert (Hbilled : Forall billed items).
    { destruct Hcases as [(_ & -> & _)|(model & _ & -> & _)]; [apply priced_items_billed; [apply rates_of_nonneg|done]|by apply column_items_billed]. }
    split; [done|]. split.
    { apply Q.max_r, Qsum_nonneg, Forall_fmap. apply (Forall_impl _ _ _ Hbilled). intros item (price & cost & _ & Hcost & Hp & Hq & Heq).
      unfold compose, cost_of. rewrite Hcost. cbn. rewrite Heq. by apply Qmult_le_0_compat. }
    unfold by_list. destruct Hcases as [(Hne & -> & Hitems)|(model & Hempty & -> & Hcc)].
    + rewrite !bool_decide_false by done. cbn [negb andb].
      destruct (listed_quantities _ _ _ _ unit Hu (Hcomplete Hne)) as (Q1 & Q2 & Q3). split_and!; [exact Q1|exact Q2| | |exact Q3].
      * intros Hfit Hsp. assert (Hs : is_service service "speech" = false) by (by apply bool_decide_eq_false).
        destruct (billed_tokens_fit _ _ _ _ Hfit Hs (Hcomplete Hne)) as [<- <-]. by split.
      * intros _ Hsp q Hq Hpos. by apply speech_quantity; [apply bool_decide_eq_true|..|by apply Hcomplete].
    + assert (negb (bool_decide (service_pricing ai_model service = [])) &&
        negb (bool_decide (priced_items (rates_of (service_pricing ai_model service) service) usage service quantity unit = [])) = false) as ->.
      { destruct Hempty as [->| ->]; [by rewrite bool_decide_true|by rewrite andb_false_r]. }
      assert (billed_quantity input_categories (column_items model usage) == inject_Z (nu_prompt usage))%Q as Q1
        by (by eapply columns_quantity; [done|done|by left]).
      assert (billed_quantity output_categories (column_items model usage) == inject_Z (nu_completion usage))%Q as Q2
        by (by eapply columns_quantity; [done|done|by right]).
      split_and!; [done|done|by split|done|]. rewrite column_searches. case_bool_decide as Hp; [done|].
      destruct Hempty as [?|Hp']; [done|]. destruct (listed_quantities _ _ _ _ unit Hu (Hcomplete Hp)) as (_ & _ & Q3). by rewrite Hp' in Q3.
Qed.

(** ** Events that are captured cost nothing negative *)

Lemma reported_nonneg provider usage : nonneg (reported_cost provider usage).
Proof. unfold reported_cost. repeat case_match; try apply finite_nonneg. by intros ? [=]. Qed.

Lemma estimated_nonneg provider usage hidden : nonneg (estimated_cost provider usage hidden).
Proof.
  unfold estimated_cost. destruct (json_finite _) as [q|] eqn:Hf; [intros ? [= <-]; by apply (finite_nonneg _ _ Hf)|].
  case_match; [by intros ? [=]|apply finite_nonneg].
Qed.

Definition usage_costs_nonneg (u : NormalizedUsage) : Prop := nonneg (nu_provider_cost u) /\ nonneg (nu_litellm_cost u).

Lemma extracted_nonneg response provider given : usage_costs_nonneg (extract_normalized_usage response provider given).
Proof. split; [apply reported_nonneg|apply estimated_nonneg]. Qed.

Lemma catalog_nonneg ai_model usage provider service quantity unit : nonneg (_catalog_quote ai_model usage provider service quantity unit).1.1.
Proof.
  intros c Hc. destruct (_catalog_quote _ _ _ _ _ _) as [[calculated items] payload] eqn:Hcat. cbn in Hc. subst calculated.
  apply catalog_cases in Hcat as [-> _]. apply Q.le_max_l.
Qed.

Lemma quote_nonneg completion_cost usage ai_model provider_type service model_id quantity unit prompt completion :
  usage_costs_nonneg usage -> nonneg (cq_final (quote_usage completion_cost usage ai_model provider_type service model_id quantity unit prompt completion)).
Proof.
  intros [Hp Hl]. pose proof (catalog_nonneg ai_model usage (normal_name provider_type) service quantity unit) as Hc.
  unfold quote_usage. destruct (_catalog_quote _ _ _ _ _ _) as [[calculated items] payload]. cbn [fst] in Hc.
  destruct (nu_provider_cost usage); [exact Hp|]. destruct calculated; [exact Hc|].
  assert (He : nonneg (_litellm_estimate completion_cost (normal_name provider_type) model_id prompt completion)).
  { intros q. unfold _litellm_estimate. destruct model_id as [[|x m]|]; [done| |done].
    destruct (completion_cost _ _ _ _) as [[x'| |]|]; try done. destruct (Qltb x' 0) eqn:Hq; [done|]. intros [= <-]. by q_tests. }
  pose proof (nonneg_first _ _ Hl He) as Hf. destruct (first_of (nu_litellm_cost usage) _); [exact Hf|by intros ? [=]].
Qed.

Lemma captured_cost_nonneg completion_cost response fallback ai_model a now new_id :
  (0 <= default 0 (cq_final (pe_quote (capture_usage_event completion_cost response fallback ai_model a now new_id))))%Q.
Proof.
  apply default_nonneg; [|done]. cbn [capture_usage_event pe_quote]. case_match; [by intros ? [=]|]. apply quote_nonneg.
  destruct fallback; [|split; apply extracted_nonneg].
  split; apply nonneg_first; apply extracted_nonneg.
Qed.
End pricing_facts.

(** ** Witness *)

Definition sample_ints : PyInt := {| int_of_str := nat_token; int_of_float _ := None |}.
Definition sample_repr : PyRepr := {| repr_container _ := of_string "{}" |}.
Definition sample_tokens : PyFloat := {| float_of_token _ := None |}.
Definition sample_numbers : PyNumber := {|
  float_of_int n := Some (Finite (inject_Z n)); float_of_text _ := None; float_of_repr _ := NotANumber |}.
(** [repr] of a whole float *)
Definition sample_float_text : PyFloatText := {| repr_of q := of_int (Qnum q) ++ of_string ".0" |}.

Section witness.
#[local] Existing Instance ascii_str.
#[local] Existing Instance sample_ints.
#[local] Existing Instance sample_repr.
#[local] Existing Instance sample_tokens.
#[local] Existing Instance sample_numbers.
#[local] Existing Instance sample_float_text.

Definition quotes_of (s : string) : text := of_string s ≫= fun c => if c =? 39 then [34] else [c].
Definition sample_model : AIModel := MkModel (Some 1) (of_string "acme") (of_string "acme-1") None None
  (Some (quotes_of "{'pricing':[{'prompt':2,'completion':3,'input_cache_read':1,'web_search':10}]}")).
Definition sample_answer : pyobj :=
  Plain (JObj [(of_string "id", JStr (of_string "r1"));
    (of_string "usage", JObj [(of_string "prompt_tokens", JInt 100); (of_string "completion_tokens", JInt 50);
       (of_string "prompt_tokens_details", JObj [(of_string "cached_tokens", JInt 40)]); (of_string "web_search_requests", JInt 2)])]).
Definition sample_usage : NormalizedUsage := extract_normalized_usage sample_answer (Some (of_string "acme")) no_counts.
Definition no_price_list (_ _ _ _ : text) : option pyfloat := None.

(** 60 tokens at 2, 40 from the cache at 1, 50 at 3 and 2 searches at 10. *)
Lemma quote_bills_every_unit_witness :
  exists c items payload, _catalog_quote (Some sample_model) sample_usage (of_string "acme") (of_string "llm") None None = (Some c, items, payload) /\
    c = 330%Q /\ cq_final (quote_usage no_price_list sample_usage (Some sample_model) (Some (of_string "acme")) (of_string "llm") None None None [] []) = Some c /\
    (billed_quantity input_categories items == 100)%Q /\ (billed_quantity output_categories items == 50)%Q.
Proof.
  destruct (quote_bills_every_unit no_price_list (Some sample_model) sample_usage (Some (of_string "acme")) (of_string "llm") None None None [] [])
    as [Hfinal Hbills].
  destruct (_catalog_quote (Some sample_model) sample_usage (of_string "acme") (of_string "llm") None None) as [[[c|] items] payload] eqn:Hcat;
    [|vm_compute in Hcat; discriminate].
  exists c, items, payload. split; [reflexivity|].
  change (normal_name (Some (of_string "acme"))) with (of_string "acme") in Hbills, Hfinal. rewrite Hcat in Hbills, Hfinal.
  destruct (Hbills c eq_refl) as (_ & _ & _ & _ & Hfit & _); [vm_compute; intuition discriminate|].
  destruct Hfit as [Hin Hout]; [vm_compute; intuition discriminate|discriminate|].
  split; [vm_compute in Hcat; by injection Hcat as <- _ _|]. split; [exact Hfinal|]. split; [exact Hin|exact Hout].
Defined.

(** A model priced by its columns alone: two web searches cost nothing, and the
    quote still counts as complete. *)
Lemma columns_bill_no_search :
  let model := MkModel (Some 1) (of_string "acme") (of_string "acme-1") (Some 1000%Q) (Some 1000%Q) None in
  let '(calculated, items, _) := _catalog_quote (Some model) sample_usage (of_string "acme") (of_string "llm") None None in
  negb (absent calculated) = true /\ (items_total items == 150)%Q /\ nu_searches sample_usage = 2 /\ (billed_quantity search_categories items == 0)%Q.
Proof. vm_compute. repeat split; reflexivity. Qed.
End witness.
