(* ===== verification/UsageLedger.v ===== *)
(** * The ledger of usage

    The second half of usage_accounting_service.py: configured rates, the rows an
    operation leaves (operation, events, items, ledger entries) and the
    corrections by which a provider's own figures are applied later.  Amounts in
    columns have twelve decimals ([numeric12]).  Ids and keys that the code
    draws with [uuid4], and the clock, are arguments. *)

From S2P Require Import Prelude Money Text Json JsonParse PyTime PyText Accounts Holds Reserve Extractor Pricing.
From Stdlib Require Import QArith Qminmax Qround.

#[local] Open Scope Z_scope.

(** ** Numeric(20, 12): rounding half away from zero *)

Definition tera : positive := 1000000000000.
Definition round_away (q : Q) : Z := if Qltb q 0 then - Qfloor (- q + (1 # 2)) else Qfloor (q + (1 # 2)).
Definition numeric12 (q : Q) : Q := round_away (q * inject_Z (Z.pos tera)) # tera.

(** ** Rows *)

Record PricingSnapshot := MkSnapshot {
  ps_connection : option Z; ps_provider : text; ps_model : option text; ps_service : text; ps_source : text; ps_fingerprint : text;
  ps_scope : option text; ps_pricing : text; ps_effective : Z; ps_expires : option Z
}.

Record UsageOperation := MkOperation {
  uo_subject_type : option string; uo_subject_id : option Z; uo_user : option Z; uo_api_key : option Z; uo_reservation : option string;
  uo_type : text; uo_source : text; uo_client : option text; uo_status : string; uo_accounting : string; uo_key : text;
  uo_total : Q; uo_provider : option Q; uo_calculated : option Q; uo_unpriced : Z; uo_metadata : option text;
  uo_started : Z; uo_completed : option Z; uo_reconciled : option Z
}.

Record UsageEvent := MkEvent {
  ue_operation : string; ue_connection : option Z; ue_snapshot : option Z; ue_run : option string; ue_provider_type : text; ue_service : text;
  ue_name : text; ue_model : option text; ue_attempt : Z; ue_upstream : option text; ue_key : text; ue_status : text;
  ue_prompt : Z; ue_completion : Z; ue_cached : Z; ue_cache_write : Z; ue_reasoning : Z; ue_quantity : option Q; ue_unit : option text;
  ue_provider : option Q; ue_calculated : option Q; ue_final : option Q; ue_source : text; ue_confidence : text; ue_raw : text;
  ue_error : option text; ue_attempts : Z; ue_tried : option Z; ue_started : Z; ue_completed : option Z; ue_reconciled : option Z
}.

Record CostLineItem := MkLineItem {
  ci_event : string; ci_category : text; ci_quantity : Q; ci_unit : text; ci_price : option Q; ci_cost : option Q; ci_source : text;
  ci_metadata : option text
}.

Record CostLedgerEntry := MkEntry {
  ce_operation : string; ce_event : option string; ce_log : option Z; ce_run : option string; ce_subject_type : option string;
  ce_subject_id : option Z; ce_type : string; ce_amount : Q; ce_source : text; ce_confidence : text; ce_key : text;
  ce_description : text; ce_effective : Z
}.

Record ReconciliationRun := MkRun {
  rn_connection : option Z; rn_provider : text; rn_source : text; rn_status : string; rn_start : option Z; rn_end : option Z;
  rn_expected : Q; rn_reported : Q; rn_adjustment : Q; rn_matched : Z; rn_unmatched : Z; rn_raw : option text;
  rn_error : option text; rn_started : Z; rn_completed : option Z
}.

(** The columns of request_logs that the accounting reads or writes. *)
Record LogRow := MkLogRow {
  lr_user : option Z; lr_api_key : option Z; lr_user_key : option Z; lr_reservation : option string; lr_model : text;
  lr_prompt : Z; lr_completion : Z; lr_cached : Z; lr_total : Q; lr_provider : option Q; lr_calculated : option Q;
  lr_source : text; lr_confidence : text; lr_unpriced : bool; lr_operation : option string; lr_time : Z; lr_reconciled : option Z;
  lr_success : bool
}.

(** [accounts] holds users, keys and holds; its ledger and logs are those of this record. *)
Record Books := MkBooks {
  accounts : DB; snapshots : gmap Z PricingSnapshot; operations : gmap string UsageOperation; usage_events : gmap string UsageEvent;
  line_items : list CostLineItem; ledger : gmap string CostLedgerEntry; runs : gmap string ReconciliationRun; logs : gmap Z LogRow;
  user_keys : gmap Z (option Z)
}.

Definition with_accounts (f : DB -> DB) (s : Books) : Books :=
  MkBooks (f (accounts s)) (snapshots s) (operations s) (usage_events s) (line_items s) (ledger s) (runs s) (logs s) (user_keys s).
Definition with_snapshots (f : gmap Z PricingSnapshot -> gmap Z PricingSnapshot) (s : Books) : Books :=
  MkBooks (accounts s) (f (snapshots s)) (operations s) (usage_events s) (line_items s) (ledger s) (runs s) (logs s) (user_keys s).
Definition with_operations (f : gmap string UsageOperation -> gmap string UsageOperation) (s : Books) : Books :=
  MkBooks (accounts s) (snapshots s) (f (operations s)) (usage_events s) (line_items s) (ledger s) (runs s) (logs s) (user_keys s).
Definition with_events (f : gmap string UsageEvent -> gmap string UsageEvent) (s : Books) : Books :=
  MkBooks (accounts s) (snapshots s) (operations s) (f (usage_events s)) (line_items s) (ledger s) (runs s) (logs s) (user_keys s).
Definition with_items (f : list CostLineItem -> list CostLineItem) (s : Books) : Books :=
  MkBooks (accounts s) (snapshots s) (operations s) (usage_events s) (f (line_items s)) (ledger s) (runs s) (logs s) (user_keys s).
Definition with_ledger (f : gmap string CostLedgerEntry -> gmap string CostLedgerEntry) (s : Books) : Books :=
  MkBooks (accounts s) (snapshots s) (operations s) (usage_events s) (line_items s) (f (ledger s)) (runs s) (logs s) (user_keys s).
Definition with_runs (f : gmap string ReconciliationRun -> gmap string ReconciliationRun) (s : Books) : Books :=
  MkBooks (accounts s) (snapshots s) (operations s) (usage_events s) (line_items s) (ledger s) (f (runs s)) (logs s) (user_keys s).
Definition with_logs (f : gmap Z LogRow -> gmap Z LogRow) (s : Books) : Books :=
  MkBooks (accounts s) (snapshots s) (operations s) (usage_events s) (line_items s) (ledger s) (runs s) (f (logs s)) (user_keys s).
Definition with_user_keys (f : gmap Z (option Z) -> gmap Z (option Z)) (s : Books) : Books :=
  MkBooks (accounts s) (snapshots s) (operations s) (usage_events s) (line_items s) (ledger s) (runs s) (logs s) (f (user_keys s)).

Definition IntegrityError : exn := OtherError "IntegrityError".
Definition NoResultFound : exn := OtherError "NoResultFound".

(** A session on the accounts alone: the services of [Holds] and [Reserve] run on it. *)
Definition on_accounts {A} (m : op DB A) : op Books A := fun s =>
  let '(r, db) := m (accounts s) in (r, with_accounts (fun _ => db) s).

(** [Integer] primary keys are drawn from a sequence. *)
Definition next_id {A} (m : gmap Z A) : Z := Z.succ (foldr Z.max 0 (fst <$> map_to_list m)).

(** The first row that satisfies a condition: [scalar_one_or_none] on a column with a unique index. *)
Definition find_row {K A} `{Countable K} (P : A -> bool) (m : gmap K A) : option (K * A) :=
  head (filter (fun kv => P kv.2 = true) (map_to_list m)).

(** ** Configured rates *)

Definition _json_text (v : json) : text := dumps v.

Section rates.
Context `{PyNumber} `{PyInt} `{PyRepr} `{PyStr} `{PyFloatText} `{PyFloat}.

Definition unit_aliases : list (string * string) :=
  [("credits", "credit"); ("requests", "request"); ("seconds", "second"); ("minutes", "minute"); ("characters", "character");
   ("images", "image"); ("tokens", "token")]%string.
Definition _normalize_unit (unit : option text) : text :=
  let value := (fun c => if c =? 32 then 95 else c) <$> py_lower (strip (default [] unit)) in
  match find (fun alias => bool_decide (of_string alias.1 = value)) unit_aliases with
  | Some alias => of_string alias.2
  | None => value
  end.

Definition _convert_metered_quantity (quantity : Q) (from_unit to_unit : text) : option Q :=
  if bool_decide (from_unit = to_unit) then Some quantity
  else if bool_decide (from_unit = of_string "second" /\ to_unit = of_string "minute") then Some (quantity / 60)%Q
  else if bool_decide (from_unit = of_string "minute" /\ to_unit = of_string "second") then Some (quantity * 60)%Q
  else None.

(** The rates that were in force when the event started. *)
Definition in_force (event : PendingUsageEvent) (row : PricingSnapshot) : bool :=
  bool_decide (ps_provider row = pe_provider event) && bool_decide (ps_service row = pe_service event) &&
  bool_decide (ps_source row ∈ [of_string "admin"; of_string "contract"]) && (ps_effective row <=? pe_started event) &&
  match ps_connection row with None => true | Some _ => bool_decide (ps_connection row = pe_connection event) end &&
  match ps_expires row with None => true | Some e => pe_started event <? e end.

(** [_normalize_unit(pricing.get("unit"))]; [strip] of what is not a string raises. *)
Definition unit_of (v : option json) : res text :=
  match v with
  | Some (JStr s) => Ok (_normalize_unit (Some s))
  | Some v => if truthy v then Raise (OtherError "AttributeError") else Ok (_normalize_unit None)
  | None => Ok (_normalize_unit None)
  end.

Record RateMatch := MkMatch { mt_id : Z; mt_row : PricingSnapshot; mt_unit : text; mt_price : Q; mt_quantity : Q }.

(** One candidate; [None] when the loop goes on to the next. *)
Definition matched_rate (event : PendingUsageEvent) (id : Z) (row : PricingSnapshot) : res (option RateMatch) :=
  let event_unit := _normalize_unit (text_or (pe_unit event) (nu_unit (pe_usage event))) in
  let event_quantity := first_of (pe_quantity event) (nu_quantity (pe_usage event)) in
  if match ps_model row with Some ((_ :: _) as m) => negb (bool_decide (Some m = pe_model event)) | _ => false end then Ok None
  else
    match loads (ps_pricing row) with
    | Some (JObj pricing) =>
        unit ← unit_of (field (of_string "unit") pricing);
        match unit, json_finite (field (of_string "unit_price_usd") pricing) with
        | [], _ | _, None => Ok None
        | unit, Some price =>
            let '(quantity, from_unit) :=
              match event_quantity with
              | Some q => (Some q, event_unit)
              | None =>
                  if bool_decide (unit = of_string "request") && negb (ended_badly (pe_status event))
                  then (Some 1%Q, of_string "request") else (None, event_unit)
              end in
            match quantity with
            | None => Ok None
            | Some q =>
                match from_unit with
                | [] => Ok (Some (MkMatch id row unit price q))
                | _ => Ok (MkMatch id row unit price <$> _convert_metered_quantity q from_unit unit)
                end
            end
        end
    | _ => Ok None
    end.

Fixpoint matched_rates (event : PendingUsageEvent) (rows : list (Z * PricingSnapshot)) : res (list RateMatch) :=
  match rows with
  | [] => Ok []
  | (id, row) :: rows =>
      m ← matched_rate event id row;
      ms ← matched_rates event rows;
      mret (match m with Some m => m :: ms | None => ms end)
  end.

(** The key of [max]: connection given, model given, latest, highest id. *)
Definition rate_key (m : RateMatch) : Z * Z * Z * Z :=
  (if absent (ps_connection (mt_row m)) then 0 else 1, if absent (ps_model (mt_row m)) then 0 else 1, ps_effective (mt_row m), mt_id m).
Definition key_ltb (a b : Z * Z * Z * Z) : bool :=
  let '(a1, a2, a3, a4) := a in
  let '(b1, b2, b3, b4) := b in
  (a1 <? b1) || (a1 =? b1) && ((a2 <? b2) || (a2 =? b2) && ((a3 <? b3) || (a3 =? b3) && (a4 <? b4))).
(** [max(matches, key=...)]: the first of the greatest. *)
Fixpoint best_rate (best : RateMatch) (ms : list RateMatch) : RateMatch :=
  match ms with
  | [] => best
  | m :: ms => best_rate (if key_ltb (rate_key best) (rate_key m) then m else best) ms
  end.

(** The event at a configured rate. *)
Definition at_rate (event : PendingUsageEvent) (m : RateMatch) : PendingUsageEvent :=
  let calculated := Qmax 0 (mt_quantity m * mt_price m) in
  let source := of_string COST_SOURCE_CONFIGURED in
  MkPending (pe_provider event) (pe_service event) (pe_operation event) (pe_model event) (pe_connection event) (pe_attempt event)
    (pe_status event) (pe_usage event)
    (MkQuote (cq_provider (pe_quote event)) (Some calculated) (Some calculated) source (of_string CONFIDENCE_CALCULATED)
       [MkItem (pe_operation event) (mt_quantity m) (mt_unit m) (Some (mt_price m)) (Some calculated) source
          [(of_string "pricing_snapshot_id", JInt (mt_id m))]] None (Some source))
    (pe_started event) (pe_completed event) (pe_key event) (Some (mt_quantity m)) (Some (mt_unit m)) (pe_error event) (Some (mt_id m)).

Definition _apply_configured_pricing (s : Books) (event : PendingUsageEvent) : res PendingUsageEvent :=
  if negb (bool_decide (cq_source (pe_quote event) ∈ of_string <$> [COST_SOURCE_UNKNOWN; COST_SOURCE_LITELLM; COST_SOURCE_CATALOG]))
  then Ok event
  else
    matching ← matched_rates event (filter (fun kv => in_force event kv.2 = true) (map_to_list (snapshots s)));
    match matching with
    | [] => Ok event
    | m :: ms => Ok (at_rate event (best_rate m ms))
    end.

Fixpoint price_all (s : Books) (events : list PendingUsageEvent) : res (list PendingUsageEvent) :=
  match events with
  | [] => Ok []
  | event :: events =>
      event ← _apply_configured_pricing s event;
      events ← price_all s events;
      mret (event :: events)
  end.

(** ** The amount to hold before a call *)

Record HoldQuote := MkHold { hq_hold : Q; hq_quoted : option Q; hq_source : text; hq_priced : bool }.
Record HoldSettings := MkHoldSettings { hs_buffer : Q; hs_maximum : Q; hs_unpriced : Q }.

Section holds.
Variable completion_cost : text -> text -> text -> text -> option pyfloat.
Variable settings : HoldSettings.

(** [x or default] *)
Definition nonzero_or (x default : Q) : Q := if Qeq_bool x 0 then default else x.
Definition _hold_buffer : Q := Qmax 1 (Qmin 2 (nonzero_or (hs_buffer settings) (110 # 100))).
Definition _unpriced_hold_usd : Q :=
  let maximum := Qmax (1 # 100) (Qmin 100 (nonzero_or (hs_maximum settings) 5)) in
  let fallback := Qmax (1 # 10000) (nonzero_or (hs_unpriced settings) (5 # 100)) in
  round8 (Qmin maximum fallback).
Definition _priced_hold_usd (quoted : Q) : Q := round8 (Qmax (1 # 10000) (quoted * _hold_buffer)).

Definition configured_metered_cost (s : Books) (provider service : text) (model_id : option text) (quantity : Q) (unit : text)
    (connection_id : option Z) (now : Z) (new_id : text) : res (option Q) :=
  let event := capture_usage_event completion_cost (Plain JNull) None None
    (MkAttempt (Some provider) service (of_string "budget_hold") model_id 0 (of_string STATUS_SUCCEEDED) None None no_counts
       (Some quantity) (Some unit) [] [] None None) now new_id in
  let event := MkPending (pe_provider event) (pe_service event) (pe_operation event) (pe_model event) connection_id (pe_attempt event)
    (pe_status event) (pe_usage event) (pe_quote event) (pe_started event) (pe_completed event) (pe_key event) (pe_quantity event)
    (pe_unit event) (pe_error event) (pe_snapshot event) in
  event ← _apply_configured_pricing s event;
  mret (if bool_decide (cq_source (pe_quote event) = of_string COST_SOURCE_CONFIGURED) then cq_final (pe_quote event) else None).

Definition catalog_hold_quote (ai_model : option AIModel) (provider_type service_type : option text) (quantity : option Q)
    (unit : option text) (prompt_tokens completion_tokens : option Z) : option Q :=
  let usage := MkUsage (Z.max 0 (default 0 prompt_tokens)) (Z.max 0 (default 0 completion_tokens)) 0 0 0 0 quantity unit None None None [] in
  let '(calculated, items, _) := _catalog_quote ai_model usage (normal_name provider_type) (normal_name service_type) quantity unit in
  match calculated, items with
  | Some c, _ => Some (Qmax 0 c)
  | None, [] => None
  | None, items => Some (Qmax 0 (items_total items))
  end.

Definition llm_service (service : text) : text :=
  if bool_decide (service ∈ [of_string "chat"; of_string "completion"]) then of_string "llm" else service.

Definition quote_hold (s : Books) (service_type : option text) (ai_model : option AIModel) (provider_type model_id : option text)
    (connection_id : option Z) (quantity : option Q) (unit : option text) (prompt_tokens completion_tokens : option Z)
    (now : Z) (new_id : text) : res HoldQuote :=
  let service := llm_service (normal_name service_type) in
  let provider := normal_name (text_or provider_type (am_provider <$> ai_model)) in
  let resolved_model := match text_or model_id (text_or (am_external <$> ai_model) None) with
    | Some model => or_none (strip model)
    | None => None
    end in
  let lookup_unit := or_none (py_lower (strip (default [] unit))) in
  let given n := match n with Some n => nonzero n | None => false end in
  let '(lookup_quantity, lookup_unit) :=
    match quantity with
    | None =>
        if (given prompt_tokens || given completion_tokens) && bool_decide (lookup_unit ∈ [None; Some (of_string "token")]) then
          (Some (inject_Z (Z.max 0 (default 0 prompt_tokens) + Z.max 0 (default 0 completion_tokens))), Some (of_string "token"))
        else (None, lookup_unit)
    | Some _ => (quantity, lookup_unit)
    end in
  configured ← match lookup_quantity, lookup_unit with
    | Some q, Some u => configured_metered_cost s provider service resolved_model q u connection_id now new_id
    | _, _ => Ok None
    end;
  match configured with
  | Some cost => Ok (MkHold (_priced_hold_usd cost) (Some cost) (of_string COST_SOURCE_CONFIGURED) true)
  | None =>
      match catalog_hold_quote ai_model (Some provider) (Some service) quantity unit prompt_tokens completion_tokens with
      | Some cost => Ok (MkHold (_priced_hold_usd cost) (Some cost) (of_string COST_SOURCE_CATALOG) true)
      | None => Ok (MkHold _unpriced_hold_usd None (of_string COST_SOURCE_UNPRICED) false)
      end
  end.
End holds.
End rates.

(** ** Recording an operation *)

Section recording.
Context `{PyNumber} `{PyInt} `{PyRepr} `{PyStr} `{PyFloatText} `{PyFloat}.

(** What a call draws: the uuid of the operation, those of the [n]-th event and
    of its ledger entry, and the clock. *)
Record Draws := MkDraws { dr_operation : string; dr_event : nat -> string * string; dr_now : Z }.

(** [_pricing_snapshot]: the row of the payload's fingerprint, inserted if there
    is none.  A row that another session inserts meanwhile has the same
    fingerprint, and is the one a call after it finds. *)
Definition _pricing_snapshot (event : PendingUsageEvent) : op Books (option Z) :=
  match cq_payload (pe_quote event) with
  | None => mret None
  | Some payload =>
      let payload_text := _json_text payload in
      let fingerprint := sha256_hexdigest (utf8 payload_text) in
      existing ← gets (fun s => find_row (fun row => bool_decide (ps_fingerprint row = fingerprint)) (snapshots s));
      match existing with
      | Some row => mret (Some row.1)
      | None =>
          new ← gets (fun s => next_id (snapshots s));
          _ ← modify (with_snapshots (<[new := MkSnapshot (pe_connection event) (pe_provider event) (pe_model event) (pe_service event)
                        (default (of_string COST_SOURCE_CATALOG) (text_or (cq_pricing_source (pe_quote event)) None)) fingerprint None
                        payload_text (pe_started event) None]>));
          mret (Some new)
      end
  end.

Definition _subject (user_id alpha_router_api_key_id : option Z) : option string * option Z :=
  match alpha_router_api_key_id, user_id with
  | Some key, _ => (Some SUBJECT_ALPHA_ROUTER_KEY, Some key)
  | None, Some user => (Some SUBJECT_USER, Some user)
  | None, None => (None, None)
  end.

(** A row that a unique index may refuse: [taken] is whether its key is there. *)
Definition insert_unique {S} (taken : S -> bool) (add : S -> S) : op S unit :=
  there ← gets taken;
  if (there : bool) then raise IntegrityError else modify add.

Definition event_row (operation : string) (snapshot : option Z) (p : PendingUsageEvent) : UsageEvent :=
  MkEvent operation (pe_connection p) snapshot None (pe_provider p) (pe_service p) (take 64 (pe_operation p))
    (or_none (take 512 (default [] (pe_model p)))) (pe_attempt p) (nu_upstream (pe_usage p)) (pe_key p) (take 24 (pe_status p))
    (nu_prompt (pe_usage p)) (nu_completion (pe_usage p)) (nu_cached (pe_usage p)) (nu_cache_write (pe_usage p)) (nu_reasoning (pe_usage p))
    (pe_quantity p) (or_none (take 32 (default [] (pe_unit p))))
    (numeric12 <$> cq_provider (pe_quote p)) (numeric12 <$> cq_calculated (pe_quote p)) (numeric12 <$> cq_final (pe_quote p))
    (cq_source (pe_quote p)) (cq_confidence (pe_quote p)) (_json_text (JObj (nu_raw (pe_usage p)))) (pe_error p) 0 None
    (pe_started p) (Some (pe_completed p)) None.

Definition item_row (event : string) (item : LineItemQuote) : CostLineItem :=
  MkLineItem event (take 64 (li_category item)) (li_quantity item) (take 32 (li_unit item)) (li_price item) (numeric12 <$> li_cost item)
    (take 32 (li_source item)) (match li_metadata item with [] => None | m => Some (_json_text (JObj m)) end).

Definition debit_key (p : PendingUsageEvent) : text := take 240 (of_string "ledger:" ++ pe_key p ++ of_string ":debit").
Definition debit_entry (operation event : string) (log : option Z) (subject : option string * option Z) (p : PendingUsageEvent) (cost : Q)
    : CostLedgerEntry :=
  MkEntry operation (Some event) log None subject.1 subject.2 "debit" (numeric12 cost) (cq_source (pe_quote p))
    (cq_confidence (pe_quote p)) (debit_key p) (take 255 (pe_service p ++ 58 :: pe_operation p)) (pe_completed p).

Definition event_key_taken (key : text) (s : Books) : bool :=
  negb (absent (find_row (fun row => bool_decide (ue_key row = key)) (usage_events s))).
Definition ledger_key_taken (key : text) (s : Books) : bool :=
  negb (absent (find_row (fun row => bool_decide (ce_key row = key)) (ledger s))).
Definition find_operation (key : text) (s : Books) : option (string * UsageOperation) :=
  find_row (fun row => bool_decide (uo_key row = key)) (operations s).

(** The rows of one event. *)
Definition record_event (operation : string) (log : option Z) (subject : option string * option Z) (ids : string * string)
    (p : PendingUsageEvent) : op Books unit :=
  snapshot ← match pe_snapshot p with
    | Some id => gets (fun s => if absent (snapshots s !! id) then None else Some id)
    | None => _pricing_snapshot p
    end;
  _ ← insert_unique (event_key_taken (pe_key p)) (with_events (<[ids.1 := event_row operation snapshot p]>));
  _ ← modify (with_items (fun rows => rows ++ (item_row ids.1 <$> cq_items (pe_quote p))));
  match cq_final (pe_quote p) with
  | Some cost =>
      insert_unique (ledger_key_taken (debit_key p)) (with_ledger (<[ids.2 := debit_entry operation ids.1 log subject p cost]>))
  | None => mret tt
  end.

Fixpoint record_events (operation : string) (log : option Z) (subject : option string * option Z) (ids : nat -> string * string) (n : nat)
    (events : list PendingUsageEvent) : op Books unit :=
  match events with
  | [] => mret tt
  | p :: events => _ ← record_event operation log subject (ids n) p; record_events operation log subject ids (S n) events
  end.

(** What a call of [persist_usage_operation] is about. *)
Record Recording := MkRecording {
  rc_user : option Z; rc_api_key : option Z; rc_reservation : option string; rc_log : option Z; rc_type : text; rc_source : text;
  rc_client : option text; rc_success : bool; rc_key : option text; rc_metadata : option json; rc_subject : option string
}.

(** [new_id] is the uuid of an operation without a key of its own. *)
Definition operation_key (r : Recording) (new_id : string) : text :=
  match text_or (rc_key r) None with
  | Some key => take 200 key
  | None =>
      match rc_reservation r with
      | Some (String _ _ as id) => of_string "usage-operation:reservation:" ++ of_string id
      | _ => of_string "usage-operation:" ++ of_string new_id
      end
  end.

Definition resolved_subject (r : Recording) : option string * option Z :=
  let '(kind, id) := _subject (rc_user r) (rc_api_key r) in
  (match kind, rc_subject r with None, Some (String _ _ as given) => Some given | _, _ => kind end, id).

Definition existing_summary (id : string) (row : UsageOperation) : AccountingSummary :=
  MkSummary id (uo_total row) (uo_provider row) (uo_calculated row) (of_string "existing") (of_string CONFIDENCE_UNKNOWN)
    (uo_unpriced row) 0 0 0 false.

Definition accounting_status (events unpriced : Z) : string :=
  if (events =? 0) || (unpriced =? events) then "unpriced" else if 0 <? unpriced then "partial" else "priced".

Definition operation_row (r : Recording) (events : list PendingUsageEvent) (summary : AccountingSummary) (key : text) (now : Z) : UsageOperation :=
  let subject := resolved_subject r in
  MkOperation subject.1 subject.2 (rc_user r) (rc_api_key r) (rc_reservation r) (take 32 (rc_type r)) (take 32 (rc_source r))
    (or_none (take 128 (default [] (rc_client r)))) (if rc_success r then STATUS_SUCCEEDED else STATUS_FAILED)
    (accounting_status (Z.of_nat (length events)) (as_unpriced summary)) key (numeric12 (as_total summary))
    (numeric12 <$> as_provider summary) (numeric12 <$> as_calculated summary) (as_unpriced summary)
    (match rc_metadata r with Some m => if truthy m then Some (_json_text m) else None | None => None end)
    (match pe_started <$> events with [] => now | t :: ts => foldr Z.min t ts end)
    (Some match pe_completed <$> events with [] => now | t :: ts => foldr Z.max t ts end) None.

(** [before_insert] is what other sessions commit between the look-up and the
    insertion, which its unique index then refuses. *)
Definition persist_usage_operation (before_insert : Books -> Books) (r : Recording) (events : list PendingUsageEvent) (d : Draws)
    : op Books AccountingSummary :=
  priced ← gets (fun s => price_all s events);
  events ← lift priced;
  let summary := summarize_pending_events events in
  let key := operation_key r (dr_operation d) in
  existing ← gets (find_operation key);
  match existing with
  | Some (id, row) => mret (existing_summary id row)
  | None =>
      _ ← modify before_insert;
      raced ← gets (find_operation key);
      match raced with
      | Some (id, row) => mret (existing_summary id row)
      | None =>
          _ ← modify (with_operations (<[dr_operation d := operation_row r events summary key (dr_now d)]>));
          _ ← record_events (dr_operation d) (rc_log r) (resolved_subject r) (dr_event d) 0 events;
          mret (MkSummary (dr_operation d) (as_total summary) (as_provider summary) (as_calculated summary) (as_source summary)
                  (as_confidence summary) (as_unpriced summary) (as_prompt summary) (as_completion summary) (as_cached summary) true)
      end
  end.
End recording.

(** ** Configured rates, as an administrator sets them *)

Section administration.
Context `{PyNumber} `{PyStr} `{PyFloatText}.

Definition JOptionalText (t : option text) : json := match t with Some t => JStr t | None => JNull end.
Definition JOptionalInt (n : option Z) : json := match n with Some n => JInt n | None => JNull end.

Definition scope_text (provider service : text) (connection_id : option Z) (model : option text) : text :=
  _json_text (JObj [(of_string "provider_type", JStr provider); (of_string "service_type", JStr service);
                    (of_string "connection_id", JOptionalInt connection_id); (of_string "model_id", JOptionalText model)]).
Definition scope_key (provider service : text) (connection_id : option Z) (model : option text) : text :=
  sha256_hexdigest (utf8 (scope_text provider service connection_id model)).

Definition expire_row (at_ : Z) (row : PricingSnapshot) : PricingSnapshot :=
  MkSnapshot (ps_connection row) (ps_provider row) (ps_model row) (ps_service row) (ps_source row) (ps_fingerprint row) None
    (ps_pricing row) (ps_effective row) (Some at_).
Definition in_scope (key : text) (row : PricingSnapshot) : bool := bool_decide (ps_scope row = Some key).

Definition rate_payload (provider service : text) (connection_id : option Z) (model : option text) (unit : text) (price : Q) (source : text)
    (metadata : list (text * json)) (effective : Z) : text :=
  _json_text (JObj [(of_string "provider_type", JStr provider); (of_string "service_type", JStr service);
    (of_string "connection_id", JOptionalInt connection_id); (of_string "model_id", JOptionalText model); (of_string "unit", JStr unit);
    (of_string "unit_price_usd", JFloat (repr_of price)); (of_string "source", JStr source); (of_string "metadata", JObj metadata);
    (of_string "effective_at", JStr (isoformat effective))]).

(** The statements of the savepoint: the active rows end where the new one
    begins.  A unique index may refuse the fingerprint or the scope. *)
Definition replace_active (scope : text) (effective : Z) (row : PricingSnapshot) : op Books Z :=
  _ ← modify (with_snapshots (fmap (fun r => if in_scope scope r then expire_row effective r else r)));
  new ← gets (fun s => next_id (snapshots s));
  _ ← insert_unique
        (fun s => existsb (fun kv => bool_decide (ps_fingerprint kv.2 = ps_fingerprint row) ||
                                     match ps_scope row with Some key => in_scope key kv.2 | None => false end)
                    (map_to_list (snapshots s)))
        (with_snapshots (<[new := row]>));
  mret new.

Definition create_configured_pricing_snapshot (provider_type service_type unit : text) (unit_price_usd : pyfloat) (model_id : option text)
    (connection_id : option Z) (source : text) (effective_at expires_at : option Z) (metadata : list (text * json)) (now : Z)
    : op Books Z :=
  let provider := py_lower (strip provider_type) in
  let service := py_lower (strip service_type) in
  let normalized_unit := _normalize_unit (Some unit) in
  let price := match unit_price_usd with Finite q => rate_column (Some q) | _ => None end in
  match provider, service, normalized_unit, price with
  | [], _, _, _ | _, [], _, _ | _, _, [], _ | _, _, _, None =>
      raise (ValueError "provider_type, service_type, unit and non-negative price are required")
  | provider, service, normalized_unit, Some price =>
      let effective := default now effective_at in
      if match expires_at with Some e => e <=? effective | None => false end then
        raise (ValueError "expires_at must be later than effective_at")
      else
        let source_name := of_string (if bool_decide (source = of_string "contract") then "contract" else "admin") in
        let model := or_none (strip (default [] model_id)) in
        let scope := scope_key provider service connection_id model in
        let payload_text := rate_payload provider service connection_id model normalized_unit price source_name metadata effective in
        let row := MkSnapshot connection_id provider model service source_name (sha256_hexdigest (utf8 payload_text))
          (if absent expires_at then Some scope else None) payload_text effective expires_at in
        try_commit (replace_active scope effective row) (fun e =>
          if bool_decide (e = IntegrityError) then
            raise (ValueError "A configured rate for this provider scope was updated concurrently; retry")
          else raise e)
  end.
End administration.

(** ** Corrections *)

Definition create_reconciliation_run (id : string) (provider_type source : option text) (connection_id period_start period_end : option Z)
    (raw_summary : option json) (now : Z) : op Books string :=
  _ ← modify (with_runs (<[id := MkRun connection_id (take 64 (default (of_string "unknown") (text_or provider_type None)))
        (take 32 (default (of_string "manual") (text_or source None))) "running" period_start period_end 0 0 0 0 0
        (match raw_summary with Some m => if truthy m then Some (_json_text m) else None | None => None end) None now None]>));
  mret id.

(** [CASE WHEN column + delta < 0 THEN 0 ELSE column + delta END] *)
Definition clamped (column delta : Q) : Q := if Qltb (column + delta) 0 then 0%Q else (column + delta)%Q.

Definition _apply_subject_delta (subject_type : option string) (subject_id : option Z) (delta_usd : Q) (occurred_at : option Z) : op DB unit :=
  match subject_type, subject_id with
  | Some kind, Some id =>
      if Qeq_bool delta_usd 0 then mret tt
      else
        let current start := match occurred_at, start with Some t, Some start => start <=? t | _, _ => true end in
        if bool_decide (kind = SUBJECT_USER) then
          modify (with_users (alter (fun u => if current (budget_period_start u) then set_user_used (clamped (budget_used_usd u) delta_usd) u else u) id))
        else if bool_decide (kind = SUBJECT_ALPHA_ROUTER_KEY) then
          modify (with_api_keys (alter (fun k =>
            MkKey (key_is_active k) (credit_limit_usd k) (unlimited_budget k) (reset_period k) (expires_at k)
              (if current (period_started_at k) then clamped (period_used_usd k) delta_usd else period_used_usd k)
              (period_reserved_usd k) (clamped (total_used_usd k) delta_usd) (period_started_at k) (last_used_at k)) id))
        else mret tt
  | _, _ => mret tt
  end.

Definition events_of (operation : string) (s : Books) : list UsageEvent :=
  snd <$> filter (fun kv => ue_operation kv.2 = operation) (map_to_list (usage_events s)).

Definition unpriced_in (events : list UsageEvent) : Z := Z.of_nat (length (filter (fun e => ue_final e = None) events)).

(** The source and the confidence of an operation's cost, from its events. *)
Definition event_labels (events : list UsageEvent) : text * text :=
  let or_unknown t d := match t with [] => of_string d | _ => t end in
  let sources := distinct ((fun e => or_unknown (ue_source e) COST_SOURCE_UNKNOWN) <$> events) in
  let confidences := distinct ((fun e => or_unknown (ue_confidence e) CONFIDENCE_UNKNOWN) <$> events) in
  (match sources with [source] => source | _ => of_string "mixed" end,
   if 0 <? unpriced_in events then of_string CONFIDENCE_UNKNOWN
   else match confidences with [confidence] => confidence | _ => of_string CONFIDENCE_ESTIMATED end).

Definition reconciled_event (run : string) (actual : Q) (now : Z) (e : UsageEvent) : UsageEvent :=
  MkEvent (ue_operation e) (ue_connection e) (ue_snapshot e) (Some run) (ue_provider_type e) (ue_service e) (ue_name e) (ue_model e)
    (ue_attempt e) (ue_upstream e) (ue_key e) (ue_status e) (ue_prompt e) (ue_completion e) (ue_cached e) (ue_cache_write e)
    (ue_reasoning e) (ue_quantity e) (ue_unit e) (Some (numeric12 actual)) (ue_calculated e) (Some (numeric12 actual))
    (of_string COST_SOURCE_RECONCILED) (of_string CONFIDENCE_RECONCILED) (ue_raw e) (ue_error e) (ue_attempts e) (ue_tried e)
    (ue_started e) (ue_completed e) (Some now).

Definition reconciled_operation (events : list UsageEvent) (now : Z) (o : UsageOperation) : UsageOperation :=
  MkOperation (uo_subject_type o) (uo_subject_id o) (uo_user o) (uo_api_key o) (uo_reservation o) (uo_type o) (uo_source o) (uo_client o)
    (uo_status o) (accounting_status (Z.of_nat (length events)) (unpriced_in events)) (uo_key o) (Qsum (omap ue_final events))
    (sum_some (ue_provider <$> events)) (sum_some (ue_calculated <$> events)) (unpriced_in events) (uo_metadata o) (uo_started o)
    (uo_completed o) (Some now).

Definition reconciled_log (events : list UsageEvent) (o : UsageOperation) (now : Z) (l : LogRow) : LogRow :=
  let labels := event_labels events in
  MkLogRow (lr_user l) (lr_api_key l) (lr_user_key l) (lr_reservation l) (lr_model l) (lr_prompt l) (lr_completion l) (lr_cached l)
    (uo_total o) (uo_provider o) (uo_calculated o) labels.1 labels.2 (0 <? uo_unpriced o) (lr_operation l) (lr_time l) (Some now) (lr_success l).

Definition matched_run (previous actual delta : Q) (r : ReconciliationRun) : ReconciliationRun :=
  MkRun (rn_connection r) (rn_provider r) (rn_source r) (rn_status r) (rn_start r) (rn_end r) (numeric12 (rn_expected r + previous))
    (numeric12 (rn_reported r + actual)) (numeric12 (rn_adjustment r + delta)) (rn_matched r + 1) (rn_unmatched r) (rn_raw r) (rn_error r)
    (rn_started r) (rn_completed r).

Definition adjustment_key (run event : string) : text :=
  take 240 (of_string "ledger:reconcile:" ++ of_string run ++ 58 :: of_string event).

(** [scalar_one()]: a missing row raises. *)
Definition the_row {A} (row : option A) : op Books A := match row with Some a => mret a | None => raise NoResultFound end.

Definition log_of (operation : string) (s : Books) : option (Z * LogRow) :=
  find_row (fun row => bool_decide (lr_operation row = Some operation)) (logs s).

(** The end of a correction: totals, log and run. *)
Definition refresh_totals (operation run : string) (log : option Z) (previous actual delta : Q) (now : Z) : op Books unit :=
  events ← gets (events_of operation);
  _ ← modify (with_operations (alter (reconciled_operation events now) operation));
  row ← gets (fun s => operations s !! operation);
  row ← the_row row;
  _ ← match log with
      | Some id => modify (with_logs (alter (reconciled_log events row now) id))
      | None => mret tt
      end;
  modify (with_runs (alter (matched_run previous actual delta) run)).

(** [entry] is the uuid of the ledger entry. *)
Definition reconcile_usage_event (event_id : string) (actual_cost_usd : pyfloat) (run_id entry : string) (now : Z) : op Books Q :=
  event ← gets (fun s => usage_events s !! event_id);
  event ← the_row event;
  run ← gets (fun s => runs s !! run_id);
  _ ← the_row run;
  operation ← gets (fun s => operations s !! ue_operation event);
  operation ← the_row operation;
  let key := adjustment_key run_id event_id in
  existing ← gets (fun s => find_row (fun row => bool_decide (ce_key row = key)) (ledger s));
  match existing with
  | Some (_, row) => mret (ce_amount row)
  | None =>
      let actual := Qmax 0 (_signed_float actual_cost_usd) in
      let previous := default 0%Q (ue_final event) in
      let delta := (actual - previous)%Q in
      let occurred_at := first_of (ue_completed event) (Some (ue_started event)) in
      _ ← modify (with_events (<[event_id := reconciled_event run_id actual now event]>));
      log ← gets (log_of (ue_operation event));
      _ ← insert_unique (ledger_key_taken key) (with_ledger
            (<[entry := MkEntry (ue_operation event) (Some event_id) (fst <$> log) (Some run_id) (uo_subject_type operation)
                (uo_subject_id operation) "adjustment" (numeric12 delta) (of_string COST_SOURCE_RECONCILED) (of_string CONFIDENCE_RECONCILED)
                key (of_string "Provider reconciliation adjustment") (default now occurred_at)]>));
      _ ← on_accounts (_apply_subject_delta (uo_subject_type operation) (uo_subject_id operation) delta occurred_at);
      _ ← refresh_totals (ue_operation event) run_id (fst <$> log) previous actual delta now;
      mret delta
  end.

Definition finish_reconciliation_run (run : string) (error_message : option text) (unmatched_event_count now : Z) : op Books unit :=
  modify (with_runs (alter (fun r =>
    MkRun (rn_connection r) (rn_provider r) (rn_source r) (if absent (text_or error_message None) then "completed" else "failed")
      (rn_start r) (rn_end r) (rn_expected r) (rn_reported r) (rn_adjustment r) (rn_matched r) (Z.max 0 unmatched_event_count) (rn_raw r)
      (or_none (take 2000 (default [] error_message))) (rn_started r) (Some now)) run)).
