(* ===== verification/LedgerFacts.v ===== *)
(** * The ledger adds up

    Amounts with twelve decimals, the sums behind an event and an operation, and
    what every call of [UsageLedger] keeps of them. *)

From S2P Require Import Prelude Money Text Json JsonParse PyTime PyText Accounts Holds Reserve Extractor Pricing UsageLedger.
From Stdlib Require Import QArith Qminmax Qround Qabs Lqa.

#[local] Open Scope Z_scope.

(** ** Twelve decimals *)

Definition half_tera : Q := 1 # 2000000000000.

Lemma round_away_err q : (Qabs (inject_Z (round_away q) - q) <= 1 # 2)%Q.
Proof.
  unfold round_away. destruct (Qltb q 0) eqn:Hq.
  - pose proof (Qfloor_le (- q + (1 # 2))) as Hlo. pose proof (Qlt_floor (- q + (1 # 2))) as Hhi.
    rewrite inject_Z_plus in Hhi. change (inject_Z 1) with 1%Q in Hhi. rewrite inject_Z_opp.
    apply Qabs_Qle_condition. split; lra.
  - pose proof (Qfloor_le (q + (1 # 2))) as Hlo. pose proof (Qlt_floor (q + (1 # 2))) as Hhi.
    rewrite inject_Z_plus in Hhi. change (inject_Z 1) with 1%Q in Hhi.
    apply Qabs_Qle_condition. split; lra.
Qed.

Lemma tera_scale n : (n # tera == inject_Z n * (1 # 1000000000000))%Q.
Proof. unfold Qeq, tera; simpl. lia. Qed.

(** A column holds an amount to within half of its last decimal. *)
Lemma numeric12_err q : (Qabs (numeric12 q - q) <= half_tera)%Q.
Proof.
  unfold numeric12, half_tera. rewrite tera_scale.
  pose proof (round_away_err (q * inject_Z (Z.pos tera))) as Hr. apply Qabs_Qle_condition in Hr as [Hlo Hhi].
  change (inject_Z (Z.pos tera)) with 1000000000000%Q in *. apply Qabs_Qle_condition. split; lra.
Qed.

Lemma numeric12_bounds q : (q - half_tera <= numeric12 q <= q + half_tera)%Q.
Proof. pose proof (numeric12_err q) as [H1 H2]%Qabs_Qle_condition. split; lra. Qed.

(** ** Sums *)

Definition final_cost (e : UsageEvent) : Q := default 0%Q (ue_final e).
Definition amount_for (event : string) (row : CostLedgerEntry) : Q := if decide (ce_event row = Some event) then ce_amount row else 0%Q.
Definition adjusts (event : string) (row : CostLedgerEntry) : Q :=
  if decide (ce_event row = Some event /\ ce_type row = "adjustment"%string) then 1%Q else 0%Q.
Definition final_in (operation : string) (e : UsageEvent) : Q := if decide (ue_operation e = operation) then final_cost e else 0%Q.
Definition one_in (operation : string) (e : UsageEvent) : Q := if decide (ue_operation e = operation) then 1%Q else 0%Q.

(** What the ledger says of an event, and how many corrections it had. *)
Definition ledger_sum (event : string) (s : Books) : Q := Qsum_map (amount_for event) (ledger s).
Definition adjustments (event : string) (s : Books) : Q := Qsum_map (adjusts event) (ledger s).
(** The cost of an operation's events, and how many it has. *)
Definition events_total (operation : string) (s : Books) : Q := Qsum_map (final_in operation) (usage_events s).
Definition events_count (operation : string) (s : Books) : Q := Qsum_map (one_in operation) (usage_events s).

Lemma Qsum_omap_filter {A} (P : A -> Prop) `{forall a, Decision (P a)} (f : A -> option Q) l :
  (Qsum (omap f (filter P l)) == Qsum ((fun a => if decide (P a) then default 0%Q (f a) else 0%Q) <$> l))%Q.
Proof.
  induction l as [|a l IH]; [done|]. rewrite filter_cons, fmap_cons. destruct (decide (P a)) as [Ha|Ha].
  - cbn [omap list_omap]. destruct (f a); cbn [Qsum foldr default]; change (foldr Qplus 0%Q) with Qsum; rewrite <- IH; [done|].
    unfold omap. ring.
  - cbn [Qsum foldr]. change (foldr Qplus 0%Q) with Qsum. rewrite <- IH. ring.
Qed.

Lemma omap_of_fmap {A B C} (g : A -> B) (f : B -> option C) (l : list A) : omap f (g <$> l) = omap (f ∘ g) l.
Proof. induction l as [|a l IH]; [done|]. cbn. unfold compose. destruct (f (g a)); [by f_equal|done]. Qed.

(** The statement that sums an operation's events. *)
Lemma events_of_total operation s : (Qsum (omap ue_final (events_of operation s)) == events_total operation s)%Q.
Proof. unfold events_of, events_total, Qsum_map. rewrite omap_of_fmap, Qsum_omap_filter. done. Qed.

(** ** The invariant *)

(** What the tables keep; the total of the operation [skip], which is being
    recorded, may still be ahead of its events. *)
Record books_ok_but (skip : option string) (s : Books) : Prop := {
  bk_event : forall e row, usage_events s !! e = Some row -> is_Some (operations s !! ue_operation row);
  bk_balance : forall e row, usage_events s !! e = Some row ->
    (Qabs (ledger_sum e s - final_cost row) <= 2 * half_tera * adjustments e s)%Q;
  bk_entry : forall l row, ledger s !! l = Some row -> exists e event o,
    ce_event row = Some e /\ usage_events s !! e = Some event /\ operations s !! ue_operation event = Some o /\
    ce_operation row = ue_operation event /\ ce_subject_type row = uo_subject_type o /\ ce_subject_id row = uo_subject_id o;
  bk_total : forall o row, operations s !! o = Some row -> Some o <> skip ->
    (Qabs (uo_total row - events_total o s) <= half_tera * (1 + events_count o s))%Q;
  bk_operation_keys : forall o o' row row', operations s !! o = Some row -> operations s !! o' = Some row' -> uo_key row = uo_key row' -> o = o';
  bk_event_keys : forall e e' row row', usage_events s !! e = Some row -> usage_events s !! e' = Some row' -> ue_key row = ue_key row' -> e = e';
  bk_ledger_keys : forall l l' row row', ledger s !! l = Some row -> ledger s !! l' = Some row' -> ce_key row = ce_key row' -> l = l'
}.
Definition books_ok : Books -> Prop := books_ok_but None.

(** Only the four tables of the accounting matter. *)
Definition same_books (s s' : Books) : Prop :=
  operations s = operations s' /\ usage_events s = usage_events s' /\ ledger s = ledger s'.

Lemma books_ok_same skip s s' : same_books s s' -> books_ok_but skip s -> books_ok_but skip s'.
Proof.
  intros (Ho & He & Hl) [H1 H2 H3 H4 H5 H6 H7].
  split; unfold ledger_sum, adjustments, events_total, events_count in *; rewrite <- ?Ho, <- ?He, <- ?Hl; assumption.
Qed.

Lemma books_ok_skip s o : books_ok s -> books_ok_but (Some o) s.
Proof. intros [H1 H2 H3 H4 H5 H6 H7]. split; try assumption. intros o' row Ho _. by apply H4. Qed.

(** ** Rows found by a key *)

Lemma find_row_some {K A} `{Countable K} (P : A -> bool) (m : gmap K A) k a :
  find_row P m = Some (k, a) -> m !! k = Some a /\ P a = true.
Proof.
  unfold find_row. intros Hh. apply head_Some_elem_of in Hh as [Hp Hin]%list_elem_of_filter.
  by apply elem_of_map_to_list in Hin.
Qed.

Lemma find_row_none {K A} `{Countable K} (P : A -> bool) (m : gmap K A) k a :
  find_row P m = None -> m !! k = Some a -> P a = false.
Proof.
  unfold find_row. intros Hn Hk. apply head_None in Hn. apply not_true_is_false. intros Hp.
  assert (Hin : (k, a) ∈ filter (fun kv : K * A => P kv.2 = true) (map_to_list m))
    by (apply list_elem_of_filter; split; [done|by apply elem_of_map_to_list]).
  rewrite Hn in Hin. by apply elem_of_nil in Hin.
Qed.

Lemma find_row_is {K A} `{Countable K} (P : A -> bool) (m : gmap K A) k a :
  m !! k = Some a -> P a = true -> exists kv, find_row P m = Some kv.
Proof.
  intros Hk Hp. destruct (find_row P m) as [kv|] eqn:Hf; [by exists kv|].
  by rewrite (find_row_none P m k a Hf Hk) in Hp.
Qed.

Lemma absent_false {A} (x : option A) : negb (absent x) = false <-> x = None.
Proof. by destruct x. Qed.

Lemma insert_unique_ok {S} (taken : S -> bool) add s s' u :
  insert_unique taken add s = (Ok u, s') -> taken s = false /\ s' = add s.
Proof.
  unfold insert_unique, mbind, op_bind, gets, raise, modify. destruct (taken s); intros Heq; by simplify_eq.
Qed.

(** ** Recording one event *)

Section recording.
Context `{PyNumber} `{PyInt} `{PyRepr} `{PyStr} `{PyFloatText} `{PyFloat}.

Lemma pricing_snapshot_same p s r s' : _pricing_snapshot p s = (r, s') -> exists id f, r = Ok id /\ s' = with_snapshots f s.
Proof.
  unfold _pricing_snapshot, mbind, op_bind, gets, modify, mret, op_ret.
  assert (Hid : s = with_snapshots (fun m => m) s) by by destruct s.
  destruct (cq_payload (pe_quote p)); [|intros [= <- <-]; by exists None, (fun m => m)].
  cbv zeta. destruct (find_row _ _) as [[id row]|]; intros [= <- <-]; [by exists (Some id), (fun m => m)|by eexists _, _].
Qed.

Lemma event_key_free key s : event_key_taken key s = false -> forall e row, usage_events s !! e = Some row -> ue_key row <> key.
Proof.
  unfold event_key_taken. intros Hn%absent_false e row He Hk. apply (find_row_none _ _ e row) in Hn; [|done].
  by apply bool_decide_eq_false in Hn.
Qed.

Lemma ledger_key_free key s : ledger_key_taken key s = false -> forall l row, ledger s !! l = Some row -> ce_key row <> key.
Proof.
  unfold ledger_key_taken. intros Hn%absent_false l row Hl Hk. apply (find_row_none _ _ l row) in Hn; [|done].
  by apply bool_decide_eq_false in Hn.
Qed.

(** The ids that a call draws are fresh. *)
Definition fresh_pair (ids : string * string) (s : Books) : Prop := usage_events s !! ids.1 = None /\ ledger s !! ids.2 = None.

(** An event without ledger entries is worth nothing in the ledger. *)
Lemma ledger_sum_absent skip s e : books_ok_but skip s -> usage_events s !! e = None -> (ledger_sum e s == 0)%Q /\ (adjustments e s == 0)%Q.
Proof.
  intros Hok He. split; apply Qsum_map_zero; intros l row Hl;
    destruct (bk_entry _ _ Hok l row Hl) as (e' & ev & o & Hce & Hev & _);
    unfold amount_for, adjusts; rewrite decide_False; [done| |done|]; intros Heq; [|destruct Heq as [Heq _]]; congruence.
Qed.

(** The tables after the rows of one event. *)
Definition recorded (operation : string) (log : option Z) (subject : option string * option Z) (ids : string * string) (snapshot : option Z)
    (p : PendingUsageEvent) (s : Books) : Books :=
  let s := with_events (<[ids.1 := event_row operation snapshot p]>) s in
  match cq_final (pe_quote p) with
  | Some cost => with_ledger (<[ids.2 := debit_entry operation ids.1 log subject p cost]>) s
  | None => s
  end.

Lemma record_event_ok operation log subject ids p s u s' :
  record_event operation log subject ids p s = (Ok u, s') ->
  exists snapshot, same_books (recorded operation log subject ids snapshot p s) s' /\
    event_key_taken (pe_key p) s = false /\ (cq_final (pe_quote p) <> None -> ledger_key_taken (debit_key p) s = false).
Proof.
  unfold record_event. intros (snapshot & s1 & Hsnap & Hrest)%op_bind_inv. exists snapshot.
  assert (Hs1 : exists f, s1 = with_snapshots f s).
  { destruct (pe_snapshot p) as [id|].
    - injection Hsnap as _ <-. exists (fun m => m). by destruct s.
    - apply pricing_snapshot_same in Hsnap as (id & f & _ & ->). by exists f. }
  destruct Hs1 as [f ->].
  apply op_bind_inv in Hrest as (u1 & s2 & [Hfree ->]%insert_unique_ok & Hrest).
  apply op_bind_inv in Hrest as (u2 & s3 & [= _ <-] & Hrest).
  unfold recorded. destruct (cq_final (pe_quote p)) as [cost|].
  - apply insert_unique_ok in Hrest as [Hl ->]. split; [done|]. split; [exact Hfree|]. intros _. exact Hl.
  - injection Hrest as _ <-. split; [done|]. split; [exact Hfree|done].
Qed.

(** Sums after an insertion. *)
Lemma sum_insert {K A} `{Countable K} (f : A -> Q) (m : gmap K A) k a d :
  m !! k = None -> (f a == d)%Q -> (Qsum_map f (<[k := a]> m) == Qsum_map f m + d)%Q.
Proof. intros Hk Hd. rewrite (Qsum_map_insert_new f m k a Hk), Hd. ring. Qed.

Lemma sum_replace {K A} `{Countable K} (f : A -> Q) (m : gmap K A) k a b d :
  m !! k = Some a -> (f b - f a == d)%Q -> (Qsum_map f (<[k := b]> m) == Qsum_map f m + d)%Q.
Proof. intros Hk Hd. rewrite (Qsum_map_update f m k a b Hk), <- Hd. ring. Qed.

Section one_event.
Variables (operation : string) (log : option Z) (subject : option string * option Z) (ids : string * string) (snapshot : option Z)
  (p : PendingUsageEvent) (s : Books) (o : UsageOperation).
Hypotheses (Hok : books_ok_but (Some operation) s) (Ho : operations s !! operation = Some o)
  (Hsubject : subject = (uo_subject_type o, uo_subject_id o)) (Hfresh : fresh_pair ids s)
  (Hkey : event_key_taken (pe_key p) s = false)
  (Hentry : cq_final (pe_quote p) <> None -> ledger_key_taken (debit_key p) s = false).

Let s' := recorded operation log subject ids snapshot p s.
Let recorded_cost : Q := default 0%Q (numeric12 <$> cq_final (pe_quote p)).

Lemma recorded_events : usage_events s' = <[ids.1 := event_row operation snapshot p]> (usage_events s).
Proof using Type. unfold s', recorded. case (cq_final (pe_quote p)); reflexivity. Qed.
Lemma recorded_operations : operations s' = operations s.
Proof using Type. unfold s', recorded. case (cq_final (pe_quote p)); reflexivity. Qed.
Lemma recorded_ledger : ledger s' = match cq_final (pe_quote p) with
  | Some cost => <[ids.2 := debit_entry operation ids.1 log subject p cost]> (ledger s) | None => ledger s end.
Proof using Type. unfold s', recorded. case (cq_final (pe_quote p)); reflexivity. Qed.

Lemma recorded_total : (events_total operation s' == events_total operation s + recorded_cost)%Q.
Proof.
  unfold events_total. rewrite recorded_events. apply sum_insert; [apply Hfresh|].
  unfold final_in, final_cost. by rewrite decide_True.
Qed.
Lemma recorded_count : (events_count operation s' == events_count operation s + 1)%Q.
Proof.
  unfold events_count. rewrite recorded_events. apply sum_insert; [apply Hfresh|].
  unfold one_in. by rewrite decide_True.
Qed.

Lemma recorded_ledger_sum e : (ledger_sum e s' == ledger_sum e s + if decide (e = ids.1) then recorded_cost else 0)%Q.
Proof.
  unfold ledger_sum, recorded_cost. rewrite recorded_ledger. destruct (cq_final (pe_quote p)) as [cost|]; cbn [fmap option_fmap option_map default].
  - apply sum_insert; [apply Hfresh|]. unfold amount_for, debit_entry. cbn. repeat case_decide; simplify_eq; done.
  - case_decide; ring.
Qed.
Lemma recorded_adjustments e : (adjustments e s' == adjustments e s)%Q.
Proof.
  unfold adjustments. rewrite recorded_ledger. destruct (cq_final (pe_quote p)) as [cost|]; [|done].
  rewrite (sum_insert _ _ _ _ 0%Q); [ring|apply Hfresh|]. unfold adjusts. by rewrite decide_False by (intros [_ [=]]).
Qed.

Lemma recorded_keeps : books_ok_but (Some operation) s'.
Proof using All.
  destruct Hfresh as [Hf1 Hf2].
  assert (Hsum := ledger_sum_absent _ _ _ Hok Hf1). destruct Hok as [B1 B2 B3 B4 B5 B6 B7].
  split.
  - intros e row. rewrite recorded_events, recorded_operations, lookup_insert.
    case_decide; [intros [= <-]; exists o; exact Ho|apply B1].
  - intros e row. rewrite recorded_events, recorded_ledger_sum, recorded_adjustments, lookup_insert. case_decide as Hd.
    + subst e. rewrite decide_True by done. intros [= <-]. destruct Hsum as [-> ->].
      change (final_cost _) with recorded_cost. apply Qabs_Qle_condition. split; lra.
    + intros He. rewrite decide_False by congruence. rewrite Qplus_0_r. by apply B2.
  - assert (Hold : forall e row, usage_events s !! e = Some row -> usage_events s' !! e = Some row)
      by (intros e row He; rewrite recorded_events, lookup_insert_ne; [done|congruence]).
    intros l row Hl. rewrite recorded_operations.
    assert (Hcase : ledger s !! l = Some row \/ exists cost, row = debit_entry operation ids.1 log subject p cost).
    { rewrite recorded_ledger in Hl. destruct (cq_final (pe_quote p)) as [cost|]; [|by left].
      rewrite lookup_insert in Hl. case_decide; [|by left]. right. injection Hl as <-. by exists cost. }
    destruct Hcase as [(e & ev & o' & Hrow & Hev & Ho' & Hrest)%B3|[cost ->]].
    + exists e, ev, o'. split; [done|]. split; [by apply Hold|]. by split.
    + exists ids.1, (event_row operation snapshot p), o. rewrite recorded_events, lookup_insert_eq, Hsubject. cbn. by rewrite Ho.
  - intros o' row. rewrite recorded_operations. intros Hrow Hne.
    assert (Hne' : operation <> o') by congruence.
    assert (Ht : (events_total o' s' == events_total o' s)%Q /\ (events_count o' s' == events_count o' s)%Q).
    { unfold events_total, events_count. rewrite !recorded_events.
      split; rewrite (sum_insert _ _ _ _ 0%Q); try ring; try exact Hf1; unfold final_in, one_in; by rewrite decide_False. }
    destruct Ht as [-> ->]. by apply B4.
  - intros o1 o2 r1 r2. rewrite recorded_operations. apply B5.
  - intros e1 e2 r1 r2. rewrite recorded_events, !lookup_insert.
    repeat case_decide; simplify_eq; try congruence.
    + intros [= <-] He2 Hk. by destruct (event_key_free _ _ Hkey e2 r2 He2).
    + intros He1 [= <-] Hk. by destruct (event_key_free _ _ Hkey e1 r1 He1).
    + apply B6.
  - intros l1 l2 r1 r2. rewrite !recorded_ledger. destruct (cq_final (pe_quote p)) as [cost|]; [|apply B7].
    assert (Hfree := ledger_key_free _ _ (Hentry ltac:(done))). rewrite !lookup_insert.
    repeat case_decide; simplify_eq; try congruence.
    + intros [= <-] He2 Hk. by destruct (Hfree l2 r2 He2).
    + intros He1 [= <-] Hk. by destruct (Hfree l1 r1 He1).
    + apply B7.
Qed.
End one_event.

(** ** Recording an operation *)

Definition event_cost (p : PendingUsageEvent) : Q := default 0%Q (cq_final (pe_quote p)).
Definition recorded_cost_of (p : PendingUsageEvent) : Q := default 0%Q (numeric12 <$> cq_final (pe_quote p)).
Definition costs_nonneg (events : list PendingUsageEvent) : Prop := Forall (fun p => 0 <= event_cost p)%Q events.

Lemma omap_total events : (Qsum (omap cq_final (pe_quote <$> events)) == Qsum (event_cost <$> events))%Q.
Proof.
  induction events as [|p events IH]; [done|]. rewrite !fmap_cons. cbn [omap list_omap]. unfold event_cost at 1.
  destruct (cq_final (pe_quote p)); cbn [Qsum foldr default]; change (foldr Qplus 0%Q) with Qsum; rewrite <- IH; [done|].
  unfold omap. ring.
Qed.

Lemma recorded_cost_err p : (Qabs (recorded_cost_of p - event_cost p) <= half_tera)%Q.
Proof.
  unfold recorded_cost_of, event_cost. destruct (cq_final (pe_quote p)) as [q|]; [apply numeric12_err|].
  apply Qabs_Qle_condition. cbn [fmap option_fmap option_map default]. unfold half_tera. split; lra.
Qed.

Lemma recorded_costs_err events :
  (Qabs (Qsum (recorded_cost_of <$> events) - Qsum (event_cost <$> events)) <= half_tera * inject_Z (Z.of_nat (length events)))%Q.
Proof.
  induction events as [|p events IH].
  { apply Qabs_Qle_condition. change (inject_Z (Z.of_nat (length (@nil PendingUsageEvent)))) with 0%Q.
    change (Qsum _) with 0%Q. change (Qsum _) with 0%Q. split; lra. }
  rewrite !fmap_cons. cbn [Qsum foldr length]. change (foldr Qplus 0%Q) with Qsum.
  pose proof (recorded_cost_err p) as [P1 P2]%Qabs_Qle_condition. apply Qabs_Qle_condition in IH as [I1 I2].
  rewrite Nat2Z.inj_succ. unfold Z.succ. rewrite inject_Z_plus. change (inject_Z 1) with 1%Q.
  unfold half_tera in *. apply Qabs_Qle_condition. split; lra.
Qed.

(** An operation's total, and its events' columns. *)
Lemma summary_err events :
  costs_nonneg events ->
  (Qabs (as_total (summarize_pending_events events) - Qsum (recorded_cost_of <$> events)) <= half_tera * inject_Z (Z.of_nat (length events)))%Q.
Proof.
  intros Hnn. assert (Hsum : (0 <= Qsum (event_cost <$> events))%Q) by (apply Qsum_nonneg, Forall_fmap; exact Hnn).
  assert (Hmax : (as_total (summarize_pending_events events) == Qsum (event_cost <$> events))%Q).
  { cbn [as_total summarize_pending_events]. rewrite omap_total. apply Q.max_r. exact Hsum. }
  pose proof (recorded_costs_err events) as [R1 R2]%Qabs_Qle_condition.
  set (t := as_total _) in *. apply Qabs_Qle_condition. split; lra.
Qed.

Lemma total_column_err events :
  costs_nonneg events ->
  (Qabs (numeric12 (as_total (summarize_pending_events events)) - Qsum (recorded_cost_of <$> events)) <=
   half_tera * (1 + inject_Z (Z.of_nat (length events))))%Q.
Proof.
  intros [R1 R2]%summary_err%Qabs_Qle_condition. pose proof (numeric12_bounds (as_total (summarize_pending_events events))).
  set (t := as_total _) in *. unfold half_tera in *. apply Qabs_Qle_condition. split; lra.
Qed.

(** The ids that are still to be drawn are in no table and never repeat. *)
Definition fresh_from (ids : nat -> string * string) (n : nat) (s : Books) : Prop :=
  (forall m, (n <= m)%nat -> fresh_pair (ids m) s) /\
  (forall m k, (ids m).1 = (ids k).1 \/ (ids m).2 = (ids k).2 -> m = k).

Lemma fresh_same ids n s s' : same_books s s' -> fresh_from ids n s -> fresh_from ids n s'.
Proof. intros (_ & He & Hl) [Hf Hi]. split; [|done]. intros m Hm. destruct (Hf m Hm). split; by rewrite <- ?He, <- ?Hl. Qed.

Lemma fresh_recorded operation log subject ids n snapshot p s :
  fresh_from ids n s -> fresh_from ids (S n) (recorded operation log subject (ids n) snapshot p s).
Proof.
  intros [Hf Hi]. split; [|done]. intros m Hm. destruct (Hf m ltac:(lia)) as [F1 F2].
  assert (N1 : (ids n).1 <> (ids m).1) by (intros Heq; assert (n = m) by auto; lia).
  assert (N2 : (ids n).2 <> (ids m).2) by (intros Heq; assert (n = m) by auto; lia).
  split.
  - rewrite recorded_events. apply lookup_insert_None; auto.
  - rewrite recorded_ledger. destruct (cq_final _); [|done]. by rewrite lookup_insert_ne.
Qed.

Lemma record_events_ok operation log subject ids o events : forall n s u s',
  books_ok_but (Some operation) s -> operations s !! operation = Some o -> subject = (uo_subject_type o, uo_subject_id o) ->
  fresh_from ids n s -> record_events operation log subject ids n events s = (Ok u, s') ->
  books_ok_but (Some operation) s' /\ operations s' = operations s /\
  (events_total operation s' == events_total operation s + Qsum (recorded_cost_of <$> events))%Q /\
  (events_count operation s' == events_count operation s + inject_Z (Z.of_nat (length events)))%Q.
Proof.
  induction events as [|p events IH]; intros n s u s' Hok Ho Hsub Hfresh Hrun.
  - injection Hrun as _ <-. split; [done|]. split; [done|]. cbn. split; ring.
  - cbn [record_events] in Hrun. apply op_bind_inv in Hrun as (u1 & s1 & Hone & Hrun).
    apply record_event_ok in Hone as (snapshot & Hsame & Hk & Hl).
    set (t := recorded operation log subject (ids n) snapshot p s) in *.
    assert (Hp : fresh_pair (ids n) s) by (apply Hfresh; lia).
    assert (Ht : books_ok_but (Some operation) t) by (by apply (recorded_keeps operation log subject (ids n) snapshot p s o)).
    assert (Hto : operations t = operations s) by apply recorded_operations.
    destruct Hsame as (S1 & S2 & S3).
    assert (Hsame : same_books t s1) by done.
    destruct (IH (S n) s1 u s') as (G1 & G2 & G3 & G4); try done.
    + by apply (books_ok_same _ t).
    + by rewrite <- S1, Hto.
    + apply (fresh_same _ _ t); [done|]. by apply fresh_recorded.
    + split; [done|]. split; [by rewrite G2, <- S1|].
      assert (Et : (events_total operation s1 == events_total operation t)%Q) by (unfold events_total; by rewrite S2).
      assert (Ec : (events_count operation s1 == events_count operation t)%Q) by (unfold events_count; by rewrite S2).
      rewrite G3, G4, Et, Ec. unfold t. rewrite (recorded_total operation log subject (ids n) snapshot p s Hp),
        (recorded_count operation log subject (ids n) snapshot p s Hp).
      rewrite fmap_cons. cbn [Qsum foldr length]. change (foldr Qplus 0%Q) with Qsum.
      rewrite Nat2Z.inj_succ. unfold Z.succ. rewrite inject_Z_plus. change (inject_Z 1) with 1%Q.
      unfold recorded_cost_of at 2. split; ring.
Qed.

(** ** Pricing leaves costs that are not negative *)

Lemma at_rate_nonneg event m : (0 <= event_cost (at_rate event m))%Q.
Proof. unfold event_cost, at_rate. cbn [pe_quote cq_final default]. apply Q.le_max_l. Qed.

Lemma configured_nonneg s event event' :
  (0 <= event_cost event)%Q -> _apply_configured_pricing s event = Ok event' -> (0 <= event_cost event')%Q.
Proof.
  intros Hc. unfold _apply_configured_pricing. case_match; [by intros [= <-]|].
  intros (ms & _ & Hm)%res_bind_inv. destruct ms as [|m ms]; injection Hm as <-; [done|apply at_rate_nonneg].
Qed.

Lemma price_all_nonneg s events : forall priced, costs_nonneg events -> price_all s events = Ok priced -> costs_nonneg priced.
Proof.
  induction events as [|event events IH]; intros priced Hc; cbn [price_all].
  - intros [= <-]. done.
  - intros (event' & He & Hrest)%res_bind_inv. apply res_bind_inv in Hrest as (priced' & Hp & [= <-]).
    apply Forall_cons in Hc as [Hc1 Hc2]. constructor; [by eapply configured_nonneg|by apply IH].
Qed.

(** ** The row of the operation *)

Definition fresh_draws (d : Draws) (s : Books) : Prop := operations s !! dr_operation d = None /\ fresh_from (dr_event d) 0 s.

Lemma no_events_of id s : books_ok s -> operations s !! id = None -> (events_total id s == 0)%Q /\ (events_count id s == 0)%Q.
Proof.
  intros Hok Hid. split; apply Qsum_map_zero; intros e row He; destruct (bk_event _ _ Hok e row He) as [o Ho];
    unfold final_in, one_in; rewrite decide_False; try done; intros Heq; congruence.
Qed.

Lemma operation_inserted id row s :
  books_ok s -> operations s !! id = None -> find_operation (uo_key row) s = None ->
  books_ok_but (Some id) (with_operations (<[id := row]>) s).
Proof.
  intros [B1 B2 B3 B4 B5 B6 B7] Hid Hkey.
  assert (Hfree : forall o r, operations s !! o = Some r -> uo_key r <> uo_key row).
  { intros o r Ho Hk. apply (find_row_none _ _ o r) in Hkey; [|done]. by apply bool_decide_eq_false in Hkey. }
  split; cbn [operations usage_events ledger with_operations]; try assumption.
  - intros e ev [o Ho]%B1. rewrite lookup_insert_is_Some'. right. by exists o.
  - intros l r (e & ev & o & H1' & H2' & H3' & H4')%B3. exists e, ev, o. rewrite lookup_insert_ne by congruence. done.
  - intros o r Ho Hne. rewrite lookup_insert_ne in Ho by congruence. by apply B4.
  - intros o o' r r'. rewrite !lookup_insert. repeat case_decide; simplify_eq; try congruence.
    + intros [= <-] Ho' Hk. by destruct (Hfree o' r' Ho').
    + intros Ho [= <-] Hk. by destruct (Hfree o r Ho).
    + apply B5.
Qed.

Lemma operation_done id row s :
  books_ok_but (Some id) s -> operations s !! id = Some row ->
  (Qabs (uo_total row - events_total id s) <= half_tera * (1 + events_count id s))%Q -> books_ok s.
Proof.
  intros [B1 B2 B3 B4 B5 B6 B7] Hid Ht. split; try assumption.
  intros o r Ho _. destruct (decide (o = id)) as [->|Hne]; [congruence|]. apply B4; [done|congruence].
Qed.

(** What other sessions commit meanwhile keeps the books, and draws other ids. *)
Definition considerate (before : Books -> Books) (d : Draws) : Prop :=
  forall s, books_ok s -> fresh_draws d s -> books_ok (before s) /\ fresh_draws d (before s).

Lemma persist_inv before r events d s a s' :
  persist_usage_operation before r events d s = (Ok a, s') ->
  exists priced, price_all s events = Ok priced /\
  let key := operation_key r (dr_operation d) in
  let summary := summarize_pending_events priced in
  (exists id row, find_operation key s = Some (id, row) /\ a = existing_summary id row /\ s' = s) \/
  (exists id row, find_operation key s = None /\ find_operation key (before s) = Some (id, row) /\ a = existing_summary id row /\ s' = before s) \/
  (find_operation key s = None /\ find_operation key (before s) = None /\ as_created a = true /\ as_total a = as_total summary /\
   as_operation a = dr_operation d /\ exists u,
   record_events (dr_operation d) (rc_log r) (resolved_subject r) (dr_event d) 0 priced
     (with_operations (<[dr_operation d := operation_row r priced summary key (dr_now d)]>) (before s)) = (Ok u, s')).
Proof.
  unfold persist_usage_operation. intros (p & s1 & [= <- <-] & Hrun)%op_bind_inv.
  apply op_bind_inv in Hrun as (priced & s1 & Hl & Hrun). unfold lift in Hl. injection Hl as Hp <-. exists priced. split; [done|].
  cbv zeta in *. apply op_bind_inv in Hrun as (existing & s2 & [= <- <-] & Hrun).
  destruct (find_operation _ s) as [[id row]|] eqn:E1.
  { left. injection Hrun as <- <-. by exists id, row. }
  right. apply op_bind_inv in Hrun as (u & s2 & [= _ <-] & Hrun). apply op_bind_inv in Hrun as (raced & s3 & [= <- <-] & Hrun).
  destruct (find_operation _ (before s)) as [[id row]|] eqn:E2.
  { left. injection Hrun as <- <-. by exists id, row. }
  right. apply op_bind_inv in Hrun as (u1 & s4 & [= _ <-] & Hrun). apply op_bind_inv in Hrun as (u2 & s5 & Hrec & [= <- <-]).
  split_and!; try done. by exists u2.
Qed.

(** Recording keeps the books; the summary of a new operation is the sum of its
    events, and the operation's row is its own. *)
Lemma persist_ok before r events d s a s' :
  considerate before d -> books_ok s -> fresh_draws d s -> costs_nonneg events ->
  persist_usage_operation before r events d s = (Ok a, s') ->
  books_ok s' /\
  (as_created a = true -> as_operation a = dr_operation d /\ (0 <= as_total a)%Q /\
     (Qabs (as_total a - events_total (dr_operation d) s') <= half_tera * events_count (dr_operation d) s')%Q /\
     exists o, operations s' !! dr_operation d = Some o /\ uo_total o = numeric12 (as_total a) /\
       (uo_subject_type o, uo_subject_id o) = resolved_subject r).
Proof.
  intros Hb Hok Hd Hnn (priced & Hp & Hcases)%persist_inv. cbv zeta in Hcases.
  assert (Hpn := price_all_nonneg _ _ _ Hnn Hp). destruct (Hb s Hok Hd) as [Hok' [Hd1 Hd2]].
  destruct Hcases as [(id & row & _ & -> & ->)|[(id & row & _ & _ & -> & ->)|(_ & Hfree & _ & Htotal & Hname & u & Hrec)]]; [done..|].
  set (id := dr_operation d) in *. set (row := operation_row _ _ _ _ _) in *.
  destruct (no_events_of id _ Hok' Hd1) as [Ht0 Hc0].
  destruct (record_events_ok id (rc_log r) (resolved_subject r) (dr_event d) row priced 0 _ u s'
    (operation_inserted id row _ Hok' Hd1 Hfree)) as (R1 & R2 & R3 & R4); [by apply lookup_insert_eq|apply surjective_pairing|exact Hd2|exact Hrec|].
  assert (Et : (events_total id s' == Qsum (recorded_cost_of <$> priced))%Q) by (rewrite R3; unfold events_total in *; cbn [usage_events with_operations]; rewrite Ht0; ring).
  assert (Ec : (events_count id s' == inject_Z (Z.of_nat (length priced)))%Q) by (rewrite R4; unfold events_count in *; cbn [usage_events with_operations]; rewrite Hc0; ring).
  assert (Ho : operations s' !! id = Some row) by (rewrite R2; apply lookup_insert_eq).
  split; [apply (operation_done id row); [done|done|]|intros _; split; [done|]; split; [rewrite Htotal; apply Q.le_max_l|split]].
  - rewrite Et, Ec. apply total_column_err. exact Hpn.
  - rewrite Et, Ec, Htotal. apply summary_err. exact Hpn.
  - exists row. rewrite Htotal. split_and!; [done|done|]. unfold row, operation_row. cbn. by destruct (resolved_subject r).
Qed.
End recording.

(** ** Correcting an event *)

(** The accounting tables after a correction. *)
Definition adjustment_entry (event_id run_id : string) (event : UsageEvent) (operation : UsageOperation) (log : option Z) (delta : Q) (now : Z)
    : CostLedgerEntry :=
  MkEntry (ue_operation event) (Some event_id) log (Some run_id) (uo_subject_type operation) (uo_subject_id operation) "adjustment"
    (numeric12 delta) (of_string COST_SOURCE_RECONCILED) (of_string CONFIDENCE_RECONCILED) (adjustment_key run_id event_id)
    (of_string "Provider reconciliation adjustment") (default now (first_of (ue_completed event) (Some (ue_started event)))).
Definition corrected (event_id run_id entry : string) (event : UsageEvent) (operation : UsageOperation) (log : option Z) (actual : Q) (now : Z)
    (s : Books) : Books :=
  let s := with_events (<[event_id := reconciled_event run_id actual now event]>) s in
  let s := with_ledger (<[entry := adjustment_entry event_id run_id event operation log (actual - final_cost event) now]>) s in
  with_operations (alter (reconciled_operation (events_of (ue_operation event) s) now) (ue_operation event)) s.

Lemma the_row_inv {A} (row : option A) s a s' : the_row row s = (Ok a, s') -> row = Some a /\ s' = s.
Proof. unfold the_row. destruct row; [by intros [= <- <-]|discriminate]. Qed.

Lemma on_accounts_inv {A} (m : op DB A) s r s' :
  on_accounts m s = (r, s') -> m (accounts s) = (r, accounts s') /\ s' = with_accounts (fun _ => accounts s') s.
Proof. unfold on_accounts. destruct (m (accounts s)) as [r1 db]. intros [= <- <-]. done. Qed.

Lemma refresh_totals_inv operation run log previous actual delta now s u s' :
  refresh_totals operation run log previous actual delta now s = (Ok u, s') ->
  same_books (with_operations (alter (reconciled_operation (events_of operation s) now) operation) s) s' /\ accounts s' = accounts s.
Proof.
  unfold refresh_totals. intros (evs & s1 & [= <- <-] & Hrun)%op_bind_inv.
  apply op_bind_inv in Hrun as (u1 & s2 & [= _ <-] & Hrun). apply op_bind_inv in Hrun as (row & s3 & [= <- <-] & Hrun).
  apply op_bind_inv in Hrun as (row & s3 & [_ ->]%the_row_inv & Hrun). apply op_bind_inv in Hrun as (u2 & s4 & Hlog & [= _ <-]).
  destruct log as [id|]; injection Hlog as _ <-; done.
Qed.

Lemma reconcile_inv event_id x run_id entry now s delta s' :
  reconcile_usage_event event_id x run_id entry now s = (Ok delta, s') ->
  exists event operation, usage_events s !! event_id = Some event /\ operations s !! ue_operation event = Some operation /\
  ((exists l row, ledger s !! l = Some row /\ ce_key row = adjustment_key run_id event_id /\ delta = ce_amount row /\ s' = s) \/
   (ledger_key_taken (adjustment_key run_id event_id) s = false /\ delta = (Qmax 0 (_signed_float x) - final_cost event)%Q /\
    same_books (corrected event_id run_id entry event operation (fst <$> log_of (ue_operation event) s) (Qmax 0 (_signed_float x)) now s) s' /\
    _apply_subject_delta (uo_subject_type operation) (uo_subject_id operation) delta (first_of (ue_completed event) (Some (ue_started event)))
      (accounts s) = (Ok tt, accounts s'))).
Proof.
  unfold reconcile_usage_event. intros (o1 & s1 & [= <- <-] & Hrun)%op_bind_inv.
  apply op_bind_inv in Hrun as (event & s1 & [He ->]%the_row_inv & Hrun).
  apply op_bind_inv in Hrun as (o2 & s2 & [= <- <-] & Hrun). apply op_bind_inv in Hrun as (run & s2 & [_ ->]%the_row_inv & Hrun).
  apply op_bind_inv in Hrun as (o3 & s3 & [= <- <-] & Hrun). apply op_bind_inv in Hrun as (o & s3 & [Ho ->]%the_row_inv & Hrun).
  exists event, o. split; [done|]. split; [done|]. cbv zeta in Hrun.
  apply op_bind_inv in Hrun as (existing & s4 & [= <- <-] & Hrun).
  destruct (find_row _ (ledger s)) as [[l row]|] eqn:Hfind.
  { left. apply find_row_some in Hfind as [Hl Hk]. apply bool_decide_eq_true in Hk. injection Hrun as <- <-. by exists l, row. }
  right. apply op_bind_inv in Hrun as (u1 & s5 & [= _ <-] & Hrun). apply op_bind_inv in Hrun as (log & s6 & [= <- <-] & Hrun).
  apply op_bind_inv in Hrun as (u2 & s7 & [Hfree ->]%insert_unique_ok & Hrun).
  apply op_bind_inv in Hrun as (u3 & s8 & [Hdelta Hs8]%on_accounts_inv & Hrun).
  apply op_bind_inv in Hrun as (u4 & s9 & [Hsame Hacc]%refresh_totals_inv & [= <- <-]).
  split; [exact Hfree|]. split; [done|]. split.
  - rewrite Hs8 in Hsame. exact Hsame.
  - rewrite Hacc. destruct u3. exact Hdelta.
Qed.

Section correction.
Variables (event_id run_id entry : string) (event : UsageEvent) (operation : UsageOperation) (log : option Z) (actual : Q) (now : Z) (s : Books).
Hypotheses (Hok : books_ok s) (Hevent : usage_events s !! event_id = Some event) (Hop : operations s !! ue_operation event = Some operation)
  (Hfresh : ledger s !! entry = None) (Hkey : ledger_key_taken (adjustment_key run_id event_id) s = false).

Let s' := corrected event_id run_id entry event operation log actual now s.
Let delta : Q := numeric12 (actual - final_cost event).

Lemma corrected_sum e : (ledger_sum e s' == ledger_sum e s + if decide (e = event_id) then delta else 0)%Q.
Proof using Hfresh.
  unfold ledger_sum, s', corrected. cbn [ledger with_operations with_ledger with_events].
  apply sum_insert; [exact Hfresh|]. unfold amount_for, adjustment_entry. cbn [ce_event ce_amount]. repeat case_decide; simplify_eq; done.
Qed.
Lemma corrected_adjustments e : (adjustments e s' == adjustments e s + if decide (e = event_id) then 1 else 0)%Q.
Proof using Hfresh.
  unfold adjustments, s', corrected. cbn [ledger with_operations with_ledger with_events].
  apply sum_insert; [exact Hfresh|]. unfold adjusts, adjustment_entry. cbn [ce_event ce_type]. repeat case_decide; simplify_eq; try done; exfalso; intuition congruence.
Qed.
Lemma corrected_count o : (events_count o s' == events_count o s)%Q.
Proof using Hevent.
  unfold events_count, s', corrected. cbn [usage_events with_operations with_ledger with_events].
  rewrite (sum_replace _ _ _ _ _ 0%Q Hevent); [ring|]. unfold one_in. cbn [ue_operation reconciled_event]. case_decide; ring.
Qed.
Lemma corrected_total o : o <> ue_operation event -> (events_total o s' == events_total o s)%Q.
Proof using Hevent.
  intros Hne. unfold events_total, s', corrected. cbn [usage_events with_operations with_ledger with_events].
  rewrite (sum_replace _ _ _ _ _ 0%Q Hevent); [ring|]. unfold final_in. cbn [ue_operation reconciled_event].
  rewrite !decide_False by congruence. ring.
Qed.

(** After a correction the total column is the exact sum of the event columns. *)
Lemma corrected_exact : exists o, operations s' !! ue_operation event = Some o /\ (uo_total o == events_total (ue_operation event) s')%Q.
Proof using Hop.
  unfold s', corrected. cbn [operations with_operations]. rewrite lookup_alter_eq. cbn [operations with_ledger with_events]. rewrite Hop.
  eexists. split; [reflexivity|]. cbn [uo_total reconciled_operation]. rewrite events_of_total. done.
Qed.

Lemma corrected_keeps : books_ok s'.
Proof using All.
  pose proof Hok as [B1 B2 B3 B4 B5 B6 B7].
  assert (Hev : forall e row, usage_events s' !! e = Some row -> exists row0, usage_events s !! e = Some row0 /\
    ue_operation row = ue_operation row0 /\ ue_key row = ue_key row0 /\ (e <> event_id -> row = row0)).
  { intros e row. unfold s', corrected. cbn [usage_events with_operations with_ledger with_events]. rewrite lookup_insert.
    case_decide; [|eauto]. intros [= <-]. subst e. exists event. done. }
  assert (Hops : forall o row, operations s !! o = Some row -> exists row', operations s' !! o = Some row' /\
    uo_key row' = uo_key row /\ uo_subject_type row' = uo_subject_type row /\ uo_subject_id row' = uo_subject_id row).
  { intros o row Ho. unfold s', corrected. cbn [operations with_operations with_ledger with_events]. rewrite lookup_alter.
    case_decide as Hd; [|eauto]. rewrite Hd, Ho. eexists. split; [reflexivity|done]. }
  assert (Hops' : forall o row', operations s' !! o = Some row' -> exists row, operations s !! o = Some row /\ uo_key row' = uo_key row /\
    (o <> ue_operation event -> row' = row)).
  { intros o row'. unfold s', corrected. cbn [operations with_operations with_ledger with_events]. rewrite lookup_alter.
    case_decide as Ho; [|eauto]. intros (row & Hrow & ->)%fmap_Some. exists row. rewrite <- Ho. split; [done|]. split; [done|congruence]. }
  split.
  - intros e row (row0 & He & -> & _)%Hev. destruct (B1 _ _ He) as [o Ho]. destruct (Hops _ _ Ho) as (o' & Ho' & _). by exists o'.
  - intros e row He. rewrite corrected_sum, corrected_adjustments. destruct (Hev e row He) as (row0 & He0 & _ & _ & Hsame).
    case_decide as Hd.
    + subst e. unfold s', corrected in He. cbn [usage_events with_operations with_ledger with_events] in He.
      rewrite lookup_insert_eq in He. injection He as <-.
      specialize (B2 _ _ Hevent). change (final_cost (reconciled_event _ _ _ _)) with (numeric12 actual). unfold delta.
      pose proof (numeric12_bounds actual). pose proof (numeric12_bounds (actual - final_cost event)).
      apply Qabs_Qle_condition in B2 as [? ?]. unfold half_tera in *. apply Qabs_Qle_condition. split; lra.
    + rewrite (Hsame Hd), !Qplus_0_r. by apply B2.
  - assert (Hback : forall e ev, usage_events s !! e = Some ev -> exists ev', usage_events s' !! e = Some ev' /\ ue_operation ev' = ue_operation ev).
    { intros e ev He. unfold s', corrected. cbn [usage_events with_operations with_ledger with_events]. rewrite lookup_insert.
      case_decide; [|eauto]. subst e. eexists. split; [reflexivity|]. cbn [ue_operation reconciled_event]. congruence. }
    intros l row. unfold s' at 1, corrected at 1. cbn [ledger with_operations with_ledger with_events]. rewrite lookup_insert.
    case_decide; [intros [= <-]|intros (e & ev & o & E1 & E2 & E3 & E4 & E5 & E6)%B3].
    + destruct (Hback _ _ Hevent) as (ev' & E1 & E2). destruct (Hops _ _ Hop) as (o' & O1 & _ & O2 & O3).
      exists event_id, ev', o'. rewrite E2. cbn [adjustment_entry ce_event ce_operation ce_subject_type ce_subject_id]. by rewrite O2, O3.
    + destruct (Hback _ _ E2) as (ev' & E1' & E2'). destruct (Hops _ _ E3) as (o' & O1 & _ & O2 & O3).
      exists e, ev', o'. rewrite E2', O2, O3. done.
  - intros o row Ho _. rewrite corrected_count. destruct (decide (o = ue_operation event)) as [->|Hne].
    + destruct corrected_exact as (o' & Ho' & Ht). simplify_eq. specialize (B4 _ _ Hop ltac:(done)).
      rewrite Ht. apply Qabs_Qle_condition in B4 as [? ?]. unfold half_tera in *. apply Qabs_Qle_condition. split; lra.
    + rewrite corrected_total by done. destruct (Hops' _ _ Ho) as (row0 & Ho0 & _ & Hsame). rewrite (Hsame Hne). by apply B4.
  - intros o o' r r' (r0 & Ho & -> & _)%Hops' (r0' & Ho' & -> & _)%Hops'. by apply B5.
  - intros e e' r r' (r0 & He & _ & -> & _)%Hev (r0' & He' & _ & -> & _)%Hev. by apply B6.
  - assert (Hfree := ledger_key_free _ _ Hkey). intros l l' r r'. unfold s', corrected. cbn [ledger with_operations with_ledger with_events].
    rewrite !lookup_insert. repeat case_decide; simplify_eq; try congruence.
    + intros [= <-] He2 Hk. by destruct (Hfree l' r' He2).
    + intros He1 [= <-] Hk. by destruct (Hfree l r He1).
    + apply B7.
Qed.
End correction.
