(* ===== verification/UsageLogging.v ===== *)
(** * One billed call: log, ledger and budget

    usage_logging_service.py and the settlement of a turn's usage in
    turn_settlement.py.  A call of [log_usage] writes the request's log row, the
    operation with its events and ledger, and the budget; a settlement tries it
    up to three times, each time in a transaction of its own. *)

From S2P Require Import Prelude Money Text Json JsonParse PyTime PyText Accounts Holds Reserve Extractor Pricing UsageLedger.
From Stdlib Require Import QArith Qminmax.

#[local] Open Scope Z_scope.

Section logging.
Context `{PyNumber} `{PyInt} `{PyRepr} `{PyStr} `{PyFloatText} `{PyFloat}.

(** [UPDATE users SET budget_used_usd = budget_used_usd + :cost] *)
Definition _apply_cost_to_user (user_id : Z) (cost : Q) : op DB unit :=
  if Qle_bool cost 0 then mret tt
  else modify (with_users (alter (fun u => set_user_used (budget_used_usd u + cost) u) user_id)).

(** [sanitize_cost_usd] of a finite cost *)
Definition sanitize_cost_usd (cost : Q) : Q := if Qle_bool 0 cost then cost else 0%Q.

(** [if x:] of an optional id *)
Definition given_id (x : option Z) : option Z := match x with Some n => if n =? 0 then None else Some n | None => None end.
Definition given_hold (x : option string) : option string := match x with Some (String _ _ as id) => Some id | _ => None end.

Definition touch_user_key_last_used (user_api_key_id : option Z) (now : Z) : op Books unit :=
  match given_id user_api_key_id with
  | Some id => modify (with_user_keys (alter (fun _ => Some now) id))
  | None => mret tt
  end.

(** What a call is about: the columns of its log row and of its operation. *)
Record Call := MkCall {
  ca_user : option Z; ca_api_key : option Z; ca_user_key : option Z; ca_reservation : option string; ca_model : text;
  ca_prompt : Z; ca_completion : Z; ca_cached : Z; ca_total : Q; ca_success : bool; ca_operation : text; ca_source : text;
  ca_client : option text; ca_key : option text; ca_subject : option string; ca_charge : bool
}.

Definition new_log (c : Call) (now : Z) : LogRow :=
  MkLogRow (ca_user c) (ca_api_key c) (ca_user_key c) (ca_reservation c) (ca_model c) (ca_prompt c) (ca_completion c) (ca_cached c)
    (sanitize_cost_usd (ca_total c)) None None (of_string COST_SOURCE_UNKNOWN) (of_string CONFIDENCE_UNKNOWN) false None now None (ca_success c).

Definition accounted_log (a : AccountingSummary) (l : LogRow) : LogRow :=
  MkLogRow (lr_user l) (lr_api_key l) (lr_user_key l) (lr_reservation l) (lr_model l) (as_prompt a) (as_completion a) (as_cached a)
    (sanitize_cost_usd (as_total a)) (as_provider a) (as_calculated a) (as_source a) (as_confidence a) (0 <? as_unpriced a)
    (Some (as_operation a)) (lr_time l) (lr_reconciled l) (lr_success l).

(** [budget_reservation_id] is unique among the logs. *)
Definition hold_logged (reservation : option string) (s : Books) : bool :=
  match reservation with
  | Some id => negb (absent (find_row (fun row => bool_decide (lr_reservation row = Some id)) (logs s)))
  | None => false
  end.

Definition insert_log (c : Call) (now : Z) : op Books Z :=
  new ← gets (fun s => next_id (logs s));
  _ ← insert_unique (hold_logged (ca_reservation c)) (with_logs (<[new := new_log c now]>));
  mret new.

(** The events of the call, or one that stands for its totals. *)
Definition events_or_legacy (c : Call) (events : list PendingUsageEvent) (now : Z) (new_id : text) : list PendingUsageEvent :=
  match events with
  | [] => [legacy_usage_event (ca_model c) (ca_prompt c) (ca_completion c) (ca_cached c) (Finite (ca_total c)) (ca_operation c) now new_id]
  | _ => events
  end.

Definition recording (c : Call) (log : Z) : Recording :=
  MkRecording (ca_user c) (ca_api_key c) (ca_reservation c) (Some log) (ca_operation c) (ca_source c) (ca_client c) (ca_success c)
    (ca_key c) (Some (JObj [(of_string "model_id", JStr (ca_model c))])) (ca_subject c).

(** The charge of a recorded call: through its hold, else to the key, else to the person. *)
Definition charge_call (c : Call) (log : Z) (total : Q) (now : Z) : op DB unit :=
  settled ← match given_hold (ca_reservation c) with
    | Some id => settle id total (Some log) now
    | None => mret false
    end;
  if (settled : bool) then mret tt
  else
    match given_id (ca_api_key c), given_id (ca_user c) with
    | Some key, user =>
        if Qltb 0 total then record_key_usage key total now else mret tt
    | None, Some user => if Qltb 0 total && ca_charge c then _apply_cost_to_user user total else mret tt
    | None, None => mret tt
    end.

Definition log_usage (before_insert : Books -> Books) (c : Call) (events : list PendingUsageEvent) (d : Draws) (legacy_id : text)
    : op Books (option Z) :=
  let events := events_or_legacy c events (dr_now d) legacy_id in
  log ← insert_log c (dr_now d);
  accounting ← persist_usage_operation before_insert (recording c log) events d;
  if negb (as_created accounting) then
    _ ← modify (with_logs (delete log));
    _ ← match given_hold (ca_reservation c) with
        | Some id => _ ← on_accounts (release id false (dr_now d)); mret tt
        | None => mret tt
        end;
    mret None
  else
    let total := sanitize_cost_usd (as_total accounting) in
    _ ← modify (with_logs (alter (accounted_log accounting) log));
    _ ← on_accounts (charge_call c log total (dr_now d));
    _ ← touch_user_key_last_used (ca_user_key c) (dr_now d);
    mret (Some log).

(** ** Three attempts *)

(** How an attempt ends once its statements have run: its commit holds, or it
    does not, or it holds and its answer is lost. *)
Inductive commit := Committed | Refused | Lost.

(** What one attempt meets: the commits of others before it, its draws, and its end. *)
Record Try := MkTry { tr_meanwhile : Books -> Books; tr_draws : Draws; tr_legacy : text; tr_end : commit }.

(** [_apply_configured_pricing] writes on the caller's events, which a rollback does not undo. *)
Definition events_after (c : Call) (events : list PendingUsageEvent) (s : Books) : list PendingUsageEvent :=
  if hold_logged (ca_reservation c) s then events else match price_all s events with Ok priced => priced | Raise _ => events end.

Fixpoint attempts (n : nat) (c : Call) (events : list PendingUsageEvent) (tries : list Try) (s : Books) : option Z * Books :=
  match n, tries with
  | S n, t :: tries =>
      let s := tr_meanwhile t s in
      match log_usage id c events (tr_draws t) (tr_legacy t) s with
      | (Ok log, s') =>
          match tr_end t with
          | Committed => (log, s')
          | Refused => attempts n c (events_after c events s) tries s
          | Lost => attempts n c (events_after c events s) tries s'
          end
      | (Raise _, _) => attempts n c (events_after c events s) tries s
      end
  | _, _ => (None, s)
  end.

(** [chat:{reservation}], or [chat:{first event}] *)
Definition accounting_key (reservation : option string) (events : list PendingUsageEvent) : option text :=
  match given_hold reservation, events with
  | Some id, _ => Some (of_string "chat:" ++ of_string id)
  | None, event :: _ => Some (of_string "chat:" ++ pe_key event)
  | None, [] => None
  end.

Record Turn := MkTurn {
  tu_user : option Z; tu_api_key : option Z; tu_user_key : option Z; tu_reservation : option string; tu_model : text; tu_source : text;
  tu_client : option text; tu_prompt : Z; tu_completion : Z; tu_cached : Z; tu_total : Q; tu_success : bool
}.
Definition turn_call (t : Turn) (events : list PendingUsageEvent) : Call :=
  MkCall (tu_user t) (tu_api_key t) (tu_user_key t) (tu_reservation t) (tu_model t) (tu_prompt t) (tu_completion t) (tu_cached t)
    (tu_total t) (tu_success t) (of_string "chat") (tu_source t) (tu_client t) (accounting_key (tu_reservation t) events) None true.

Definition _persist_stream_usage (t : Turn) (events : list PendingUsageEvent) (tries : list Try) (s : Books) : option Z * Books :=
  attempts 3 (turn_call t events) events tries s.

(** [idempotency_key or f"aux:{reservation}" or f"aux:{event key}"] *)
Definition auxiliary_key (given : option text) (reservation : option string) (event : PendingUsageEvent) : text :=
  match text_or given None, given_hold reservation with
  | Some key, _ => key
  | None, Some id => of_string "aux:" ++ of_string id
  | None, None => of_string "aux:" ++ pe_key event
  end.

(** A helper call; [event] is what [capture_usage_event] made of its answer. *)
Record Helper := MkHelper {
  he_user : option Z; he_model : text; he_reservation : option string; he_success : bool; he_operation : text; he_source : text;
  he_client : text; he_key : option text; he_subject : option string; he_charge : bool
}.
Definition helper_call (h : Helper) (event : PendingUsageEvent) : Call :=
  MkCall (he_user h) None None (he_reservation h) (he_model h) (nu_prompt (pe_usage event)) (nu_completion (pe_usage event))
    (nu_cached (pe_usage event)) (default 0%Q (cq_final (pe_quote event))) (he_success h) (he_operation h) (he_source h)
    (Some (he_client h)) (Some (auxiliary_key (he_key h) (he_reservation h) event)) (he_subject h) (he_charge h).
Definition settle_auxiliary_usage (h : Helper) (event : PendingUsageEvent) (tries : list Try) (s : Books) : Books :=
  (attempts 3 (helper_call h event) [event] tries s).2.
End logging.
