(* ===== verification/LoggingFacts.v ===== *)
(** * Recording a call, once

    What a call of [log_usage] leaves in the books, what its retries add, what
    it charges, and what the tables keep over any sequence of calls. *)

From S2P Require Import Prelude Money Text Json JsonParse PyTime PyText Accounts Holds HoldsFacts Reserve Extractor Pricing UsageLedger LedgerFacts UsageLogging PricingFacts.
From Stdlib Require Import QArith Qminmax Qabs Lqa.

#[local] Open Scope Z_scope.

Section logging_facts.
Context `{PyNumber} `{PyInt} `{PyRepr} `{PyStr} `{PyFloatText} `{PyFloat}.

(** ** What a call does *)

Lemma next_id_fresh {A} (m : gmap Z A) : m !! next_id m = None.
Proof.
  apply eq_None_not_Some. intros [a Ha]. unfold next_id in Ha.
  assert (Hle : forall l k (a : A), (k, a) ∈ l -> k <= foldr Z.max 0 (l.*1)).
  { clear. intros l k a. induction l as [|[k' a'] l IH]; [by intros ?%elem_of_nil|]. rewrite elem_of_cons. cbn.
    intros [[= -> ->]|Hin%IH]; lia. }
  apply elem_of_map_to_list in Ha. apply Hle in Ha. lia.
Qed.

Lemma insert_log_inv c now s new s' :
  insert_log c now s = (Ok new, s') ->
  new = next_id (logs s) /\ hold_logged (ca_reservation c) s = false /\ s' = with_logs (<[new := new_log c now]>) s.
Proof.
  unfold insert_log. intros (n & s1 & [= <- <-] & Hrun)%op_bind_inv.
  apply op_bind_inv in Hrun as (u & s2 & [Hf ->]%insert_unique_ok & [= <- <-]). done.
Qed.

(** The books after a recorded call: the log row, the charge and the key's use. *)
Definition charged (c : Call) (log : Z) (a : AccountingSummary) (now : Z) (s s' : Books) : Prop :=
  exists db, charge_call c log (sanitize_cost_usd (as_total a)) now (accounts s) = (Ok tt, db) /\
  s' = (touch_user_key_last_used (ca_user_key c) now
         (with_accounts (fun _ => db) (with_logs (alter (accounted_log a) log) s))).2.

(** A call that found its operation: the hold is given back. *)
Definition given_back (c : Call) (log now : Z) (s s' : Books) : Prop :=
  s' = match given_hold (ca_reservation c) with
       | Some id => with_accounts (fun _ => (release id false now (accounts s)).2) (with_logs (delete log) s)
       | None => with_logs (delete log) s
       end.

Lemma touch_ok k now s : exists s', touch_user_key_last_used k now s = (Ok tt, s') /\ same_books s s' /\ logs s' = logs s /\
  accounts s' = accounts s /\ snapshots s' = snapshots s.
Proof. unfold touch_user_key_last_used. destruct (given_id k); eexists; split; try reflexivity; done. Qed.

Lemma release_total id expired now db : exists b, (release id expired now db).1 = Ok b.
Proof. rewrite release_spec. destruct (open_hold id db); by eexists. Qed.

Lemma log_usage_inv before c events d legacy s r s' :
  log_usage before c events d legacy s = (Ok r, s') ->
  let log := next_id (logs s) in
  hold_logged (ca_reservation c) s = false /\
  exists a s2, persist_usage_operation before (recording c log) (events_or_legacy c events (dr_now d) legacy) d
    (with_logs (<[log := new_log c (dr_now d)]>) s) = (Ok a, s2) /\
  ((as_created a = false /\ r = None /\ given_back c log (dr_now d) s2 s') \/
   (as_created a = true /\ r = Some log /\ charged c log a (dr_now d) s2 s')).
Proof.
  unfold log_usage. cbv zeta. intros (log & s1 & (-> & Hf & ->)%insert_log_inv & Hrun)%op_bind_inv. split; [done|].
  apply op_bind_inv in Hrun as (a & s2 & Hp & Hrun). exists a, s2. split; [done|].
  destruct (as_created a); cbn [negb] in Hrun; [right|left].
  - apply op_bind_inv in Hrun as (u1 & s3 & [= _ <-] & Hrun). apply op_bind_inv in Hrun as ([] & s4 & [Hc Hs4]%on_accounts_inv & Hrun).
    destruct (touch_ok (ca_user_key c) (dr_now d) s4) as (s5 & Ht & _).
    apply op_bind_inv in Hrun as (u3 & s6 & Ht' & [= <- <-]). split; [done|]. split; [done|].
    exists (accounts s4). split; [exact Hc|]. rewrite Ht in Ht'. injection Ht' as _ <-. rewrite Hs4 in Ht. by rewrite Ht.
  - apply op_bind_inv in Hrun as (u1 & s3 & [= _ <-] & Hrun). apply op_bind_inv in Hrun as (u2 & s4 & Hrel & [= <- <-]).
    split; [done|]. split; [done|]. unfold given_back. destruct (given_hold (ca_reservation c)) as [id|]; [|by injection Hrel as _ <-].
    apply op_bind_inv in Hrel as (b & s5 & [Hr Hs5]%on_accounts_inv & [= _ <-]).
    cbn [accounts with_logs] in Hr. by rewrite Hr, Hs5.
Qed.

(** Recording writes no log row and no account. *)
Definition same_rest (s s' : Books) : Prop := accounts s' = accounts s /\ logs s' = logs s /\ runs s' = runs s /\ user_keys s' = user_keys s.

Lemma same_rest_trans s1 s2 s3 : same_rest s1 s2 -> same_rest s2 s3 -> same_rest s1 s3.
Proof. unfold same_rest. intuition congruence. Qed.

Lemma insert_unique_rest {taken : Books -> bool} add s s' u :
  (forall s, same_rest s (add s)) -> insert_unique taken add s = (Ok u, s') -> same_rest s s'.
Proof. intros Ha [_ ->]%insert_unique_ok. apply Ha. Qed.

Lemma record_event_rest operation log subject ids p s u s' : record_event operation log subject ids p s = (Ok u, s') -> same_rest s s'.
Proof.
  unfold record_event. intros (snapshot & s1 & Hsnap & Hrun)%op_bind_inv.
  assert (R1 : same_rest s s1).
  { destruct (pe_snapshot p); [injection Hsnap as _ <-; done|]. by apply pricing_snapshot_same in Hsnap as (i & f & _ & ->). }
  apply op_bind_inv in Hrun as (u1 & s2 & R2%insert_unique_rest & Hrun); [|done].
  apply op_bind_inv in Hrun as (u2 & s3 & [= _ <-] & Hrun). apply (same_rest_trans _ s1); [done|].
  apply (same_rest_trans _ s2); [done|]. destruct (cq_final _); [|by injection Hrun as _ <-].
  apply insert_unique_rest in Hrun; [exact Hrun|done].
Qed.

Lemma record_events_rest operation log subject ids events : forall n s u s',
  record_events operation log subject ids n events s = (Ok u, s') -> same_rest s s' /\ operations s' = operations s.
Proof.
  induction events as [|p events IH]; intros n s u s' Hrun; [by injection Hrun as _ <-|].
  apply op_bind_inv in Hrun as (u1 & s1 & Hone & Hrun). apply IH in Hrun as [R2 O2].
  split; [apply (same_rest_trans _ s1); [|done]; by eapply record_event_rest|].
  apply record_event_ok in Hone as (sn & (Hops & _) & _). by rewrite O2, <- Hops, recorded_operations.
Qed.

Lemma persist_frame r events d s a s' :
  persist_usage_operation id r events d s = (Ok a, s') ->
  same_rest s s' /\ (if as_created a then exists id, operations s' !! id = Some (operation_row r (default [] (match price_all s events with Ok l => Some l | _ => None end))
      (summarize_pending_events (default [] (match price_all s events with Ok l => Some l | _ => None end))) (operation_key r (dr_operation d)) (dr_now d))
    else s' = s /\ exists row, find_operation (operation_key r (dr_operation d)) s = Some row).
Proof.
  intros (priced & Hp & Hcases)%persist_inv. cbv zeta in Hcases. rewrite Hp. cbn [default].
  destruct Hcases as [(o & row & Hf & -> & ->)|[(o & row & Hf & Hf' & _)|(_ & _ & Hc & _ & _ & u & Hrec)]].
  - split; [done|]. cbn. split; [done|]. by exists (o, row).
  - unfold id in Hf'. congruence.
  - rewrite Hc. apply record_events_rest in Hrec as [R O]. split; [exact R|]. exists (dr_operation d). rewrite O.
    cbn [operations with_operations id]. by rewrite lookup_insert_eq.
Qed.

(** ** Retries *)

Lemma delete_new_log (row : LogRow) s : with_logs (delete (next_id (logs s))) (with_logs (<[next_id (logs s) := row]>) s) = s.
Proof. destruct s. unfold with_logs. cbn. rewrite delete_insert_id by apply next_id_fresh. done. Qed.

Lemma release_again id now now' db : (release id false now' (release id false now db).2).2 = (release id false now db).2.
Proof.
  rewrite (release_spec id false now db). destruct (open_hold id db) as [r|] eqn:Ho; cbn [snd].
  - rewrite release_spec, closed_stays_closed; [done|]. intros r'. cbn [reservations with_reservations].
    rewrite lookup_insert_eq. by intros [= <-].
  - by rewrite release_spec, Ho.
Qed.

(** Whatever a first call did, the operation's key is now taken. *)
Lemma log_usage_key_taken c key events d legacy s r s' :
  text_or (ca_key c) None = Some key -> log_usage id c events d legacy s = (Ok r, s') ->
  exists row, find_operation (take 200 key) s' = Some row.
Proof.
  intros Hkey (Hf & a & s2 & Hp & Hcases)%log_usage_inv. apply persist_frame in Hp as [R Hop].
  unfold operation_key, recording in Hop. cbn [rc_key] in Hop. rewrite Hkey in Hop.
  assert (Hops : operations s' = operations s2).
  { destruct Hcases as [(_ & _ & ->)|(_ & _ & db & _ & ->)]; [by destruct (given_hold _)|].
    unfold touch_user_key_last_used. by destruct (given_id _). }
  unfold find_operation. rewrite Hops. destruct (as_created a).
  - destruct Hop as [o Ho]. eapply find_row_is; [exact Ho|]. by apply bool_decide_eq_true.
  - destruct Hop as [-> [row Hrow]]. by exists row.
Qed.

Lemma found_call c key events d legacy s r s' :
  text_or (ca_key c) None = Some key -> (exists row, find_operation (take 200 key) s = Some row) ->
  log_usage id c events d legacy s = (Ok r, s') ->
  r = None /\ s' = match given_hold (ca_reservation c) with
                   | Some id => with_accounts (fun _ => (release id false (dr_now d) (accounts s)).2) s
                   | None => s
                   end.
Proof.
  intros Hkey [row Hrow] (Hf & a & s2 & Hp & Hcases)%log_usage_inv. apply persist_inv in Hp as (priced & Hpr & Hp). cbv zeta in Hp.
  unfold operation_key, recording in Hp. cbn [rc_key] in Hp. rewrite Hkey in Hp.
  change (find_operation (take 200 key) (with_logs _ s)) with (find_operation (take 200 key) s) in Hp. rewrite Hrow in Hp.
  destruct Hp as [(o & orow & Hfound & -> & ->)|[(o & orow & Hfound & _)|(Hfound & _)]]; [|discriminate..].
  destruct Hcases as [(_ & -> & Hback)|(Hc & _)]; [|discriminate]. split; [done|].
  unfold given_back in Hback. rewrite delete_new_log in Hback. by destruct (given_hold _).
Qed.

(** A call that is accounted for: an operation has its key, and its hold is over, or
    a log row has it. *)
Definition accounted_for (c : Call) (key : text) (s : Books) : Prop :=
  (exists row, find_operation (take 200 key) s = Some row) /\
  (hold_logged (ca_reservation c) s = true \/ forall id, given_hold (ca_reservation c) = Some id -> open_hold id (accounts s) = None).

Lemma released_closed id now db : open_hold id (release id false now db).2 = None.
Proof.
  rewrite release_spec. destruct (open_hold id db) as [r|] eqn:Ho; cbn [snd]; [|done].
  apply closed_stays_closed. intros r'. cbn [reservations with_reservations]. rewrite lookup_insert_eq. by intros [= <-].
Qed.

(** Whatever a call did, it is accounted for; *)
Lemma log_usage_accounts c key events d legacy s r s' :
  text_or (ca_key c) None = Some key -> log_usage id c events d legacy s = (Ok r, s') -> accounted_for c key s'.
Proof.
  intros Hkey Hrun. split; [by eapply log_usage_key_taken|].
  apply log_usage_inv in Hrun as (_ & a & s2 & Hp & [(_ & _ & ->)|(_ & _ & db & _ & ->)]).
  - right. intros id Hh. unfold given_back. rewrite Hh. cbn [accounts with_accounts]. apply released_closed.
  - apply persist_frame in Hp as [(_ & Hlogs & _) _]. set (log := next_id (logs s)) in *. set (s4 := with_logs _ _) in Hlogs.
    destruct (touch_ok (ca_user_key c) (dr_now d) (with_accounts (fun _ => db) (with_logs (alter (accounted_log a) log) s2)))
      as (s5 & Ht & _ & Hl5 & _). rewrite Ht. cbn [snd].
    destruct (ca_reservation c) as [rid|] eqn:Hres; [left|right; done].
    unfold hold_logged. destruct (negb (absent _)) eqn:Hnl; [done|exfalso].
    apply absent_false in Hnl. eapply (find_row_none _ _ log) in Hnl.
    2: { rewrite Hl5. cbn [logs with_accounts with_logs]. rewrite lookup_alter_eq, Hlogs. unfold s4. cbn [logs with_logs].
         rewrite lookup_insert_eq. cbn [fmap option_fmap option_map]. reflexivity. }
    apply bool_decide_eq_false in Hnl. apply Hnl. cbn. exact Hres.
Qed.

(** and one that is accounted for writes nothing when it is tried again. *)
Lemma accounted_idle c key events d legacy s r s' :
  text_or (ca_key c) None = Some key -> accounted_for c key s -> log_usage id c events d legacy s = (Ok r, s') -> r = None /\ s' = s.
Proof.
  intros Hkey [Htaken Hhold] Hrun. pose proof (proj1 (log_usage_inv _ _ _ _ _ _ _ _ Hrun)) as Hnl.
  apply (found_call c key) in Hrun as [-> ->]; [|done..]. split; [done|].
  destruct (given_hold (ca_reservation c)) as [id|] eqn:Hh; [|done].
  destruct Hhold as [Hhold|Hhold]; [congruence|]. rewrite release_spec, (Hhold id eq_refl). by destruct s.
Qed.

(** What the others committed, attempt by attempt. *)
Definition others (tries : list Try) (s : Books) : Books := foldl (fun s t => tr_meanwhile t s) s tries.

(** The others leave a call accounted for: they take away neither its operation nor
    its log row, and open no hold again. *)
Definition leave_accounted (c : Call) (key : text) (t : Try) : Prop :=
  forall s, accounted_for c key s -> accounted_for c key (tr_meanwhile t s).

(** What is left when the call is not recorded: the others' commits alone. *)
Definition unrecorded (tries : list Try) (s s' : Books) : Prop := exists ts rest, tries = ts ++ rest /\ s' = others ts s.

(** What is left when it is: the others' commits, and between them one call's. *)
Definition recorded_once (c : Call) (tries : list Try) (s s' : Books) (r : option Z) : Prop :=
  exists before x after rest events r1 s1, tries = before ++ x :: after ++ rest /\
    log_usage id c events (tr_draws x) (tr_legacy x) (tr_meanwhile x (others before s)) = (Ok r1, s1) /\ s' = others after s1 /\
    (r = None \/ r = r1).

Lemma unrecorded_now tries s : unrecorded tries s s.
Proof. by exists [], tries. Qed.

Lemma unrecorded_later t tries s s' : unrecorded tries (tr_meanwhile t s) s' -> unrecorded (t :: tries) s s'.
Proof. intros (ts & rest & -> & ->). by exists (t :: ts), rest. Qed.

Lemma tries_idle c key tries : text_or (ca_key c) None = Some key -> Forall (leave_accounted c key) tries ->
  forall n events s r s', accounted_for c key s -> attempts n c events tries s = (r, s') -> r = None /\ unrecorded tries s s'.
Proof.
  intros Hkey Hall. induction Hall as [|t tries Hm Hall IH]; intros n events s r s' Hdone Hrun.
  { destruct n; injection Hrun as <- <-; (split; [done|apply unrecorded_now]). }
  destruct n as [|n]; [injection Hrun as <- <-; split; [done|apply unrecorded_now]|]. cbn [attempts] in Hrun. apply Hm in Hdone.
  assert (Hnext : forall events', attempts n c events' tries (tr_meanwhile t s) = (r, s') -> r = None /\ unrecorded (t :: tries) s s').
  { intros events' Hn. apply IH in Hn as [-> Hn]; [|done]. split; [done|by apply unrecorded_later]. }
  destruct (log_usage id c events _ _ _) as [[r1|e] s1] eqn:Hlog; [|by apply Hnext in Hrun].
  destruct (accounted_idle _ _ _ _ _ _ _ _ Hkey Hdone Hlog) as [-> ->].
  destruct (tr_end t); [|by apply Hnext in Hrun..]. injection Hrun as <- <-. split; [done|]. apply unrecorded_later, unrecorded_now.
Qed.

Lemma tries_once c key tries : text_or (ca_key c) None = Some key -> Forall (leave_accounted c key) tries ->
  forall n events s r s', attempts n c events tries s = (r, s') -> r = None /\ unrecorded tries s s' \/ recorded_once c tries s s' r.
Proof.
  intros Hkey Hall. induction Hall as [|t tries Hm Hall IH]; intros n events s r s' Hrun.
  { destruct n; injection Hrun as <- <-; left; (split; [done|apply unrecorded_now]). }
  destruct n as [|n]; [injection Hrun as <- <-; left; split; [done|apply unrecorded_now]|]. cbn [attempts] in Hrun.
  assert (Hnext : forall events', attempts n c events' tries (tr_meanwhile t s) = (r, s') ->
    r = None /\ unrecorded (t :: tries) s s' \/ recorded_once c (t :: tries) s s' r).
  { intros events' [[-> Hn]|(before & x & after & rest & ev & r1 & s1 & -> & Hlog & -> & Hr)]%IH; [left; split; [done|by apply unrecorded_later]|right].
    by exists (t :: before), x, after, rest, ev, r1, s1. }
  destruct (log_usage id c events _ _ _) as [[r1|e] s1] eqn:Hlog; [|by apply Hnext in Hrun].
  destruct (tr_end t); [|by apply Hnext in Hrun|]; right.
  - injection Hrun as <- <-. exists [], t, [], tries, events, r1, s1. split_and!; [done..|by right].
  - apply (tries_idle c key tries Hkey Hall) in Hrun as [-> (ts & rest & -> & ->)]; [|by eapply log_usage_accounts].
    exists [], t, ts, rest, events, r1, s1. split_and!; [done..|by left].
Qed.

(** An attempt whose answer was lost has closed the hold; the attempts after it, with
    nothing in between, meet the index on the log's hold and fail. *)
Lemma lost_answer_fails_rest c rid key tries n events d legacy s log s1 :
  ca_reservation c = Some rid -> text_or (ca_key c) None = Some key -> Forall (fun t => tr_meanwhile t = id) tries ->
  log_usage id c events d legacy s = (Ok (Some log), s1) -> forall events', attempts n c events' tries s1 = (None, s1).
Proof.
  intros Hres Hkey Hall Hlog. pose proof (log_usage_accounts _ _ _ _ _ _ _ _ Hkey Hlog) as Hdone.
  revert n. induction Hall as [|t tries Hm Hall IH]; intros n events'; [by destruct n|].
  destruct n as [|n]; [done|]. cbn [attempts]. rewrite Hm. change (id s1) with s1.
  destruct (log_usage id c events' _ _ s1) as [[r1|e] s2] eqn:Hagain; [|apply IH].
  destruct (accounted_idle _ _ _ _ _ _ _ _ Hkey Hdone Hagain) as [-> ->]. destruct (tr_end t); [done|apply IH..].
Qed.

(** ** The charge *)

Definition period_due (now : Z) (key : AlphaRouterApiKey) : bool :=
  match period_started_at key with
  | None => true
  | Some start => _period_delta (period_or_monthly (reset_period key)) <=? now - start
  end.

Definition adds (who : string * Z) (f : Q -> Q) (db db' : DB) : Prop :=
  forall st sid, used_counter st sid db' = if decide ((st, sid) = who) then f <$> used_counter st sid db else used_counter st sid db.

(** Without a hold, the key pays, or else the person. *)
Definition pays_directly (c : Call) (total : Q) (now : Z) (db db' : DB) : Prop :=
  match given_id (ca_api_key c), given_id (ca_user c) with
  | Some k, _ => if Qltb 0 total then
      forall key, api_keys db !! k = Some key -> period_due now key = false ->
        adds (SUBJECT_ALPHA_ROUTER_KEY, k) (fun used => (used + total)%Q) db db'
      else db' = db
  | None, Some u => if Qltb 0 total && ca_charge c then adds (SUBJECT_USER, u) (fun used => (used + total)%Q) db db' else db' = db
  | None, None => db' = db
  end.

(** Who pays [total] for the call: the subject of its open hold, else its key, else its person. *)
Definition pays (c : Call) (total : Q) (now : Z) (db db' : DB) : Prop :=
  match given_hold (ca_reservation c) ≫= (fun id => (fun r => (id, r)) <$> open_hold id db) with
  | Some (id, r) => adds (subject_of r) (fun used => round8 (used + total)) db db' /\ open_hold id db' = None
  | None => pays_directly c total now db db'
  end.

Lemma adds_users u total db :
  adds (SUBJECT_USER, u) (fun used => (used + total)%Q) db (with_users (alter (fun x => set_user_used (budget_used_usd x + total) x) u) db).
Proof.
  intros st sid. rewrite used_counter_users. destruct (decide ((st, sid) = (SUBJECT_USER, u))) as [Heq|Hne].
  - injection Heq as -> ->. rewrite decide_True by done. unfold used_counter. rewrite decide_True by done.
    by destruct (users db !! u).
  - rewrite decide_False; [done|]. intros [-> ->]. done.
Qed.

Lemma adds_key k total now db :
  adds (SUBJECT_ALPHA_ROUTER_KEY, k) (fun used => (used + total)%Q) db
    (with_api_keys (alter (fun x => charge_key (period_used_usd x + total) (total_used_usd x + total) now x) k) db).
Proof.
  intros st sid. rewrite used_counter_keys. destruct (decide ((st, sid) = (SUBJECT_ALPHA_ROUTER_KEY, k))) as [Heq|Hne].
  - injection Heq as -> ->. rewrite decide_True by done. unfold used_counter. rewrite decide_False, decide_True by done.
    by destruct (api_keys db !! k).
  - rewrite decide_False; [done|]. intros [-> ->]. done.
Qed.

Lemma record_key_usage_adds k total now db key db' :
  (0 < total)%Q -> api_keys db !! k = Some key -> period_due now key = false ->
  record_key_usage k total now db = (Ok tt, db') -> adds (SUBJECT_ALPHA_ROUTER_KEY, k) (fun used => (used + total)%Q) db db'.
Proof.
  intros Hpos Hkey Hdue. unfold record_key_usage.
  assert (Hq : Qle_bool total 0 = false) by (by apply Qle_bool_false). rewrite Hq.
  unfold maybe_reset_key_period, period_due in *. intros (u & db1 & Hreset & Hupd)%op_bind_inv.
  rewrite (op_bind_ok _ _ db (Some key) db) in Hreset by (unfold gets; by rewrite Hkey).
  destruct (period_started_at key) as [start|]; [|discriminate]. rewrite Hdue in Hreset. injection Hreset as _ <-.
  injection Hupd as <-. apply adds_key.
Qed.

Lemma settle_adds id r total log now db db' :
  (0 <= total)%Q -> open_hold id db = Some r -> settle id total log now db = (Ok true, db') ->
  adds (subject_of r) (fun used => round8 (used + total)) db db' /\ open_hold id db' = None.
Proof.
  intros Hnn Ho. rewrite settle_spec, Ho. intros [= <-]. split.
  - intros st sid. change (used_counter st sid (with_reservations _ ?x)) with (used_counter st sid x).
    rewrite used_counter_released. case_decide; [|done]. destruct (used_counter st sid db) as [q|]; [|done].
    cbn [fmap option_fmap option_map]. f_equal. apply (round8_proper _ _). rewrite !Q.max_r; [done|done|]. by rewrite Q.max_r.
  - apply closed_stays_closed. intros r'. cbn [reservations with_reservations]. rewrite lookup_insert_eq. by intros [= <-].
Qed.

Lemma charge_call_pays c log total now db db' : (0 <= total)%Q -> charge_call c log total now db = (Ok tt, db') -> pays c total now db db'.
Proof.
  intros Hnn. unfold charge_call, pays. intros (settled & db1 & Hset & Hrest)%op_bind_inv.
  assert (Hdirect : settled = false -> db1 = db -> pays_directly c total now db db').
  { intros -> ->. revert Hrest. unfold pays_directly.
    destruct (given_id (ca_api_key c)) as [k|]; [|destruct (given_id (ca_user c)) as [u|]; [|by intros [= <-]]].
    - destruct (Qltb 0 total) eqn:Hq; [|by intros [= <-]]. q_tests. intros Hrec key Hk Hd. by apply (record_key_usage_adds k total now db key).
    - destruct (Qltb 0 total && ca_charge c) eqn:Hq; [|by intros [= <-]]. apply andb_true_iff in Hq as [Hq _]. q_tests.
      unfold _apply_cost_to_user. assert (Hf : Qle_bool total 0 = false) by (by apply Qle_bool_false). rewrite Hf. intros [= <-]. apply adds_users. }
  destruct (given_hold (ca_reservation c)) as [id|]; cbn [mbind option_bind]; [|injection Hset as <- <-; by apply Hdirect].
  destruct (open_hold id db) as [r|] eqn:Ho; cbn [fmap option_fmap option_map].
  - pose proof Hset as Hset'. rewrite settle_spec, Ho in Hset'. injection Hset' as <- _.
    injection Hrest as <-. by apply (settle_adds id r total (Some log) now).
  - rewrite settle_spec, Ho in Hset. injection Hset as <- <-. by apply Hdirect.
Qed.

(** ** The books after a call *)

Lemma legacy_nonneg c events now legacy : costs_nonneg events -> costs_nonneg (events_or_legacy c events now legacy).
Proof.
  destruct events; [|done]. intros _. constructor; [|constructor]. unfold event_cost, legacy_usage_event.
  cbn [pe_quote cq_final default]. apply Q.le_max_l.
Qed.

Lemma charged_books c log a now s s' : charged c log a now s s' -> same_books s s'.
Proof.
  intros (db & _ & ->). destruct (touch_ok (ca_user_key c) now (with_accounts (fun _ => db) (with_logs (alter (accounted_log a) log) s)))
    as (s5 & Ht & Hs & _). rewrite Ht. exact Hs.
Qed.

Lemma given_back_books c log now s s' : given_back c log now s s' -> same_books s s'.
Proof. unfold given_back. intros ->. by destruct (given_hold _). Qed.

Lemma fresh_draws_same d s s' : same_books s s' -> fresh_draws d s -> fresh_draws d s'.
Proof. intros Hs [Ho Hf]. split; [by destruct Hs as [<- _]|by apply (fresh_same _ _ s)]. Qed.

Lemma log_usage_ok before c events d legacy s r s' :
  considerate before d -> books_ok s -> fresh_draws d s -> costs_nonneg events ->
  log_usage before c events d legacy s = (Ok r, s') -> books_ok s'.
Proof.
  intros Hb Hok Hd Hnn (_ & a & s2 & Hp & Hcases)%log_usage_inv.
  set (log := next_id (logs s)) in *. set (s1 := with_logs _ s) in *.
  assert (Hsame : same_books s s1) by done.
  apply (persist_ok _ _ _ _ s1) in Hp as [Hok2 _]; [|done|by apply (books_ok_same _ s)|by apply (fresh_draws_same d s)|by apply legacy_nonneg].
  destruct Hcases as [(_ & _ & Hback)|(_ & _ & Hch)]; (eapply books_ok_same; [|exact Hok2]);
    [by eapply given_back_books|by eapply charged_books].
Qed.

Lemma id_considerate d : considerate id d.
Proof. intros s Hok Hd. done. Qed.

(** A total that is not negative is left as it is. *)
Lemma sanitize_nonneg q : (0 <= q)%Q -> sanitize_cost_usd q = q.
Proof. intros Hq. unfold sanitize_cost_usd. apply Qle_bool_iff in Hq. by rewrite Hq. Qed.

(** C39: the spend that a call records is the spend that is charged, once: the
    log row carries the total of the operation's events, to the rounding of
    their columns; and that total, and nothing else, is what the hold's subject
    pays while its hold is closed, or else the key, or else the person, unless
    the call is not theirs to pay. *)
Theorem recorded_spend_is_charged c events d legacy s log s' :
  books_ok s -> fresh_draws d s -> costs_nonneg events -> log_usage id c events d legacy s = (Ok (Some log), s') ->
  exists row operation, logs s' !! log = Some row /\ lr_operation row = Some (dr_operation d) /\
    operations s' !! dr_operation d = Some operation /\ uo_total operation = numeric12 (lr_total row) /\
    (uo_subject_type operation, uo_subject_id operation) = resolved_subject (recording c log) /\ (0 <= lr_total row)%Q /\
    (Qabs (lr_total row - events_total (dr_operation d) s') <= half_tera * events_count (dr_operation d) s')%Q /\
    pays c (lr_total row) (dr_now d) (accounts s) (accounts s').
Proof.
  intros Hok Hd Hnn (_ & a & s2 & Hp & Hcases)%log_usage_inv. destruct Hcases as [(_ & [=] & _)|(Hc & [= ->] & Hch)].
  pose proof (persist_frame _ _ _ _ _ _ Hp) as [(Hacc & Hlogs & _) _].
  set (log := next_id (logs s)) in *. set (s1 := with_logs _ s) in *.
  apply (persist_ok _ _ _ _ s1) in Hp as [_ Hnew]; [|apply id_considerate|by apply (books_ok_same _ s)|by apply (fresh_draws_same d s)|by apply legacy_nonneg].
  destruct (Hnew Hc) as (Hname & Hpos & Herr & o & Ho & Htot & Hsub). pose proof (charged_books _ _ _ _ _ _ Hch) as (S1 & S2 & _).
  destruct Hch as (db & Hcharge & Hs'). rewrite sanitize_nonneg in Hcharge by done.
  destruct (touch_ok (ca_user_key c) (dr_now d) (with_accounts (fun _ => db) (with_logs (alter (accounted_log a) log) s2)))
    as (s5 & Ht & _ & Hl5 & Ha5 & _). rewrite Ht in Hs'. cbn [snd] in Hs'. subst s5.
  assert (Hrow : logs s' !! log = Some (accounted_log a (new_log c (dr_now d)))).
  { rewrite Hl5. cbn [logs with_accounts with_logs]. rewrite lookup_alter_eq, Hlogs. unfold s1. cbn [logs with_logs]. by rewrite lookup_insert_eq. }
  exists (accounted_log a (new_log c (dr_now d))), o. split; [exact Hrow|]. cbn [lr_operation lr_total accounted_log].
  rewrite sanitize_nonneg by done. split; [by rewrite Hname|]. split; [by rewrite <- S1|]. split; [done|]. split; [exact Hsub|].
  split; [done|]. split.
  - unfold events_total, events_count in *. by rewrite <- S2.
  - rewrite Ha5. cbn [accounts with_accounts]. apply (charge_call_pays c log); [done|]. by rewrite Hacc in Hcharge.
Qed.

(** C38: however the answers of its commits are lost, the usage of a turn that has a
    hold or an event, or a helper's, is recorded at most once.  Whatever others
    commit between the three attempts, as long as they take away neither an
    operation nor its log row and open no hold again, the books are afterwards
    what the others made of them or, between their commits, exactly what one
    call makes of them, with its one operation, one log row and one charge.  An
    attempt that reports a log reports that call's.  A turn without a hold and
    without events has no key of its own: it is left out, and may be charged
    twice. *)
Theorem usage_recorded_once :
  (forall t events key tries s r s',
     accounting_key (tu_reservation t) events = Some key -> Forall (leave_accounted (turn_call t events) key) tries ->
     _persist_stream_usage t events tries s = (r, s') ->
     r = None /\ unrecorded tries s s' \/ recorded_once (turn_call t events) tries s s' r) /\
  (forall t events, accounting_key (tu_reservation t) events = None <-> given_hold (tu_reservation t) = None /\ events = []) /\
  (forall h event tries s,
     Forall (leave_accounted (helper_call h event) (auxiliary_key (he_key h) (he_reservation h) event)) tries ->
     unrecorded tries s (settle_auxiliary_usage h event tries s) \/
     exists r, recorded_once (helper_call h event) tries s (settle_auxiliary_usage h event tries s) r).
Proof.
  split; [|split].
  - intros t events key tries s r s' Hkey Hall Hrun. refine (tries_once _ key tries _ Hall _ _ _ _ _ Hrun).
    cbn [ca_key turn_call]. rewrite Hkey. revert Hkey. unfold accounting_key.
    destruct (given_hold _); [by intros [= <-]|]. destruct events; [done|by intros [= <-]].
  - intros t events. unfold accounting_key. destruct (given_hold _), events; naive_solver.
  - intros h event tries s Hall. unfold settle_auxiliary_usage.
    destruct (attempts 3 (helper_call h event) [event] tries s) as [r s'] eqn:Hrun. cbn [snd].
    assert (Hkey : text_or (ca_key (helper_call h event)) None = Some (auxiliary_key (he_key h) (he_reservation h) event)).
    { cbn [ca_key helper_call]. unfold auxiliary_key. destruct (text_or (he_key h) None) as [k|] eqn:Hk.
      - destruct (he_key h) as [[|x k']|]; [discriminate| |discriminate]. by injection Hk as <-.
      - by destruct (given_hold (he_reservation h)). }
    apply (tries_once _ _ _ Hkey Hall) in Hrun as [[_ ?]|?]; [by left|right; by exists r].
Qed.

(** ** Any sequence of calls *)

(** The calls that are committed; one that raises is rolled back and leaves
    what was there.  [step_account] is any call of the budget services. *)
Inductive books_step (s : Books) : Books -> Prop :=
  | step_call before c events d legacy r s' :
      considerate before d -> fresh_draws d s -> costs_nonneg events ->
      log_usage before c events d legacy s = (Ok r, s') -> books_step s s'
  | step_record before rc events d a s' :
      considerate before d -> fresh_draws d s -> costs_nonneg events ->
      persist_usage_operation before rc events d s = (Ok a, s') -> books_step s s'
  | step_correct event actual run entry now delta s' :
      ledger s !! entry = None -> reconcile_usage_event event actual run entry now s = (Ok delta, s') -> books_step s s'
  | step_run id provider source connection first last raw now run s' :
      create_reconciliation_run id provider source connection first last raw now s = (Ok run, s') -> books_step s s'
  | step_finish run error unmatched now s' :
      finish_reconciliation_run run error unmatched now s = (Ok tt, s') -> books_step s s'
  | step_rate provider service unit price model connection source effective expires metadata now row s' :
      create_configured_pricing_snapshot provider service unit price model connection source effective expires metadata now s = (Ok row, s') ->
      books_step s s'
  | step_account A (m : op DB A) r s' : on_accounts m s = (r, s') -> books_step s s'.

Lemma replace_active_books scope effective row s n s' : replace_active scope effective row s = (Ok n, s') -> same_books s s'.
Proof.
  unfold replace_active. intros (u & s1 & [= _ <-] & Hrun)%op_bind_inv. apply op_bind_inv in Hrun as (new & s2 & [= <- <-] & Hrun).
  apply op_bind_inv in Hrun as (u2 & s3 & [_ ->]%insert_unique_ok & [= _ <-]). done.
Qed.

Lemma create_rate_books provider service unit price model connection source effective expires metadata now s n s' :
  create_configured_pricing_snapshot provider service unit price model connection source effective expires metadata now s = (Ok n, s') ->
  same_books s s'.
Proof.
  unfold create_configured_pricing_snapshot.
  destruct (py_lower (strip provider)); [done|]. destruct (py_lower (strip service)); [done|].
  destruct (_normalize_unit (Some unit)); [done|]. destruct (match price with Finite q => _ | _ => _ end); [|done].
  cbv zeta. case_match; [done|]. unfold try_commit.
  destruct (replace_active _ _ _ s) as [[m|e] s1] eqn:Hr; [intros [= <- <-]; by eapply replace_active_books|].
  intros Hx. destruct (bool_decide (e = IntegrityError)); discriminate Hx.
Qed.

Lemma books_step_ok s s' : books_ok s -> books_step s s' -> books_ok s'.
Proof.
  intros Hok Hstep. destruct Hstep as [before c events d legacy r s' Hb Hd Hc Hrun|before rc events d a s' Hb Hd Hc Hrun|
    event actual run entry now delta s' Hf Hrun|id provider source connection first last raw now run s' [= _ <-]|
    run error unmatched now s' [= <-]|provider service unit price model connection source effective expires metadata now row s' Hrun|
    A m r s' [_ Hs]%on_accounts_inv].
  - by eapply log_usage_ok.
  - by eapply persist_ok.
  - apply reconcile_inv in Hrun as (ev & o & He & Ho & [(l & row & _ & _ & _ & ->)|(Hk & _ & Hsame & _)]); [done|].
    eapply books_ok_same; [exact Hsame|]. by apply corrected_keeps.
  - by apply (books_ok_same _ s).
  - by apply (books_ok_same _ s).
  - apply create_rate_books in Hrun. by apply (books_ok_same _ s).
  - rewrite Hs. by apply (books_ok_same _ s).
Qed.

Definition no_records (s : Books) : Prop := operations s = ∅ /\ usage_events s = ∅ /\ ledger s = ∅.

Lemma no_records_ok s : no_records s -> books_ok s.
Proof.
  intros (Ho & He & Hl). split; rewrite ?Ho, ?He, ?Hl; intros *; rewrite ?lookup_empty; try done.
Qed.

(** C37: over any sequence of recordings, corrections, rates and budget calls,
    the ledger adds up: what it says of an event is the event's cost, to the
    rounding of twelve decimals at each correction (exactly when there was
    none); an operation's total is the sum of its events', to the rounding of
    their columns; every entry is of an existing event and of the subject of its
    operation; and no operation, event or entry is recorded twice under one key. *)
Theorem ledger_adds_up s0 s :
  no_records s0 -> rtc books_step s0 s ->
  (forall e row, usage_events s !! e = Some row ->
     is_Some (operations s !! ue_operation row) /\ (Qabs (ledger_sum e s - final_cost row) <= 2 * half_tera * adjustments e s)%Q) /\
  (forall o row, operations s !! o = Some row -> (Qabs (uo_total row - events_total o s) <= half_tera * (1 + events_count o s))%Q) /\
  (forall l row, ledger s !! l = Some row -> exists e event o,
     ce_event row = Some e /\ usage_events s !! e = Some event /\ operations s !! ue_operation event = Some o /\
     ce_subject_type row = uo_subject_type o /\ ce_subject_id row = uo_subject_id o) /\
  (forall o o' row row', operations s !! o = Some row -> operations s !! o' = Some row' -> uo_key row = uo_key row' -> o = o') /\
  (forall l l' row row', ledger s !! l = Some row -> ledger s !! l' = Some row' -> ce_key row = ce_key row' -> l = l').
Proof.
  intros Hs0%no_records_ok Hrtc.
  assert (Hok : books_ok s) by (apply (rtc_invariant books_step books_ok s0); [intros; by eapply books_step_ok|done|done]).
  destruct Hok as [B1 B2 B3 B4 B5 B6 B7]. split_and!; [|intros o row Ho; by apply B4| |exact B5|exact B7].
  - intros e row He. split; [by eapply B1|by apply B2].
  - intros l row (e & ev & o & E1 & E2 & E3 & _ & E4 & E5)%B3. by exists e, ev, o.
Qed.
End logging_facts.

(** ** Witnesses *)

Section witness.
#[local] Existing Instance ascii_str.
#[local] Existing Instance sample_ints.
#[local] Existing Instance sample_repr.
#[local] Existing Instance sample_tokens.
#[local] Existing Instance sample_numbers.
#[local] Existing Instance sample_float_text.

Definition draws (name : string) (now : Z) : Draws :=
  MkDraws ("op-" +:+ name) (fun n => ("event-" +:+ name +:+ pretty n, "entry-" +:+ name +:+ pretty n)) now.

Definition call_event : PendingUsageEvent :=
  capture_usage_event no_price_list sample_answer None (Some sample_model)
    (MkAttempt (Some (of_string "acme")) (of_string "llm") (of_string "chat") (Some (of_string "acme-1")) 0 (of_string STATUS_SUCCEEDED)
       None None no_counts None None [] [] None (Some (of_string "turn-1"))) 1000 [].

(** Ada has 1000 dollars and a hold of 400 for the turn. *)
Definition ada_accounts : DB := MkDB (<[1 := MkUser true None 1000 0 400 None]> ∅) ∅
  (<["h1" := MkReservation SUBJECT_USER 1 (of_string "turn") "chat" "acme-1" 400 None STATUS_HELD None 900 2000 None]> ∅) ∅ [] [] [] [].
Definition ada_books : Books := MkBooks ada_accounts ∅ ∅ ∅ [] ∅ ∅ ∅ ∅.
Definition ada_turn : Turn := MkTurn (Some 1) None None (Some "h1") (of_string "acme-1") (of_string "alpha_router_chat") None 100 50 40 330 true.
Definition ada_call : Call := turn_call ada_turn [call_event].

Definition ada_charged : Books := Eval vm_compute in (log_usage id ada_call [call_event] (draws "a" 1000) [] ada_books).2.

Lemma ada_logs : log_usage id ada_call [call_event] (draws "a" 1000) [] ada_books = (Ok (Some 1), ada_charged).
Proof. vm_compute. reflexivity. Qed.

Lemma draws_injective name now m k :
  (dr_event (draws name now) m).1 = (dr_event (draws name now) k).1 \/ (dr_event (draws name now) m).2 = (dr_event (draws name now) k).2 -> m = k.
Proof. cbn [draws dr_event fst snd]. intros [Heq|Heq]; by apply (inj (String.append _)), (inj (String.append _)), (inj pretty) in Heq. Qed.

Lemma draws_fresh name now s : no_records s -> fresh_draws (draws name now) s.
Proof.
  intros (Ho & He & Hl). split; [by rewrite Ho|]. split; [|apply draws_injective].
  intros m _. split; by rewrite ?He, ?Hl.
Qed.

Lemma call_event_nonneg : costs_nonneg [call_event].
Proof. constructor; [apply captured_cost_nonneg|constructor]. Qed.

Lemma recorded_spend_is_charged_witness :
  used_counter SUBJECT_USER 1 (accounts ada_charged) = Some (round8 (0 + 330)) /\ open_hold "h1" (accounts ada_charged) = None.
Proof.
  destruct (recorded_spend_is_charged ada_call [call_event] (draws "a" 1000) [] ada_books 1 ada_charged
    ltac:(by apply no_records_ok) ltac:(by apply draws_fresh) call_event_nonneg ada_logs)
    as (row & o & Hrow & _ & _ & _ & _ & _ & _ & Hpays).
  assert (Ht : lr_total row = 330%Q) by (vm_compute in Hrow; by injection Hrow as <-). rewrite Ht in Hpays.
  destruct Hpays as [Hadds Hclosed]. split; [exact (Hadds SUBJECT_USER 1)|exact Hclosed].
Defined.

(** The answer of the first commit is lost, and Bob's key is used meanwhile. *)
Definition bob_calls (s : Books) : Books := (touch_user_key_last_used (Some 5) 1001 s).2.
Definition lost_then_retried : list Try :=
  [MkTry id (draws "a" 1000) (of_string "u1") Lost; MkTry bob_calls (draws "b" 1001) (of_string "u2") Committed;
   MkTry bob_calls (draws "c" 1002) (of_string "u3") Committed].

Lemma usage_recorded_once_witness :
  (_persist_stream_usage ada_turn [call_event] lost_then_retried ada_books).2 <> ada_books /\
  recorded_once ada_call lost_then_retried ada_books (_persist_stream_usage ada_turn [call_event] lost_then_retried ada_books).2 None.
Proof.
  assert (Hall : Forall (leave_accounted ada_call (of_string "chat:h1")) lost_then_retried).
  { unfold lost_then_retried. rewrite !Forall_cons. by split_and!; [intros s Hs; exact Hs..|apply Forall_nil]. }
  assert (Hopen : forall ts rest, lost_then_retried = ts ++ rest -> is_Some (open_hold "h1" (accounts (others ts ada_books)))).
  { intros ts rest Heq. unfold lost_then_retried in Heq. destruct ts as [|t1 [|t2 [|t3 [|t4 ts]]]]; simplify_eq/=; vm_compute; by eexists. }
  assert (Hover : open_hold "h1" (accounts (_persist_stream_usage ada_turn [call_event] lost_then_retried ada_books).2) = None)
    by (vm_compute; reflexivity).
  assert (Hnone : (_persist_stream_usage ada_turn [call_event] lost_then_retried ada_books).1 = None) by (vm_compute; reflexivity).
  destruct (Hopen [] lost_then_retried eq_refl) as [x0 Hx0]. change (others [] ada_books) with ada_books in Hx0.
  split; [intros Heq; congruence|]. clear x0 Hx0.
  destruct (_persist_stream_usage ada_turn [call_event] lost_then_retried ada_books) as [r s'] eqn:Hrun. cbn [fst snd] in *. subst r.
  destruct (proj1 usage_recorded_once ada_turn [call_event] (of_string "chat:h1") lost_then_retried ada_books None s' eq_refl Hall Hrun)
    as [[_ (ts & rest & Heq & ->)]|Honce]; [|exact Honce].
  destruct (Hopen ts rest Heq) as [x Hx]. congruence.
Defined.

(** The provider's own figure, 300, arrives later. *)
Definition with_run : Books := Eval vm_compute in (create_reconciliation_run "run-1" (Some (of_string "acme")) None None None None None 2000 ada_charged).2.
Definition ada_corrected : Books :=
  Eval vm_compute in (reconcile_usage_event "event-a0" (Finite 300) "run-1" "entry-x" 3000 with_run).2.

Lemma ledger_adds_up_witness :
  rtc books_step ada_books ada_corrected /\ (ledger_sum "event-a0" ada_corrected == 300)%Q /\
  (forall e row, usage_events ada_corrected !! e = Some row ->
     is_Some (operations ada_corrected !! ue_operation row) /\
     (Qabs (ledger_sum e ada_corrected - final_cost row) <= 2 * half_tera * adjustments e ada_corrected)%Q).
Proof.
  assert (Hempty : no_records ada_books) by done.
  assert (Hrtc : rtc books_step ada_books ada_corrected).
  { apply (rtc_l _ _ ada_charged).
    { apply (step_call _ id ada_call [call_event] (draws "a" 1000) [] (Some 1)); [apply id_considerate|by apply draws_fresh|apply call_event_nonneg|apply ada_logs]. }
    apply (rtc_l _ _ with_run); [apply (step_run _ "run-1" (Some (of_string "acme")) None None None None None 2000 "run-1"); vm_compute; reflexivity|].
    apply rtc_once. eapply (step_correct _ "event-a0" (Finite 300) "run-1" "entry-x" 3000); [vm_compute; reflexivity|vm_compute; reflexivity]. }
  split; [exact Hrtc|]. split; [vm_compute; reflexivity|].
  exact (proj1 (ledger_adds_up ada_books ada_corrected Hempty Hrtc)).
Defined.

(** ** What goes wrong *)

Definition used_by_ada (s : Books) : option Q := used_counter SUBJECT_USER 1 (accounts s).

(** A turn without a hold and without events has no key: when the answer of its
    first commit is lost, its five dollars are charged twice. *)
Lemma keyless_turn_charged_twice :
  let turn := MkTurn (Some 1) None None None (of_string "acme-1") (of_string "alpha_router_chat") None 10 10 0 5 true in
  used_by_ada (_persist_stream_usage turn [] lost_then_retried ada_books).2 = Some 10%Q /\
  used_by_ada (_persist_stream_usage turn [] (drop 1 lost_then_retried) ada_books).2 = Some 5%Q.
Proof. vm_compute. split; reflexivity. Qed.

(** A call that is not the person's to pay moves their budget all the same when
    the provider's figure arrives: 70 dollars more than was quoted. *)
Lemma uncharged_call_moves_budget :
  let helper := MkHelper (Some 1) (of_string "acme-1") None true (of_string "memory_extraction") (of_string "system") (of_string "memory") None None false in
  let recorded := settle_auxiliary_usage helper call_event [MkTry id (draws "m" 1000) [] Committed] ada_books in
  let run := (create_reconciliation_run "run-1" (Some (of_string "acme")) None None None None None 2000 recorded).2 in
  used_by_ada recorded = Some 0%Q /\
  (default 0%Q (used_by_ada (reconcile_usage_event "event-m0" (Finite 400) "run-1" "entry-x" 3000 run).2) == 70)%Q.
Proof. vm_compute. split; reflexivity. Qed.
End witness.
